(* ===== verification/_CoqProject ===== *)
-Q . S2P
Prelude.v
Qsort.v
Rdata.v
Name.v
NameText.v
FromWire.v
Compress.v
Slab.v
SlabIndex.v
SlabBuild.v
SlabSpec.v
SlabTransform.v
SlabOps.v
SlabAlgebra.v
RbtdbRdataset.v
Float32.v
Profiler.v
Race.v
Order.v
Answer.v
LoadBalance.v
Message.v
Opt.v
MessageRender.v
RenderSpec.v
RenderPlan.v
RenderSection.v
RenderMessage.v
RenderOrder.v
ClientSend.v
SendSpec.v
MessageParse.v
Gather.v
ParseRules.v
RRtypes.v
ParseSpec.v
ParseRecord.v
ParseMessage.v
RenderParse.v
Rbt.v
RbtTree.v
RbtLevel.v
RbtAdd.v
RbtFix.v
RbtSwap.v
RbtDelete.v
NameTree.v
NameChain.v
NameFind.v
NameDelete.v
NameForest.v
NameHash.v
NameLink.v
NameSplit.v
NameReplace.v
NameGrow.v
NameAdd.v
NameSearch.v
NameFree.v
NameRemove.v
NameErase.v
NameFindSpec.v
NameWalk.v
NamePred.v
NameNext.v
NameIterate.v
NameMap.v
NameDestroy.v
Heap.v
RwLock.v
Samples.v
SamplesIsc.v
SamplesRbt.v
SamplesTree.v
SamplesMessage.v
