(* ===== verification/Prelude.v ===== *)
(** * lb-bind: a verification library for the load-balancing name server

    lb-bind is BIND 9.9.0 with a load balancer in [named]: a rdataset with
    several addresses is answered in the order of the loads that the machines
    behind the addresses report. The library models the parts of the program
    that produce such an answer, and the parts of BIND they stand on, as
    functions on explicit states, and proves what they do. All paths below are
    relative to [src/bind-9.9.0/].

    ** How the program works

    A zone's records are stored as slabs ([lib/dns/rdataslab.c]): one block of
    memory for each rdataset, with a table of offsets in load order and the
    records in some physical order. The slabs hang from the nodes of a name
    tree ([lib/dns/rbt.c]), a tree of red-black trees with a hash table. The
    profiler thread of [bin/named/profiler.c] rewrites every slab with several
    addresses once ([dns_rdataslab_transformrdataset]), then polls the machines,
    sorts its array of loads with the C library's [qsort], and writes that
    order into the slab's table ([dns_rdataslab_sort_fromrdataset]) while
    queries read it. A query finds the name's node ([dns_rbt_findnode]), binds
    an iterator to the slab ([lib/dns/rbtdb.c]), gives it the order of the
    configuration ([lib/dns/order.c]), and renders the records into the
    message ([lib/dns/rdataset.c]) with compressed names ([lib/dns/compress.c],
    [lib/dns/name.c]). Locks ([lib/isc/rwlock.c]) and heaps ([lib/isc/heap.c])
    keep the database.

    ** Conventions

    A function of the code is a function to [option]: [None] is what the code
    must never do (a failed [REQUIRE] or [INSIST], an access through [NULL] or
    out of a buffer, an array overrun), and every error the code reports is a
    value of [isc_result], below. A machine integer is a [Z] with its wrap
    written out ([u8], [u16], [u32], [s32]); counts that cannot leave their
    range are [nat]. Memory that the code aliases is explicit: the bytes of
    the slabs are one list that rdatasets point into, the nodes of the name
    tree a finite map from addresses. Code outside the repository is a
    parameter with its documented laws, collected in classes where several
    theorems share them ([Qsort], [RdatasetMethods]).

    Loops whose termination is not structural have fuel, and the theorems show
    that the fuel given by the model suffices: they say that the function
    returns [Some]. The bounds are: for a walk in a level of the tree or a
    bucket of its hash table, the number of nodes in memory; for a descent,
    the labels of the name, or the 254 levels of a chain; for the parsers, the
    length of the input; for an element that moves in a heap, the size of the
    heap; for a sort and a reader together, four steps for each record and one
    ([race_terminates]).

    ** The files

    Names. [Name.v]: comparison, equality, hashes, wildcards, label sequences
    of [lib/dns/name.c]; [fullcompare_spec] computes the DNSSEC order and
    [compare_total_order] shows that it is one. [NameText.v]: text to name and
    back, as the state machines they are, with a round trip. [FromWire.v]:
    the decompressing parser of messages, which accepts exactly the encodings
    of names and ends on any bytes. [Compress.v]: the compression table and
    [dns_name_towire], correct for the message it describes, with the round
    trip through [FromWire.v] and the exact effect of a rollback.

    Slabs. [Rdata.v]: records and their comparison. [Slab.v]: the layout
    ([slab_at]) and the iterator of [rdataslab.c]. [SlabIndex.v],
    [SlabTransform.v], [SlabBuild.v], [SlabSpec.v]: writing the load order,
    the transformation in place, building a slab with duplicates removed.
    [SlabOps.v], [SlabAlgebra.v]: size, search, merge, subtract and equality,
    and what they are on sets of records. [RbtdbRdataset.v]: the two method
    tables of [rbtdb.c] agree; reference counts.

    The load balancer. [Float32.v], [Qsort.v]: its arithmetic and its sort.
    [Profiler.v]: polling, the comparison of loads, registration and rounds.
    [Race.v]: every interleaving of a sort with a reader. [Order.v],
    [Answer.v]: the configured order and the rendering of an answer.
    [LoadBalance.v]: [balanced_answer] composes all of these, from the loads
    to the message.

    The name tree. [Rbt.v]: one level on its pointers. [RbtTree.v] is the
    specification, red-black trees with their repairs on paths;
    [RbtLevel.v], [RbtAdd.v], [RbtFix.v], [RbtSwap.v], [RbtDelete.v] show that
    the code implements it. [NameTree.v], [NameChain.v], [NameFind.v],
    [NameDelete.v]: the tree of trees, its hash table, chains, search,
    deletion and destruction. [NameForest.v] (the
    levels), [NameHash.v] (the table) and [NameGrow.v] ([name_tree], both and
    the node count) hold the invariant; [NameLink.v], [NameSplit.v],
    [NameReplace.v], [NameAdd.v] show that an addition keeps it, and
    [NameFree.v], [NameRemove.v], [NameErase.v] that a deletion does;
    [NameSearch.v], [NameFindSpec.v], [NameWalk.v], [NamePred.v] what a search
    finds, including the DNSSEC predecessor; [NameNext.v] and
    [NameIterate.v] that chains visit every node in the DNSSEC order, forward
    and backward. [NameMap.v] has the properties and the refinement: under
    additions and deletions the tree is a map from names to data.
    [NameDestroy.v]: the walk that frees a tree without a stack, in portions.

    Messages. [Message.v]: the message, its creation and reset, the search of
    a section and the reply. [MessageParse.v]: [dns_message_parse] in a monad
    of state and errors whose state has the locals that the exit code of the
    C functions looks at. [ParseRules.v] has proof rules for that monad and
    the invariant, that the pools have given out what the message refers to;
    [Gather.v] what it is to gather records into names and rdatasets;
    [ParseSpec.v] and [ParseRecord.v] apply both to a question and a record,
    and [ParseMessage.v] to the message: [parse_safe], [parse_gathers],
    [parse_accepts]. A name is tried twice, since a fresh scratch buffer of
    512 bytes has room for any name; a record at most ten times, since the
    size asked for doubles up to 2^17.

    The [isc] library. [Heap.v]: the heap is a priority queue, and the heaps
    of the databases stay in order. [RwLock.v]: the readers-writer lock, one
    atomic operation a step: exclusion, and no lost wake-up.

    [Samples.v], [SamplesIsc.v], [SamplesRbt.v], [SamplesTree.v] and
    [SamplesMessage.v] apply each theorem with hypotheses to a concrete input.

    ** What is not modelled

    The versions, the cleaning and the locking of [rbtdb.c]; of messages the
    TSIG and SIG(0) keys, the rendering around that of a rdataset and the text
    form; and the resolver, zone, server and tool code: it is driven by events,
    sockets and timers, or is glue over the parts modelled here. Of the
    types of records only the address is modelled, the generated dispatch over
    types is a parameter. The profiler's walk over views, zones and nodes is
    the list of rdatasets it finds. [isc_mem_get] can fail wherever the code
    asks; an address that was freed is not in memory, and an allocation may
    return it again. The printing functions of the name tree are not
    modelled. *)

From stdpp Require Export base list list_numbers numbers option sorting sets.
From Stdlib Require Export ZArith Lia.

(** ** Tactics *)

(** [lia] with division and modulo by constants unfolded. *)
Ltac dlia := Z.div_mod_to_equations; lia.

(** Case analysis on the first [match] or [if] of the goal. *)
Ltac dmatch :=
  match goal with
  | |- context [match ?x with _ => _ end] => destruct x eqn:?
  end.

(** Inversion of a chain of option binds in a hypothesis. *)
Ltac inv_bind :=
  repeat match goal with
    | H : (_ ≫= _) = Some _ |- _ =>
        apply bind_Some in H; destruct H as (? & ? & ?)
    | H : Some _ = Some _ |- _ => injection H as H; subst
    | H : None = Some _ |- _ => discriminate H
    end.

Create HintDb bytes.
Create HintDb mem.

(** ** Result codes

    The codes of [lib/isc/include/isc/result.h] and
    [lib/dns/include/dns/result.h] that the modelled functions return. *)
Inductive isc_result : Set :=
  | ISC_R_SUCCESS | ISC_R_NOMEMORY | ISC_R_NOSPACE | ISC_R_EXISTS
  | ISC_R_NOTFOUND | ISC_R_FAILURE | ISC_R_NOMORE | ISC_R_UNEXPECTEDEND
  | ISC_R_BADBASE64 | ISC_R_BADHEX | ISC_R_BADBASE32 | ISC_R_RANGE
  | ISC_R_QUOTA | ISC_R_SOFTQUOTA
  | DNS_R_UNCHANGED | DNS_R_NOTEXACT | DNS_R_NXRRSET | DNS_R_SINGLETON
  | DNS_R_BADLABELTYPE | DNS_R_BADPOINTER | DNS_R_DISALLOWED
  | DNS_R_NAMETOOLONG | DNS_R_EMPTYLABEL | DNS_R_BADESCAPE
  | DNS_R_LABELTOOLONG | DNS_R_PARTIALMATCH | DNS_R_NEWORIGIN | DNS_R_CONTINUE
  | ISC_R_UNEXPECTED | DNS_R_FORMERR | DNS_R_RECOVERABLE | DNS_R_EXTRADATA
  | DNS_R_NXDOMAIN.

#[export] Instance isc_result_eq_dec : EqDecision isc_result.
Proof. solve_decision. Defined.

(** ** Machine integers *)

(** Unsigned conversions. *)
Definition u8 (z : Z) : Z := z mod 2 ^ 8.
Definition u16 (z : Z) : Z := z mod 2 ^ 16.
Definition u32 (z : Z) : Z := z mod 2 ^ 32.
(** Conversion to a signed 32-bit integer (two's complement). *)
Definition s32 (z : Z) : Z := (z + 2 ^ 31) mod 2 ^ 32 - 2 ^ 31.

Definition is_byte (b : Z) : Prop := (0 <= b < 256)%Z.
Abbreviation bytes_ok := (Forall is_byte).

Lemma u8_range z : is_byte (u8 z).
Proof. unfold is_byte, u8. apply Z.mod_pos_bound. lia. Qed.

Lemma u32_range z : (0 <= u32 z < 2 ^ 32)%Z.
Proof. apply Z.mod_pos_bound. lia. Qed.

Lemma u8_small z : is_byte z → u8 z = z.
Proof. intros H. apply Z.mod_small, H. Qed.

Lemma u16_small z : (0 <= z < 2 ^ 16)%Z → u16 z = z.
Proof. apply Z.mod_small. Qed.

Lemma u32_small z : (0 <= z < 2 ^ 32)%Z → u32 z = z.
Proof. apply Z.mod_small. Qed.

#[export] Hint Resolve u8_range : bytes.

(** Big-endian fields, written out as the C code does. *)
Definition enc16 (v : Z) : list Z :=
  [Z.shiftr (Z.land v 0xff00) 8; Z.land v 0xff].

Definition enc32 (v : Z) : list Z :=
  [Z.shiftr (Z.land v 0xff000000) 24; Z.shiftr (Z.land v 0xff0000) 16;
   Z.shiftr (Z.land v 0xff00) 8; Z.land v 0xff].

(** [a * 256 + b] and [a << 24 | b << 16 | c << 8 | d] (as an
    [unsigned int]). *)
Definition dec16 (a b : Z) : Z := (a * 256 + b)%Z.
Definition dec32 (a b c d : Z) : Z :=
  u32 (Z.lor (Z.lor (Z.lor (Z.shiftl a 24) (Z.shiftl b 16)) (Z.shiftl c 8)) d).

Lemma land_shiftr_byte v k :
  (0 <= k)%Z →
  Z.shiftr (Z.land v (Z.shiftl 0xff k)) k = ((v / 2 ^ k) mod 256)%Z.
Proof.
  intros Hk. rewrite Z.shiftr_land, Z.shiftr_shiftl_l, Z.sub_diag by lia.
  change (Z.shiftl 255 0) with (Z.ones 8).
  rewrite Z.land_ones by lia. by rewrite Z.shiftr_div_pow2.
Qed.

Lemma land_byte v : Z.land v 0xff = (v mod 256)%Z.
Proof. change 255%Z with (Z.ones 8). by rewrite Z.land_ones by lia. Qed.

Lemma enc16_arith v : enc16 v = [(v / 256) mod 256; v mod 256]%Z.
Proof.
  unfold enc16. rewrite land_byte.
  by rewrite (land_shiftr_byte v 8 ltac:(lia) : Z.shiftr (Z.land v 0xff00) 8 = _).
Qed.

Lemma enc32_arith v :
  enc32 v = [(v / 2 ^ 24) mod 256; (v / 2 ^ 16) mod 256;
             (v / 256) mod 256; v mod 256]%Z.
Proof.
  unfold enc32. rewrite land_byte.
  rewrite (land_shiftr_byte v 8 ltac:(lia) : Z.shiftr (Z.land v 0xff00) 8 = _).
  rewrite (land_shiftr_byte v 16 ltac:(lia) : Z.shiftr (Z.land v 0xff0000) 16 = _).
  by rewrite (land_shiftr_byte v 24 ltac:(lia) :
                Z.shiftr (Z.land v 0xff000000) 24 = _).
Qed.

Lemma land_shiftl_small a b k :
  (0 <= k)%Z → (0 <= b < 2 ^ k)%Z → Z.land (Z.shiftl a k) b = 0%Z.
Proof.
  intros Hk Hb. destruct (decide (b = 0)%Z) as [->|Hnz]; [apply Z.land_0_r|].
  apply Z.bits_inj'. intros n Hn. rewrite Z.land_spec, Z.bits_0.
  destruct (decide (n < k)%Z); [by rewrite Z.shiftl_spec_low|].
  rewrite (Z.bits_above_log2 b n), andb_false_r; [done|lia|].
  apply Z.log2_lt_pow2; [lia|].
  apply (Z.lt_le_trans _ (2 ^ k)); [lia|]. apply Z.pow_le_mono_r; lia.
Qed.

Lemma lor_shiftl_add a b k :
  (0 <= k)%Z → (0 <= b < 2 ^ k)%Z → Z.lor (Z.shiftl a k) b = (a * 2 ^ k + b)%Z.
Proof.
  intros Hk Hb. pose proof (land_shiftl_small a b k Hk Hb) as H0.
  rewrite <- Z.shiftl_mul_pow2 by done.
  by rewrite <- Z.lxor_lor, <- Z.add_nocarry_lxor by done.
Qed.

Lemma dec32_arith a b c d :
  is_byte a → is_byte b → is_byte c → is_byte d →
  dec32 a b c d = (a * 2 ^ 24 + b * 2 ^ 16 + c * 256 + d)%Z.
Proof.
  unfold is_byte, dec32. intros Ha Hb Hc Hd.
  rewrite <- !Z.lor_assoc.
  rewrite (lor_shiftl_add c d 8), (lor_shiftl_add b _ 16),
    (lor_shiftl_add a _ 24) by (change (2 ^ 8)%Z with 256%Z;
      change (2 ^ 16)%Z with 65536%Z; change (2 ^ 24)%Z with 16777216%Z; lia).
  rewrite u32_small; lia.
Qed.

Lemma dec16_range a b : is_byte a → is_byte b → (0 <= dec16 a b < 2 ^ 16)%Z.
Proof. unfold is_byte, dec16. lia. Qed.

Lemma dec16_enc16 v :
  (0 <= v < 2 ^ 16)%Z →
  dec16 ((v / 256) mod 256) (v mod 256) = v.
Proof. unfold dec16. intros. dlia. Qed.

Lemma dec32_enc32 v :
  (0 <= v < 2 ^ 32)%Z →
  dec32 ((v / 2 ^ 24) mod 256) ((v / 2 ^ 16) mod 256)
        ((v / 256) mod 256) (v mod 256) = v.
Proof.
  intros. rewrite dec32_arith; unfold is_byte; dlia.
Qed.

Lemma enc16_bytes v : bytes_ok (enc16 v).
Proof.
  rewrite enc16_arith. repeat constructor; try apply Z.mod_pos_bound; lia.
Qed.

Lemma enc32_bytes v : bytes_ok (enc32 v).
Proof.
  rewrite enc32_arith. repeat constructor; try apply Z.mod_pos_bound; lia.
Qed.

Lemma enc16_length v : length (enc16 v) = 2.
Proof. done. Qed.

Lemma enc32_length v : length (enc32 v) = 4.
Proof. done. Qed.

#[export] Hint Resolve enc16_bytes enc32_bytes : bytes.

(** ** Byte memory

    A region of memory is the list of its bytes. Every access is checked:
    [None] is an access outside the region, which is undefined behaviour in
    the C code, so a theorem that an operation returns [Some] says that it
    stays inside the region. *)
Abbreviation mem := (list Z).

(** [memcpy] out of the region. *)
Definition mread (m : mem) (p n : nat) : option (list Z) :=
  if bool_decide (p + n <= length m) then Some (take n (drop p m)) else None.

(** [memcpy] into the region; one byte is [*p = b]. *)
Definition mwrite (m : mem) (p : nat) (bs : list Z) : option mem :=
  if bool_decide (p + length bs <= length m)
  then Some (take p m ++ bs ++ drop (p + length bs) m) else None.

(** [p[0] * 256 + p[1]] *)
Definition rd16 (m : mem) (p : nat) : option Z :=
  a ← m !! p; b ← m !! (p + 1); Some (dec16 a b).

(** [p[0] << 24 | p[1] << 16 | p[2] << 8 | p[3]] *)
Definition rd32 (m : mem) (p : nat) : option Z :=
  a ← m !! p; b ← m !! (p + 1); c ← m !! (p + 2); d ← m !! (p + 3);
  Some (dec32 a b c d).

Section mem.
Implicit Types (m : mem) (p q n : nat) (bs : list Z).

Lemma mread_length m p n bs : mread m p n = Some bs → length bs = n.
Proof.
  unfold mread. case_bool_decide; [|done]. intros [= <-].
  rewrite length_take, length_drop. lia.
Qed.

Lemma mread_bound m p n bs : mread m p n = Some bs → p + n <= length m.
Proof. unfold mread. by case_bool_decide. Qed.

Lemma mread_is_Some m p n : p + n <= length m → is_Some (mread m p n).
Proof. intros. unfold mread. rewrite bool_decide_true by done. by eexists. Qed.

Lemma mread_lookup m p n bs i :
  mread m p n = Some bs → i < n → bs !! i = m !! (p + i).
Proof.
  unfold mread. case_bool_decide; [|done]. intros [= <-] Hi.
  by rewrite lookup_take_lt, lookup_drop by done.
Qed.

(** A read is determined by the bytes it covers. *)
Lemma mread_intro m p n bs :
  length bs = n → (∀ i b, bs !! i = Some b → m !! (p + i) = Some b) →
  p + n <= length m → mread m p n = Some bs.
Proof.
  intros Hlen Hl Hb. unfold mread. rewrite bool_decide_true by done.
  f_equal. apply list_eq. intros i.
  destruct (decide (i < n)) as [Hi|Hi].
  - rewrite lookup_take_lt, lookup_drop by done.
    destruct (bs !! i) eqn:E; [by apply Hl|].
    apply lookup_ge_None in E. lia.
  - rewrite lookup_take_ge, (lookup_ge_None_2 bs) by lia. done.
Qed.

Lemma mwrite_length m p bs m' :
  mwrite m p bs = Some m' → length m' = length m.
Proof.
  unfold mwrite. case_bool_decide; [|done]. intros [= <-].
  rewrite !length_app, length_take, length_drop. lia.
Qed.

Lemma mwrite_bound m p bs m' :
  mwrite m p bs = Some m' → p + length bs <= length m.
Proof. unfold mwrite. by case_bool_decide. Qed.

Lemma mwrite_is_Some m p bs :
  p + length bs <= length m → is_Some (mwrite m p bs).
Proof. intros. unfold mwrite. rewrite bool_decide_true by done. by eexists. Qed.

Lemma mwrite_lookup m p bs m' i :
  mwrite m p bs = Some m' →
  m' !! i = if decide (p <= i < p + length bs) then bs !! (i - p) else m !! i.
Proof.
  unfold mwrite. case_bool_decide; [|done]. intros [= <-].
  destruct (decide (i < p)).
  - rewrite lookup_app_l by (rewrite length_take; lia).
    rewrite lookup_take_lt by done. by case_decide; [lia|].
  - rewrite lookup_app_r by (rewrite length_take; lia).
    rewrite length_take, Nat.min_l by lia.
    destruct (decide (i < p + length bs)).
    + rewrite lookup_app_l by lia. by case_decide; [|lia].
    + rewrite lookup_app_r by lia. rewrite lookup_drop.
      case_decide; [lia|]. f_equal. lia.
Qed.

(** The frame rule: what a write does not cover is as before. *)
Lemma mwrite_frame m p bs m' i :
  mwrite m p bs = Some m' → i < p ∨ p + length bs <= i → m' !! i = m !! i.
Proof. intros H ?. rewrite (mwrite_lookup _ _ _ _ _ H). by case_decide; [lia|]. Qed.

Lemma mwrite_same m p bs m' i :
  mwrite m p bs = Some m' → i < length bs → m' !! (p + i) = bs !! i.
Proof.
  intros H ?. rewrite (mwrite_lookup _ _ _ _ _ H).
  case_decide; [|lia]. f_equal. lia.
Qed.

Lemma mread_mwrite_same m p bs m' :
  mwrite m p bs = Some m' → mread m' p (length bs) = Some bs.
Proof.
  intros H. apply mread_intro; [done| |].
  - intros i b Hi. rewrite (mwrite_same _ _ _ _ _ H); [done|].
    by apply lookup_lt_Some in Hi.
  - rewrite (mwrite_length _ _ _ _ H). by eapply mwrite_bound.
Qed.

(** Part of a read. *)
Lemma mread_sub m p n bs a k :
  mread m p n = Some bs → a + k <= n → mread m (p + a) k = Some (take k (drop a bs)).
Proof.
  unfold mread. case_bool_decide; [|done]. intros [= <-] Hak.
  rewrite bool_decide_true by lia. f_equal.
  rewrite skipn_firstn_comm, take_take, drop_drop. f_equal. lia.
Qed.

(** A read at a range on which two memories agree. *)
(** A read of a region that has grown. *)
Lemma mread_app m x p n bs : mread m p n = Some bs → mread (m ++ x) p n = Some bs.
Proof.
  intros Hr. pose proof (mread_length _ _ _ _ Hr). pose proof (mread_bound _ _ _ _ Hr).
  apply mread_intro; [done| |rewrite length_app; lia].
  intros i b Hi. apply lookup_app_l_Some. rewrite <- Hi. symmetry.
  apply (mread_lookup _ _ _ _ i Hr). apply lookup_lt_Some in Hi. lia.
Qed.

Lemma mread_agree m m' p n :
  length m' = length m → (∀ i, p <= i < p + n → m' !! i = m !! i) →
  mread m' p n = mread m p n.
Proof.
  intros Hl Ha. unfold mread. rewrite Hl. case_bool_decide; [|done].
  f_equal. apply list_eq. intros i. destruct (decide (i < n)).
  - rewrite !lookup_take_lt, !lookup_drop by done. apply Ha. lia.
  - by rewrite !lookup_take_ge by lia.
Qed.

Lemma rd16_agree m m' p :
  (∀ i, p <= i < p + 2 → m' !! i = m !! i) → rd16 m' p = rd16 m p.
Proof. intros Ha. unfold rd16. rewrite !Ha by lia. done. Qed.

Lemma rd32_agree m m' p :
  (∀ i, p <= i < p + 4 → m' !! i = m !! i) → rd32 m' p = rd32 m p.
Proof. intros Ha. unfold rd32. rewrite !Ha by lia. done. Qed.

Lemma mread_frame m p bs m' q n :
  mwrite m p bs = Some m' → q + n <= p ∨ p + length bs <= q →
  mread m' q n = mread m q n.
Proof.
  intros H ?. apply mread_agree; [by eapply mwrite_length|].
  intros i ?. eapply mwrite_frame; [done|lia].
Qed.

Lemma rd16_frame m p bs m' q :
  mwrite m p bs = Some m' → q + 2 <= p ∨ p + length bs <= q →
  rd16 m' q = rd16 m q.
Proof.
  intros H ?. apply rd16_agree. intros i ?. eapply mwrite_frame; [done|lia].
Qed.

Lemma rd32_frame m p bs m' q :
  mwrite m p bs = Some m' → q + 4 <= p ∨ p + length bs <= q →
  rd32 m' q = rd32 m q.
Proof.
  intros H ?. apply rd32_agree. intros i ?. eapply mwrite_frame; [done|lia].
Qed.

Lemma rd16_mwrite m p v m' :
  mwrite m p (enc16 v) = Some m' → (0 <= v < 2 ^ 16)%Z → rd16 m' p = Some v.
Proof.
  intros H Hv. unfold rd16.
  rewrite <- (Nat.add_0_r p) at 1.
  rewrite !(mwrite_same _ _ _ _ _ H) by (rewrite enc16_length; lia).
  rewrite enc16_arith. cbn. by rewrite dec16_enc16.
Qed.

Lemma rd32_mwrite m p v m' :
  mwrite m p (enc32 v) = Some m' → (0 <= v < 2 ^ 32)%Z → rd32 m' p = Some v.
Proof.
  intros H Hv. unfold rd32.
  rewrite <- (Nat.add_0_r p) at 1.
  rewrite !(mwrite_same _ _ _ _ _ H) by (rewrite enc32_length; lia).
  rewrite enc32_arith. cbn. by rewrite dec32_enc32.
Qed.

Lemma mwrite_app m p bs1 bs2 m1 m2 :
  mwrite m p bs1 = Some m1 → mwrite m1 (p + length bs1) bs2 = Some m2 →
  mwrite m p (bs1 ++ bs2) = Some m2.
Proof.
  intros H1 H2. pose proof (mwrite_bound _ _ _ _ H2) as Hb.
  rewrite (mwrite_length _ _ _ _ H1) in Hb.
  unfold mwrite. rewrite length_app, bool_decide_true by lia. f_equal.
  apply list_eq. intros i.
  assert (mwrite m p (bs1 ++ bs2) =
          Some (take p m ++ (bs1 ++ bs2) ++ drop (p + (length bs1 + length bs2)) m))
    as H3.
  { unfold mwrite. by rewrite length_app, bool_decide_true by lia. }
  rewrite (mwrite_lookup _ _ _ _ _ H3), (mwrite_lookup _ _ _ _ _ H2),
    (mwrite_lookup _ _ _ _ _ H1), length_app.
  repeat case_decide; try lia; try done.
  - rewrite lookup_app_r by lia. f_equal. lia.
  - rewrite lookup_app_l by lia. done.
Qed.

Lemma mwrite_bytes_ok m p bs m' :
  mwrite m p bs = Some m' → bytes_ok m → bytes_ok bs → bytes_ok m'.
Proof.
  unfold mwrite. case_bool_decide; [|done]. intros [= <-] Hm Hbs.
  apply Forall_app_2; [by apply Forall_take|].
  apply Forall_app_2; [done|by apply Forall_drop].
Qed.

Lemma mread_bytes_ok m p n bs : mread m p n = Some bs → bytes_ok m → bytes_ok bs.
Proof.
  unfold mread. case_bool_decide; [|done]. intros [= <-] Hm.
  by apply Forall_take, Forall_drop.
Qed.
End mem.

(** ** Sorted lists *)

Lemma StronglySorted_lookup {A} (R : A → A → Prop) l i j a b :
  StronglySorted R l → l !! i = Some a → l !! j = Some b → i < j → R a b.
Proof.
  intros Hs. revert i j. induction Hs as [|x l Hs IH Hx]; intros i j; [done|].
  destruct j as [|j]; [lia|]. destruct i as [|i]; cbn.
  - intros [= ->] Hb _. rewrite Forall_lookup in Hx. by eapply Hx.
  - intros Ha Hb Hij. eapply IH; eauto. lia.
Qed.

Lemma StronglySorted_filter {A} (R : A → A → Prop) (P : A → Prop) `{∀ x, Decision (P x)} l :
  StronglySorted R l → StronglySorted R (filter P l).
Proof.
  induction 1 as [|x l _ IH Hx]; [constructor|]. rewrite filter_cons. case_decide; [|done].
  constructor; [done|]. rewrite Forall_forall in Hx |- *. intros y Hy.
  apply list_elem_of_filter in Hy as [_ Hy]. by apply Hx.
Qed.

Lemma filter_length_all {A} (P : A → Prop) `{∀ x, Decision (P x)} l :
  length (filter P l) = length l → filter P l = l.
Proof.
  induction l as [|x l IH]; [done|]. rewrite filter_cons. case_decide; cbn.
  - intros Hl. f_equal. apply IH. lia.
  - pose proof (length_filter P l). lia.
Qed.

Lemma filter_keeps {A} (P : A → Prop) `{∀ x, Decision (P x)} l :
  Forall P l → filter P l = l.
Proof. induction 1; [done|]. rewrite filter_cons_True by done. by f_equal. Qed.

Lemma filter_drops {A} (P : A → Prop) `{∀ x, Decision (P x)} l :
  Forall (λ x, ¬ P x) l → filter P l = [].
Proof. induction 1; [done|]. by rewrite filter_cons_False. Qed.
