(* ===== verification/Qsort.v ===== *)
(** * The C library's [qsort]

    The slab builder ([lib/dns/rdataslab.c]) and the profiler
    ([bin/named/profiler.c]) sort arrays with the C library's [qsort]. The
    class [Qsort] states what they rely on: the array is rearranged in
    place, and it comes out sorted when the comparison function is
    consistent on its elements (C11 7.22.5: otherwise the order is
    unspecified). [isort_Qsort] is an implementation, used by the
    witnesses. *)
From S2P Require Import Prelude.

(** A comparison function that is consistent on the elements of [l]: a total
    preorder read off the sign of its result. *)
Record cmp_order_on {A} (cmp : A → A → Z) (l : list A) : Prop := {
  cmp_refl : ∀ a, a ∈ l → cmp a a = 0%Z;
  cmp_anti : ∀ a b, a ∈ l → b ∈ l → (0 < cmp a b)%Z ↔ (cmp b a < 0)%Z;
  cmp_trans : ∀ a b c, a ∈ l → b ∈ l → c ∈ l →
    (cmp a b <= 0)%Z → (cmp b c <= 0)%Z → (cmp a c <= 0)%Z }.

Definition cmp_le {A} (cmp : A → A → Z) (a b : A) : Prop := (cmp a b <= 0)%Z.

#[export] Instance cmp_le_dec {A} (cmp : A → A → Z) : RelDecision (cmp_le cmp).
Proof. intros a b. unfold cmp_le. apply _. Defined.

Class Qsort := {
  qsort : ∀ {A}, (A → A → Z) → list A → list A;
  qsort_perm : ∀ A (cmp : A → A → Z) l, qsort cmp l ≡ₚ l;
  qsort_sorted : ∀ A (cmp : A → A → Z) l,
    cmp_order_on cmp l → StronglySorted (cmp_le cmp) (qsort cmp l) }.

Lemma qsort_length `{Qsort} {A} (cmp : A → A → Z) l :
  length (qsort cmp l) = length l.
Proof. by rewrite qsort_perm. Qed.

Section order.
Context {A : Type} (cmp : A → A → Z).

Lemma cmp_order_on_subset l k :
  (∀ x, x ∈ k → x ∈ l) → cmp_order_on cmp l → cmp_order_on cmp k.
Proof.
  intros Hs Ho. split.
  - intros a Ha. apply (cmp_refl _ _ Ho), Hs, Ha.
  - intros a b Ha Hb. apply (cmp_anti _ _ Ho); auto.
  - intros a b c Ha Hb Hc. apply (cmp_trans _ _ Ho); auto.
Qed.

Lemma cmp_total l a b :
  cmp_order_on cmp l → a ∈ l → b ∈ l → cmp_le cmp a b ∨ cmp_le cmp b a.
Proof.
  intros H Ha Hb. unfold cmp_le. pose proof (cmp_anti _ _ H a b Ha Hb). lia.
Qed.

(** Elements that compare equal compare alike with everything. *)
Lemma cmp_eq_trans l a b c :
  cmp_order_on cmp l → a ∈ l → b ∈ l → c ∈ l →
  cmp a b = 0%Z → cmp b c = 0%Z → cmp a c = 0%Z.
Proof.
  intros H Ha Hb Hc Hab Hbc.
  pose proof (cmp_trans _ _ H a b c Ha Hb Hc).
  pose proof (cmp_trans _ _ H c b a Hc Hb Ha).
  pose proof (cmp_anti _ _ H a b Ha Hb). pose proof (cmp_anti _ _ H b a Hb Ha).
  pose proof (cmp_anti _ _ H b c Hb Hc). pose proof (cmp_anti _ _ H c b Hc Hb).
  pose proof (cmp_anti _ _ H a c Ha Hc). pose proof (cmp_anti _ _ H c a Hc Ha).
  lia.
Qed.

Lemma cmp_eq_sym l a b :
  cmp_order_on cmp l → a ∈ l → b ∈ l → cmp a b = 0%Z → cmp b a = 0%Z.
Proof.
  intros H Ha Hb Hab.
  pose proof (cmp_anti _ _ H a b Ha Hb). pose proof (cmp_anti _ _ H b a Hb Ha).
  lia.
Qed.

Lemma cmp_lt_le_trans l a b c :
  cmp_order_on cmp l → a ∈ l → b ∈ l → c ∈ l →
  (cmp a b < 0)%Z → (cmp b c <= 0)%Z → (cmp a c < 0)%Z.
Proof.
  intros H Ha Hb Hc Hab Hbc.
  pose proof (cmp_anti _ _ H c a Hc Ha) as Hca.
  pose proof (cmp_anti _ _ H b a Hb Ha) as Hba.
  pose proof (cmp_trans _ _ H b c a Hb Hc Ha Hbc). lia.
Qed.
End order.

(** ** An implementation *)
Section isort.
Context {A : Type} (cmp : A → A → Z).

Fixpoint isort_insert (x : A) (l : list A) : list A :=
  match l with
  | [] => [x]
  | y :: l' => if bool_decide (cmp x y <= 0)%Z then x :: l
               else y :: isort_insert x l'
  end.

Fixpoint isort (l : list A) : list A :=
  match l with [] => [] | x :: l' => isort_insert x (isort l') end.

Lemma isort_insert_perm x l : isort_insert x l ≡ₚ x :: l.
Proof.
  induction l as [|y l IH]; cbn; [done|]. case_bool_decide; [done|].
  rewrite IH. apply Permutation_swap.
Qed.

Lemma isort_perm l : isort l ≡ₚ l.
Proof. induction l as [|x l IH]; cbn; [done|]. by rewrite isort_insert_perm, IH. Qed.

Lemma isort_insert_sorted x l :
  cmp_order_on cmp (x :: l) → StronglySorted (cmp_le cmp) l →
  StronglySorted (cmp_le cmp) (isort_insert x l).
Proof.
  intros Ho. induction 1 as [|y l Hs IH Hy]; cbn; [repeat constructor|].
  case_bool_decide as Hxy.
  - constructor; [by constructor|]. constructor; [done|].
    rewrite Forall_forall in Hy |- *. intros z Hz. unfold cmp_le in *.
    eapply (cmp_trans _ _ Ho x y z); [set_solver +|set_solver +|set_solver + Hz|done|by apply Hy].
  - constructor.
    + apply IH. eapply cmp_order_on_subset; [|done]. set_solver.
    + rewrite isort_insert_perm. constructor; [|done]. unfold cmp_le.
      pose proof (cmp_anti _ _ Ho x y ltac:(set_solver) ltac:(set_solver)). lia.
Qed.

Lemma isort_sorted l :
  cmp_order_on cmp l → StronglySorted (cmp_le cmp) (isort l).
Proof.
  induction l as [|x l IH]; intros Ho; cbn; [constructor|].
  apply isort_insert_sorted.
  - eapply cmp_order_on_subset; [|done]. intros z. by rewrite isort_perm.
  - apply IH. eapply cmp_order_on_subset; [|done]. set_solver.
Qed.
End isort.

(** Not an instance: the witnesses name it, the theorems hold for any. *)
Definition isort_Qsort : Qsort := {|
  qsort := @isort; qsort_perm := @isort_perm; qsort_sorted := @isort_sorted |}.
