(* ===== verification/Rdata.v ===== *)
(** * Resource data and its ordering

    [dns_rdata_t] ([lib/dns/include/dns/rdata.h]), [isc_region_compare]
    ([lib/isc/region.c]) and [dns_rdata_compare] ([lib/dns/rdata.c]). The
    per-type dispatch [COMPARESWITCH] of [dns_rdata_compare] is in the file
    [lib/dns/code.h] that the build generates: it is the parameter
    [compare_switch] here. *)
From S2P Require Import Prelude Qsort.

(** ** Regions *)

(** [memcmp]: the sign of the first difference. *)
Fixpoint memcmp (a b : list Z) : Z :=
  match a, b with
  | x :: a', y :: b' =>
      if bool_decide (x = y) then memcmp a' b'
      else if bool_decide (x < y)%Z then (-1)%Z else 1%Z
  | _, _ => 0%Z
  end.

Definition isc_region_compare (r1 r2 : list Z) : Z :=
  let l := if bool_decide (length r1 < length r2) then length r1 else length r2 in
  let result := memcmp (take l r1) (take l r2) in
  if bool_decide (result ≠ 0)%Z then
    (if bool_decide (result < 0)%Z then (-1)%Z else 1%Z)
  else if bool_decide (length r1 = length r2) then 0%Z
  else if bool_decide (length r1 < length r2) then (-1)%Z else 1%Z.

(** The lexicographic order it computes. *)
Fixpoint lexcmp (a b : list Z) : Z :=
  match a, b with
  | [], [] => 0%Z
  | [], _ :: _ => (-1)%Z
  | _ :: _, [] => 1%Z
  | x :: a', y :: b' =>
      if bool_decide (x = y) then lexcmp a' b'
      else if bool_decide (x < y)%Z then (-1)%Z else 1%Z
  end.

(** ** Resource data

    [rd_data] is the bytes at [data], [length] their number. *)
Record rdata := Rdata {
  rd_data : list Z; rd_class : Z; rd_type : Z; rd_flags : Z }.

#[export] Instance rdata_eq_dec : EqDecision rdata.
Proof. solve_decision. Defined.

Definition dns_rdatatype_a : Z := 1.
Definition dns_rdatatype_rrsig : Z := 46.
Definition dns_rdataclass_in : Z := 1.
Definition DNS_RDATA_OFFLINE : Z := 2.

Definition dns_rdata_fromregion (rdclass type : Z) (r : list Z) : rdata :=
  {| rd_data := r; rd_class := rdclass; rd_type := type; rd_flags := 0 |}.

Definition dns_rdata_toregion (r : rdata) : list Z := rd_data r.

(** [COMPARESWITCH]: [None] when it sets [use_default]. *)
Class CompareSwitch := compare_switch : rdata → rdata → option Z.

Definition dns_rdata_compare `{CompareSwitch} (rdata1 rdata2 : rdata) : Z :=
  if bool_decide (rd_class rdata1 ≠ rd_class rdata2) then
    (if bool_decide (rd_class rdata1 < rd_class rdata2)%Z then (-1)%Z else 1%Z)
  else if bool_decide (rd_type rdata1 ≠ rd_type rdata2) then
    (if bool_decide (rd_type rdata1 < rd_type rdata2)%Z then (-1)%Z else 1%Z)
  else match compare_switch rdata1 rdata2 with
       | Some result => result
       | None => isc_region_compare (dns_rdata_toregion rdata1)
                                    (dns_rdata_toregion rdata2)
       end.

(** What [lib/dns/include/dns/rdata.h] documents of the generated code:
    [dns_rdata_compare] is the DNSSEC order of two rdata of one class and
    type, and it looks at the data only. *)
Class DnssecOrder `{CompareSwitch} := {
  dnssec_order : ∀ rdclass type (l : list rdata),
    Forall (λ r, rd_class r = rdclass ∧ rd_type r = type) l →
    cmp_order_on dns_rdata_compare l;
  dnssec_flags : ∀ r1 r2 f1 f2,
    compare_switch (Rdata (rd_data r1) (rd_class r1) (rd_type r1) f1)
                   (Rdata (rd_data r2) (rd_class r2) (rd_type r2) f2) =
    compare_switch r1 r2 }.

(** ** [memcmp] on blocks of one length decides equality *)

Lemma memcmp_eq a b : length a = length b → memcmp a b = 0%Z ↔ a = b.
Proof.
  revert b. induction a as [|x a IH]; intros [|y b] Hl; try done.
  cbn. injection Hl as Hl. case_bool_decide as E.
  - subst y. rewrite IH by done. split; [by intros ->|by intros [= ->]].
  - case_bool_decide; naive_solver.
Qed.

(** ** [isc_region_compare] is the lexicographic order *)

Lemma region_compare_lexcmp a b : isc_region_compare a b = lexcmp a b.
Proof.
  unfold isc_region_compare. revert b.
  induction a as [|x a IH]; intros [|y b]; try done.
  specialize (IH b). cbn [length lexcmp]. rewrite <- IH. clear IH.
  set (l := if bool_decide (length a < length b) then length a else length b).
  replace (if bool_decide (S (length a) < S (length b)) then S (length a)
           else S (length b)) with (S l)
    by (subst l; repeat case_bool_decide; lia).
  cbn [take memcmp].
  destruct (bool_decide_reflect (x = y)); repeat case_bool_decide; lia || done.
Qed.

Lemma lexcmp_refl a : lexcmp a a = 0%Z.
Proof. induction a; cbn; [done|]. by rewrite bool_decide_true. Qed.

Lemma lexcmp_opp a b : lexcmp b a = (- lexcmp a b)%Z.
Proof.
  revert b. induction a as [|x a IH]; intros [|y b]; try done.
  cbn. repeat case_bool_decide; subst; done || lia || apply IH.
Qed.

Lemma lexcmp_trans a b c :
  (lexcmp a b <= 0)%Z → (lexcmp b c <= 0)%Z → (lexcmp a c <= 0)%Z.
Proof.
  revert b c. induction a as [|x a IH]; intros [|y b] [|z c]; cbn; try lia.
  repeat case_bool_decide; subst; try lia. by apply IH.
Qed.

Lemma lexcmp_eq a b : lexcmp a b = 0%Z → a = b.
Proof.
  revert b. induction a as [|x a IH]; intros [|y b]; cbn; try done.
  repeat case_bool_decide; subst; try done. intros. f_equal. by apply IH.
Qed.

Lemma lexcmp_order l : cmp_order_on lexcmp l.
Proof.
  split; [intros; apply lexcmp_refl| |].
  - intros a b _ _. rewrite (lexcmp_opp a b). lia.
  - intros a b c _ _ _. apply lexcmp_trans.
Qed.

(** The address records' comparison ([lib/dns/rdata/in_1/a_1.c],
    [compare_in_a]) is the region order: with a dispatch that always falls to
    the default, [dns_rdata_compare] is a DNSSEC order. *)
Definition compare_default : CompareSwitch := λ _ _, None.

Lemma compare_default_lexcmp r1 r2 :
  rd_class r1 = rd_class r2 → rd_type r1 = rd_type r2 →
  @dns_rdata_compare compare_default r1 r2 = lexcmp (rd_data r1) (rd_data r2).
Proof.
  intros Hc Ht. unfold dns_rdata_compare. rewrite Hc, Ht.
  repeat (rewrite bool_decide_false by naive_solver). cbn.
  apply region_compare_lexcmp.
Qed.

Lemma compare_default_order : @DnssecOrder compare_default.
Proof.
  split; [|done]. intros c t l Hl. rewrite Forall_forall in Hl.
  split.
  - intros a Ha. rewrite compare_default_lexcmp; [apply lexcmp_refl|done..].
  - intros a b Ha%Hl Hb%Hl.
    rewrite !compare_default_lexcmp by (destruct_and!; congruence).
    rewrite (lexcmp_opp (rd_data a)). lia.
  - intros a b d Ha%Hl Hb%Hl Hd%Hl.
    rewrite !compare_default_lexcmp by (destruct_and!; congruence).
    apply lexcmp_trans.
Qed.
