(* ===== verification/Name.v ===== *)
(** * Domain names

    [lib/dns/name.c]: names in wire form (length-prefixed labels), their
    offset tables, comparison in DNSSEC order and hashing. A name's
    [offsets] field is a cache of what [set_offsets] computes; the model
    computes it where the code uses it.

    [name_repr n ls] says that [n] is the wire form of the labels [ls]; the
    theorems state what the functions on bytes do on the labels. *)
From S2P Require Import Prelude Qsort Rdata.

(** ** Data *)

(** [ndata] is the [length] bytes at [ndata]; [absolute] is
    [DNS_NAMEATTR_ABSOLUTE]. *)
Record name := Name { ndata : list Z; labels : nat; absolute : bool }.

#[export] Instance name_eq_dec : EqDecision name.
Proof. solve_decision. Defined.

Definition DNS_NAME_MAXWIRE : nat := 255.

(** The table [maptolower]. *)
Definition maptolower (c : Z) : Z :=
  if bool_decide (65 <= c <= 90)%Z then (c + 32)%Z else c.

Inductive dns_namereln :=
  | dns_namereln_none | dns_namereln_contains | dns_namereln_subdomain
  | dns_namereln_equal | dns_namereln_commonancestor.

#[export] Instance dns_namereln_eq_dec : EqDecision dns_namereln.
Proof. solve_decision. Defined.

(** ** Operations *)

(** The loop of [set_offsets]: the offsets, and whether the root label ends
    the name; [INSIST]s that fail are [None]. *)
Fixpoint offsets_loop (fuel : nat) (d : list Z) (length offset nlabels : nat)
    : option (list nat * nat * bool) :=
  if bool_decide (offset = length) then Some ([], offset, false)
  else match fuel with
  | O => None
  | S fuel =>
      if bool_decide (nlabels < 128) then
        count ← d !! offset;
        if bool_decide (count <= 63)%Z then
          let offset' := offset + 1 + Z.to_nat count in
          if bool_decide (offset' <= length) then
            if bool_decide (count = 0%Z) then Some ([offset], offset', true)
            else
              '(offsets, offset', absolute) ← offsets_loop fuel d length offset' (S nlabels);
              Some (offset :: offsets, offset', absolute)
          else None
        else None
      else None
  end.

Definition set_offsets (n : name) : option (list nat) :=
  let len := length (ndata n) in
  '(offsets, offset, _) ← offsets_loop (S len) (ndata n) len 0 0;
  if bool_decide (length offsets = labels n ∧ offset = len) then Some offsets else None.

(** [dns_name_fromregion] of a name without a dedicated buffer. *)
Definition dns_name_fromregion (r : list Z) : option name :=
  let d := take DNS_NAME_MAXWIRE r in
  if bool_decide (0 < length r) then
    '(offsets, offset, abs) ← offsets_loop (S (length d)) d (length d) 0 0;
    Some (Name (take offset d) (length offsets) abs)
  else Some (Name [] 0 false).

(** [while (count > 0)]: the first difference of two labels, 0 if none. *)
Fixpoint label_diff (d1 d2 : list Z) (p1 p2 count : nat) : option Z :=
  match count with
  | O => Some 0%Z
  | S count =>
      c1 ← d1 !! p1; c2 ← d2 !! p2;
      let chdiff := (maptolower c1 - maptolower c2)%Z in
      if bool_decide (chdiff ≠ 0%Z) then Some chdiff
      else label_diff d1 d2 (S p1) (S p2) count
  end.

(** [while (l > 0)]: [inl] is [goto done] with the order, [inr] the end of the
    loop. *)
Fixpoint compare_loop (d1 d2 : list Z) (offsets1 offsets2 : list nat)
    (l l1 l2 nlabels : nat) : option ((Z + unit) * nat) :=
  match l with
  | O => Some (inr tt, nlabels)
  | S l =>
      let l1 := l1 - 1 in
      let l2 := l2 - 1 in
      o1 ← offsets1 !! l1; o2 ← offsets2 !! l2;
      count1 ← d1 !! o1; count2 ← d2 !! o2;
      if bool_decide (count1 <= 63 ∧ count2 <= 63)%Z then
        let cdiff := (count1 - count2)%Z in
        let count := if bool_decide (cdiff < 0)%Z then count1 else count2 in
        chdiff ← label_diff d1 d2 (S o1) (S o2) (Z.to_nat count);
        if bool_decide (chdiff ≠ 0%Z) then Some (inl chdiff, nlabels)
        else if bool_decide (cdiff ≠ 0%Z) then Some (inl cdiff, nlabels)
        else compare_loop d1 d2 offsets1 offsets2 l l1 l2 (S nlabels)
      else None
  end.

(** The relation, [*orderp] and [*nlabelsp]. *)
Definition dns_name_fullcompare (name1 name2 : name) : option (dns_namereln * Z * nat) :=
  if bool_decide (absolute name1 = absolute name2) then
    offsets1 ← set_offsets name1; offsets2 ← set_offsets name2;
    let l1 := labels name1 in
    let l2 := labels name2 in
    let ldiff := (Z.of_nat l1 - Z.of_nat l2)%Z in
    let l := if bool_decide (ldiff < 0)%Z then l1 else l2 in
    '(r, nlabels) ← compare_loop (ndata name1) (ndata name2) offsets1 offsets2 l l1 l2 0;
    let '(namereln, order) :=
      match r with
      | inl order => (dns_namereln_none, order)
      | inr _ =>
          (if bool_decide (ldiff < 0)%Z then dns_namereln_contains
           else if bool_decide (ldiff > 0)%Z then dns_namereln_subdomain
           else dns_namereln_equal, ldiff)
      end in
    let namereln := if bool_decide (0 < nlabels ∧ namereln = dns_namereln_none)
                    then dns_namereln_commonancestor else namereln in
    Some (namereln, order, nlabels)
  else None.

Definition dns_name_compare (name1 name2 : name) : option Z :=
  '(_, order, _) ← dns_name_fullcompare name1 name2; Some order.

Definition dns_name_issubdomain (name1 name2 : name) : option bool :=
  '(namereln, _, _) ← dns_name_fullcompare name1 name2;
  Some (bool_decide (namereln = dns_namereln_subdomain ∨ namereln = dns_namereln_equal)).

(** The loops of [dns_name_equal] from positions [p1] and [p2]: [Some false] is
    [return (ISC_FALSE)]. *)
Fixpoint equal_bytes (d1 d2 : list Z) (p1 p2 count : nat) : option bool :=
  match count with
  | O => Some true
  | S count =>
      c1 ← d1 !! p1; c2 ← d2 !! p2;
      if bool_decide (maptolower c1 ≠ maptolower c2) then Some false
      else equal_bytes d1 d2 (S p1) (S p2) count
  end.

Fixpoint equal_labels (d1 d2 : list Z) (p1 p2 l : nat) : option bool :=
  match l with
  | O => Some true
  | S l =>
      count ← d1 !! p1; count2 ← d2 !! p2;
      if bool_decide (count ≠ count2) then Some false
      else if bool_decide (count <= 63)%Z then
        same ← equal_bytes d1 d2 (S p1) (S p2) (Z.to_nat count);
        if same : bool then
          equal_labels d1 d2 (S p1 + Z.to_nat count) (S p2 + Z.to_nat count) l
        else Some false
      else None
  end.

Definition dns_name_equal (name1 name2 : name) : option bool :=
  if bool_decide (absolute name1 = absolute name2) then
    if bool_decide (length (ndata name1) ≠ length (ndata name2)) then Some false
    else if bool_decide (labels name1 ≠ labels name2) then Some false
    else equal_labels (ndata name1) (ndata name2) 0 0 (labels name1)
  else None.

Definition dns_name_caseequal (name1 name2 : name) : option bool :=
  if bool_decide (absolute name1 = absolute name2) then
    if bool_decide (length (ndata name1) ≠ length (ndata name2)) then Some false
    else Some (bool_decide (memcmp (ndata name1) (ndata name2) = 0%Z))
  else None.

(** [h += ( h << 3 ) + c] *)
Definition hash_step (h c : Z) : Z := u32 (h + u32 (u32 (Z.shiftl h 3) + c)).

Definition name_hash (n : name) (case_sensitive : bool) : Z :=
  foldl (λ h c, hash_step h (if case_sensitive then c else maptolower c)) 0%Z
        (take 16 (ndata n)).

Definition dns_name_hash (n : name) (case_sensitive : bool) : Z :=
  if bool_decide (labels n = 0) then 0%Z else name_hash n case_sensitive.

Definition dns_name_iswildcard (n : name) : option bool :=
  if bool_decide (0 < labels n) then
    if bool_decide (2 <= length (ndata n)) then
      a ← ndata n !! 0; b ← ndata n !! 1;
      Some (bool_decide (a = 1 ∧ b = 42)%Z)
    else Some false
  else None.

Definition dns_name_getlabelsequence (source : name) (first n : nat) : option name :=
  if bool_decide (first <= labels source ∧ n <= labels source - first) then
    offsets ← set_offsets source;
    firstoffset ← (if bool_decide (first = labels source)
                   then Some (length (ndata source)) else offsets !! first);
    endoffset ← (if bool_decide (first + n = labels source)
                 then Some (length (ndata source)) else offsets !! (first + n));
    d ← mread (ndata source) firstoffset (endoffset - firstoffset);
    Some (Name d n (bool_decide (first + n = labels source ∧ 0 < n) && absolute source))
  else None.

Definition dns_name_matcheswildcard (n wname : name) : option bool :=
  if bool_decide (0 < labels n ∧ 0 < labels wname) then
    w ← dns_name_iswildcard wname;
    if w : bool then
      tname ← dns_name_getlabelsequence wname 1 (labels wname - 1);
      '(namereln, _, _) ← dns_name_fullcompare n tname;
      Some (bool_decide (namereln = dns_namereln_subdomain))
    else None
  else None.

(** [return]s inside the loops of [dns_name_rdatacompare]: 0 goes on. *)
Fixpoint rdatacompare_bytes (d1 d2 : list Z) (p1 p2 count : nat) : option Z :=
  match count with
  | O => Some 0%Z
  | S count =>
      c1 ← d1 !! p1; c2 ← d2 !! p2;
      if bool_decide (maptolower c1 < maptolower c2)%Z then Some (-1)%Z
      else if bool_decide (maptolower c1 > maptolower c2)%Z then Some 1%Z
      else rdatacompare_bytes d1 d2 (S p1) (S p2) count
  end.

Fixpoint rdatacompare_labels (d1 d2 : list Z) (p1 p2 l : nat) : option Z :=
  match l with
  | O => Some 0%Z
  | S l =>
      count1 ← d1 !! p1; count2 ← d2 !! p2;
      if bool_decide (count1 <= 63 ∧ count2 <= 63)%Z then
        if bool_decide (count1 ≠ count2)
        then Some (if bool_decide (count1 < count2)%Z then (-1)%Z else 1%Z)
        else
          r ← rdatacompare_bytes d1 d2 (S p1) (S p2) (Z.to_nat count1);
          if bool_decide (r ≠ 0%Z) then Some r
          else rdatacompare_labels d1 d2 (S p1 + Z.to_nat count1)
                 (S p2 + Z.to_nat count1) l
      else None
  end.

Definition dns_name_rdatacompare (name1 name2 : name) : option Z :=
  if bool_decide (0 < labels name1 ∧ absolute name1 = true ∧
                  0 < labels name2 ∧ absolute name2 = true) then
    let l1 := labels name1 in
    let l2 := labels name2 in
    let l := if bool_decide (l1 < l2) then l1 else l2 in
    r ← rdatacompare_labels (ndata name1) (ndata name2) 0 0 l;
    if bool_decide (r ≠ 0%Z) then Some r
    else if bool_decide (l1 = l2) then Some 0%Z else None
  else None.

(** The loop of [dns_name_internalwildcard]: [rest] counts the labels up to
    the last one. *)
Fixpoint internalwildcard_loop (d : list Z) (p rest : nat) : option bool :=
  match rest with
  | O => Some false
  | S rest =>
      count ← d !! p;
      if bool_decide (count <= 63)%Z then
        star ← (if bool_decide (count = 1%Z) then
                  c ← d !! S p; Some (bool_decide (c = 42%Z))
                else Some false);
        if star : bool then Some true
        else internalwildcard_loop d (S p + Z.to_nat count) rest
      else None
  end.

Definition dns_name_internalwildcard (n : name) : option bool :=
  if bool_decide (0 < labels n) then
    count ← ndata n !! 0;
    if bool_decide (count <= 63)%Z then
      internalwildcard_loop (ndata n) (S (Z.to_nat count)) (labels n - 2)
    else None
  else None.

(** The bytes of label [n]. *)
Definition dns_name_getlabel (nm : name) (n : nat) : option (list Z) :=
  if bool_decide (0 < labels nm ∧ n < labels nm) then
    offsets ← set_offsets nm;
    base ← offsets !! n;
    fin ← (if bool_decide (n = labels nm - 1) then Some (length (ndata nm))
           else offsets !! S n);
    mread (ndata nm) base (fin - base)
  else None.

(** The loop of [dns_name_hashbylabel] from label [i] on. *)
Fixpoint hashbylabel_loop (nm : name) (case_sensitive : bool) (h : Z) (i rest : nat)
    : option Z :=
  match rest with
  | O => Some h
  | S rest =>
      d ← dns_name_getlabel nm i;
      hashbylabel_loop nm case_sensitive
        (u32 (h + name_hash (Name d 1 false) case_sensitive)) (S i) rest
  end.

Definition dns_name_hashbylabel (nm : name) (case_sensitive : bool) : option Z :=
  if bool_decide (labels nm = 0) then Some 0%Z
  else if bool_decide (labels nm = 1) then Some (name_hash nm case_sensitive)
  else hashbylabel_loop nm case_sensitive 0 0 (labels nm).

(** ** Names and labels *)

Abbreviation label := (list Z).

Definition enc_label (l : label) : list Z := Z.of_nat (length l) :: l.
Definition enc_labels (ls : list label) : list Z := ls ≫= enc_label.
Definition is_root_last (ls : list label) : bool := bool_decide (last ls = Some []).

(** The labels are short, and the root label can only be the last. *)
Record labels_ok (ls : list label) : Prop := {
  lo_short : Forall (λ l, length l <= 63) ls;
  lo_root : ∀ i, ls !! i = Some [] → S i = length ls;
  lo_max : length (enc_labels ls) <= DNS_NAME_MAXWIRE }.

Record name_repr (n : name) (ls : list label) : Prop := {
  nr_data : ndata n = enc_labels ls;
  nr_labels : labels n = length ls;
  nr_absolute : absolute n = is_root_last ls;
  nr_ok : labels_ok ls }.

(** The name with these labels. *)
Definition name_of (ls : list label) : name :=
  Name (enc_labels ls) (length ls) (is_root_last ls).

Lemma name_of_repr ls : labels_ok ls → name_repr (name_of ls) ls.
Proof. done. Qed.

Definition lower (l : label) : label := maptolower <$> l.

Lemma enc_labels_cons l ls : enc_labels (l :: ls) = enc_label l ++ enc_labels ls.
Proof. done. Qed.

Lemma enc_labels_app ls1 ls2 : enc_labels (ls1 ++ ls2) = enc_labels ls1 ++ enc_labels ls2.
Proof. apply bind_app. Qed.

Lemma enc_label_length l : length (enc_label l) = S (length l).
Proof. done. Qed.

Lemma labels_ok_cons l ls : labels_ok (l :: ls) → labels_ok ls ∧ (ls ≠ [] → l ≠ []).
Proof.
  intros [Hs Hr Hm]. apply Forall_cons in Hs as [Hs1 Hs]. split.
  - split; [done| |].
    + intros i Hi. specialize (Hr (S i) Hi). cbn in Hr. lia.
    + rewrite enc_labels_cons, length_app in Hm. lia.
  - intros Hne ->. specialize (Hr 0 eq_refl). cbn in Hr. destruct ls; [done|cbn in Hr; lia].
Qed.

Lemma enc_labels_length ls :
  (∀ i, ls !! i = Some [] → S i = length ls) → 2 * length ls <= S (length (enc_labels ls)).
Proof.
  induction ls as [|l ls IH]; intros Hr; [cbn; lia|].
  rewrite enc_labels_cons, length_app, enc_label_length. cbn [length].
  destruct (decide (l = [])) as [->|Hne].
  - specialize (Hr 0 eq_refl). cbn in Hr. destruct ls; cbn in *; lia.
  - destruct l; [done|]. cbn [length].
    assert (2 * length ls <= S (length (enc_labels ls))); [|lia].
    apply IH. intros i Hi. specialize (Hr (S i) Hi). cbn in Hr. lia.
Qed.

(** The positions of the labels, from [base] on. *)
Fixpoint positions (base : nat) (ls : list label) : list nat :=
  match ls with
  | [] => []
  | l :: ls' => base :: positions (base + S (length l)) ls'
  end.

Lemma positions_length base ls : length (positions base ls) = length ls.
Proof. revert base. induction ls; intros; cbn; auto. Qed.

Lemma positions_lookup base ls i :
  i < length ls → positions base ls !! i = Some (base + length (enc_labels (take i ls))).
Proof.
  revert base i. induction ls as [|l ls IH]; intros base i Hi; [cbn in Hi; lia|].
  destruct i as [|i]; cbn [positions lookup list_lookup take].
  - cbn. f_equal. lia.
  - rewrite IH by (cbn in Hi; lia).
    rewrite enc_labels_cons, length_app, enc_label_length. f_equal. lia.
Qed.

(** Reading inside a name. *)
Lemma enc_lookup_head d pre l ls :
  d = pre ++ enc_labels (l :: ls) → d !! length pre = Some (Z.of_nat (length l)).
Proof. intros ->. rewrite lookup_app_r, Nat.sub_diag by lia. done. Qed.

Lemma enc_lookup_body d pre l ls i :
  d = pre ++ enc_labels (l :: ls) → i < length l → d !! (S (length pre) + i) = l !! i.
Proof.
  intros -> Hi. rewrite lookup_app_r by lia.
  replace (S (length pre) + i - length pre) with (S i) by lia.
  change (enc_labels (l :: ls) !! S i) with ((l ++ enc_labels ls) !! i).
  by rewrite lookup_app_l.
Qed.

Lemma offsets_loop_spec d fuel pre ls :
  d = pre ++ enc_labels ls → labels_ok ls → length (enc_labels ls) < fuel →
  ∀ k, k + length ls <= 128 →
  offsets_loop fuel d (length d) (length pre) k =
    Some (positions (length pre) ls, length d, is_root_last ls).
Proof.
  revert pre ls. induction fuel as [|fuel IH]; intros pre ls Hd Hok Hf k Hk; [lia|].
  cbn [offsets_loop]. assert (length d = length pre + length (enc_labels ls)) as Hl
    by (by rewrite Hd, length_app).
  destruct ls as [|l ls].
  - cbn in Hl. rewrite bool_decide_true by lia. do 3 f_equal. lia.
  - rewrite enc_labels_cons, length_app, enc_label_length in Hl, Hf.
    rewrite bool_decide_false, (bool_decide_true (_ < 128)) by (cbn in Hk; lia).
    rewrite (enc_lookup_head d pre l ls) by done. cbn [mbind option_bind].
    pose proof (lo_short _ Hok) as [Hs _]%Forall_cons.
    rewrite (bool_decide_true (_ <= 63)%Z), Nat2Z.id by lia.
    rewrite bool_decide_true by lia.
    apply labels_ok_cons in Hok as [Hok Hne].
    case_bool_decide as H0.
    + destruct l; [|done]. destruct ls as [|l' ls]; [|by destruct Hne].
      cbn in *. do 3 f_equal. lia.
    + replace (length pre + 1 + length l) with (length (pre ++ enc_label l))
        by (rewrite length_app, enc_label_length; lia).
      rewrite (IH (pre ++ enc_label l) ls); [|by rewrite <- app_assoc|done|lia|cbn in Hk; lia].
      cbn [mbind option_bind positions].
      assert (is_root_last (l :: ls) = is_root_last ls) as ->.
      { unfold is_root_last. apply bool_decide_ext. rewrite last_cons.
        destruct (last ls) eqn:E; [done|]. split; [|done]. intros [= ->]. done. }
      by rewrite length_app, enc_label_length.
Qed.

Lemma set_offsets_spec n ls :
  name_repr n ls → set_offsets n = Some (positions 0 ls).
Proof.
  intros [Hd Hl _ Hok]. unfold set_offsets.
  pose proof (enc_labels_length ls (lo_root _ Hok)) as Hlen.
  pose proof (lo_max _ Hok) as Hmax. unfold DNS_NAME_MAXWIRE in Hmax.
  rewrite (offsets_loop_spec (ndata n) _ [] ls); [|by rewrite Hd|done|by rewrite Hd; lia|lia].
  cbn [mbind option_bind]. by rewrite bool_decide_true by (rewrite positions_length; auto).
Qed.

Lemma name_position n ls i l :
  name_repr n ls → ls !! i = Some l →
  ∃ pre suf, ndata n = pre ++ enc_labels (l :: suf) ∧
             positions 0 ls !! i = Some (length pre).
Proof.
  intros Hn Hi. pose proof (lookup_lt_Some _ _ _ Hi) as Hlt.
  exists (enc_labels (take i ls)), (drop (S i) ls). split.
  - rewrite (nr_data _ _ Hn), <- enc_labels_app. by rewrite (take_drop_middle _ _ _ Hi).
  - by rewrite positions_lookup by done.
Qed.

(** ** Comparison of labels *)

Fixpoint first_diff (a b : label) : Z :=
  match a, b with
  | x :: a', y :: b' =>
      let d := (maptolower x - maptolower y)%Z in
      if bool_decide (d ≠ 0%Z) then d else first_diff a' b'
  | _, _ => 0%Z
  end.

Definition label_cmp (a b : label) : Z :=
  if bool_decide (first_diff a b ≠ 0%Z) then first_diff a b
  else (Z.of_nat (length a) - Z.of_nat (length b))%Z.

(** From the last label on: where the names differ, and how many labels they
    share. *)
Fixpoint labels_diff (r1 r2 : list label) (k : nat) : (Z + unit) * nat :=
  match r1, r2 with
  | a :: r1', b :: r2' =>
      if bool_decide (label_cmp a b ≠ 0%Z) then (inl (label_cmp a b), k)
      else labels_diff r1' r2' (S k)
  | _, _ => (inr tt, k)
  end.

Lemma label_diff_spec d1 d2 p1 p2 a b :
  (∀ i, i < length a → d1 !! (p1 + i) = a !! i) →
  (∀ i, i < length b → d2 !! (p2 + i) = b !! i) →
  label_diff d1 d2 p1 p2 (length a `min` length b) = Some (first_diff a b).
Proof.
  revert p1 p2 b. induction a as [|x a IH]; intros p1 p2 [|y b] H1 H2; try done.
  cbn [length Nat.min label_diff first_diff].
  pose proof (H1 0 ltac:(cbn; lia)) as Hx. pose proof (H2 0 ltac:(cbn; lia)) as Hy.
  rewrite Nat.add_0_r in Hx, Hy. rewrite Hx, Hy. cbn [mbind option_bind lookup list_lookup].
  case_bool_decide; [done|]. apply IH; intros i Hi.
  - trans (d1 !! (p1 + S i)); [f_equal; lia|]. by rewrite (H1 (S i)) by (cbn; lia).
  - trans (d2 !! (p2 + S i)); [f_equal; lia|]. by rewrite (H2 (S i)) by (cbn; lia).
Qed.

Lemma reverse_take_S {A} (l : list A) k x :
  l !! k = Some x → reverse (take (S k) l) = x :: reverse (take k l).
Proof. intros Hx. by rewrite (take_S_r _ _ _ Hx), reverse_snoc. Qed.

Lemma compare_loop_spec n1 n2 ls1 ls2 :
  name_repr n1 ls1 → name_repr n2 ls2 →
  ∀ l l1 l2 k, l1 <= length ls1 → l2 <= length ls2 → l = l1 `min` l2 →
  compare_loop (ndata n1) (ndata n2) (positions 0 ls1) (positions 0 ls2) l l1 l2 k =
    Some (labels_diff (reverse (take l1 ls1)) (reverse (take l2 ls2)) k).
Proof.
  intros H1 H2. induction l as [|l IH]; intros l1 l2 k Hl1 Hl2 Hl.
  { destruct l1 as [|l1]; [done|]. destruct l2 as [|l2]; [|lia].
    cbn. rewrite take_0. by destruct (reverse _). }
  destruct l1 as [|l1]; [lia|]. destruct l2 as [|l2]; [lia|].
  destruct (lookup_lt_is_Some_2 ls1 l1) as [a Ha]; [lia|].
  destruct (lookup_lt_is_Some_2 ls2 l2) as [b Hb]; [lia|].
  rewrite (reverse_take_S _ _ _ Ha), (reverse_take_S _ _ _ Hb).
  destruct (name_position _ _ _ _ H1 Ha) as (p1 & s1 & Hd1 & Hp1).
  destruct (name_position _ _ _ _ H2 Hb) as (p2 & s2 & Hd2 & Hp2).
  cbn [compare_loop labels_diff]. replace (S l1 - 1) with l1 by lia.
  replace (S l2 - 1) with l2 by lia. rewrite Hp1, Hp2. cbn [mbind option_bind].
  rewrite (enc_lookup_head _ _ _ _ Hd1), (enc_lookup_head _ _ _ _ Hd2).
  cbn [mbind option_bind].
  pose proof (lo_short _ (nr_ok _ _ H1)) as Hs1. pose proof (lo_short _ (nr_ok _ _ H2)) as Hs2.
  rewrite Forall_lookup in Hs1, Hs2. specialize (Hs1 _ _ Ha). specialize (Hs2 _ _ Hb).
  cbn beta in *. rewrite (bool_decide_true (_ ∧ _)) by lia.
  replace (Z.to_nat _) with (length a `min` length b) by (case_bool_decide; lia).
  rewrite (label_diff_spec _ _ _ _ a b).
  - cbn [mbind option_bind]. unfold label_cmp.
    destruct (decide (first_diff a b = 0%Z)) as [E|E].
    + rewrite !E. rewrite !(bool_decide_false (0%Z ≠ 0%Z)) by auto.
      case_bool_decide; [done|]. apply IH; lia.
    + rewrite !(bool_decide_true (first_diff a b ≠ 0%Z)) by done. done.
  - intros i Hi. by apply (enc_lookup_body _ _ _ _ _ Hd1).
  - intros i Hi. by apply (enc_lookup_body _ _ _ _ _ Hd2).
Qed.

(** What [dns_name_fullcompare] computes, on labels. *)
Definition labels_compare (ls1 ls2 : list label) : dns_namereln * Z * nat :=
  let '(r, k) := labels_diff (reverse ls1) (reverse ls2) 0 in
  let ldiff := (Z.of_nat (length ls1) - Z.of_nat (length ls2))%Z in
  match r with
  | inl d => (if bool_decide (0 < k) then dns_namereln_commonancestor
              else dns_namereln_none, d, k)
  | inr _ => (if bool_decide (ldiff < 0)%Z then dns_namereln_contains
              else if bool_decide (ldiff > 0)%Z then dns_namereln_subdomain
              else dns_namereln_equal, ldiff, k)
  end.

Lemma fullcompare_labels n1 n2 ls1 ls2 :
  name_repr n1 ls1 → name_repr n2 ls2 → is_root_last ls1 = is_root_last ls2 →
  dns_name_fullcompare n1 n2 = Some (labels_compare ls1 ls2).
Proof.
  intros H1 H2 Habs. unfold dns_name_fullcompare.
  rewrite (nr_absolute _ _ H1), (nr_absolute _ _ H2), Habs, bool_decide_true by done.
  rewrite (set_offsets_spec _ _ H1), (set_offsets_spec _ _ H2). cbn [mbind option_bind].
  rewrite (nr_labels _ _ H1), (nr_labels _ _ H2).
  rewrite (compare_loop_spec n1 n2 ls1 ls2 H1 H2) by (lia || case_bool_decide; lia).
  rewrite !take_ge by lia. unfold labels_compare.
  destruct (labels_diff _ _ _) as [[d|[]] k]; cbn [mbind option_bind].
  - rewrite (bool_decide_ext (0 < k ∧ dns_namereln_none = dns_namereln_none) (0 < k))
      by naive_solver. done.
  - repeat case_bool_decide; try done; naive_solver.
Qed.

(** ** DNSSEC order

    Names are ordered by their labels in lower case, from the last one on
    (RFC 4034, section 6.1). *)

Definition key (ls : list label) : list label := lower <$> reverse ls.

(** Lexicographic on lists of labels, a prefix first. *)
Fixpoint keycmp (k1 k2 : list label) : Z :=
  match k1, k2 with
  | [], [] => 0%Z
  | [], _ :: _ => (-1)%Z
  | _ :: _, [] => 1%Z
  | a :: k1', b :: k2' => if bool_decide (lexcmp a b = 0%Z) then keycmp k1' k2' else lexcmp a b
  end.

Lemma keycmp_refl k : keycmp k k = 0%Z.
Proof. induction k as [|a k IH]; cbn; [done|]. by rewrite lexcmp_refl. Qed.

Lemma keycmp_opp k1 k2 : keycmp k2 k1 = (- keycmp k1 k2)%Z.
Proof.
  revert k2. induction k1 as [|a k1 IH]; intros [|b k2]; try done. cbn.
  rewrite (lexcmp_opp a b). repeat case_bool_decide; auto; lia.
Qed.

Lemma keycmp_eq k1 k2 : keycmp k1 k2 = 0%Z → k1 = k2.
Proof.
  revert k2. induction k1 as [|a k1 IH]; intros [|b k2]; cbn; try done.
  case_bool_decide as E; [|done]. apply lexcmp_eq in E as ->. intros ?%IH. by f_equal.
Qed.

Lemma keycmp_trans k1 k2 k3 :
  (keycmp k1 k2 <= 0)%Z → (keycmp k2 k3 <= 0)%Z → (keycmp k1 k3 <= 0)%Z.
Proof.
  revert k2 k3. induction k1 as [|a k1 IH]; intros [|b k2] [|c k3]; cbn; try lia.
  pose proof (lexcmp_trans a b c) as Ht. pose proof (lexcmp_trans c a b) as Ht2.
  pose proof (lexcmp_opp a c) as Ho.
  case_bool_decide as E1; case_bool_decide as E2.
  - apply lexcmp_eq in E1 as ->. rewrite E2, bool_decide_true by done. apply IH.
  - apply lexcmp_eq in E1 as ->. by rewrite bool_decide_false.
  - apply lexcmp_eq in E2 as ->. by rewrite bool_decide_false.
  - intros H1 H2. case_bool_decide as E3; [|by apply Ht].
    apply lexcmp_eq in E3 as ->. rewrite (lexcmp_opp b c) in H1.
    destruct E1. rewrite (lexcmp_opp b c). lia.
Qed.

Lemma lexcmp_sgn a b : Z.sgn (lexcmp a b) = lexcmp a b.
Proof.
  revert b. induction a as [|x a IH]; intros [|y b]; try done. cbn.
  repeat case_bool_decide; auto.
Qed.

(** The sign of the labels' comparison. *)
Lemma label_cmp_lexcmp a b : Z.sgn (label_cmp a b) = lexcmp (lower a) (lower b).
Proof.
  unfold label_cmp. revert b. induction a as [|x a IH]; intros [|y b]; cbn -[Z.of_nat];
    try (rewrite bool_decide_false by auto; lia || done).
  specialize (IH b). rewrite Nat2Z.inj_succ, (Nat2Z.inj_succ (length b)).
  destruct (decide (maptolower x = maptolower y)) as [E|E].
  - rewrite !(bool_decide_false (maptolower x - maptolower y ≠ 0)%Z) by lia.
    rewrite (bool_decide_true (_ = _)) by done. fold (lower a) (lower b). rewrite <- IH.
    case_bool_decide; [done|]. f_equal. lia.
  - rewrite !(bool_decide_true (maptolower x - maptolower y ≠ 0)%Z) by lia.
    rewrite (bool_decide_false (_ = _)) by done.
    repeat case_bool_decide; lia.
Qed.

Lemma label_cmp_eq a b : label_cmp a b = 0%Z ↔ lower a = lower b.
Proof.
  pose proof (label_cmp_lexcmp a b) as H. split.
  - intros E. apply lexcmp_eq. by rewrite <- H, E.
  - intros E. rewrite E, lexcmp_refl in H. lia.
Qed.

(** *** Where two names differ *)

Lemma labels_diff_spec r1 r2 k :
  let c1 := lower <$> r1 in
  let c2 := lower <$> r2 in
  match labels_diff r1 r2 k with
  | (inl d, k') => ∃ j, k' = k + j ∧ take j c1 = take j c2 ∧
      j < length r1 ∧ j < length r2 ∧
      c1 !! j ≠ c2 !! j ∧ d ≠ 0%Z ∧ Z.sgn d = keycmp c1 c2
  | (inr _, k') => k' = k + length r1 `min` length r2 ∧
      (c1 `prefix_of` c2 ∨ c2 `prefix_of` c1)
  end.
Proof.
  revert r2 k. induction r1 as [|a r1 IH]; intros [|b r2] k; cbn [labels_diff].
  - split; [cbn; lia|by left].
  - split; [cbn; lia|left; apply prefix_nil].
  - split; [cbn; lia|right; apply prefix_nil].
  - specialize (IH r2 (S k)). cbn zeta in *. rewrite !fmap_cons. cbn [keycmp].
    case_bool_decide as E.
    + exists 0. pose proof (label_cmp_eq a b) as He. pose proof (label_cmp_lexcmp a b) as Hs.
      split_and!; cbn; try done; try lia.
      * intros [= Hab]. apply E. by apply He.
      * rewrite bool_decide_false by lia. done.
    + apply label_cmp_eq in E. rewrite E. rewrite lexcmp_refl, bool_decide_true by done.
      destruct (labels_diff r1 r2 (S k)) as [[d|?] k'].
      * destruct IH as (j & -> & Ht & Hj1 & Hj2 & Hne & Hd & Hs).
        exists (S j). cbn. split_and!; try done; try lia. by f_equal.
      * destruct IH as (-> & Hp). split; [cbn; lia|].
        destruct Hp; [left|right]; by apply prefix_cons.
Qed.

Lemma keycmp_prefix k1 k2 :
  k1 `prefix_of` k2 → Z.sgn (Z.of_nat (length k1) - Z.of_nat (length k2)) = keycmp k1 k2.
Proof.
  intros [l ->]. induction k1 as [|a k1 IH].
  - destruct l; cbn; [done|]. lia.
  - cbn [app keycmp length]. rewrite lexcmp_refl, bool_decide_true, <- IH by done.
    f_equal. rewrite !length_app in *. lia.
Qed.

(** The order computed is the DNSSEC order. *)
Lemma labels_compare_order ls1 ls2 :
  Z.sgn (labels_compare ls1 ls2).1.2 = keycmp (key ls1) (key ls2).
Proof.
  unfold labels_compare. pose proof (labels_diff_spec (reverse ls1) (reverse ls2) 0) as H.
  cbn zeta in H. fold (key ls1) (key ls2) in H.
  destruct (labels_diff _ _ _) as [[d|[]] k]; cbn [fst snd].
  - by destruct H as (j & _ & _ & _ & _ & _ & _ & H).
  - assert (∀ ls, length (key ls) = length ls) as Hl
      by (intros; unfold key; by rewrite length_fmap, length_reverse).
    destruct H as [_ [Hp|Hp]].
    + by rewrite <- (keycmp_prefix _ _ Hp), !Hl.
    + rewrite keycmp_opp, <- (keycmp_prefix _ _ Hp), !Hl. lia.
Qed.

Definition labels_order (ls1 ls2 : list label) : Z := (labels_compare ls1 ls2).1.2.

Lemma labels_order_order l : cmp_order_on labels_order l.
Proof.
  assert (∀ a b, Z.sgn (labels_order a b) = keycmp (key a) (key b)) as Hs
    by apply labels_compare_order.
  split.
  - intros a _. pose proof (Hs a a) as H. rewrite keycmp_refl in H. lia.
  - intros a b _ _. pose proof (Hs a b). pose proof (Hs b a).
    pose proof (keycmp_opp (key a) (key b)). lia.
  - intros a b c _ _ _. pose proof (Hs a b). pose proof (Hs b c). pose proof (Hs a c).
    pose proof (keycmp_trans (key a) (key b) (key c)). lia.
Qed.

(** *** The relation of two names *)

(** The names are the same up to case. *)
Definition same_labels (ls1 ls2 : list label) : Prop := lower <$> ls1 = lower <$> ls2.

#[export] Instance same_labels_equiv : Equivalence same_labels.
Proof. split; [done|by intros ??|intros ???; unfold same_labels; congruence]. Qed.

#[export] Instance same_labels_dec : RelDecision same_labels.
Proof. intros a b. unfold same_labels. apply _. Defined.

(** [ls1] is below [ls2]: [ls2] with labels in front. *)
Definition below (ls1 ls2 : list label) : Prop :=
  ∃ p q, ls1 = p ++ q ∧ p ≠ [] ∧ same_labels q ls2.

Lemma key_suffix ls1 ls2 :
  key ls2 `prefix_of` key ls1 ↔ same_labels ls1 ls2 ∨ below ls1 ls2.
Proof.
  unfold key, same_labels, below. rewrite !fmap_reverse. split.
  - intros [p Hp]. apply (f_equal reverse) in Hp.
    rewrite reverse_app, !reverse_involutive in Hp.
    apply fmap_app_inv in Hp as (p' & q' & Hp1 & Hq & ->).
    destruct p' as [|a p']; [by left|right]. by exists (a :: p'), q'.
  - intros [->|(p & q & -> & _ & Hq)]; [done|]. unfold same_labels in Hq.
    rewrite fmap_app, Hq, reverse_app. by eexists.
Qed.

Lemma below_length ls1 ls2 : below ls1 ls2 → length ls2 < length ls1.
Proof.
  intros (p & q & -> & Hp & Hq). unfold same_labels in Hq.
  apply (f_equal length) in Hq. rewrite !length_fmap in Hq. rewrite length_app.
  destruct p; [done|]. cbn. lia.
Qed.

Lemma labels_compare_relation ls1 ls2 :
  let '(r, _, k) := labels_compare ls1 ls2 in
  (r = dns_namereln_equal ↔ same_labels ls1 ls2) ∧
  (r = dns_namereln_subdomain ↔ below ls1 ls2) ∧
  (r = dns_namereln_contains ↔ below ls2 ls1) ∧
  (r = dns_namereln_none → k = 0) ∧ (r = dns_namereln_commonancestor → 0 < k) ∧
  take k (key ls1) = take k (key ls2) ∧
  (key ls1 !! k = None ∨ key ls2 !! k = None ∨ key ls1 !! k ≠ key ls2 !! k).
Proof.
  unfold labels_compare. pose proof (labels_diff_spec (reverse ls1) (reverse ls2) 0) as H.
  cbn zeta in H. fold (key ls1) (key ls2) in H. rewrite !length_reverse in H.
  pose proof (key_suffix ls1 ls2) as S12. pose proof (key_suffix ls2 ls1) as S21.
  pose proof (below_length ls1 ls2) as L12. pose proof (below_length ls2 ls1) as L21.
  assert (∀ ls, length (key ls) = length ls) as Hl
    by (intros; unfold key; by rewrite length_fmap, length_reverse).
  destruct (labels_diff _ _ _) as [[d|[]] k].
  - destruct H as (j & -> & Ht & Hj1 & Hj2 & Hne & _). cbn [Nat.add].
    assert (∀ a b : list label, a `prefix_of` b → j < length a → a !! j = b !! j) as Hpre.
    { intros a b [l ->] Hj. by rewrite lookup_app_l. }
    assert (¬ key ls1 `prefix_of` key ls2) as N1
      by (intros Hp%Hpre; [done|by rewrite Hl]).
    assert (¬ key ls2 `prefix_of` key ls1) as N2
      by (intros Hp%Hpre; [done|by rewrite Hl]).
    rewrite S12 in N2. rewrite S21 in N1.
    apply Decidable.not_or in N1 as [N1 N1'], N2 as [N2 N2'].
    case_bool_decide; split_and!; try done; try lia; try (by right; right);
      split; intros ?; done.
  - destruct H as [Hk Hp]. cbn [Nat.add] in Hk.
    assert (same_labels ls1 ls2 → length ls1 = length ls2) as Hsl.
    { intros E%(f_equal length). by rewrite !length_fmap in E. }
    assert (same_labels ls1 ls2 ↔ same_labels ls2 ls1) as Hsym by (split; by symmetry).
    pose proof Hp as Hpre. rewrite S12, S21, <- Hsym in Hp.
    assert (take k (key ls1) = take k (key ls2)) as Htk.
    { subst k. destruct Hpre as [[l Hpre]|[l Hpre]];
        pose proof (f_equal length Hpre) as Hlen; rewrite length_app, !Hl in Hlen; rewrite Hpre.
      - rewrite Nat.min_l, <- (Hl ls1), take_app_length, take_ge by lia. done.
      - rewrite Nat.min_r, <- (Hl ls2), take_app_length, take_ge by lia. done. }
    assert (key ls1 !! k = None ∨ key ls2 !! k = None) as Hnone.
    { rewrite !lookup_ge_None, !Hl. lia. }
    assert (same_labels ls1 ls2 ↔ length ls1 = length ls2) as E1
      by (split; [done|]; intros; destruct Hp as [[?|?%L21]|[?|?%L12]]; done || lia).
    assert (below ls1 ls2 ↔ length ls2 < length ls1) as E2
      by (split; [done|]; intros; destruct Hp as [[?%Hsl|?%L21]|[?%Hsl|?]]; done || lia).
    assert (below ls2 ls1 ↔ length ls1 < length ls2) as E3
      by (split; [done|]; intros; destruct Hp as [[?%Hsl|?]|[?%Hsl|?%L12]]; done || lia).
    rewrite E1, E2, E3.
    repeat case_bool_decide; split_and!; try done; try tauto; split; done || lia.
Qed.

#[export] Instance below_dec : RelDecision below.
Proof.
  intros a b. destruct (decide ((labels_compare a b).1.1 = dns_namereln_subdomain)) as [E|E];
    [left|right]; pose proof (labels_compare_relation a b) as H;
    destruct (labels_compare a b) as [[r o] k]; cbn in E; tauto.
Defined.

(** *** Equality and hashing *)

Lemma lower_length l : length (lower l) = length l.
Proof. apply length_fmap. Qed.

Lemma maptolower_short c : (c <= 63)%Z → maptolower c = c.
Proof. intros. unfold maptolower. by rewrite bool_decide_false by lia. Qed.

(** The wire form in lower case. *)
Lemma lower_enc_labels ls :
  Forall (λ l, length l <= 63) ls →
  maptolower <$> enc_labels ls = enc_labels (lower <$> ls).
Proof.
  induction 1 as [|l ls Hl _ IH]; [done|].
  rewrite fmap_cons, !enc_labels_cons, fmap_app, IH. f_equal.
  unfold enc_label, lower. rewrite fmap_cons, length_fmap, maptolower_short by lia. done.
Qed.

Lemma equal_bytes_spec d1 d2 p1 p2 a b :
  length a = length b →
  (∀ i, i < length a → d1 !! (p1 + i) = a !! i) →
  (∀ i, i < length b → d2 !! (p2 + i) = b !! i) →
  equal_bytes d1 d2 p1 p2 (length a) = Some (bool_decide (lower a = lower b)).
Proof.
  revert p1 p2 b. induction a as [|x a IH]; intros p1 p2 [|y b] Hl H1 H2; try done.
  pose proof (H1 0 ltac:(cbn; lia)) as Hx. pose proof (H2 0 ltac:(cbn; lia)) as Hy.
  rewrite Nat.add_0_r in Hx, Hy. cbn [length equal_bytes]. rewrite Hx, Hy.
  cbn [mbind option_bind lookup list_lookup].
  unfold lower. rewrite !fmap_cons. fold (lower a) (lower b).
  case_bool_decide as E; [by rewrite bool_decide_false by congruence|].
  rewrite (IH (S p1) (S p2) b); [| |intros i Hi..].
  - f_equal. apply bool_decide_ext. rewrite E.
    split; [by intros ->|by intros [= ->]].
  - by injection Hl.
  - trans (d1 !! (p1 + S i)); [f_equal; lia|]. by rewrite (H1 (S i)) by (cbn; lia).
  - trans (d2 !! (p2 + S i)); [f_equal; lia|]. by rewrite (H2 (S i)) by (cbn; lia).
Qed.

Lemma same_labels_cons a b ls1 ls2 :
  same_labels (a :: ls1) (b :: ls2) ↔ lower a = lower b ∧ same_labels ls1 ls2.
Proof. unfold same_labels. cbn. split; [by intros [= ? ?]|intros [? ?]; by f_equal]. Qed.

Lemma equal_labels_spec d1 d2 pre1 pre2 ls1 ls2 :
  d1 = pre1 ++ enc_labels ls1 → d2 = pre2 ++ enc_labels ls2 →
  Forall (λ l, length l <= 63) ls1 → length ls1 = length ls2 →
  equal_labels d1 d2 (length pre1) (length pre2) (length ls1) =
    Some (bool_decide (same_labels ls1 ls2)).
Proof.
  intros H1 H2 Hs. revert pre1 pre2 ls2 H1 H2.
  induction Hs as [|a ls1 Ha _ IH]; intros pre1 pre2 [|b ls2] H1 H2 Hl; try done.
  cbn [equal_labels length].
  rewrite (enc_lookup_head _ _ _ _ H1), (enc_lookup_head _ _ _ _ H2).
  cbn [mbind option_bind]. rewrite (bool_decide_ext _ _ (same_labels_cons a b ls1 ls2)).
  case_bool_decide as E.
  { rewrite bool_decide_false; [done|]. intros [El _].
    apply (f_equal length) in El. rewrite !lower_length in El. lia. }
  assert (length a = length b) as Hab by lia. rewrite bool_decide_true by lia.
  rewrite Nat2Z.id, (equal_bytes_spec _ _ _ _ a b Hab);
    [|intros; by eapply enc_lookup_body..].
  cbn [mbind option_bind]. case_bool_decide as Eb.
  - replace (S (length pre1) + length a) with (length (pre1 ++ enc_label a))
      by (rewrite length_app, enc_label_length; lia).
    replace (S (length pre2) + length a) with (length (pre2 ++ enc_label b))
      by (rewrite length_app, enc_label_length; lia).
    rewrite (IH _ _ ls2); [|by rewrite <- app_assoc..|by injection Hl].
    f_equal. apply bool_decide_ext. tauto.
  - by rewrite bool_decide_false by tauto.
Qed.

Lemma same_labels_length ls1 ls2 :
  same_labels ls1 ls2 →
  length ls1 = length ls2 ∧ length (enc_labels ls1) = length (enc_labels ls2).
Proof.
  revert ls2. induction ls1 as [|a ls1 IH]; intros [|b ls2]; try done.
  rewrite !enc_labels_cons, !length_app, same_labels_cons. intros [Hab H].
  apply IH in H as [? ?]. apply (f_equal length) in Hab. unfold lower in Hab.
  rewrite !length_fmap in Hab. cbn. lia.
Qed.

Lemma name_equal_labels n1 n2 ls1 ls2 :
  name_repr n1 ls1 → name_repr n2 ls2 → is_root_last ls1 = is_root_last ls2 →
  dns_name_equal n1 n2 = Some (bool_decide (same_labels ls1 ls2)).
Proof.
  intros H1 H2 Habs. unfold dns_name_equal.
  rewrite (nr_absolute _ _ H1), (nr_absolute _ _ H2), Habs, bool_decide_true by done.
  rewrite (nr_data _ _ H1), (nr_data _ _ H2), (nr_labels _ _ H1), (nr_labels _ _ H2).
  pose proof (same_labels_length ls1 ls2) as Hsl.
  case_bool_decide; [by rewrite bool_decide_false by tauto|].
  case_bool_decide; [by rewrite bool_decide_false by tauto|].
  apply (equal_labels_spec _ _ [] []); try done. apply (lo_short _ (nr_ok _ _ H1)).
Qed.

Lemma name_hash_lower n ls :
  name_repr n ls →
  name_hash n false = foldl hash_step 0%Z (take 16 (enc_labels (lower <$> ls))).
Proof.
  intros [Hd _ _ Hok]. unfold name_hash. rewrite Hd, <- lower_enc_labels by apply Hok.
  rewrite <- fmap_take. generalize (take 16 (enc_labels ls)) as l. generalize 0%Z as h.
  intros h l. revert h. induction l as [|c l IH]; intros h; [done|]. cbn. apply IH.
Qed.

(** *** The order of names as rdata *)

Lemma lexcmp_app a1 a2 b1 b2 :
  length a1 = length a2 →
  lexcmp (a1 ++ b1) (a2 ++ b2) =
    if bool_decide (lexcmp a1 a2 = 0%Z) then lexcmp b1 b2 else lexcmp a1 a2.
Proof.
  revert a2. induction a1 as [|x a1 IH]; intros [|y a2] Hl; try done.
  cbn. injection Hl as Hl. case_bool_decide; [by apply IH|].
  case_bool_decide; by rewrite bool_decide_false by done.
Qed.

Lemma rdatacompare_bytes_spec d1 d2 p1 p2 a b :
  length a = length b →
  (∀ i, i < length a → d1 !! (p1 + i) = a !! i) →
  (∀ i, i < length b → d2 !! (p2 + i) = b !! i) →
  rdatacompare_bytes d1 d2 p1 p2 (length a) = Some (lexcmp (lower a) (lower b)).
Proof.
  revert p1 p2 b. induction a as [|x a IH]; intros p1 p2 [|y b] Hl H1 H2; try done.
  pose proof (H1 0 ltac:(cbn; lia)) as Hx. pose proof (H2 0 ltac:(cbn; lia)) as Hy.
  rewrite Nat.add_0_r in Hx, Hy. cbn [length rdatacompare_bytes]. rewrite Hx, Hy.
  cbn [mbind option_bind lookup list_lookup].
  unfold lower. rewrite !fmap_cons. fold (lower a) (lower b). cbn [lexcmp].
  destruct (Z.lt_trichotomy (maptolower x) (maptolower y)) as [E|[E|E]].
  - rewrite (bool_decide_true (_ < _)%Z), (bool_decide_false (_ = _)) by lia.
    done.
  - rewrite (bool_decide_false (_ < _)%Z), (bool_decide_false (_ > _)%Z),
      (bool_decide_true (_ = _)) by lia.
    apply IH; [by injection Hl|intros i Hi..].
    + trans (d1 !! (p1 + S i)); [f_equal; lia|]. by rewrite (H1 (S i)) by (cbn; lia).
    + trans (d2 !! (p2 + S i)); [f_equal; lia|]. by rewrite (H2 (S i)) by (cbn; lia).
  - rewrite (bool_decide_false (_ < _)%Z), (bool_decide_true (_ > _)%Z),
      (bool_decide_false (_ = _)) by lia. done.
Qed.

Lemma is_root_last_cons l ls :
  ls ≠ [] → is_root_last (l :: ls) = is_root_last ls.
Proof.
  intros Hne. unfold is_root_last. apply bool_decide_ext. rewrite last_cons.
  destruct (last ls) eqn:E; [done|]. by apply last_None in E.
Qed.

Lemma root_alone l ls : labels_ok (l :: ls) → is_root_last (l :: ls) = true →
  l = [] ↔ ls = [].
Proof.
  intros Hok Hr. split.
  - intros ->. apply labels_ok_cons in Hok as [_ Hne]. destruct ls; [done|]. by destruct Hne.
  - intros ->. unfold is_root_last in Hr. by apply bool_decide_eq_true in Hr as [= ->].
Qed.

Lemma rdatacompare_labels_spec d1 d2 pre1 pre2 ls1 ls2 :
  d1 = pre1 ++ enc_labels ls1 → d2 = pre2 ++ enc_labels ls2 →
  labels_ok ls1 → labels_ok ls2 →
  (ls1 = [] ↔ ls2 = []) →
  (ls1 ≠ [] → is_root_last ls1 = true) → (ls2 ≠ [] → is_root_last ls2 = true) →
  rdatacompare_labels d1 d2 (length pre1) (length pre2) (length ls1 `min` length ls2) =
    Some (lexcmp (enc_labels (lower <$> ls1)) (enc_labels (lower <$> ls2))) ∧
  (lexcmp (enc_labels (lower <$> ls1)) (enc_labels (lower <$> ls2)) = 0%Z →
   length ls1 = length ls2).
Proof.
  revert d1 d2 pre1 pre2 ls2. induction ls1 as [|a ls1 IH];
    intros d1 d2 pre1 pre2 [|b ls2] H1 H2 Hok1 Hok2 He Hr1 Hr2.
  { done. }
  { by pose proof (proj1 He eq_refl). }
  { by pose proof (proj2 He eq_refl). }
  cbn [rdatacompare_labels length Nat.min].
  rewrite (enc_lookup_head _ _ _ _ H1), (enc_lookup_head _ _ _ _ H2).
  cbn [mbind option_bind]. rewrite !fmap_cons, !enc_labels_cons.
  specialize (Hr1 ltac:(done)). specialize (Hr2 ltac:(done)).
  pose proof (lo_short _ Hok1) as [Ha _]%Forall_cons.
  pose proof (lo_short _ Hok2) as [Hb _]%Forall_cons.
  rewrite bool_decide_true by lia. cbn [app lexcmp enc_label]. unfold enc_label.
  cbn [app lexcmp]. rewrite !lower_length. case_bool_decide as E.
  { rewrite (bool_decide_false (_ = _)) by lia. split; [done|]. case_bool_decide; done. }
  assert (length a = length b) as Hab by lia.
  rewrite (bool_decide_true (_ = _)), Nat2Z.id by lia.
  rewrite (rdatacompare_bytes_spec _ _ _ _ a b Hab);
    [|intros; by eapply enc_lookup_body..].
  cbn [mbind option_bind].
  rewrite lexcmp_app by (by rewrite !lower_length).
  destruct (decide (lexcmp (lower a) (lower b) = 0%Z)) as [E0|E0].
  - rewrite E0, bool_decide_false, bool_decide_true by auto.
    replace (S (length pre1) + length a) with (length (pre1 ++ enc_label a))
      by (rewrite length_app, enc_label_length; lia).
    replace (S (length pre2) + length a) with (length (pre2 ++ enc_label b))
      by (rewrite length_app, enc_label_length; lia).
    pose proof (root_alone _ _ Hok1 Hr1) as Ra. pose proof (root_alone _ _ Hok2 Hr2) as Rb.
    apply labels_ok_cons in Hok1 as [Hok1 _], Hok2 as [Hok2 _].
    destruct (IH d1 d2 (pre1 ++ enc_label a) (pre2 ++ enc_label b) ls2) as [-> Hl]; try done.
    + by rewrite <- app_assoc.
    + by rewrite <- app_assoc.
    + rewrite <- Ra, <- Rb. split; intros Hn; apply nil_length_inv; rewrite Hn in Hab;
        cbn in Hab; lia.
    + intros Hne. by rewrite <- (is_root_last_cons a).
    + intros Hne. by rewrite <- (is_root_last_cons b).
    + split; [done|]. intros ?%Hl. lia.
  - rewrite (bool_decide_true (_ ≠ _)), (bool_decide_false (_ = _)) by done.
    split; [done|]. by intros.
Qed.

(** *** Parts of names *)

Lemma labels_ok_nil : labels_ok [].
Proof. split; [constructor|done|cbn; lia]. Qed.

Lemma labels_ok_root : labels_ok [[]].
Proof.
  split; [repeat constructor; cbn; lia| |cbn; unfold DNS_NAME_MAXWIRE; lia].
  intros [|i] Hi; [done|]. by destruct i.
Qed.

Lemma labels_ok_app ls1 ls2 : labels_ok (ls1 ++ ls2) → labels_ok ls1 ∧ labels_ok ls2.
Proof.
  intros [Hs Hr Hm]. apply Forall_app in Hs as [Hs1 Hs2].
  rewrite enc_labels_app, length_app in Hm. split; split; try done; try lia.
  - intros i Hi. pose proof (lookup_lt_Some _ _ _ Hi) as Hlt.
    rewrite <- (lookup_app_l ls1 ls2) in Hi by done. apply Hr in Hi.
    rewrite length_app in Hi. lia.
  - intros i Hi. pose proof (lookup_lt_Some _ _ _ Hi) as Hlt.
    specialize (Hr (length ls1 + i)). rewrite lookup_app_r in Hr by lia.
    replace (length ls1 + i - length ls1) with i in Hr by lia.
    rewrite length_app in Hr. specialize (Hr Hi). lia.
Qed.

(** The root label ends a part of a name only if the part is at the end. *)
Lemma is_root_last_part ls1 ls2 ls3 :
  labels_ok (ls1 ++ ls2 ++ ls3) →
  is_root_last ls2 =
    bool_decide (ls3 = [] ∧ ls2 ≠ []) && is_root_last (ls1 ++ ls2 ++ ls3).
Proof.
  intros Hok. destruct ls2 as [|l ls2' _] using rev_ind.
  { by rewrite bool_decide_false by naive_solver. }
  destruct ls3 as [|l3 ls3].
  - rewrite bool_decide_true by (split; [done|by destruct ls2']).
    rewrite app_nil_r. cbn [andb]. unfold is_root_last.
    by rewrite app_assoc, !last_snoc.
  - rewrite bool_decide_false by naive_solver. unfold is_root_last.
    rewrite last_snoc. apply bool_decide_false. intros [= ->].
    pose proof (lo_root _ Hok (length (ls1 ++ ls2'))) as Hr.
    rewrite <- app_assoc, app_assoc, lookup_app_r, Nat.sub_diag in Hr by lia.
    specialize (Hr eq_refl). rewrite !length_app in Hr. cbn in Hr. lia.
Qed.

(** An offset, or the end of the name. *)
Lemma offset_or_end n ls i :
  name_repr n ls → i <= length ls →
  (if bool_decide (i = labels n) then Some (length (ndata n)) else positions 0 ls !! i) =
    Some (length (enc_labels (take i ls))).
Proof.
  intros Hn Hi. rewrite (nr_labels _ _ Hn). case_bool_decide.
  - rewrite take_ge by lia. by rewrite (nr_data _ _ Hn).
  - by rewrite positions_lookup by lia.
Qed.

Lemma mread_part a b c : mread (a ++ b ++ c) (length a) (length b) = Some b.
Proof.
  apply mread_intro; [done| |rewrite !length_app; lia].
  intros i x Hi. rewrite lookup_app_r by lia.
  replace (length a + i - length a) with i by lia.
  by apply lookup_app_l_Some.
Qed.

Lemma getlabelsequence_repr n ls first k :
  name_repr n ls → first + k <= length ls →
  dns_name_getlabelsequence n first k = Some (name_of (take k (drop first ls))) ∧
  labels_ok (take k (drop first ls)).
Proof.
  intros Hn Hk. pose proof Hn as [Hd Hl Ha Hok].
  assert (ls = take first ls ++ take k (drop first ls) ++ drop (first + k) ls) as Els
    by (by rewrite <- drop_drop, take_drop, take_drop).
  assert (length (take k (drop first ls)) = k) as Hlk
    by (rewrite length_take, length_drop; lia).
  assert (take (first + k) ls = take first ls ++ take k (drop first ls)) as Etk
    by (by rewrite take_take_drop).
  split; [|pose proof Hok as Hok'; rewrite Els in Hok';
           by apply labels_ok_app in Hok' as [_ [? _]%labels_ok_app]].
  unfold dns_name_getlabelsequence. rewrite bool_decide_true by lia.
  rewrite (set_offsets_spec _ _ Hn). cbn [mbind option_bind].
  rewrite !(offset_or_end _ _ _ Hn) by lia. cbn [mbind option_bind].
  rewrite Etk, enc_labels_app, length_app.
  replace (_ + _ - _) with (length (enc_labels (take k (drop first ls)))) by lia.
  rewrite Hd, Els at 1. rewrite !enc_labels_app, mread_part. cbn [mbind option_bind].
  unfold name_of. rewrite Hlk. do 2 f_equal. rewrite Ha, Hl.
  rewrite Els in Hok. rewrite (is_root_last_part _ _ _ Hok), <- Els. f_equal.
  apply bool_decide_ext. split; intros [H1 H2]; split.
  - apply nil_length_inv. rewrite length_drop. lia.
  - intros H0. rewrite H0 in Hlk. cbn in Hlk. lia.
  - apply (f_equal length) in H1. rewrite length_drop in H1. cbn in H1. lia.
  - destruct k; [|lia]. by rewrite take_0 in H2.
Qed.

Lemma getlabel_repr n ls i l :
  name_repr n ls → ls !! i = Some l → dns_name_getlabel n i = Some (enc_label l).
Proof.
  intros Hn Hi. pose proof (lookup_lt_Some _ _ _ Hi) as Hlt. pose proof Hn as [Hd Hl _ Hok].
  unfold dns_name_getlabel. rewrite bool_decide_true by lia.
  rewrite (set_offsets_spec _ _ Hn). cbn [mbind option_bind].
  rewrite (positions_lookup 0 ls i) by done. cbn [mbind option_bind Nat.add].
  rewrite (bool_decide_ext (i = labels n - 1) (S i = labels n)) by lia.
  rewrite (offset_or_end _ _ _ Hn) by lia. cbn [mbind option_bind].
  rewrite (take_S_r _ _ _ Hi), enc_labels_app, length_app.
  cbn [enc_labels mbind list_bind]. rewrite app_nil_r.
  replace (_ + _ - _) with (length (enc_label l)) by lia.
  rewrite Hd, <- (take_drop_middle _ _ _ Hi) at 1.
  rewrite enc_labels_app, enc_labels_cons. apply mread_part.
Qed.

Lemma hashbylabel_loop_spec n ls h pre :
  name_repr n (pre ++ ls) →
  hashbylabel_loop n false h (length pre) (length ls) =
    Some (foldl (λ h l, u32 (h + foldl hash_step 0%Z (take 16 (enc_label (lower l))))) h ls).
Proof.
  revert h pre. induction ls as [|l ls IH]; intros h pre Hn; [done|].
  assert ((pre ++ l :: ls) !! length pre = Some l) as Hi
    by (by rewrite lookup_app_r, Nat.sub_diag by lia).
  cbn [length hashbylabel_loop foldl]. rewrite (getlabel_repr _ _ _ _ Hn Hi).
  cbn [mbind option_bind]. replace (S (length pre)) with (length (pre ++ [l]))
    by (rewrite length_app; cbn; lia).
  rewrite IH by (by rewrite <- app_assoc). do 3 f_equal.
  assert (labels_ok [l]) as Hok1.
  { pose proof (nr_ok _ _ Hn) as Hok. apply labels_ok_app in Hok as [_ Hok].
    by apply (labels_ok_app [l] ls) in Hok as [? _]. }
  pose proof (name_hash_lower (name_of [l]) [l] (name_of_repr _ Hok1)) as Hh.
  unfold name_of in Hh. cbn in Hh. rewrite !app_nil_r in Hh. unfold name_hash in *.
  cbn in *. by rewrite Hh.
Qed.

(** *** Optional lower case *)

Lemma maptolower_byte c : is_byte c → is_byte (maptolower c).
Proof. unfold is_byte, maptolower. case_bool_decide; lia. Qed.

Definition lower_if (downcase : bool) (c : Z) : Z := if downcase then maptolower c else c.

Lemma lower_if_byte downcase c : is_byte c → is_byte (lower_if downcase c).
Proof. destruct downcase; [apply maptolower_byte|done]. Qed.

Definition lower_labels_if (downcase : bool) (ls : list label) : list label :=
  (λ l : label, lower_if downcase <$> l) <$> ls.

Lemma lower_labels_if_false ls : lower_labels_if false ls = ls.
Proof.
  induction ls as [|l ls IH]; [done|]. unfold lower_labels_if in *. rewrite fmap_cons, IH.
  f_equal. by apply list_fmap_id.
Qed.

Lemma lower_labels_if_size downcase ls :
  length (enc_labels (lower_labels_if downcase ls)) = length (enc_labels ls).
Proof.
  induction ls as [|l ls IH]; [done|]. unfold lower_labels_if in *.
  cbn [fmap list_fmap]. rewrite !enc_labels_cons, !length_app, IH. cbn.
  by rewrite length_fmap.
Qed.

Lemma lower_labels_if_ok downcase ls :
  labels_ok ls → labels_ok (lower_labels_if downcase ls).
Proof.
  intros [Hs Hr Hm]. split.
  - apply Forall_fmap. eapply Forall_impl; [exact Hs|]. intros l Hl. cbn.
    by rewrite length_fmap.
  - intros i. unfold lower_labels_if. rewrite list_lookup_fmap, length_fmap.
    destruct (ls !! i) as [l|] eqn:E; [|done]. intros [= Hl%fmap_nil_inv]. subst.
    by apply Hr.
  - by rewrite lower_labels_if_size.
Qed.

Lemma lower_labels_if_root downcase ls :
  is_root_last (lower_labels_if downcase ls) = is_root_last ls.
Proof.
  unfold is_root_last, lower_labels_if. apply bool_decide_ext. rewrite fmap_last.
  destruct (last ls) as [l|]; [|done]. cbn. split; intros [= E].
  - apply fmap_nil_inv in E. by subst.
  - by rewrite E.
Qed.

Lemma internalwildcard_loop_spec d pre ls k :
  d = pre ++ enc_labels ls → Forall (λ l, length l <= 63) ls → k <= length ls →
  internalwildcard_loop d (length pre) k = Some (bool_decide ([42%Z] ∈ take k ls)).
Proof.
  intros Hd Hs. revert pre k Hd. induction Hs as [|l ls Hl _ IH]; intros pre [|k] Hd Hk;
    try (by cbn in Hk; lia); try (by rewrite bool_decide_false by (cbn; set_solver)).
  cbn [internalwildcard_loop take]. rewrite (enc_lookup_head _ _ _ _ Hd).
  cbn [mbind option_bind]. rewrite bool_decide_true by lia.
  assert ((if bool_decide (Z.of_nat (length l) = 1%Z)
           then c ← d !! S (length pre); Some (bool_decide (c = 42%Z)) else Some false) =
          Some (bool_decide (l = [42%Z]))) as ->.
  { case_bool_decide as E.
    - destruct l as [|c [|]]; try (cbn in E; lia).
      pose proof (enc_lookup_body d pre [c] ls 0 Hd ltac:(cbn; lia)) as Hc.
      rewrite Nat.add_0_r in Hc. rewrite Hc. cbn. f_equal. apply bool_decide_ext. naive_solver.
    - f_equal. rewrite bool_decide_false; [done|]. intros ->. done. }
  cbn [mbind option_bind]. case_bool_decide as E.
  - rewrite bool_decide_true; [done|]. rewrite E. left.
  - rewrite Nat2Z.id. replace (S (length pre) + length l) with (length (pre ++ enc_label l))
      by (rewrite length_app, enc_label_length; lia).
    rewrite (IH _ k); [|by rewrite <- app_assoc|cbn in Hk; lia].
    f_equal. apply bool_decide_ext. rewrite elem_of_cons. naive_solver.
Qed.

(** ** What the operations do *)



(** C36: [dns_name_equal] and, for absolute names, [dns_name_rdatacompare]
    agree with the order: equality is equality of the labels up to case, and
    the rdata order is the lexicographic order of the wire forms in lower
    case; the final [INSIST] of [dns_name_rdatacompare] never fails. *)
Theorem name_equal_rdatacompare_spec n1 n2 ls1 ls2 :
  name_repr n1 ls1 → name_repr n2 ls2 →
  is_root_last ls1 = true → is_root_last ls2 = true →
  dns_name_equal n1 n2 = Some (bool_decide (same_labels ls1 ls2)) ∧
  dns_name_rdatacompare n1 n2 =
    Some (lexcmp (maptolower <$> ndata n1) (maptolower <$> ndata n2)) ∧
  (dns_name_rdatacompare n1 n2 = Some 0%Z ↔ dns_name_equal n1 n2 = Some true).
Proof.
  intros H1 H2 A1 A2. assert (∀ ls, is_root_last ls = true → ls ≠ []) as Hne
    by (intros ls Ha ->; done).
  rewrite (name_equal_labels _ _ _ _ H1 H2) by congruence.
  assert (dns_name_rdatacompare n1 n2 =
    Some (lexcmp (maptolower <$> ndata n1) (maptolower <$> ndata n2))) as ->.
  { pose proof H1 as [D1 L1 R1 O1]. pose proof H2 as [D2 L2 R2 O2].
    unfold dns_name_rdatacompare. rewrite R1, R2, A1, A2, L1, L2.
    pose proof (Hne _ A1) as N1. pose proof (Hne _ A2) as N2.
    rewrite bool_decide_true by (destruct ls1, ls2; cbn; split_and!; done || lia).
    replace (if bool_decide (length ls1 < length ls2) then length ls1 else length ls2)
      with (length ls1 `min` length ls2) by (case_bool_decide; lia).
    destruct (rdatacompare_labels_spec (ndata n1) (ndata n2) [] [] ls1 ls2) as [E Hl]; try done.
    change (length []) with 0 in E. rewrite E. cbn [mbind option_bind].
    rewrite D1, D2, !lower_enc_labels by (apply O1 || apply O2).
    case_bool_decide as E0; [done|]. rewrite E0 in *.
    by rewrite bool_decide_true by auto. }
  split_and!; [done..|]. rewrite (nr_data _ _ H1), (nr_data _ _ H2).
  rewrite !lower_enc_labels by (apply (nr_ok _ _ H1) || apply (nr_ok _ _ H2)). split.
  - intros [= E]. f_equal. apply bool_decide_true.
    destruct (rdatacompare_labels_spec (ndata n1) (ndata n2) [] [] ls1 ls2) as [_ Hl];
      [by rewrite (nr_data _ _ H1)|by rewrite (nr_data _ _ H2)|apply H1|apply H2|
       by split; intros ->|done|done|]. specialize (Hl E). apply lexcmp_eq in E.
    clear -E Hl. unfold same_labels. revert ls2 E Hl.
    induction ls1 as [|a ls1 IH]; intros [|b ls2] E Hl; try done.
    cbn [fmap list_fmap]. rewrite !fmap_cons, !enc_labels_cons in E.
    unfold enc_label in E. cbn [app] in E. injection E as E1 E2.
    apply app_inj_1 in E2 as [-> E2]; [|lia]. f_equal. apply IH; [done|by injection Hl].
  - intros [= E%bool_decide_eq_true]. unfold same_labels in E. by rewrite E, lexcmp_refl.
Qed.

(** Names that are equal up to case have the same hash
    ([dns_name_hash] and [dns_name_hashbylabel], case-insensitive), and
    hashing a well-formed name fails no check. *)
Theorem equal_names_hash_alike n1 n2 ls1 ls2 :
  name_repr n1 ls1 → name_repr n2 ls2 → same_labels ls1 ls2 →
  dns_name_hash n1 false = dns_name_hash n2 false ∧
  is_Some (dns_name_hashbylabel n1 false) ∧
  dns_name_hashbylabel n1 false = dns_name_hashbylabel n2 false.
Proof.
  intros H1 H2 Hs. pose proof (same_labels_length _ _ Hs) as [Hl _].
  assert (name_hash n1 false = name_hash n2 false) as E
    by (rewrite (name_hash_lower _ _ H1), (name_hash_lower _ _ H2); by rewrite Hs).
  unfold dns_name_hash, dns_name_hashbylabel.
  rewrite (nr_labels _ _ H1), (nr_labels _ _ H2), Hl, E. split; [done|].
  case_bool_decide; [by split|]. case_bool_decide; [by split|].
  pose proof (hashbylabel_loop_spec n1 ls1 0%Z [] H1) as L1.
  pose proof (hashbylabel_loop_spec n2 ls2 0%Z [] H2) as L2.
  change (length []) with 0 in L1, L2. rewrite <- Hl at 1 2. rewrite L1, L2.
  split; [done|]. f_equal. clear -Hs. generalize 0%Z at 2 4 as h. revert ls2 Hs.
  induction ls1 as [|a ls1 IH]; intros [|b ls2] Hs h; try done.
  apply same_labels_cons in Hs as [Hab Hs]. cbn [foldl]. rewrite Hab. by apply IH.
Qed.

Lemma wildcard_ok n w ls ws :
  name_repr n ls → name_repr w ws → ls ≠ [] → ws ≠ [] →
  dns_name_iswildcard w = Some (bool_decide (head ws = Some [42%Z])) ∧
  dns_name_internalwildcard w =
    Some (bool_decide ([42%Z] ∈ take (length ws - 2) (tail ws))) ∧
  (head ws = Some [42%Z] → is_root_last ls = is_root_last (tail ws) →
   dns_name_matcheswildcard n w = Some (bool_decide (below ls (tail ws)))).
Proof.
  intros Hn Hw Nn Nw. pose proof Hw as [Dw Lw Aw Ow].
  destruct ws as [|l ws]; [done|]. cbn [head tail].
  assert (dns_name_iswildcard w = Some (bool_decide (Some l = Some [42%Z]))) as E1.
  { unfold dns_name_iswildcard. rewrite bool_decide_true by (rewrite Lw; cbn; lia).
    rewrite Dw, enc_labels_cons. unfold enc_label. cbn [app length lookup list_lookup].
    case_bool_decide as E.
    - cbn [mbind option_bind]. destruct l as [|c [|c' l]].
      + cbn [app] in *. destruct (enc_labels ws) as [|x xs] eqn:Ex; [cbn in E; lia|].
        cbn. rewrite !bool_decide_false; naive_solver.
      + cbn. f_equal. apply bool_decide_ext. naive_solver.
      + cbn. rewrite !bool_decide_false; [done|naive_solver|]. intros [H _]. lia.
    - rewrite bool_decide_false; [done|]. intros [= ->]. cbn in E. lia. }
  split_and!; [done| |].
  - unfold dns_name_internalwildcard. rewrite bool_decide_true by (rewrite Lw; cbn; lia).
    pose proof (enc_lookup_head (ndata w) [] l ws Dw) as Hh. cbn [length] in Hh. rewrite Hh.
    cbn [mbind option_bind]. pose proof (lo_short _ Ow) as [Hl Hs]%Forall_cons.
    rewrite bool_decide_true, Nat2Z.id, Lw by lia.
    change (S (length l)) with (length (enc_label l)).
    rewrite (internalwildcard_loop_spec _ _ ws); [done|done|done|cbn; lia].
  - intros [= ->] Ha. unfold dns_name_matcheswildcard.
    rewrite bool_decide_true by (rewrite (nr_labels _ _ Hn), Lw; destruct ls; [done|cbn; lia]).
    rewrite E1, bool_decide_true by done. cbn [mbind option_bind].
    rewrite Lw. cbn [length]. rewrite Nat.sub_1_r. cbn [pred].
    destruct (getlabelsequence_repr w _ 1 (length ws) Hw) as [Eg Og]; [cbn; lia|].
    cbn [drop] in Eg, Og. rewrite drop_0 in Eg, Og. rewrite take_ge in Eg, Og by lia.
    rewrite Eg. cbn [mbind option_bind].
    rewrite (fullcompare_labels n _ ls ws Hn (name_of_repr _ Og) Ha).
    pose proof (labels_compare_relation ls ws) as Hr.
    destruct (labels_compare ls ws) as [[r o] k]. cbn [mbind option_bind].
    f_equal. apply bool_decide_ext. tauto.
Qed.

(** Wildcards. A well-formed name is a wildcard exactly if its first
    label is [*]; it has an internal wildcard exactly if a label strictly
    between the first and the last is [*]; and a name matches a wildcard
    exactly if it is strictly below the wildcard's parent. *)
Theorem wildcard_spec n w ls ws :
  name_repr n ls → name_repr w ws → ls ≠ [] → ws ≠ [] →
  dns_name_iswildcard w = Some (bool_decide (head ws = Some [42%Z])) ∧
  dns_name_internalwildcard w =
    Some (bool_decide ([42%Z] ∈ take (length ws - 2) (tail ws))) ∧
  (head ws = Some [42%Z] → is_root_last ls = is_root_last (tail ws) →
   dns_name_matcheswildcard n w = Some (bool_decide (below ls (tail ws)))).
Proof. apply wildcard_ok. Qed.
