(* ===== verification/NameText.v ===== *)
(** * Names as text

    [dns_name_fromtext] and [dns_name_totext2] of [lib/dns/name.c]: the
    presentation format of zone files and configuration.

    The source of [dns_name_fromtext] is the list of its remaining bytes, the
    target buffer the number of its available bytes; the bytes written are
    part of the state. [None] is a failed [INSIST] or an index out of a
    table. [totext2] is modelled without a totext filter (a callback that
    only [dig] installs). *)
From S2P Require Import Prelude Qsort Rdata Name.

(** ** dns_name_fromtext *)

Inductive ft_state :=
  | ft_init | ft_start | ft_ordinary | ft_initialescape | ft_escape
  | ft_escdecimal | ft_at.

#[export] Instance ft_state_eq_dec : EqDecision ft_state.
Proof. solve_decision. Defined.

(** The locals of the loop. [ft_out] is what is written before [ndata]; the
    length byte at [ft_label] is a placeholder until [*label = count]. *)
Record ft := Ft {
  ft_st : ft_state; ft_out : list Z; ft_label : nat; ft_count : nat;
  ft_labels : nat; ft_digits : nat; ft_value : Z; ft_nrem : nat; ft_done : bool }.

(** [inl] is a [return] with an error. *)
Definition ft_result : Type := isc_result + ft.

Definition isdigit (c : Z) : bool := bool_decide (48 <= c <= 57)%Z.

Definition digitvalue (c : Z) : Z :=
  if bool_decide (48 <= c <= 57)%Z then (c - 48)%Z
  else if bool_decide (65 <= c <= 70)%Z then (c - 55)%Z
  else if bool_decide (97 <= c <= 102)%Z then (c - 87)%Z else (-1)%Z.

(** [maptolower[(int)c]] of a [char], which is signed: bytes above 127 index
    the table below its start. *)
Definition maptolower_char (c : Z) : option Z :=
  if bool_decide (c < 128)%Z then Some (maptolower c) else None.

(** [*ndata++ = c; nrem--; nused++;] *)
Definition ft_put (s : ft) (c : Z) (st : ft_state) (count : nat) : ft :=
  {| ft_st := st; ft_out := ft_out s ++ [c]; ft_label := ft_label s; ft_count := count;
     ft_labels := ft_labels s; ft_digits := ft_digits s; ft_value := ft_value s;
     ft_nrem := ft_nrem s - 1; ft_done := ft_done s |}.

Definition ft_set_state (s : ft) (st : ft_state) : ft :=
  {| ft_st := st; ft_out := ft_out s; ft_label := ft_label s; ft_count := ft_count s;
     ft_labels := ft_labels s; ft_digits := ft_digits s; ft_value := ft_value s;
     ft_nrem := ft_nrem s; ft_done := ft_done s |}.

(** A character of a label. *)
Definition ft_char (downcase : bool) (c : Z) (s : ft) : option ft_result :=
  if bool_decide (63 <= ft_count s) then Some (inl DNS_R_LABELTOOLONG)
  else
    c ← (if downcase then maptolower_char c else Some c);
    Some (inr (ft_put s c ft_ordinary (S (ft_count s)))).

(** [*label = count; labels++; INSIST(labels <= 127)] *)
Definition ft_close (s : ft) (st : ft_state) : option ft :=
  if bool_decide (S (ft_labels s) <= 127) then
    Some {| ft_st := st; ft_out := <[ft_label s := Z.of_nat (ft_count s)]> (ft_out s);
            ft_label := ft_label s; ft_count := ft_count s; ft_labels := S (ft_labels s);
            ft_digits := ft_digits s; ft_value := ft_value s; ft_nrem := ft_nrem s;
            ft_done := ft_done s |}
  else None.

(** [labels++; *ndata++ = 0; nrem--; nused++; done = ISC_TRUE;] *)
Definition ft_root (s : ft) : ft :=
  {| ft_st := ft_st s; ft_out := ft_out s ++ [0%Z]; ft_label := ft_label s;
     ft_count := ft_count s; ft_labels := S (ft_labels s); ft_digits := ft_digits s;
     ft_value := ft_value s; ft_nrem := ft_nrem s - 1; ft_done := true |}.

Definition case_ordinary (downcase : bool) (c : Z) (tlen : nat) (s : ft) : option ft_result :=
  if bool_decide (c = 46)%Z then
    if bool_decide (ft_count s = 0) then Some (inl DNS_R_EMPTYLABEL)
    else
      s ← ft_close s ft_start;
      Some (inr (if bool_decide (tlen = 0) then ft_root s else s))
  else if bool_decide (c = 92)%Z then Some (inr (ft_set_state s ft_escape))
  else ft_char downcase c s.

Definition case_start (downcase : bool) (c : Z) (tlen : nat) (s : ft) : option ft_result :=
  let s := {| ft_st := ft_st s; ft_out := ft_out s ++ [0%Z]; ft_label := length (ft_out s);
              ft_count := 0; ft_labels := ft_labels s; ft_digits := ft_digits s;
              ft_value := ft_value s; ft_nrem := ft_nrem s - 1; ft_done := ft_done s |} in
  if bool_decide (c = 92)%Z then Some (inr (ft_set_state s ft_initialescape))
  else
    let s := ft_set_state s ft_ordinary in
    if bool_decide (ft_nrem s = 0) then Some (inl ISC_R_NOSPACE)
    else case_ordinary downcase c tlen s.

Definition case_init (downcase : bool) (c : Z) (tlen : nat) (s : ft) : option ft_result :=
  if bool_decide (c = 46)%Z then
    if bool_decide (tlen ≠ 0) then Some (inl DNS_R_EMPTYLABEL) else Some (inr (ft_root s))
  else if bool_decide (c = 64%Z ∧ tlen = 0) then Some (inr (ft_set_state s ft_at))
  else case_start downcase c tlen s.

Definition case_escdecimal (downcase : bool) (c : Z) (s : ft) : option ft_result :=
  if negb (isdigit c) then Some (inl DNS_R_BADESCAPE)
  else
    let value := u32 (u32 (ft_value s * 10) + digitvalue c) in
    let digits := S (ft_digits s) in
    let s := {| ft_st := ft_escdecimal; ft_out := ft_out s; ft_label := ft_label s;
                ft_count := ft_count s; ft_labels := ft_labels s; ft_digits := digits;
                ft_value := value; ft_nrem := ft_nrem s; ft_done := ft_done s |} in
    if bool_decide (digits = 3) then
      if bool_decide (255 < value)%Z then Some (inl DNS_R_BADESCAPE)
      else if bool_decide (63 <= ft_count s) then Some (inl DNS_R_LABELTOOLONG)
      else Some (inr (ft_put s (u8 (if downcase then maptolower value else value))
                        ft_ordinary (S (ft_count s))))
    else Some (inr s).

Definition case_escape (downcase : bool) (c : Z) (s : ft) : option ft_result :=
  if negb (isdigit c) then ft_char downcase c s
  else
    case_escdecimal downcase c
      {| ft_st := ft_escdecimal; ft_out := ft_out s; ft_label := ft_label s;
         ft_count := ft_count s; ft_labels := ft_labels s; ft_digits := 0;
         ft_value := 0; ft_nrem := ft_nrem s; ft_done := ft_done s |}.

(** The [switch]; [tlen] is what remains after [c]. [ft_at] has no case. *)
Definition ft_step (downcase : bool) (c : Z) (tlen : nat) (s : ft) : option ft_result :=
  match ft_st s with
  | ft_init => case_init downcase c tlen s
  | ft_start => case_start downcase c tlen s
  | ft_ordinary => case_ordinary downcase c tlen s
  | ft_initialescape =>
      if bool_decide (c = 91)%Z then Some (inl DNS_R_BADLABELTYPE)
      else case_escape downcase c (ft_set_state s ft_escape)
  | ft_escape => case_escape downcase c s
  | ft_escdecimal => case_escdecimal downcase c s
  | ft_at => None
  end.

(** [while (nrem > 0 && tlen > 0 && !done)]; what remains of the source is
    returned with the state. *)
Fixpoint ft_loop (downcase : bool) (src : list Z) (s : ft)
    : option (isc_result + ft * list Z) :=
  match src with
  | [] => Some (inr (s, []))
  | c :: rest =>
      if bool_decide (0 < ft_nrem s) && negb (ft_done s) then
        r ← ft_step downcase c (length rest) s;
        match r with
        | inl e => Some (inl e)
        | inr s => ft_loop downcase rest s
        end
      else Some (inr (s, src))
  end.

(** The loop that copies the origin: [d] is what is left of it. *)
Fixpoint ft_origin (fuel : nat) (downcase : bool) (d out : list Z) (labels : nat)
    : option (list Z * nat) :=
  match d, fuel with
  | [], _ => Some (out, labels)
  | _ :: _, O => None
  | n2 :: d', S fuel =>
      if bool_decide (n2 <= 63)%Z then
        l ← mread d' 0 (Z.to_nat n2);
        l ← (if downcase then mapM maptolower_char l else Some l);
        let d'' := drop (Z.to_nat n2) d' in
        if bool_decide (d'' = [] ∨ S labels <= 127) then
          ft_origin fuel downcase d'' (out ++ n2 :: l) (S labels)
        else None
      else None
  end.

(** The result, the name, and what remains of the source. *)
Definition dns_name_fromtext (source : list Z) (origin : option name) (downcase : bool)
    (avail : nat) : option (isc_result + name * list Z) :=
  let nrem := if bool_decide (255 < avail) then 255 else avail in
  r ← ft_loop downcase source (Ft ft_init [] 0 0 0 0 0 nrem false);
  match r with
  | inl e => Some (inl e)
  | inr (s, rest) =>
      if ft_done s then Some (inr (Name (ft_out s) (ft_labels s) true, rest))
      else if bool_decide (ft_nrem s = 0) then Some (inl ISC_R_NOSPACE)
      else if bool_decide (rest ≠ []) then None
      else if bool_decide (ft_st s ≠ ft_ordinary ∧ ft_st s ≠ ft_at)
      then Some (inl ISC_R_UNEXPECTEDEND)
      else
        s ← (if bool_decide (ft_st s = ft_ordinary) then
               if bool_decide (ft_count s ≠ 0) then ft_close s ft_ordinary else None
             else Some s);
        match origin with
        | None => Some (inr (Name (ft_out s) (ft_labels s) false, rest))
        | Some o =>
            if bool_decide (ft_nrem s < length (ndata o)) then Some (inl ISC_R_NOSPACE)
            else
              '(out, labels) ← ft_origin (length (ndata o)) downcase (ndata o)
                                 (ft_out s) (ft_labels s);
              Some (inr (Name out labels (absolute o), rest))
        end
  end.

(** ** dns_name_totext2 *)

(** The [switch] on a byte of a label: what it writes. *)
Definition totext_char (masterfile : bool) (c : Z) : list Z :=
  let plain := if bool_decide (32 < c < 127)%Z then [c]
               else [92; 48 + (c / 100) mod 10; 48 + (c / 10) mod 10; 48 + c mod 10]%Z in
  if bool_decide (c = 64 ∨ c = 36)%Z then (if masterfile then [92; c]%Z else plain)
  else if bool_decide (c ∈ [34; 40; 41; 46; 59; 92]%Z) then [92; c]%Z
  else plain.

(** [while (count > 0)], from byte [p] of the name; the output and [trem]. *)
Fixpoint totext_label (masterfile : bool) (d : list Z) (p count : nat) (out : list Z)
    (trem : nat) : option (isc_result + list Z * nat) :=
  match count with
  | O => Some (inr (out, trem))
  | S count =>
      c ← d !! p;
      let t := totext_char masterfile c in
      if bool_decide (trem < length t) then Some (inl ISC_R_NOSPACE)
      else totext_label masterfile d (S p) count (out ++ t) (trem - length t)
  end.

(** [while (labels > 0 && nlen > 0 && trem > 0)]; the output, [nlen], [trem]
    and [saw_root]. *)
Fixpoint totext_labels (masterfile : bool) (d : list Z) (p labels nlen : nat)
    (out : list Z) (trem : nat) : option (isc_result + list Z * nat * nat * bool) :=
  match labels with
  | O => Some (inr (out, nlen, trem, false))
  | S labels =>
      if bool_decide (0 < nlen ∧ 0 < trem) then
        count ← d !! p;
        let nlen := nlen - 1 in
        if bool_decide (count = 0%Z) then Some (inr (out, nlen, trem, true))
        else if bool_decide (count < 64)%Z then
          if bool_decide (Z.to_nat count <= nlen) then
            r ← totext_label masterfile d (S p) (Z.to_nat count) out trem;
            match r with
            | inl e => Some (inl e)
            | inr (out, trem) =>
                if bool_decide (trem = 0) then Some (inl ISC_R_NOSPACE)
                else totext_labels masterfile d (S p + Z.to_nat count) labels
                       (nlen - Z.to_nat count) (out ++ [46%Z]) (trem - 1)
            end
          else None
        else None
      else Some (inr (out, nlen, trem, false))
  end.

(** The text, or the error. *)
Definition dns_name_totext2 (n : name) (omit_final_dot masterfile : bool) (avail : nat)
    : option (isc_result + list Z) :=
  let tlen := avail in
  let nlen := length (ndata n) in
  r ← (if bool_decide (labels n = 0 ∧ nlen = 0) then
         if bool_decide (tlen = 0) then Some (inl ISC_R_NOSPACE)
         else Some (inr ([64%Z], 0, tlen - 1, true, false))
       else if bool_decide (nlen = 1 ∧ labels n = 1 ∧ ndata n !! 0 = Some 0%Z) then
         if bool_decide (tlen = 0) then Some (inl ISC_R_NOSPACE)
         else Some (inr ([46%Z], 0, tlen - 1, true, false))
       else
         r ← totext_labels masterfile (ndata n) 0 (labels n) nlen [] tlen;
         Some (match r with
               | inl e => inl e
               | inr (out, nlen, trem, saw_root) => inr (out, nlen, trem, saw_root, omit_final_dot)
               end));
  match r with
  | inl e => Some (inl e)
  | inr (out, nlen, trem, saw_root, omit_final_dot) =>
      if bool_decide (nlen ≠ 0 ∧ trem = 0) then Some (inl ISC_R_NOSPACE)
      else
        let trem := if negb saw_root || omit_final_dot then S trem else trem in
        Some (inr (take (tlen - trem) out))
  end.

Definition dns_name_totext (n : name) (omit_final_dot : bool) (avail : nat) :=
  dns_name_totext2 n omit_final_dot true avail.

Example www_example_text :
  let n := name_of [[119; 119; 119]; [97; 46; 200]; []]%Z in
  let t := [119; 119; 119; 46; 97; 92; 46; 92; 50; 48; 48; 46]%Z in
  dns_name_totext n false 300 = Some (inr t) ∧
  dns_name_fromtext t None false 255 = Some (inr (n, [])).
Proof. by vm_compute. Qed.

(** ** What the parser keeps *)

(** Labels that are complete in the target. *)
Definition full (ls : list label) : Prop :=
  Forall (λ l, 0 < length l <= 63 ∧ bytes_ok l) ls.

Lemma full_size ls : full ls → 2 * length ls <= length (enc_labels ls).
Proof.
  induction 1 as [|l ls [Hl _] _ IH]; [done|].
  rewrite enc_labels_cons, length_app, enc_label_length. cbn [length]. lia.
Qed.

Lemma full_snoc ls l : full ls → 0 < length l <= 63 → bytes_ok l → full (ls ++ [l]).
Proof. intros. apply Forall_app. split; [done|]. by constructor. Qed.

Lemma enc_labels_snoc ls l : enc_labels (ls ++ [l]) = enc_labels ls ++ enc_label l.
Proof. rewrite enc_labels_app. f_equal. cbn. by rewrite app_nil_r. Qed.

Lemma full_root_last ls : full ls → is_root_last ls = false.
Proof.
  intros Hf. apply bool_decide_false. rewrite last_lookup.
  intros (Hl & _)%(Forall_lookup_1 _ _ _ _ Hf). cbn in Hl. lia.
Qed.

(** Complete labels, followed by a well-formed rest, are a name. *)
Lemma full_labels_ok ls rest :
  full ls → labels_ok rest → length (enc_labels ls) + length (enc_labels rest) <= 255 →
  labels_ok (ls ++ rest).
Proof.
  intros Hf [Hs Hr Hm] Hl. split.
  - apply Forall_app. split; [|done]. eapply Forall_impl; [exact Hf|]. cbn. lia.
  - intros i Hi. rewrite length_app. destruct (decide (i < length ls)) as [Hlt|Hge].
    + rewrite lookup_app_l in Hi by done.
      apply (Forall_lookup_1 _ _ _ _ Hf) in Hi as [Hi _]. cbn in Hi. lia.
    + rewrite lookup_app_r in Hi by lia. apply Hr in Hi. lia.
  - rewrite enc_labels_app, length_app. unfold DNS_NAME_MAXWIRE. lia.
Qed.

(** Between two labels, and inside one. *)
Definition at_start st ls lb ct dg v nrem : ft :=
  Ft st (enc_labels ls) lb ct (length ls) dg v nrem false.
Definition in_label st ls cur dg v nrem : ft :=
  Ft st (enc_labels ls ++ 0%Z :: cur) (length (enc_labels ls)) (length cur) (length ls)
     dg v nrem false.
Definition at_root st ls lb ct dg v nrem : ft :=
  Ft st (enc_labels (ls ++ [[]])) lb ct (S (length ls)) dg v nrem true.

Inductive ft_shape (nmax : nat) : ft → Prop :=
  | sh_start st ls lb ct dg v nrem :
      st = ft_start ∨ (st = ft_init ∨ st = ft_at) ∧ ls = [] → full ls →
      nrem + length (enc_labels ls) = nmax →
      ft_shape nmax (at_start st ls lb ct dg v nrem)
  | sh_label st ls cur dg v nrem :
      st ∈ [ft_ordinary; ft_initialescape; ft_escape; ft_escdecimal] →
      (st = ft_ordinary → cur ≠ []) → full ls → length cur <= 63 → bytes_ok cur →
      nrem + length (enc_labels ls) + S (length cur) = nmax →
      ft_shape nmax (in_label st ls cur dg v nrem)
  | sh_root st ls lb ct dg v nrem :
      full ls → nrem + length (enc_labels ls) + 1 = nmax →
      ft_shape nmax (at_root st ls lb ct dg v nrem).

(** After a step: an error of the parser, or the shape again; the loop ends
    where [@] or the root was read. *)
Definition ft_errors : list isc_result :=
  [DNS_R_EMPTYLABEL; DNS_R_LABELTOOLONG; DNS_R_BADLABELTYPE; DNS_R_BADESCAPE;
   ISC_R_NOSPACE; ISC_R_UNEXPECTEDEND].
Ltac ft_mem := unfold ft_errors; rewrite !elem_of_cons; tauto.
Ltac ft_error := eexists; split; [done|]; cbn; ft_mem.
Definition ft_good (nmax tlen : nat) (r : ft_result) : Prop :=
  match r with
  | inl e => e ∈ ft_errors
  | inr s => ft_shape nmax s ∧ (ft_st s = ft_at ∨ ft_done s = true → tlen = 0)
  end.

Lemma ft_close_label st st' ls cur dg v nrem :
  length ls < 127 →
  ft_close (in_label st ls cur dg v nrem) st' =
    Some (at_start st' (ls ++ [cur]) (length (enc_labels ls)) (length cur) dg v nrem).
Proof.
  intros Hl. unfold ft_close, in_label. cbn [ft_labels ft_label ft_count ft_out].
  rewrite bool_decide_true by lia. f_equal. unfold at_start.
  rewrite enc_labels_snoc, length_app, Nat.add_1_r. f_equal.
  rewrite insert_app_r_alt, Nat.sub_diag by lia. done.
Qed.

(** A byte that [maptolower[(int)c]] can be asked about. *)
Definition char_ok (downcase : bool) (c : Z) : Prop := downcase = true → (c < 128)%Z.

Lemma lower_if_char downcase c :
  char_ok downcase c →
  (if downcase then maptolower_char c else Some c) = Some (lower_if downcase c).
Proof.
  unfold char_ok, maptolower_char, lower_if. destruct downcase; [|done].
  intros H. by rewrite bool_decide_true by auto.
Qed.

Lemma ft_char_label downcase c st ls cur dg v nrem :
  length cur < 63 → char_ok downcase c →
  ft_char downcase c (in_label st ls cur dg v nrem) =
    Some (inr (in_label ft_ordinary ls (cur ++ [lower_if downcase c]) dg v (nrem - 1))).
Proof.
  intros Hl Hc. unfold ft_char. cbn [ft_count in_label].
  rewrite bool_decide_false by lia. rewrite lower_if_char by done.
  cbn [mbind option_bind]. unfold ft_put, in_label. cbn.
  rewrite length_app, Nat.add_1_r, <- app_assoc. done.
Qed.

Section steps.
Context (downcase : bool) (nmax : nat) (Hmax : nmax <= 255).

Lemma ft_char_good c tlen st ls cur dg v nrem :
  is_byte c → char_ok downcase c → full ls → length cur <= 63 → bytes_ok cur →
  0 < nrem → nrem + length (enc_labels ls) + S (length cur) = nmax →
  ∃ r, ft_char downcase c (in_label st ls cur dg v nrem) = Some r ∧ ft_good nmax tlen r.
Proof.
  intros Hb Hc Hf Hl Hcur Hn Hs. destruct (decide (length cur < 63)) as [Hlt|Hge].
  - rewrite ft_char_label by done. eexists. split; [done|]. split.
    + apply sh_label; try done; [set_solver|by destruct cur|rewrite length_app; cbn; lia| |
                                 rewrite length_app; cbn; lia].
      apply Forall_app. split; [done|]. constructor; [|done]. by apply lower_if_byte.
    + cbn. intros [?|?]; done.
  - unfold ft_char. cbn [ft_count in_label]. rewrite bool_decide_true by lia.
    ft_error.
Qed.

Lemma case_ordinary_good c tlen st ls cur dg v nrem :
  is_byte c → char_ok downcase c → full ls → length cur <= 63 → bytes_ok cur →
  0 < nrem → nrem + length (enc_labels ls) + S (length cur) = nmax →
  ∃ r, case_ordinary downcase c tlen (in_label st ls cur dg v nrem) = Some r ∧
       ft_good nmax tlen r.
Proof.
  intros Hb Hc Hf Hl Hcur Hn Hs. unfold case_ordinary.
  pose proof (full_size _ Hf) as Hsz.
  case_bool_decide.
  { cbn [ft_count in_label]. case_bool_decide as E0.
    - ft_error.
    - change (Ft _ _ _ _ _ _ _ _ _) with (in_label st ls cur dg v nrem).
      rewrite ft_close_label by lia. cbn [mbind option_bind].
      eexists. split; [done|].
      assert (full (ls ++ [cur])) as Hf' by (apply full_snoc; done || lia).
      case_bool_decide; cbn; (split; [|intros [?|?]; done || lia]).
      + unfold ft_root. cbn.
        replace (enc_labels (ls ++ [cur]) ++ [0%Z]) with (enc_labels ((ls ++ [cur]) ++ [[]]))
          by (by rewrite (enc_labels_snoc (ls ++ [cur]))).
        apply sh_root; [done|].
        rewrite enc_labels_snoc, length_app, enc_label_length. lia.
      + apply sh_start; [by left|done|].
        rewrite enc_labels_snoc, length_app, enc_label_length. lia. }
  case_bool_decide; [|by apply ft_char_good].
  eexists. split; [done|]. split; [|cbn; intros [?|?]; done].
  apply sh_label; try done. set_solver.
Qed.

Lemma case_start_good c tlen st ls lb ct dg v nrem :
  is_byte c → char_ok downcase c → full ls → 0 < nrem →
  nrem + length (enc_labels ls) = nmax →
  ∃ r, case_start downcase c tlen (at_start st ls lb ct dg v nrem) = Some r ∧
       ft_good nmax tlen r.
Proof.
  intros Hb Hc Hf Hn Hs. unfold case_start. cbn [at_start ft_st ft_out ft_labels ft_digits
    ft_value ft_nrem ft_done].
  change (Ft st (enc_labels ls ++ [0%Z]) (length (enc_labels ls)) 0 (length ls) dg v
             (nrem - 1) false) with (in_label st ls [] dg v (nrem - 1)).
  case_bool_decide.
  { eexists. split; [done|]. split; [|cbn; intros [?|?]; done].
    apply (sh_label _ ft_initialescape ls []); try done; [set_solver|cbn; lia|cbn; lia]. }
  case_bool_decide as E0; cbn [in_label ft_set_state ft_nrem] in E0.
  { ft_error. }
  apply (case_ordinary_good c tlen ft_ordinary ls []); try done; cbn; lia.
Qed.

Lemma case_escdecimal_good c tlen st ls cur dg v nrem :
  full ls → length cur <= 63 → bytes_ok cur →
  0 < nrem → nrem + length (enc_labels ls) + S (length cur) = nmax →
  ∃ r, case_escdecimal downcase c (in_label st ls cur dg v nrem) = Some r ∧
       ft_good nmax tlen r.
Proof.
  intros Hf Hl Hcur Hn Hs. unfold case_escdecimal.
  destruct (isdigit c); cbn [negb]; [|ft_error].
  cbn [in_label ft_count ft_digits]. repeat case_bool_decide.
  - ft_error.
  - ft_error.
  - eexists. split; [done|]. split; [|cbn; intros [?|?]; done].
    unfold ft_put. cbn. rewrite <- app_assoc, <- (Nat.add_1_r (length cur)).
    match goal with |- context [u8 ?b] => set (b' := u8 b) end.
    replace (length cur + 1) with (length (cur ++ [b'])) by (by rewrite length_app).
    apply (sh_label _ ft_ordinary ls (cur ++ [b'])); try done; rewrite ?length_app; cbn;
      [set_solver|by destruct cur|lia| |lia].
    apply Forall_app. split; [done|]. constructor; [apply u8_range|done].
  - eexists. split; [done|]. split; [|cbn; intros [?|?]; done].
    apply (sh_label _ ft_escdecimal ls cur); try done. set_solver.
Qed.

Lemma case_escape_good c tlen st ls cur dg v nrem :
  is_byte c → char_ok downcase c → full ls → length cur <= 63 → bytes_ok cur →
  0 < nrem → nrem + length (enc_labels ls) + S (length cur) = nmax →
  ∃ r, case_escape downcase c (in_label st ls cur dg v nrem) = Some r ∧
       ft_good nmax tlen r.
Proof.
  intros. unfold case_escape. destruct (isdigit c); cbn [negb].
  - by apply (case_escdecimal_good c tlen ft_escdecimal ls cur 0 0).
  - by apply ft_char_good.
Qed.

Lemma ft_step_good c tlen s :
  is_byte c → char_ok downcase c → ft_shape nmax s → 0 < ft_nrem s →
  ft_st s ≠ ft_at → ft_done s = false →
  ∃ r, ft_step downcase c tlen s = Some r ∧ ft_good nmax tlen r.
Proof.
  intros Hb Hc Hs Hn Hat Hd. destruct Hs as [st ls lb ct dg v nrem Hst Hf Hsz|
    st ls cur dg v nrem Hst Hne Hf Hl Hcur Hsz|]; [| |done]; cbn in Hn, Hat; unfold ft_step;
    cbn [ft_st at_start in_label].
  - destruct Hst as [->|[[->| ->] ->]]; [by apply case_start_good| |done].
    unfold case_init. case_bool_decide.
    { case_bool_decide as Et; (eexists; split; [done|]); cbn; [ft_mem|].
      split; [|cbn; intros [?|?]; done || lia].
      apply (sh_root _ ft_init []); [done|cbn in *; lia]. }
    case_bool_decide as Et; [|by apply (case_start_good c tlen ft_init [])].
    eexists. split; [done|]. split; [|cbn; tauto].
    apply (sh_start _ ft_at []); [|done|done]. right. by split; [right|].
  - rewrite !elem_of_cons, elem_of_nil in Hst. destruct Hst as [->|[->|[->|[->|[]]]]].
    + by apply case_ordinary_good.
    + case_bool_decide; [ft_error|].
      by apply (case_escape_good c tlen ft_escape).
    + by apply case_escape_good.
    + by apply case_escdecimal_good.
Qed.

Lemma ft_loop_good src s :
  bytes_ok src → Forall (char_ok downcase) src → ft_shape nmax s →
  (ft_st s = ft_at ∨ ft_done s = true → src = []) →
  ∃ r, ft_loop downcase src s = Some r ∧
    match r with
    | inl e => e ∈ ft_errors
    | inr (s', rest) => ft_shape nmax s' ∧
        (ft_done s' = true → rest = []) ∧ (ft_nrem s' ≠ 0 → rest = [])
    end.
Proof.
  intros Hb Hc. revert s. induction src as [|c src IH]; intros s Hs Hend; cbn [ft_loop].
  { eexists. split; [done|]. by split_and!. }
  apply Forall_cons in Hb as [Hb1 Hb], Hc as [Hc1 Hc].
  destruct (ft_done s) eqn:Hd; [by pose proof (Hend (or_intror eq_refl))|].
  case_bool_decide as Hn; cbn [negb andb].
  - destruct (ft_step_good c (length src) s) as (r & -> & Hr); try done.
    { intros Hat. by pose proof (Hend (or_introl Hat)). }
    cbn [mbind option_bind]. destruct r as [e|s']; [by eexists|].
    destruct Hr as [Hs' Hend']. apply (IH Hb Hc s' Hs').
    intros H. by apply nil_length_inv, Hend'.
  - eexists. split; [done|]. split_and!; [done|by rewrite Hd|lia].
Qed.
End steps.

(** ** The origin *)

Lemma mapM_maptolower_char l :
  Forall (char_ok true) l → mapM maptolower_char l = Some (lower_if true <$> l).
Proof.
  induction 1 as [|c l Hc _ IH]; [done|]. cbn.
  rewrite (lower_if_char true c Hc). cbn. by rewrite IH.
Qed.

Lemma ft_origin_spec fuel downcase ls out k :
  Forall (λ l, length l <= 63) ls → Forall (Forall (char_ok downcase)) ls →
  length (enc_labels ls) <= fuel → k + length ls <= 128 →
  ft_origin fuel downcase (enc_labels ls) out k =
    Some (out ++ enc_labels (lower_labels_if downcase ls), k + length ls).
Proof.
  intros Hs. revert fuel out k. induction Hs as [|l ls Hl _ IH];
    intros fuel out k Hc Hf Hk.
  { cbn. rewrite app_nil_r, Nat.add_0_r. by destruct fuel. }
  apply Forall_cons in Hc as [Hc1 Hc]. rewrite enc_labels_cons in *.
  unfold enc_label in *. cbn [app] in *. cbn [length] in *. rewrite length_app in Hf.
  destruct fuel as [|fuel]; [cbn in Hf; lia|]. cbn [ft_origin].
  rewrite bool_decide_true, Nat2Z.id by lia.
  rewrite (mread_part [] l (enc_labels ls) : mread (l ++ enc_labels ls) 0 (length l) = _).
  cbn [mbind option_bind]. rewrite drop_app_length.
  assert ((if downcase then mapM maptolower_char l else Some l) =
          Some (lower_if downcase <$> l)) as ->.
  { destruct downcase; [by apply mapM_maptolower_char|].
    f_equal. symmetry. by apply list_fmap_id. }
  cbn [mbind option_bind]. rewrite bool_decide_true.
  - rewrite IH by (done || cbn in *; lia). f_equal. f_equal; [|lia].
    unfold lower_labels_if. cbn [fmap list_fmap].
    rewrite (enc_labels_cons (lower_if downcase <$> l)). unfold enc_label.
    rewrite length_fmap, <- app_assoc. done.
  - destruct ls as [|l' ls]; [by left|right]. cbn in Hk. lia.
Qed.

Lemma is_root_last_app ls1 ls2 :
  full ls1 → is_root_last (ls1 ++ ls2) = is_root_last ls2.
Proof.
  intros Hf. destruct ls2 as [|l ls2].
  - rewrite app_nil_r. by rewrite full_root_last.
  - unfold is_root_last. by rewrite last_app_cons.
Qed.


(** With [DNS_NAME_DOWNCASE], a byte above 127 in the source makes
    [dns_name_fromtext] read [maptolower] at a negative index, because [c] is
    a (signed) [char]; without the option the same source is a name. *)
Theorem fromtext_downcase_out_of_bounds c :
  is_byte c → (128 <= c)%Z →
  dns_name_fromtext [c] None true 255 = None ∧
  dns_name_fromtext [c] None false 255 = Some (inr (name_of [[c]], [])).
Proof.
  intros Hb Hc. assert (c ∈ seqZ 128 128) as Hin
    by (apply elem_of_seqZ; unfold is_byte in Hb; lia).
  clear Hb Hc. revert c Hin. apply Forall_forall, (bool_decide_unpack _).
  by vm_compute.
Qed.

(** ** Round trip *)

Definition text_label (masterfile : bool) (l : label) : list Z := l ≫= totext_char masterfile.

(** The three ways to write a byte. *)
Lemma totext_char_cases c :
  is_byte c →
  (totext_char true c = [c] ∧ c ∉ [46; 92; 64]%Z) ∨
  (totext_char true c = [92; c]%Z ∧ isdigit c = false ∧ c ≠ 91%Z) ∨
  (∃ d1 d2 d3, totext_char true c = [92; 48 + d1; 48 + d2; 48 + d3]%Z ∧
     (0 <= d1 < 10)%Z ∧ (0 <= d2 < 10)%Z ∧ (0 <= d3 < 10)%Z ∧
     c = (d1 * 100 + d2 * 10 + d3)%Z).
Proof.
  unfold is_byte. intros Hc. unfold totext_char.
  case_bool_decide as E1.
  { right; left. unfold isdigit. split; [done|].
    rewrite bool_decide_false by lia. split; [done|lia]. }
  case_bool_decide as E2.
  { right; left. unfold isdigit. split; [done|].
    set_unfold in E2. rewrite bool_decide_false by lia.
    split; [done|lia]. }
  case_bool_decide.
  - left. split; [done|]. set_unfold in E2. set_unfold. lia.
  - right; right. exists ((c / 100) mod 10)%Z, ((c / 10) mod 10)%Z, (c mod 10)%Z.
    split_and!; try done; try (apply Z.mod_pos_bound; lia); dlia.
Qed.

Lemma digit_step d downcase ls cur st dg v nrem :
  (0 <= d < 10)%Z → dg < 2 → (0 <= v < 100)%Z →
  case_escdecimal downcase (48 + d) (in_label st ls cur dg v nrem) =
    Some (inr (in_label ft_escdecimal ls cur (S dg) (v * 10 + d) nrem)).
Proof.
  intros Hd Hdg Hv. unfold case_escdecimal, isdigit, digitvalue.
  rewrite bool_decide_true by lia. cbn [negb in_label ft_value ft_digits].
  rewrite bool_decide_false by lia. rewrite (u32_small (v * 10)), u32_small by lia.
  unfold in_label. cbn. do 3 f_equal. lia.
Qed.

Lemma last_digit_step d ls cur st v nrem :
  (0 <= d < 10)%Z → (0 <= v < 100)%Z → (v * 10 + d < 256)%Z → length cur < 63 →
  case_escdecimal false (48 + d) (in_label st ls cur 2 v nrem) =
    Some (inr (in_label ft_ordinary ls (cur ++ [v * 10 + d]%Z) 3 (v * 10 + d) (nrem - 1))).
Proof.
  intros Hd Hv Hr Hl. unfold case_escdecimal, isdigit, digitvalue.
  rewrite bool_decide_true by lia. cbn [negb in_label ft_value ft_digits ft_count].
  rewrite bool_decide_true by lia. rewrite (u32_small (v * 10)), u32_small by lia.
  replace (v * 10 + (48 + d - 48))%Z with (v * 10 + d)%Z by lia.
  rewrite bool_decide_false, bool_decide_false by lia.
  rewrite u8_small by (unfold is_byte; lia).
  unfold in_label, ft_put. cbn. by rewrite length_app, Nat.add_1_r, <- app_assoc.
Qed.

(** The parser reads one written byte, inside a label or at its start. *)
Definition reading (s : ft) (ls : list label) (cur : label) (nrem : nat) : Prop :=
  (∃ dg v, s = in_label ft_ordinary ls cur dg v nrem) ∨
  (cur = [] ∧ ∃ st lb ct dg v, (st = ft_start ∨ st = ft_init ∧ ls = []) ∧
     s = at_start st ls lb ct dg v (S nrem)).

Lemma ft_step_plain c tlen ls cur s nrem :
  reading s ls cur nrem → 0 < nrem → length cur < 63 → c ∉ [46; 92; 64]%Z →
  ∃ dg v, ft_step false c tlen s =
    Some (inr (in_label ft_ordinary ls (cur ++ [c]) dg v (nrem - 1))).
Proof.
  intros Hr Hn Hl Hc. set_unfold in Hc.
  assert (∀ dg v, case_ordinary false c tlen (in_label ft_ordinary ls cur dg v nrem) =
    Some (inr (in_label ft_ordinary ls (cur ++ [c]) dg v (nrem - 1)))) as Ho.
  { intros dg v. unfold case_ordinary. rewrite !bool_decide_false by lia.
    by rewrite ft_char_label. }
  destruct Hr as [(dg & v & ->)|(-> & st & lb & ct & dg & v & Hst & ->)];
    [by exists dg, v; apply Ho|].
  exists dg, v. rewrite <- Ho.
  assert (case_start false c tlen (at_start st ls lb ct dg v (S nrem)) =
    case_ordinary false c tlen (in_label ft_ordinary ls [] dg v nrem)) as Hs.
  { unfold case_start. rewrite bool_decide_false by lia. cbn.
    rewrite Nat.sub_0_r, bool_decide_false by lia. done. }
  rewrite <- Hs. unfold ft_step. destruct Hst as [->|[-> _]]; cbn [at_start ft_st]; [done|].
  unfold case_init. by rewrite !bool_decide_false by lia.
Qed.

Lemma ft_step_backslash tlen ls cur s nrem :
  reading s ls cur nrem →
  ∃ st dg v, (st = ft_escape ∨ st = ft_initialescape) ∧
    ft_step false 92 tlen s = Some (inr (in_label st ls cur dg v nrem)).
Proof.
  intros [(dg & v & ->)|(-> & st & lb & ct & dg & v & Hst & ->)].
  { exists ft_escape, dg, v. split; [by left|done]. }
  exists ft_initialescape, dg, v. split; [by right|].
  unfold ft_step. destruct Hst as [->|[-> _]]; cbn [at_start ft_st];
    unfold case_init, case_start, in_label; cbn; by rewrite Nat.sub_0_r.
Qed.

Lemma ft_step_escape c tlen st ls cur dg v nrem :
  st = ft_escape ∨ st = ft_initialescape → c ≠ 91%Z →
  ft_step false c tlen (in_label st ls cur dg v nrem) =
    case_escape false c (in_label ft_escape ls cur dg v nrem).
Proof. intros [->| ->] Hc; [done|]. cbn. by rewrite bool_decide_false. Qed.

Lemma ft_loop_step c rest s s' :
  0 < ft_nrem s → ft_done s = false → ft_step false c (length rest) s = Some (inr s') →
  ft_loop false (c :: rest) s = ft_loop false rest s'.
Proof. intros Hn Hd Hs. cbn [ft_loop]. rewrite bool_decide_true, Hd, Hs by done. done. Qed.

Lemma reading_go s ls cur nrem :
  reading s ls cur nrem → 0 < nrem → 0 < ft_nrem s ∧ ft_done s = false.
Proof.
  intros [(dg & v & ->)|(-> & st & lb & ct & dg & v & Hst & ->)] Hn; cbn; (split; [lia|done]).
Qed.

Lemma read_byte c rest s ls cur nrem :
  is_byte c → reading s ls cur nrem → 0 < nrem → length cur < 63 →
  ∃ dg v, ft_loop false (totext_char true c ++ rest) s =
    ft_loop false rest (in_label ft_ordinary ls (cur ++ [c]) dg v (nrem - 1)).
Proof.
  intros Hb Hr Hn Hl. destruct (reading_go _ _ _ _ Hr Hn) as [Hns Hd].
  destruct (totext_char_cases c Hb) as [[-> Hc]|[(-> & Hdig & Hc)|
    (d1 & d2 & d3 & -> & H1 & H2 & H3 & Hc)]]; cbn [app].
  - destruct (ft_step_plain c (length rest) ls cur s nrem) as (dg & v & Hs); try done.
    exists dg, v. by apply ft_loop_step.
  - destruct (ft_step_backslash (length (c :: rest)) ls cur s nrem Hr)
      as (st & dg & v & Hst & Hs).
    exists dg, v. rewrite (ft_loop_step _ _ _ _ Hns Hd Hs). apply ft_loop_step; [done..|].
    rewrite ft_step_escape by done. unfold case_escape. rewrite Hdig. cbn [negb].
    by rewrite ft_char_label.
  - destruct (ft_step_backslash (length ((48 + d1)%Z :: (48 + d2)%Z :: (48 + d3)%Z :: rest))
      ls cur s nrem Hr) as (st & dg & v & Hst & Hs).
    unfold is_byte in Hb. exists 3, c. rewrite (ft_loop_step _ _ _ _ Hns Hd Hs).
    erewrite ft_loop_step; [|done|done|].
    2:{ rewrite ft_step_escape by (done || lia). unfold case_escape, isdigit.
        rewrite bool_decide_true by lia. cbn [negb].
        apply (digit_step d1 false ls cur ft_escdecimal 0 0); lia. }
    erewrite ft_loop_step; [|done|done|by apply (digit_step d2 false ls cur ft_escdecimal); lia].
    erewrite ft_loop_step; [|done|done|by apply last_digit_step; lia].
    by replace (((0 * 10 + d1) * 10 + d2) * 10 + d3)%Z with c by lia.
Qed.

Lemma read_label l rest s ls cur nrem :
  bytes_ok l → reading s ls cur nrem → l ≠ [] → length l <= nrem →
  length cur + length l <= 63 →
  ∃ dg v, ft_loop false (text_label true l ++ rest) s =
    ft_loop false rest (in_label ft_ordinary ls (cur ++ l) dg v (nrem - length l)).
Proof.
  intros Hb. revert s cur nrem. induction Hb as [|c l Hc _ IH]; intros s cur nrem Hr Hne Hn Hl;
    [done|]. cbn [length] in *. unfold text_label. cbn [mbind list_bind].
  fold (text_label true l). rewrite <- app_assoc.
  destruct (read_byte c (text_label true l ++ rest) s ls cur nrem) as (dg & v & ->);
    [done|done|lia|lia|].
  destruct (decide (l = [])) as [->|Hl0].
  - exists dg, v. done.
  - destruct (IH (in_label ft_ordinary ls (cur ++ [c]) dg v (nrem - 1)) (cur ++ [c]) (nrem - 1))
      as (dg' & v' & ->); [by left; do 2 eexists|done|lia|rewrite length_app; cbn; lia|].
    exists dg', v'. rewrite <- app_assoc.
    by replace (nrem - S (length l)) with (nrem - 1 - length l) by lia.
Qed.

(** The text of labels that are not the root, each with its dot. *)
Definition text_labels (ls : list label) : list Z := ls ≫= λ l, text_label true l ++ [46%Z].

Lemma enc_full_snoc ls l :
  length (enc_labels (ls ++ [l])) = length (enc_labels ls) + S (length l).
Proof. by rewrite enc_labels_snoc, length_app. Qed.

(** Labels and dots take the parser from one start to the next. *)
Lemma read_labels more rest s pre nrem :
  full more → full pre →
  (∃ st lb ct dg v, (st = ft_start ∨ st = ft_init ∧ pre = []) ∧
     s = at_start st pre lb ct dg v nrem) →
  length (enc_labels more) < nrem → length (enc_labels pre) + nrem <= 255 → rest ≠ [] →
  ∃ st lb ct dg v, (st = ft_start ∨ st = ft_init ∧ pre ++ more = []) ∧
    ft_loop false (text_labels more ++ rest) s =
    ft_loop false rest
      (at_start st (pre ++ more) lb ct dg v (nrem - length (enc_labels more))).
Proof.
  intros Hf. revert s pre nrem. induction Hf as [|l more [Hl Hb] Hf IH];
    intros s pre nrem Hp (st & lb & ct & dg & v & Hst & ->) Hn Hmax Hr.
  { exists st, lb, ct, dg, v. rewrite app_nil_r. cbn. by rewrite Nat.sub_0_r. }
  rewrite enc_labels_cons, length_app, enc_label_length in *.
  unfold text_labels. cbn [mbind list_bind]. fold (text_labels more).
  rewrite <- !app_assoc. destruct nrem as [|nrem]; [lia|].
  destruct (read_label l ([46%Z] ++ text_labels more ++ rest)
    (at_start st pre lb ct dg v (S nrem)) pre [] nrem) as (dg' & v' & ->);
    [done| |by intros ->; cbn in Hl; lia|lia|cbn; lia|].
  { right. split; [done|]. by exists st, lb, ct, dg, v. }
  pose proof (full_size _ Hp) as Hsz. cbn [app].
  assert (0 < length rest) as Hrl by (by destruct rest; [|cbn; lia]).
  erewrite ft_loop_step; [|cbn; lia|done|].
  2:{ cbn [ft_step ft_st in_label]. unfold case_ordinary. cbn [ft_count].
      rewrite (bool_decide_true (46 = 46)%Z) by done.
      rewrite (bool_decide_false (length ([] ++ l) = 0)) by (cbn; lia).
      change (Ft _ _ _ _ _ _ _ _ _) with (in_label ft_ordinary pre l dg' v' (nrem - length l)).
      rewrite ft_close_label by lia. cbn [mbind option_bind].
      rewrite bool_decide_false; [done|]. rewrite length_app. lia. }
  destruct (IH (at_start ft_start (pre ++ [l]) (length (enc_labels pre)) (length l) dg' v'
      (nrem - length l)) (pre ++ [l]) (nrem - length l))
    as (st2 & lb2 & ct2 & dg2 & v2 & Hst2 & ->); [by apply full_snoc| | | |done|].
  - do 5 eexists. split; [by left|done].
  - lia.
  - rewrite enc_full_snoc. lia.
  - rewrite <- app_assoc in *. exists st2, lb2, ct2, dg2, v2. split; [done|].
    cbn [app]. do 2 f_equal. lia.
Qed.

(** *** Writing *)

Lemma totext_char_length mf c : length (totext_char mf c) <= 4.
Proof.
  unfold totext_char. destruct mf; repeat case_bool_decide; cbn; lia.
Qed.

Lemma text_label_length l : length (text_label true l) <= 4 * length l.
Proof.
  induction l as [|c l IH]; [done|]. unfold text_label in *. cbn [mbind list_bind length].
  rewrite length_app. pose proof (totext_char_length true c). lia.
Qed.

Lemma text_labels_length ls : length (text_labels ls) <= 4 * length (enc_labels ls).
Proof.
  induction ls as [|l ls IH]; [done|]. unfold text_labels in *. cbn [mbind list_bind].
  rewrite enc_labels_cons, !length_app, enc_label_length. cbn [length].
  pose proof (text_label_length l). lia.
Qed.

Lemma totext_label_spec mf d l p out trem :
  (∀ i, i < length l → d !! (p + i) = l !! i) → length (text_label mf l) <= trem →
  totext_label mf d p (length l) out trem =
    Some (inr (out ++ text_label mf l, trem - length (text_label mf l))).
Proof.
  revert p out trem. induction l as [|c l IH]; intros p out trem Hd Ht.
  { cbn. by rewrite app_nil_r, Nat.sub_0_r. }
  unfold text_label in *. cbn [mbind list_bind] in *. rewrite length_app in *.
  cbn [length totext_label]. pose proof (Hd 0 ltac:(cbn; lia)) as H0.
  rewrite Nat.add_0_r in H0. rewrite H0. cbn [lookup list_lookup mbind option_bind].
  rewrite bool_decide_false by lia. rewrite IH; [|intros i Hi|lia].
  - rewrite <- app_assoc, Nat.sub_add_distr. done.
  - trans (d !! (p + S i)); [f_equal; lia|]. by rewrite (Hd (S i)) by (cbn; lia).
Qed.

Definition root_if (root : bool) : list label := if root then [[]] else [].

(** Complete labels, then nothing or the root. *)
Lemma totext_labels_spec ls root d pre out trem :
  let tl := root_if root in
  d = pre ++ enc_labels (ls ++ tl) → full ls → length (text_labels ls) < trem →
  totext_labels true d (length pre) (length (ls ++ tl)) (length (enc_labels (ls ++ tl))) out trem =
    Some (inr (out ++ text_labels ls, 0, trem - length (text_labels ls), root)).
Proof.
  intros tl Hd Hf. revert pre out trem Hd.
  induction Hf as [|l ls [Hl Hb] Hf IH]; intros pre out trem Hd Ht.
  - cbn [app text_labels mbind list_bind length] in *. rewrite app_nil_r, Nat.sub_0_r.
    subst tl. destruct root; [|done]. cbn.
    pose proof (enc_lookup_head d pre [] [] Hd) as Hh. rewrite Hh. cbn.
    by rewrite bool_decide_true by lia.
  - cbn [app length totext_labels] in *. rewrite enc_labels_cons, length_app, enc_label_length.
    unfold text_labels in *. cbn [mbind list_bind] in *. fold (text_labels ls) in *.
    rewrite !length_app in *. cbn [length] in Ht.
    rewrite bool_decide_true by lia.
    rewrite (enc_lookup_head _ _ _ _ Hd). cbn [mbind option_bind].
    rewrite bool_decide_false by lia. rewrite bool_decide_true by lia.
    rewrite Nat2Z.id, bool_decide_true by lia.
    rewrite (totext_label_spec true d l); [|intros; by eapply enc_lookup_body|lia].
    cbn [mbind option_bind]. rewrite bool_decide_false by lia.
    replace (S (length pre) + length l) with (length (pre ++ enc_label l))
      by (rewrite length_app, enc_label_length; lia).
    replace (S (length l) + length (enc_labels (ls ++ tl)) - 1 - length l)
      with (length (enc_labels (ls ++ tl))) by lia.
    rewrite IH; [|by rewrite <- app_assoc|lia].
    rewrite <- !app_assoc. cbn [length]. do 4 f_equal. lia.
Qed.

(** A name is complete labels, and perhaps the root. *)
Lemma labels_full ls :
  labels_ok ls → Forall bytes_ok ls →
  ∃ ls0, full ls0 ∧ ls = ls0 ++ root_if (is_root_last ls).
Proof.
  intros Hok Hb. destruct ls as [|l ls0 _] using rev_ind; [exists []; split; [constructor|done]|].
  unfold is_root_last. rewrite last_snoc.
  assert (∀ k l', (ls0 ++ [l]) !! k = Some l' → k < length ls0 ∨ l ≠ [] →
    0 < length l' <= 63 ∧ bytes_ok l') as Hk.
  { intros k l' Hk Hor. pose proof (Forall_lookup_1 _ _ _ _ (lo_short _ Hok) Hk) as Hs.
    cbn in Hs. split; [|by eapply Forall_lookup_1]. split; [|done].
    destruct l'; [|cbn; lia]. pose proof (lo_root _ Hok _ Hk) as Hr.
    rewrite length_app in Hr. cbn in Hr. destruct Hor as [|Hne]; [lia|].
    replace k with (length ls0) in Hk by lia. rewrite lookup_app_r, Nat.sub_diag in Hk by lia.
    by injection Hk. }
  case_bool_decide as E.
  - injection E as ->. exists ls0. split; [|done]. apply Forall_lookup. intros k l' Hl.
    pose proof (lookup_lt_Some _ _ _ Hl). apply (Hk k l'); [by apply lookup_app_l_Some|by left].
  - exists (ls0 ++ [l]). rewrite app_nil_r. split; [|done]. apply Forall_lookup.
    intros k l' Hl. apply (Hk k l' Hl). right. by intros ->.
Qed.

(** [DNS_NAME_MAXTEXT], the size the callers' buffers have. *)
Definition DNS_NAME_MAXTEXT : nat := 1023.

Lemma totext_full ls root avail n :
  let lsr := ls ++ root_if root in
  name_repr n lsr → full ls → ls ≠ [] → DNS_NAME_MAXTEXT <= avail →
  dns_name_totext n false avail =
    Some (inr (if root then text_labels ls else take (length (text_labels ls) - 1) (text_labels ls))) ∧
  dns_name_totext n true avail =
    Some (inr (take (length (text_labels ls) - 1) (text_labels ls))).
Proof.
  intros lsr Hn Hf Hne Hav. pose proof Hn as [Dd Dl Da Dok].
  assert (length (text_labels ls) < avail) as Ht.
  { pose proof (text_labels_length ls). pose proof (lo_max _ Dok) as Hm. subst lsr.
    rewrite enc_labels_app, length_app in Hm. unfold DNS_NAME_MAXTEXT, DNS_NAME_MAXWIRE in *.
    lia. }
  assert (0 < length (text_labels ls) ∧ 1 < length (ndata n)) as [Hp Hd].
  { destruct ls as [|l ls']; [done|]. apply Forall_cons in Hf as [[Hl _] _].
    rewrite Dd. subst lsr. unfold text_labels. cbn [mbind list_bind app].
    rewrite enc_labels_cons, !length_app, enc_label_length. cbn. lia. }
  assert (∀ omit, dns_name_totext n omit avail =
    Some (inr (take (avail - (if negb root || omit then S (avail - length (text_labels ls))
                              else avail - length (text_labels ls))) (text_labels ls)))) as E.
  { intros omit. unfold dns_name_totext, dns_name_totext2.
    rewrite bool_decide_false, bool_decide_false by lia.
    pose proof (totext_labels_spec ls root (ndata n) [] [] avail Dd Hf Ht) as E.
    cbn zeta in E. change (length []) with 0 in E. fold lsr in E.
    rewrite <- Dl, <- Dd in E. rewrite E. cbn [mbind option_bind app].
    rewrite bool_decide_false by lia. done. }
  rewrite !E. split; (do 2 f_equal; destruct root; cbn [negb orb]; f_equal; try lia).
  rewrite take_ge by lia. done.
Qed.

(** *** Reading it back *)

Lemma name_repr_eq n ls : name_repr n ls → n = name_of ls.
Proof. destruct n. intros [Hd Hl Ha _]. cbn in *. by subst. Qed.

Lemma text_labels_snoc ls l :
  text_labels (ls ++ [l]) = text_labels ls ++ text_label true l ++ [46%Z].
Proof. unfold text_labels. rewrite bind_app. cbn. by rewrite app_nil_r. Qed.

Lemma take_text_snoc ls l :
  take (length (text_labels (ls ++ [l])) - 1) (text_labels (ls ++ [l])) =
    text_labels ls ++ text_label true l.
Proof.
  rewrite text_labels_snoc, app_assoc, length_app. cbn [length].
  rewrite Nat.add_sub. by rewrite take_app_length.
Qed.

(** The parser on the last label: [rest] is its dot or nothing. *)
Lemma read_to_last ls l rest nrem :
  full (ls ++ [l]) → length (enc_labels (ls ++ [l])) <= nrem → nrem <= 255 →
  ∃ dg v, ft_loop false (text_labels ls ++ text_label true l ++ rest)
            (Ft ft_init [] 0 0 0 0 0 nrem false) =
    ft_loop false rest
      (in_label ft_ordinary ls l dg v (nrem - length (enc_labels (ls ++ [l])))).
Proof.
  intros Hf Hn Hm. rewrite enc_full_snoc in *.
  apply Forall_app in Hf as [Hf [[Hl Hb] _]%Forall_cons].
  assert (text_label true l ≠ []) as Ht.
  { destruct l as [|c l]; [cbn in Hl; lia|]. apply Forall_cons in Hb as [Hc _].
    unfold text_label. cbn [mbind list_bind].
    destruct (totext_char_cases c Hc) as [[-> _]|[[-> _]|(?&?&?& -> & _)]]; done. }
  destruct (read_labels ls (text_label true l ++ rest) (Ft ft_init [] 0 0 0 0 0 nrem false)
              [] nrem) as (st & lb & ct & dg & v & Hst & ->);
    [done|constructor| |lia|cbn; lia|by destruct (text_label true l)|].
  { exists ft_init, 0, 0, 0, 0%Z. split; [by right|done]. }
  cbn [app] in *.
  destruct (read_label l rest
    (at_start st ls lb ct dg v (nrem - length (enc_labels ls))) ls []
    (nrem - length (enc_labels ls) - 1)) as (dg' & v' & ->);
    [done| |by intros ->; cbn in Hl; lia|lia|cbn; lia|].
  - right. split; [done|]. exists st, lb, ct, dg, v. split; [done|].
    f_equal. lia.
  - exists dg', v'. cbn [app]. do 2 f_equal. lia.
Qed.

Lemma fromtext_absolute ls l avail :
  full (ls ++ [l]) → length (enc_labels (ls ++ [l])) < avail →
  length (enc_labels (ls ++ [l])) < 255 →
  dns_name_fromtext (text_labels (ls ++ [l])) None false avail =
    Some (inr (name_of ((ls ++ [l]) ++ [[]]), [])).
Proof.
  intros Hf Hav Hm. unfold dns_name_fromtext. rewrite text_labels_snoc.
  set (nrem := if bool_decide (255 < avail) then 255 else avail).
  assert (length (enc_labels (ls ++ [l])) < nrem ∧ nrem <= 255) as [Hn1 Hn2]
    by (unfold nrem; case_bool_decide; lia).
  destruct (read_to_last ls l [46%Z] nrem Hf) as (dg & v & ->); [lia|lia|].
  pose proof (full_size _ Hf) as Hsz. rewrite length_app in Hsz. cbn [length] in Hsz.
  apply Forall_app in Hf as [Hf [[Hl Hb] _]%Forall_cons].
  erewrite ft_loop_step; [|cbn; lia|done|].
  2:{ cbn [ft_step ft_st in_label]. unfold case_ordinary. cbn [ft_count].
      rewrite (bool_decide_true (46 = 46)%Z) by done.
      rewrite (bool_decide_false (length l = 0)) by lia.
      match goal with |- context [ft_close ?s _] =>
        change s with (in_label ft_ordinary ls l dg v
                         (nrem - length (enc_labels (ls ++ [l])))) end.
      rewrite ft_close_label by lia. cbn [mbind option_bind length].
      by rewrite bool_decide_true. }
  cbn [ft_loop mbind option_bind ft_done ft_root at_start ft_out ft_labels].
  unfold name_of. do 4 f_equal.
  - by rewrite (enc_labels_snoc (ls ++ [l])).
  - rewrite !length_app. cbn. lia.
  - unfold is_root_last. by rewrite last_snoc.
Qed.

Lemma fromtext_relative ls l origin avail :
  full (ls ++ [l]) → length (enc_labels (ls ++ [l])) < avail →
  length (enc_labels (ls ++ [l])) < 255 →
  origin = None ∨ origin = Some (name_of [[]]) →
  dns_name_fromtext (text_labels ls ++ text_label true l) origin false avail =
    Some (inr (name_of ((ls ++ [l]) ++ root_if (bool_decide (origin ≠ None))), [])).
Proof.
  intros Hf Hav Hm Ho. unfold dns_name_fromtext.
  set (nrem := if bool_decide (255 < avail) then 255 else avail).
  assert (length (enc_labels (ls ++ [l])) < nrem ∧ nrem <= 255) as [Hn1 Hn2]
    by (unfold nrem; case_bool_decide; lia).
  destruct (read_to_last ls l [] nrem Hf) as (dg & v & H); [lia|lia|].
  rewrite app_nil_r in H. rewrite H. cbn [ft_loop mbind option_bind ft_done in_label ft_nrem].
  pose proof (full_size _ Hf) as Hsz. rewrite length_app in Hsz. cbn [length] in Hsz.
  pose proof (full_root_last _ Hf) as Hr.
  apply Forall_app in Hf as [Hf [[Hl Hb] _]%Forall_cons].
  rewrite (bool_decide_false (_ = 0)), (bool_decide_false ([] ≠ [])) by (auto || lia).
  cbn [ft_st]. rewrite (bool_decide_false (_ ∧ _)), (bool_decide_true (ft_ordinary = _))
    by naive_solver.
  cbn [ft_count]. rewrite (bool_decide_true (length l ≠ 0)) by lia.
  match goal with |- context [ft_close ?s _] =>
    change s with (in_label ft_ordinary ls l dg v
                     (nrem - length (enc_labels (ls ++ [l])))) end.
  rewrite ft_close_label by lia.
  cbn [mbind option_bind at_start ft_out ft_labels ft_nrem].
  destruct Ho as [->| ->].
  - rewrite bool_decide_false by auto. cbn [root_if]. rewrite app_nil_r.
    unfold name_of. by rewrite Hr.
  - cbn [ndata name_of]. rewrite (bool_decide_false (_ < _)) by (cbn; lia).
    rewrite ft_origin_spec; [|repeat constructor; cbn; lia|repeat constructor|done|].
    2:{ rewrite length_app. cbn. lia. }
    cbn [mbind option_bind]. rewrite bool_decide_true by done. unfold name_of. do 4 f_equal.
    + by rewrite (enc_labels_app (ls ++ [l])).
    + rewrite !length_app. done.
    + cbn [absolute]. unfold is_root_last. cbn [root_if]. by rewrite last_snoc.
Qed.

(** C32: printing and parsing a name. [dns_name_totext] of a well-formed name
    succeeds in a buffer of [DNS_NAME_MAXTEXT] bytes, and
    [dns_name_fromtext] turns the text back into the same name, every byte
    of every label included; a text without the final dot, parsed relative
    to the root, also gives the name back. *)
Theorem text_roundtrip n ls avail avail' :
  name_repr n ls → Forall bytes_ok ls →
  absolute n = true ∨ length (ndata n) < 255 →
  DNS_NAME_MAXTEXT <= avail → length (ndata n) < avail' →
  (∃ t, dns_name_totext n false avail = Some (inr t) ∧
        dns_name_fromtext t None false avail' = Some (inr (n, []))) ∧
  (absolute n = true →
   ∃ t, dns_name_totext n true avail = Some (inr t) ∧
        dns_name_fromtext t (Some (name_of [[]])) false avail' = Some (inr (n, []))).
Proof.
  intros Hn Hb Hlen Hav Hav'. pose proof (name_repr_eq _ _ Hn) as En.
  pose proof Hn as [Dd Dl Da Dok]. pose proof (lo_max _ Dok) as Hm.
  unfold DNS_NAME_MAXWIRE in Hm. rewrite Da, Dd in *.
  destruct (labels_full ls Dok Hb) as (ls0 & Hf & Els). set (root := is_root_last ls) in *.
  assert (∀ o avail, 2 <= avail → dns_name_fromtext [46%Z] o false avail =
            Some (inr (name_of [[]], []))) as Hroot.
  { intros o a Ha. unfold dns_name_fromtext.
    set (nrem := if bool_decide (255 < a) then 255 else a).
    assert (0 < nrem) by (unfold nrem; case_bool_decide; lia).
    by rewrite (ft_loop_step 46 [] _ (Ft ft_init [0%Z] 0 0 1 0 0 (nrem - 1) true)) by done. }
  assert (∀ omit, labels n = 1 → length (ndata n) = 1 → ndata n !! 0 = Some 0%Z →
    dns_name_totext n omit avail = Some (inr [46%Z])) as Htr.
  { intros omit H1 H2 H3. unfold dns_name_totext, dns_name_totext2, DNS_NAME_MAXTEXT in *.
    rewrite bool_decide_false, bool_decide_true, bool_decide_false by (done || lia || auto).
    cbn. rewrite take_ge by (cbn; lia). done. }
  destruct ls0 as [|l ls0 _] using rev_ind.
  - cbn [app] in Els. destruct root; cbn [root_if] in Els; subst ls n.
    + split; [exists [46%Z]|intros _; exists [46%Z]]; (split; [by apply Htr|]); apply Hroot;
        cbn in Hav'; lia.
    + split; [|done]. exists [64%Z]. unfold dns_name_totext, dns_name_totext2.
      unfold DNS_NAME_MAXTEXT in Hav. split.
      { rewrite bool_decide_true by done. rewrite bool_decide_false by lia.
        cbn [mbind option_bind]. rewrite bool_decide_false by lia. cbn [negb orb].
        rewrite take_ge by (cbn [length]; lia). done. }
      unfold dns_name_fromtext. cbn in Hav'.
      set (nrem := if bool_decide (255 < avail') then 255 else avail').
      assert (0 < nrem) by (unfold nrem; case_bool_decide; lia).
      rewrite (ft_loop_step 64 [] _ (Ft ft_at [] 0 0 0 0 0 nrem false)) by done.
      cbn. by rewrite bool_decide_false by lia.
  - rewrite Els in Hn. destruct (totext_full _ root avail n Hn Hf) as [-> ->];
      [by destruct ls0|done|].
    rewrite take_text_snoc.
    assert (length (enc_labels ls) = length (enc_labels (ls0 ++ [l])) +
      length (enc_labels (root_if root))) as El by (by rewrite Els, enc_labels_app, length_app).
    destruct root; cbn [root_if] in El; change (length (enc_labels [[]])) with 1 in El;
      rewrite Els in En; rewrite En.
    + split; [|intros _]; (eexists; split; [done|]).
      * apply fromtext_absolute; [done|lia..].
      * rewrite fromtext_relative; [done|done|lia|lia|by right].
    + split; [|done]. eexists. split; [done|]. cbn in El. destruct Hlen as [|Hlen]; [done|].
      rewrite fromtext_relative; [done|done|lia|lia|by left].
Qed.
