(* ===== verification/FromWire.v ===== *)
(** * Names from messages

    [dns_name_fromwire] of [lib/dns/name.c]: reading a possibly compressed
    name out of a message that anyone may have sent. The message is the list
    of its bytes up to [source->active], from [source->base] on; the target
    buffer is the number of its available bytes.

    [wire_at m b p ls] is what compression means ([RFC 1035], section 4.1.4),
    with the rule that prevents loops: at position [p] of the message are the
    labels [ls], and pointers lead below [b], the start of the part of the
    name read before. [fromwire_spec] shows that the parser accepts exactly
    that. *)
From S2P Require Import Prelude Qsort Rdata Name.

(** ** Definitions *)

Inductive fw_state := fw_start | fw_ordinary | fw_copy | fw_newcurrent.

(** The locals of the loop; [fw_out] is what is written before [ndata]. *)
Record fw := Fw {
  fw_st : fw_state; current : nat; cused : nat; nused : nat; fw_labels : nat;
  fw_out : list Z; fw_n : nat; new_current : nat; biggest_pointer : nat;
  seen_pointer : bool; fw_done : bool }.

(** [goto full] *)
Definition fw_full (nmax : nat) : isc_result :=
  if bool_decide (nmax = DNS_NAME_MAXWIRE) then DNS_R_NAMETOOLONG else ISC_R_NOSPACE.

(** [*ndata++ = c; n--; if (n == 0) state = fw_start;] A write beyond the
    target is [None]. *)
Definition fw_copy_byte (nmax : nat) (c : Z) (s : fw) : option fw :=
  if bool_decide (length (fw_out s) < nmax ∧ 0 < fw_n s) then
    let n := fw_n s - 1 in
    Some {| fw_st := if bool_decide (n = 0) then fw_start else fw_st s;
            current := current s; cused := cused s; nused := nused s;
            fw_labels := fw_labels s; fw_out := fw_out s ++ [c]; fw_n := n;
            new_current := new_current s; biggest_pointer := biggest_pointer s;
            seen_pointer := seen_pointer s; fw_done := fw_done s |}
  else None.

(** [case fw_start]. The offsets table has 128 entries. *)
Definition fw_case_start (global14 : bool) (nmax : nat) (c : Z) (s : fw)
    : option (isc_result + fw) :=
  if bool_decide (c < 64)%Z then
    if bool_decide (fw_labels s < 128) then
      if bool_decide (nmax < nused s + Z.to_nat c + 1) then Some (inl (fw_full nmax))
      else if bool_decide (length (fw_out s) < nmax) then
        Some (inr {| fw_st := fw_ordinary; current := current s; cused := cused s;
          nused := nused s + Z.to_nat c + 1; fw_labels := S (fw_labels s);
          fw_out := fw_out s ++ [c]; fw_n := Z.to_nat c; new_current := new_current s;
          biggest_pointer := biggest_pointer s; seen_pointer := seen_pointer s;
          fw_done := if bool_decide (c = 0%Z) then true else fw_done s |})
      else None
    else None
  else if bool_decide (128 <= c < 192)%Z then Some (inl DNS_R_BADLABELTYPE)
  else if bool_decide (192 <= c)%Z then
    if negb global14 then Some (inl DNS_R_DISALLOWED)
    else
      Some (inr {| fw_st := fw_newcurrent; current := current s; cused := cused s;
        nused := nused s; fw_labels := fw_labels s; fw_out := fw_out s; fw_n := 1;
        new_current := Z.to_nat (Z.land c 0x3f); biggest_pointer := biggest_pointer s;
        seen_pointer := seen_pointer s; fw_done := fw_done s |})
  else Some (inl DNS_R_BADLABELTYPE).

Definition fw_case_newcurrent (c : Z) (s : fw) : isc_result + fw :=
  let nc := new_current s * 256 + Z.to_nat c in
  let n := fw_n s - 1 in
  if bool_decide (n ≠ 0) then
    inr {| fw_st := fw_newcurrent; current := current s; cused := cused s;
      nused := nused s; fw_labels := fw_labels s; fw_out := fw_out s; fw_n := n;
      new_current := nc; biggest_pointer := biggest_pointer s;
      seen_pointer := seen_pointer s; fw_done := fw_done s |}
  else if bool_decide (biggest_pointer s <= nc) then inl DNS_R_BADPOINTER
  else
    inr {| fw_st := fw_start; current := nc; cused := cused s; nused := nused s;
      fw_labels := fw_labels s; fw_out := fw_out s; fw_n := n; new_current := nc;
      biggest_pointer := nc; seen_pointer := true; fw_done := fw_done s |}.

(** The body of the loop. *)
Definition fw_step (global14 downcase : bool) (nmax : nat) (c : Z) (s : fw)
    : option (isc_result + fw) :=
  let s := {| fw_st := fw_st s; current := S (current s);
    cused := if seen_pointer s then cused s else S (cused s); nused := nused s;
    fw_labels := fw_labels s; fw_out := fw_out s; fw_n := fw_n s;
    new_current := new_current s; biggest_pointer := biggest_pointer s;
    seen_pointer := seen_pointer s; fw_done := fw_done s |} in
  match fw_st s with
  | fw_start => fw_case_start global14 nmax c s
  | fw_ordinary =>
      let c := if downcase then maptolower c else c in
      s ← fw_copy_byte nmax c s; Some (inr s)
  | fw_copy => s ← fw_copy_byte nmax c s; Some (inr s)
  | fw_newcurrent => Some (fw_case_newcurrent c s)
  end.

(** [while (current < source->active && !done)] *)
Fixpoint fw_loop (fuel : nat) (global14 downcase : bool) (nmax : nat) (m : mem) (s : fw)
    : option (isc_result + fw) :=
  if fw_done s then Some (inr s)
  else match m !! current s with
  | None => Some (inr s)
  | Some c =>
      match fuel with
      | O => None
      | S fuel =>
          r ← fw_step global14 downcase nmax c s;
          match r with
          | inl e => Some (inl e)
          | inr s => fw_loop fuel global14 downcase nmax m s
          end
      end
  end.

(** Every step moves on, or leads below the last pointer. *)
Definition fw_fuel (m : mem) : nat := S (length m) * S (length m).

(** The error, or the name and the bytes of the source that it took. *)
Definition dns_name_fromwire (m : mem) (start : nat) (global14 downcase : bool)
    (avail : nat) : option (isc_result + name * nat) :=
  let nmax := if bool_decide (DNS_NAME_MAXWIRE < avail) then DNS_NAME_MAXWIRE else avail in
  r ← fw_loop (fw_fuel m) global14 downcase nmax m
        (Fw fw_start start 0 0 0 [] 0 0 start false false);
  match r with
  | inl e => Some (inl e)
  | inr s =>
      if negb (fw_done s) then Some (inl ISC_R_UNEXPECTEDEND)
      else Some (inr (Name (fw_out s) (fw_labels s) true, cused s))
  end.

(** ** What a name in a message is *)

(** [wire_at g m b p ls k]: reading from [p] takes [k] bytes up to the first
    pointer or the end; [g] says whether pointers are allowed. *)
Inductive wire_at (g : bool) (m : mem) : nat → nat → list label → nat → Prop :=
  | wire_root b p : m !! p = Some 0%Z → wire_at g m b p [[]] 1
  | wire_label b p l ls k :
      0 < length l <= 63 → mread m p (S (length l)) = Some (enc_label l) →
      wire_at g m b (p + S (length l)) ls k →
      wire_at g m b p (l :: ls) (S (length l) + k)
  | wire_pointer b p hi lo ls k :
      g = true → m !! p = Some hi → m !! S p = Some lo → (192 <= hi < 256)%Z → is_byte lo →
      Z.to_nat ((hi - 192) * 256 + lo) < b →
      wire_at g m (Z.to_nat ((hi - 192) * 256 + lo)) (Z.to_nat ((hi - 192) * 256 + lo)) ls k →
      wire_at g m b p ls 2.

(** A message with a name whose last label points back. *)
Example pointer_name :
  let m := [3; 99; 111; 109; 0; 1; 65; 192; 0]%Z in
  dns_name_fromwire m 5 true true 255 =
    Some (inr (name_of [[97]; [99; 111; 109]; []]%Z, 4)) ∧
  dns_name_fromwire m 5 false true 255 = Some (inl DNS_R_DISALLOWED) ∧
  dns_name_fromwire m 5 true true 6 = Some (inl ISC_R_NOSPACE) ∧
  dns_name_fromwire [192; 0]%Z 0 true false 255 = Some (inl DNS_R_BADPOINTER).
Proof. by vm_compute. Qed.

(** ** Facts about names in messages *)

Lemma mread_enc_label (m : mem) p l :
  mread m p (S (length l)) = Some (enc_label l) →
  m !! p = Some (Z.of_nat (length l)) ∧ take (length l) (drop (S p) m) = l.
Proof.
  intros Hr. pose proof (mread_lookup _ _ _ _ 0 Hr ltac:(lia)) as H0.
  rewrite Nat.add_0_r in H0. split; [by rewrite <- H0|].
  pose proof (mread_sub _ _ _ _ 1 (length l) Hr ltac:(lia)) as Hs.
  unfold enc_label in Hs. cbn [drop] in Hs. rewrite drop_0, take_ge in Hs by lia.
  unfold mread in Hs. rewrite Nat.add_1_r in Hs. case_bool_decide; [|done].
  by injection Hs.
Qed.

Lemma wire_at_size g m b p ls k : wire_at g m b p ls k → 0 < length (enc_labels ls).
Proof. induction 1; [cbn; lia|rewrite enc_labels_cons; cbn; lia|done]. Qed.

Lemma wire_at_bytes g m b p ls k :
  bytes_ok m → wire_at g m b p ls k → Forall bytes_ok ls.
Proof.
  intros Hm. induction 1 as [| b p l ls k Hl Hr _ IH|]; [by repeat constructor| |done].
  constructor; [|done]. apply (mread_bytes_ok _ _ _ _ Hr) in Hm.
  by apply Forall_cons in Hm as [_ ?].
Qed.

Lemma enc_lower_labels_cons dc l ls :
  enc_labels (lower_labels_if dc (l :: ls)) =
    Z.of_nat (length l) :: (lower_if dc <$> l) ++ enc_labels (lower_labels_if dc ls).
Proof.
  unfold lower_labels_if. cbn [fmap list_fmap].
  rewrite enc_labels_cons. unfold enc_label. by rewrite length_fmap.
Qed.

Lemma wire_at_root_last g m b p ls k :
  wire_at g m b p ls k → ls ≠ [] ∧ is_root_last ls = true.
Proof.
  induction 1 as [|b p l ls k Hl Hr _ [Hne IH]|]; [done| |done].
  split; [done|]. by rewrite is_root_last_cons.
Qed.

(** A name in a message is a well-formed name if it is short enough. *)
Lemma wire_at_ok g m b p ls k :
  wire_at g m b p ls k → length (enc_labels ls) <= DNS_NAME_MAXWIRE → labels_ok ls.
Proof.
  induction 1 as [|b p l ls k Hl Hr Hw IH|]; intros Hs; [apply labels_ok_root| |by auto].
  rewrite enc_labels_cons, length_app, enc_label_length in Hs.
  assert (labels_ok ls) as [H1 H2 H3] by (apply IH; lia). split.
  - constructor; [lia|done].
  - intros [|i] Hi; [injection Hi as ->; cbn in Hl; lia|]. cbn in *. by rewrite (H2 i).
  - rewrite enc_labels_cons, length_app, enc_label_length. done.
Qed.

Section shape.
Context {g : bool} {m : mem}.

(** What is at a position decides how a name can start there. *)
Lemma wire_at_inv b p ls k :
  wire_at g m b p ls k →
  ∃ c, m !! p = Some c ∧
    ((c = 0%Z ∧ ls = [[]] ∧ k = 1) ∨
     (∃ l ls' k', (0 < c < 64)%Z ∧ l = take (Z.to_nat c) (drop (S p) m) ∧
        Z.to_nat c = length l ∧ ls = l :: ls' ∧ k = S (length l) + k' ∧
        wire_at g m b (p + S (length l)) ls' k') ∨
     (∃ lo q, g = true ∧ (192 <= c < 256)%Z ∧ m !! S p = Some lo ∧
        q = Z.to_nat ((c - 192) * 256 + lo) ∧ q < b ∧ k = 2 ∧ ∃ k', wire_at g m q q ls k')).
Proof.
  destruct 1 as [b p H0|b p l ls k Hl Hr Hw|b p hi lo ls k Hg Hhi Hlo Hrg Hby Hq Hw].
  - exists 0%Z. split; [done|]. by left.
  - destruct (mread_enc_label _ _ _ Hr) as [H0 Ht].
    exists (Z.of_nat (length l)). split; [done|]. right; left.
    exists l, ls, k. rewrite Nat2Z.id. by split_and!; try lia.
  - exists hi. split; [done|]. right; right. exists lo. eexists. split_and!; eauto; lia.
Qed.

Lemma wire_at_det b p ls k ls' k' :
  wire_at g m b p ls k → wire_at g m b p ls' k' → ls' = ls ∧ k' = k.
Proof.
  intros H. revert ls' k'.
  induction H as [b p H0|b p l ls k Hl Hr Hw IH|b p hi lo ls k Hg Hhi Hlo Hrg Hby Hq Hw IH];
    intros ls' k' H'; pose proof (wire_at_inv _ _ _ _ H') as (c & Hc & Hcase).
  - rewrite H0 in Hc. injection Hc as <-.
    destruct Hcase as [(_ & -> & ->)|[(? & ? & ? & ? & _)|(? & ? & _ & ? & _)]]; [done|lia..].
  - destruct (mread_enc_label _ _ _ Hr) as [H0 Ht]. rewrite H0 in Hc. injection Hc as <-.
    destruct Hcase as [(? & _)|[(l2 & ls2 & k2 & _ & E & El & -> & -> & Hw2)|
      (? & ? & _ & ? & _)]]; [lia| |lia].
    rewrite Nat2Z.id, Ht in E. subst l2.
    by destruct (IH _ _ Hw2) as [-> ->].
  - rewrite Hhi in Hc. injection Hc as <-.
    destruct Hcase as [(? & _)|[(? & ? & ? & ? & _)|
      (lo' & q & _ & _ & Hlo' & -> & _ & -> & k2 & Hw2)]]; [lia|lia|].
    rewrite Hlo in Hlo'. injection Hlo' as <-. by destruct (IH _ _ Hw2) as [-> _].
Qed.

(** The labels and pointers that end beyond the message. *)
Lemma wire_at_short b p ls k c :
  wire_at g m b p ls k → m !! p = Some c → c ≠ 0%Z →
  (c < 64)%Z ∧ length m < S p + Z.to_nat c ∨ (192 <= c)%Z ∧ m !! S p = None → False.
Proof.
  intros (c' & Hc' & Hcase)%wire_at_inv Hc H0. rewrite Hc in Hc'. injection Hc' as <-.
  destruct Hcase as [(? & _)|[(l & ls' & k' & Hr & E & El & _)|(lo & ? & _ & Hr & Hlo & _)]];
    [done| |intros [[? _]|[_ ?]]; [lia|congruence]].
  intros [[_ Hs]|[? _]]; [|lia].
  apply (f_equal length) in E. rewrite length_take, length_drop in E. lia.
Qed.

(** The first byte tells whether a name that fits can start there. *)
Lemma wire_at_kind b p ls k c :
  wire_at g m b p ls k → m !! p = Some c →
  (c < 64)%Z ∧ Z.to_nat c + 1 <= length (enc_labels ls) ∨ (192 <= c)%Z ∧ g = true.
Proof.
  intros (c' & Hc' & Hcase)%wire_at_inv Hc. rewrite Hc in Hc'. injection Hc' as <-.
  destruct Hcase as [(-> & -> & _)|[(l & ls' & k' & Hr & _ & El & -> & _)|
    (? & ? & -> & ? & _)]]; [left; cbn; lia| |right; split; [lia|done]].
  left. rewrite enc_labels_cons, length_app, enc_label_length. lia.
Qed.
End shape.

(** ** The loop *)

Section loop.
Context (g dc : bool) (nmax : nat) (m : mem).
Context (Hmax : nmax <= DNS_NAME_MAXWIRE) (Hm : bytes_ok m).

(** At the start of a label, or inside one. *)
Definition fw_at st p cu (out : list Z) nu nl n nc b seen : fw :=
  Fw st p cu nu nl out n nc b seen false.

Lemma fw_copy_loop n p cu out nu nl nc b seen fuel :
  0 < n → length out + n <= nmax → p <= length m → length m - p < fuel →
  (p + n <= length m →
   fw_loop fuel g dc nmax m (fw_at fw_ordinary p cu out nu nl n nc b seen) =
   fw_loop (fuel - n) g dc nmax m
     (fw_at fw_start (p + n) (if seen then cu else cu + n)
        (out ++ (lower_if dc <$> take n (drop p m))) nu nl 0 nc b seen)) ∧
  (length m < p + n →
   ∃ s, fw_loop fuel g dc nmax m (fw_at fw_ordinary p cu out nu nl n nc b seen) =
        Some (inr s) ∧ fw_done s = false).
Proof.
  revert p cu out fuel. induction n as [|n IH]; intros p cu out fuel Hn Ho Hp Hf; [lia|].
  destruct fuel as [|fuel]; [lia|]. cbn [fw_loop fw_at fw_done current].
  destruct (m !! p) as [c|] eqn:Hc.
  2:{ apply lookup_ge_None in Hc. split; [lia|]. intros _. by eexists. }
  pose proof (lookup_lt_Some _ _ _ Hc) as Hlt.
  unfold fw_step, fw_at in *. cbn [fw_st]. unfold fw_copy_byte.
  cbn [fw_st fw_out fw_n].
  rewrite bool_decide_true by lia. cbn [mbind option_bind].
  cbn [current cused nused fw_labels new_current biggest_pointer seen_pointer fw_done].
  rewrite Nat.sub_1_r. cbn [pred]. rewrite (drop_S _ _ _ Hc). cbn [take].
  rewrite fmap_cons.
  change (if dc then maptolower c else c) with (lower_if dc c).
  destruct (decide (n = 0)) as [->|Hn0].
  - rewrite bool_decide_true by done. split; [|lia]. intros _.
    cbn [take fmap list_fmap]. rewrite Nat.sub_1_r, Nat.add_1_r. cbn [pred].
    by destruct seen; rewrite ?Nat.add_1_r.
  - rewrite bool_decide_false by done.
    destruct (IH (S p) (if seen then cu else S cu) (out ++ [lower_if dc c]) fuel)
      as [I1 I2]; [lia|rewrite length_app; cbn; lia|lia|lia|].
    split.
    + intros H. rewrite I1 by lia. rewrite <- app_assoc. cbn [app].
      replace (S p + n) with (p + S n) by lia. replace (S fuel - S n) with (fuel - n) by lia.
      by destruct seen; [|replace (S cu + n) with (cu + S n) by lia].
    + intros H. apply I2. lia.
Qed.

(** The state after the labels [pre]. *)
Definition fw_state_at p cu (pre : list label) n nc b seen : fw :=
  fw_at fw_start p cu (enc_labels (lower_labels_if dc pre)) (length (enc_labels pre))
    (length pre) n nc b seen.

Definition room (b p : nat) : nat := b * S (length m) + (length m - p).

Lemma few_labels (pre : list label) :
  Forall (λ l : label, 0 < length l) pre → length (enc_labels pre) <= nmax →
  length pre < 128.
Proof.
  intros Hp Hs. assert (2 * length pre <= length (enc_labels pre)) as H.
  { clear Hs. induction Hp as [|l pre Hl _ IH]; [done|].
    rewrite enc_labels_cons, length_app, enc_label_length. cbn [length]. lia. }
  unfold DNS_NAME_MAXWIRE in *. lia.
Qed.

Lemma lower_snoc pre l :
  enc_labels (lower_labels_if dc (pre ++ [l])) =
    (enc_labels (lower_labels_if dc pre) ++ [Z.of_nat (length l)]) ++ (lower_if dc <$> l).
Proof.
  unfold lower_labels_if. rewrite fmap_app, enc_labels_app, <- app_assoc. f_equal.
  cbn. by rewrite app_nil_r, length_fmap.
Qed.

Lemma enc_snoc (pre : list label) l :
  length (enc_labels (pre ++ [l])) = length (enc_labels pre) + S (length l).
Proof.
  rewrite enc_labels_app, length_app. f_equal. by rewrite enc_labels_cons, app_nil_r.
Qed.
(** The start of a label that fits: the parser goes to its bytes. *)
Lemma fw_label_step fuel p cu pre n nc b seen c :
  m !! p = Some c → (0 <= c < 64)%Z → Forall (λ l : label, 0 < length l) pre →
  length (enc_labels pre) + Z.to_nat c + 1 <= nmax →
  fw_loop (S fuel) g dc nmax m (fw_state_at p cu pre n nc b seen) =
  fw_loop fuel g dc nmax m
    (Fw fw_ordinary (S p) (if seen then cu else S cu)
        (length (enc_labels pre) + Z.to_nat c + 1) (S (length pre))
        (enc_labels (lower_labels_if dc pre) ++ [c]) (Z.to_nat c) nc b seen
        (bool_decide (c = 0%Z))).
Proof.
  intros Hc Hr Hp Hs. unfold fw_state_at, fw_at. cbn [fw_loop fw_done current].
  rewrite Hc.
  unfold fw_step. cbn [fw_st]. unfold fw_case_start.
  cbn [fw_labels nused fw_out current cused new_current biggest_pointer seen_pointer fw_done].
  rewrite (bool_decide_true (c < 64)%Z) by lia.
  rewrite (bool_decide_true (_ < 128)) by (apply few_labels; [done|lia]).
  rewrite (bool_decide_false (nmax < _)) by lia.
  rewrite (bool_decide_true (_ < nmax)) by (rewrite lower_labels_if_size; lia).
  cbn [mbind option_bind]. by case_bool_decide.
Qed.

(** A pointer: two bytes, and the parser is at the target. *)
Lemma fw_pointer_step fuel p cu pre n nc b seen hi lo :
  g = true → m !! p = Some hi → m !! S p = Some lo → (192 <= hi < 256)%Z →
  let q := Z.to_nat ((hi - 192) * 256 + lo) in
  fw_loop (S (S fuel)) g dc nmax m (fw_state_at p cu pre n nc b seen) =
  if bool_decide (b <= q) then Some (inl DNS_R_BADPOINTER)
  else fw_loop fuel g dc nmax m
         (fw_state_at q (if seen then cu else S (S cu)) pre 0 q q true).
Proof.
  intros Hg Hhi Hlo Hr q. pose proof Hm as Hm'. rewrite Forall_lookup in Hm'.
  pose proof (Hm' _ _ Hlo) as Hlb. unfold is_byte in Hlb.
  unfold fw_state_at, fw_at. remember (S fuel) as fuel1 eqn:Ef.
  cbn [fw_loop fw_done current]. rewrite Hhi. unfold fw_step. cbn [fw_st]. unfold fw_case_start.
  cbn [fw_labels nused fw_out current cused new_current biggest_pointer seen_pointer fw_done].
  rewrite (bool_decide_false (hi < 64)%Z), (bool_decide_false (128 <= hi < 192)%Z),
    (bool_decide_true (192 <= hi)%Z) by lia. rewrite Hg. cbn [negb mbind option_bind].
  subst fuel1. cbn [fw_loop fw_done current]. rewrite Hlo. unfold fw_step. cbn [fw_st].
  unfold fw_case_newcurrent.
  cbn [fw_labels nused fw_out current cused new_current biggest_pointer seen_pointer fw_done fw_n].
  rewrite bool_decide_false by lia. cbn [mbind option_bind].
  assert (Z.to_nat (Z.land hi 63) * 256 + Z.to_nat lo = q) as ->.
  { subst q. change 63%Z with (Z.ones 6). rewrite Z.land_ones by lia.
    replace (hi mod 2 ^ 6)%Z with (hi - 192)%Z; [lia|].
    change (2 ^ 6)%Z with 64%Z. dlia. }
  case_bool_decide; [done|]. by destruct seen.
Qed.

(** The other first bytes. *)
Lemma fw_error_step fuel p cu pre n nc b seen c :
  m !! p = Some c → is_byte c → Forall (λ l : label, 0 < length l) pre →
  length (enc_labels pre) <= nmax →
  (c < 64)%Z ∧ nmax < length (enc_labels pre) + Z.to_nat c + 1 ∨
  (64 <= c < 192)%Z ∨ (192 <= c)%Z ∧ g = false →
  ∃ e, fw_loop (S fuel) g dc nmax m (fw_state_at p cu pre n nc b seen) = Some (inl e) ∧
       e ∈ [DNS_R_BADLABELTYPE; DNS_R_DISALLOWED; fw_full nmax] ∧ ((c < 64)%Z → e = fw_full nmax).
Proof.
  intros Hc Hb Hp Hs Hcase. unfold fw_state_at, fw_at. cbn [fw_loop fw_done current].
  rewrite Hc. unfold fw_step. cbn [fw_st]. unfold fw_case_start.
  cbn [fw_labels nused fw_out current cused new_current biggest_pointer seen_pointer fw_done].
  rewrite (bool_decide_true (_ < 128)) by (by apply few_labels).
  destruct Hcase as [[H1 H2]|[H1|[H1 ->]]].
  - rewrite (bool_decide_true (c < 64)%Z), (bool_decide_true (nmax < _)) by lia.
    eexists. split_and!; [done|set_solver|done].
  - rewrite (bool_decide_false (c < 64)%Z), (bool_decide_false (192 <= c)%Z) by lia.
    case_bool_decide; (eexists; split_and!; [done|set_solver|lia]).
  - rewrite (bool_decide_false (c < 64)%Z), (bool_decide_false (128 <= c < 192)%Z),
      (bool_decide_true (192 <= c)%Z) by lia.
    eexists. split_and!; [done|set_solver|lia].
Qed.

Lemma fw_end_step fuel p cu pre n nc b seen c :
  m !! p = Some c → (192 <= c)%Z → g = true → m !! S p = None →
  ∃ s, fw_loop (S (S fuel)) g dc nmax m (fw_state_at p cu pre n nc b seen) =
       Some (inr s) ∧ fw_done s = false.
Proof.
  intros Hc Hr Hg Hn. unfold fw_state_at, fw_at. remember (S fuel) as fuel1 eqn:Ef.
  cbn [fw_loop fw_done current]. rewrite Hc. unfold fw_step. cbn [fw_st].
  unfold fw_case_start.
  rewrite (bool_decide_false (c < 64)%Z), (bool_decide_false (128 <= c < 192)%Z),
    (bool_decide_true (192 <= c)%Z) by lia. rewrite Hg. cbn [negb mbind option_bind].
  subst fuel1. cbn [fw_loop fw_done current]. rewrite Hn. by eexists.
Qed.

Definition fw_errors : list isc_result :=
  [DNS_R_BADLABELTYPE; DNS_R_DISALLOWED; DNS_R_BADPOINTER; DNS_R_NAMETOOLONG;
   ISC_R_NOSPACE; ISC_R_UNEXPECTEDEND].

(** What the loop gives from position [p], after the labels [pre]. *)
Definition fw_outcome p cu pre b (seen : bool) (r : isc_result + fw) : Prop :=
  match r with
  | inl e => e ∈ fw_errors ∧
      ∀ ls k, wire_at g m b p ls k → e = fw_full nmax ∧ nmax < length (enc_labels (pre ++ ls))
  | inr s =>
      if fw_done s then
        ∃ ls k, wire_at g m b p ls k ∧ length (enc_labels (pre ++ ls)) <= nmax ∧
          fw_out s = enc_labels (lower_labels_if dc (pre ++ ls)) ∧
          fw_labels s = length (pre ++ ls) ∧ cused s = (if seen then cu else cu + k)
      else ∀ ls k, wire_at g m b p ls k → False
  end.

(** How the outcome at a position follows from the next one. *)
Lemma fw_outcome_label p cu pre b (seen : bool) l r :
  0 < length l <= 63 → mread m p (S (length l)) = Some (enc_label l) →
  fw_outcome (p + S (length l)) (if seen then cu else cu + S (length l)) (pre ++ [l]) b seen r →
  fw_outcome p cu pre b seen r.
Proof.
  intros Hl Hr. destruct (mread_enc_label _ _ _ Hr) as [H0 Ht].
  assert (∀ ls k, wire_at g m b p ls k →
    ∃ ls' k', ls = l :: ls' ∧ wire_at g m b (p + S (length l)) ls' k') as Hnext.
  { intros ls k (c' & Hc' & Hcase)%wire_at_inv. rewrite H0 in Hc'. injection Hc' as <-.
    destruct Hcase as [(? & _)|[(l' & ls' & k' & _ & E & _ & -> & _ & Hw)|
      (? & ? & _ & ? & _)]]; [lia| |lia]. rewrite Nat2Z.id, Ht in E. subst l'.
    by exists ls', k'. }
  unfold fw_outcome. destruct r as [e|s].
  - intros [He Hn]. split; [done|]. intros ls k (ls' & k' & -> & Hw)%Hnext.
    apply Hn in Hw. by rewrite <- app_assoc in Hw.
  - destruct (fw_done s); [|intros Hno ls k (ls' & k' & -> & Hw)%Hnext; by eapply Hno].
    intros (ls & k & Hw & Hsz & Eo & El & Ec). rewrite <- app_assoc in Hsz, Eo, El.
    exists (l :: ls), (S (length l) + k). split_and!; try done.
    + by apply wire_label.
    + rewrite Ec. destruct seen; [done|lia].
Qed.

Lemma fw_outcome_pointer p cu pre b (seen : bool) hi lo r :
  let q := Z.to_nat ((hi - 192) * 256 + lo) in
  g = true → m !! p = Some hi → m !! S p = Some lo → (192 <= hi < 256)%Z → q < b →
  fw_outcome q (if seen then cu else S (S cu)) pre q true r →
  fw_outcome p cu pre b seen r.
Proof.
  intros q Hg Hhi Hlo Hr Hq.
  assert (∀ ls k, wire_at g m b p ls k → ∃ k', wire_at g m q q ls k') as Hnext.
  { intros ls k (c' & Hc' & Hcase)%wire_at_inv. rewrite Hhi in Hc'. injection Hc' as <-.
    destruct Hcase as [(? & _)|[(? & ? & ? & ? & _)|
      (lo' & q' & _ & _ & Hlo' & -> & _ & _ & Hw)]]; [lia|lia|].
    rewrite Hlo in Hlo'. by injection Hlo' as <-. }
  unfold fw_outcome. destruct r as [e|s].
  - intros [He Hno]. split; [done|]. intros ls k (k' & Hw)%Hnext. by eapply Hno.
  - destruct (fw_done s).
    + intros (ls & k & Hw & Hsz & Eo & El & Ec). exists ls, 2. split_and!; try done.
      * apply (wire_pointer g m b p hi lo ls k); try done. by eapply Forall_lookup_1.
      * rewrite Ec. destruct seen; lia.
    + intros Hno ls k (k' & Hw)%Hnext. by eapply Hno.
Qed.

Lemma fw_outcome_error p cu pre n nc b seen c fuel :
  m !! p = Some c → is_byte c → Forall (λ l : label, 0 < length l) pre →
  length (enc_labels pre) <= nmax →
  (c < 64)%Z ∧ nmax < length (enc_labels pre) + Z.to_nat c + 1 ∨
  (64 <= c < 192)%Z ∨ (192 <= c)%Z ∧ g = false →
  ∃ r, fw_loop (S fuel) g dc nmax m (fw_state_at p cu pre n nc b seen) = Some r ∧
       fw_outcome p cu pre b seen r.
Proof.
  intros Hc Hcb Hpre Hs Hbad.
  destruct (fw_error_step fuel p cu pre n nc b seen c) as (e & -> & He & Hfull); try done.
  eexists. split; [done|]. split.
  { revert He. unfold fw_full, fw_errors. rewrite !elem_of_cons. case_bool_decide; tauto. }
  intros ls k Hw. rewrite enc_labels_app, length_app.
  apply (wire_at_kind _ _ _ _ c) in Hw; [|done].
  destruct Hbad as [[? ?]|[?|[? ->]]]; destruct Hw as [?|[? ?]]; try done; try lia.
  split; [by apply Hfull|lia].
Qed.

Lemma fw_loop_spec fuel p cu pre n nc b seen :
  room b p < fuel → p <= length m → b <= length m →
  Forall (λ l : label, 0 < length l) pre → length (enc_labels pre) <= nmax →
  ∃ r, fw_loop fuel g dc nmax m (fw_state_at p cu pre n nc b seen) = Some r ∧
       fw_outcome p cu pre b seen r.
Proof.
  revert p cu pre n nc b seen. induction fuel as [fuel IH] using lt_wf_ind.
  intros p cu pre n nc b seen Hf Hp Hb Hpre Hs. unfold room in *.
  destruct fuel as [|fuel]; [lia|].
  destruct (m !! p) as [c|] eqn:Hc.
  2:{ eexists. split; [unfold fw_state_at, fw_at; cbn; by rewrite Hc|]. cbn.
      intros ls k (c & Hc' & _)%wire_at_inv. congruence. }
  pose proof (lookup_lt_Some _ _ _ Hc) as Hlt.
  pose proof (Forall_lookup_1 _ _ _ _ Hm Hc) as Hcb.
  destruct (decide ((c < 64)%Z ∧ nmax < length (enc_labels pre) + Z.to_nat c + 1 ∨
    (64 <= c < 192)%Z ∨ (192 <= c)%Z ∧ g = false)) as [Hbad|Hgood];
    [by eapply fw_outcome_error|].
  unfold is_byte in Hcb. destruct (decide (c < 64)%Z) as [Hsm|Hbig].
  - destruct (decide (c = 0%Z)) as [->|Hc0];
      rewrite (fw_label_step fuel p cu pre n nc b seen _ Hc) by (done || lia).
    { clear IH. eexists. split; [by destruct fuel|]. exists ([[]] : list label), 1. cbn. split_and!.
      - by constructor.
      - rewrite enc_snoc. cbn. lia.
      - rewrite lower_snoc. cbn. by rewrite app_nil_r.
      - rewrite length_app. cbn. lia.
      - destruct seen; [done|lia]. }
    rewrite bool_decide_false by done.
    destruct (fw_copy_loop (Z.to_nat c) (S p) (if seen then cu else S cu)
      (enc_labels (lower_labels_if dc pre) ++ [c]) (length (enc_labels pre) + Z.to_nat c + 1)
      (S (length pre)) nc b seen fuel) as [Hin Hout];
      [lia|rewrite length_app, lower_labels_if_size; cbn; lia|lia|lia|].
    unfold fw_at in Hin, Hout.
    destruct (decide (S p + Z.to_nat c <= length m)) as [Hfit|Hshort].
    2:{ destruct Hout as (s & -> & Hd); [lia|]. eexists. split; [done|]. cbn. rewrite Hd.
        intros ls k Hw. apply (wire_at_short _ _ _ _ c Hw Hc Hc0). left. lia. }
    rewrite (Hin Hfit). clear Hin Hout. set (l := take (Z.to_nat c) (drop (S p) m)).
    assert (length l = Z.to_nat c) as Hll
      by (unfold l; rewrite length_take, length_drop; lia).
    destruct (IH (fuel - Z.to_nat c) ltac:(lia) (p + S (length l))
      (if seen then cu else cu + S (length l)) (pre ++ [l]) 0 nc b seen) as (r & Hr & Ho);
      [rewrite Hll; lia|lia|done| |rewrite enc_snoc; lia|].
    { apply Forall_app. split; [done|]. constructor; [lia|done]. }
    exists r. split.
    { rewrite <- Hr. f_equal. unfold fw_state_at, fw_at. f_equal.
      - rewrite Hll. lia.
      - rewrite Hll. destruct seen; lia.
      - rewrite enc_snoc. lia.
      - rewrite length_app. cbn. lia.
      - rewrite lower_snoc, Hll, Z2Nat.id by lia. done. }
    apply (fw_outcome_label p cu pre b seen l); [lia| |done].
    unfold mread. rewrite bool_decide_true by lia. rewrite (drop_S _ _ _ Hc). cbn [take].
    unfold enc_label. by rewrite Hll, Z2Nat.id by lia.
  - assert (192 <= c)%Z as Hpt
      by (destruct (decide (c < 192)%Z); [destruct Hgood; right; left|]; lia).
    assert (g = true) as Hg by (destruct g; [done|]; destruct Hgood; by right; right).
    destruct fuel as [|fuel]; [lia|].
    destruct (m !! S p) as [lo|] eqn:Hlo.
    2:{ destruct (fw_end_step fuel p cu pre n nc b seen c) as (s & -> & Hd); try done.
        eexists. split; [done|]. cbn. rewrite Hd. intros ls k Hw.
        apply (wire_at_short _ _ _ _ c Hw Hc); [lia|by right]. }
    rewrite (fw_pointer_step fuel p cu pre n nc b seen c lo) by (done || lia).
    case_bool_decide as Hq.
    { eexists. split; [done|]. split; [unfold fw_errors; set_solver|].
      intros ls k (c' & Hc' & Hcase)%wire_at_inv. exfalso. rewrite Hc in Hc'. injection Hc' as <-.
      destruct Hcase as [(? & _)|[(? & ? & ? & ? & _)|(lo' & ? & _ & _ & Hl' & -> & ? & _)]];
        [lia|lia|]. rewrite Hlo in Hl'. injection Hl' as <-. lia. }
    pose proof (lookup_lt_Some _ _ _ Hlo).
    destruct (IH fuel ltac:(lia) (Z.to_nat ((c - 192) * 256 + lo))
      (if seen then cu else S (S cu)) pre 0 (Z.to_nat ((c - 192) * 256 + lo))
      (Z.to_nat ((c - 192) * 256 + lo)) true) as (r & Hr & Ho); [nia|lia|lia|done|done|].
    exists r. split; [exact Hr|].
    apply (fw_outcome_pointer p cu pre b seen c lo); (done || lia).
Qed.
End loop.

Lemma fromwire_ok m start g dc avail :
  bytes_ok m → start <= length m →
  ∃ r, dns_name_fromwire m start g dc avail = Some r ∧
    match r with
    | inl e => e ∈ fw_errors ∧ ∀ ls k, wire_at g m start start ls k →
        e = fw_full (DNS_NAME_MAXWIRE `min` avail) ∧
        DNS_NAME_MAXWIRE `min` avail < length (enc_labels ls)
    | inr (n, used) => ∃ ls, wire_at g m start start ls used ∧
        length (enc_labels ls) <= DNS_NAME_MAXWIRE `min` avail ∧
        n = name_of (lower_labels_if dc ls) ∧ name_repr n (lower_labels_if dc ls) ∧
        absolute n = true
    end.
Proof.
  intros Hm Hs. unfold dns_name_fromwire.
  replace (if bool_decide (DNS_NAME_MAXWIRE < avail) then DNS_NAME_MAXWIRE else avail)
    with (DNS_NAME_MAXWIRE `min` avail) by (case_bool_decide; lia).
  set (nmax := DNS_NAME_MAXWIRE `min` avail).
  assert (nmax <= DNS_NAME_MAXWIRE) as Hmax by (unfold nmax; lia).
  destruct (fw_loop_spec g dc nmax m Hmax Hm (fw_fuel m) start 0 [] 0 0 start false)
    as (r & Hr & Ho); [unfold room, fw_fuel; nia|done|done|constructor|cbn; lia|].
  rewrite (Hr : fw_loop _ g dc nmax m (Fw fw_start start 0 0 0 [] 0 0 start false false) = _).
  cbn [mbind option_bind].
  destruct r as [e|s]; cbn in Ho.
  { by eexists. }
  destruct (fw_done s); cbn [negb]; (eexists; split; [done|]).
  - destruct Ho as (ls & k & Hw & Hsz & Eo & El & Ec). exists ls.
    pose proof (wire_at_ok _ _ _ _ _ _ Hw ltac:(etrans; [|exact Hmax]; done)) as Hok.
    destruct (wire_at_root_last _ _ _ _ _ _ Hw) as [_ Hrl].
    assert (Name (fw_out s) (fw_labels s) true = name_of (lower_labels_if dc ls)) as En.
    { unfold name_of. rewrite lower_labels_if_root, Hrl, Eo, El. f_equal.
      unfold lower_labels_if. by rewrite length_fmap. }
    rewrite En, Ec. split_and!; try done; [by apply name_of_repr, lower_labels_if_ok|].
    cbn. by rewrite lower_labels_if_root.
  - split; [unfold fw_errors; set_solver|]. intros ls k Hw. by destruct (Ho ls k).
Qed.

(** C31: [dns_name_fromwire] on any message bytes, at any position: it ends
    (pointers cannot loop), no access leaves the message, the target or the
    offsets table, and it succeeds exactly if a name of at most 255 bytes
    that fits the target is encoded there ([wire_at]); then the target holds
    that name, in lower case if asked, and the source moves past its first
    part. Otherwise it returns one of its six errors, which for a name that
    is only too long for the target is the lack of space, and for one of more
    than 255 bytes that the name is too long. *)
Theorem fromwire_spec m start g dc avail :
  bytes_ok m → start <= length m →
  ∃ r, dns_name_fromwire m start g dc avail = Some r ∧
    match r with
    | inl e => e ∈ fw_errors ∧ ∀ ls k, wire_at g m start start ls k →
        e = fw_full (DNS_NAME_MAXWIRE `min` avail) ∧
        DNS_NAME_MAXWIRE `min` avail < length (enc_labels ls)
    | inr (n, used) => ∃ ls, wire_at g m start start ls used ∧
        length (enc_labels ls) <= DNS_NAME_MAXWIRE `min` avail ∧
        n = name_of (lower_labels_if dc ls) ∧ name_repr n (lower_labels_if dc ls) ∧
        absolute n = true
    end.
Proof. apply fromwire_ok. Qed.
