(* ===== verification/Compress.v ===== *)
(** * Name compression

    [lib/dns/compress.c] and [dns_name_towire] of [lib/dns/name.c]: the table
    of the names a message already holds, and writing a name with a pointer
    to the longest suffix found there.

    A node's region points into the name it was added for; the names outlive
    the context in the code, and the model stores the bytes. [isc_mem_get]
    may fail: the parameter [alloc] says whether it succeeds when the table
    holds so many nodes. *)
From S2P Require Import Prelude Qsort Rdata Name FromWire.

Definition DNS_COMPRESS_TABLESIZE : nat := 64.
Definition DNS_COMPRESS_INITIALNODES : nat := 16.

Record compressnode := CNode {
  cn_r : list Z; cn_offset : Z; cn_count : nat; cn_labels : nat }.

(** [global14] and [sensitive] are the flags of [allowed]; each bucket is a
    list from its head on. *)
Record compress := Cctx {
  global14 : bool; sensitive : bool; table : list (list compressnode); cc_count : nat }.

(** The memory system's answer to the allocation of node number [n]. *)
Class Alloc := alloc : nat → bool.

Definition dns_compress_init : compress :=
  {| global14 := false; sensitive := false;
     table := replicate DNS_COMPRESS_TABLESIZE []; cc_count := 0 |}.

Definition dns_compress_setmethods (cctx : compress) (allow14 : bool) : compress :=
  {| global14 := allow14; sensitive := sensitive cctx;
     table := table cctx; cc_count := cc_count cctx |}.

Definition dns_compress_setsensitive (cctx : compress) (s : bool) : compress :=
  {| global14 := global14 cctx; sensitive := s;
     table := table cctx; cc_count := cc_count cctx |}.

(** [NODENAME] *)
Definition node_name (nd : compressnode) : name := Name (cn_r nd) (cn_labels nd) true.

Definition bucket_of (tname : name) : nat :=
  Z.to_nat (dns_name_hash tname false mod Z.of_nat DNS_COMPRESS_TABLESIZE).

(** [for (node = cctx->table[hash]; node != NULL; node = node->next)] *)
Fixpoint find_node (sens : bool) (tname : name) (nodes : list compressnode)
    : option (option compressnode) :=
  match nodes with
  | [] => Some None
  | nd :: nodes' =>
      same ← (if sens then dns_name_caseequal (node_name nd) tname
              else dns_name_equal (node_name nd) tname);
      if same : bool then Some (Some nd) else find_node sens tname nodes'
  end.

(** [for (n = 0; n < labels - 1; n++)], with [rest] rounds to go. *)
Fixpoint find_loop (cctx : compress) (nm : name) (lbls n rest : nat)
    : option (option (nat * compressnode)) :=
  match rest with
  | O => Some None
  | S rest =>
      tname ← dns_name_getlabelsequence nm n (lbls - n);
      nodes ← table cctx !! bucket_of tname;
      found ← find_node (sensitive cctx) tname nodes;
      match found with
      | Some nd => Some (Some (n, nd))
      | None => find_loop cctx nm lbls (S n) rest
      end
  end.

(** The prefix and the offset, if a suffix is found. *)
Definition dns_compress_findglobal (cctx : compress) (nm : name)
    : option (option (name * Z)) :=
  if bool_decide (absolute nm = true) then
    if bool_decide (cc_count cctx = 0) then Some None
    else
      let lbls := labels nm in
      if bool_decide (0 < lbls) then
        found ← find_loop cctx nm lbls 0 (lbls - 1);
        match found with
        | None => Some None
        | Some (n, nd) =>
            prefix ← (if bool_decide (n = 0) then Some (Name [] 0 false)
                      else dns_name_getlabelsequence nm 0 n);
            Some (Some (prefix, cn_offset nd))
        end
      else None
  else None.

(** [while (count > 0)] *)
Fixpoint add_loop `{Alloc} (cctx : compress) (nm : name) (offset : Z)
    (start n count : nat) : option compress :=
  match count with
  | O => Some cctx
  | S count =>
      if bool_decide (0x4000 <= offset)%Z then Some cctx
      else
        tname ← dns_name_getlabelsequence nm start n;
        let hash := bucket_of tname in
        let tlength := length (ndata tname) in
        let toffset := u16 (offset + (Z.of_nat (length (ndata nm)) - Z.of_nat tlength)) in
        if bool_decide (cc_count cctx < DNS_COMPRESS_INITIALNODES) || alloc (cc_count cctx)
        then
          let node := CNode (ndata tname) toffset (cc_count cctx) (labels tname) in
          nodes ← table cctx !! hash;
          let cctx := {| global14 := global14 cctx; sensitive := sensitive cctx;
                         table := <[hash := node :: nodes]> (table cctx);
                         cc_count := S (cc_count cctx) |} in
          add_loop cctx nm offset (S start) (n - 1) count
        else Some cctx
  end.

Definition dns_compress_add `{Alloc} (cctx : compress) (nm prefix : name) (offset : Z)
    : option compress :=
  if bool_decide (absolute nm = true) then
    let n := labels nm in
    let count := if absolute prefix then labels prefix - 1 else labels prefix in
    add_loop cctx nm offset 0 n count
  else None.

(** [while (node != NULL && node->offset >= offset)] on a bucket: what stays,
    and how many nodes went. *)
Fixpoint drop_nodes (offset : Z) (nodes : list compressnode) : list compressnode * nat :=
  match nodes with
  | nd :: nodes' =>
      if bool_decide (offset <= cn_offset nd)%Z then
        let '(l, k) := drop_nodes offset nodes' in (l, S k)
      else (nodes, 0)
  | [] => ([], 0)
  end.

Definition dns_compress_rollback (cctx : compress) (offset : Z) : compress :=
  {| global14 := global14 cctx; sensitive := sensitive cctx;
     table := (λ nodes, (drop_nodes offset nodes).1) <$> table cctx;
     cc_count := cc_count cctx -
                 sum_list_with (λ nodes, (drop_nodes offset nodes).2) (table cctx) |}.

(** [dns_name_towire] into the buffer that holds [m] and has room for [cap]
    bytes in all; [nocompress] is [DNS_NAMEATTR_NOCOMPRESS]. The result, the
    buffer and the context. *)
Definition dns_name_towire `{Alloc} (nm : name) (nocompress : bool) (cctx : compress)
    (cap : nat) (m : mem) : option (isc_result * mem * compress) :=
  let offset := u16 (Z.of_nat (length m)) in
  gf ← (if negb nocompress && global14 cctx then dns_compress_findglobal cctx nm
        else Some None);
  let gf := match gf with
            | Some (gp, go) =>
                if bool_decide (0x4000 <= go)%Z then None
                else if bool_decide (length (ndata nm) <= length (ndata gp) + 2) then None
                else Some (gp, go)
            | None => None
            end in
  match gf with
  | Some (gp, go) =>
      if bool_decide (cap - length m < length (ndata gp)) then Some (ISC_R_NOSPACE, m, cctx)
      else
        let m := m ++ ndata gp in
        let go := Z.lor go 0xc000 in
        if bool_decide (cap - length m < 2) then Some (ISC_R_NOSPACE, m, cctx)
        else
          let m := m ++ enc16 go in
          cctx ← (if bool_decide (length (ndata gp) ≠ 0)
                  then dns_compress_add cctx nm gp offset else Some cctx);
          Some (ISC_R_SUCCESS, m, cctx)
  | None =>
      if bool_decide (cap - length m < length (ndata nm)) then Some (ISC_R_NOSPACE, m, cctx)
      else
        cctx ← dns_compress_add cctx nm nm offset;
        Some (ISC_R_SUCCESS, m ++ ndata nm, cctx)
  end.

Example compress_two_names :
  let _ : Alloc := λ _, true in
  let www := name_of [[119]; [101; 120]; []]%Z in
  let ftp := name_of [[102]; [69; 88]; []]%Z in
  let c := dns_compress_setmethods dns_compress_init true in
  (r ← dns_name_towire www false c 100 []; dns_name_towire ftp false r.2 100 r.1.2)
    ≫= (λ r, Some r.1) =
  Some (ISC_R_SUCCESS, [1; 119; 2; 101; 120; 0; 1; 102; 192; 2]%Z).
Proof. by vm_compute. Qed.

(** ** The invariant *)

(** Labels that agree as the context compares them. *)
Definition alike (sens : bool) (ls ls' : list label) : Prop :=
  if sens then ls = ls' else same_labels ls ls'.

(** A node is a name with its hash, and the message has such a name at its
    offset. *)
Record node_ok (sens : bool) (m : mem) (h : nat) (nd : compressnode) : Prop := {
  no_repr : ∃ ls ls' k, name_repr (node_name nd) ls ∧ bucket_of (name_of ls) = h ∧
    alike sens ls ls' ∧
    wire_at true m (Z.to_nat (cn_offset nd)) (Z.to_nat (cn_offset nd)) ls' k;
  no_offset : (0 <= cn_offset nd < Z.of_nat (length m))%Z }.

(** The numbers of the nodes are those below the count: in particular the
    next element of [initialnodes] is free. *)
Record ctx_ok (m : mem) (cctx : compress) : Prop := {
  cx_size : length (table cctx) = DNS_COMPRESS_TABLESIZE;
  cx_nodes : ∀ h nodes nd, table cctx !! h = Some nodes → nd ∈ nodes →
    node_ok (sensitive cctx) m h nd;
  cx_slots : cn_count <$> concat (table cctx) ≡ₚ seq 0 (cc_count cctx) }.

#[export] Instance alike_equiv sens : Equivalence (alike sens).
Proof. destruct sens; cbn; apply _. Qed.

Lemma alike_app sens ls1 ls2 ls2' :
  alike sens ls2 ls2' → alike sens (ls1 ++ ls2) (ls1 ++ ls2').
Proof.
  destruct sens; cbn; [by intros ->|]. unfold same_labels. rewrite !fmap_app. by intros ->.
Qed.

Lemma alike_size sens ls ls' :
  alike sens ls ls' → length (enc_labels ls) = length (enc_labels ls').
Proof. destruct sens; cbn; [by intros ->|]. by intros [_ ?]%same_labels_length. Qed.

(** A longer message still has the name. *)
Lemma wire_at_app g m x b p ls k : wire_at g m b p ls k → wire_at g (m ++ x) b p ls k.
Proof.
  induction 1 as [|b p l ls k Hl Hr _ IH|b p hi lo ls k Hg Hhi Hlo Hr Hby Hq _ IH].
  - apply wire_root. by apply lookup_app_l_Some.
  - apply wire_label; [done|by apply mread_app|done].
  - apply (wire_pointer _ _ _ _ hi lo ls k); try done; by apply lookup_app_l_Some.
Qed.

Lemma node_ok_app sens m x h nd : node_ok sens m h nd → node_ok sens (m ++ x) h nd.
Proof.
  intros [(ls & ls' & k & Hr & Hb & Ha & Hw) Ho]. split; [|rewrite length_app; lia].
  exists ls, ls', k. split_and!; try done. by apply wire_at_app.
Qed.

Lemma ctx_ok_app m x cctx : ctx_ok m cctx → ctx_ok (m ++ x) cctx.
Proof.
  intros [H1 H2 H3]. split; [done| |done]. intros h nodes nd Hn Hd.
  apply node_ok_app. by eapply H2.
Qed.

Lemma ctx_init_ok m : ctx_ok m dns_compress_init.
Proof.
  split; [done| |done]. intros h nodes nd [-> _]%lookup_replicate Hd. set_solver.
Qed.

(** Labels written before a name that is there. *)
Lemma wire_at_labels g m b p ls1 ls2 k :
  Forall (λ l : label, 0 < length l <= 63) ls1 →
  mread m p (length (enc_labels ls1)) = Some (enc_labels ls1) →
  wire_at g m b (p + length (enc_labels ls1)) ls2 k →
  wire_at g m b p (ls1 ++ ls2) (length (enc_labels ls1) + k).
Proof.
  intros Hf. revert p. induction Hf as [|l ls1 Hl _ IH]; intros p Hr Hw.
  { cbn in Hw |- *. by rewrite Nat.add_0_r in Hw. }
  rewrite enc_labels_cons, length_app, enc_label_length in *. cbn [app].
  rewrite <- Nat.add_assoc. apply wire_label; [done| |].
  - pose proof (mread_sub _ _ _ _ 0 (S (length l)) Hr ltac:(lia)) as Hs.
    rewrite Nat.add_0_r, drop_0, take_app_le in Hs by (cbn; lia).
    by rewrite take_ge in Hs by (cbn; lia).
  - apply IH.
    + pose proof (mread_sub _ _ _ _ (S (length l)) (length (enc_labels ls1)) Hr ltac:(lia)) as Hs.
      rewrite (drop_app_length' (enc_label l)) in Hs by done. by rewrite take_ge in Hs by lia.
    + by replace (p + S (length l) + length (enc_labels ls1))
        with (p + (S (length l) + length (enc_labels ls1))) by lia.
Qed.

(** *** Equality of names in the table *)

Lemma enc_labels_inj ls1 ls2 : enc_labels ls1 = enc_labels ls2 → ls1 = ls2.
Proof.
  revert ls2. induction ls1 as [|a ls1 IH]; intros [|b ls2]; try done.
  rewrite !enc_labels_cons. unfold enc_label. cbn [app]. intros [= El E].
  apply app_inj_1 in E as [-> E]; [|lia]. f_equal. by apply IH.
Qed.

Lemma name_caseequal_labels n1 n2 ls1 ls2 :
  name_repr n1 ls1 → name_repr n2 ls2 → is_root_last ls1 = is_root_last ls2 →
  dns_name_caseequal n1 n2 = Some (bool_decide (ls1 = ls2)).
Proof.
  intros H1 H2 Ha. unfold dns_name_caseequal.
  rewrite (nr_absolute _ _ H1), (nr_absolute _ _ H2), Ha, bool_decide_true by done.
  rewrite (nr_data _ _ H1), (nr_data _ _ H2). case_bool_decide as El.
  { rewrite bool_decide_false; [done|]. by intros ->. }
  f_equal. apply bool_decide_ext. rewrite memcmp_eq by lia. split; [apply enc_labels_inj|].
  by intros ->.
Qed.

Lemma find_node_spec sens m h tname ls nodes :
  name_repr tname ls → is_root_last ls = true →
  (∀ nd, nd ∈ nodes → node_ok sens m h nd) →
  ∃ r, find_node sens tname nodes = Some r ∧
    ∀ nd, r = Some nd → nd ∈ nodes ∧
      ∃ ls' k, alike sens ls ls' ∧
        wire_at true m (Z.to_nat (cn_offset nd)) (Z.to_nat (cn_offset nd)) ls' k.
Proof.
  intros Ht Hr. induction nodes as [|nd nodes IH]; intros Hok; [by exists None|].
  destruct (Hok nd) as [(ls0 & ls' & k & H0 & _ & Ha & Hw) _]; [by left|].
  destruct IH as (r & E & Hf); [intros; apply Hok; by right|].
  assert (is_root_last ls0 = true) as Hr0 by (by rewrite <- (nr_absolute _ _ H0)).
  assert ((if sens then dns_name_caseequal (node_name nd) tname
           else dns_name_equal (node_name nd) tname) =
    Some (if sens then bool_decide (ls0 = ls) else bool_decide (same_labels ls0 ls))) as Hs.
  { destruct sens; [apply name_caseequal_labels|apply name_equal_labels]; done || congruence. }
  cbn [find_node]. rewrite Hs. cbn [mbind option_bind].
  destruct (if sens then bool_decide (ls0 = ls) else bool_decide (same_labels ls0 ls)) eqn:Es.
  - exists (Some nd). split; [done|]. intros nd' [= <-]. split; [by left|].
    exists ls', k. split; [|done]. rewrite <- Ha. symmetry.
    destruct sens; by apply bool_decide_eq_true in Es.
  - exists r. split; [done|]. intros nd' (Hn & ?)%Hf. split; [by right|done].
Qed.

Lemma bucket_lt nm : bucket_of nm < DNS_COMPRESS_TABLESIZE.
Proof.
  unfold bucket_of, DNS_COMPRESS_TABLESIZE.
  pose proof (Z.mod_pos_bound (dns_name_hash nm false) (Z.of_nat 64)). lia.
Qed.

Lemma suffix_repr nm ls i :
  name_repr nm ls → i < length ls → is_root_last ls = true →
  dns_name_getlabelsequence nm i (length ls - i) = Some (name_of (drop i ls)) ∧
  labels_ok (drop i ls) ∧ is_root_last (drop i ls) = true.
Proof.
  intros Hn Hi Hr. destruct (getlabelsequence_repr nm ls i (length ls - i) Hn) as [E Ho]; [lia|].
  rewrite take_ge in E, Ho by (rewrite length_drop; lia). split_and!; [done..|].
  unfold is_root_last in *. rewrite last_lookup, lookup_drop, length_drop in *.
  by replace (i + pred (length ls - i)) with (pred (length ls)) by lia.
Qed.

Lemma find_loop_spec m cctx nm ls n rest :
  ctx_ok m cctx → name_repr nm ls → is_root_last ls = true → n + rest < length ls →
  ∃ r, find_loop cctx nm (length ls) n rest = Some r ∧
    ∀ i nd, r = Some (i, nd) → n <= i < n + rest ∧
      (0 <= cn_offset nd < Z.of_nat (length m))%Z ∧
      ∃ ls' k, alike (sensitive cctx) (drop i ls) ls' ∧
        wire_at true m (Z.to_nat (cn_offset nd)) (Z.to_nat (cn_offset nd)) ls' k.
Proof.
  intros Hc Hn Hr. revert n. induction rest as [|rest IH]; intros n Hl; [by exists None|].
  cbn [find_loop]. destruct (suffix_repr nm ls n Hn) as (-> & Ho & Hs); [lia|done|].
  cbn [mbind option_bind]. pose proof (bucket_lt (name_of (drop n ls))) as Hb.
  rewrite <- (cx_size _ _ Hc) in Hb. apply lookup_lt_is_Some_2 in Hb as [nodes Hb].
  rewrite Hb. cbn [mbind option_bind].
  destruct (find_node_spec (sensitive cctx) m (bucket_of (name_of (drop n ls)))
    (name_of (drop n ls)) (drop n ls) nodes) as (r & -> & Hf);
    [by apply name_of_repr|done|intros; by eapply cx_nodes|].
  cbn [mbind option_bind]. destruct r as [nd|].
  - eexists. split; [done|]. intros i nd' [= <- <-]. destruct (Hf nd eq_refl) as [Hin Hw].
    split; [lia|]. split; [|done]. by destruct (cx_nodes _ _ Hc _ _ _ Hb Hin).
  - destruct (IH (S n)) as (r & -> & Hf'); [lia|]. exists r. split; [done|].
    intros i nd (Hi & ?)%Hf'. split; [lia|done].
Qed.

(** ** Adding and rolling back *)

Lemma push_slots (tbl : list (list compressnode)) h nodes nd n :
  tbl !! h = Some nodes → cn_count nd = n →
  cn_count <$> concat tbl ≡ₚ seq 0 n →
  cn_count <$> concat (<[h := nd :: nodes]> tbl) ≡ₚ seq 0 (S n).
Proof.
  intros Hh Hn Hp. pose proof (lookup_lt_Some _ _ _ Hh) as Hlt.
  rewrite insert_take_drop by done. rewrite <- (take_drop_middle _ _ _ Hh) in Hp.
  rewrite concat_app in Hp |- *. cbn [concat app] in *.
  rewrite seq_S, <- Hp, !fmap_app, fmap_cons, fmap_app, Hn. solve_Permutation.
Qed.

(** The tables differ by nodes at the front, at [lo] or above. *)
Definition grown (lo : Z) (c c' : compress) : Prop :=
  global14 c' = global14 c ∧ sensitive c' = sensitive c ∧
  ∃ new : list (list compressnode), table c' = zip_with app new (table c) ∧
    length new = length (table c) ∧
    Forall (Forall (λ nd, (lo <= cn_offset nd)%Z)) new ∧
    cc_count c' = cc_count c + sum_list_with length new.

Lemma zip_nil_app {A} (t : list (list A)) : zip_with app (replicate (length t) []) t = t.
Proof. induction t; cbn; [done|by f_equal]. Qed.

Lemma sum_replicate_nil {A} n : sum_list_with length (replicate n (@nil A)) = 0.
Proof. by induction n. Qed.

Lemma grown_refl lo c : grown lo c c.
Proof.
  split_and!; [done..|]. exists (replicate (length (table c)) []).
  rewrite zip_nil_app, length_replicate, sum_replicate_nil. split_and!; [done..| |lia].
  by apply Forall_replicate.
Qed.

Lemma grown_trans lo c1 c2 c3 : grown lo c1 c2 → grown lo c2 c3 → grown lo c1 c3.
Proof.
  intros (G1 & S1 & n1 & T1 & L1 & F1 & C1) (G2 & S2 & n2 & T2 & L2 & F2 & C2).
  split_and!; [congruence..|]. exists (zip_with app n2 n1).
  assert (length n2 = length n1) as L12
    by (rewrite L2, T1, length_zip_with; lia).
  rewrite T2, T1, C2, C1. clear -L1 L12 F1 F2. split_and!.
  - revert n1 n2 L1 L12 F1 F2. generalize (table c1) as t.
    induction t as [|x t IH]; intros [|a n1] [|b n2] ?? F1 F2; try done.
    cbn. apply Forall_cons in F1 as [? ?], F2 as [? ?]. rewrite app_assoc. f_equal.
    by apply IH; [injection L1|injection L12|..].
  - rewrite length_zip_with. lia.
  - clear L1. revert n2 L12 F2. induction F1 as [|a n1 Ha _ IH]; intros [|b n2] ? F2; try done.
    apply Forall_cons in F2 as [? ?]. cbn. constructor; [by apply Forall_app|].
    apply IH; [by injection L12|done].
  - assert (sum_list_with length (zip_with app n2 n1) =
            sum_list_with length n2 + sum_list_with length n1) as ->; [|lia].
    clear -L12. revert n1 L12. induction n2 as [|b n2 IH]; intros [|a n1] ?; try done.
    cbn. rewrite length_app, IH by (by injection L12). lia.
Qed.

Lemma grown_push lo c h nodes nd :
  table c !! h = Some nodes → (lo <= cn_offset nd)%Z →
  grown lo c {| global14 := global14 c; sensitive := sensitive c;
                table := <[h := nd :: nodes]> (table c); cc_count := S (cc_count c) |}.
Proof.
  intros Hh Ho. split_and!; [done..|].
  exists (<[h := [nd]]> (replicate (length (table c)) [])). cbn.
  pose proof (lookup_lt_Some _ _ _ Hh) as Hlt. split_and!.
  - clear -Hh. revert h Hh. induction (table c) as [|x t IH]; intros [|h] Hh; try done; cbn.
    + injection Hh as ->. by rewrite zip_nil_app.
    + f_equal. by apply IH.
  - by rewrite length_insert, length_replicate.
  - apply Forall_insert; [by apply Forall_replicate|by repeat constructor].
  - assert (sum_list_with length (<[h := [nd]]> (replicate (length (table c)) [])) = 1) as ->;
      [|lia].
    clear -Hlt. revert h Hlt. induction (length (table c)) as [|k IH]; intros [|h] Hlt;
      cbn; try lia; [by rewrite sum_replicate_nil|]. apply IH. lia.
Qed.

(** Rolling back drops what was added. *)
Lemma drop_nodes_app lo new old :
  Forall (λ nd, (lo <= cn_offset nd)%Z) new → Forall (λ nd, (cn_offset nd < lo)%Z) old →
  drop_nodes lo (new ++ old) = (old, length new).
Proof.
  intros Hn Ho. induction Hn as [|nd new Hd _ IH].
  - destruct Ho as [|nd old Hd]; [done|]. cbn. by rewrite bool_decide_false by lia.
  - cbn. by rewrite bool_decide_true, IH by done.
Qed.

Lemma rollback_grown lo c c' :
  Forall (Forall (λ nd, (cn_offset nd < lo)%Z)) (table c) → grown lo c c' →
  dns_compress_rollback c' lo = c.
Proof.
  intros Ho (G & S & new & T & L & F & C). unfold dns_compress_rollback.
  rewrite G, S, T, C. destruct c as [g s t n]. cbn in *. clear T C G S.
  assert ((λ nodes, (drop_nodes lo nodes).1) <$> zip_with app new t = t ∧
    sum_list_with (λ nodes, (drop_nodes lo nodes).2) (zip_with app new t) =
      sum_list_with length new) as [-> ->].
  { revert new L F. induction Ho as [|old t Ho _ IH]; intros [|nw new] L F; try done.
    apply Forall_cons in F as [F1 F]. cbn. rewrite drop_nodes_app by done.
    destruct (IH new) as [E1 E2]; [by injection L|done|]. cbn. split; [by f_equal|lia]. }
  f_equal. lia.
Qed.

Lemma enc_take_drop ls i :
  length (enc_labels ls) = length (enc_labels (take i ls)) + length (enc_labels (drop i ls)).
Proof. by rewrite <- length_app, <- enc_labels_app, take_drop. Qed.

Section towire.
Context `{Alloc}.

(** Adding the suffixes that the message [m] has. *)
Lemma add_loop_spec m cctx nm ls off start count :
  ctx_ok m cctx → name_repr nm ls → is_root_last ls = true →
  start + count < length ls →
  (∀ i, start <= i < start + count →
     off + length (enc_labels (take i ls)) < length m ∧
     ∃ ls' k, alike (sensitive cctx) (drop i ls) ls' ∧
       wire_at true m (off + length (enc_labels (take i ls)))
         (off + length (enc_labels (take i ls))) ls' k) →
  ∃ cctx', add_loop cctx nm (Z.of_nat off) start (length ls - start) count = Some cctx' ∧
    ctx_ok m cctx' ∧ grown (Z.of_nat off) cctx cctx'.
Proof.
  revert cctx start. induction count as [|count IH]; intros cctx start Hc Hn Hr Hl Hw.
  { exists cctx. split_and!; [done..|apply grown_refl]. }
  cbn [add_loop]. case_bool_decide.
  { exists cctx. split_and!; [done..|apply grown_refl]. }
  destruct (suffix_repr nm ls start Hn) as (E & Hok & Hrl); [lia|done|].
  rewrite E. cbn [mbind option_bind].
  pose proof (lo_max _ (nr_ok _ _ Hn)) as Hmax. unfold DNS_NAME_MAXWIRE in Hmax.
  pose proof (enc_take_drop ls start) as Hsz.
  assert (u16 (Z.of_nat off + (Z.of_nat (length (ndata nm)) -
    Z.of_nat (length (ndata (name_of (drop start ls)))))) =
    Z.of_nat (off + length (enc_labels (take start ls)))) as ->.
  { rewrite (nr_data _ _ Hn). cbn [ndata name_of]. rewrite u16_small by lia. lia. }
  destruct (bool_decide (cc_count cctx < DNS_COMPRESS_INITIALNODES) || alloc (cc_count cctx));
    [|exists cctx; split_and!; [done..|apply grown_refl]].
  pose proof (bucket_lt (name_of (drop start ls))) as Hb.
  rewrite <- (cx_size _ _ Hc) in Hb. apply lookup_lt_is_Some_2 in Hb as [nodes Hb].
  rewrite Hb. cbn [mbind option_bind].
  match goal with |- context [add_loop ?c _ _ _ _ _] => set (c1 := c) end.
  assert (grown (Z.of_nat off) cctx c1) as Hg by (apply grown_push; [done|cbn; lia]).
  destruct (Hw start) as (Hlt & ls' & k & Ha & Hwr); [lia|].
  assert (ctx_ok m c1) as Hc1.
  { destruct Hc as [H1 H2 H3]. split; cbn.
    - by rewrite length_insert.
    - intros h nodes' nd' Hh Hin. destruct (decide (h = bucket_of (name_of (drop start ls))))
        as [->|Hne].
      + rewrite list_lookup_insert_eq in Hh by (by eapply lookup_lt_Some). injection Hh as <-.
        apply elem_of_cons in Hin as [->|Hin]; [|by eapply H2].
        split; [|cbn; lia]. exists (drop start ls), ls', k. cbn. rewrite Nat2Z.id.
        by split_and!.
      + rewrite list_lookup_insert_ne in Hh by done. by eapply H2.
    - by apply push_slots. }
  replace (length ls - start - 1) with (length ls - S start) by lia.
  destruct (IH c1 (S start)) as (c2 & E2 & Hc2 & Hg2); try done; [lia| |].
  { intros i Hi. apply Hw. lia. }
  exists c2. split_and!; [done..|by eapply grown_trans].
Qed.

Lemma add_spec m cctx nm ls prefix off count :
  ctx_ok m cctx → name_repr nm ls → is_root_last ls = true → count < length ls →
  count = (if absolute prefix then labels prefix - 1 else labels prefix) →
  (∀ i, i < count →
     off + length (enc_labels (take i ls)) < length m ∧
     ∃ ls' k, alike (sensitive cctx) (drop i ls) ls' ∧
       wire_at true m (off + length (enc_labels (take i ls)))
         (off + length (enc_labels (take i ls))) ls' k) →
  ∃ cctx', dns_compress_add cctx nm prefix (Z.of_nat off) = Some cctx' ∧
    ctx_ok m cctx' ∧ grown (Z.of_nat off) cctx cctx'.
Proof.
  intros Hc Hn Hr Hl Hcnt Hw. unfold dns_compress_add.
  rewrite (nr_absolute _ _ Hn), Hr, bool_decide_true, (nr_labels _ _ Hn), <- Hcnt by done.
  pose proof (add_loop_spec m cctx nm ls off 0 count) as Ha. rewrite Nat.sub_0_r in Ha.
  apply Ha; try done. intros i Hi. apply Hw. lia.
Qed.

Lemma findglobal_spec m cctx nm ls :
  ctx_ok m cctx → name_repr nm ls → is_root_last ls = true →
  ∃ r, dns_compress_findglobal cctx nm = Some r ∧
    ∀ gp go, r = Some (gp, go) → ∃ n ls' k, n < length ls - 1 ∧
      ndata gp = enc_labels (take n ls) ∧ labels gp = n ∧ absolute gp = false ∧
      (0 <= go < Z.of_nat (length m))%Z ∧ alike (sensitive cctx) (drop n ls) ls' ∧
      wire_at true m (Z.to_nat go) (Z.to_nat go) ls' k.
Proof.
  intros Hc Hn Hr. unfold dns_compress_findglobal.
  rewrite (nr_absolute _ _ Hn), Hr, bool_decide_true by done.
  case_bool_decide; [by exists None|].
  assert (0 < length ls) as Hl by (destruct ls; [done|cbn; lia]).
  rewrite (nr_labels _ _ Hn), bool_decide_true by done.
  destruct (find_loop_spec m cctx nm ls 0 (length ls - 1) Hc Hn Hr) as (r & -> & Hf); [lia|].
  cbn [mbind option_bind]. destruct r as [[n nd]|]; [|by exists None].
  destruct (Hf n nd eq_refl) as (Hi & Ho & ls' & k & Ha & Hw).
  case_bool_decide as Hn0.
  - subst n. eexists. split; [done|]. intros gp go [= <- <-]. exists 0, ls', k.
    split_and!; done || lia.
  - destruct (getlabelsequence_repr nm ls 0 n Hn) as [-> Hok]; [lia|].
    rewrite drop_0 in *. eexists. split; [done|]. intros gp go [= <- <-].
    exists n, ls', k. split_and!; try done; try lia.
    + cbn. rewrite length_take. lia.
    + cbn. pose proof (nr_ok _ _ Hn) as Hok2.
      rewrite <- (take_drop n ls) in Hok2.
      rewrite (is_root_last_part [] (take n ls) (drop n ls) Hok2).
      rewrite bool_decide_false; [done|]. intros [E _].
      apply (f_equal length) in E. rewrite length_drop in E. cbn in E. lia.
Qed.

(** A name is at an offset: its first labels are written, and the rest is
    behind them. *)
Lemma suffixes_written sens m off ls n ls2 k2 :
  labels_ok ls → n < length ls →
  mread m off (length (enc_labels (take n ls))) = Some (enc_labels (take n ls)) →
  alike sens (drop n ls) ls2 →
  (∀ b, off <= b → wire_at true m b (off + length (enc_labels (take n ls))) ls2 k2) →
  ∀ i b, i <= n → off <= b → ∃ ls', alike sens (drop i ls) ls' ∧
    wire_at true m b (off + length (enc_labels (take i ls))) ls'
      (length (enc_labels (drop i (take n ls))) + k2).
Proof.
  intros Hok Hn Hr Ha Hw i b Hi Hb. exists (drop i (take n ls) ++ ls2). split.
  - rewrite <- (take_drop n ls) at 1. rewrite drop_app_le by (rewrite length_take; lia).
    by apply alike_app.
  - assert (enc_labels (take n ls) = enc_labels (take i ls) ++
      enc_labels (drop i (take n ls))) as Ee.
    { rewrite <- enc_labels_app. f_equal. rewrite <- (take_drop i (take n ls)) at 1.
      by rewrite take_take, Nat.min_l by lia. }
    pose proof (f_equal length Ee) as El. rewrite length_app in El.
    apply wire_at_labels.
    + apply Forall_lookup. intros j l Hj. rewrite lookup_drop in Hj.
      pose proof (lookup_lt_Some _ _ _ Hj) as Hlt. rewrite length_take in Hlt.
      rewrite lookup_take_lt in Hj by lia.
      pose proof (Forall_lookup_1 _ _ _ _ (lo_short _ Hok) Hj) as Hs. cbn in Hs.
      split; [|done]. destruct l; [|cbn; lia]. apply (lo_root _ Hok) in Hj. lia.
    + pose proof (mread_sub _ _ _ _ (length (enc_labels (take i ls)))
        (length (enc_labels (drop i (take n ls)))) Hr ltac:(lia)) as Hs.
      rewrite Hs, Ee, drop_app_length. by rewrite take_ge by lia.
    + rewrite <- Nat.add_assoc, <- El. by apply Hw.
Qed.

Lemma lor_pointer go :
  (0 <= go < 0x4000)%Z → enc16 (Z.lor go 0xc000) = [192 + go / 256; go mod 256]%Z.
Proof.
  intros Hgo. rewrite Z.lor_comm.
  pose proof (lor_shiftl_add 3 go 14 ltac:(lia) ltac:(lia)) as E.
  change (Z.shiftl 3 14) with 0xc000%Z in E. rewrite E, enc16_arith.
  change (3 * 2 ^ 14)%Z with 49152%Z. f_equal; [dlia|]. f_equal. dlia.
Qed.

Lemma towire_compressed m cctx nm ls gp go n ls' k :
  ctx_ok m cctx → name_repr nm ls → is_root_last ls = true → n < length ls - 1 →
  ndata gp = enc_labels (take n ls) → labels gp = n → absolute gp = false →
  (0 <= go < Z.of_nat (length m))%Z → (go < 0x4000)%Z →
  alike (sensitive cctx) (drop n ls) ls' →
  wire_at true m (Z.to_nat go) (Z.to_nat go) ls' k →
  let m' := (m ++ ndata gp) ++ enc16 (Z.lor go 0xc000) in
  ∃ cctx', (if bool_decide (length (ndata gp) ≠ 0)
            then dns_compress_add cctx nm gp (Z.of_nat (length m)) else Some cctx) = Some cctx' ∧
    ctx_ok m' cctx' ∧ grown (Z.of_nat (length m)) cctx cctx' ∧
    ∃ ls2, alike (sensitive cctx) ls ls2 ∧
      wire_at true m' (length m) (length m) ls2 (length m' - length m).
Proof.
  intros Hc Hn Hr Hnl Hd Hl Hga Hgo Hgs Ha Hw. rewrite (lor_pointer go) by lia. intros m'.
  pose proof (ctx_ok_app m (ndata gp ++ [192 + go / 256; go mod 256]%Z) _ Hc) as Hc'.
  rewrite app_assoc in Hc'. fold m' in Hc'.
  assert (length m' = length m + length (ndata gp) + 2) as Hlm
    by (unfold m'; rewrite !length_app; done).
  assert (∀ b, length m <= b →
    wire_at true m' b (length m + length (enc_labels (take n ls))) ls' 2) as Hptr.
  { intros b Hb. rewrite <- Hd, <- length_app.
    assert (Z.to_nat ((192 + go / 256 - 192) * 256 + go mod 256) = Z.to_nat go) as Eq
      by (f_equal; dlia).
    apply (wire_pointer _ _ _ _ (192 + go / 256)%Z (go mod 256)%Z ls' k); try done.
    - unfold m'. by rewrite lookup_app_r, Nat.sub_diag by lia.
    - unfold m'. rewrite lookup_app_r, Nat.sub_succ_l, Nat.sub_diag by lia. done.
    - dlia.
    - unfold is_byte. dlia.
    - rewrite Eq. lia.
    - rewrite Eq. unfold m'. rewrite <- app_assoc. by apply wire_at_app. }
  assert (mread m' (length m) (length (enc_labels (take n ls))) = Some (enc_labels (take n ls)))
    as Hrd by (unfold m'; rewrite <- app_assoc, Hd; apply mread_part).
  pose proof (suffixes_written (sensitive cctx) m' (length m) ls n ls' 2 (nr_ok _ _ Hn)
    ltac:(lia) Hrd Ha Hptr) as Hsuf.
  assert (∃ cctx', (if bool_decide (length (ndata gp) ≠ 0)
            then dns_compress_add cctx nm gp (Z.of_nat (length m)) else Some cctx) = Some cctx' ∧
    ctx_ok m' cctx' ∧ grown (Z.of_nat (length m)) cctx cctx') as (c' & E & Hc2 & Hg).
  { case_bool_decide.
    - apply (add_spec m' cctx nm ls gp (length m) n); try done; [lia|by rewrite Hga|].
      intros i Hi. split.
      + rewrite Hlm, Hd.
        assert (length (enc_labels (take i ls)) <= length (enc_labels (take n ls))); [|lia].
        rewrite (enc_take_drop (take n ls) i), take_take, Nat.min_l by lia. lia.
      + destruct (Hsuf i (length m + length (enc_labels (take i ls)))) as (l2 & ? & ?);
          [lia|lia|]. by eexists _, _.
    - exists cctx. split_and!; [done..|apply grown_refl]. }
  exists c'. split_and!; [done..|]. destruct (Hsuf 0 (length m)) as (ls2 & Ha2 & Hw2);
    [lia|lia|]. exists ls2. split; [done|]. cbn in Hw2. rewrite Nat.add_0_r, drop_0 in Hw2.
  replace (length m' - length m) with (length (enc_labels (take n ls)) + 2); [done|].
  rewrite Hlm, Hd. lia.
Qed.

Lemma towire_plain m cctx nm ls :
  ctx_ok m cctx → name_repr nm ls → is_root_last ls = true →
  let m' := m ++ ndata nm in
  ∃ cctx', dns_compress_add cctx nm nm (Z.of_nat (length m)) = Some cctx' ∧
    ctx_ok m' cctx' ∧ grown (Z.of_nat (length m)) cctx cctx' ∧
    wire_at true m' (length m) (length m) ls (length (ndata nm)).
Proof.
  intros Hc Hn Hr m'. pose proof (ctx_ok_app m (ndata nm) _ Hc) as Hc'. fold m' in Hc'.
  pose proof Hn as [Dd Dl Da Dok].
  destruct ls as [|l ls0 _] using rev_ind; [done|].
  assert (l = []) as ->.
  { unfold is_root_last in Hr. rewrite last_snoc in Hr.
    by apply bool_decide_eq_true in Hr as [= ->]. }
  set (ls := ls0 ++ [[]]) in *. set (n := length ls0).
  assert (length ls = S n) as Hll by (unfold ls; rewrite length_app; cbn; lia).
  assert (take n ls = ls0 ∧ drop n ls = [[]]) as [Et Ed]
    by (unfold ls, n; by rewrite take_app_length, drop_app_length).
  assert (length (enc_labels ls) = length (enc_labels ls0) + 1) as Hel
    by (unfold ls; rewrite enc_labels_app, length_app; done).
  assert (∀ b, length m <= b →
    wire_at true m' b (length m + length (enc_labels (take n ls))) [[]] 1) as Hroot.
  { intros b _. apply wire_root. unfold m'. rewrite lookup_app_r, Dd, Et by lia.
    replace (length m + length (enc_labels ls0) - length m) with (length (enc_labels ls0)) by lia.
    unfold ls. rewrite enc_labels_app, lookup_app_r, Nat.sub_diag by lia. done. }
  assert (mread m' (length m) (length (enc_labels (take n ls))) = Some (enc_labels (take n ls)))
    as Hrd by (unfold m'; rewrite Dd, Et; unfold ls; rewrite enc_labels_app; apply mread_part).
  assert (alike (sensitive cctx) (drop n ls) [[]]) as Ha by (by rewrite Ed).
  pose proof (suffixes_written (sensitive cctx) m' (length m) ls n [[]] 1 Dok
    ltac:(lia) Hrd Ha Hroot) as Hsuf.
  pose proof (suffixes_written true m' (length m) ls n [[]] 1 Dok
    ltac:(lia) Hrd Ed Hroot 0 (length m) ltac:(lia) ltac:(lia)) as (l2 & El2 & Hw).
  cbn in El2, Hw. rewrite drop_0 in El2, Hw. rewrite Nat.add_0_r in Hw. subst l2.
  destruct (add_spec m' cctx nm ls nm (length m) n) as (c' & E & Hc2 & Hg); try done; [lia| | |].
  - rewrite Da, Hr, Dl. lia.
  - intros i Hi. split.
    + unfold m'. rewrite length_app, Dd, Hel.
      pose proof (enc_take_drop ls i) as Hs. rewrite Hel in Hs.
      assert (0 < length (enc_labels (drop i ls))) as Hp; [|lia].
      destruct (drop i ls) as [|x d] eqn:Edr.
      * apply (f_equal length) in Edr. rewrite length_drop in Edr. cbn in Edr. lia.
      * rewrite enc_labels_cons. cbn. lia.
    + destruct (Hsuf i (length m + length (enc_labels (take i ls)))) as (l2 & ? & ?);
        [lia|lia|]. by eexists _, _.
  - exists c'. split_and!; [done..|]. rewrite Dd, Hel, <- Et at 1. done.
Qed.
End towire.

Section messages.
Context `{Alloc}.

(** A name can be written: it is well-formed and absolute. *)
Definition name_ok (nm : name) (ls : list label) : Prop :=
  name_repr nm ls ∧ is_root_last ls = true.

Lemma towire_ok m cctx nm ls nocompress cap :
  ctx_ok m cctx → name_ok nm ls → length m <= cap → (Z.of_nat cap < 2 ^ 16)%Z →
  ∃ r m' cctx', dns_name_towire nm nocompress cctx cap m = Some (r, m', cctx') ∧
    grown (Z.of_nat (length m)) cctx cctx' ∧ (∃ x, m' = m ++ x) ∧ length m' <= cap ∧
    (r = ISC_R_SUCCESS ∧ ctx_ok m' cctx' ∧
       (∃ ls', alike (sensitive cctx) ls ls' ∧
          wire_at true m' (length m) (length m) ls' (length m' - length m)) ∧
       length m' - length m <= length (ndata nm) ∨
     r = ISC_R_NOSPACE ∧ cctx' = cctx).
Proof.
  intros Hc [Hn Hr] Hm Hcap. unfold dns_name_towire. rewrite u16_small by lia.
  assert (∃ gf, (if negb nocompress && global14 cctx then dns_compress_findglobal cctx nm
                 else Some None) = Some gf ∧
    ∀ gp go, gf = Some (gp, go) → ∃ n ls' k, n < length ls - 1 ∧
      ndata gp = enc_labels (take n ls) ∧ labels gp = n ∧ absolute gp = false ∧
      (0 <= go < Z.of_nat (length m))%Z ∧ alike (sensitive cctx) (drop n ls) ls' ∧
      wire_at true m (Z.to_nat go) (Z.to_nat go) ls' k) as (gf & -> & Hgf).
  { destruct (negb nocompress && global14 cctx); [by apply findglobal_spec|by exists None]. }
  cbn [mbind option_bind].
  match goal with |- context [match ?x with Some _ => _ | None => _ end] =>
    assert (x = None ∨ ∃ gp go, x = Some (gp, go) ∧ gf = Some (gp, go) ∧ (go < 0x4000)%Z ∧
      length (ndata gp) + 2 < length (ndata nm)) as Hx end.
  { destruct gf as [[gp go]|]; [|by left]. case_bool_decide; [by left|].
    case_bool_decide; [by left|right]. exists gp, go. split_and!; done || lia. }
  destruct Hx as [->|(gp & go & -> & -> & Hgo & Hlen)].
  - case_bool_decide.
    { exists ISC_R_NOSPACE, m, cctx. split_and!; [done|apply grown_refl| |done|by right].
      exists []. by rewrite app_nil_r. }
    destruct (towire_plain m cctx nm ls Hc Hn Hr) as (c' & -> & Hc' & Hg & Hw).
    cbn [mbind option_bind]. do 3 eexists. split; [done|].
    rewrite length_app. split_and!; [done|by eexists|lia|left].
    split_and!; [done|done| |lia]. exists ls. split; [done|].
    by replace (length m + length (ndata nm) - length m) with (length (ndata nm)) by lia.
  - destruct (Hgf gp go eq_refl) as (n & ls' & k & Hnl & Hd & Hl & Hga & Hgr & Ha & Hw).
    case_bool_decide.
    { exists ISC_R_NOSPACE, m, cctx. split_and!; [done|apply grown_refl| |done|by right].
      exists []. by rewrite app_nil_r. }
    rewrite length_app. case_bool_decide.
    { exists ISC_R_NOSPACE, (m ++ ndata gp), cctx. rewrite length_app.
      split_and!; [done|apply grown_refl|by eexists|lia|by right]. }
    destruct (towire_compressed m cctx nm ls gp go n ls' k) as (c' & -> & Hc' & Hg & Hls);
      try done.
    cbn [mbind option_bind]. do 3 eexists. split; [done|].
    rewrite !length_app, enc16_length in *.
    split_and!; [done|eexists; by rewrite <- app_assoc|lia|left].
    split_and!; [done|done|done|lia].
Qed.

(** What a message is made of: names, and bytes. *)
Inductive put := PutName (nm : name) (nocompress : bool) | PutData (bs : list Z).

Definition put_ok (p : put) : Prop :=
  match p with PutName nm _ => ∃ ls, name_ok nm ls | PutData _ => True end.

(** [mem_tobuffer] ([lib/dns/rdata.c]) checks for room, too. *)
Definition put_step (p : put) (cctx : compress) (cap : nat) (m : mem)
    : option (isc_result * mem * compress) :=
  match p with
  | PutName nm nocompress => dns_name_towire nm nocompress cctx cap m
  | PutData bs =>
      if bool_decide (cap - length m < length bs) then Some (ISC_R_NOSPACE, m, cctx)
      else Some (ISC_R_SUCCESS, m ++ bs, cctx)
  end.

Fixpoint put_all (ps : list put) (cctx : compress) (cap : nat) (m : mem)
    : option (isc_result * mem * compress) :=
  match ps with
  | [] => Some (ISC_R_SUCCESS, m, cctx)
  | p :: ps =>
      '(r, m, cctx) ← put_step p cctx cap m;
      if bool_decide (r = ISC_R_SUCCESS) then put_all ps cctx cap m
      else Some (r, m, cctx)
  end.

Lemma put_step_ok p cctx cap m :
  ctx_ok m cctx → put_ok p → length m <= cap → (Z.of_nat cap < 2 ^ 16)%Z →
  ∃ r m' cctx', put_step p cctx cap m = Some (r, m', cctx') ∧
    grown (Z.of_nat (length m)) cctx cctx' ∧ (∃ x, m' = m ++ x) ∧ length m' <= cap ∧
    (r = ISC_R_SUCCESS ∧ ctx_ok m' cctx' ∨ r = ISC_R_NOSPACE ∧ cctx' = cctx).
Proof.
  intros Hc Hp Hm Hcap. destruct p as [nm nocompress|bs]; cbn in Hp.
  - destruct Hp as [ls Hn].
    destruct (towire_ok m cctx nm ls nocompress cap) as (r & m' & c' & E & Hg & Hx & Hl & Hr);
      try done. exists r, m', c'. split_and!; try done. tauto.
  - cbn [put_step]. case_bool_decide.
    + exists ISC_R_NOSPACE, m, cctx. split_and!; [done|apply grown_refl| |done|by right].
      exists []. by rewrite app_nil_r.
    + exists ISC_R_SUCCESS, (m ++ bs), cctx. rewrite length_app.
      split_and!; [done|apply grown_refl|by eexists|lia|left]. split; [done|].
      by apply ctx_ok_app.
Qed.

Lemma grown_lower lo lo' c c' : (lo' <= lo)%Z → grown lo c c' → grown lo' c c'.
Proof.
  intros Hl (G & S & new & T & L & F & C). split_and!; [done..|]. exists new.
  split_and!; [done..| |done]. eapply Forall_impl; [exact F|]. intros nodes Hn.
  eapply Forall_impl; [exact Hn|]. cbn. lia.
Qed.

Lemma put_all_ok ps cctx cap m :
  ctx_ok m cctx → Forall put_ok ps → length m <= cap → (Z.of_nat cap < 2 ^ 16)%Z →
  ∃ r m' cctx', put_all ps cctx cap m = Some (r, m', cctx') ∧
    grown (Z.of_nat (length m)) cctx cctx' ∧ (∃ x, m' = m ++ x) ∧ length m' <= cap ∧
    (r = ISC_R_SUCCESS ∧ ctx_ok m' cctx' ∨ r = ISC_R_NOSPACE).
Proof.
  intros Hc Hp Hm Hcap. revert cctx m Hc Hm. induction Hp as [|p ps Hp _ IH];
    intros cctx m Hc Hm.
  { exists ISC_R_SUCCESS, m, cctx. split_and!; [done|apply grown_refl| |done|by left].
    exists []. by rewrite app_nil_r. }
  destruct (put_step_ok p cctx cap m) as (r & m1 & c1 & E & Hg & [x ->] & Hl & Hr); try done.
  cbn [put_all]. rewrite E. cbn [mbind option_bind].
  destruct Hr as [[-> Hc1]|[-> ->]]; (rewrite bool_decide_true by done) ||
    (rewrite bool_decide_false by done).
  - destruct (IH c1 (m ++ x)) as (r & m2 & c2 & E2 & Hg2 & [y ->] & Hl2 & Hr2); try done.
    exists r, ((m ++ x) ++ y), c2. split_and!; try done.
    + eapply grown_trans; [exact Hg|]. eapply grown_lower; [|exact Hg2].
      rewrite length_app. lia.
    + exists (x ++ y). by rewrite app_assoc.
  - do 3 eexists. split_and!; [done|done|by eexists|done|by right].
Qed.

Lemma rollback_puts m cctx cctx' :
  ctx_ok m cctx → grown (Z.of_nat (length m)) cctx cctx' →
  dns_compress_rollback cctx' (Z.of_nat (length m)) = cctx.
Proof.
  intros Hc Hg. apply rollback_grown; [|done]. apply Forall_lookup. intros h nodes Hn.
  apply Forall_forall. intros nd Hd. apply (no_offset _ _ _ _ (cx_nodes _ _ Hc h nodes nd Hn Hd)).
Qed.

(** C29: writing a name into a message. If the context knows only names that
    the message has ([ctx_ok]), [dns_name_towire] of a well-formed absolute
    name never fails an assertion or overruns the buffer: it either
    appends an encoding of the name that is no longer than the name, all of
    whose pointers lead to names already in the message, and the context
    is right for the longer message; or it reports [ISC_R_NOSPACE] and
    leaves the context alone. No element of [initialnodes] that is in use
    is overwritten, whatever allocations fail. *)
Theorem towire_spec m cctx nm ls nocompress cap :
  ctx_ok m cctx → name_ok nm ls → length m <= cap → (Z.of_nat cap < 2 ^ 16)%Z →
  ∃ r x cctx', dns_name_towire nm nocompress cctx cap m = Some (r, m ++ x, cctx') ∧
    length (m ++ x) <= cap ∧
    (r = ISC_R_SUCCESS ∧ ctx_ok (m ++ x) cctx' ∧ length x <= length (ndata nm) ∧
       (∃ ls', alike (sensitive cctx) ls ls' ∧
          wire_at true (m ++ x) (length m) (length m) ls' (length x)) ∨
     r = ISC_R_NOSPACE ∧ cctx' = cctx).
Proof.
  intros Hc Hn Hm Hcap.
  destruct (towire_ok m cctx nm ls nocompress cap) as (r & m' & c' & E & _ & [x ->] & Hl & Hr);
    try done.
  exists r, x, c'. split_and!; [done..|].
  replace (length (m ++ x) - length m) with (length x) in Hr by (rewrite length_app; lia).
  tauto.
Qed.

(** C30: a name written by [dns_name_towire] is read back by
    [dns_name_fromwire], whatever follows in the message: the same name if
    the context compares case-sensitively, and the same up to case
    otherwise, using exactly the bytes that were written. *)
Theorem wire_roundtrip m cctx nm ls nocompress cap m' cctx' rest :
  ctx_ok m cctx → name_ok nm ls → length m <= cap → (Z.of_nat cap < 2 ^ 16)%Z →
  dns_name_towire nm nocompress cctx cap m = Some (ISC_R_SUCCESS, m', cctx') →
  bytes_ok (m' ++ rest) →
  ∃ ls', alike (sensitive cctx) ls ls' ∧
    dns_name_fromwire (m' ++ rest) (length m) true false DNS_NAME_MAXWIRE =
      Some (inr (name_of ls', length m' - length m)).
Proof.
  intros Hc Hn Hm Hcap E Hbm.
  destruct (towire_ok m cctx nm ls nocompress cap) as (r & m2 & c2 & E2 & _ & [x Hx] & _ & Hr);
    try done. rewrite E in E2. injection E2 as <- <- <-.
  destruct Hr as [(_ & _ & (ls' & Ha & Hw) & _)|[? _]]; [|done].
  exists ls'. split; [done|]. apply (wire_at_app _ _ rest) in Hw.
  destruct Hn as [Hn _]. pose proof (lo_max _ (nr_ok _ _ Hn)) as Hmax.
  rewrite (alike_size _ _ _ Ha) in Hmax.
  destruct (fromwire_ok (m' ++ rest) (length m) true false DNS_NAME_MAXWIRE) as (r & -> & Hr);
    [done|rewrite Hx, !length_app; lia|].
  destruct r as [e|[n used]].
  - destruct Hr as [_ Hno]. destruct (Hno _ _ Hw) as [_ Hlt]. lia.
  - destruct Hr as (ls2 & Hw2 & _ & -> & _).
    destruct (wire_at_det _ _ _ _ _ _ Hw Hw2) as [-> ->].
    by rewrite lower_labels_if_false.
Qed.

(** Rolling back. After any names and data have been written behind
    the message [m], successfully or not, [dns_compress_rollback] to the
    length of [m] restores the context exactly: the buckets, the count and
    with it the free elements of [initialnodes]; and [m] itself is
    untouched. *)
Theorem rollback_restores m cctx ps cap :
  ctx_ok m cctx → Forall put_ok ps → length m <= cap → (Z.of_nat cap < 2 ^ 16)%Z →
  ∃ r m' cctx', put_all ps cctx cap m = Some (r, m', cctx') ∧
    take (length m) m' = m ∧
    dns_compress_rollback cctx' (u16 (Z.of_nat (length m))) = cctx.
Proof.
  intros Hc Hp Hm Hcap.
  destruct (put_all_ok ps cctx cap m) as (r & m' & c' & E & Hg & [x ->] & _); try done.
  exists r, (m ++ x), c'. split_and!; [done|by rewrite take_app_length|].
  rewrite u16_small by lia. by eapply rollback_puts.
Qed.
End messages.
