(* ===== verification/Slab.v ===== *)
(** * Rdata slabs: layout, invariant and iteration

    The data structure of [lib/dns/rdataslab.c] in the configuration the load
    balancer needs ([DNS_RDATASET_FIXED] = 1, no [LB_LOCKING]): a record
    count, a table of offsets in load order, and the records, each with its
    length, its index in the table and its bytes.

    [slab_at] is the invariant: which records are in the slab, in load order
    and in physical order. The iterator methods [rdataset_first],
    [rdataset_next], [rdataset_current] and [rdataset_count] are the ones
    the load balancer changed to walk the offset table; [slab_iterates]
    shows that they visit the records in load order. The class
    [RdatasetMethods] is the method table of [dns_rdataset_t]
    ([lib/dns/include/dns/rdataset.h]) that clients program against. *)
From S2P Require Import Prelude Qsort Rdata.

(** ** Rdataset methods *)

Class RdatasetMethods (St : Type) := {
  dns_rdataset_count : St → option Z;
  dns_rdataset_first : St → option (isc_result * St);
  dns_rdataset_next : St → option (isc_result * St);
  dns_rdataset_current : St → option rdata;
  dns_rdataset_type : St → Z }.

(** [rds_from res s l]: a [for] loop over the rdataset that holds result
    [res] in state [s] goes on to visit [l], and then ends. *)
Inductive rds_from `{RdatasetMethods St} : isc_result → St → list rdata → Prop :=
  | rds_nomore s : rds_from ISC_R_NOMORE s []
  | rds_more s r res s' l :
      dns_rdataset_current s = Some r → dns_rdataset_next s = Some (res, s') →
      rds_from res s' l → rds_from ISC_R_SUCCESS s (r :: l).

(** The rdataset promises to its clients that it holds the rdata [l]. *)
Definition rds_yields `{RdatasetMethods St} (s : St) (l : list rdata) : Prop :=
  dns_rdataset_count s = Some (Z.of_nat (length l)) ∧
  ∃ res s', dns_rdataset_first s = Some (res, s') ∧ rds_from res s' l.

(** ** Slab-backed rdatasets

    [private3] is the start of the slab proper in its region, [private5] the
    cursor ([None] is [NULL]), [privateuint4] the number of records beyond
    the cursor. *)
Record rdataset := Rdataset {
  rs_class : Z; rs_type : Z; rs_covers : Z; rs_ttl : Z; rs_trust : Z;
  rs_attributes : Z;
  private3 : nat; privateuint4 : Z; private5 : option nat }.

Definition set_cursor (rs : rdataset) (left : Z) (cur : option nat) : rdataset :=
  {| rs_class := rs_class rs; rs_type := rs_type rs; rs_covers := rs_covers rs;
     rs_ttl := rs_ttl rs; rs_trust := rs_trust rs;
     rs_attributes := rs_attributes rs; private3 := private3 rs;
     privateuint4 := left; private5 := cur |}.

Definition DNS_RDATASLAB_OFFLINE : Z := 1.

Definition is_rrsig (type : Z) : bool := bool_decide (type = dns_rdatatype_rrsig).

Definition dns_rdataslab_tordataset (slab reservelen : nat)
    (rdclass rdtype covers ttl : Z) : rdataset :=
  {| rs_class := rdclass; rs_type := rdtype; rs_covers := covers;
     rs_ttl := ttl; rs_trust := 0;
     rs_attributes := 0; private3 := slab + reservelen;
     privateuint4 := 0; private5 := None |}.

Definition rdataset_first (m : mem) (rs : rdataset)
    : option (isc_result * rdataset) :=
  let raw := private3 rs in
  count ← rd16 m raw;
  if bool_decide (count = 0%Z) then
    Some (ISC_R_NOMORE, set_cursor rs (privateuint4 rs) None)
  else
    offset ← rd32 m (raw + 2);
    Some (ISC_R_SUCCESS,
          set_cursor rs (u32 (count - 1)) (Some (raw + Z.to_nat offset))).

Definition rdataset_next (m : mem) (rs : rdataset)
    : option (isc_result * rdataset) :=
  let count := privateuint4 rs in
  if bool_decide (count = 0%Z) then Some (ISC_R_NOMORE, rs)
  else
    let raw := private3 rs in
    orig_count ← rd16 m raw;
    let current := u32 (orig_count - count) in
    offset ← rd32 m (raw + Z.to_nat (u32 (2 + current * 4)));
    Some (ISC_R_SUCCESS,
          set_cursor rs (u32 (count - 1)) (Some (raw + Z.to_nat offset))).

(** A [NULL] cursor fails the [REQUIRE]. *)
Definition rdataset_current (m : mem) (rs : rdataset) : option rdata :=
  raw ← private5 rs;
  length ← rd16 m raw;
  _index ← rd16 m (raw + 2);
  let raw := raw + 4 in
  '(flags, length, raw) ←
    (if is_rrsig (rs_type rs) then
       b ← m !! raw;
       Some (if bool_decide (Z.land b DNS_RDATASLAB_OFFLINE ≠ 0%Z)
             then DNS_RDATA_OFFLINE else 0%Z, u32 (length - 1), raw + 1)
     else Some (0%Z, length, raw));
  base ← mread m raw (Z.to_nat length);
  let rdata := dns_rdata_fromregion (rs_class rs) (rs_type rs) base in
  Some (Rdata (rd_data rdata) (rd_class rdata) (rd_type rdata)
              (Z.lor (rd_flags rdata) flags)).

Definition rdataset_count (m : mem) (rs : rdataset) : option Z :=
  rd16 m (private3 rs).

(** [*target = *source] with the iterator reset. *)
Definition rdataset_clone (source : rdataset) : rdataset := set_cursor source 0 None.

Definition slab_methods : RdatasetMethods (mem * rdataset) := {|
  dns_rdataset_count s := rdataset_count s.1 s.2;
  dns_rdataset_first s := '(res, rs) ← rdataset_first s.1 s.2; Some (res, (s.1, rs));
  dns_rdataset_next s := '(res, rs) ← rdataset_next s.1 s.2; Some (res, (s.1, rs));
  dns_rdataset_current s := rdataset_current s.1 s.2;
  dns_rdataset_type s := rs_type s.2 |}.

(** ** The slab invariant *)

(** A record: its offset from the end of the header, and its bytes (meta
    byte of an RRSIG included). *)
Abbreviation entry := (nat * list Z)%type.

(** Records laid out back to back from offset [start]. *)
Fixpoint layout (start : nat) (ph : list (list Z)) : list entry :=
  match ph with
  | [] => []
  | b :: ph' => (start, b) :: layout (start + 4 + length b) ph'
  end.

(** The offset of the end of a slab whose records are [ph]. *)
Definition recs_size (ph : list (list Z)) : nat :=
  sum_list_with (λ b, 4 + length b) ph.
Definition slab_size (ph : list (list Z)) : nat :=
  2 + 4 * length ph + recs_size ph.

(** A record's length and bytes are in place. *)
Definition rec_at (m : mem) (base : nat) (e : entry) : Prop :=
  (Z.of_nat (length e.2) < 2 ^ 16)%Z ∧
  rd16 m (base + e.1) = Some (Z.of_nat (length e.2)) ∧
  mread m (base + e.1 + 4) (length e.2) = Some e.2.

(** The slab at [base] holds the records [lo], in load order, and their
    bytes are [ph], in physical order. *)
Record slab_at (m : mem) (base : nat) (lo : list entry) (ph : list (list Z)) : Prop := {
  sl_count : rd16 m base = Some (Z.of_nat (length lo));
  sl_max : (Z.of_nat (length lo) < 2 ^ 16)%Z;
  sl_phys : lo ≡ₚ layout (2 + 4 * length ph) ph;
  sl_tab : ∀ k e, lo !! k = Some e →
    rd32 m (base + 2 + 4 * k) = Some (Z.of_nat e.1);
  sl_idx : ∀ k e, lo !! k = Some e → rd16 m (base + e.1 + 2) = Some (Z.of_nat k);
  sl_rec : ∀ e, e ∈ lo → rec_at m base e;
  sl_small : (Z.of_nat (slab_size ph) < 2 ^ 32)%Z;
  sl_fits : base + slab_size ph <= length m }.

(** The invariant, decided. *)
Definition slab_atb (m : mem) (base : nat) (lo : list entry) (ph : list (list Z)) : bool :=
  bool_decide (rd16 m base = Some (Z.of_nat (length lo))) &&
  bool_decide (Z.of_nat (length lo) < 2 ^ 16)%Z &&
  bool_decide (lo ≡ₚ layout (2 + 4 * length ph) ph) &&
  forallb (λ p : nat * entry,
    bool_decide (rd32 m (base + 2 + 4 * p.1) = Some (Z.of_nat p.2.1)) &&
    bool_decide (rd16 m (base + p.2.1 + 2) = Some (Z.of_nat p.1)) &&
    bool_decide (Z.of_nat (length p.2.2) < 2 ^ 16)%Z &&
    bool_decide (rd16 m (base + p.2.1) = Some (Z.of_nat (length p.2.2))) &&
    bool_decide (mread m (base + p.2.1 + 4) (length p.2.2) = Some p.2.2)) (imap pair lo) &&
  bool_decide (Z.of_nat (slab_size ph) < 2 ^ 32)%Z &&
  bool_decide (base + slab_size ph <= length m).

Lemma slab_atb_ok m base lo ph : slab_atb m base lo ph = true → slab_at m base lo ph.
Proof.
  unfold slab_atb. rewrite !andb_true_iff, !bool_decide_eq_true.
  intros [[[[[H1 H2] H3] H4] H5] H6]. rewrite forallb_forall in H4.
  assert (∀ k e, lo !! k = Some e →
    rd32 m (base + 2 + 4 * k) = Some (Z.of_nat e.1) ∧
    rd16 m (base + e.1 + 2) = Some (Z.of_nat k) ∧ rec_at m base e) as Hk.
  { intros k e He. specialize (H4 (k, e)). rewrite !andb_true_iff, !bool_decide_eq_true in H4.
    destruct H4 as [[[[? ?] ?] ?] ?]; [|by split_and!].
    apply list_elem_of_In, elem_of_lookup_imap. by exists k, e. }
  split; try done; [by intros k e [? _]%Hk|by intros k e (_ & ? & _)%Hk|].
  intros e [k Hke]%list_elem_of_lookup. by apply Hk in Hke as (_ & _ & ?).
Qed.

(** The rdata that a record of a slab stands for. *)
Definition body_rdata (rdclass type : Z) (b : list Z) : rdata :=
  if is_rrsig type then
    Rdata (tail b) rdclass type
      (if bool_decide (Z.land (default 0%Z (head b)) DNS_RDATASLAB_OFFLINE ≠ 0%Z)
       then DNS_RDATA_OFFLINE else 0%Z)
  else Rdata b rdclass type 0.

(** A record of an RRSIG slab has its meta byte. *)
Definition body_ok (type : Z) (b : list Z) : Prop :=
  is_rrsig type = true → b ≠ [].

(** ** Layout facts *)

Lemma layout_length start ph : length (layout start ph) = length ph.
Proof. revert start. induction ph; intros; cbn; auto. Qed.

Lemma layout_snd start ph : (layout start ph).*2 = ph.
Proof. revert start. induction ph; intros; cbn; f_equal; auto. Qed.

Lemma recs_size_cons b ph : recs_size (b :: ph) = 4 + length b + recs_size ph.
Proof. done. Qed.

Lemma recs_size_app ph1 ph2 : recs_size (ph1 ++ ph2) = recs_size ph1 + recs_size ph2.
Proof. apply sum_list_with_app. Qed.

Lemma layout_bounds start ph e :
  e ∈ layout start ph →
  start <= e.1 ∧ e.1 + 4 + length e.2 <= start + recs_size ph.
Proof.
  revert start. induction ph as [|b ph IH]; intros start; [set_solver|].
  rewrite recs_size_cons. cbn [layout].
  rewrite elem_of_cons. intros [->|H]; cbn [fst snd]; [lia|]. apply IH in H. lia.
Qed.

(** Distinct records do not overlap. *)
Definition disj (a b : entry) : Prop :=
  a.1 + 4 + length a.2 <= b.1 ∨ b.1 + 4 + length b.2 <= a.1.

Lemma layout_NoDup start ph : NoDup (layout start ph).*1.
Proof.
  revert start. induction ph as [|b ph IH]; intros start; cbn; [constructor|].
  constructor; [|apply IH]. rewrite list_elem_of_fmap. intros (e & He & Hin).
  apply layout_bounds in Hin. lia.
Qed.

Lemma layout_disj start ph a b :
  a ∈ layout start ph → b ∈ layout start ph → a ≠ b → disj a b.
Proof.
  unfold disj. revert start. induction ph as [|c ph IH]; intros start; cbn;
    [set_solver|].
  rewrite !elem_of_cons. intros [->|Ha] [->|Hb] ?; cbn; try done.
  - apply layout_bounds in Hb. lia.
  - apply layout_bounds in Ha. lia.
  - by eapply IH.
Qed.

Lemma layout_app start ph1 ph2 :
  layout start (ph1 ++ ph2) = layout start ph1 ++ layout (start + recs_size ph1) ph2.
Proof.
  revert start. induction ph1 as [|b ph IH]; intros start; cbn [layout app].
  - cbn. by rewrite Nat.add_0_r.
  - rewrite IH, recs_size_cons.
    by replace (start + (4 + length b + recs_size ph))
      with (start + 4 + length b + recs_size ph) by lia.
Qed.

Section entries.
Context {lo : list entry} {ph : list (list Z)}.
Context (Hphys : lo ≡ₚ layout (2 + 4 * length ph) ph).

Lemma entries_length : length lo = length ph.
Proof. by rewrite Hphys, layout_length. Qed.

Lemma entries_bounds e :
  e ∈ lo → 2 + 4 * length ph <= e.1 ∧ e.1 + 4 + length e.2 <= slab_size ph.
Proof. rewrite Hphys. intros H%layout_bounds. unfold slab_size. lia. Qed.

Lemma entries_disj i j a b :
  lo !! i = Some a → lo !! j = Some b → i ≠ j → disj a b.
Proof.
  intros Ha Hb Hij. eapply (layout_disj _ ph).
  - rewrite <- Hphys. by eapply list_elem_of_lookup_2.
  - rewrite <- Hphys. by eapply list_elem_of_lookup_2.
  - intros ->. apply Hij.
    assert (NoDup lo.*1) as Hnd by (rewrite Hphys; apply layout_NoDup).
    eapply NoDup_lookup; [exact Hnd|..]; rewrite list_lookup_fmap.
    + by rewrite Ha.
    + by rewrite Hb.
Qed.

Lemma entries_bodies : lo.*2 ≡ₚ ph.
Proof. rewrite Hphys. by rewrite layout_snd. Qed.
End entries.

(** ** Iteration *)

(** Fetching a record that is in place. *)
Lemma rec_current m base rs e v :
  private5 rs = Some (base + e.1) → rec_at m base e →
  rd16 m (base + e.1 + 2) = Some v → body_ok (rs_type rs) e.2 →
  rdataset_current m rs = Some (body_rdata (rs_class rs) (rs_type rs) e.2).
Proof.
  intros Hcur (Hlen & Hr & Hbody) Hv Hok.
  unfold rdataset_current. rewrite Hcur. cbn. rewrite Hr, Hv. cbn.
  unfold body_rdata, body_ok in *. destruct (is_rrsig (rs_type rs)).
  - destruct (e.2) as [|b0 bs] eqn:Eb; [naive_solver|]. cbn [length] in *.
    pose proof (mread_lookup _ _ _ _ 0 Hbody ltac:(lia)) as H0.
    rewrite Nat.add_0_r in H0. rewrite <- H0. cbn.
    rewrite u32_small by lia.
    replace (Z.to_nat _) with (length bs) by lia.
    erewrite (mread_intro m (_ + 4 + 1) _ bs); cbn; [done|done| |].
    + intros i b Hi. pose proof (lookup_lt_Some _ _ _ Hi).
      pose proof (mread_lookup _ _ _ _ (S i) Hbody ltac:(lia)) as Hi'.
      rewrite lookup_cons, Hi in Hi'. rewrite Hi'. f_equal. lia.
    + apply mread_bound in Hbody. lia.
  - cbn. by rewrite Nat2Z.id, Hbody.
Qed.


Section iteration.
#[local] Existing Instance slab_methods.
Context {m : mem} {base : nat} {lo : list entry} {ph : list (list Z)}.
Context (Hs : slab_at m base lo ph).

(** A rdataset over this slab whose cursor is on record [k]. *)
Definition at_record (rs : rdataset) (k : nat) : Prop :=
  private3 rs = base ∧
  privateuint4 rs = (Z.of_nat (length lo) - Z.of_nat k - 1)%Z ∧
  ∃ e, lo !! k = Some e ∧ private5 rs = Some (base + e.1).

Lemma rdataset_first_spec rs :
  private3 rs = base →
  rdataset_first m rs = Some
    (match lo !! 0 with
     | None => (ISC_R_NOMORE, set_cursor rs (privateuint4 rs) None)
     | Some e => (ISC_R_SUCCESS,
         set_cursor rs (Z.of_nat (length lo) - 1) (Some (base + e.1)))
     end).
Proof.
  intros Hb. unfold rdataset_first. rewrite Hb, (sl_count _ _ _ _ Hs).
  pose proof (sl_max _ _ _ _ Hs). cbn.
  destruct (lo !! 0) as [e|] eqn:E.
  - pose proof (lookup_lt_Some _ _ _ E). rewrite bool_decide_false by lia.
    pose proof (sl_tab _ _ _ _ Hs 0 e E) as Ht.
    replace (base + 2 + 4 * 0) with (base + 2) in Ht by lia. rewrite Ht.
    cbn. rewrite Nat2Z.id, u32_small by lia. done.
  - apply lookup_ge_None in E. by rewrite bool_decide_true by lia.
Qed.

Lemma rdataset_next_spec rs k :
  at_record rs k →
  rdataset_next m rs = Some
    (match lo !! S k with
     | None => (ISC_R_NOMORE, rs)
     | Some e => (ISC_R_SUCCESS,
         set_cursor rs (Z.of_nat (length lo) - Z.of_nat k - 2)
                    (Some (base + e.1)))
     end).
Proof.
  intros (Hb & Hc & e & He & _). unfold rdataset_next.
  pose proof (sl_max _ _ _ _ Hs). pose proof (lookup_lt_Some _ _ _ He).
  rewrite Hc, Hb. case_bool_decide.
  - by rewrite (lookup_ge_None_2 lo) by lia.
  - rewrite (sl_count _ _ _ _ Hs). cbn.
    destruct (lookup_lt_is_Some_2 lo (S k)) as [e' He']; [lia|]. rewrite He'.
    replace (Z.of_nat (length lo) - (Z.of_nat (length lo) - Z.of_nat k - 1))%Z
      with (Z.of_nat (S k)) by lia.
    rewrite (u32_small (Z.of_nat (S k))), (u32_small (2 + _)) by lia.
    replace (base + Z.to_nat (2 + Z.of_nat (S k) * 4)) with (base + 2 + 4 * S k) by lia.
    rewrite (sl_tab _ _ _ _ Hs _ _ He'). cbn. rewrite Nat2Z.id.
    rewrite u32_small by lia.
    by replace (Z.of_nat (length lo) - Z.of_nat k - 1 - 1)%Z
      with (Z.of_nat (length lo) - Z.of_nat k - 2)%Z by lia.
Qed.

Lemma rdataset_current_spec rs k e :
  at_record rs k → lo !! k = Some e → body_ok (rs_type rs) e.2 →
  rdataset_current m rs = Some (body_rdata (rs_class rs) (rs_type rs) e.2).
Proof.
  intros (Hb & Hc & e' & He' & Hcur) He Hok.
  assert (e' = e) as -> by congruence.
  eapply rec_current; [done| |by apply (sl_idx _ _ _ _ Hs)|done].
  apply (sl_rec _ _ _ _ Hs). by eapply list_elem_of_lookup_2.
Qed.

Lemma at_record_next rs k e :
  at_record rs k → lo !! S k = Some e →
  at_record (set_cursor rs (Z.of_nat (length lo) - Z.of_nat k - 2)
                        (Some (base + e.1))) (S k).
Proof.
  intros (Hb & Hc & _) He. split; [done|]. split; [cbn; lia|]. by exists e.
Qed.

Lemma slab_rds_from rs k :
  at_record rs k → Forall (body_ok (rs_type rs)) lo.*2 →
  rds_from ISC_R_SUCCESS (m, rs)
    (body_rdata (rs_class rs) (rs_type rs) <$> drop k lo.*2).
Proof.
  intros Hr Hok. remember (length lo - k) as n eqn:Hn.
  revert rs k Hr Hok Hn. induction n as [n IH] using lt_wf_ind.
  intros rs k Hr Hok ->.
  destruct Hr as (Hb & Hc & e & He & Hcur).
  assert (at_record rs k) as Hr by (repeat split; eauto).
  pose proof (lookup_lt_Some _ _ _ He).
  assert (lo.*2 !! k = Some e.2) as He2 by (rewrite list_lookup_fmap; by rewrite He).
  rewrite (drop_S _ _ _ He2). cbn [fmap list_fmap].
  assert (body_ok (rs_type rs) e.2) 
    by (rewrite Forall_lookup in Hok; by eapply Hok).
  pose proof (rdataset_next_spec _ _ Hr) as Hnext.
  assert (rdataset_current m rs = Some (body_rdata (rs_class rs) (rs_type rs) e.2))
    by (by eapply rdataset_current_spec).
  destruct (lo !! S k) as [e'|] eqn:He'.
  - eapply rds_more; [done|cbn; by rewrite Hnext|].
    match goal with |- rds_from _ (_, ?rs') _ =>
      refine (IH (length lo - S k) _ rs' (S k) _ Hok eq_refl) end; [lia|].
    by apply at_record_next.
  - eapply rds_more; [done|cbn; by rewrite Hnext|].
    apply lookup_ge_None in He'.
    rewrite drop_ge by (rewrite length_fmap; lia). constructor.
Qed.

(** A slab-backed rdataset keeps the promise of the method interface: it
    yields the slab's records in load order. *)
Lemma slab_yields rs :
  private3 rs = base → Forall (body_ok (rs_type rs)) lo.*2 →
  rds_yields (m, rs) (body_rdata (rs_class rs) (rs_type rs) <$> lo.*2).
Proof.
  intros Hb Hok. split.
  - cbn. unfold rdataset_count. rewrite Hb, (sl_count _ _ _ _ Hs).
    by rewrite !length_fmap.
  - cbn. rewrite (rdataset_first_spec _ Hb).
    destruct (lo !! 0) as [e|] eqn:E; (do 2 eexists; split; [done|]).
    + change lo.*2 with (drop 0 lo.*2).
      match goal with |- rds_from _ (_, ?rs') _ =>
        apply (slab_rds_from rs' 0); [|done] end.
      split; [done|]. split; [cbn; lia|]. by exists e.
    + apply lookup_ge_None in E. destruct lo; [constructor|cbn in E; lia].
Qed.
End iteration.

(** ** The promise of a slab's method table

    [lib/dns/rbtdb.c] has method tables of its own over the same slabs
    ([RbtdbRdataset]), one of which can also walk the records in physical
    order. What the clients in [SlabTransform] and [Profiler] rely on: the
    rdataset yields the records in an order that depends on the table, and
    its methods only move the cursor. *)
Class SlabMethods (I : RdatasetMethods (mem * rdataset)) := {
  order_of : rdataset → list entry → list (list Z) → list (list Z);
  order_of_perm : ∀ rs lo ph, lo.*2 ≡ₚ ph → order_of rs lo ph ≡ₚ ph;
  order_of_same : ∀ rs lo ph, lo.*2 = ph → order_of rs lo ph = ph;
  sm_first : ∀ s res s', dns_rdataset_first s = Some (res, s') →
    s'.1 = s.1 ∧ set_cursor s'.2 0 None = set_cursor s.2 0 None;
  sm_next : ∀ s res s', dns_rdataset_next s = Some (res, s') →
    s'.1 = s.1 ∧ set_cursor s'.2 0 None = set_cursor s.2 0 None;
  sm_yields : ∀ m rs lo ph, slab_at m (private3 rs) lo ph →
    Forall (body_ok (rs_type rs)) lo.*2 →
    rds_yields (m, rs) (body_rdata (rs_class rs) (rs_type rs) <$> order_of rs lo ph) }.

(** The table of [lib/dns/rdataslab.c] keeps it, with the load order. *)
#[export] Program Instance slab_methods_promise : SlabMethods slab_methods := {|
  order_of rs lo ph := lo.*2 |}.
Next Obligation. done. Qed.
Next Obligation. done. Qed.
Next Obligation.
  cbn. intros [m rs] res s' Hf. apply bind_Some in Hf as ([r rs'] & Hf & [= <- <-]).
  split; [done|]. cbn in *. unfold rdataset_first in Hf.
  apply bind_Some in Hf as (count & _ & Hf). case_bool_decide.
  - by injection Hf as <- <-.
  - by apply bind_Some in Hf as (? & _ & [= <- <-]).
Qed.
Next Obligation.
  cbn. intros [m rs] res s' Hf. apply bind_Some in Hf as ([r rs'] & Hf & [= <- <-]).
  split; [done|]. cbn in *. unfold rdataset_next in Hf.
  case_bool_decide; [by injection Hf as <- <-|].
  by apply bind_Some in Hf as (? & _ & (? & _ & [= <- <-])%bind_Some).
Qed.
Next Obligation. intros m rs lo ph Hs. by apply (slab_yields Hs). Qed.

(** ** A slab with two addresses

    [1.2.3.4] and [5.6.7.8], in this order, with no reserved bytes; used
    where a theorem is about a concrete run. *)
Definition two_addresses : mem :=
  [0;2; 0;0;0;10; 0;0;0;18; 0;4;0;0;1;2;3;4; 0;4;0;1;5;6;7;8]%Z.

Definition two_bodies : list (list Z) := [[1;2;3;4]; [5;6;7;8]]%Z.
Definition two_entries : list entry := layout 10 two_bodies.

Definition two_rdataset : rdataset :=
  dns_rdataslab_tordataset 0 0 dns_rdataclass_in dns_rdatatype_a 0 300.

Lemma two_slab : slab_at two_addresses 0 two_entries two_bodies.
Proof. apply slab_atb_ok. by vm_compute. Qed.
