(* ===== verification/SlabIndex.v ===== *)
(** * Writing a slab's load order

    [fillin_offsets] and the load balancer's [dns_rdataslab_sort_fromrdataset]
    ([lib/dns/rdataslab.c]) both write the offset table of a slab and the
    matching index of each record. [fill_index_slab] is the lemma they
    share: over records that are in place, writing the offsets of a
    permutation of the records gives a slab with that load order. *)
From S2P Require Import Prelude Qsort Rdata Slab.

(** [tab[i] = v] *)
Definition tab_set (tab : list Z) (i : nat) (v : Z) : option (list Z) :=
  if bool_decide (i < length tab) then Some (<[i := v]> tab) else None.

(** ** Operations *)

(** The loop over [offsettable], with [j] the next free index. *)
Fixpoint fillin_offsets (m : mem) (offsetbase : nat) (offsettable : list Z) (j : nat)
    : option mem :=
  match offsettable with
  | [] => Some m
  | off :: offsettable' =>
      if bool_decide (off = 0%Z) then fillin_offsets m offsetbase offsettable' j
      else
        m ← mwrite m (offsetbase + (j * 4 + 2)) (enc32 off);
        m ← mwrite m (offsetbase + Z.to_nat off + 2) (enc16 (Z.of_nat j));
        fillin_offsets m offsetbase offsettable' (S j)
  end.

(** [ns_profiler_a_node_t] ([lib/dns/include/dns/types.h]); the loads are the
    bytes of three [float]s, which [Profiler] interprets. *)
Record a_node := ANode {
  an_addr : list Z; an_offset : Z;
  an_cpu_load : list Z; an_io_load : list Z; an_net_load : list Z }.

(** The loop of [dns_rdataslab_sort_fromrdataset] from index [i], [n] rounds
    left; [addr_stats[i]] out of range is a fault. *)
Fixpoint sort_loop (m : mem) (base : nat) (addr_stats : list a_node) (i n : nat)
    : option mem :=
  match n with
  | O => Some m
  | S n =>
      a ← addr_stats !! i;
      m ← mwrite m (base + 2 + 4 * i) (enc32 (an_offset a));
      m ← mwrite m (base + Z.to_nat (an_offset a) + 2) (enc16 (Z.of_nat i));
      sort_loop m base addr_stats (S i) n
  end.

Definition dns_rdataslab_sort_fromrdataset (m : mem) (rs : rdataset)
    (addr_stats : list a_node) : option (isc_result * mem * rdataset) :=
  let base := private3 rs in
  nitems ← rd16 m base;
  m ← sort_loop m base addr_stats 0 (Z.to_nat nitems);
  Some (ISC_R_SUCCESS, m, set_cursor rs 0 None).

(** ** The common write *)

Fixpoint fill_index (m : mem) (base : nat) (j : nat) (offs : list nat) : option mem :=
  match offs with
  | [] => Some m
  | o :: offs' =>
      m ← mwrite m (base + 2 + 4 * j) (enc32 (Z.of_nat o));
      m ← mwrite m (base + o + 2) (enc16 (Z.of_nat j));
      fill_index m base (S j) offs'
  end.

Lemma fillin_offsets_index m base tab j :
  Forall (λ v, 0 <= v)%Z tab →
  fillin_offsets m base tab j =
  fill_index m base j (Z.to_nat <$> filter (λ v, v ≠ 0%Z) tab).
Proof.
  revert m j. induction tab as [|v tab IH]; intros m j; [done|].
  intros [Hv Ht]%Forall_cons. cbn [fillin_offsets]. case_bool_decide as Hz.
  - rewrite filter_cons_False by naive_solver. by apply IH.
  - rewrite filter_cons_True by done. cbn [fmap list_fmap fill_index].
    rewrite Z2Nat.id by done.
    replace (base + (j * 4 + 2)) with (base + 2 + 4 * j) by lia.
    destruct (mwrite m _ (enc32 v)) as [m1|]; cbn; [|done].
    destruct (mwrite m1 _ _) as [m2|]; cbn; [|done]. by apply IH.
Qed.

Lemma sort_loop_index m base stats offs i n :
  an_offset <$> take n (drop i stats) = Z.of_nat <$> offs → length offs = n →
  sort_loop m base stats i n = fill_index m base i offs.
Proof.
  revert m i offs. induction n as [|n IH]; intros m i [|o offs] Ho Hn; try done.
  destruct (stats !! i) as [a|] eqn:Ha; cycle 1.
  { apply lookup_ge_None in Ha. by rewrite drop_ge in Ho. }
  rewrite (drop_S _ _ _ Ha) in Ho. cbn in Ho. injection Ho as Ho1 Ho2.
  cbn [sort_loop fill_index]. rewrite Ha. cbn. rewrite Ho1, Nat2Z.id.
  destruct (mwrite m _ _) as [m1|]; cbn; [|done].
  destruct (mwrite m1 _ _) as [m2|]; cbn; [|done].
  apply IH; [done|cbn in Hn; lia].
Qed.

Lemma rec_at_frame m m' base p bs e :
  mwrite m p bs = Some m' →
  p + length bs <= base + e.1 ∨ base + e.1 + 4 + length e.2 <= p ∨
  (base + e.1 + 2 <= p ∧ p + length bs <= base + e.1 + 4) →
  rec_at m base e → rec_at m' base e.
Proof.
  intros Hw Hp (H1 & H2 & H3). split; [done|]. split.
  - rewrite (rd16_frame _ _ _ _ _ Hw) by lia. done.
  - rewrite (mread_frame _ _ _ _ _ _ Hw) by lia. done.
Qed.

Section fill_index.
Context (m0 : mem) (base : nat) (lo : list entry) (ph : list (list Z)).
Context (Hphys : lo ≡ₚ layout (2 + 4 * length ph) ph).
Context (Hmax : (Z.of_nat (length lo) < 2 ^ 16)%Z).
Context (Hsmall : (Z.of_nat (slab_size ph) < 2 ^ 32)%Z).
Context (Hfits : base + slab_size ph <= length m0).

(** The state after [k] rounds. *)
Record filled (k : nat) (m : mem) : Prop := {
  fl_length : length m = length m0;
  fl_count : rd16 m base = rd16 m0 base;
  fl_rec : ∀ e, e ∈ lo → rec_at m base e;
  fl_tab : ∀ j e, j < k → lo !! j = Some e →
    rd32 m (base + 2 + 4 * j) = Some (Z.of_nat e.1) ∧
    rd16 m (base + e.1 + 2) = Some (Z.of_nat j);
  fl_frame : ∀ i, i < base ∨ base + slab_size ph <= i → m !! i = m0 !! i;
  fl_bytes : bytes_ok m0 → bytes_ok m }.

Lemma filled_step k m e :
  filled k m → lo !! k = Some e →
  ∃ m1 m2, mwrite m (base + 2 + 4 * k) (enc32 (Z.of_nat e.1)) = Some m1 ∧
    mwrite m1 (base + e.1 + 2) (enc16 (Z.of_nat k)) = Some m2 ∧ filled (S k) m2.
Proof.
  intros Hf He. pose proof (lookup_lt_Some _ _ _ He) as Hk.
  pose proof (entries_length Hphys) as Hlen.
  pose proof (list_elem_of_lookup_2 _ _ _ He) as Hin.
  pose proof (entries_bounds Hphys e Hin) as Hb.
  pose proof (fl_length _ _ Hf) as Hl.
  destruct (mwrite_is_Some m (base + 2 + 4 * k) (enc32 (Z.of_nat e.1)))
    as [m1 Hw1]; [rewrite enc32_length; lia|].
  pose proof (mwrite_length _ _ _ _ Hw1) as Hl1.
  destruct (mwrite_is_Some m1 (base + e.1 + 2) (enc16 (Z.of_nat k)))
    as [m2 Hw2]; [rewrite enc16_length; lia|].
  exists m1, m2. split; [done|]. split; [done|].
  pose proof (mwrite_length _ _ _ _ Hw2) as Hl2.
  pose proof (enc32_length (Z.of_nat e.1)). pose proof (enc16_length (Z.of_nat k)).
  split; [lia|..].
  - rewrite (rd16_frame _ _ _ _ _ Hw2), (rd16_frame _ _ _ _ _ Hw1) by lia.
    apply (fl_count _ _ Hf).
  - intros e' He'. pose proof (entries_bounds Hphys e' He') as Hb'.
    eapply rec_at_frame; [exact Hw2| |eapply rec_at_frame; [exact Hw1|lia|]].
    + destruct (list_elem_of_lookup_1 _ _ He') as [j Hj].
      destruct (decide (j = k)) as [->|Hjk].
      * assert (e' = e) as -> by congruence. right; right. lia.
      * pose proof (entries_disj Hphys j k e' e Hj He Hjk) as [?|?]; lia.
    + by apply (fl_rec _ _ Hf).
  - intros j e' Hj He'.
    pose proof (entries_bounds Hphys e' (list_elem_of_lookup_2 _ _ _ He')) as Hb'.
    destruct (decide (j = k)) as [->|Hjk].
    + assert (e' = e) as -> by congruence. split.
      * rewrite (rd32_frame _ _ _ _ _ Hw2) by lia.
        eapply rd32_mwrite; [exact Hw1|]. lia.
      * eapply rd16_mwrite; [exact Hw2|]. lia.
    + pose proof (entries_disj Hphys j k e' e He' He Hjk) as Hd.
      destruct (fl_tab _ _ Hf j e') as [Ht1 Ht2]; [lia|done|]. unfold disj in Hd.
      rewrite (rd32_frame _ _ _ _ _ Hw2), (rd32_frame _ _ _ _ _ Hw1) by lia.
      rewrite (rd16_frame _ _ _ _ _ Hw2), (rd16_frame _ _ _ _ _ Hw1) by lia.
      done.
  - intros i Hi. unfold slab_size in Hi.
    rewrite (mwrite_frame _ _ _ _ _ Hw2), (mwrite_frame _ _ _ _ _ Hw1)
      by (unfold slab_size in *; lia).
    by apply (fl_frame _ _ Hf).
  - intros Hby. eapply mwrite_bytes_ok; [exact Hw2| |auto with bytes].
    eapply mwrite_bytes_ok; [exact Hw1| |auto with bytes].
    by apply (fl_bytes _ _ Hf).
Qed.

Lemma fill_index_filled k m :
  filled k m → k <= length lo →
  ∃ m', fill_index m base k (drop k lo).*1 = Some m' ∧ filled (length lo) m'.
Proof.
  remember (length lo - k) as n eqn:Hn. revert k m Hn.
  induction n as [|n IH]; intros k m Hn Hf Hk.
  - assert (k = length lo) as -> by lia. rewrite drop_all. by exists m.
  - destruct (lookup_lt_is_Some_2 lo k) as [e He]; [lia|].
    rewrite (drop_S _ _ _ He). cbn [fmap list_fmap fill_index].
    destruct (filled_step k m e Hf He) as (m1 & m2 & Hw1 & Hw2 & Hf').
    rewrite Hw1. cbn. rewrite Hw2. cbn. apply IH; [lia|done|lia].
Qed.

(** Over records in place, writing the offsets of [lo] yields a slab with
    load order [lo]; nothing outside the slab changes. *)
Lemma fill_index_slab :
  rd16 m0 base = Some (Z.of_nat (length lo)) →
  (∀ e, e ∈ lo → rec_at m0 base e) →
  ∃ m', fill_index m0 base 0 lo.*1 = Some m' ∧ slab_at m' base lo ph ∧
    length m' = length m0 ∧
    (∀ i, i < base ∨ base + slab_size ph <= i → m' !! i = m0 !! i) ∧
    (bytes_ok m0 → bytes_ok m').
Proof.
  intros Hc Hr.
  destruct (fill_index_filled 0 m0) as (m' & Hm' & Hf); [|lia|].
  { split; try done. lia. }
  exists m'. split; [done|]. split; [|by destruct Hf].
  split; try done.
  - by rewrite (fl_count _ _ Hf).
  - intros k e He. apply (fl_tab _ _ Hf); [by eapply lookup_lt_Some|done].
  - intros k e He. apply (fl_tab _ _ Hf); [by eapply lookup_lt_Some|done].
  - apply (fl_rec _ _ Hf).
  - by rewrite (fl_length _ _ Hf).
Qed.
End fill_index.

(** ** Sorting a slab *)

(** The load balancer's sort: given, for the records of a slab, their
    offsets in any other order, it makes that order the load order. The
    records themselves and everything outside the slab stay as they were. *)
Lemma sort_slab m rs lo lo' ph stats :
  slab_at m (private3 rs) lo ph → lo' ≡ₚ lo →
  an_offset <$> take (length lo) stats = Z.of_nat <$> lo'.*1 →
  ∃ m', dns_rdataslab_sort_fromrdataset m rs stats =
          Some (ISC_R_SUCCESS, m', set_cursor rs 0 None) ∧
    slab_at m' (private3 rs) lo' ph ∧ length m' = length m ∧
    (∀ i, i < private3 rs ∨ private3 rs + slab_size ph <= i → m' !! i = m !! i) ∧
    (bytes_ok m → bytes_ok m').
Proof.
  intros Hs Hp Hst. unfold dns_rdataslab_sort_fromrdataset.
  rewrite (sl_count _ _ _ _ Hs). cbn. rewrite Nat2Z.id.
  assert (length lo' = length lo) as Hl by (by rewrite Hp).
  rewrite (sort_loop_index _ _ _ lo'.*1) by (rewrite ?length_fmap; done).
  destruct (fill_index_slab m (private3 rs) lo' ph) as (m' & -> & ? & ? & ? & ?).
  - rewrite Hp. apply (sl_phys _ _ _ _ Hs).
  - rewrite Hl. apply (sl_max _ _ _ _ Hs).
  - apply (sl_small _ _ _ _ Hs).
  - apply (sl_fits _ _ _ _ Hs).
  - rewrite Hl. apply (sl_count _ _ _ _ Hs).
  - intros e. rewrite Hp. apply (sl_rec _ _ _ _ Hs).
  - exists m'. done.
Qed.

(** C4: the load balancer's sort. Given a slab, and an array that holds the
    offsets of the slab's records in some other order [lo'],
    [dns_rdataslab_sort_fromrdataset] succeeds, touches only bytes of the
    slab, and leaves a slab of the same records in the same places whose
    load order is [lo']: a reader that starts afterwards is given the records
    in exactly that order, whatever the type. *)
Theorem sort_spec m rs lo lo' ph stats :
  slab_at m (private3 rs) lo ph → lo' ≡ₚ lo →
  an_offset <$> take (length lo) stats = Z.of_nat <$> lo'.*1 →
  ∃ m' rs', dns_rdataslab_sort_fromrdataset m rs stats = Some (ISC_R_SUCCESS, m', rs') ∧
    slab_at m' (private3 rs) lo' ph ∧ length m' = length m ∧
    (∀ i, i < private3 rs ∨ private3 rs + slab_size ph <= i → m' !! i = m !! i) ∧
    (Forall (body_ok (rs_type rs)) lo.*2 →
     @rds_yields _ slab_methods (m', rs')
       (body_rdata (rs_class rs) (rs_type rs) <$> lo'.*2)).
Proof.
  intros Hs Hp Ho. destruct (sort_slab m rs lo lo' ph stats Hs Hp Ho)
    as (m' & E & Hs' & Hl & Hfr & _).
  exists m', (set_cursor rs 0 None). split_and!; [exact E|exact Hs'|done|done|].
  intros Hok. apply (slab_yields Hs' (set_cursor rs 0 None) eq_refl).
  cbn. by rewrite Hp.
Qed.
