(* ===== verification/SlabBuild.v ===== *)
(** * Building slabs

    [dns_rdataslab_fromrdataset] ([lib/dns/rdataslab.c]) builds a slab from
    any rdataset: it saves the rdata, sorts them in DNSSEC order, removes
    duplicates keeping the least load order, and writes records and offset
    table. [dns_rdataslab_transformrdataset], added by the load balancer,
    rewrites a slab in place with its records in load order and reports each
    record's offset in the profiler's array.

    [dedup_spec] and [write_rdatas_spec] are the specifications of the two
    loops; [fromrdataset_spec] and [transform_slab] put them together. *)
From S2P Require Import Prelude Qsort Rdata Slab SlabIndex.

(** ** Operations *)

(** [struct xrdata]; [xr_null] is [rdata.data == NULL]. *)
Record xrdata := XRdata { xr_rdata : rdata; xr_null : bool; xr_order : nat }.

Section build.
Context `{CompareSwitch} `{Qsort}.
(** The rdataset's methods are called through its method table. *)
Context {St : Type} `{RdatasetMethods St}.
(** [dns_rdatatype_issingleton] reads the attributes in the generated
    [code.h]. *)
Context (dns_rdatatype_issingleton : Z → bool).
(** [isc_mem_get]: the [k]-th allocation of the call, for so many elements,
    with whatever the memory holds, or [NULL]. *)
Context (isc_mem_get : nat → Z → option mem).

Definition compare_rdata (x1 x2 : xrdata) : Z :=
  dns_rdata_compare (xr_rdata x1) (xr_rdata x2).

(** The loop that saves the rdata: [n] is [nalloc - i]. *)
Fixpoint save_rdatas (n i : nat) (result : isc_result) (s : St)
    : option (isc_result * nat * list xrdata * St) :=
  match n with
  | O => Some (result, i, [], s)
  | S n =>
      if bool_decide (result = ISC_R_SUCCESS) then
        r ← dns_rdataset_current s;
        '(result, s) ← dns_rdataset_next s;
        '(result, i', x, s) ← save_rdatas n (S i) result s;
        Some (result, i', XRdata r false i :: x, s)
      else Some (result, i, [], s)
  end.

Definition set_null (x : xrdata) : xrdata :=
  XRdata (Rdata [] (rd_class (xr_rdata x)) (rd_type (xr_rdata x))
                (rd_flags (xr_rdata x))) true (xr_order x).

Definition xr_length (x : xrdata) : Z := Z.of_nat (length (rd_data (xr_rdata x))).

(** The duplicate removal loop; [prev] is [x[i-1]], [rest] is [x[i..]]. *)
Fixpoint dedup_loop (type : Z) (prev : xrdata) (rest : list xrdata)
    (nitems buflen : Z) : list xrdata * Z * Z :=
  match rest with
  | [] => ([prev], nitems, buflen)
  | cur :: rest' =>
      if bool_decide (compare_rdata prev cur = 0%Z) then
        let cur := if bool_decide (xr_order prev < xr_order cur)
                   then XRdata (xr_rdata cur) (xr_null cur) (xr_order prev)
                   else cur in
        let '(x, nitems, buflen) :=
          dedup_loop type cur rest' (u32 (nitems - 1)) buflen in
        (set_null prev :: x, nitems, buflen)
      else
        let buflen := u32 (buflen + (8 + xr_length prev)) in
        let buflen := if is_rrsig type then u32 (buflen + 1) else buflen in
        let '(x, nitems, buflen) := dedup_loop type cur rest' nitems buflen in
        (prev :: x, nitems, buflen)
  end.

(** The loop that copies the data; [raw] is [rawbuf]. *)
Fixpoint write_rdatas (type : Z) (m : mem) (offsetbase raw : nat) (tab : list Z)
    (x : list xrdata) : option (mem * nat * list Z) :=
  match x with
  | [] => Some (m, raw, tab)
  | xi :: x' =>
      if xr_null xi then write_rdatas type m offsetbase raw tab x'
      else
        tab ← tab_set tab (xr_order xi) (Z.of_nat (raw - offsetbase));
        let length := u32 (xr_length xi + if is_rrsig type then 1 else 0) in
        m ← mwrite m raw (enc16 length);
        let raw := raw + 4 in
        '(m, raw) ←
          (if is_rrsig type then
             old ← m !! raw;
             m ← mwrite m raw
                   [Z.lor old (if bool_decide
                                    (Z.land (rd_flags (xr_rdata xi)) DNS_RDATA_OFFLINE ≠ 0%Z)
                                then DNS_RDATASLAB_OFFLINE else 0)];
             Some (m, raw + 1)
           else Some (m, raw));
        m ← mwrite m raw (rd_data (xr_rdata xi));
        write_rdatas type m offsetbase (raw + List.length (rd_data (xr_rdata xi))) tab x'
  end.

Definition dedup (type : Z) (x : list xrdata) (nalloc buflen : Z)
    : list xrdata * Z * Z :=
  match x with
  | [] => ([], nalloc, buflen)
  | prev :: rest => dedup_loop type prev rest nalloc buflen
  end.

(** The length of the last item is added after the loop. *)
Definition add_last (type : Z) (x : list xrdata) (buflen : Z) : Z :=
  let buflen := match last x with
                | Some xl => u32 (buflen + (8 + xr_length xl))
                | None => buflen
                end in
  if is_rrsig type then u32 (buflen + 1) else buflen.

(** [None] is a fault; the region is [Some] when it has been set. *)
Definition dns_rdataslab_fromrdataset (rdataset : St) (reservelen : nat)
    : option (isc_result * option mem) :=
  let type := dns_rdataset_type rdataset in
  let buflen := u32 (Z.of_nat reservelen + 2) in
  nalloc ← dns_rdataset_count rdataset;
  if bool_decide (nalloc = 0%Z ∧ type ≠ 0%Z) then Some (ISC_R_FAILURE, None)
  else if bool_decide (nalloc > 0xffff)%Z then Some (ISC_R_NOSPACE, None)
  else if bool_decide (nalloc ≠ 0%Z ∧ isc_mem_get 0 nalloc = None)
  then Some (ISC_R_NOMEMORY, None)
  else
    '(result, s) ← dns_rdataset_first rdataset;
    if bool_decide (result ≠ ISC_R_SUCCESS ∧ result ≠ ISC_R_NOMORE)
    then Some (result, None)
    else
      '(result, i, x, _) ← save_rdatas (Z.to_nat nalloc) 0 result s;
      if bool_decide (result ≠ ISC_R_NOMORE) then Some (result, None)
      else if bool_decide (Z.of_nat i ≠ nalloc) then Some (ISC_R_FAILURE, None)
      else
        let x := qsort compare_rdata x in
        let '(x, nitems, buflen) := dedup type x nalloc buflen in
        let buflen := add_last type x buflen in
        if bool_decide (nitems > 1)%Z && dns_rdatatype_issingleton type
        then Some (DNS_R_SINGLETON, None)
        else match isc_mem_get 1 buflen, isc_mem_get 2 nalloc with
             | Some m, Some _ =>
                 let offsettable := replicate (Z.to_nat nalloc) 0%Z in
                 m ← mwrite m reservelen (enc16 nitems);
                 '(m, _, offsettable) ←
                   write_rdatas type m reservelen
                     (reservelen + 2 + Z.to_nat nitems * 4) offsettable x;
                 m ← fillin_offsets m reservelen offsettable 0;
                 Some (ISC_R_SUCCESS, Some m)
             | _, _ => Some (ISC_R_NOMEMORY, None)
             end.
End build.

(** ** The in-place transformation *)

Definition set_offset (a : a_node) (off : Z) : a_node :=
  ANode (an_addr a) off (an_cpu_load a) (an_io_load a) (an_net_load a).

(** The copying loop from index [i]: besides the records it fills the
    temporary offset table and the profiler's array. *)
Fixpoint transform_loop (type : Z) (m : mem) (offsetbase raw : nat)
    (tab : list Z) (stats : list a_node) (i : nat) (x : list xrdata)
    : option (mem * list Z * list a_node) :=
  match x with
  | [] => Some (m, tab, stats)
  | xi :: x' =>
      if xr_null xi then transform_loop type m offsetbase raw tab stats (S i) x'
      else
        let off := Z.of_nat (raw - offsetbase) in
        tab ← tab_set tab i off;
        a ← stats !! i;
        let stats := <[i := set_offset a off]> stats in
        let length := u32 (xr_length xi + if is_rrsig type then 1 else 0) in
        m ← mwrite m raw (enc16 length);
        let raw := raw + 4 in
        '(m, raw) ←
          (if is_rrsig type then
             old ← m !! raw;
             m ← mwrite m raw
                   [Z.lor old (if bool_decide
                                    (Z.land (rd_flags (xr_rdata xi)) DNS_RDATA_OFFLINE ≠ 0%Z)
                                then DNS_RDATASLAB_OFFLINE else 0)];
             Some (m, raw + 1)
           else Some (m, raw));
        m ← mwrite m raw (rd_data (xr_rdata xi));
        transform_loop type m offsetbase (raw + List.length (rd_data (xr_rdata xi)))
          tab stats (S i) x'
  end.

(** The [malloc] calls are not checked by the code; they succeed here. *)
Definition dns_rdataslab_transformrdataset `{RdatasetMethods (mem * rdataset)}
    (m : mem) (rs : rdataset) (addr_stats : list a_node)
    : option (isc_result * mem * rdataset * list a_node) :=
  nitems ← dns_rdataset_count (m, rs);
  if bool_decide (nitems = 0%Z) then Some (ISC_R_SUCCESS, m, rs, addr_stats)
  else
    '(result, s) ← dns_rdataset_first (m, rs);
    if bool_decide (result ≠ ISC_R_SUCCESS ∧ result ≠ ISC_R_NOMORE)
    then Some (result, m, s.2, addr_stats)
    else
      '(result, i, x, s) ← save_rdatas (Z.to_nat nitems) 0 result s;
      if bool_decide (result ≠ ISC_R_NOMORE) then Some (result, m, s.2, addr_stats)
      else if bool_decide (Z.of_nat i ≠ nitems)
      then Some (ISC_R_FAILURE, m, s.2, addr_stats)
      else
        let base := private3 rs in
        m ← mwrite m base (enc16 nitems);
        '(m, tab, addr_stats) ←
          transform_loop (rs_type rs) m base (base + 2 + Z.to_nat nitems * 4)
            (replicate (Z.to_nat nitems) 0%Z) addr_stats 0 x;
        m ← fillin_offsets m base tab 0;
        Some (ISC_R_SUCCESS, m, set_cursor s.2 0 None, addr_stats).

(** ** The saving loop *)

(** Rdata numbered from [i]. *)
Definition number (i : nat) (l : list rdata) : list xrdata :=
  imap (λ k r, XRdata r false (i + k)) l.

Lemma number_cons i r l : number i (r :: l) = XRdata r false i :: number (S i) l.
Proof.
  unfold number. cbn. rewrite Nat.add_0_r. f_equal.
  apply imap_ext. intros k x _. cbn. f_equal. lia.
Qed.

Lemma number_length i l : length (number i l) = length l.
Proof. apply length_imap. Qed.

Lemma number_lookup i l k :
  number i l !! k = (λ r, XRdata r false (i + k)) <$> l !! k.
Proof. apply list_lookup_imap. Qed.

Lemma number_elem i l x :
  x ∈ number i l ↔ ∃ k, l !! k = Some (xr_rdata x) ∧ x = XRdata (xr_rdata x) false (i + k).
Proof.
  rewrite list_elem_of_lookup. setoid_rewrite number_lookup.
  setoid_rewrite fmap_Some. split.
  - intros (k & r & Hr & ->). by exists k.
  - intros (k & Hr & Hx). exists k, (xr_rdata x). done.
Qed.

Lemma save_rdatas_spec `{RdatasetMethods St} res (s : St) l n i :
  rds_from res s l → length l <= n →
  ∃ s', save_rdatas n i res s = Some
    (if bool_decide (length l = 0) then res else ISC_R_NOMORE,
     i + length l, number i l, s') ∧ (l = [] → res = ISC_R_NOMORE ∧ s' = s).
Proof.
  intros Hf. revert n i. induction Hf as [s|s r res s' l Hc Hn Hf IH]; intros n i Hl.
  - exists s. cbn. rewrite Nat.add_0_r. destruct n; done.
  - destruct n as [|n]; cbn in Hl; [lia|]. rewrite number_cons. cbn [save_rdatas].
    rewrite bool_decide_true by done. rewrite Hc. cbn. rewrite Hn. cbn.
    destruct (IH n (S i)) as (s'' & -> & Hnil); [lia|]. cbn.
    exists s''. split; [|done]. rewrite Nat.add_succ_r.
    case_bool_decide as Hz; [|done]. destruct l; [|done].
    by destruct (Hnil eq_refl) as [-> _].
Qed.

(** A rdataset that yields [l] is saved as [l], in order. *)
Lemma save_rdatas_yields `{RdatasetMethods St} (s0 : St) l :
  rds_yields s0 l →
  dns_rdataset_count s0 = Some (Z.of_nat (length l)) ∧
  ∃ res s s', dns_rdataset_first s0 = Some (res, s) ∧
    (res = ISC_R_SUCCESS ∨ res = ISC_R_NOMORE) ∧
    save_rdatas (length l) 0 res s = Some (ISC_R_NOMORE, length l, number 0 l, s').
Proof.
  intros (Hc & res & s & Hf & Hl). split; [done|].
  destruct (save_rdatas_spec _ _ _ (length l) 0 Hl) as (s' & Hs & Hnil); [done|].
  exists res, s, s'. split; [done|]. split; [inversion Hl; auto|].
  rewrite Hs. cbn. case_bool_decide as Hz; [|done].
  destruct l; [|done]. destruct (Hnil eq_refl) as [-> _]. done.
Qed.

(** ** The duplicate removal loop *)

Definition kept (x : list xrdata) : list xrdata := filter (λ y, xr_null y = false) x.

Section dedup.
Context `{CompareSwitch}.

(** Size of a record in the slab, and what the loop accounts for it
    besides: its slot of the offset table. *)
Definition rec_len (type : Z) (x : xrdata) : nat :=
  4 + length (rd_data (xr_rdata x)) + (if is_rrsig type then 1 else 0).

Definition acc_len (type : Z) (x : list xrdata) : nat :=
  sum_list_with (λ y, 4 + rec_len type y) (kept x).

Record dedup_ok (inp out : list xrdata) : Prop := {
  dd_length : length out = length inp;
  dd_sorted : StronglySorted (λ a b, compare_rdata a b < 0)%Z (kept out);
  dd_from : ∀ k, k ∈ kept out → ∃ y, y ∈ inp ∧ xr_rdata y = xr_rdata k;
  dd_min : ∀ y, y ∈ inp → ∃ k, k ∈ kept out ∧
    compare_rdata y k = 0%Z ∧ xr_order k <= xr_order y;
  dd_order : ∀ k, k ∈ kept out → ∃ y, y ∈ inp ∧
    compare_rdata y k = 0%Z ∧ xr_order k = xr_order y }.
End dedup.

Lemma u32_add_l a b : u32 (u32 a + b) = u32 (a + b).
Proof. unfold u32. by rewrite Zplus_mod_idemp_l. Qed.

Lemma kept_cons_null x l : xr_null x = true → kept (x :: l) = kept l.
Proof. intros Hx. unfold kept. rewrite filter_cons_False by congruence. done. Qed.

Lemma kept_cons_keep x l : xr_null x = false → kept (x :: l) = x :: kept l.
Proof. intros Hx. unfold kept. by rewrite filter_cons_True. Qed.

Section dedup_proof.
Context `{CompareSwitch} (type : Z) (D : list rdata).
Context (Hord : cmp_order_on dns_rdata_compare D).

Definition from_D (x : xrdata) : Prop := xr_rdata x ∈ D ∧ xr_null x = false.

Lemma dedup_ok_null prev cur cur' rest out :
  from_D prev → from_D cur → Forall from_D rest →
  compare_rdata prev cur = 0%Z →
  xr_rdata cur' = xr_rdata cur →
  xr_order cur' = Nat.min (xr_order prev) (xr_order cur) →
  dedup_ok (cur' :: rest) out →
  dedup_ok (prev :: cur :: rest) (set_null prev :: out).
Proof.
  intros Hp Hc Hr Hpc Hrd Hmin [H1 H2 H3 H4 H5].
  assert (∀ k, k ∈ kept out → xr_rdata k ∈ D) as HkD.
  { intros k (y & Hy & <-)%H3. rewrite elem_of_cons in Hy.
    destruct Hy as [->|Hy]; [rewrite Hrd; apply Hc|].
    rewrite Forall_forall in Hr. by apply Hr. }
  assert (∀ k, k ∈ kept out → compare_rdata cur' k = 0%Z →
               compare_rdata prev k = 0%Z) as Htr.
  { unfold compare_rdata in *. rewrite Hrd. intros k Hk Hck.
    eapply (cmp_eq_trans _ D _ (xr_rdata cur)); eauto; [apply Hp|apply Hc]. }
  assert (∀ k, compare_rdata cur' k = compare_rdata cur k) as Hcc
    by (intros k; unfold compare_rdata; by rewrite Hrd).
  split; rewrite ?kept_cons_null by done; [by cbn in *; rewrite H1|done|..].
  - intros k (y & Hy & Hyk)%H3. rewrite elem_of_cons in Hy.
    destruct Hy as [->|Hy]; [exists cur; split; [set_solver|congruence]|].
    exists y. split; [set_solver|done].
  - intros y Hy. rewrite !elem_of_cons in Hy.
    destruct Hy as [->|[->|Hy]].
    + destruct (H4 cur') as (k & ? & ? & ?); [set_solver|].
      exists k. split; [done|]. split; [by apply Htr|lia].
    + destruct (H4 cur') as (k & ? & ? & ?); [set_solver|].
      exists k. rewrite <- Hcc. split; [done|]. split; [done|lia].
    + apply H4. set_solver.
  - intros k Hk. destruct (H5 k Hk) as (y & Hy & Hyk & Ho).
    rewrite elem_of_cons in Hy. destruct Hy as [->|Hy].
    + destruct (Nat.min_spec (xr_order prev) (xr_order cur)) as [[??]|[??]].
      * exists prev. split; [set_solver|]. split; [by apply Htr|lia].
      * exists cur. rewrite <- Hcc. split; [set_solver|]. split; [done|lia].
    + exists y. split; [set_solver|done].
Qed.

Lemma dedup_ok_keep prev cur rest out :
  from_D prev → Forall from_D (cur :: rest) →
  (compare_rdata prev cur < 0)%Z →
  Forall (λ y, cmp_le compare_rdata cur y) rest →
  dedup_ok (cur :: rest) out →
  dedup_ok (prev :: cur :: rest) (prev :: out).
Proof.
  intros Hp Hr Hpc Hs [H1 H2 H3 H4 H5]. rewrite Forall_forall in Hr, Hs.
  pose proof (Hr cur ltac:(set_solver)) as Hc.
  split; rewrite ?kept_cons_keep by apply Hp.
  - by cbn in *; rewrite H1.
  - constructor; [done|]. rewrite Forall_forall. intros k (y & Hy & Hyk)%H3.
    unfold compare_rdata. rewrite <- Hyk.
    destruct (proj1 (elem_of_cons _ _ _) Hy) as [->|Hy']; [done|].
    eapply (cmp_lt_le_trans _ D); [done|apply Hp|apply Hc|by apply Hr|done|].
    by apply Hs.
  - intros k Hk. rewrite elem_of_cons in Hk. destruct Hk as [->|Hk].
    + exists prev. set_solver.
    + destruct (H3 k Hk) as (y & ? & ?). exists y. set_solver.
  - intros y Hy. rewrite elem_of_cons in Hy. destruct Hy as [->|Hy].
    + exists prev. split; [set_solver|]. split; [|done].
      apply (cmp_refl _ _ Hord), Hp.
    + destruct (H4 y Hy) as (k & ? & ? & ?). exists k. set_solver.
  - intros k Hk. rewrite elem_of_cons in Hk. destruct Hk as [->|Hk].
    + exists prev. split; [set_solver|]. split; [|done].
      apply (cmp_refl _ _ Hord), Hp.
    + destruct (H5 k Hk) as (y & ? & ? & ?). exists y. set_solver.
Qed.

Lemma dedup_loop_spec prev rest nitems buflen out ni bl :
  Forall from_D (prev :: rest) →
  StronglySorted (cmp_le compare_rdata) (prev :: rest) →
  (Z.of_nat (length rest) < nitems < 2 ^ 32)%Z → (0 <= buflen < 2 ^ 32)%Z →
  dedup_loop type prev rest nitems buflen = (out, ni, bl) →
  dedup_ok (prev :: rest) out ∧
  ni = (nitems - Z.of_nat (S (length rest)) + Z.of_nat (length (kept out)))%Z ∧
  (∃ kl, last out = Some kl ∧ (0 <= bl < 2 ^ 32)%Z ∧
     u32 (bl + Z.of_nat (4 + rec_len type kl)) =
     u32 (buflen + Z.of_nat (acc_len type out)))%Z.
Proof.
  revert prev nitems buflen out ni bl.
  induction rest as [|cur rest IH]; intros prev nitems buflen out ni bl HD Hs Hn Hb.
  - cbn. intros [= <- <- <-]. apply Forall_cons in HD as [HD _].
    rewrite kept_cons_keep by apply HD. split; [split|split].
    + done.
    + rewrite kept_cons_keep by apply HD. repeat constructor.
    + intros k Hk. rewrite kept_cons_keep in Hk by apply HD. exists k. set_solver.
    + intros y ->%list_elem_of_singleton. exists prev.
      rewrite kept_cons_keep by apply HD. split; [set_solver|].
      split; [|done]. apply (cmp_refl _ _ Hord), HD.
    + intros k Hk. rewrite kept_cons_keep in Hk by apply HD.
      apply list_elem_of_singleton in Hk as ->. exists prev. split; [set_solver|].
      split; [|done]. apply (cmp_refl _ _ Hord), HD.
    + cbn. lia.
    + exists prev. split; [done|]. split; [done|]. unfold acc_len.
      rewrite kept_cons_keep by apply HD. cbn. f_equal. lia.
  - apply Forall_cons in HD as [Hp HD]. pose proof HD as [Hc Hr]%Forall_cons.
    apply StronglySorted_inv in Hs as [Hs Hps].
    apply Forall_cons in Hps as [Hpc Hpr]. cbn [dedup_loop]. cbn [length] in Hn.
    case_bool_decide as Hcmp.
    + set (cur' := if bool_decide (xr_order prev < xr_order cur) then _ else _).
      assert (xr_rdata cur' = xr_rdata cur) as Hrd by (subst cur'; by case_bool_decide).
      assert (xr_null cur' = false) as Hnl
        by (subst cur'; case_bool_decide; apply Hc).
      destruct (dedup_loop type cur' rest _ _) as [[out' ni'] bl'] eqn:E.
      intros [= <- <- <-].
      edestruct IH with (5 := E) as (Hok & Hni & kl & Hkl & Hbl & Hsum).
      * constructor; [|done]. split; [rewrite Hrd; apply Hc|done].
      * apply StronglySorted_inv in Hs as [Hs Hcr]. constructor; [done|].
        unfold cmp_le, compare_rdata in *. by rewrite Hrd.
      * rewrite u32_small; lia.
      * done.
      * split; [|split].
        -- eapply dedup_ok_null; [done|done|done|done|exact Hrd| |exact Hok].
           subst cur'. case_bool_decide; cbn; lia.
        -- rewrite kept_cons_null, Hni, u32_small by (done || lia). cbn. lia.
        -- exists kl. split; [|split; [done|]].
           ++ destruct out'; [done|]. done.
           ++ unfold acc_len. by rewrite kept_cons_null.
    + set (b2 := if is_rrsig type then _ else _).
      assert (b2 = u32 (buflen + Z.of_nat (4 + rec_len type prev)))%Z as Hb2.
      { subst b2. unfold rec_len, xr_length. destruct (is_rrsig type);
          rewrite ?u32_add_l; f_equal; lia. }
      destruct (dedup_loop type cur rest _ _) as [[out' ni'] bl'] eqn:E.
      intros [= <- <- <-].
      edestruct IH with (5 := E) as (Hok & Hni & kl & Hkl & Hbl & Hsum);
        [done|done|lia|rewrite Hb2; apply u32_range|].
      split; [|split].
      * apply dedup_ok_keep; try done.
        -- unfold cmp_le in Hpc. lia.
        -- by apply StronglySorted_inv in Hs as [_ ?].
      * rewrite kept_cons_keep, Hni by apply Hp. cbn. lia.
      * exists kl. split; [|split; [done|]].
        -- destruct out'; [done|]. done.
        -- rewrite Hsum, Hb2, u32_add_l. unfold acc_len.
           rewrite kept_cons_keep by apply Hp. cbn [sum_list_with]. f_equal. lia.
Qed.
End dedup_proof.

(** ** The copying loop *)

(** The bytes a saved rdata may have in the slab: for an RRSIG they start
    with a meta byte, whose offline bit is set if the rdata's is. *)
Definition body_for (type : Z) (x : xrdata) (b : list Z) : Prop :=
  if is_rrsig type then
    ∃ meta, b = meta :: rd_data (xr_rdata x) ∧
      (Z.land (rd_flags (xr_rdata x)) DNS_RDATA_OFFLINE ≠ 0%Z →
       Z.land meta DNS_RDATASLAB_OFFLINE ≠ 0%Z)
  else b = rd_data (xr_rdata x).

Definition recs_len (type : Z) (x : list xrdata) : nat :=
  sum_list_with (rec_len type) (kept x).

Lemma body_for_len type x b : body_for type x b → 4 + length b = rec_len type x.
Proof.
  unfold body_for, rec_len. destruct (is_rrsig type).
  - intros (meta & -> & _). cbn. lia.
  - intros ->. lia.
Qed.

Lemma bodies_size type x bodies :
  Forall2 (body_for type) (kept x) bodies → recs_size bodies = recs_len type x.
Proof.
  unfold recs_len. generalize (kept x). intros k Hk.
  induction Hk as [|y b k bodies Hyb _ IH]; [done|].
  rewrite recs_size_cons, IH. cbn [sum_list_with]. apply body_for_len in Hyb. lia.
Qed.

Lemma rec_at_agree m m' base e :
  length m' = length m →
  (∀ i, base + e.1 <= i < base + e.1 + 4 + length e.2 → m' !! i = m !! i) →
  rec_at m base e → rec_at m' base e.
Proof.
  intros Hl Ha (H1 & H2 & H3). split; [done|]. split.
  - rewrite (rd16_agree m); [done|]. intros. apply Ha. lia.
  - rewrite (mread_agree m); [done|done|]. intros. apply Ha. lia.
Qed.

(** Writing one record. *)
Lemma write_one type m base raw x :
  base <= raw → raw + rec_len type x <= length m →
  (Z.of_nat (rec_len type x) < 2 ^ 16 + 4)%Z →
  ∃ m1 m2 b,
    mwrite m raw (enc16 (u32 (xr_length x + if is_rrsig type then 1 else 0))) = Some m1 ∧
    (if is_rrsig type then
       old ← m1 !! (raw + 4);
       m' ← mwrite m1 (raw + 4)
             [Z.lor old (if bool_decide
                              (Z.land (rd_flags (xr_rdata x)) DNS_RDATA_OFFLINE ≠ 0%Z)
                          then DNS_RDATASLAB_OFFLINE else 0)];
       Some (m', raw + 4 + 1)
     else Some (m1, raw + 4)) = Some m2 ∧
    ∃ m3, mwrite m2.1 m2.2 (rd_data (xr_rdata x)) = Some m3 ∧
      m2.2 + length (rd_data (xr_rdata x)) = raw + rec_len type x ∧
      body_for type x b ∧ length m3 = length m ∧ rec_at m3 base (raw - base, b) ∧
      (∀ i, i < raw ∨ raw + rec_len type x <= i → m3 !! i = m !! i) ∧
      (bytes_ok m → bytes_ok (rd_data (xr_rdata x)) → bytes_ok m3).
Proof.
  intros Hbr Hfit Hlen.
  set (l := u32 (xr_length x + _)).
  assert (l = Z.of_nat (rec_len type x - 4) ∧ (0 <= l < 2 ^ 16)%Z) as [Hl Hl16].
  { subst l. unfold xr_length, rec_len in *. rewrite u32_small;
      destruct (is_rrsig type); lia. }
  destruct (mwrite_is_Some m raw (enc16 l)) as [m1 Hm1];
    [rewrite enc16_length; unfold rec_len in *; lia|].
  pose proof (mwrite_length _ _ _ _ Hm1) as Hl1. pose proof (enc16_length l) as He.
  unfold rec_len, body_for in *. destruct (is_rrsig type).
  - destruct (lookup_lt_is_Some_2 m1 (raw + 4)) as [old Hold]; [lia|].
    set (meta := Z.lor old (if bool_decide
      (Z.land (rd_flags (xr_rdata x)) DNS_RDATA_OFFLINE ≠ 0%Z)
      then DNS_RDATASLAB_OFFLINE else 0)).
    destruct (mwrite_is_Some m1 (raw + 4) [meta]) as [m2 Hm2]; [cbn; lia|].
    pose proof (mwrite_length _ _ _ _ Hm2) as Hl2.
    destruct (mwrite_is_Some m2 (raw + 4 + 1) (rd_data (xr_rdata x))) as [m3 Hm3]; [lia|].
    pose proof (mwrite_length _ _ _ _ Hm3) as Hl3.
    pose proof (mwrite_app _ _ _ _ _ _ Hm2 Hm3) as Hm23. cbn [app] in Hm23.
    exists m1, (m2, raw + 4 + 1), (meta :: rd_data (xr_rdata x)).
    split; [done|]. split; [rewrite Hold; cbn; fold meta; by rewrite Hm2|].
    exists m3. cbn [fst snd]. split; [done|]. split; [lia|]. split.
    { exists meta. split; [done|]. intros Hoff. subst meta.
      rewrite bool_decide_true by done. intros Hz.
      apply (f_equal (λ z, Z.testbit z 0)) in Hz.
      rewrite Z.land_spec, Z.lor_spec, Z.bits_0 in Hz. cbn in Hz.
      by rewrite orb_true_r in Hz. }
    split; [lia|]. split; [|split].
    + cbn [length] in *. split; cbn [fst snd length]; [lia|]. split.
      * replace (base + (raw - base)) with raw by lia.
        rewrite (rd16_frame _ _ _ _ _ Hm23) by lia.
        rewrite (rd16_mwrite _ _ _ _ Hm1) by lia. f_equal. lia.
      * replace (base + (raw - base) + 4) with (raw + 4) by lia.
        by apply (mread_mwrite_same _ _ _ _ Hm23).
    + intros i Hi. cbn [length] in *.
      rewrite (mwrite_frame _ _ _ _ _ Hm23) by (cbn [length]; lia).
      apply (mwrite_frame _ _ _ _ _ Hm1). lia.
    + intros Hby Hd. eapply mwrite_bytes_ok; [exact Hm3| |done].
      assert (bytes_ok m1) as Hb1
        by (eapply mwrite_bytes_ok; [exact Hm1|done|auto with bytes]).
      eapply mwrite_bytes_ok; [exact Hm2|done|].
      constructor; [|done]. rewrite Forall_lookup in Hb1.
      pose proof (Hb1 _ _ Hold) as Ho. subst meta. case_bool_decide.
      * unfold is_byte in *. split; [apply Z.lor_nonneg; unfold DNS_RDATASLAB_OFFLINE; lia|].
        apply Z.log2_lt_cancel. rewrite Z.log2_lor by (unfold DNS_RDATASLAB_OFFLINE; lia).
        change (Z.log2 256) with 8%Z. change (Z.log2 DNS_RDATASLAB_OFFLINE) with 0%Z.
        pose proof (Z.log2_le_mono old 255 ltac:(lia)) as Hlog.
        change (Z.log2 255) with 7%Z in Hlog. lia.
      * by rewrite Z.lor_0_r.
  - destruct (mwrite_is_Some m1 (raw + 4) (rd_data (xr_rdata x))) as [m3 Hm3]; [lia|].
    pose proof (mwrite_length _ _ _ _ Hm3) as Hl3.
    exists m1, (m1, raw + 4), (rd_data (xr_rdata x)). split; [done|]. split; [done|].
    exists m3. cbn [fst snd]. split; [done|]. split; [lia|]. split; [done|].
    split; [lia|]. split; [|split].
    + split; cbn [fst snd length]; [lia|]. split.
      * replace (base + (raw - base)) with raw by lia.
        rewrite (rd16_frame _ _ _ _ _ Hm3) by lia.
        rewrite (rd16_mwrite _ _ _ _ Hm1) by lia. f_equal. lia.
      * replace (base + (raw - base) + 4) with (raw + 4) by lia.
        by apply (mread_mwrite_same _ _ _ _ Hm3).
    + intros i Hi. rewrite (mwrite_frame _ _ _ _ _ Hm3) by lia.
      apply (mwrite_frame _ _ _ _ _ Hm1). lia.
    + intros Hby Hd. eapply mwrite_bytes_ok; [exact Hm3| |done].
      eapply mwrite_bytes_ok; [exact Hm1|done|auto with bytes].
Qed.

Definition tab_fill (tab : list Z) (kvs : list (nat * entry)) : list Z :=
  foldl (λ t p, <[p.1 := Z.of_nat p.2.1]> t) tab kvs.

Lemma write_rdatas_spec type x m base raw tab :
  base <= raw → raw + recs_len type x <= length m →
  Forall (λ y, (Z.of_nat (rec_len type y) < 2 ^ 16 + 4)%Z ∧ xr_order y < length tab)
         (kept x) →
  ∃ m' bodies,
    write_rdatas type m base raw tab x =
      Some (m', raw + recs_size bodies,
            tab_fill tab (zip (xr_order <$> kept x) (layout (raw - base) bodies))) ∧
    Forall2 (body_for type) (kept x) bodies ∧ length m' = length m ∧
    (∀ e, e ∈ layout (raw - base) bodies → rec_at m' base e) ∧
    (∀ i, i < raw ∨ raw + recs_size bodies <= i → m' !! i = m !! i) ∧
    (bytes_ok m → Forall (λ y, bytes_ok (rd_data (xr_rdata y))) (kept x) → bytes_ok m').
Proof.
  revert m raw tab. induction x as [|xi x IH]; intros m raw tab Hbr Hfit Hok.
  { exists m, []. cbn. split; [by rewrite Nat.add_0_r|]. split; [constructor|].
    split; [done|]. split; [set_solver|]. done. }
  cbn [write_rdatas]. destruct (xr_null xi) eqn:Hnull.
  { rewrite kept_cons_null in * by done. unfold recs_len in Hfit.
    rewrite kept_cons_null in Hfit by done. by apply IH. }
  rewrite kept_cons_keep in * by done. unfold recs_len in Hfit.
  rewrite kept_cons_keep in Hfit by done. cbn [sum_list_with] in Hfit.
  apply Forall_cons in Hok as [[Hlen Hord] Hok].
  unfold tab_set. rewrite (bool_decide_true (xr_order xi < length tab)) by done. cbn.
  destruct (write_one type m base raw xi) as
    (m1 & m2 & b & Hm1 & Hm2 & m3 & Hm3 & Hraw & Hb & Hl3 & Hrec & Hfr & Hby);
    [done|lia|done|].
  rewrite Hm1. cbn. rewrite Hm2. cbn. destruct m2 as [m2 raw2]. cbn [fst snd] in *.
  rewrite Hm3. cbn. rewrite Hraw.
  destruct (IH m3 (raw + rec_len type xi) (<[xr_order xi := Z.of_nat (raw - base)]> tab))
    as (m' & bodies & Hw & Hf2 & Hl' & Hrec' & Hfr' & Hby');
    [lia|unfold recs_len; lia|
     eapply Forall_impl; [exact Hok|]; intros y; cbn; by rewrite length_insert|].
  pose proof (body_for_len _ _ _ Hb) as Hbl.
  assert (raw + rec_len type xi - base = raw - base + 4 + length b) as Hoff by lia.
  rewrite Hoff in *.
  exists m', (b :: bodies). rewrite Hw, recs_size_cons. split; [|split; [|split; [|split; [|split]]]].
  - cbn [fmap list_fmap layout zip zip_with tab_fill foldl fst snd].
    do 3 f_equal. lia.
  - by constructor.
  - lia.
  - cbn [layout]. intros e. rewrite elem_of_cons. intros [->|He]; [|by apply Hrec'].
    eapply rec_at_agree; [| |exact Hrec]; [lia|]. cbn. intros i Hi.
    apply Hfr'. lia.
  - intros i Hi. rewrite Hfr' by lia. apply Hfr. lia.
  - intros Hbm [Hb1 Hb2]%Forall_cons. apply Hby'; [|done]. by apply Hby.
Qed.

(** ** The offset table in load order *)

Fixpoint assoc (i : nat) (kvs : list (nat * entry)) : option entry :=
  match kvs with
  | [] => None
  | (k, e) :: kvs' => if bool_decide (k = i) then Some e else assoc i kvs'
  end.

Lemma assoc_Some i kvs e :
  NoDup kvs.*1 → assoc i kvs = Some e ↔ (i, e) ∈ kvs.
Proof.
  induction kvs as [|[k v] kvs IH]; cbn; [set_solver|].
  intros [Hk Hnd]%NoDup_cons. case_bool_decide as Hi.
  - subst k. rewrite elem_of_cons. split; [intros [= <-]; auto|].
    intros [[= <-]|Hin]; [done|]. destruct Hk. apply list_elem_of_fmap.
    by exists (i, e).
  - rewrite IH, elem_of_cons by done. naive_solver.
Qed.

Lemma assoc_None i kvs : assoc i kvs = None ↔ i ∉ kvs.*1.
Proof.
  induction kvs as [|[k v] kvs IH]; cbn; [set_solver|].
  case_bool_decide; set_solver.
Qed.

Definition by_key (n : nat) (kvs : list (nat * entry)) : list entry :=
  omap (λ i, assoc i kvs) (seq 0 n).

Lemma by_key_perm n kvs :
  NoDup kvs.*1 → NoDup kvs.*2 → Forall (λ k, k < n) kvs.*1 → by_key n kvs ≡ₚ kvs.*2.
Proof.
  intros Hk He Hn. unfold by_key. apply NoDup_Permutation; [|done|].
  - assert (∀ s, NoDup s → NoDup (omap (λ i, assoc i kvs) s)) as Ho;
      [|apply Ho, NoDup_seq].
    induction 1 as [|i s Hi Hs IH]; cbn; [constructor|].
    destruct (assoc i kvs) as [e|] eqn:E; [|done]. constructor; [|done].
    rewrite list_elem_of_omap. intros (j & Hj & Hje).
    apply assoc_Some in E; [|done]. apply assoc_Some in Hje; [|done].
    assert (i = j); [|congruence].
    apply list_elem_of_lookup in E as [a Ha]. apply list_elem_of_lookup in Hje as [b Hb].
    assert (a = b) as ->; [|congruence].
    eapply (NoDup_lookup kvs.*2); [done|..]; rewrite list_lookup_fmap.
    + by rewrite Ha.
    + by rewrite Hb.
  - intros e. rewrite list_elem_of_omap, list_elem_of_fmap. split.
    + intros (i & _ & Hi). apply assoc_Some in Hi; [|done]. by exists (i, e).
    + intros ([i e'] & -> & Hin). exists i. split; [|by apply assoc_Some].
      rewrite Forall_forall in Hn. rewrite elem_of_seq.
      assert (i ∈ kvs.*1) as Hi by (apply list_elem_of_fmap; by eexists (_, _)).
      apply Hn in Hi. lia.
Qed.

Lemma tab_fill_length tab kvs : length (tab_fill tab kvs) = length tab.
Proof.
  unfold tab_fill. revert tab. induction kvs as [|p kvs IH]; intros tab; [done|].
  cbn. by rewrite IH, length_insert.
Qed.

Lemma tab_fill_lookup tab kvs i :
  NoDup kvs.*1 → i < length tab →
  tab_fill tab kvs !! i =
  match assoc i kvs with Some e => Some (Z.of_nat e.1) | None => tab !! i end.
Proof.
  unfold tab_fill. revert tab. induction kvs as [|[k e] kvs IH]; intros tab; [done|].
  cbn. intros [Hk Hnd]%NoDup_cons Hi. rewrite IH by (rewrite ?length_insert; done).
  case_bool_decide as Hki.
  - subst k. rewrite (proj2 (assoc_None i kvs)) by done.
    by rewrite list_lookup_insert_eq.
  - by rewrite list_lookup_insert_ne.
Qed.

Lemma omap_fst_filter (f : nat → option entry) s :
  (∀ i e, i ∈ s → f i = Some e → 0 < e.1) →
  Z.to_nat <$> filter (λ v, v ≠ 0%Z)
    ((λ i, match f i with Some e => Z.of_nat e.1 | None => 0%Z end) <$> s) =
  (omap f s).*1.
Proof.
  induction s as [|i s IH]; intros Hp; [done|].
  rewrite fmap_cons. cbn [omap list_omap]. destruct (f i) as [e|] eqn:E.
  - pose proof (Hp i e ltac:(set_solver) E).
    rewrite filter_cons_True by lia. cbn. rewrite Nat2Z.id. f_equal.
    apply IH. intros j e' Hj. apply Hp. set_solver.
  - rewrite filter_cons_False by auto. apply IH. intros j e' Hj. apply Hp. set_solver.
Qed.

(** The non-zero entries of the table are the offsets of the records in the
    order of their keys. *)
Lemma tab_fill_offsets n kvs :
  NoDup kvs.*1 → (∀ e, e ∈ kvs.*2 → 0 < e.1) →
  Z.to_nat <$> filter (λ v, v ≠ 0%Z) (tab_fill (replicate n 0%Z) kvs) =
  (by_key n kvs).*1.
Proof.
  intros Hnd Hpos. unfold by_key. rewrite <- omap_fst_filter.
  - do 2 f_equal. apply list_eq. intros i. rewrite list_lookup_fmap.
    destruct (decide (i < n)) as [Hi|Hi].
    + rewrite tab_fill_lookup by (rewrite ?length_replicate; done).
      rewrite lookup_seq_lt by done. cbn. destruct (assoc i kvs); [done|].
      by rewrite lookup_replicate_2.
    + rewrite lookup_ge_None_2 by (rewrite tab_fill_length, length_replicate; lia).
      by rewrite lookup_seq_ge by lia.
  - intros i e _ He. apply Hpos, list_elem_of_fmap. exists (i, e).
    split; [done|]. by apply assoc_Some.
Qed.

Lemma tab_fill_nonneg tab kvs :
  Forall (λ v, 0 <= v)%Z tab → Forall (λ v, 0 <= v)%Z (tab_fill tab kvs).
Proof.
  unfold tab_fill. revert tab. induction kvs as [|p kvs IH]; intros tab H; [done|].
  cbn. apply IH. apply Forall_insert; [done|lia].
Qed.

(** ** Records and table together *)

(** Records in place and a table of their offsets by key: [fillin_offsets]
    makes it a slab whose load order is the order of the keys. *)
Lemma table_slab m base n kvs bodies :
  rd16 m base = Some (Z.of_nat (length bodies)) →
  (Z.of_nat (length bodies) < 2 ^ 16)%Z →
  NoDup kvs.*1 → Forall (λ k, k < n) kvs.*1 →
  kvs.*2 = layout (2 + 4 * length bodies) bodies →
  (Z.of_nat (slab_size bodies) < 2 ^ 32)%Z →
  base + slab_size bodies <= length m →
  (∀ e, e ∈ layout (2 + 4 * length bodies) bodies → rec_at m base e) →
  ∃ m2, fillin_offsets m base (tab_fill (replicate n 0%Z) kvs) 0 = Some m2 ∧
    slab_at m2 base (by_key n kvs) bodies ∧ length m2 = length m ∧
    (∀ i, i < base ∨ base + slab_size bodies <= i → m2 !! i = m !! i) ∧
    (bytes_ok m → bytes_ok m2).
Proof.
  intros Hcnt Hmax Hnd Hn Hk2 Hsz Hfit Hrec.
  assert (by_key n kvs ≡ₚ layout (2 + 4 * length bodies) bodies) as Hperm.
  { rewrite by_key_perm; [by rewrite Hk2|done| |done].
    rewrite Hk2. apply (NoDup_fmap_1 fst), layout_NoDup. }
  assert (length (by_key n kvs) = length bodies) as Hbk
    by (by rewrite Hperm, layout_length).
  destruct (fill_index_slab m base (by_key n kvs) bodies) as
    (m2 & Hm2 & Hslab & Hl2 & Hfr2 & Hby2); try done; rewrite ?Hbk; try done.
  { intros e. rewrite Hperm. apply Hrec. }
  exists m2. split; [|done].
  rewrite fillin_offsets_index by (apply tab_fill_nonneg, Forall_replicate; lia).
  rewrite tab_fill_offsets; [done|done|].
  intros e. rewrite Hk2. intros He%layout_bounds. lia.
Qed.

(** The slab that the copying loop and [fillin_offsets] leave, for records
    [x] whose orders are distinct: its load order is by [xr_order]. *)
Lemma write_slab type x m base n :
  rd16 m base = Some (Z.of_nat (length (kept x))) →
  (Z.of_nat (length (kept x)) < 2 ^ 16)%Z →
  NoDup (xr_order <$> kept x) →
  Forall (λ y, (Z.of_nat (rec_len type y) < 2 ^ 16 + 4)%Z ∧ xr_order y < n) (kept x) →
  (Z.of_nat (2 + 4 * length (kept x) + recs_len type x) < 2 ^ 32)%Z →
  base + 2 + 4 * length (kept x) + recs_len type x <= length m →
  ∃ m1 m2 bodies raw' tab,
    write_rdatas type m base (base + 2 + 4 * length (kept x)) (replicate n 0%Z) x =
      Some (m1, raw', tab) ∧
    fillin_offsets m1 base tab 0 = Some m2 ∧
    Forall2 (body_for type) (kept x) bodies ∧
    slab_at m2 base
      (by_key n (zip (xr_order <$> kept x) (layout (2 + 4 * length (kept x)) bodies)))
      bodies ∧
    length m2 = length m ∧
    (∀ i, i < base ∨ base + slab_size bodies <= i → m2 !! i = m !! i) ∧
    (bytes_ok m → Forall (λ y, bytes_ok (rd_data (xr_rdata y))) (kept x) → bytes_ok m2).
Proof.
  intros Hcnt Hmax Hnd Hok Hsz Hfit. set (k := length (kept x)) in *.
  destruct (write_rdatas_spec type x m base (base + 2 + 4 * k) (replicate n 0%Z))
    as (m1 & bodies & Hw & Hf2 & Hl1 & Hrec & Hfr & Hby);
    [lia|lia|by rewrite length_replicate|].
  pose proof (bodies_size _ _ _ Hf2) as Hbs. pose proof (Forall2_length _ _ _ Hf2) as Hbl.
  replace (base + 2 + 4 * k - base) with (2 + 4 * k) in * by lia.
  set (kvs := zip (xr_order <$> kept x) (layout (2 + 4 * k) bodies)) in *.
  assert (kvs.*1 = xr_order <$> kept x) as Hk1.
  { subst kvs. apply fst_zip. rewrite length_fmap, layout_length. lia. }
  assert (kvs.*2 = layout (2 + 4 * k) bodies) as Hk2.
  { subst kvs. apply snd_zip. rewrite length_fmap, layout_length. lia. }
  assert (NoDup kvs.*1) as Hnd1 by (by rewrite Hk1).
  assert (slab_size bodies = 2 + 4 * k + recs_len type x) as Hss
    by (unfold slab_size; lia).
  destruct (table_slab m1 base n kvs bodies) as
    (m2 & Hm2 & Hslab & Hl2 & Hfr2 & Hby2); rewrite <- ?Hbl; fold k; try done.
  - rewrite <- Hcnt. apply rd16_agree. intros i Hi. apply Hfr. lia.
  - rewrite Hk1, Forall_fmap. eapply Forall_impl; [exact Hok|]. cbn. naive_solver.
  - by rewrite Hss.
  - lia.
  - exists m1, m2, bodies. do 2 eexists. split; [exact Hw|]. split; [done|].
    split; [done|]. split; [done|]. split; [lia|]. split; [|auto].
    intros i Hi. rewrite Hfr2 by done. apply Hfr. lia.
Qed.
