(* ===== verification/SlabSpec.v ===== *)
(** * What building a slab promises

    The specification of [dns_rdataslab_fromrdataset]: the slab's load order
    is the source order with every rdata that compares equal to an earlier
    one left out ([dedup_first]), and its physical order is the DNSSEC
    order. And of the load balancer's [dns_rdataslab_transformrdataset]: it
    changes neither the rdata nor their load order, and reports the new
    offsets. *)
From S2P Require Import Prelude Qsort Rdata Slab SlabIndex SlabBuild.

(** ** The abstract result *)

Section dedup_first.
Context `{CompareSwitch}.

Definition seen_before (seen : list rdata) (r : rdata) : bool :=
  existsb (λ s, bool_decide (dns_rdata_compare s r = 0%Z)) seen.

(** [l] without the rdata that repeat one of [seen] or an earlier one. *)
Fixpoint dedup_first (seen l : list rdata) : list rdata :=
  match l with
  | [] => []
  | r :: l' => if seen_before seen r then dedup_first (seen ++ [r]) l'
               else r :: dedup_first (seen ++ [r]) l'
  end.

Lemma dedup_first_omap l :
  dedup_first [] l =
  omap (λ i, r ← l !! i; if seen_before (take i l) r then None else Some r)
       (seq 0 (length l)).
Proof.
  assert (∀ k, k <= length l → dedup_first (take k l) (drop k l) =
    omap (λ i, r ← l !! i; if seen_before (take i l) r then None else Some r)
         (seq k (length l - k))) as Hg.
  { intros k Hk. remember (length l - k) as n eqn:Hn. revert k Hk Hn.
    induction n as [|n IH]; intros k Hk Hn.
    - by rewrite drop_ge by lia.
    - destruct (lookup_lt_is_Some_2 l k) as [r Hr]; [lia|].
      rewrite (drop_S _ _ _ Hr). cbn [seq omap list_omap dedup_first].
      rewrite Hr. cbn. rewrite <- (take_S_r _ _ _ Hr), (IH (S k)) by lia.
      by destruct (seen_before (take k l) r). }
  specialize (Hg 0 ltac:(lia)). rewrite Nat.sub_0_r in Hg. exact Hg.
Qed.

Lemma seen_before_take i l r :
  seen_before (take i l) r = true ↔
  ∃ j s, j < i ∧ l !! j = Some s ∧ dns_rdata_compare s r = 0%Z.
Proof.
  unfold seen_before. rewrite existsb_exists. setoid_rewrite bool_decide_eq_true.
  setoid_rewrite <- list_elem_of_In. setoid_rewrite list_elem_of_lookup. split.
  - intros (s & (j & Hj) & Hs). rewrite lookup_take in Hj.
    case_decide; [|done]. eauto.
  - intros (j & s & Hj & Hs & Hc). exists s. split; [|done].
    exists j. by rewrite lookup_take_lt.
Qed.
End dedup_first.

Lemma omap_Forall2 {A B C} (R : B → C → Prop) (f : A → option B) (g : A → option C) s :
  (∀ a, a ∈ s → option_Forall2 R (f a) (g a)) → Forall2 R (omap f s) (omap g s).
Proof.
  induction s as [|a s IH]; intros Hs; [constructor|]. cbn.
  destruct (Hs a) as [b c Hbc|]; [set_solver| |]; [constructor; [done|]|];
    apply IH; intros; apply Hs; set_solver.
Qed.

Lemma StronglySorted_fmap_iff {A B} (f : A → B) (R : B → B → Prop) l :
  StronglySorted R (f <$> l) ↔ StronglySorted (λ a b, R (f a) (f b)) l.
Proof.
  induction l as [|a l IH]; cbn.
  - split; constructor.
  - split; intros [Hs Hf]%StronglySorted_inv; constructor; rewrite ?Forall_fmap in *;
      try done; by apply IH.
Qed.

(** ** The duplicate removal, in terms of the source *)

Section dedup_result.
Context `{DnssecOrder} `{Qsort}.
Context (type : Z) (l : list rdata).
Context (Hord : cmp_order_on dns_rdata_compare l).

Lemma compare_rdata_order x :
  (∀ y, y ∈ x → xr_rdata y ∈ l) → cmp_order_on compare_rdata x.
Proof.
  intros Hx. unfold compare_rdata. split.
  - intros a Ha. apply (cmp_refl _ _ Hord). auto.
  - intros a b Ha Hb. apply (cmp_anti _ _ Hord); auto.
  - intros a b c Ha Hb Hc. apply (cmp_trans _ _ Hord); auto.
Qed.

Lemma number_in i y : y ∈ number i l → xr_rdata y ∈ l ∧ xr_null y = false.
Proof.
  rewrite number_elem. intros (k & Hk & ->). cbn in *.
  split; [by eapply list_elem_of_lookup_2|done].
Qed.

(** The kept items are a sub-multiset of the input. *)
Lemma dedup_loop_sublist prev rest nitems buflen out ni bl :
  Forall (λ y, xr_null y = false) (prev :: rest) →
  dedup_loop type prev rest nitems buflen = (out, ni, bl) →
  sublist (xr_rdata <$> kept out) (xr_rdata <$> prev :: rest).
Proof using.
  revert prev nitems buflen out ni bl.
  induction rest as [|cur rest IH]; intros prev nitems buflen out ni bl Hn.
  - cbn. intros [= <- <- <-]. apply Forall_cons in Hn as [Hn _].
    by rewrite kept_cons_keep by done.
  - apply Forall_cons in Hn as [Hp Hr]. cbn [dedup_loop]. case_bool_decide.
    + set (cur' := if bool_decide (xr_order prev < xr_order cur)
                   then XRdata (xr_rdata cur) (xr_null cur) (xr_order prev)
                   else cur).
      assert (xr_rdata cur' = xr_rdata cur ∧ xr_null cur' = xr_null cur) as [E1 E2]
        by (subst cur'; by case_bool_decide).
      destruct (dedup_loop type cur' rest _ _) as [[out' ni'] bl'] eqn:E.
      intros [= <- <- <-]. rewrite kept_cons_null by done.
      apply IH in E; [|apply Forall_cons in Hr as [??]; constructor; [congruence|done]].
      cbn [fmap list_fmap] in *. rewrite E1 in E. by apply sublist_cons.
    + destruct (dedup_loop type cur rest _ _) as [[out' ni'] bl'] eqn:E.
      intros [= <- <- <-]. rewrite kept_cons_keep by done.
      apply IH in E; [|done]. cbn [fmap list_fmap] in *. by apply sublist_skip.
Qed.

(** The outcome of sorting and duplicate removal for the rdata [l]. *)
Record deduped (out : list xrdata) : Prop := {
  dp_sorted : StronglySorted (λ a b, compare_rdata a b < 0)%Z (kept out);
  dp_from : ∀ k, k ∈ kept out → xr_rdata k ∈ l;
  dp_sub : xr_rdata <$> kept out ⊆+ l;
  dp_min : ∀ i r, l !! i = Some r → ∃ k, k ∈ kept out ∧
    dns_rdata_compare r (xr_rdata k) = 0%Z ∧ xr_order k <= i;
  dp_order : ∀ k, k ∈ kept out → ∃ r, l !! xr_order k = Some r ∧
    dns_rdata_compare r (xr_rdata k) = 0%Z }.

Lemma dedup_deduped nalloc buflen out ni bl :
  l ≠ [] → nalloc = Z.of_nat (length l) → (nalloc < 2 ^ 32)%Z →
  (0 <= buflen < 2 ^ 32)%Z →
  dedup type (qsort compare_rdata (number 0 l)) nalloc buflen = (out, ni, bl) →
  deduped out ∧ ni = Z.of_nat (length (kept out)) ∧
  add_last type out bl = u32 (buflen + Z.of_nat (acc_len type out)).
Proof.
  intros Hne -> Hn Hb. pose proof (qsort_perm _ compare_rdata (number 0 l)) as Hp.
  pose proof (qsort_sorted _ compare_rdata (number 0 l)) as Hs.
  set (x := qsort compare_rdata (number 0 l)) in *.
  assert (∀ y, y ∈ x → y ∈ number 0 l) as Hin by (intros y; by rewrite Hp).
  assert (∀ y, y ∈ x → from_D l y) as HD by (intros y Hy; by apply (number_in 0), Hin).
  assert (length x = length l) as Hlen by (rewrite Hp; apply number_length).
  destruct x as [|prev rest] eqn:Ex; cbn [dedup].
  { destruct l; cbn in Hlen; [done|lia]. }
  intros E. pose proof E as Esub. apply dedup_loop_sublist in Esub;
    [|rewrite Forall_forall; intros y Hy; by apply HD].
  cbn [length] in Hlen.
  eapply (dedup_loop_spec type l Hord) in E as (Hok & Hni & kl & Hkl & Hbl & Hsum);
    [|by rewrite Forall_forall| |lia|done].
  2:{ apply Hs, compare_rdata_order. intros y Hy. by apply (number_in 0). }
  destruct Hok as [H1' H2' H3' H4' H5'].
  split; [split|split].
  - done.
  - intros k Hk. destruct (H3' k Hk) as (y & Hy & <-). by apply HD.
  - etrans; [by apply sublist_submseteq, Esub|]. rewrite Hp.
    replace (xr_rdata <$> number 0 l) with l; [done|].
    apply list_eq. intros i. rewrite list_lookup_fmap, number_lookup.
    by destruct (l !! i).
  - intros i r Hr. destruct (H4' (XRdata r false i)) as (k & Hk & Hc & Ho).
    + rewrite Hp, list_elem_of_lookup. exists i. rewrite number_lookup, Hr. done.
    + exists k. done.
  - intros k Hk. destruct (H5' k Hk) as (y & Hy & Hc & Ho).
    apply Hin, number_elem in Hy as (j & Hj & Hy'). rewrite Hy' in Ho. cbn in Ho.
    exists (xr_rdata y). rewrite Ho. done.
  - rewrite Hni. lia.
  - unfold add_last. rewrite Hkl. rewrite <- Hsum. unfold rec_len, xr_length.
    destruct (is_rrsig type); rewrite ?u32_add_l; f_equal; lia.
Qed.

(** Two kept items with the same order are the same item. *)
Lemma deduped_orders out : deduped out → NoDup (xr_order <$> kept out).
Proof.
  intros Hd. pose proof (dp_sorted _ Hd) as Hs.
  assert (∀ k, k ∈ kept out → ∃ r, l !! xr_order k = Some r ∧
    dns_rdata_compare r (xr_rdata k) = 0%Z) as Ho by apply (dp_order _ Hd).
  pose proof (dp_from _ Hd) as Hf. induction Hs as [|k ks Hs IH Hk]; cbn; [constructor|].
  constructor; [|apply IH; intros; [apply Ho|apply Hf]; set_solver].
  rewrite list_elem_of_fmap. intros (k' & Hkk & Hin).
  destruct (Ho k) as (r & Hr & Hc); [set_solver|].
  destruct (Ho k') as (r' & Hr' & Hc'); [set_solver|].
  assert (r' = r) as -> by congruence.
  pose proof (list_elem_of_lookup_2 _ _ _ Hr) as Hrl.
  rewrite Forall_forall in Hk. specialize (Hk k' Hin). unfold compare_rdata in Hk.
  assert (xr_rdata k ∈ l) as Hkl by (apply Hf; set_solver).
  assert (xr_rdata k' ∈ l) as Hkl' by (apply Hf; set_solver).
  pose proof (cmp_eq_sym _ _ _ _ Hord Hrl Hkl Hc) as Hc2.
  pose proof (cmp_eq_trans _ _ _ _ _ Hord Hkl Hrl Hkl' Hc2 Hc'). lia.
Qed.

(** A kept item with order [i] exists exactly when the [i]-th source rdata
    repeats no earlier one. *)
Lemma deduped_first out i r :
  deduped out → l !! i = Some r →
  (∃ k, k ∈ kept out ∧ xr_order k = i) ↔ seen_before (take i l) r = false.
Proof.
  intros Hd Hr. pose proof (list_elem_of_lookup_2 _ _ _ Hr) as Hrl.
  rewrite <- not_true_iff_false, seen_before_take. split.
  - intros (k & Hk & <-) (j & s & Hj & Hs & Hc).
    pose proof (list_elem_of_lookup_2 _ _ _ Hs) as Hsl.
    destruct (dp_order _ Hd k Hk) as (r' & Hr' & Hrk).
    assert (r' = r) as -> by congruence.
    destruct (dp_min _ Hd j s Hs) as (k' & Hk' & Hc' & Ho).
    assert (k' = k) as ->; [|lia].
    pose proof (dp_from _ Hd _ Hk) as Hkl. pose proof (dp_from _ Hd _ Hk') as Hkl'.
    assert (dns_rdata_compare (xr_rdata k) (xr_rdata k') = 0%Z) as Heq.
    { eapply (cmp_eq_trans _ l _ s); try done; [|by eapply cmp_eq_sym..].
      eapply (cmp_eq_sym _ l); try done. by eapply (cmp_eq_trans _ l _ r). }
    pose proof (dp_sorted _ Hd) as Hso.
    apply list_elem_of_lookup in Hk as [a Ha].
    apply list_elem_of_lookup in Hk' as [b Hb].
    destruct (decide (a = b)) as [->|Hab]; [congruence|].
    assert (dns_rdata_compare (xr_rdata k') (xr_rdata k) = 0%Z)
      by (by eapply (cmp_eq_sym _ l)).
    destruct (decide (a < b)) as [Hlt|Hge].
    + pose proof (StronglySorted_lookup _ _ _ _ _ _ Hso Ha Hb Hlt) as Hc2.
      unfold compare_rdata in Hc2. lia.
    + pose proof (StronglySorted_lookup _ _ _ _ _ _ Hso Hb Ha ltac:(lia)) as Hc2.
      unfold compare_rdata in Hc2. lia.
  - intros Hns. destruct (dp_min _ Hd i r Hr) as (k & Hk & Hc & Ho).
    exists k. split; [done|].
    destruct (dp_order _ Hd k Hk) as (s & Hs & Hsk).
    destruct (decide (xr_order k = i)) as [|Hne]; [done|]. destruct Hns.
    exists (xr_order k), s. split; [lia|]. split; [done|].
    pose proof (list_elem_of_lookup_2 _ _ _ Hs) as Hsl.
    pose proof (dp_from _ Hd _ Hk) as Hkl.
    eapply (cmp_eq_trans _ l _ (xr_rdata k)); try done. by eapply (cmp_eq_sym _ l).
Qed.
End dedup_result.

Lemma sum_list_with_submseteq {A} (f : A → nat) l1 l2 :
  l1 ⊆+ l2 → sum_list_with f l1 <= sum_list_with f l2.
Proof.
  intros (k & Hk)%submseteq_Permutation.
  assert (∀ l l' : list A, l ≡ₚ l' → sum_list_with f l = sum_list_with f l') as Hp
    by (induction 1; cbn; lia).
  rewrite (Hp _ _ Hk), sum_list_with_app. lia.
Qed.

Lemma sum_list_with_le {A} (f g : A → nat) l :
  (∀ a, a ∈ l → f a <= g a) → sum_list_with f l <= sum_list_with g l.
Proof.
  induction l as [|a l IH]; intros Hl; cbn; [lia|].
  pose proof (Hl a ltac:(set_solver)). specialize (IH ltac:(set_solver)). lia.
Qed.

Lemma acc_len_recs type out :
  acc_len type out = 4 * length (kept out) + recs_len type out.
Proof.
  unfold acc_len, recs_len. induction (kept out) as [|k ks IH]; [done|].
  cbn [sum_list_with length]. lia.
Qed.

Lemma acc_len_bound `{CompareSwitch} type l out :
  deduped l out → acc_len type out <= sum_list_with (λ r, 9 + length (rd_data r)) l.
Proof.
  intros Hd. etrans; [|apply (sum_list_with_submseteq _ _ _ (dp_sub _ _ Hd))].
  unfold acc_len. induction (kept out) as [|k ks IH]; [done|].
  cbn [sum_list_with fmap list_fmap]. unfold rec_len at 1. destruct (is_rrsig type); lia.
Qed.

(** ** The promise of [dns_rdataslab_fromrdataset] *)

Section fromrdataset.
Context `{DnssecOrder} `{Qsort} {St : Type} `{RdatasetMethods St}.
Context (issingleton : Z → bool) (isc_mem_get : nat → Z → option mem).

(** Memory is available. *)
Definition alloc_ok : Prop :=
  ∀ k z, ∃ m, isc_mem_get k z = Some m ∧ length m = Z.to_nat z.

(** The comparison looks at class, type and data. *)
Lemma compare_data a a' b b' :
  rd_data a = rd_data a' → rd_class a = rd_class a' → rd_type a = rd_type a' →
  rd_data b = rd_data b' → rd_class b = rd_class b' → rd_type b = rd_type b' →
  dns_rdata_compare a b = dns_rdata_compare a' b'.
Proof.
  intros E1 E2 E3 E4 E5 E6. unfold dns_rdata_compare, dns_rdata_toregion.
  rewrite E1, E2, E3, E4, E5, E6.
  rewrite <- (dnssec_flags a' b' (rd_flags a) (rd_flags b)).
  rewrite <- E1, <- E2, <- E3, <- E4, <- E5, <- E6. by destruct a, b.
Qed.

Lemma body_for_data type c x b :
  body_for type x b → rd_data (body_rdata c type b) = rd_data (xr_rdata x).
Proof.
  unfold body_for, body_rdata. destruct (is_rrsig type); [|by intros ->].
  by intros (meta & -> & _).
Qed.

Lemma body_rdata_class c type b : rd_class (body_rdata c type b) = c.
Proof. unfold body_rdata. by destruct (is_rrsig type). Qed.

Lemma body_rdata_type c type b : rd_type (body_rdata c type b) = type.
Proof. unfold body_rdata. by destruct (is_rrsig type). Qed.

Section result.
Context (c type : Z) (l : list rdata).
Context (Hl : Forall (λ r, rd_class r = c ∧ rd_type r = type) l).

Lemma source_order : cmp_order_on dns_rdata_compare l.
Proof. by apply (dnssec_order c type). Qed.

Context (out : list xrdata) (bodies : list (list Z)).
Context (Hd : deduped l out).
Context (Hf2 : Forall2 (body_for type) (kept out) bodies).

Lemma body_compare k b r :
  k ∈ kept out → body_for type k b → r ∈ l →
  dns_rdata_compare (body_rdata c type b) r = dns_rdata_compare (xr_rdata k) r.
Proof.
  intros Hk Hb Hr. pose proof (dp_from _ _ Hd _ Hk) as Hkl.
  rewrite Forall_forall in Hl. destruct (Hl _ Hkl) as [E1 E2].
  apply compare_data; rewrite ?body_rdata_class, ?body_rdata_type; try done.
  by apply body_for_data.
Qed.

(** The records by order are the source's first occurrences. *)
Lemma bodies_load_order start :
  Forall2 (λ e r, dns_rdata_compare (body_rdata c type e.2) r = 0%Z)
    (by_key (length l) (zip (xr_order <$> kept out) (layout start bodies)))
    (dedup_first [] l).
Proof.
  rewrite dedup_first_omap. unfold by_key. apply omap_Forall2. intros i Hi.
  apply elem_of_seq in Hi. destruct (lookup_lt_is_Some_2 l i) as [r Hr]; [lia|].
  pose proof (Forall2_length _ _ _ Hf2) as Hlen.
  pose proof (deduped_orders _ source_order _ Hd) as Hnd.
  set (kvs := zip _ _).
  assert (kvs.*1 = xr_order <$> kept out) as Hk1.
  { apply fst_zip. rewrite length_fmap, layout_length. lia. }
  assert (NoDup kvs.*1) as Hnd1 by (by rewrite Hk1).
  rewrite Hr. cbn. destruct (assoc i kvs) as [e|] eqn:E.
  - apply assoc_Some in E; [|done].
    apply list_elem_of_lookup in E as [a Ha]. subst kvs.
    apply lookup_zip_with_Some in Ha as (o & e' & [= <- <-] & Ho & He).
    apply list_lookup_fmap_Some in Ho as (k & -> & Hk).
    assert (bodies !! a = Some e.2) as Hb.
    { rewrite <- (layout_snd start bodies), list_lookup_fmap. by rewrite He. }
    pose proof (Forall2_lookup_lr _ _ _ _ _ _ Hf2 Hk Hb) as Hkb.
    pose proof (list_elem_of_lookup_2 _ _ _ Hk) as Hkin.
    rewrite (proj1 (deduped_first _ source_order _ _ _ Hd Hr)) by eauto.
    constructor. pose proof (list_elem_of_lookup_2 _ _ _ Hr) as Hrl.
    rewrite (body_compare k) by done.
    destruct (dp_order _ _ Hd k Hkin) as (r' & Hr' & Hc).
    assert (r' = r) as -> by congruence.
    eapply (cmp_eq_sym _ _ _ _ source_order); try done. by apply (dp_from _ _ Hd).
  - destruct (seen_before (take i l) r) eqn:Es; [constructor|].
    apply (deduped_first _ source_order _ _ _ Hd Hr) in Es as (k & Hk & Hki).
    apply assoc_None in E. rewrite Hk1 in E. destruct E.
    apply list_elem_of_fmap. by exists k.
Qed.

(** The physical order is strictly increasing. *)
Lemma bodies_sorted :
  StronglySorted (λ a b, dns_rdata_compare (body_rdata c type a)
                                           (body_rdata c type b) < 0)%Z bodies.
Proof.
  pose proof (dp_sorted _ _ Hd) as Hs.
  assert (∀ k, k ∈ kept out → rd_class (xr_rdata k) = c ∧ rd_type (xr_rdata k) = type)
    as Hct by (intros k Hk; rewrite Forall_forall in Hl; by apply Hl, (dp_from _ _ Hd)).
  pose proof Hf2 as Hf. revert Hf Hs Hct.
  generalize (kept out) bodies. clear Hf2 Hd.
  induction 1 as [|k b ks bs Hkb Hks IH]; intros Hs Hct; [constructor|].
  apply StronglySorted_inv in Hs as [Hs Hk].
  constructor; [apply IH; [done|set_solver]|].
  rewrite Forall_lookup in Hk. rewrite Forall_lookup. intros i b' Hb'.
  destruct (Forall2_lookup_r _ _ _ _ _ Hks Hb') as (k' & Hk' & Hkb').
  specialize (Hk _ _ Hk'). unfold compare_rdata in Hk.
  destruct (Hct k) as [E1 E2]; [set_solver|].
  destruct (Hct k') as [E3 E4].
  { apply elem_of_cons. right. by eapply list_elem_of_lookup_2. }
  rewrite (compare_data _ (xr_rdata k) _ (xr_rdata k'));
    rewrite ?body_rdata_class, ?body_rdata_type; try done; by apply body_for_data.
Qed.

Lemma bodies_source b :
  b ∈ bodies → ∃ r, r ∈ l ∧ rd_data (body_rdata c type b) = rd_data r.
Proof.
  intros (i & Hi)%list_elem_of_lookup.
  destruct (Forall2_lookup_r _ _ _ _ _ Hf2 Hi) as (k & Hk & Hkb).
  exists (xr_rdata k). split; [|by apply body_for_data].
  by eapply (dp_from _ _ Hd), list_elem_of_lookup_2.
Qed.

Lemma bodies_ok : Forall (body_ok type) bodies.
Proof.
  rewrite Forall_lookup. intros i b Hi.
  destruct (Forall2_lookup_r _ _ _ _ _ Hf2 Hi) as (k & _ & Hkb).
  unfold body_ok, body_for in *. intros Hr. rewrite Hr in Hkb.
  by destruct Hkb as (? & -> & _).
Qed.
End result.

(** C25: building a slab from a rdataset that yields [l], records of one class
    and type. A singleton type with more than one distinct record is refused
    with [DNS_R_SINGLETON]. Otherwise the result is a slab: in load order it
    has the first occurrence of every record of [l] and nothing else, up to
    the DNSSEC comparison; physically its records are strictly increasing in
    the DNSSEC order; and the buffer is exactly as long as the slab. *)
Theorem fromrdataset_spec (s0 : St) c l reservelen :
  alloc_ok → rds_yields s0 l → l ≠ [] → (Z.of_nat (length l) < 2 ^ 16)%Z →
  Forall (λ r, rd_class r = c ∧ rd_type r = dns_rdataset_type s0) l →
  Forall (λ r, Z.of_nat (length (rd_data r)) + 1 < 2 ^ 16)%Z l →
  (Z.of_nat (reservelen + 2 + sum_list_with (λ r, 9 + length (rd_data r))%nat l) < 2 ^ 32)%Z →
  if issingleton (dns_rdataset_type s0) && bool_decide (1 < length (dedup_first [] l))
  then dns_rdataslab_fromrdataset issingleton isc_mem_get s0 reservelen =
         Some (DNS_R_SINGLETON, None)
  else ∃ m lo ph,
    dns_rdataslab_fromrdataset issingleton isc_mem_get s0 reservelen =
      Some (ISC_R_SUCCESS, Some m) ∧
    slab_at m reservelen lo ph ∧ length m = reservelen + slab_size ph ∧
    Forall (body_ok (dns_rdataset_type s0)) ph ∧
    Forall2 (λ e r, dns_rdata_compare (body_rdata c (dns_rdataset_type s0) e.2) r = 0%Z)
            lo (dedup_first [] l) ∧
    (∀ b, b ∈ ph → ∃ r, r ∈ l ∧ rd_data (body_rdata c (dns_rdataset_type s0) b) = rd_data r) ∧
    StronglySorted (λ a b, dns_rdata_compare (body_rdata c (dns_rdataset_type s0) a)
                             (body_rdata c (dns_rdataset_type s0) b) < 0)%Z ph.
Proof.
  set (type := dns_rdataset_type s0).
  set (single := issingleton type && bool_decide (1 < length (dedup_first [] l))).
  intros Ha Hy Hne Hn Hct Hlen Hsz.
  pose proof (source_order c type l Hct) as Hord.
  destruct (save_rdatas_yields _ _ Hy) as (Hcount & res & s & s' & Hfirst & Hres & Hsave).
  unfold dns_rdataslab_fromrdataset. rewrite Hcount. cbn [mbind option_bind].
  assert (length l ≠ 0) by (destruct l; done).
  rewrite !bool_decide_false by lia.
  destruct (Ha 0 (Z.of_nat (length l))) as (m0 & Hm0 & _).
  rewrite Hm0, bool_decide_false by naive_solver.
  rewrite Hfirst. cbn [mbind option_bind]. rewrite bool_decide_false by naive_solver.
  rewrite Nat2Z.id, Hsave. cbn [mbind option_bind].
  rewrite !bool_decide_false by naive_solver.
  rewrite (u32_small (Z.of_nat reservelen + 2)) by lia. fold type.
  destruct (dedup _ _ _ _) as [[out ni] bl] eqn:Edd.
  apply (dedup_deduped type l Hord) in Edd as (Hd & -> & Hlast); [|done|done|lia|lia].
  rewrite Hlast. pose proof (acc_len_bound type l out Hd) as Hacc.
  rewrite (u32_small (_ + _ + _)) by lia.
  pose proof (acc_len_recs type out) as Hrecs.
  assert (length (kept out) <= length l) as Hkl.
  { pose proof (submseteq_length _ _ (dp_sub _ _ Hd)) as Hs. by rewrite length_fmap in Hs. }
  destruct (Ha 1 (Z.of_nat reservelen + 2 + Z.of_nat (acc_len type out))%Z)
    as (m1 & Hm1 & Hl1).
  destruct (Ha 2 (Z.of_nat (length l))) as (m2 & Hm2 & _). rewrite Hm1, Hm2.
  destruct (mwrite_is_Some m1 reservelen (enc16 (Z.of_nat (length (kept out)))))
    as [m3 Hm3]; [rewrite enc16_length; lia|].
  pose proof (mwrite_length _ _ _ _ Hm3) as Hl3.
  replace (reservelen + 2 + Z.to_nat (Z.of_nat (length (kept out))) * 4)
    with (reservelen + 2 + 4 * length (kept out)) by lia.
  destruct (write_slab type out m3 reservelen (length l)) as
    (m4 & m5 & bodies & raw' & tab & Hw & Hfill & Hf2 & Hslab & Hl5 & _ & _).
  - eapply rd16_mwrite; [exact Hm3|lia].
  - lia.
  - by apply (deduped_orders l Hord).
  - rewrite Forall_forall. intros k Hk. split.
    + pose proof (dp_from _ _ Hd _ Hk) as Hin. rewrite Forall_forall in Hlen.
      specialize (Hlen _ Hin). unfold rec_len. destruct (is_rrsig type); lia.
    + destruct (dp_order _ _ Hd k Hk) as (r & Hr & _). by eapply lookup_lt_Some.
  - lia.
  - lia.
  - pose proof (bodies_load_order c type l Hct out bodies Hd Hf2
                  (2 + 4 * length (kept out))) as Hload.
    set (lo := by_key _ _) in *.
    assert (length lo = length bodies) as Hlo
      by (apply entries_length, (sl_phys _ _ _ _ Hslab)).
    pose proof (Forall2_length _ _ _ Hload) as Hll.
    pose proof (Forall2_length _ _ _ Hf2) as Hlb.
    rewrite (bool_decide_ext _ (1 < length (kept out))) by lia.
    subst single.
    rewrite (bool_decide_ext (1 < length (dedup_first [] l)) (1 < length (kept out))) by lia.
    rewrite (andb_comm (issingleton type)).
    destruct (bool_decide (1 < length (kept out)) && issingleton type); [done|].
    rewrite Hm3. cbn [mbind option_bind]. rewrite Hw. cbn [mbind option_bind].
    rewrite Hfill. cbn [mbind option_bind]. exists m5, lo, bodies.
    split; [done|]. split; [done|]. split; [|split; [|split; [|split]]].
    + rewrite Hl5, Hl3, Hl1. pose proof (bodies_size _ _ _ Hf2). unfold slab_size. lia.
    + by eapply bodies_ok.
    + done.
    + intros b Hb. by eapply bodies_source.
    + by eapply bodies_sorted.
Qed.

(** Saving fewer records than there are. *)
Lemma save_rdatas_short res (s : St) l n i :
  rds_from res s l → n < length l →
  ∃ x s', save_rdatas n i res s = Some (ISC_R_SUCCESS, i + n, x, s').
Proof.
  intros Hf. revert n i. induction Hf as [s|s r res s' l Hc Hn Hf IH]; intros n i Hl;
    [cbn in Hl; lia|].
  destruct n as [|n]; cbn [save_rdatas].
  { do 2 eexists. by rewrite Nat.add_0_r. }
  rewrite bool_decide_true by done. rewrite Hc. cbn [mbind option_bind]. rewrite Hn.
  cbn [mbind option_bind]. destruct (IH n (S i)) as (x & s2 & ->); [cbn in Hl; lia|].
  cbn [mbind option_bind]. do 2 eexists. by rewrite Nat.add_succ_r.
Qed.

(** What [dns_rdataslab_fromrdataset] answers without building a slab. An
    empty rdataset is a failure unless its type is 0; more than 65535 records
    give [ISC_R_NOSPACE]. But when the iteration yields more records than the
    count announced, the function returns [ISC_R_SUCCESS] without having set
    the caller's region. *)
Theorem fromrdataset_refusals (s0 : St) l reservelen :
  (rds_yields s0 l → l = [] → dns_rdataset_type s0 ≠ 0%Z →
   dns_rdataslab_fromrdataset issingleton isc_mem_get s0 reservelen =
     Some (ISC_R_FAILURE, None)) ∧
  (rds_yields s0 l → (Z.of_nat (length l) > 0xffff)%Z →
   dns_rdataslab_fromrdataset issingleton isc_mem_get s0 reservelen =
     Some (ISC_R_NOSPACE, None)) ∧
  (∀ count s, alloc_ok → dns_rdataset_count s0 = Some count → (0 < count <= 0xffff)%Z →
   dns_rdataset_first s0 = Some (ISC_R_SUCCESS, s) → rds_from ISC_R_SUCCESS s l →
   (count < Z.of_nat (length l))%Z →
   dns_rdataslab_fromrdataset issingleton isc_mem_get s0 reservelen =
     Some (ISC_R_SUCCESS, None)).
Proof.
  unfold dns_rdataslab_fromrdataset. split_and!.
  - intros (Hc & _) -> Ht. rewrite Hc. cbn. by rewrite bool_decide_true.
  - intros (Hc & _) Hl. rewrite Hc. cbn [mbind option_bind].
    rewrite bool_decide_false, bool_decide_true by lia. done.
  - intros count s Ha Hc Hr Hfst Hf Hl. rewrite Hc. cbn [mbind option_bind].
    rewrite !bool_decide_false by lia.
    destruct (Ha 0 count) as (m & Hm & _). rewrite Hm, bool_decide_false by naive_solver.
    rewrite Hfst. cbn [mbind option_bind]. rewrite bool_decide_false by naive_solver.
    destruct (save_rdatas_short _ _ _ (Z.to_nat count) 0 Hf) as (x & s' & ->); [lia|].
    cbn [mbind option_bind]. by rewrite bool_decide_true.
Qed.
End fromrdataset.
