(* ===== verification/SlabTransform.v ===== *)
(** * The load balancer's in-place transformation

    [dns_rdataslab_transformrdataset] ([lib/dns/rdataslab.c]) reads the
    records of a slab in load order and writes them back over the same slab,
    back to back in that order. [transform_slab]: the records and their load
    order do not change, the rewriting fits the old slab exactly, and the
    profiler's array receives the new offsets. *)
From S2P Require Import Prelude Qsort Rdata Slab SlabIndex SlabBuild SlabSpec.

(** Offsets of the records of [l] written from [start]. *)
Fixpoint offs_of (type : Z) (start : nat) (l : list rdata) : list nat :=
  match l with
  | [] => []
  | r :: l' => start :: offs_of type (start + rec_len type (XRdata r false 0)) l'
  end.

Lemma offs_of_length type start l : length (offs_of type start l) = length l.
Proof. revert start. induction l; intros; cbn; auto. Qed.

Lemma offs_of_layout type start i l bodies :
  Forall2 (body_for type) (number i l) bodies →
  (layout start bodies).*1 = offs_of type start l.
Proof.
  revert start i bodies. induction l as [|r l IH]; intros start i bodies Hf.
  - by inversion Hf.
  - rewrite number_cons in Hf. inversion Hf as [|x b k bs Hb Hbs]; subst.
    cbn [layout fmap list_fmap offs_of fst]. f_equal.
    apply body_for_len in Hb. rewrite (IH _ (S i)) by done.
    f_equal. unfold rec_len in *. cbn in *. lia.
Qed.

(** Given the copying loop of [dns_rdataslab_fromrdataset], the one of the
    transformation does the same to the slab, and fills the array. *)
Lemma transform_loop_write type base l :
  ∀ i m raw tab stats m' raw' tab',
  i + length l <= length stats → base <= raw →
  write_rdatas type m base raw tab (number i l) = Some (m', raw', tab') →
  ∃ stats',
    transform_loop type m base raw tab stats i (number i l) = Some (m', tab', stats') ∧
    length stats' = length stats ∧
    (∀ j, j < i ∨ i + length l <= j → stats' !! j = stats !! j) ∧
    (∀ k off, offs_of type (raw - base) l !! k = Some off →
       ∃ a, stats !! (i + k) = Some a ∧
            stats' !! (i + k) = Some (set_offset a (Z.of_nat off))).
Proof.
  induction l as [|r l IH]; intros i m raw tab stats m' raw' tab' Hst Hraw Hw.
  { cbn in *. injection Hw as -> -> ->. exists stats. done. }
  rewrite number_cons in *. cbn [write_rdatas transform_loop xr_null xr_order] in *.
  cbn [length] in Hst.
  destruct (tab_set _ _ _) as [tab1|]; [|done]. cbn [mbind option_bind] in *.
  destruct (lookup_lt_is_Some_2 stats i) as [a Ha]; [lia|]. rewrite Ha.
  cbn [mbind option_bind].
  destruct (mwrite m _ _) as [m1|]; [|done]. cbn [mbind option_bind] in *.
  destruct (if is_rrsig type then _ else _) as [[m2 raw2]|] eqn:Em; [|done].
  cbn [mbind option_bind] in *.
  destruct (mwrite m2 _ _) as [m3|] eqn:Em3; [|done]. cbn [mbind option_bind] in *.
  assert (raw2 = raw + 4 + (if is_rrsig type then 1 else 0)) as ->.
  { destruct (is_rrsig type); [|injection Em as <- <-; lia].
    apply bind_Some in Em as (old & _ & (m4 & _ & [= <- <-])%bind_Some). done. }
  apply (IH (S i) _ _ _ (<[i:=set_offset a (Z.of_nat (raw - base))]> stats)) in Hw
    as (stats' & Hl & Hlen & Hout & Hin); [|rewrite length_insert; lia|lia].
  exists stats'. split; [exact Hl|]. rewrite length_insert in Hlen. split; [done|].
  split.
  - intros j Hj. cbn [length] in Hj. rewrite Hout by lia.
    by rewrite list_lookup_insert_ne by lia.
  - intros [|k] off Hoff; cbn [offs_of lookup list_lookup] in Hoff.
    + injection Hoff as <-. exists a. rewrite Nat.add_0_r. split; [done|].
      rewrite Hout by lia. by rewrite list_lookup_insert_eq by lia.
    + destruct (Hin k off) as (a' & Ha' & Ha2).
      { rewrite <- Hoff. do 2 f_equal. unfold rec_len. cbn [xr_rdata]. lia. }
      rewrite list_lookup_insert_ne in Ha' by lia.
      exists a'. rewrite Nat.add_succ_r. done.
Qed.

Lemma by_key_seq (es : list entry) :
  by_key (length es) (zip (seq 0 (length es)) es) = es.
Proof.
  assert (∀ k, NoDup (zip (seq k (length es)) es).*1) as Hnd.
  { intros k. rewrite fst_zip by (rewrite length_seq; lia). apply NoDup_seq. }
  assert (∀ (f : nat → option entry) k (l : list entry),
    (∀ i, i < length l → f (k + i) = l !! i) → omap f (seq k (length l)) = l) as Hf.
  { intros f k l. revert k. induction l as [|e l IH]; intros k Hl; [done|].
    cbn. pose proof (Hl 0 ltac:(cbn; lia)) as H0. rewrite Nat.add_0_r in H0.
    rewrite H0. cbn. f_equal. apply IH. intros i Hi.
    specialize (Hl (S i) ltac:(cbn; lia)). rewrite Nat.add_succ_r in Hl. exact Hl. }
  apply Hf. intros i Hi. cbn. destruct (lookup_lt_is_Some_2 es i Hi) as [e He].
  rewrite He. apply assoc_Some; [done|]. apply list_elem_of_lookup. exists i.
  apply lookup_zip_with_Some. exists i, e. rewrite lookup_seq_lt by done. done.
Qed.

Lemma kept_number i l : kept (number i l) = number i l.
Proof.
  revert i. induction l as [|r l IH]; intros i; [done|].
  rewrite number_cons, kept_cons_keep, IH by done. done.
Qed.

Lemma order_number i l : xr_order <$> number i l = seq i (length l).
Proof.
  revert i. induction l as [|r l IH]; intros i; [done|].
  rewrite number_cons. cbn. by rewrite IH.
Qed.

(** Saving moves the cursor only. *)
Lemma save_rdatas_static `{SlabMethods} s n i res res' i' x s' :
  save_rdatas n i res s = Some (res', i', x, s') →
  set_cursor s'.2 0 None = set_cursor s.2 0 None.
Proof.
  revert s i res res' i' x s'. induction n as [|n IH]; intros s i res res' i' x s'; cbn.
  - by intros [= <- <- <- <-].
  - case_bool_decide; [|by intros [= <- <- <- <-]].
    destruct (dns_rdataset_current s) as [r|]; [|done]. cbn.
    destruct (dns_rdataset_next s) as [[res1 s1]|] eqn:En; [|done]. cbn.
    destruct (save_rdatas n (S i) res1 s1) as [[[[? ?] ?] s2]|] eqn:Es; [|done].
    cbn. intros [= <- <- <- <-]. apply IH in Es as ->. by apply sm_next in En as [_ ->].
Qed.

(** A record before and after: for an RRSIG the meta byte keeps a set
    offline bit, but may get one from what was in memory. *)
Definition same_record (type : Z) (b b' : list Z) : Prop :=
  if is_rrsig type then
    b' ≠ [] ∧ tail b' = tail b ∧
    (Z.land (default 0%Z (head b)) DNS_RDATASLAB_OFFLINE ≠ 0%Z →
     Z.land (default 0%Z (head b')) DNS_RDATASLAB_OFFLINE ≠ 0%Z)
  else b' = b.

Lemma body_for_same type c b x b' :
  xr_rdata x = body_rdata c type b → body_for type x b' → same_record type b b'.
Proof.
  unfold body_for, same_record, body_rdata. intros ->. destruct (is_rrsig type); [|done].
  intros (meta & -> & Hm). cbn in *. split; [done|]. split; [done|].
  intros Hb. apply Hm. by rewrite bool_decide_true.
Qed.

Lemma rec_len_body type c b k :
  body_ok type b → rec_len type (XRdata (body_rdata c type b) false k) = 4 + length b.
Proof.
  unfold rec_len, body_rdata, body_ok. destruct (is_rrsig type); cbn; [|lia].
  destruct b; [naive_solver|]. cbn. lia.
Qed.

Lemma recs_len_bodies type c i bs :
  Forall (body_ok type) bs →
  recs_len type (number i (body_rdata c type <$> bs)) = recs_size bs.
Proof.
  unfold recs_len. rewrite kept_number. revert i.
  induction bs as [|b bs IH]; intros i; [done|]. intros [Hb Hbs]%Forall_cons.
  rewrite fmap_cons, number_cons, recs_size_cons. cbn [sum_list_with].
  by rewrite rec_len_body, IH.
Qed.

Lemma transform_slab `{SlabMethods} m rs lo ph stats :
  slab_at m (private3 rs) lo ph → lo ≠ [] → Forall (body_ok (rs_type rs)) lo.*2 →
  length lo <= length stats →
  ∃ m' stats' ph',
    dns_rdataslab_transformrdataset m rs stats =
      Some (ISC_R_SUCCESS, m', set_cursor rs 0 None, stats') ∧
    slab_at m' (private3 rs) (layout (2 + 4 * length ph') ph') ph' ∧
    Forall2 (same_record (rs_type rs)) (order_of rs lo ph) ph' ∧
    slab_size ph' = slab_size ph ∧
    length stats' = length stats ∧
    (∀ k off, (layout (2 + 4 * length ph') ph').*1 !! k = Some off →
       ∃ a, stats !! k = Some a ∧ stats' !! k = Some (set_offset a (Z.of_nat off))) ∧
    (∀ k, length lo <= k → stats' !! k = stats !! k) ∧
    length m' = length m ∧
    (∀ i, i < private3 rs ∨ private3 rs + slab_size ph <= i → m' !! i = m !! i).
Proof.
  intros Hs Hne Hok Hst. set (base := private3 rs) in *. set (type := rs_type rs) in *.
  pose proof (entries_bodies (sl_phys _ _ _ _ Hs)) as Hperm0.
  assert (order_of rs lo ph ≡ₚ ph) as Hperm by (by apply order_of_perm).
  pose proof (sm_yields m rs lo ph Hs Hok) as Hy. fold type in Hy.
  rewrite Hperm0, <- Hperm in Hok.
  set (bs := order_of rs lo ph) in *.
  set (l := body_rdata (rs_class rs) type <$> bs) in *.
  assert (length bs = length lo) as Hbl
    by (by rewrite Hperm, <- Hperm0, length_fmap).
  assert (length l = length lo) as Hll by (subst l; by rewrite length_fmap).
  assert (length lo ≠ 0) as Hn0 by (by destruct lo).
  destruct (save_rdatas_yields _ _ Hy) as (Hcount & res & s & s' & Hfirst & Hres & Hsave).
  pose proof (entries_length (sl_phys _ _ _ _ Hs)) as Hlp.
  pose proof (sl_max _ _ _ _ Hs) as Hmax. pose proof (sl_small _ _ _ _ Hs) as Hsmall.
  pose proof (sl_fits _ _ _ _ Hs) as Hfits.
  unfold dns_rdataslab_transformrdataset. rewrite Hcount. cbn [mbind option_bind].
  rewrite bool_decide_false by lia. rewrite Hfirst. cbn [mbind option_bind].
  rewrite bool_decide_false by naive_solver. rewrite Nat2Z.id, Hsave.
  cbn [mbind option_bind]. rewrite !bool_decide_false by naive_solver.
  assert (set_cursor s'.2 0 None = set_cursor rs 0 None) as ->.
  { rewrite (save_rdatas_static _ _ _ _ _ _ _ _ Hsave).
    by apply sm_first in Hfirst as [_ ->]. }
  fold base type.
  destruct (mwrite_is_Some m base (enc16 (Z.of_nat (length l)))) as [m1 Hm1];
    [rewrite enc16_length; unfold slab_size in *; lia|].
  rewrite Hm1. cbn [mbind option_bind]. pose proof (mwrite_length _ _ _ _ Hm1) as Hl1.
  assert (recs_size bs = recs_size ph) as Hrs.
  { unfold recs_size. by rewrite Hperm. }
  assert (recs_len type (number 0 l) = recs_size ph) as Hrl
    by (subst l; by rewrite recs_len_bodies).
  assert (kept (number 0 l) = number 0 l) as Hk by apply kept_number.
  assert (length (kept (number 0 l)) = length lo) as Hkl
    by (by rewrite Hk, number_length).
  destruct (write_slab type (number 0 l) m1 base (length l)) as
    (m2 & m3 & ph' & raw' & tab & Hw & Hfill & Hf2 & Hslab & Hl3 & Hfr & _).
  { rewrite Hkl, <- Hll. eapply rd16_mwrite; [exact Hm1|lia]. }
  { lia. }
  { rewrite Hk, order_number. apply NoDup_seq. }
  { rewrite Hk, Forall_forall. intros y (k & Hy' & Hyy)%number_elem. rewrite Hyy. split.
    - subst l. apply list_lookup_fmap_Some in Hy' as (b & Hb & Hbk).
      rewrite Hb. apply list_elem_of_lookup_2 in Hbk.
      assert (body_ok type b) by (by rewrite Forall_forall in Hok; apply Hok).
      rewrite Hperm, <- Hperm0 in Hbk. apply list_elem_of_fmap in Hbk as (e & -> & Hin).
      destruct (sl_rec _ _ _ _ Hs e Hin) as (Hlen & _).
      rewrite rec_len_body by done. lia.
    - cbn. by eapply lookup_lt_Some. }
  { rewrite Hkl, Hrl. unfold slab_size in Hsmall. lia. }
  { rewrite Hkl, Hrl. unfold slab_size in Hfits. lia. }
  replace (base + 2 + length l * 4) with (base + 2 + 4 * length (kept (number 0 l)))
    by lia.
  destruct (transform_loop_write type base l 0 m1 (base + 2 + 4 * length (kept (number 0 l)))
              (replicate (length l) 0%Z) stats m2 raw' tab)
    as (stats' & Ht & Hls & Hout & Hin); [lia|lia|exact Hw|].
  rewrite Ht. cbn [mbind option_bind]. rewrite Hfill. cbn [mbind option_bind].
  rewrite Hk in Hf2. pose proof (Forall2_length _ _ _ Hf2) as Hlph.
  rewrite number_length in Hlph.
  assert (by_key (length l) (zip (xr_order <$> kept (number 0 l))
            (layout (2 + 4 * length (kept (number 0 l))) ph')) =
          layout (2 + 4 * length ph') ph') as Hbk.
  { rewrite Hk, order_number, number_length, Hlph.
    rewrite <- (layout_length (2 + 4 * length ph') ph') at 1 2. apply by_key_seq. }
  rewrite Hbk in Hslab.
  assert (recs_size ph' = recs_size ph) as Hrp.
  { rewrite <- Hk in Hf2. rewrite (bodies_size _ _ _ Hf2). done. }
  assert (slab_size ph' = slab_size ph) as Hsz by (unfold slab_size; lia).
  exists m3, stats', ph'. split; [done|]. split; [exact Hslab|]. split; [|split; [done|]].
  { rewrite Forall2_lookup. intros i.
    destruct (bs !! i) as [b|] eqn:Hb; destruct (ph' !! i) as [b'|] eqn:Hb'.
    - constructor. destruct (Forall2_lookup_r _ _ _ _ _ Hf2 Hb') as (x & Hx & Hxb).
      rewrite number_lookup in Hx. subst l. rewrite list_lookup_fmap, Hb in Hx.
      cbn in Hx. injection Hx as <-. eapply body_for_same; [|exact Hxb]. done.
    - apply lookup_lt_Some in Hb. apply lookup_ge_None in Hb'.
      lia.
    - apply lookup_lt_Some in Hb'. apply lookup_ge_None in Hb.
      lia.
    - constructor. }
  split; [done|]. split; [|split; [|split; [lia|]]].
  - intros k off Hoff. apply (Hin k off). rewrite <- Hoff.
    rewrite (offs_of_layout type _ 0 l) by done.
    do 2 f_equal. lia.
  - intros k Hk'. apply Hout. lia.
  - intros i Hi. rewrite Hfr by lia. eapply mwrite_frame; [exact Hm1|].
    rewrite enc16_length. unfold slab_size in Hi. lia.
Qed.

(** C5: the transformation of a slab in place. Whatever the method table it
    is read with, [dns_rdataslab_transformrdataset] lays the records out
    again in the order in which the table yields them, so that physical and
    load order agree; it stores the records' offsets in the caller's array,
    whose other fields and further entries stay, keeps the slab's size, and
    touches nothing outside the slab. *)
Theorem transform_spec `{SlabMethods} m rs lo ph stats :
  slab_at m (private3 rs) lo ph → lo ≠ [] → Forall (body_ok (rs_type rs)) lo.*2 →
  length lo <= length stats →
  ∃ m' rs' stats' ph',
    dns_rdataslab_transformrdataset m rs stats = Some (ISC_R_SUCCESS, m', rs', stats') ∧
    private3 rs' = private3 rs ∧
    slab_at m' (private3 rs) (layout (2 + 4 * length ph') ph') ph' ∧
    Forall2 (same_record (rs_type rs)) (order_of rs lo ph) ph' ∧
    slab_size ph' = slab_size ph ∧
    (∀ k off, (layout (2 + 4 * length ph') ph').*1 !! k = Some off →
       ∃ a, stats !! k = Some a ∧ stats' !! k = Some (set_offset a (Z.of_nat off))) ∧
    (∀ k, length lo <= k → stats' !! k = stats !! k) ∧
    (∀ i, i < private3 rs ∨ private3 rs + slab_size ph <= i → m' !! i = m !! i).
Proof.
  intros Hs Hne Hok Hl. destruct (transform_slab m rs lo ph stats Hs Hne Hok Hl)
    as (m' & stats' & ph' & E & Hs' & Hf & Hz & _ & Ho & Hk & _ & Hfr).
  exists m', (set_cursor rs 0 None), stats', ph'. split_and!; done.
Qed.
