(* ===== verification/SlabOps.v ===== *)
(** * Operations on slabs

    The rest of [lib/dns/rdataslab.c]: the size of a slab, the search for an
    rdata, merging and subtracting slabs (dynamic update and zone transfer
    call them through [lib/dns/rbtdb.c]) and the two equality tests. They
    walk the records in physical order, which [dns_rdataslab_fromrdataset]
    makes the DNSSEC order.

    Every slab is in a region of its own, after [reservelen] bytes. *)
From S2P Require Import Prelude Qsort Rdata Slab SlabIndex SlabBuild SlabSpec.

Definition DNS_RDATASLAB_FORCE : Z := 1.
Definition DNS_RDATASLAB_EXACT : Z := 2.

(** ** Operations *)

Fixpoint size_loop (m : mem) (current n : nat) : option nat :=
  match n with
  | O => Some current
  | S n => length ← rd16 m current; size_loop m (current + 2 + Z.to_nat length + 2) n
  end.

Definition dns_rdataslab_size (slab : mem) (reservelen : nat) : option Z :=
  count ← rd16 slab reservelen;
  current ← size_loop slab (reservelen + 2 + 4 * Z.to_nat count) (Z.to_nat count);
  Some (u32 (Z.of_nat current)).

(** The rdata of the item at [current], the position of its data, and the next
    item. *)
Definition rdata_from_slab (m : mem) (current : nat) (rdclass type : Z)
    : option (rdata * nat * nat) :=
  let tcurrent := current in
  length ← rd16 m tcurrent;
  let tcurrent := tcurrent + 2 in
  '(offline, length, tcurrent) ←
    (if is_rrsig type then
       b ← m !! tcurrent;
       Some (bool_decide (Z.land b DNS_RDATASLAB_OFFLINE ≠ 0%Z), u32 (length - 1),
             tcurrent + 1)
     else Some (false, length, tcurrent));
  let tcurrent := tcurrent + 2 in
  region ← mread m tcurrent (Z.to_nat length);
  let rdata := dns_rdata_fromregion rdclass type region in
  Some (Rdata (rd_data rdata) (rd_class rdata) (rd_type rdata)
              (if offline : bool then Z.lor (rd_flags rdata) DNS_RDATA_OFFLINE
               else rd_flags rdata),
        tcurrent, tcurrent + Z.to_nat length).

(** [a[2] * 256 + a[3]] *)
Definition order_at (m : mem) (current : nat) : option nat :=
  Z.to_nat <$> rd16 m (current + 2).

Section ops.
Context `{CompareSwitch}.
Context (dns_rdatatype_issingleton : Z → bool).
Context (isc_mem_get : nat → Z → option mem).
Context (rdclass type : Z).

Fixpoint in_slab_loop (m : mem) (current : nat) (rdata : rdata) (n : nat)
    : option bool :=
  match n with
  | O => Some false
  | S n =>
      '(trdata, _, current) ← rdata_from_slab m current rdclass type;
      let r := dns_rdata_compare trdata rdata in
      if bool_decide (r = 0%Z) then Some true
      else if bool_decide (r > 0)%Z then Some false
      else in_slab_loop m current rdata n
  end.

Definition rdata_in_slab (slab : mem) (reservelen : nat) (rdata : rdata)
    : option bool :=
  count ← rd16 slab reservelen;
  in_slab_loop slab (reservelen + 2 + 4 * Z.to_nat count) rdata (Z.to_nat count).

(** *** Merge *)

(** The length of the old slab's data. *)
Fixpoint merge_olength (m : mem) (ocurrent n : nat) (olength : Z) : option Z :=
  match n with
  | O => Some olength
  | S n =>
      length ← rd16 m ocurrent;
      merge_olength m (ocurrent + 2 + Z.to_nat length + 2) n
        (u32 (olength + (length + 8)))
  end.

(** The rdata of the new slab that are not in the old one: the target length
    and their number. *)
Fixpoint merge_count (oslab nslab : mem) (reservelen ncurrent n : nat)
    (tlength nncount : Z) : option (Z * Z) :=
  match n with
  | O => Some (tlength, nncount)
  | S n =>
      '(nrdata, _, ncurrent) ← rdata_from_slab nslab ncurrent rdclass type;
      found ← rdata_in_slab oslab reservelen nrdata;
      if found : bool then merge_count oslab nslab reservelen ncurrent n tlength nncount
      else
        let tlength := u32 (tlength + (Z.of_nat (length (rd_data nrdata)) + 8)) in
        let tlength := if is_rrsig type then u32 (tlength + 1) else tlength in
        merge_count oslab nslab reservelen ncurrent n tlength (u32 (nncount + 1))
  end.

(** [oorder], [ordata] with its [data], [ocurrent]; likewise for the new
    slab. *)
Record cursor := Cursor {
  cu_order : nat; cu_rdata : rdata; cu_pos : nat; cu_next : nat }.

(** Fetch the item at [current]; [INSIST(order < count)]. *)
Definition fetch (m : mem) (current count : nat) : option cursor :=
  order ← order_at m current;
  if bool_decide (order < count) then
    '(rdata, pos, next) ← rdata_from_slab m current rdclass type;
    Some (Cursor order rdata pos next)
  else None.

(** The [do ... while (rdata_in_slab(...))] loop. *)
Fixpoint next_new (fuel : nat) (oslab nslab : mem) (reservelen ncurrent oncount : nat)
    : option cursor :=
  match fuel with
  | O => None
  | S fuel =>
      c ← fetch nslab ncurrent oncount;
      found ← rdata_in_slab oslab reservelen (cu_rdata c);
      if found : bool then next_new fuel oslab nslab reservelen (cu_next c) oncount
      else Some c
  end.

(** Copy an item, its meta byte included. *)
Definition copy_item (src : mem) (c : cursor) (m : mem) (tcurrent : nat)
    : option (mem * nat) :=
  let length := List.length (rd_data (cu_rdata c)) in
  let '(length, data) :=
    if is_rrsig type then (length + 1, cu_pos c - 1) else (length, cu_pos c) in
  m ← mwrite m tcurrent (enc16 (Z.of_nat length));
  bytes ← mread src data length;
  m ← mwrite m (tcurrent + 4) bytes;
  Some (m, tcurrent + 4 + length).

(** [while (oadded < ocount || nadded < ncount)]; a cursor is [None] while
    its slab has no item to offer. *)
Fixpoint merge_loop (k : nat) (oslab nslab : mem) (reservelen ocount oncount ncount : nat)
    (oadded nadded : nat) (oc nc : option cursor) (m : mem) (tcurrent : nat)
    (tab : list Z) : option (mem * nat * list Z) :=
  match k with
  | O => Some (m, tcurrent, tab)
  | S k =>
      fromold ←
        (if bool_decide (oadded = ocount) then Some false
         else if bool_decide (nadded = ncount) then Some true
         else
           o ← oc; n ← nc;
           Some (bool_decide (dns_rdata_compare (cu_rdata o) (cu_rdata n) < 0)%Z));
      if fromold : bool then
        o ← oc;
        tab ← tab_set tab (cu_order o) (Z.of_nat (tcurrent - reservelen));
        '(m, tcurrent) ← copy_item oslab o m tcurrent;
        let oadded := S oadded in
        oc ← (if bool_decide (oadded < ocount)
              then Some <$> fetch oslab (cu_next o) ocount else Some None);
        merge_loop k oslab nslab reservelen ocount oncount ncount oadded nadded oc nc
          m tcurrent tab
      else
        n ← nc;
        tab ← tab_set tab (ocount + cu_order n) (Z.of_nat (tcurrent - reservelen));
        '(m, tcurrent) ← copy_item nslab n m tcurrent;
        let nadded := S nadded in
        nc ← (if bool_decide (nadded < ncount)
              then Some <$> next_new (S oncount) oslab nslab reservelen (cu_next n) oncount
              else Some None);
        merge_loop k oslab nslab reservelen ocount oncount ncount oadded nadded oc nc
          m tcurrent tab
  end.

Definition dns_rdataslab_merge (oslab nslab : mem) (reservelen : nat) (flags : Z)
    : option (isc_result * option mem) :=
  ocount ← rd16 oslab reservelen;
  let ostart := reservelen + 2 + 4 * Z.to_nat ocount in
  ncount ← rd16 nslab reservelen;
  let nstart := reservelen + 2 + 4 * Z.to_nat ncount in
  if bool_decide (ocount > 0 ∧ ncount > 0)%Z then
    let oncount := ncount in
    olength ← merge_olength oslab ostart (Z.to_nat ocount) 0;
    let tlength := u32 (Z.of_nat reservelen + 2 + olength) in
    '(tlength, nncount) ←
      merge_count oslab nslab reservelen nstart (Z.to_nat ncount) tlength 0;
    let tcount := u32 (ocount + nncount) in
    let added_something := bool_decide (nncount ≠ 0%Z) in
    let ncount := nncount in
    if bool_decide (Z.land flags DNS_RDATASLAB_EXACT ≠ 0%Z ∧
                    tcount ≠ u32 (ncount + ocount))
    then Some (DNS_R_NOTEXACT, None)
    else if negb added_something && bool_decide (Z.land flags DNS_RDATASLAB_FORCE = 0%Z)
    then Some (DNS_R_UNCHANGED, None)
    else if bool_decide (tcount > 1)%Z && dns_rdatatype_issingleton type
    then Some (DNS_R_SINGLETON, None)
    else if bool_decide (tcount > 0xffff)%Z then Some (ISC_R_NOSPACE, None)
    else match isc_mem_get 0 tlength with
    | None => Some (ISC_R_NOMEMORY, None)
    | Some tstart =>
        reserved ← mread nslab 0 reservelen;
        m ← mwrite tstart 0 reserved;
        m ← mwrite m reservelen (enc16 tcount);
        let tcurrent := reservelen + 2 + Z.to_nat tcount * 4 in
        match isc_mem_get 1 (ocount + oncount) with
        | None => Some (ISC_R_NOMEMORY, None)
        | Some _ =>
            let offsettable := replicate (Z.to_nat (ocount + oncount)) 0%Z in
            oc ← fetch oslab ostart (Z.to_nat ocount);
            nc ← (if bool_decide (ncount > 0)%Z
                  then Some <$> next_new (S (Z.to_nat oncount)) oslab nslab reservelen
                                  nstart (Z.to_nat oncount)
                  else Some None);
            '(m, tcurrent, offsettable) ←
              merge_loop (Z.to_nat ocount + Z.to_nat ncount) oslab nslab reservelen
                (Z.to_nat ocount) (Z.to_nat oncount) (Z.to_nat ncount) 0 0 (Some oc) nc
                m tcurrent offsettable;
            m ← fillin_offsets m reservelen offsettable 0;
            if bool_decide (Z.of_nat tcurrent = tlength)
            then Some (ISC_R_SUCCESS, Some m) else None
        end
    end
  else None.

(** *** Subtract *)

(** [for (count = 0; count < scount; count++)]: whether it ran to the end,
    that is, no item of [sslab] compares equal. *)
Fixpoint not_in_loop (sslab : mem) (scurrent n : nat) (mrdata : rdata) : option bool :=
  match n with
  | O => Some true
  | S n =>
      '(srdata, _, scurrent) ← rdata_from_slab sslab scurrent rdclass type;
      if bool_decide (dns_rdata_compare mrdata srdata = 0%Z) then Some false
      else not_in_loop sslab scurrent n mrdata
  end.

Fixpoint subtract_count (mslab sslab : mem) (mcurrent sstart scount n : nat)
    (tlength tcount rcount : Z) : option (Z * Z * Z) :=
  match n with
  | O => Some (tlength, tcount, rcount)
  | S n =>
      let mrdatabegin := mcurrent in
      '(mrdata, _, mcurrent) ← rdata_from_slab mslab mcurrent rdclass type;
      keep ← not_in_loop sslab sstart scount mrdata;
      if keep : bool then
        subtract_count mslab sslab mcurrent sstart scount n
          (u32 (tlength + Z.of_nat (mcurrent - mrdatabegin))) (u32 (tcount + 1)) rcount
      else
        subtract_count mslab sslab mcurrent sstart scount n tlength tcount
          (u32 (rcount + 1))
  end.

Fixpoint subtract_loop (mslab sslab : mem) (reservelen mcurrent sstart scount mcount n : nat)
    (m : mem) (tcurrent : nat) (tab : list Z) : option (mem * nat * list Z) :=
  match n with
  | O => Some (m, tcurrent, tab)
  | S n =>
      let mrdatabegin := mcurrent in
      order ← order_at mslab mcurrent;
      if bool_decide (order < mcount) then
        '(mrdata, _, mcurrent) ← rdata_from_slab mslab mcurrent rdclass type;
        keep ← not_in_loop sslab sstart scount mrdata;
        if keep : bool then
          let length := mcurrent - mrdatabegin in
          tab ← tab_set tab order (Z.of_nat (tcurrent - reservelen));
          bytes ← mread mslab mrdatabegin length;
          m ← mwrite m tcurrent bytes;
          subtract_loop mslab sslab reservelen mcurrent sstart scount mcount n
            m (tcurrent + length) tab
        else
          subtract_loop mslab sslab reservelen mcurrent sstart scount mcount n
            m tcurrent tab
      else None
  end.

Definition dns_rdataslab_subtract (mslab sslab : mem) (reservelen : nat) (flags : Z)
    : option (isc_result * option mem) :=
  mcount ← rd16 mslab reservelen;
  scount ← rd16 sslab reservelen;
  if bool_decide (mcount > 0 ∧ scount > 0)%Z then
    let mstart := reservelen + 2 + 4 * Z.to_nat mcount in
    let sstart := reservelen + 2 + 4 * Z.to_nat scount in
    '(tlength, tcount, rcount) ←
      subtract_count mslab sslab mstart sstart (Z.to_nat scount) (Z.to_nat mcount)
        (u32 (Z.of_nat reservelen + 2)) 0 0;
    let tlength := u32 (tlength + 4 * tcount) in
    if bool_decide (Z.land flags DNS_RDATASLAB_EXACT ≠ 0%Z ∧ rcount ≠ scount)
    then Some (DNS_R_NOTEXACT, None)
    else if bool_decide (tcount = 0%Z) then Some (DNS_R_NXRRSET, None)
    else if bool_decide (rcount = 0%Z) then Some (DNS_R_UNCHANGED, None)
    else match isc_mem_get 0 tlength with
    | None => Some (ISC_R_NOMEMORY, None)
    | Some tstart =>
        reserved ← mread mslab 0 reservelen;
        m ← mwrite tstart 0 reserved;
        match isc_mem_get 1 mcount with
        | None => Some (ISC_R_NOMEMORY, None)
        | Some _ =>
            let offsettable := replicate (Z.to_nat mcount) 0%Z in
            m ← mwrite m reservelen (enc16 tcount);
            '(m, tcurrent, offsettable) ←
              subtract_loop mslab sslab reservelen mstart sstart (Z.to_nat scount)
                (Z.to_nat mcount) (Z.to_nat mcount) m
                (reservelen + 2 + 4 * Z.to_nat tcount) offsettable;
            m ← fillin_offsets m reservelen offsettable 0;
            if bool_decide (Z.of_nat tcurrent = tlength)
            then Some (ISC_R_SUCCESS, Some m) else None
        end
    end
  else None.

(** *** Equality *)

Fixpoint equal_loop (slab1 slab2 : mem) (current1 current2 n : nat) : option bool :=
  match n with
  | O => Some true
  | S n =>
      length1 ← rd16 slab1 current1;
      length2 ← rd16 slab2 current2;
      let current1 := current1 + 2 + 2 in
      let current2 := current2 + 2 + 2 in
      if bool_decide (length1 ≠ length2) then Some false
      else
        b1 ← mread slab1 current1 (Z.to_nat length1);
        b2 ← mread slab2 current2 (Z.to_nat length1);
        if bool_decide (memcmp b1 b2 ≠ 0%Z) then Some false
        else equal_loop slab1 slab2 (current1 + Z.to_nat length1)
               (current2 + Z.to_nat length1) n
  end.

Definition dns_rdataslab_equal (slab1 slab2 : mem) (reservelen : nat) : option bool :=
  count1 ← rd16 slab1 reservelen;
  count2 ← rd16 slab2 reservelen;
  if bool_decide (count1 ≠ count2) then Some false
  else equal_loop slab1 slab2 (reservelen + 2 + 4 * Z.to_nat count1)
         (reservelen + 2 + 4 * Z.to_nat count2) (Z.to_nat count1).

Fixpoint equalx_loop (slab1 slab2 : mem) (current1 current2 n : nat) : option bool :=
  match n with
  | O => Some true
  | S n =>
      '(rdata1, _, current1) ← rdata_from_slab slab1 current1 rdclass type;
      '(rdata2, _, current2) ← rdata_from_slab slab2 current2 rdclass type;
      if bool_decide (dns_rdata_compare rdata1 rdata2 ≠ 0%Z) then Some false
      else equalx_loop slab1 slab2 current1 current2 n
  end.

Definition dns_rdataslab_equalx (slab1 slab2 : mem) (reservelen : nat) : option bool :=
  count1 ← rd16 slab1 reservelen;
  count2 ← rd16 slab2 reservelen;
  if bool_decide (count1 ≠ count2) then Some false
  else equalx_loop slab1 slab2 (reservelen + 2 + 4 * Z.to_nat count1)
         (reservelen + 2 + 4 * Z.to_nat count2) (Z.to_nat count1).
End ops.

(** ** A slab in physical order

    [walk m base kvs start ph]: from offset [start], the items of the slab at
    [base] are [ph]; [kvs] pairs each with its load order. *)
Definition walk (m : mem) (base : nat) (kvs : list (nat * entry)) (start : nat)
    (ph : list (list Z)) : Prop :=
  kvs.*2 = layout start ph ∧
  Forall (λ p, rec_at m base p.2 ∧ rd16 m (base + p.2.1 + 2) = Some (Z.of_nat p.1)) kvs.

(** The data of a record: without the meta byte of an RRSIG. *)
Definition body_data (type : Z) (b : list Z) : list Z :=
  if is_rrsig type then tail b else b.

Lemma slab_walk m base lo ph :
  slab_at m base lo ph →
  ∃ kvs, walk m base kvs (2 + 4 * length ph) ph ∧ kvs ≡ₚ imap pair lo.
Proof.
  intros Hs. assert ((imap pair lo).*2 = lo) as Hi.
  { apply list_eq. intros i. rewrite list_lookup_fmap, list_lookup_imap.
    by destruct (lo !! i). }
  destruct (Permutation_map_inv (snd : nat * entry → entry) (l1:=layout (2 + 4 * length ph) ph) (imap pair lo))
    as (kvs & Hk & Hp).
  { change (layout (2 + 4 * length ph) ph ≡ₚ (imap pair lo).*2). rewrite Hi.
    symmetry. apply (sl_phys _ _ _ _ Hs). }
  exists kvs. split; [|by symmetry]. split; [by symmetry|].
  rewrite <- Hp. apply Forall_forall. intros p (i & e & -> & He)%elem_of_lookup_imap.
  cbn. split; [apply (sl_rec _ _ _ _ Hs); by eapply list_elem_of_lookup_2|].
  by apply (sl_idx _ _ _ _ Hs).
Qed.

Lemma walk_cons m base kvs start b ph :
  walk m base kvs start (b :: ph) →
  ∃ k kvs', kvs = (k, (start, b)) :: kvs' ∧ rec_at m base (start, b) ∧
    rd16 m (base + start + 2) = Some (Z.of_nat k) ∧
    walk m base kvs' (start + 4 + length b) ph.
Proof.
  intros [Hk Hf]. destruct kvs as [|[k e] kvs]; [done|]. cbn in Hk.
  injection Hk as -> Hk. apply Forall_cons in Hf as [[Hr Hx] Hf].
  exists k, kvs. done.
Qed.

Lemma walk_length m base kvs start ph : walk m base kvs start ph → length kvs = length ph.
Proof.
  intros [Hk _]. apply (f_equal length) in Hk. by rewrite length_fmap, layout_length in Hk.
Qed.

(** ** Items of a slab *)

Section items.
Context `{DnssecOrder} (rdclass type : Z).

(** The comparison of two records. *)
Definition dcmp (b1 b2 : list Z) : Z :=
  dns_rdata_compare (body_rdata rdclass type b1) (body_rdata rdclass type b2).

Lemma dcmp_order l : cmp_order_on dcmp l.
Proof.
  pose proof (dnssec_order rdclass type (body_rdata rdclass type <$> l)) as Ho.
  assert (cmp_order_on dns_rdata_compare (body_rdata rdclass type <$> l)) as [H1 H2 H3].
  { apply Ho. rewrite Forall_fmap. apply Forall_forall. intros b _. cbn.
    by rewrite body_rdata_class, body_rdata_type. }
  split; unfold dcmp; intros; [apply H1|apply H2|eapply H3]; eauto;
    by apply list_elem_of_fmap_2.
Qed.

(** An rdata fetched from a slab; its flags are of no account for the
    comparison. *)
Definition item_of (b : list Z) (r : rdata) : Prop :=
  rd_data r = body_data type b ∧ rd_class r = rdclass ∧ rd_type r = type.

Lemma body_rdata_data b : rd_data (body_rdata rdclass type b) = body_data type b.
Proof. unfold body_rdata, body_data. by destruct (is_rrsig type). Qed.

Lemma item_compare b1 b2 r1 r2 :
  item_of b1 r1 → item_of b2 r2 → dns_rdata_compare r1 r2 = dcmp b1 b2.
Proof.
  intros (? & ? & ?) (? & ? & ?). unfold dcmp. apply compare_data;
    by rewrite ?body_rdata_data, ?body_rdata_class, ?body_rdata_type.
Qed.

(** Fetching the item at a record. *)
Lemma rdata_from_slab_spec m base o b k :
  rec_at m base (o, b) → body_ok type b → rd16 m (base + o + 2) = Some k →
  ∃ r, rdata_from_slab m (base + o) rdclass type =
      Some (r, base + o + 4 + (if is_rrsig type then 1 else 0),
            base + o + 4 + length b) ∧
    item_of b r ∧ length (rd_data r) + (if is_rrsig type then 1 else 0) = length b.
Proof.
  intros (Hlen & Hl & Hb) Hok Hk. cbn [fst snd] in *. unfold rdata_from_slab.
  rewrite Hl. cbn [mbind option_bind]. unfold item_of, body_data, body_ok in *.
  destruct (is_rrsig type).
  - unfold rd16 in Hk. destruct (m !! (base + o + 2)) as [a|]; [|done].
    cbn [mbind option_bind]. destruct b as [|b0 bs]; [naive_solver|].
    cbn [length tail] in *. rewrite u32_small by lia.
    replace (Z.to_nat _) with (length bs) by lia.
    pose proof (mread_sub _ _ _ _ 1 (length bs) Hb ltac:(lia)) as Hs. cbn [drop] in Hs.
    rewrite drop_0, take_ge in Hs by done.
    cbn [mbind option_bind].
    replace (base + o + 2 + 1 + 2) with (base + o + 4 + 1) by lia. rewrite Hs.
    cbn. eexists. split; [do 2 f_equal; lia|]. cbn. split; [done|lia].
  - cbn [mbind option_bind]. replace (base + o + 2 + 2) with (base + o + 4) by lia.
    rewrite Nat2Z.id, Hb. cbn.
    eexists. split; [do 3 f_equal; lia|]. split; [done|cbn; lia].
Qed.

(** *** Searching *)

Definition in_bodies (ph : list (list Z)) (b : list Z) : bool :=
  existsb (λ b', bool_decide (dcmp b' b = 0%Z)) ph.

(** The records are in DNSSEC order, without duplicates. *)
Definition ordered (ph : list (list Z)) : Prop := StronglySorted (λ a b, dcmp a b < 0)%Z ph.

Lemma in_slab_loop_spec m base kvs start ph b r :
  walk m base kvs start ph → Forall (body_ok type) ph → ordered ph → item_of b r →
  in_slab_loop rdclass type m (base + start) r (length ph) = Some (in_bodies ph b).
Proof.
  intros Hw Hok Hs Hr. revert kvs start Hw. induction ph as [|b' ph IH];
    intros kvs start Hw; [done|].
  apply walk_cons in Hw as (k & kvs' & -> & Hrec & Hk & Hw).
  apply Forall_cons in Hok as [Hok1 Hok2]. apply StronglySorted_inv in Hs as [Hs Hf].
  destruct (rdata_from_slab_spec m base start b' _ Hrec Hok1 Hk) as (r' & Hfs & Hr' & _).
  cbn [length in_slab_loop]. rewrite Hfs. cbn [mbind option_bind].
  rewrite (item_compare b' b) by done. cbn [in_bodies existsb].
  case_bool_decide as Hz; [done|]. case_bool_decide as Hp; cbn [orb].
  - f_equal. symmetry. apply not_true_iff_false. intros Hin%existsb_exists.
    destruct Hin as (b'' & Hb'' & He%bool_decide_eq_true).
    apply list_elem_of_In in Hb''. rewrite Forall_forall in Hf. specialize (Hf _ Hb'').
    pose proof (dcmp_order [b'; b''; b]) as Ho.
    assert (dcmp b' b < 0)%Z; [|lia].
    apply (cmp_lt_le_trans _ _ b' b'' b Ho); [set_solver +..|done|lia].
  - replace (base + start + 4 + length b') with (base + (start + 4 + length b')) by lia.
    by apply (IH Hok2 Hs kvs').
Qed.

Lemma rdata_in_slab_spec m base lo ph b r :
  slab_at m base lo ph → Forall (body_ok type) ph → ordered ph → item_of b r →
  rdata_in_slab rdclass type m base r = Some (in_bodies ph b).
Proof.
  intros Hs Hok Ho Hr. destruct (slab_walk _ _ _ _ Hs) as (kvs & Hw & _).
  unfold rdata_in_slab. rewrite (sl_count _ _ _ _ Hs). cbn [mbind option_bind].
  rewrite Nat2Z.id, (entries_length (sl_phys _ _ _ _ Hs)).
  replace (base + 2 + 4 * length ph) with (base + (2 + 4 * length ph)) by lia.
  by eapply in_slab_loop_spec.
Qed.

(** Without the order of the records the search is of no use, but
    [not_in_loop] looks at all of them. *)
Lemma not_in_loop_spec m base kvs start ph b r :
  walk m base kvs start ph → Forall (body_ok type) ph → item_of b r →
  not_in_loop rdclass type m (base + start) (length ph) r = Some (negb (in_bodies ph b)).
Proof.
  intros Hw Hok Hr. revert kvs start Hw. induction ph as [|b' ph IH];
    intros kvs start Hw; [done|].
  apply walk_cons in Hw as (k & kvs' & -> & Hrec & Hk & Hw).
  apply Forall_cons in Hok as [Hok1 Hok2].
  destruct (rdata_from_slab_spec m base start b' _ Hrec Hok1 Hk) as (r' & Hfs & Hr' & _).
  cbn [length not_in_loop]. rewrite Hfs. cbn [mbind option_bind].
  rewrite (item_compare b b') by done. cbn [in_bodies existsb].
  pose proof (dcmp_order [b; b']) as Ho.
  rewrite (bool_decide_ext (dcmp b b' = 0%Z) (dcmp b' b = 0%Z)) by
    (split; apply (cmp_eq_sym _ _ _ _ Ho); set_solver +).
  case_bool_decide as Hz; [done|]. cbn [orb].
  replace (base + start + 4 + length b') with (base + (start + 4 + length b')) by lia.
  by apply (IH Hok2 kvs').
Qed.

(** *** Sizes *)

Lemma size_loop_spec m base kvs start ph :
  walk m base kvs start ph →
  size_loop m (base + start) (length ph) = Some (base + start + recs_size ph).
Proof.
  revert kvs start. induction ph as [|b ph IH]; intros kvs start Hw.
  { cbn. by rewrite Nat.add_0_r. }
  apply walk_cons in Hw as (k & kvs' & -> & (_ & Hl & _) & Hk & Hw).
  cbn [length size_loop]. cbn [fst snd] in Hl. rewrite Hl. cbn [mbind option_bind].
  rewrite Nat2Z.id, recs_size_cons.
  replace (base + start + 2 + length b + 2) with (base + (start + 4 + length b)) by lia.
  rewrite (IH _ _ Hw). f_equal. lia.
Qed.

Lemma size_spec m reservelen lo ph :
  slab_at m reservelen lo ph →
  dns_rdataslab_size m reservelen = Some (u32 (Z.of_nat (reservelen + slab_size ph))).
Proof.
  intros Hs. destruct (slab_walk _ _ _ _ Hs) as (kvs & Hw & _).
  unfold dns_rdataslab_size. rewrite (sl_count _ _ _ _ Hs). cbn [mbind option_bind].
  rewrite Nat2Z.id, (entries_length (sl_phys _ _ _ _ Hs)).
  replace (reservelen + 2 + 4 * length ph) with (reservelen + (2 + 4 * length ph)) by lia.
  rewrite (size_loop_spec _ _ _ _ _ Hw). cbn [mbind option_bind]. do 2 f_equal.
  unfold slab_size. lia.
Qed.
End items.

(** ** Placing items

    What a copying loop does for the items [its], pairs of a key and the bytes:
    the records are in place from [raw] on, and the table has their offsets. *)
Record placed (m : mem) (base raw : nat) (tab : list Z) (its : list (nat * list Z))
    (m' : mem) (raw' : nat) (tab' : list Z) : Prop := {
  pl_raw : raw' = raw + recs_size its.*2;
  pl_tab : tab' = tab_fill tab (zip its.*1 (layout (raw - base) its.*2));
  pl_len : length m' = length m;
  pl_rec : ∀ e, e ∈ layout (raw - base) its.*2 → rec_at m' base e;
  pl_frame : ∀ i, i < raw ∨ raw' <= i → m' !! i = m !! i }.

Lemma placed_nil m base raw tab : placed m base raw tab [] m raw tab.
Proof. split; cbn; try done; try lia. intros e He. set_solver. Qed.

(** One item is placed. *)
Record placed_one (m : mem) (base raw : nat) (b : list Z) (m1 : mem) : Prop := {
  po_len : length m1 = length m;
  po_rec : rec_at m1 base (raw - base, b);
  po_frame : ∀ i, i < raw ∨ raw + 4 + length b <= i → m1 !! i = m !! i }.

Lemma placed_cons m base raw tab k b its m1 m' raw' tab' :
  base <= raw → placed_one m base raw b m1 →
  placed m1 base (raw + 4 + length b) (<[k := Z.of_nat (raw - base)]> tab) its m' raw' tab' →
  placed m base raw tab ((k, b) :: its) m' raw' tab'.
Proof.
  intros Hb [Hl1 Hr1 Hf1] [Hraw Htab Hlen Hrec Hfr].
  assert (raw + 4 + length b - base = raw - base + 4 + length b) as Hoff by lia.
  rewrite Hoff in *. pose proof (recs_size_cons b its.*2) as Hrs.
  split; cbn [fmap list_fmap fst snd layout zip zip_with] in *.
  - lia.
  - by rewrite Htab.
  - lia.
  - intros e. rewrite elem_of_cons. intros [->|He]; [|by apply Hrec].
    eapply rec_at_agree; [| |exact Hr1]; [lia|]. cbn. intros i Hi. apply Hfr. lia.
  - intros i Hi. rewrite Hfr by lia. apply Hf1. lia.
Qed.

(** Length, then bytes, two bytes later. *)
Lemma placed_write m base raw b m1 m2 :
  base <= raw → (Z.of_nat (length b) < 2 ^ 16)%Z →
  mwrite m raw (enc16 (Z.of_nat (length b))) = Some m1 →
  mwrite m1 (raw + 4) b = Some m2 → placed_one m base raw b m2.
Proof.
  intros Hb Hl H1 H2. pose proof (enc16_length (Z.of_nat (length b))) as He. split.
  - by rewrite (mwrite_length _ _ _ _ H2), (mwrite_length _ _ _ _ H1).
  - split; [done|]. cbn [fst snd]. split.
    + replace (base + (raw - base)) with raw by lia.
      rewrite (rd16_frame _ _ _ _ _ H2) by lia. eapply rd16_mwrite; [exact H1|lia].
    + replace (base + (raw - base) + 4) with (raw + 4) by lia.
      by apply (mread_mwrite_same _ _ _ _ H2).
  - intros i Hi. rewrite (mwrite_frame _ _ _ _ _ H2), (mwrite_frame _ _ _ _ _ H1) by lia.
    done.
Qed.

(** The slab they make. *)
Lemma placed_slab m base n its m' raw' tab' :
  placed m base (base + 2 + 4 * length its.*2) (replicate n 0%Z) its m' raw' tab' →
  rd16 m base = Some (Z.of_nat (length its.*2)) → (Z.of_nat (length its.*2) < 2 ^ 16)%Z →
  NoDup its.*1 → Forall (λ k, k < n) its.*1 →
  (Z.of_nat (slab_size its.*2) < 2 ^ 32)%Z → base + slab_size its.*2 <= length m →
  raw' = base + slab_size its.*2 ∧
  ∃ m2, fillin_offsets m' base tab' 0 = Some m2 ∧
    slab_at m2 base (by_key n (zip its.*1 (layout (2 + 4 * length its.*2) its.*2))) its.*2 ∧
    length m2 = length m ∧ (∀ i, i < base → m2 !! i = m !! i).
Proof.
  intros [Hraw -> Hlen Hrec Hfr] Hcnt Hmax Hnd Hn Hsz Hfit.
  split; [unfold slab_size; lia|].
  replace (base + 2 + 4 * length its.*2 - base) with (2 + 4 * length its.*2) in * by lia.
  set (kvs := zip its.*1 _).
  assert (kvs.*1 = its.*1) as Hk1
    by (subst kvs; apply fst_zip; rewrite layout_length, !length_fmap; done).
  assert (kvs.*2 = layout (2 + 4 * length its.*2) its.*2) as Hk2
    by (subst kvs; apply snd_zip; rewrite layout_length, !length_fmap; done).
  destruct (table_slab m' base n kvs its.*2) as (m2 & Hm2 & Hslab & Hl2 & Hfr2 & _);
    rewrite ?Hk1; try done; try lia.
  { rewrite <- Hcnt. apply rd16_agree. intros i Hi. apply Hfr. lia. }
  exists m2. split_and!; try done; [lia|]. intros i Hi.
  rewrite Hfr2 by lia. apply Hfr. lia.
Qed.

(** The records by key: [f] tells the bytes of each key. *)
Lemma by_key_items n start (its : list (nat * list Z)) (f : nat → option (list Z)) :
  NoDup its.*1 → (∀ i b, i < n → f i = Some b ↔ (i, b) ∈ its) →
  (by_key n (zip its.*1 (layout start its.*2))).*2 = omap f (seq 0 n).
Proof.
  intros Hnd Hf. set (kvs := zip _ _).
  assert (kvs.*1 = its.*1) as Hk1
    by (subst kvs; apply fst_zip; rewrite layout_length, !length_fmap; done).
  assert ((λ p, (p.1, p.2.2)) <$> kvs = its) as Hits.
  { subst kvs. clear Hnd Hf n f Hk1. revert start.
    induction its as [|[k b] its IH]; intros start; cbn; [done|]. by f_equal. }
  unfold by_key. assert (∀ i, i ∈ seq 0 n → snd <$> assoc i kvs = f i) as Hi.
  { intros i Hi%elem_of_seq. destruct (assoc i kvs) as [e|] eqn:E; cbn.
    - apply assoc_Some in E; [|by rewrite Hk1]. symmetry. apply Hf; [lia|].
      rewrite <- Hits. apply list_elem_of_fmap. by exists (i, e).
    - apply assoc_None in E. destruct (f i) as [b|] eqn:Eb; [|done].
      apply Hf in Eb; [|lia]. destruct E. rewrite Hk1.
      apply list_elem_of_fmap. by exists (i, b). }
  clearbody kvs. induction (seq 0 n) as [|i s IH]; [done|]. cbn [omap list_omap].
  rewrite <- Hi by set_solver +. destruct (assoc i kvs); cbn.
  - f_equal. apply IH. intros j Hj. apply Hi. set_solver.
  - apply IH. intros j Hj. apply Hi. set_solver.
Qed.

Lemma omap_seq_lookup {A} (l : list A) (P : A → Prop) `{∀ x, Decision (P x)} start (f : nat → option A) :
  (∀ i, i < length l → f (start + i) = x ← l !! i; if decide (P x) then Some x else None) →
  omap f (seq start (length l)) = filter P l.
Proof.
  revert start. induction l as [|x l IH]; intros start Hf; [done|].
  cbn [length seq omap list_omap]. pose proof (Hf 0 ltac:(cbn; lia)) as Hz.
  rewrite Nat.add_0_r in Hz. rewrite Hz. cbn [lookup list_lookup mbind option_bind].
  rewrite filter_cons, IH.
  - by case_decide.
  - intros i Hi. replace (S start + i) with (start + S i) by lia. apply Hf. cbn. lia.
Qed.

(** Choosing items by their bytes. *)
Lemma filter_walk (P : list Z → Prop) `{∀ b, Decision (P b)} (kvs : list (nat * entry)) start ph :
  kvs.*2 = layout start ph → (filter (λ q, P q.2.2) kvs).*2.*2 = filter P ph.
Proof.
  revert start ph. induction kvs as [|[k e] kvs IH]; intros start [|b ph] Hk; try done.
  cbn in Hk. injection Hk as -> Hk. rewrite !filter_cons. cbn [snd].
  case_decide; [|by eapply IH]. rewrite !fmap_cons. cbn. f_equal. by eapply IH.
Qed.

(** ** Merging *)

Section merge.
Context `{DnssecOrder} (issingleton : Z → bool) (isc_mem_get : nat → Z → option mem).
Context (rdclass type : Z).
Abbreviation dcmp := (dcmp rdclass type).
Abbreviation item_of := (item_of rdclass type).
Abbreviation in_bodies := (in_bodies rdclass type).
Abbreviation ordered := (ordered rdclass type).

(** A fetched item of the slab: key, record, and where the next one is. *)
Definition cursor_at (m : mem) (base : nat) (k o : nat) (b : list Z) (c : cursor) : Prop :=
  cu_order c = k ∧ item_of b (cu_rdata c) ∧
  length (rd_data (cu_rdata c)) + (if is_rrsig type then 1 else 0) = length b ∧
  cu_pos c = base + o + 4 + (if is_rrsig type then 1 else 0) ∧
  cu_next c = base + (o + 4 + length b) ∧ rec_at m base (o, b).

Lemma fetch_spec m base k o b count :
  rec_at m base (o, b) → body_ok type b → rd16 m (base + o + 2) = Some (Z.of_nat k) →
  k < count → ∃ c, fetch rdclass type m (base + o) count = Some c ∧
                   cursor_at m base k o b c.
Proof.
  intros Hr Hok Hk Hc. unfold fetch, order_at. rewrite Hk. cbn [fmap option_fmap].
  cbn [mbind option_bind option_map]. rewrite Nat2Z.id, bool_decide_true by done.
  destruct (rdata_from_slab_spec rdclass type m base o b _ Hr Hok Hk)
    as (r & -> & Hi & Hl).
  cbn [mbind option_bind]. eexists. split; [done|].
  split_and!; cbn; try done. lia.
Qed.

(** Copying an item places it. *)
Lemma copy_item_spec src sbase k o b c m base tcurrent :
  cursor_at src sbase k o b c → base <= tcurrent →
  tcurrent + 4 + length b <= length m →
  ∃ m', copy_item type src c m tcurrent = Some (m', tcurrent + 4 + length b) ∧
        placed_one m base tcurrent b m'.
Proof.
  intros (_ & _ & Hl & Hp & _ & Hrec) Hb Hfit. destruct Hrec as (H16 & _ & Hbody).
  cbn [fst snd] in *. unfold copy_item.
  assert ((if is_rrsig type
           then (length (rd_data (cu_rdata c)) + 1, cu_pos c - 1)
           else (length (rd_data (cu_rdata c)), cu_pos c)) =
          (length b, sbase + o + 4)) as ->.
  { destruct (is_rrsig type); f_equal; lia. }
  pose proof (enc16_length (Z.of_nat (length b))) as He.
  destruct (mwrite_is_Some m tcurrent (enc16 (Z.of_nat (length b)))) as [m1 H1]; [lia|].
  pose proof (mwrite_length _ _ _ _ H1) as Hl1. rewrite H1. cbn [mbind option_bind].
  rewrite Hbody. cbn [mbind option_bind].
  destruct (mwrite_is_Some m1 (tcurrent + 4) b) as [m2 H2]; [lia|].
  rewrite H2. cbn [mbind option_bind]. exists m2. split; [done|].
  by eapply placed_write.
Qed.

Context (om nm : mem) (reservelen : nat).
Context (lo1 lo2 : list entry) (ph1 ph2 : list (list Z)).
Context (Hs1 : slab_at om reservelen lo1 ph1) (Hs2 : slab_at nm reservelen lo2 ph2).
Context (Hok1 : Forall (body_ok type) ph1) (Hok2 : Forall (body_ok type) ph2).
Context (Ho1 : ordered ph1) (Ho2 : ordered ph2).

Definition is_new (b : list Z) : Prop := in_bodies ph1 b = false.
#[local] Instance is_new_dec b : Decision (is_new b).
Proof. unfold is_new. apply _. Defined.

Lemma next_new_spec kvs start ph p its fuel :
  walk nm reservelen kvs start ph → (∀ q, q ∈ ph → q ∈ ph2) →
  Forall (λ q, q < length lo2) kvs.*1 →
  filter (λ q, is_new q.2.2) kvs = p :: its → length kvs < fuel →
  ∃ c kvs' start' ph', next_new rdclass type fuel om nm reservelen (reservelen + start)
      (length lo2) = Some c ∧
    cursor_at nm reservelen p.1 p.2.1 p.2.2 c ∧ cu_next c = reservelen + start' ∧
    walk nm reservelen kvs' start' ph' ∧ (∀ q, q ∈ ph' → q ∈ ph2) ∧
    Forall (λ q, q < length lo2) kvs'.*1 ∧ length kvs' < length kvs ∧
    filter (λ q, is_new q.2.2) kvs' = its.
Proof.
  revert kvs start fuel. induction ph as [|b ph IH]; intros kvs start fuel Hw Hin Hk Hf Hfu.
  { apply walk_length in Hw. by destruct kvs. }
  apply walk_cons in Hw as (k & kvs' & -> & Hrec & Hk16 & Hw).
  destruct fuel as [|fuel]; [lia|]. cbn [next_new length] in *.
  apply Forall_cons in Hk as [Hk1 Hk2].
  assert (body_ok type b) as Hokb
    by (rewrite Forall_forall in Hok2; apply Hok2, Hin; set_solver +).
  destruct (fetch_spec nm reservelen k start b (length lo2) Hrec Hokb Hk16 Hk1)
    as (c & -> & Hc). cbn [mbind option_bind].
  pose proof Hc as (_ & Hi & _ & _ & Hnext & _).
  rewrite (rdata_in_slab_spec rdclass type om reservelen lo1 ph1 b) by done.
  cbn [mbind option_bind]. rewrite filter_cons in Hf. cbn [snd] in Hf.
  case_decide as Hnew; unfold is_new in Hnew.
  - rewrite Hnew. injection Hf as <- Hf. exists c, kvs', (start + 4 + length b), ph.
    split_and!; try done; [|lia]. intros q Hq. apply Hin. set_solver.
  - destruct (in_bodies ph1 b); [|done]. rewrite Hnext.
    destruct (IH kvs' (start + 4 + length b) fuel Hw) as (c' & kvs2 & st & ph' & Hres);
      [intros; apply Hin; set_solver|done|done|lia|].
    exists c', kvs2, st, ph'. destruct Hres as (? & ? & ? & ? & ? & ? & ? & ?).
    split_and!; try done. lia.
Qed.

(** *** The loop *)

(** The items of [K] are the old slab's from its cursor on. *)
Definition old_state (oadded : nat) (oc : option cursor) (K : list (nat * entry)) : Prop :=
  oadded + length K = length lo1 ∧
  match K with
  | [] => True
  | p :: K' => ∃ c start ph, oc = Some c ∧ cursor_at om reservelen p.1 p.2.1 p.2.2 c ∧
      p.1 < length lo1 ∧
      cu_next c = reservelen + start ∧ walk om reservelen K' start ph ∧
      (∀ q, q ∈ ph → q ∈ ph1) ∧ Forall (λ q, q < length lo1) K'.*1
  end.

(** The items of [K] are the new slab's from its cursor on, without those the
    old slab has. *)
Definition new_state (ncount nadded : nat) (nc : option cursor) (K : list (nat * entry))
    : Prop :=
  nadded + length K = ncount ∧
  match K with
  | [] => True
  | p :: K' => ∃ c kvs start ph, nc = Some c ∧
      cursor_at nm reservelen p.1 p.2.1 p.2.2 c ∧ p.1 < length lo2 ∧
      cu_next c = reservelen + start ∧ walk nm reservelen kvs start ph ∧
      (∀ q, q ∈ ph → q ∈ ph2) ∧ Forall (λ q, q < length lo2) kvs.*1 ∧
      length kvs <= length lo2 ∧ filter (λ q, is_new q.2.2) kvs = K'
  end.

Lemma old_first kvs start ph oadded :
  walk om reservelen kvs start ph → (∀ q, q ∈ ph → q ∈ ph1) →
  Forall (λ q, q < length lo1) kvs.*1 → oadded + length kvs = length lo1 →
  ∃ oc, (if bool_decide (oadded < length lo1)
         then Some <$> fetch rdclass type om (reservelen + start) (length lo1)
         else Some None) = Some oc ∧ old_state oadded oc kvs.
Proof.
  intros Hw Hin Hk Hl. destruct ph as [|b ph].
  { apply walk_length in Hw as Hl0. destruct kvs; [|done]. cbn in Hl.
    rewrite bool_decide_false by lia. by exists None. }
  apply walk_cons in Hw as (k & kvs' & -> & Hrec & Hk16 & Hw). cbn [length] in Hl.
  apply Forall_cons in Hk as [Hk1 Hk2]. rewrite bool_decide_true by lia.
  assert (body_ok type b) as Hokb
    by (rewrite Forall_forall in Hok1; apply Hok1, Hin; set_solver +).
  destruct (fetch_spec om reservelen k start b (length lo1) Hrec Hokb Hk16 Hk1)
    as (c & -> & Hc). exists (Some c). split; [done|]. split; [cbn; lia|].
  pose proof Hc as (_ & _ & _ & _ & Hnext & _).
  exists c, (start + 4 + length b), ph. split_and!; try done. intros q Hq.
  apply Hin. set_solver.
Qed.

Lemma new_first kvs start ph ncount nadded K :
  walk nm reservelen kvs start ph → (∀ q, q ∈ ph → q ∈ ph2) →
  Forall (λ q, q < length lo2) kvs.*1 → length kvs <= length lo2 →
  filter (λ q, is_new q.2.2) kvs = K → nadded + length K = ncount →
  ∃ nc, (if bool_decide (nadded < ncount)
         then Some <$> next_new rdclass type (S (length lo2)) om nm reservelen
                         (reservelen + start) (length lo2)
         else Some None) = Some nc ∧ new_state ncount nadded nc K.
Proof.
  intros Hw Hin Hk Hl Hf Hn. destruct K as [|p K].
  { rewrite bool_decide_false by (cbn in Hn; lia). by exists None. }
  cbn [length] in Hn. rewrite bool_decide_true by lia.
  destruct (next_new_spec kvs start ph p K (S (length lo2)) Hw Hin Hk Hf)
    as (c & kvs' & start' & ph' & -> & Hc & Hnx & Hw' & Hin' & Hk' & Hl' & Hf'); [lia|].
  exists (Some c). split; [done|]. split; [cbn; lia|].
  exists c, kvs', start', ph'. split_and!; try done; [|lia].
  assert (p ∈ kvs) as Hp.
  { assert (p ∈ filter (λ q, is_new q.2.2) kvs) as Hp by (rewrite Hf; set_solver +).
    by apply list_elem_of_filter in Hp as [_ ?]. }
  rewrite Forall_forall in Hk. apply Hk, list_elem_of_fmap. by exists p.
Qed.

Definition old_item (p : nat * entry) : nat * list Z := (p.1, p.2.2).
Definition new_item (p : nat * entry) : nat * list Z := (length lo1 + p.1, p.2.2).
Definition before (p q : nat * list Z) : Prop := (dcmp p.2 q.2 < 0)%Z.
#[local] Instance before_dec : RelDecision before.
Proof. intros p q. unfold before. apply _. Defined.

(** What the loop writes. *)
Definition merged (K1 K2 : list (nat * entry)) : list (nat * list Z) :=
  list_merge before (old_item <$> K1) (new_item <$> K2).

Lemma merged_old p K1 K2 :
  K2 = [] ∨ (∃ q K2', K2 = q :: K2' ∧ (dcmp p.2.2 q.2.2 < 0)%Z) →
  merged (p :: K1) K2 = old_item p :: merged K1 K2.
Proof.
  unfold merged. intros [->|(q & K2' & -> & Hd)]; cbn.
  - f_equal. by destruct (old_item <$> K1).
  - rewrite decide_True by done. done.
Qed.

Lemma merged_new q K1 K2 :
  K1 = [] ∨ (∃ p K1', K1 = p :: K1' ∧ ¬ (dcmp p.2.2 q.2.2 < 0)%Z) →
  merged K1 (q :: K2) = new_item q :: merged K1 K2.
Proof.
  unfold merged. intros [->|(p & K1' & -> & Hd)]; [cbn; f_equal; by destruct (new_item <$> K2)|]. cbn.
  by rewrite decide_False by done.
Qed.

Lemma merge_loop_spec ncount tablen : ∀ k K1 K2 oadded nadded oc nc m tcurrent tab,
  old_state oadded oc K1 → new_state ncount nadded nc K2 →
  k = length K1 + length K2 → length lo1 + length lo2 <= length tab →
  reservelen <= tcurrent → length tab = tablen →
  tcurrent + recs_size (merged K1 K2).*2 <= length m →
  ∃ m' raw' tab',
    merge_loop rdclass type k om nm reservelen (length lo1) (length lo2) ncount
      oadded nadded oc nc m tcurrent tab = Some (m', raw', tab') ∧
    placed m reservelen tcurrent tab (merged K1 K2) m' raw' tab'.
Proof.
  induction k as [|k IH]; intros K1 K2 oadded nadded oc nc m tcurrent tab
    [Hol Ho] [Hnl Hn] Hk Htab Hbase Htl Hfit.
  { destruct K1, K2; try (cbn in Hk; lia). exists m, tcurrent, tab. split; [done|]. apply placed_nil. }
  cbn [merge_loop].
  assert ((∃ p K1', K1 = p :: K1' ∧ merged K1 K2 = old_item p :: merged K1' K2 ∧
     (if bool_decide (oadded = length lo1) then Some false
      else if bool_decide (nadded = ncount) then Some true
      else o ← oc; n ← nc;
           Some (bool_decide (dns_rdata_compare (cu_rdata o) (cu_rdata n) < 0)%Z)) = Some true) ∨
    (∃ q K2', K2 = q :: K2' ∧ merged K1 K2 = new_item q :: merged K1 K2' ∧
     (if bool_decide (oadded = length lo1) then Some false
      else if bool_decide (nadded = ncount) then Some true
      else o ← oc; n ← nc;
           Some (bool_decide (dns_rdata_compare (cu_rdata o) (cu_rdata n) < 0)%Z)) = Some false))
    as Hcase.
  { destruct K1 as [|p K1], K2 as [|q K2]; cbn [length] in *; [done| | |].
    - right. rewrite bool_decide_true by lia. exists q, K2. split; [done|].
      split; [|done]. apply merged_new. by left.
    - left. rewrite bool_decide_false, bool_decide_true by lia. exists p, K1.
      split; [done|]. split; [|done]. apply merged_old. by left.
    - rewrite !bool_decide_false by lia.
      destruct Ho as (c & ? & ? & -> & (_ & Hi & _) & _).
      destruct Hn as (c' & ? & ? & ? & -> & (_ & Hi' & _) & _).
      cbn [mbind option_bind]. rewrite (item_compare _ _ _ _ _ _ Hi Hi').
      case_bool_decide as Hd; [left; exists p, K1|right; exists q, K2];
        (split; [done|]; split; [|done]).
      + apply merged_old. right. by exists q, K2.
      + apply merged_new. right. by exists p, K1. }
  destruct Hcase as [(p & K1' & -> & Hm & ->)|(q & K2' & -> & Hm & ->)];
    cbn [mbind option_bind]; rewrite Hm in *; cbn [fmap list_fmap length] in *;
    rewrite recs_size_cons in Hfit; cbn [old_item new_item snd] in Hfit.
  - destruct Ho as (c & start & ph & -> & Hc & Hp & Hnx & Hw & Hin & Hkk).
    cbn [mbind option_bind]. pose proof Hc as (-> & _).
    unfold tab_set. rewrite (bool_decide_true (_ < length tab)) by lia.
    cbn [mbind option_bind].
    destruct (copy_item_spec _ _ _ _ _ _ m reservelen tcurrent Hc) as (m1 & -> & Hpo);
      [lia|lia|]. cbn [mbind option_bind]. rewrite Hnx.
    destruct (old_first K1' start ph (S oadded) Hw Hin Hkk) as (oc' & -> & Hos'); [lia|].
    cbn [mbind option_bind].
    destruct (IH K1' K2 (S oadded) nadded oc' nc m1 (tcurrent + 4 + length p.2.2)
      (<[p.1:=Z.of_nat (tcurrent - reservelen)]> tab)) as (m' & raw' & tab' & -> & Hpl);
      rewrite ?length_insert; try done; try lia.
    { by rewrite (po_len _ _ _ _ _ Hpo); lia. }
    exists m', raw', tab'. split; [done|]. by eapply placed_cons.
  - destruct Hn as (c & kvs & start & ph & -> & Hc & Hp & Hnx & Hw & Hin & Hkk & Hlk & Hf).
    cbn [mbind option_bind]. pose proof Hc as (-> & _).
    unfold tab_set. rewrite (bool_decide_true (_ < length tab)) by lia.
    cbn [mbind option_bind].
    destruct (copy_item_spec _ _ _ _ _ _ m reservelen tcurrent Hc) as (m1 & -> & Hpo);
      [lia|lia|]. cbn [mbind option_bind]. rewrite Hnx.
    destruct (new_first kvs start ph ncount (S nadded) K2' Hw Hin Hkk Hlk Hf)
      as (nc' & -> & Hns'); [lia|].
    cbn [mbind option_bind].
    destruct (IH K1 K2' oadded (S nadded) oc nc' m1 (tcurrent + 4 + length q.2.2)
      (<[length lo1 + q.1:=Z.of_nat (tcurrent - reservelen)]> tab))
      as (m' & raw' & tab' & -> & Hpl);
      rewrite ?length_insert; try done; try lia.
    { by rewrite (po_len _ _ _ _ _ Hpo); lia. }
    exists m', raw', tab'. split; [done|]. by eapply placed_cons.
Qed.

(** *** The counts *)

(** The space records take, with their table entries. *)
Definition room (ph : list (list Z)) : nat := recs_size ph + 4 * length ph.

Lemma merge_olength_spec kvs start ph olength :
  walk om reservelen kvs start ph → (0 <= olength)%Z →
  (olength + Z.of_nat (room ph) < 2 ^ 32)%Z →
  merge_olength om (reservelen + start) (length ph) olength =
    Some (olength + Z.of_nat (room ph))%Z.
Proof.
  unfold room. revert kvs start olength. induction ph as [|b ph IH];
    intros kvs start olength Hw Hz Hb; [cbn; do 2 f_equal; lia|].
  apply walk_cons in Hw as (k & kvs' & -> & (_ & Hl & _) & Hk & Hw).
  cbn [length merge_olength]. cbn [fst snd] in Hl. rewrite Hl. cbn [mbind option_bind].
  rewrite recs_size_cons in *. cbn [length] in *. rewrite Nat2Z.id, u32_small by lia.
  replace (reservelen + start + 2 + length b + 2)
    with (reservelen + (start + 4 + length b)) by lia.
  rewrite (IH _ _ _ Hw) by lia. f_equal. lia.
Qed.

Lemma merge_count_spec kvs start ph tlength nncount :
  walk nm reservelen kvs start ph → (∀ q, q ∈ ph → q ∈ ph2) →
  (0 <= tlength)%Z → (0 <= nncount)%Z →
  (tlength + Z.of_nat (room (filter is_new ph)) < 2 ^ 32)%Z →
  (nncount + Z.of_nat (length (filter is_new ph)) < 2 ^ 32)%Z →
  merge_count rdclass type om nm reservelen (reservelen + start) (length ph) tlength nncount =
    Some (tlength + Z.of_nat (room (filter is_new ph)),
          nncount + Z.of_nat (length (filter is_new ph)))%Z.
Proof.
  unfold room. revert kvs start tlength nncount. induction ph as [|b ph IH];
    intros kvs start tlength nncount Hw Hin Ht Hn Hbt Hbn; [cbn; do 2 f_equal; lia|].
  apply walk_cons in Hw as (k & kvs' & -> & Hrec & Hk & Hw).
  assert (body_ok type b) as Hokb
    by (rewrite Forall_forall in Hok2; apply Hok2, Hin; set_solver +).
  destruct (rdata_from_slab_spec rdclass type nm reservelen start b _ Hrec Hokb Hk)
    as (r & Hr & Hi & Hl).
  cbn [length merge_count]. rewrite Hr. cbn [mbind option_bind].
  rewrite (rdata_in_slab_spec rdclass type om reservelen lo1 ph1 b) by done.
  cbn [mbind option_bind]. rewrite filter_cons in *.
  replace (reservelen + start + 4 + length b) with (reservelen + (start + 4 + length b)) by lia.
  destruct (decide (is_new b)) as [Hnew|Hnew]; unfold is_new in Hnew.
  - rewrite Hnew. rewrite recs_size_cons in *. cbn [length] in *.
    assert ((if is_rrsig type
             then u32 (u32 (tlength + (Z.of_nat (length (rd_data r)) + 8)) + 1)
             else u32 (tlength + (Z.of_nat (length (rd_data r)) + 8))) =
            tlength + Z.of_nat (8 + length b))%Z as ->.
    { destruct (is_rrsig type); rewrite (u32_small (tlength + _)) by lia;
        rewrite ?u32_small; lia. }
    rewrite (u32_small (nncount + 1)) by lia.
    rewrite (IH _ _ _ _ Hw); [do 2 f_equal; lia| |lia..].
    intros q Hq. apply Hin. set_solver.
  - destruct (in_bodies ph1 b); [|done]. apply (IH _ _ _ _ Hw); try done.
    intros q Hq. apply Hin. set_solver.
Qed.

(** *** What the loop leaves *)

Lemma merged_perm K1 K2 : merged K1 K2 ≡ₚ (old_item <$> K1) ++ (new_item <$> K2).
Proof. apply merge_Permutation. Qed.

Lemma merged_bodies K1 K2 : (merged K1 K2).*2 ≡ₚ K1.*2.*2 ++ K2.*2.*2.
Proof.
  rewrite merged_perm, fmap_app, <- !list_fmap_compose. done.
Qed.

Lemma merged_ordered K1 K2 :
  ordered K1.*2.*2 → ordered K2.*2.*2 → (∀ b, b ∈ K1.*2.*2 → b ∈ ph1) →
  Forall is_new K2.*2.*2 → ordered (merged K1 K2).*2.
Proof.
  intros HK1 HK2 Hin Hnew. pose proof (dcmp_order rdclass type) as Ho.
  remember (length K1 + length K2) as n eqn:Hn.
  revert K1 K2 Hn HK1 HK2 Hin Hnew. induction n as [n IH] using lt_wf_ind.
  intros K1 K2 -> HK1 HK2 Hin Hnew.
  destruct K1 as [|p K1].
  { unfold merged. cbn. destruct K2 as [|q K2]; [constructor|]. cbn.
    cbn in HK2. by rewrite <- list_fmap_compose in HK2 |- *. }
  destruct K2 as [|q K2].
  { unfold merged. cbn. cbn in HK1. rewrite <- list_fmap_compose in HK1 |- *. done. }
  assert (∀ x y z, dcmp x y < 0 → dcmp y z < 0 → dcmp x z < 0)%Z as Htr.
  { intros x y z Hxy Hyz.
    apply (cmp_lt_le_trans _ _ x y z (Ho [x; y; z])); try set_solver +; lia. }
  pose proof HK1 as [HK1s Hp]%StronglySorted_inv.
  pose proof HK2 as [HK2s Hq]%StronglySorted_inv. cbn [fmap list_fmap] in *.
  destruct (decide (dcmp p.2.2 q.2.2 < 0)%Z) as [Hd|Hd].
  - rewrite (merged_old p K1 (q :: K2)) by (right; by exists q, K2).
    cbn [fmap list_fmap]. constructor.
    + eapply IH; [| |done|exact HK2| |done]; [|done|]; [cbn; lia|].
      intros b Hb. apply Hin. set_solver.
    + cbn [old_item snd]. rewrite merged_bodies. cbn [fmap list_fmap].
      apply Forall_app_2; [done|]. constructor; [done|].
      eapply Forall_impl; [exact Hq|]. cbn. eauto.
  - rewrite (merged_new q (p :: K1) K2) by (right; by exists p, K1).
    apply Forall_cons in Hnew as [Hnq Hnew].
    assert (dcmp q.2.2 p.2.2 < 0)%Z as Hd'.
    { assert (dcmp p.2.2 q.2.2 ≠ 0)%Z as Hne.
      { intros He. unfold is_new in Hnq. apply not_true_iff_false in Hnq. apply Hnq.
        apply existsb_exists. exists p.2.2. split; [|by apply bool_decide_eq_true].
        apply list_elem_of_In, Hin. set_solver +. }
      pose proof (cmp_anti _ _ (Ho [p.2.2; q.2.2]) p.2.2 q.2.2
        ltac:(set_solver +) ltac:(set_solver +)). lia. }
    cbn [fmap list_fmap]. constructor.
    + eapply IH; [|done|exact HK1|done|done|done]. cbn; lia.
    + cbn [new_item snd]. rewrite merged_bodies. cbn [fmap list_fmap].
      apply Forall_app_2; [|done]. constructor; [done|].
      eapply Forall_impl; [exact Hp|]. cbn. eauto.
Qed.

Lemma imap_pair_NoDup (l : list entry) : NoDup (imap pair l).*1.
Proof.
  rewrite fmap_imap. apply NoDup_alt. intros i j k. rewrite !list_lookup_imap.
  intros (x & _ & Hi)%fmap_Some (y & _ & Hj)%fmap_Some. cbn in *. congruence.
Qed.

Lemma merged_keys kvs1 kvs2 :
  kvs1 ≡ₚ imap pair lo1 → kvs2 ≡ₚ imap pair lo2 →
  let its := merged kvs1 (filter (λ q, is_new q.2.2) kvs2) in
  NoDup its.*1 ∧ Forall (λ k, k < length lo1 + length lo2) its.*1 ∧
  (∀ i b, i < length lo1 + length lo2 →
    (if decide (i < length lo1) then lo1.*2 !! i
     else x ← lo2.*2 !! (i - length lo1); if decide (is_new x) then Some x else None)
    = Some b ↔ (i, b) ∈ its).
Proof.
  intros H1 H2 its.
  assert (∀ i b, (i, b) ∈ its ↔
    (∃ e, lo1 !! i = Some e ∧ b = e.2) ∨
    (∃ j e, i = length lo1 + j ∧ lo2 !! j = Some e ∧ b = e.2 ∧ is_new b)) as Hin.
  { intros i b. subst its. rewrite merged_perm, elem_of_app, !list_elem_of_fmap.
    setoid_rewrite list_elem_of_filter. setoid_rewrite H1. setoid_rewrite H2.
    setoid_rewrite elem_of_lookup_imap. split.
    - intros [(p & [= -> ->] & (k & e & -> & He))|
              (p & [= -> ->] & Hn & (k & e & -> & He))]; [left; by exists e|].
      right. by exists k, e.
    - intros [(e & He & ->)|(j & e & -> & He & -> & Hn)].
      + left. exists (i, e). split; [done|]. by exists i, e.
      + right. exists (j, e). split; [done|]. split; [done|]. by exists j, e. }
  assert (Forall (λ k, k < length lo1 + length lo2) its.*1) as Hlt.
  { rewrite Forall_fmap. apply Forall_forall. intros [i b]. rewrite Hin. cbn.
    intros [(e & He%lookup_lt_Some & _)|(j & e & -> & He%lookup_lt_Some & _)]; lia. }
  split; [|split; [done|]].
  - subst its. rewrite merged_perm, fmap_app, <- !list_fmap_compose.
    apply NoDup_app. split_and!.
    + change (fst ∘ old_item) with (fst : nat * entry → nat). rewrite H1.
      apply imap_pair_NoDup.
    + intros k. rewrite !list_elem_of_fmap. setoid_rewrite list_elem_of_filter.
      setoid_rewrite H1. setoid_rewrite H2. setoid_rewrite elem_of_lookup_imap.
      intros (p & -> & i & e & -> & He%lookup_lt_Some) (q & Hq & _ & j & e' & -> & _).
      cbn in Hq. lia.
    + apply NoDup_fmap_2_strong with (f := fst ∘ new_item).
      * intros p q. rewrite !list_elem_of_filter, H2, !elem_of_lookup_imap.
        intros (_ & i & e & -> & He) (_ & j & e' & -> & He') Heq. cbn in Heq.
        assert (i = j) as -> by lia. congruence.
      * apply NoDup_filter. rewrite H2. apply (NoDup_fmap_1 fst), imap_pair_NoDup.
  - intros i b Hi. rewrite Hin. case_decide as Hi1.
    + rewrite list_lookup_fmap, fmap_Some. split; [intros (e & He & ->); left; by exists e|].
      intros [(e & He & ->)|(j & e & -> & _)]; [by exists e|lia].
    + rewrite list_lookup_fmap, bind_Some. setoid_rewrite fmap_Some. split.
      * intros (x & (e & He & ->) & Hx). case_decide; [|done]. injection Hx as <-.
        right. exists (i - length lo1), e. split_and!; try done. lia.
      * intros [(e & He%lookup_lt_Some & _)|(j & e & -> & He & -> & Hn)]; [lia|].
        exists e.2. replace (length lo1 + j - length lo1) with j by lia.
        split; [by exists e|]. by rewrite decide_True.
Qed.

(** The merged slab's load order: the old records', then the new ones'. *)
Lemma merged_load_order n start (its : list (nat * list Z)) :
  n = length lo1 + length lo2 → NoDup its.*1 →
  (∀ i b, i < n →
    (if decide (i < length lo1) then lo1.*2 !! i
     else x ← lo2.*2 !! (i - length lo1); if decide (is_new x) then Some x else None)
    = Some b ↔ (i, b) ∈ its) →
  (by_key n (zip its.*1 (layout start its.*2))).*2 = lo1.*2 ++ filter is_new lo2.*2.
Proof.
  intros -> Hnd Hf. rewrite (by_key_items _ _ its _ Hnd Hf). rewrite seq_app, omap_app.
  match goal with |- context [omap ?g _] => remember g as f eqn:Ef end.
  pose proof (omap_seq_lookup lo1.*2 (λ _, True) 0 f) as E1.
  pose proof (omap_seq_lookup lo2.*2 is_new (length lo1) f) as E2.
  rewrite length_fmap in E1, E2. cbn [Nat.add]. rewrite E1, E2; subst f.
  - f_equal. generalize lo1.*2. intros l. induction l as [|b l IHl]; [done|].
    rewrite filter_cons_True by done. by rewrite IHl.
  - intros i Hi. rewrite decide_False by lia.
    by replace (length lo1 + i - length lo1) with i by lia.
  - intros i Hi. rewrite decide_True by lia. cbn. by destruct (lo1.*2 !! i).
Qed.

(** *** The whole merge *)

Abbreviation added := (filter is_new ph2).

Context (Hne1 : lo1 ≠ []) (Hne2 : lo2 ≠ []).
Context (Hsize : (Z.of_nat (reservelen + 2 + room ph1 + room added) < 2 ^ 32)%Z).

Lemma counts_small :
  length lo1 = length ph1 ∧ length lo2 = length ph2 ∧ length ph1 ≠ 0 ∧ length ph2 ≠ 0 ∧
  (Z.of_nat (length ph1) < 2 ^ 16)%Z ∧ (Z.of_nat (length ph2) < 2 ^ 16)%Z ∧
  length added <= length ph2.
Proof.
  pose proof (sl_max _ _ _ _ Hs1). pose proof (sl_max _ _ _ _ Hs2).
  pose proof (entries_length (sl_phys _ _ _ _ Hs1)) as E1.
  pose proof (entries_length (sl_phys _ _ _ _ Hs2)) as E2.
  pose proof (length_filter is_new ph2).
  assert (length lo1 ≠ 0) by (by intros ?%nil_length_inv).
  assert (length lo2 ≠ 0) by (by intros ?%nil_length_inv). lia.
Qed.

Definition merge_length : Z := Z.of_nat (reservelen + 2 + room ph1 + room added).

(** Up to the decisions. *)
Ltac merge_front :=
  let H1 := fresh "Hw1" in let H2 := fresh "Hw2" in
  destruct (slab_walk _ _ _ _ Hs1) as (kvs1 & H1 & Hkvs1);
  destruct (slab_walk _ _ _ _ Hs2) as (kvs2 & H2 & Hkvs2);
  pose proof counts_small as (Hl1 & Hl2 & Hz1 & Hz2 & Hc1 & Hc2 & Hc3);
  unfold dns_rdataslab_merge; rewrite (sl_count _ _ _ _ Hs1), (sl_count _ _ _ _ Hs2);
  cbn [mbind option_bind]; rewrite bool_decide_true, !Nat2Z.id, Hl1, Hl2 by lia;
  rewrite <- !(Nat.add_assoc reservelen 2);
  rewrite (merge_olength_spec _ _ _ _ H1) by lia; cbn [mbind option_bind];
  rewrite (u32_small (_ + _ + _)) by lia;
  rewrite (merge_count_spec _ _ _ _ _ H2) by (done || lia); cbn [mbind option_bind];
  replace (Z.of_nat reservelen + 2 + (0 + Z.of_nat (room ph1)) + Z.of_nat (room added))%Z
    with merge_length by (unfold merge_length; lia);
  rewrite !Z.add_0_l, (u32_small (Z.of_nat (length ph1) + _)),
    (u32_small (Z.of_nat (length added) + _)) by lia;
  rewrite (bool_decide_false (_ ∧ _)) by (intros [_ Hx]; apply Hx; lia);
  rewrite (bool_decide_ext (Z.of_nat (length added) ≠ 0%Z) (added ≠ []))
    by (split; [intros Hx Hx'; apply Hx; by rewrite Hx'
              |intros Hx Hx'; apply Hx, length_zero_iff_nil; lia]).

(** What stops a merge. *)
Definition merge_early (flags : Z) : option isc_result :=
  let tcount := (Z.of_nat (length ph1) + Z.of_nat (length added))%Z in
  if bool_decide (added = []) && bool_decide (Z.land flags DNS_RDATASLAB_FORCE = 0%Z)
  then Some DNS_R_UNCHANGED
  else if bool_decide (tcount > 1)%Z && issingleton type then Some DNS_R_SINGLETON
  else if bool_decide (tcount > 65535)%Z then Some ISC_R_NOSPACE
  else match isc_mem_get 0 merge_length with
       | Some _ => None | None => Some ISC_R_NOMEMORY end.

Lemma merge_stops flags r :
  merge_early flags = Some r →
  dns_rdataslab_merge issingleton isc_mem_get rdclass type om nm reservelen flags =
    Some (r, None).
Proof.
  merge_front. unfold merge_early. rewrite bool_decide_not, negb_involutive.
  repeat case_match; congruence.
Qed.

(** A merge that is not stopped gives a slab: the records of the old slab and
    those of the new one that it has not, in DNSSEC order; the old ones come
    first in load order. *)
Lemma merge_slab flags tstart tab :
  merge_early flags = None →
  isc_mem_get 0 merge_length = Some tstart → Z.of_nat (length tstart) = merge_length →
  isc_mem_get 1 (Z.of_nat (length ph1) + Z.of_nat (length ph2)) = Some tab →
  ∃ m lo' ph',
    dns_rdataslab_merge issingleton isc_mem_get rdclass type om nm reservelen flags =
      Some (ISC_R_SUCCESS, Some m) ∧
    slab_at m reservelen lo' ph' ∧ lo'.*2 = lo1.*2 ++ filter is_new lo2.*2 ∧
    ordered ph' ∧ length m = reservelen + slab_size ph' ∧
    mread m 0 reservelen = mread nm 0 reservelen.
Proof.
  intros He Hts Htl Htab. revert He. merge_front. unfold merge_early.
  rewrite bool_decide_not, negb_involutive, Hts, Htab.
  destruct (_ && _); [done|]. destruct (_ && _); [done|].
  case_bool_decide as Hmax; [done|]. intros _.
  pose proof (sl_fits _ _ _ _ Hs2) as Hfit2.
  destruct (mread_is_Some nm 0 reservelen) as [res Hres]; [lia|].
  pose proof (mread_length _ _ _ _ Hres) as Hrl. rewrite Hres. cbn [mbind option_bind].
  unfold merge_length, room in Htl.
  destruct (mwrite_is_Some tstart 0 res) as [m1 Hm1]; [lia|].
  pose proof (mwrite_length _ _ _ _ Hm1) as Hml1. rewrite Hm1. cbn [mbind option_bind].
  match goal with |- context [enc16 ?v] => set (tcount := v) end.
  pose proof (enc16_length tcount) as Hel.
  destruct (mwrite_is_Some m1 reservelen (enc16 tcount)) as [m2 Hm2]; [lia|].
  pose proof (mwrite_length _ _ _ _ Hm2) as Hml2. rewrite Hm2. cbn [mbind option_bind].
  rewrite !Nat2Z.id.
  set (K2 := filter (λ q, is_new q.2.2) kvs2).
  assert (length K2 = length added) as HK2.
  { subst K2. rewrite <- (filter_walk is_new _ _ _ (proj1 Hw2)). by rewrite !length_fmap. }
  assert (Forall (λ q, q < length lo1) kvs1.*1) as Hk1.
  { rewrite Hkvs1, Forall_fmap, Forall_forall. intros p.
    rewrite elem_of_lookup_imap. intros (i & e & -> & He%lookup_lt_Some). done. }
  assert (Forall (λ q, q < length lo2) kvs2.*1) as Hk2.
  { rewrite Hkvs2, Forall_fmap, Forall_forall. intros p.
    rewrite elem_of_lookup_imap. intros (i & e & -> & He%lookup_lt_Some). done. }
  pose proof (walk_length _ _ _ _ _ Hw1) as Hkl1.
  pose proof (walk_length _ _ _ _ _ Hw2) as Hkl2.
  destruct (old_first kvs1 _ ph1 0 Hw1) as (oc & Hoc & Hos); [done|done|lia|].
  destruct (new_first kvs2 _ ph2 (length K2) 0 K2 Hw2) as (nc & Hnc & Hns);
    [done|done|lia|done|lia|].
  rewrite Hl1 in Hoc. rewrite Hl2, HK2 in Hnc. rewrite HK2 in Hns.
  rewrite bool_decide_true in Hoc by lia.
  destruct (fetch rdclass type om (reservelen + (2 + 4 * length ph1)) (length ph1))
    as [oc1|]; [|done]. cbn [fmap option_fmap option_map] in Hoc. injection Hoc as <-.
  cbn [mbind option_bind].
  rewrite (bool_decide_ext (Z.of_nat (length added) > 0)%Z (0 < length added)) by lia.
  rewrite Hnc. cbn [mbind option_bind].
  pose proof (merged_keys kvs1 kvs2 Hkvs1 Hkvs2) as (Hnd & Hkeys & Hf). fold K2 in Hnd, Hkeys, Hf.
  pose proof (merged_bodies kvs1 K2) as Hbod.
  set (its := merged kvs1 K2) in *.
  assert (kvs1.*2.*2 = ph1) as Hb1 by (rewrite (proj1 Hw1); apply layout_snd).
  assert (K2.*2.*2 = added) as Hb2 by (by eapply filter_walk, (proj1 Hw2)).
  rewrite Hb1, Hb2 in Hbod.
  assert (recs_size its.*2 = recs_size ph1 + recs_size added) as Hrs
    by (rewrite <- recs_size_app; unfold recs_size; by rewrite Hbod).
  assert (length its.*2 = length ph1 + length added) as Hil
    by (by rewrite Hbod, length_app).
  replace (Z.to_nat tcount) with (length its.*2) by lia.
  replace (Z.to_nat (Z.of_nat (length ph1) + Z.of_nat (length ph2)))
    with (length lo1 + length lo2) by lia.
  destruct (merge_loop_spec (length added) (length lo1 + length lo2)
    (length ph1 + length added) kvs1 K2 0 0 (Some oc1) nc m2
    (reservelen + 2 + length its.*2 * 4) (replicate (length lo1 + length lo2) 0%Z))
    as (m3 & raw' & tab' & Hloop & Hpl); try done; rewrite ?length_replicate; try lia.
  { fold its. lia. }
  rewrite <- Hl1, <- Hl2 in *. rewrite Hloop. cbn [mbind option_bind].
  fold its in Hpl. replace (length its.*2 * 4) with (4 * length its.*2) in Hpl by lia.
  destruct (placed_slab _ _ _ _ _ _ _ Hpl) as (Hraw & m4 & -> & Hslab & Hl4 & Hfr);
    try done; try (unfold slab_size, room in *; lia).
  { replace (Z.of_nat (length its.*2)) with tcount by lia.
    eapply rd16_mwrite; [exact Hm2|lia]. }
  cbn [mbind option_bind]. rewrite bool_decide_true
    by (unfold merge_length, room, slab_size in *; lia).
  do 3 eexists. split; [done|]. split; [exact Hslab|].
  split; [by apply merged_load_order|]. split.
  { apply merged_ordered; rewrite ?Hb1, ?Hb2; try done.
    - by apply StronglySorted_filter.
    - apply Forall_forall. intros b Hb. by apply list_elem_of_filter in Hb as [? _]. }
  split; [unfold slab_size in *; lia|].
  rewrite <- (mread_mwrite_same _ _ _ _ Hm1), Hrl.
  apply mread_agree; [lia|]. intros i Hi. rewrite Hfr by lia.
  by rewrite (mwrite_frame _ _ _ _ _ Hm2) by lia.
Qed.
End merge.

(** ** Subtracting *)

(** Copying an item with its length and old index places it. *)
Lemma placed_raw src sbase o b bytes m base raw m1 :
  rec_at src sbase (o, b) → mread src (sbase + o) (4 + length b) = Some bytes →
  base <= raw → mwrite m raw bytes = Some m1 → placed_one m base raw b m1.
Proof.
  intros (H16 & Hl & Hb) Hr Hbr Hw. cbn [fst snd] in *.
  pose proof (mread_length _ _ _ _ Hr) as Hbl.
  assert (∀ i, i < 4 + length b → m1 !! (raw + i) = src !! (sbase + o + i)) as Hc.
  { intros i Hi. rewrite (mwrite_same _ _ _ _ _ Hw) by lia. by eapply mread_lookup. }
  split.
  - by eapply mwrite_length.
  - split; [done|]. cbn [fst snd]. replace (base + (raw - base)) with raw by lia. split.
    + rewrite <- Hl. unfold rd16. pose proof (Hc 0 ltac:(lia)) as H0.
      rewrite !Nat.add_0_r in H0. by rewrite H0, Hc by lia.
    + apply mread_intro; [done| |].
      * intros i x Hi. pose proof (lookup_lt_Some _ _ _ Hi) as Hlt.
        rewrite <- Nat.add_assoc, Hc by lia. rewrite <- Hi.
        rewrite (mread_lookup _ _ _ _ i Hb Hlt). f_equal. lia.
      * rewrite (mwrite_length _ _ _ _ Hw). pose proof (mwrite_bound _ _ _ _ Hw). lia.
  - intros i Hi. apply (mwrite_frame _ _ _ _ _ Hw). lia.
Qed.

Section subtract.
Context `{DnssecOrder} (isc_mem_get : nat → Z → option mem) (rdclass type : Z).
Context (mm sm : mem) (reservelen : nat).
Context (lo lo2 : list entry) (ph ph2 : list (list Z)).
Context (Hs : slab_at mm reservelen lo ph) (Hs2 : slab_at sm reservelen lo2 ph2).
Context (Hok : Forall (body_ok type) ph) (Hok2 : Forall (body_ok type) ph2).

(** The records that are not subtracted. *)
Definition stays (b : list Z) : Prop := in_bodies rdclass type ph2 b = false.
#[local] Instance stays_dec b : Decision (stays b).
Proof. unfold stays. apply _. Defined.

Abbreviation sstart := (reservelen + 2 + 4 * length ph2).

Lemma not_in_spec b r :
  item_of rdclass type b r →
  not_in_loop rdclass type sm sstart (length ph2) r = Some (bool_decide (stays b)).
Proof.
  intros Hr. destruct (slab_walk _ _ _ _ Hs2) as (kvs & Hw & _).
  replace sstart with (reservelen + (2 + 4 * length ph2)) by lia.
  rewrite (not_in_loop_spec rdclass type sm reservelen kvs _ ph2 b) by done.
  f_equal. case_bool_decide as Hd; unfold stays in Hd; by destruct (in_bodies _ _ ph2 b).
Qed.

Lemma subtract_count_spec kvs start l tlength tcount rcount :
  walk mm reservelen kvs start l → (∀ q, q ∈ l → q ∈ ph) →
  (0 <= tlength)%Z → (0 <= tcount)%Z → (0 <= rcount)%Z →
  (tlength + Z.of_nat (recs_size (filter stays l)) < 2 ^ 32)%Z →
  (tcount + Z.of_nat (length l) < 2 ^ 32)%Z → (rcount + Z.of_nat (length l) < 2 ^ 32)%Z →
  subtract_count rdclass type mm sm (reservelen + start) sstart (length ph2) (length l)
      tlength tcount rcount =
    Some (tlength + Z.of_nat (recs_size (filter stays l)),
          tcount + Z.of_nat (length (filter stays l)),
          rcount + Z.of_nat (length l - length (filter stays l)))%Z.
Proof.
  revert kvs start tlength tcount rcount. induction l as [|b l IH];
    intros kvs start tlength tcount rcount Hw Hin Ht Hc Hr Hbt Hbc Hbr;
    [cbn; do 2 f_equal; try f_equal; lia|].
  apply walk_cons in Hw as (k & kvs' & -> & Hrec & Hk & Hw).
  assert (body_ok type b) as Hokb
    by (rewrite Forall_forall in Hok; apply Hok, Hin; set_solver +).
  destruct (rdata_from_slab_spec rdclass type mm reservelen start b _ Hrec Hokb Hk)
    as (r & Hrs & Hi & Hl).
  cbn [length subtract_count] in *. rewrite Hrs. cbn [mbind option_bind].
  rewrite (not_in_spec b) by done. cbn [mbind option_bind].
  replace (reservelen + start + 4 + length b) with (reservelen + (start + 4 + length b)) by lia.
  pose proof (length_filter stays l) as Hfl.
  rewrite filter_cons in *. case_bool_decide as Hst; case_decide; try done.
  - rewrite recs_size_cons in *. cbn [length].
    rewrite !u32_small by lia. rewrite (IH _ _ _ _ _ Hw); try lia.
    + do 2 f_equal; try f_equal; lia.
    + intros q Hq. apply Hin. set_solver.
  - rewrite u32_small by lia. rewrite (IH _ _ _ _ _ Hw); try lia.
    + do 2 f_equal; lia.
    + intros q Hq. apply Hin. set_solver.
Qed.

Abbreviation kept_kvs kvs := (filter (λ q : nat * entry, stays q.2.2) kvs).

Lemma subtract_loop_spec kvs start l m tcurrent tab :
  walk mm reservelen kvs start l → (∀ q, q ∈ l → q ∈ ph) →
  Forall (λ q, q < length lo) kvs.*1 → length lo <= length tab →
  reservelen <= tcurrent → reservelen + start + recs_size l <= length mm →
  tcurrent + recs_size (filter stays l) <= length m →
  ∃ m' raw' tab',
    subtract_loop rdclass type mm sm reservelen (reservelen + start) sstart (length ph2)
      (length lo) (length l) m tcurrent tab = Some (m', raw', tab') ∧
    placed m reservelen tcurrent tab (old_item <$> kept_kvs kvs) m' raw' tab'.
Proof.
  revert kvs start m tcurrent tab. induction l as [|b l IH];
    intros kvs start m tcurrent tab Hw Hin Hks Htab Hb Hsrc Hfit.
  { apply walk_length in Hw as Hl. destruct kvs; [|done].
    exists m, tcurrent, tab. split; [done|]. apply placed_nil. }
  apply walk_cons in Hw as (k & kvs' & -> & Hrec & Hk & Hw).
  apply Forall_cons in Hks as [Hk1 Hks]. cbn [fst] in Hk1.
  assert (body_ok type b) as Hokb
    by (rewrite Forall_forall in Hok; apply Hok, Hin; set_solver +).
  destruct (rdata_from_slab_spec rdclass type mm reservelen start b _ Hrec Hokb Hk)
    as (r & Hrs & Hi & Hl).
  cbn [length subtract_loop]. unfold order_at. rewrite Hk.
  cbn [fmap option_fmap option_map mbind option_bind]. rewrite Nat2Z.id, bool_decide_true by done.
  rewrite Hrs. cbn [mbind option_bind]. rewrite (not_in_spec b) by done.
  cbn [mbind option_bind]. rewrite recs_size_cons in Hsrc.
  replace (reservelen + start + 4 + length b) with (reservelen + (start + 4 + length b)) by lia.
  assert (∀ q, q ∈ l → q ∈ ph) as Hin' by (intros; apply Hin; set_solver).
  change (filter (λ q : nat * entry, stays q.2.2) ((k, (start, b)) :: kvs'))
    with (kept_kvs ((k, (start, b)) :: kvs')).
  rewrite (filter_cons _ (k, (start, b))), filter_cons in *. cbn [snd] in *.
  case_bool_decide as Hst; case_decide; try done.
  - rewrite recs_size_cons in Hfit.
    unfold tab_set. rewrite (bool_decide_true (k < length tab)) by lia.
    cbn [mbind option_bind].
    replace (reservelen + (start + 4 + length b) - (reservelen + start))
      with (4 + length b) by lia.
    destruct (mread_is_Some mm (reservelen + start) (4 + length b)) as [bytes Hby]; [lia|].
    pose proof (mread_length _ _ _ _ Hby) as Hbl. rewrite Hby. cbn [mbind option_bind].
    destruct (mwrite_is_Some m tcurrent bytes) as [m1 Hm1]; [lia|].
    rewrite Hm1. cbn [mbind option_bind].
    pose proof (placed_raw _ _ _ _ _ _ _ _ _ Hrec Hby Hb Hm1) as Hpo.
    pose proof (po_len _ _ _ _ _ Hpo).
    destruct (IH kvs' (start + 4 + length b) m1 (tcurrent + (4 + length b))
      (<[k:=Z.of_nat (tcurrent - reservelen)]> tab) Hw Hin' Hks)
      as (m' & raw' & tab' & -> & Hpl); rewrite ?length_insert; try lia.
    exists m', raw', tab'. split; [done|]. rewrite fmap_cons.
    eapply placed_cons; [done|exact Hpo|].
    rewrite <- Nat.add_assoc. exact Hpl.
  - apply (IH _ _ _ _ _ Hw Hin' Hks); lia.
Qed.

(** *** The whole subtraction *)

Abbreviation left := (filter stays ph).

Context (Hne : lo ≠ []) (Hne2 : lo2 ≠ []).
Context (Hsize : (Z.of_nat (reservelen + slab_size ph) < 2 ^ 32)%Z).

Definition subtract_length : Z := Z.of_nat (reservelen + slab_size left).

(** What stops a subtraction. *)
Definition subtract_early (flags : Z) : option isc_result :=
  let rcount := (Z.of_nat (length ph) - Z.of_nat (length left))%Z in
  if bool_decide (Z.land flags DNS_RDATASLAB_EXACT ≠ 0%Z ∧ rcount ≠ Z.of_nat (length ph2))
  then Some DNS_R_NOTEXACT
  else if bool_decide (left = []) then Some DNS_R_NXRRSET
  else if bool_decide (left = ph) then Some DNS_R_UNCHANGED
  else match isc_mem_get 0 subtract_length with
       | Some _ => None | None => Some ISC_R_NOMEMORY end.

Lemma left_size l : recs_size (filter stays l) <= recs_size l.
Proof.
  unfold recs_size. induction l as [|b l IH]; [done|]. rewrite filter_cons.
  case_decide; cbn [sum_list_with]; lia.
Qed.

(** Up to the decisions. *)
Ltac subtract_front :=
  let H1 := fresh "Hw" in
  destruct (slab_walk _ _ _ _ Hs) as (kvs & H1 & Hkvs);
  pose proof (entries_length (sl_phys _ _ _ _ Hs)) as Hl1;
  pose proof (entries_length (sl_phys _ _ _ _ Hs2)) as Hl2;
  pose proof (sl_max _ _ _ _ Hs) as Hmax1; pose proof (sl_max _ _ _ _ Hs2) as Hmax2;
  assert (length lo ≠ 0) as Hz1 by (by intros ?%nil_length_inv);
  assert (length lo2 ≠ 0) as Hz2 by (by intros ?%nil_length_inv);
  pose proof (length_filter stays ph) as Hfl; pose proof (left_size ph) as Hls;
  unfold slab_size in Hsize;
  unfold dns_rdataslab_subtract; rewrite (sl_count _ _ _ _ Hs), (sl_count _ _ _ _ Hs2);
  cbn [mbind option_bind];
  rewrite (bool_decide_true (_ ∧ _)), !Nat2Z.id, Hl1, Hl2 by lia;
  rewrite <- (Nat.add_assoc reservelen 2 (4 * length ph));
  rewrite (u32_small (Z.of_nat reservelen + 2)) by lia;
  rewrite (subtract_count_spec _ _ _ _ _ _ H1) by (done || lia);
  cbn [mbind option_bind]; rewrite (u32_small (_ + _)) by lia;
  replace (Z.of_nat reservelen + 2 + Z.of_nat (recs_size left) +
           4 * (0 + Z.of_nat (length left)))%Z
    with subtract_length by (unfold subtract_length, slab_size; lia);
  rewrite !Z.add_0_l;
  rewrite (bool_decide_ext (Z.of_nat (length left) = 0%Z) (left = []))
    by (split; [intros Hx; apply length_zero_iff_nil; lia|by intros ->]);
  rewrite (bool_decide_ext (Z.of_nat (length ph - length left) = 0%Z) (left = ph))
    by (split; [intros Hx; apply filter_length_all; lia|intros ->; lia]);
  replace (Z.of_nat (length ph - length left))
    with (Z.of_nat (length ph) - Z.of_nat (length left))%Z by lia.

Lemma subtract_stops flags r :
  subtract_early flags = Some r →
  dns_rdataslab_subtract isc_mem_get rdclass type mm sm reservelen flags = Some (r, None).
Proof.
  subtract_front. unfold subtract_early. repeat case_match; congruence.
Qed.

Lemma kept_keys kvs :
  kvs ≡ₚ imap pair lo → kvs.*2 = layout (2 + 4 * length ph) ph →
  let its := old_item <$> kept_kvs kvs in
  NoDup its.*1 ∧ Forall (λ k, k < length lo) its.*1 ∧ its.*2 = left ∧
  (∀ start, (by_key (length lo) (zip its.*1 (layout start its.*2))).*2 =
            filter stays lo.*2).
Proof.
  intros Hp Hw its.
  assert (∀ i b, (i, b) ∈ its ↔ ∃ e, lo !! i = Some e ∧ b = e.2 ∧ stays b) as Hin.
  { intros i b. subst its. rewrite list_elem_of_fmap.
    setoid_rewrite list_elem_of_filter. setoid_rewrite Hp.
    setoid_rewrite elem_of_lookup_imap. split.
    - intros (p & [= -> ->] & Hn & (k & e & -> & He)). by exists e.
    - intros (e & He & -> & Hn). exists (i, e). split; [done|]. split; [done|].
      by exists i, e. }
  assert (NoDup its.*1) as Hnd.
  { subst its. rewrite <- list_fmap_compose.
    apply NoDup_fmap_2_strong with (f := fst ∘ old_item).
    - intros p q. rewrite !list_elem_of_filter, Hp, !elem_of_lookup_imap.
      intros (_ & i & e & -> & He) (_ & j & e' & -> & He') Heq. cbn in Heq. congruence.
    - apply NoDup_filter. rewrite Hp. apply (NoDup_fmap_1 fst), imap_pair_NoDup. }
  split; [done|]. split; [|split].
  - rewrite Forall_fmap. apply Forall_forall. intros [i b]. rewrite Hin. cbn.
    intros (e & He%lookup_lt_Some & _). done.
  - subst its. rewrite <- list_fmap_compose.
    rewrite <- (filter_walk stays kvs _ ph Hw).
    by rewrite <- list_fmap_compose.
  - intros start.
    rewrite (by_key_items _ _ its
      (λ i, x ← lo.*2 !! i; if decide (stays x) then Some x else None) Hnd).
    + rewrite <- (length_fmap snd lo). by apply omap_seq_lookup.
    + intros i b _. rewrite Hin, bind_Some. setoid_rewrite list_lookup_fmap.
      setoid_rewrite fmap_Some. split.
      * intros (x & (e & He & ->) & Hx). case_decide; [|done]. injection Hx as <-.
        by exists e.
      * intros (e & He & -> & Hn). exists e.2. split; [by exists e|].
        by rewrite decide_True.
Qed.

(** A subtraction that is not stopped gives the slab of the records that
    stay, both orders kept. *)
Lemma subtract_slab flags tstart tab :
  subtract_early flags = None →
  isc_mem_get 0 subtract_length = Some tstart →
  Z.of_nat (length tstart) = subtract_length →
  isc_mem_get 1 (Z.of_nat (length ph)) = Some tab →
  ∃ m lo',
    dns_rdataslab_subtract isc_mem_get rdclass type mm sm reservelen flags =
      Some (ISC_R_SUCCESS, Some m) ∧
    slab_at m reservelen lo' left ∧ lo'.*2 = filter stays lo.*2 ∧
    length m = reservelen + slab_size left ∧
    mread m 0 reservelen = mread mm 0 reservelen.
Proof.
  intros He Hts Htl Htab. revert He. subtract_front. unfold subtract_early.
  rewrite Hts. case_bool_decide; [done|]. case_bool_decide; [done|].
  case_bool_decide; [done|]. intros _.
  pose proof (sl_fits _ _ _ _ Hs) as Hfit.
  destruct (mread_is_Some mm 0 reservelen) as [res Hres]; [lia|].
  pose proof (mread_length _ _ _ _ Hres) as Hrl. rewrite Hres. cbn [mbind option_bind].
  unfold subtract_length, slab_size in Htl.
  destruct (mwrite_is_Some tstart 0 res) as [m1 Hm1]; [lia|].
  pose proof (mwrite_length _ _ _ _ Hm1) as Hml1. rewrite Hm1. cbn [mbind option_bind].
  rewrite Htab. set (tcount := Z.of_nat (length left)).
  pose proof (enc16_length tcount) as Hel.
  destruct (mwrite_is_Some m1 reservelen (enc16 tcount)) as [m2 Hm2]; [lia|].
  pose proof (mwrite_length _ _ _ _ Hm2) as Hml2. rewrite Hm2. cbn [mbind option_bind].
  pose proof (kept_keys kvs Hkvs (proj1 Hw)) as (Hnd & Hkeys & Hbod & Hload).
  set (its := old_item <$> kept_kvs kvs) in *.
  assert (Forall (λ q, q < length lo) kvs.*1) as Hk1.
  { rewrite Hkvs, Forall_fmap, Forall_forall. intros p.
    rewrite elem_of_lookup_imap. intros (i & e & -> & He%lookup_lt_Some). done. }
  unfold tcount. rewrite !Nat2Z.id, <- Hl1.
  destruct (subtract_loop_spec kvs (2 + 4 * length lo) ph m2
    (reservelen + 2 + 4 * length left) (replicate (length lo) 0%Z))
    as (m3 & raw' & tab' & Hloop & Hpl); rewrite ?length_replicate; try done; try lia.
  { by rewrite Hl1. }
  { unfold slab_size in Hfit. lia. }
  rewrite <- Hl1 in Hloop. rewrite Hloop. cbn [mbind option_bind].
  fold its in Hpl. rewrite <- Hbod in *.
  destruct (placed_slab _ _ _ _ _ _ _ Hpl) as (Hraw & m4 & -> & Hslab & Hl4 & Hfr);
    try done; try (unfold slab_size; lia).
  { rewrite Hbod. eapply rd16_mwrite; [exact Hm2|]. rewrite <- Hbod. lia. }
  cbn [mbind option_bind]. rewrite bool_decide_true
    by (unfold subtract_length, slab_size in *; rewrite <- Hbod; lia).
  do 2 eexists. split; [done|]. split; [exact Hslab|].
  split; [by apply Hload|]. split; [unfold slab_size in *; lia|].
  rewrite <- (mread_mwrite_same _ _ _ _ Hm1), Hrl.
  apply mread_agree; [lia|]. intros i Hi. rewrite Hfr by lia.
  by rewrite (mwrite_frame _ _ _ _ _ Hm2) by lia.
Qed.
End subtract.

(** ** Equality *)

Section equality.
Context `{DnssecOrder} (rdclass type : Z) (m1 m2 : mem) (reservelen : nat).

Lemma equal_loop_spec kvs1 kvs2 s1 s2 ph1 ph2 :
  walk m1 reservelen kvs1 s1 ph1 → walk m2 reservelen kvs2 s2 ph2 →
  length ph1 = length ph2 →
  equal_loop m1 m2 (reservelen + s1) (reservelen + s2) (length ph1) =
    Some (bool_decide (ph1 = ph2)).
Proof.
  revert kvs1 kvs2 s1 s2 ph2. induction ph1 as [|b1 ph1 IH];
    intros kvs1 kvs2 s1 s2 [|b2 ph2] Hw1 Hw2 Hl; try done.
  apply walk_cons in Hw1 as (k1 & kvs1' & -> & (Hm1 & Hl1 & Hb1) & _ & Hw1).
  apply walk_cons in Hw2 as (k2 & kvs2' & -> & (Hm2 & Hl2 & Hb2) & _ & Hw2).
  cbn [fst snd] in *. cbn [length equal_loop]. rewrite Hl1, Hl2. cbn [mbind option_bind].
  case_bool_decide as Hlen.
  { rewrite bool_decide_false; [done|]. intros [=]. subst. done. }
  rewrite !Nat2Z.id.
  replace (reservelen + s1 + 2 + 2) with (reservelen + s1 + 4) by lia.
  replace (reservelen + s2 + 2 + 2) with (reservelen + s2 + 4) by lia.
  assert (length b1 = length b2) as Hbl by lia. rewrite Hb1. rewrite Hbl, Hb2.
  cbn [mbind option_bind]. case_bool_decide as Hc.
  { rewrite bool_decide_false; [done|]. intros [=]. subst. apply Hc.
    by apply memcmp_eq. }
  apply memcmp_eq in Hc; [|done]. subst b2.
  rewrite <- !Nat.add_assoc, !(Nat.add_assoc _ 4).
  rewrite (IH kvs1' kvs2' _ _ ph2) by (done || cbn in Hl; lia).
  f_equal. apply bool_decide_ext. split; [by intros ->|by intros [=]].
Qed.

Lemma equalx_loop_spec kvs1 kvs2 s1 s2 ph1 ph2 :
  walk m1 reservelen kvs1 s1 ph1 → walk m2 reservelen kvs2 s2 ph2 →
  Forall (body_ok type) ph1 → Forall (body_ok type) ph2 → length ph1 = length ph2 →
  equalx_loop rdclass type m1 m2 (reservelen + s1) (reservelen + s2) (length ph1) =
    Some (bool_decide (Forall2 (λ a b, dcmp rdclass type a b = 0%Z) ph1 ph2)).
Proof.
  revert kvs1 kvs2 s1 s2 ph2. induction ph1 as [|b1 ph1 IH];
    intros kvs1 kvs2 s1 s2 [|b2 ph2] Hw1 Hw2 Hok1 Hok2 Hl; try done.
  apply walk_cons in Hw1 as (k1 & kvs1' & -> & Hr1 & Hk1 & Hw1).
  apply walk_cons in Hw2 as (k2 & kvs2' & -> & Hr2 & Hk2 & Hw2).
  apply Forall_cons in Hok1 as [Ho1 Hok1]. apply Forall_cons in Hok2 as [Ho2 Hok2].
  destruct (rdata_from_slab_spec rdclass type _ _ _ _ _ Hr1 Ho1 Hk1) as (r1 & Hf1 & Hi1 & _).
  destruct (rdata_from_slab_spec rdclass type _ _ _ _ _ Hr2 Ho2 Hk2) as (r2 & Hf2 & Hi2 & _).
  cbn [length equalx_loop]. rewrite Hf1. cbn [mbind option_bind]. rewrite Hf2.
  cbn [mbind option_bind]. rewrite (item_compare _ _ _ _ _ _ Hi1 Hi2).
  case_bool_decide as Hc.
  { rewrite bool_decide_false; [done|]. by intros [? _]%Forall2_cons. }
  rewrite <- !Nat.add_assoc, !(Nat.add_assoc _ 4).
  rewrite (IH kvs1' kvs2' _ _ ph2) by (done || cbn in Hl; lia).
  f_equal. apply bool_decide_ext. rewrite Forall2_cons. naive_solver.
Qed.

Context (lo1 lo2 : list entry) (ph1 ph2 : list (list Z)).
Context (Hs1 : slab_at m1 reservelen lo1 ph1) (Hs2 : slab_at m2 reservelen lo2 ph2).

(** Byte equality of the records in physical order; the load orders and the
    reserved bytes are not looked at. *)
Lemma equal_spec :
  dns_rdataslab_equal m1 m2 reservelen = Some (bool_decide (ph1 = ph2)).
Proof.
  destruct (slab_walk _ _ _ _ Hs1) as (kvs1 & Hw1 & _).
  destruct (slab_walk _ _ _ _ Hs2) as (kvs2 & Hw2 & _).
  pose proof (entries_length (sl_phys _ _ _ _ Hs1)) as Hl1.
  pose proof (entries_length (sl_phys _ _ _ _ Hs2)) as Hl2.
  unfold dns_rdataslab_equal. rewrite (sl_count _ _ _ _ Hs1), (sl_count _ _ _ _ Hs2).
  cbn [mbind option_bind]. rewrite Hl1, Hl2, !Nat2Z.id. case_bool_decide as Hc.
  { rewrite bool_decide_false; [done|]. by intros ->. }
  rewrite <- !(Nat.add_assoc reservelen 2).
  apply (equal_loop_spec _ _ _ _ _ _ Hw1 Hw2). lia.
Qed.

Lemma equalx_spec :
  Forall (body_ok type) ph1 → Forall (body_ok type) ph2 →
  dns_rdataslab_equalx rdclass type m1 m2 reservelen =
    Some (bool_decide (Forall2 (λ a b, dcmp rdclass type a b = 0%Z) ph1 ph2)).
Proof.
  intros Hok1 Hok2.
  destruct (slab_walk _ _ _ _ Hs1) as (kvs1 & Hw1 & _).
  destruct (slab_walk _ _ _ _ Hs2) as (kvs2 & Hw2 & _).
  pose proof (entries_length (sl_phys _ _ _ _ Hs1)) as Hl1.
  pose proof (entries_length (sl_phys _ _ _ _ Hs2)) as Hl2.
  unfold dns_rdataslab_equalx. rewrite (sl_count _ _ _ _ Hs1), (sl_count _ _ _ _ Hs2).
  cbn [mbind option_bind]. rewrite Hl1, Hl2, !Nat2Z.id. case_bool_decide as Hc.
  { rewrite bool_decide_false; [done|]. intros Hf%Forall2_length. lia. }
  rewrite <- !(Nat.add_assoc reservelen 2).
  apply (equalx_loop_spec _ _ _ _ _ _ Hw1 Hw2); try done. lia.
Qed.
End equality.
