(* ===== verification/SlabAlgebra.v ===== *)
(** * Slabs as sets of records

    What [dns_rdataslab_merge], [dns_rdataslab_subtract], [dns_rdataslab_equal],
    [dns_rdataslab_equalx], [dns_rdataslab_size] and the search
    [rdata_in_slab] of [lib/dns/rdataslab.c] mean, on any slabs: merging is a
    union that keeps the old records first, subtracting a difference, and the
    one undoes the other. The last group of theorems shows what the code does
    where its own assumptions (physical DNSSEC order, the place of the meta
    byte) fail. *)
From S2P Require Import Prelude Qsort Rdata Slab SlabIndex SlabBuild SlabSpec SlabOps.

#[local] Existing Instance is_new_dec.
#[local] Existing Instance stays_dec.

Section merge.
Context `{DnssecOrder} (issingleton : Z → bool) (isc_mem_get : nat → Z → option mem).
Context (rdclass type : Z).

(** Two slabs of one class and type, in DNSSEC order, as
    [dns_rdataslab_fromrdataset] builds them. *)
Record operands (om nm : mem) (reservelen : nat) (lo1 lo2 : list entry)
    (ph1 ph2 : list (list Z)) : Prop := {
  op_old : slab_at om reservelen lo1 ph1;
  op_new : slab_at nm reservelen lo2 ph2;
  op_body1 : Forall (body_ok type) ph1;
  op_body2 : Forall (body_ok type) ph2;
  op_order1 : ordered rdclass type ph1;
  op_order2 : ordered rdclass type ph2;
  op_some1 : lo1 ≠ [];
  op_some2 : lo2 ≠ [];
  op_size : (Z.of_nat (reservelen + slab_size ph1 + room ph2) < 2 ^ 32)%Z }.

Abbreviation is_new := (is_new rdclass type).
Abbreviation stays := (stays rdclass type).

(** Room for the records of a part of a slab. *)
Lemma room_filter (P : list Z → Prop) `{∀ b, Decision (P b)} ph : room (filter P ph) <= room ph.
Proof.
  induction ph as [|b ph IH]; [done|]. unfold room in *. rewrite filter_cons.
  case_decide; rewrite ?recs_size_cons; cbn [length]; lia.
Qed.

Lemma merge_room om nm reservelen lo1 lo2 ph1 ph2 :
  operands om nm reservelen lo1 lo2 ph1 ph2 →
  (Z.of_nat (reservelen + 2 + room ph1 + room (filter (is_new ph1) ph2)) < 2 ^ 32)%Z.
Proof.
  intros Hop. pose proof (op_size _ _ _ _ _ _ _ Hop).
  pose proof (room_filter (is_new ph1) ph2). unfold slab_size, room in *. lia.
Qed.

(** A merge that nothing stops. *)
Lemma merge_ok om nm reservelen lo1 lo2 ph1 ph2 flags :
  operands om nm reservelen lo1 lo2 ph1 ph2 → alloc_ok isc_mem_get →
  merge_early issingleton isc_mem_get rdclass type reservelen ph1 ph2 flags = None →
  ∃ m lo' ph',
    dns_rdataslab_merge issingleton isc_mem_get rdclass type om nm reservelen flags =
      Some (ISC_R_SUCCESS, Some m) ∧
    slab_at m reservelen lo' ph' ∧ lo'.*2 = lo1.*2 ++ filter (is_new ph1) lo2.*2 ∧
    ordered rdclass type ph' ∧ length m = reservelen + slab_size ph' ∧
    mread m 0 reservelen = mread nm 0 reservelen.
Proof.
  intros Hop Ha He. pose proof (merge_room _ _ _ _ _ _ _ Hop) as Hr.
  destruct Hop as [Hs1 Hs2 Hok1 Hok2 Ho1 Ho2 Hne1 Hne2 _].
  destruct (Ha 0 (merge_length rdclass type reservelen ph1 ph2)) as (ts & Ht & Hl).
  destruct (Ha 1 (Z.of_nat (length ph1) + Z.of_nat (length ph2))%Z) as (tab & Htab & _).
  eapply merge_slab; try done. rewrite Hl. unfold merge_length. lia.
Qed.


(** [dns_rdataslab_merge] never answers [DNS_R_NOTEXACT], on any memory
    and with any flags: the test of [DNS_RDATASLAB_EXACT] compares a number
    with itself, so a caller that adds records which must not exist yet is
    not told when they do. *)
Theorem merge_never_notexact om nm reservelen flags region :
  dns_rdataslab_merge issingleton isc_mem_get rdclass type om nm reservelen flags ≠
    Some (DNS_R_NOTEXACT, region).
Proof.
  unfold dns_rdataslab_merge. intros E.
  apply bind_Some in E as (oc & _ & E). apply bind_Some in E as (nc & _ & E).
  case_bool_decide; [|done]. apply bind_Some in E as (ol & _ & E).
  apply bind_Some in E as ([tl nn] & _ & E).
  rewrite (bool_decide_false (_ ∧ u32 (oc + nn) ≠ _)) in E
    by (intros [_ Hx]; apply Hx; by rewrite Z.add_comm).
  repeat first [done | case_match | apply bind_Some in E as (? & _ & E)].
Qed.

(** A subtraction that nothing stops. *)
Lemma subtract_ok mm sm reservelen lo lo2 ph ph2 flags :
  slab_at mm reservelen lo ph → slab_at sm reservelen lo2 ph2 →
  Forall (body_ok type) ph → Forall (body_ok type) ph2 → lo ≠ [] → lo2 ≠ [] →
  (Z.of_nat (reservelen + slab_size ph) < 2 ^ 32)%Z → alloc_ok isc_mem_get →
  subtract_early isc_mem_get rdclass type reservelen ph ph2 flags = None →
  ∃ m lo',
    dns_rdataslab_subtract isc_mem_get rdclass type mm sm reservelen flags =
      Some (ISC_R_SUCCESS, Some m) ∧
    slab_at m reservelen lo' (filter (stays ph2) ph) ∧
    lo'.*2 = filter (stays ph2) lo.*2 ∧
    length m = reservelen + slab_size (filter (stays ph2) ph) ∧
    mread m 0 reservelen = mread mm 0 reservelen.
Proof.
  intros Hs Hs2 Hb Hb2 Hne Hne2 Hsz Ha He.
  destruct (Ha 0 (subtract_length rdclass type reservelen ph ph2)) as (ts & Ht & Hl).
  destruct (Ha 1 (Z.of_nat (length ph))) as (tab & Htab & _).
  eapply subtract_slab; eauto. rewrite Hl. unfold subtract_length. lia.
Qed.

(** C27: subtracting. For two non-empty slabs, with [left] the records of the
    first one that the second has not: with [DNS_RDATASLAB_EXACT],
    [dns_rdataslab_subtract] answers [DNS_R_NOTEXACT] unless as many records
    go as the second slab has; [DNS_R_NXRRSET] if none is left,
    [DNS_R_UNCHANGED] if all are; and otherwise it returns the slab of the
    records left, both orders and the reserved bytes kept. It does not rely on
    the physical order, so it is right for slabs the load balancer has
    transformed. *)
Theorem subtract_spec mm sm reservelen lo lo2 ph ph2 flags :
  slab_at mm reservelen lo ph → slab_at sm reservelen lo2 ph2 →
  Forall (body_ok type) ph → Forall (body_ok type) ph2 → lo ≠ [] → lo2 ≠ [] →
  (Z.of_nat (reservelen + slab_size ph) < 2 ^ 32)%Z → alloc_ok isc_mem_get →
  let left := filter (stays ph2) ph in
  let result := dns_rdataslab_subtract isc_mem_get rdclass type mm sm reservelen flags in
  if bool_decide (Z.land flags DNS_RDATASLAB_EXACT ≠ 0%Z ∧
                  length ph ≠ length left + length ph2)
  then result = Some (DNS_R_NOTEXACT, None)
  else if bool_decide (left = []) then result = Some (DNS_R_NXRRSET, None)
  else if bool_decide (left = ph) then result = Some (DNS_R_UNCHANGED, None)
  else ∃ m lo', result = Some (ISC_R_SUCCESS, Some m) ∧
    slab_at m reservelen lo' left ∧ lo'.*2 = filter (stays ph2) lo.*2 ∧
    length m = reservelen + slab_size left ∧
    mread m 0 reservelen = mread mm 0 reservelen.
Proof.
  intros Hs Hs2 Hb Hb2 Hne Hne2 Hsz Ha left result.
  pose proof (subtract_ok _ _ _ _ _ _ _ flags Hs Hs2 Hb Hb2 Hne Hne2 Hsz Ha) as Hok.
  assert (∀ r, subtract_early isc_mem_get rdclass type reservelen ph ph2 flags = Some r →
    result = Some (r, None)) as Hstop by (intros r Hr; eapply subtract_stops; eauto).
  assert (length left <= length ph) as Hll by apply length_filter.
  revert Hstop Hok. unfold subtract_early. fold left.
  destruct (Ha 0 (subtract_length rdclass type reservelen ph ph2)) as (ts & -> & _).
  rewrite (bool_decide_ext (_ ∧ (_ - _)%Z ≠ _) (Z.land flags DNS_RDATASLAB_EXACT ≠ 0%Z ∧
    length ph ≠ length left + length ph2))
    by (split; intros [? Hx]; split; try done; lia).
  destruct (bool_decide (_ ∧ _)); [intros Hst _; by apply Hst|].
  repeat case_bool_decide; try done; intros Hst Hok; by (apply Hst || apply Hok).
Qed.

(** The records of two slabs without a common one. *)
Lemma stays_old ph1 ph2 :
  Forall (is_new ph1) ph2 → Forall (stays ph2) ph1.
Proof.
  intros Hn. apply Forall_forall. intros b Hb. unfold SlabOps.stays, in_bodies.
  apply not_true_iff_false. intros (b2 & Hb2 & Hc)%existsb_exists.
  apply bool_decide_eq_true in Hc. rewrite Forall_forall in Hn.
  apply list_elem_of_In in Hb2. specialize (Hn _ Hb2). unfold SlabOps.is_new in Hn.
  apply not_true_iff_false in Hn. apply Hn. apply existsb_exists. exists b.
  split; [by apply list_elem_of_In|]. apply bool_decide_eq_true.
  by apply (cmp_eq_sym _ _ _ _ (dcmp_order rdclass type [b2; b])); [set_solver +..|].
Qed.

Lemma stays_own ph2 l : (∀ b, b ∈ l → b ∈ ph2) → filter (stays ph2) l = [].
Proof.
  intros Hl. apply filter_drops, Forall_forall. intros b Hb Hs.
  unfold SlabOps.stays in Hs. apply not_true_iff_false in Hs. apply Hs, existsb_exists.
  exists b. split; [by apply list_elem_of_In, Hl|]. apply bool_decide_eq_true.
  apply (cmp_refl _ _ (dcmp_order rdclass type [b])). set_solver +.
Qed.

(** C28: subtracting undoes merging. If the new slab has no record of the old
    one, then merging it in (whenever that succeeds) and subtracting it again
    gives a slab that [dns_rdataslab_equal] cannot tell from the old one, with
    the old one's load order; with [DNS_RDATASLAB_EXACT] too. *)
Theorem merge_subtract_roundtrip om nm reservelen lo1 lo2 ph1 ph2 flags flags' m :
  operands om nm reservelen lo1 lo2 ph1 ph2 → alloc_ok isc_mem_get →
  Forall (is_new ph1) ph2 →
  dns_rdataslab_merge issingleton isc_mem_get rdclass type om nm reservelen flags =
    Some (ISC_R_SUCCESS, Some m) →
  ∃ m' lo', dns_rdataslab_subtract isc_mem_get rdclass type m nm reservelen flags' =
      Some (ISC_R_SUCCESS, Some m') ∧
    slab_at m' reservelen lo' ph1 ∧ lo'.*2 = lo1.*2 ∧
    dns_rdataslab_equal om m' reservelen = Some true.
Proof.
  intros Hop Ha Hnew Hm.
  pose proof (merge_room _ _ _ _ _ _ _ Hop) as Hroom.
  destruct (merge_early issingleton isc_mem_get rdclass type reservelen ph1 ph2 flags)
    as [r|] eqn:He.
  { destruct Hop. rewrite (merge_stops issingleton isc_mem_get rdclass type om nm reservelen
      lo1 lo2 ph1 ph2) with (r := r) in Hm by done.
    revert He. unfold merge_early. repeat case_match; congruence. }
  destruct (merge_ok _ _ _ _ _ _ _ _ Hop Ha He) as (m1 & lo' & ph' & E & Hs' & Hlo & Ho & _).
  rewrite E in Hm. injection Hm as ->. destruct Hop as [Hs1 Hs2 Hb1 Hb2 Ho1 Ho2 Hn1 Hn2 Hsz].
  pose proof (entries_bodies (sl_phys _ _ _ _ Hs1)) as Hp1.
  pose proof (entries_bodies (sl_phys _ _ _ _ Hs2)) as Hp2.
  pose proof (entries_bodies (sl_phys _ _ _ _ Hs')) as Hp'.
  pose proof (stays_old ph1 ph2 Hnew) as Hold.
  assert (filter (is_new ph1) lo2.*2 = lo2.*2) as Hlo2 by (apply filter_keeps; by rewrite Hp2).
  assert (ph' ≡ₚ ph1 ++ ph2) as Hph by (by rewrite <- Hp', Hlo, Hlo2, Hp1, Hp2).
  assert (length ph2 ≠ 0) as Hl2.
  { rewrite <- Hp2, length_fmap. by destruct lo2. }
  assert (length ph1 ≠ 0) as Hl1 by (rewrite <- Hp1, length_fmap; by destruct lo1).
  pose proof (Permutation_length Hph) as Hlen. rewrite length_app in Hlen.
  assert (filter (stays ph2) ph' = ph1) as Hleft.
  { apply (StronglySorted_unique_strong (λ a b, dcmp rdclass type a b < 0)%Z); [|by apply StronglySorted_filter|done|].
    - intros x y _ _ Hxy Hyx. pose proof (cmp_anti _ _ (dcmp_order rdclass type [x; y]) x y
        ltac:(set_solver +) ltac:(set_solver +)). lia.
    - rewrite Hph, filter_app, (filter_keeps (stays ph2) ph1) by done.
      by rewrite stays_own, app_nil_r. }
  assert (recs_size ph' = recs_size ph1 + recs_size ph2) as Hrs
    by (rewrite <- recs_size_app; unfold recs_size; by rewrite Hph).
  destruct (subtract_ok m nm reservelen lo' lo2 ph' ph2 flags' Hs' Hs2) as
    (m' & lo'' & Es & Hs'' & Hlo'' & _); [|done| |done| |done| |].
  - rewrite Hph. by apply Forall_app_2.
  - intros ->. cbn in Hlo. symmetry in Hlo. apply app_nil in Hlo as [Hlo _].
    by apply fmap_nil_inv in Hlo.
  - revert Hsz. unfold slab_size, room. lia.
  - unfold subtract_early. rewrite Hleft.
    destruct (Ha 0 (subtract_length rdclass type reservelen ph' ph2)) as (ts & -> & _).
    rewrite !bool_decide_false; [done|..].
    + intros ->. lia.
    + intros ->. done.
    + intros [_ Hx]. apply Hx. lia.
  - rewrite Hleft in Hs''. exists m', lo''. split_and!; [done|done| |].
    + rewrite Hlo'', Hlo, Hlo2, filter_app, (filter_keeps (stays ph2)) by (by rewrite Hp1).
      rewrite stays_own; [by rewrite app_nil_r|]. intros b Hb. by rewrite <- Hp2.
    + rewrite (equal_spec _ _ _ _ _ _ _ Hs1 Hs''). by rewrite bool_decide_true.
Qed.
End merge.

(** ** Sizes, equality, search *)

(** C40: [dns_rdataslab_size] of a slab is the number of bytes from the start
    of its reserved area to the end of its last record, the very length the
    builders allocate; the walk stays within the buffer and the 32-bit result
    does not wrap. *)
Theorem size_counts m reservelen lo ph :
  slab_at m reservelen lo ph → (Z.of_nat (length m) < 2 ^ 32)%Z →
  ∃ n, dns_rdataslab_size m reservelen = Some (Z.of_nat n) ∧
    n = reservelen + slab_size ph ∧ n <= length m.
Proof.
  intros Hs Hm. pose proof (sl_fits _ _ _ _ Hs).
  exists (reservelen + slab_size ph). split_and!; [|done|done].
  rewrite (size_spec _ _ _ _ Hs), u32_small by lia. done.
Qed.

Section compare.
Context `{DnssecOrder} (rdclass type : Z).

(** Comparing slabs. [dns_rdataslab_equal] is equality of the records'
    bytes in physical order, [dns_rdataslab_equalx] their equality up to the
    DNSSEC comparison; neither looks at load order or reserved bytes, so
    sorting one of the slabs by load changes neither answer. *)
Theorem equality_spec m1 m2 reservelen lo1 lo2 ph1 ph2 :
  slab_at m1 reservelen lo1 ph1 → slab_at m2 reservelen lo2 ph2 →
  Forall (body_ok type) ph1 → Forall (body_ok type) ph2 →
  dns_rdataslab_equal m1 m2 reservelen = Some (bool_decide (ph1 = ph2)) ∧
  dns_rdataslab_equalx rdclass type m1 m2 reservelen =
    Some (bool_decide (Forall2 (λ a b, dcmp rdclass type a b = 0%Z) ph1 ph2)).
Proof.
  intros Hs1 Hs2 Hb1 Hb2. split; [by eapply equal_spec|by eapply equalx_spec].
Qed.

(** Searching. On a slab in DNSSEC order [rdata_in_slab] answers whether
    some record compares equal to the rdata. On any slab, ordered or not, it
    gives up at the first record that is greater: if that is the first one,
    the answer is no, even for an rdata that is in the slab, as happens once
    the load balancer has transformed the slab. *)
Theorem search_spec m reservelen lo ph b r :
  slab_at m reservelen lo ph → Forall (body_ok type) ph → item_of rdclass type b r →
  (ordered rdclass type ph →
   rdata_in_slab rdclass type m reservelen r = Some (in_bodies rdclass type ph b)) ∧
  (∀ b0, head ph = Some b0 → (dcmp rdclass type b0 b > 0)%Z →
   rdata_in_slab rdclass type m reservelen r = Some false).
Proof.
  intros Hs Hok Hr. split; [intros Ho; by eapply rdata_in_slab_spec|].
  intros b0 Hhd Hgt. destruct ph as [|b' ph]; [done|]. injection Hhd as ->.
  destruct (slab_walk _ _ _ _ Hs) as (kvs & Hw & _).
  apply walk_cons in Hw as (k & kvs' & -> & Hrec & Hk & _).
  apply Forall_cons in Hok as [Hb _].
  destruct (rdata_from_slab_spec rdclass type _ _ _ _ _ Hrec Hb Hk) as (r0 & E & Hi & _).
  unfold rdata_in_slab. rewrite (sl_count _ _ _ _ Hs). cbn [mbind option_bind].
  rewrite Nat2Z.id, (entries_length (sl_phys _ _ _ _ Hs)). cbn [length in_slab_loop].
  replace (reservelen + 2 + 4 * S (length ph))
    with (reservelen + (2 + 4 * length (b0 :: ph))) by (cbn [length]; lia).
  rewrite E. cbn [mbind option_bind]. rewrite (item_compare _ _ _ _ _ _ Hi Hr).
  by rewrite bool_decide_false, bool_decide_true by lia.
Qed.
End compare.

(** [(v & 1) != 0] *)
Lemma land_1_odd v : bool_decide (Z.land v 1 ≠ 0%Z) = Z.odd v.
Proof.
  change 1%Z with (Z.ones 1). rewrite Z.land_ones, Z.pow_1_r, Zmod_odd by lia.
  by destruct (Z.odd v).
Qed.

(** The offline flag of an RRSIG. [rdataset_current] takes it from the
    record's meta byte; [rdata_from_slab], which merging and subtracting use,
    takes it from the byte after the length, which is the high byte of the
    record's load order: it reports record [k] as offline exactly if bit 8 of
    [k] is set, whatever its meta byte says. The data are the same. *)
Theorem offline_flag_misread m base lo ph k o b rdclass cur :
  slab_at m base lo ph → bytes_ok m → lo !! k = Some (o, b) → b ≠ [] →
  private5 cur = Some (base + o) → rs_type cur = dns_rdatatype_rrsig →
  ∃ r p q r', rdata_from_slab m (base + o) rdclass dns_rdatatype_rrsig = Some (r, p, q) ∧
    rdataset_current m cur = Some r' ∧ rd_data r' = rd_data r ∧
    rd_flags r = (if Z.testbit (Z.of_nat k) 8 then DNS_RDATA_OFFLINE else 0%Z) ∧
    rd_flags r' = (if Z.testbit (default 0%Z (head b)) 0 then DNS_RDATA_OFFLINE else 0%Z).
Proof.
  intros Hs Hm Hk Hb Hc Ht.
  pose proof (sl_rec _ _ _ _ Hs (o, b) (list_elem_of_lookup_2 _ _ _ Hk)) as Hrec.
  pose proof (sl_idx _ _ _ _ Hs _ _ Hk) as Hidx. cbn [fst] in Hidx.
  pose proof (rec_current m base cur (o, b) _ Hc Hrec Hidx) as Hcur.
  destruct (rdata_from_slab_spec rdclass dns_rdatatype_rrsig m base o b (Z.of_nat k) Hrec)
    as (r & E & (Hd & _) & _); [by intros _|done|].
  do 4 eexists. split; [exact E|]. split; [apply Hcur; by intros _|]. cbn [snd].
  unfold body_rdata, body_data in *. rewrite Ht.
  change (is_rrsig dns_rdatatype_rrsig) with true in *. cbn [rd_data rd_flags]. split; [done|].
  rewrite !Z.testbit_odd, Z.shiftr_0_r, <- (land_1_odd (default _ _)). change 1%Z with DNS_RDATASLAB_OFFLINE.
  split; [|done].
  unfold rdata_from_slab in E. destruct Hrec as (Hlen & Hl & _). cbn [fst snd] in *.
  rewrite Hl in E. cbn [mbind option_bind] in E.
  unfold rd16 in Hidx. destruct (m !! (base + o + 2)) as [x|] eqn:Hx; [|done].
  destruct (m !! (base + o + 2 + 1)) as [y|] eqn:Hy; [|done].
  cbn in Hidx. injection Hidx as Hidx. rewrite Forall_lookup in Hm.
  pose proof (Hm _ _ Hx) as Bx. pose proof (Hm _ _ Hy) as By.
  assert (Z.shiftr (Z.of_nat k) 8 = x) as ->.
  { rewrite Z.shiftr_div_pow2, <- Hidx by lia. unfold dec16, is_byte in *. dlia. }
  change (is_rrsig dns_rdatatype_rrsig) with true in E. cbn [mbind option_bind] in E.
  apply bind_Some in E as (reg & _ & E). injection E as <- _ _.
  cbn [rd_flags dns_rdata_fromregion]. change DNS_RDATASLAB_OFFLINE with 1%Z.
  rewrite land_1_odd. by destruct (Z.odd x).
Qed.
