(* ===== verification/RbtdbRdataset.v ===== *)
(** * The database's rdataset methods

    [lib/dns/rbtdb.c] has two method tables for its slabs. The stock one
    walks the records in physical order, or, when the rdataset has
    [DNS_RDATASETATTR_LOADORDER] (queries set it), through the offset table;
    it is the module [Stock]. With [LBBIND] defined the load balancer's
    table, the code of [lib/dns/rdataslab.c] again, replaces it: module
    [Lbbind]. [SlabMethods] is proved for the stock table, so everything the
    library says of registration and rounds holds for both builds.

    The two tables differ in [rdataset_clone]: the stock one attaches the
    node, [LBBIND]'s does not, while [rdataset_disassociate] detaches it in
    both. [Refs] models the node's reference count. *)
From S2P Require Import Prelude Qsort Rdata Slab SlabIndex SlabBuild SlabSpec SlabOps.

Definition DNS_RDATASETATTR_LOADORDER : Z := 0x00020000.

(** [(rdataset->attributes & DNS_RDATASETATTR_LOADORDER) != 0] *)
Definition loadorder (rs : rdataset) : bool :=
  bool_decide (Z.land (rs_attributes rs) DNS_RDATASETATTR_LOADORDER ≠ 0%Z).

Module Stock.
Definition rdataset_first (m : mem) (rs : rdataset) : option (isc_result * rdataset) :=
  let raw := private3 rs in
  count ← rd16 m raw;
  if bool_decide (count = 0%Z) then
    Some (ISC_R_NOMORE, set_cursor rs (privateuint4 rs) None)
  else
    let raw := if loadorder rs then raw + 2 else raw + (2 + 4 * Z.to_nat count) in
    Some (ISC_R_SUCCESS, set_cursor rs (u32 (count - 1)) (Some raw)).

Definition rdataset_next (m : mem) (rs : rdataset) : option (isc_result * rdataset) :=
  let count := privateuint4 rs in
  if bool_decide (count = 0%Z) then Some (ISC_R_NOMORE, rs)
  else
    let count := u32 (count - 1) in
    raw ← private5 rs;
    raw ← (if loadorder rs then Some raw
           else length ← rd16 m raw; Some (raw + Z.to_nat length));
    Some (ISC_R_SUCCESS, set_cursor rs count (Some (raw + 4))).

Definition rdataset_current (m : mem) (rs : rdataset) : option rdata :=
  raw ← private5 rs;
  raw ← (if loadorder rs
         then offset ← rd32 m raw; Some (private3 rs + Z.to_nat offset)
         else Some raw);
  length ← rd16 m raw;
  let raw := raw + 4 in
  '(flags, length, raw) ←
    (if is_rrsig (rs_type rs) then
       b ← m !! raw;
       Some (if bool_decide (Z.land b DNS_RDATASLAB_OFFLINE ≠ 0%Z)
             then DNS_RDATA_OFFLINE else 0%Z, u32 (length - 1), raw + 1)
     else Some (0%Z, length, raw));
  base ← mread m raw (Z.to_nat length);
  let rdata := dns_rdata_fromregion (rs_class rs) (rs_type rs) base in
  Some (Rdata (rd_data rdata) (rd_class rdata) (rd_type rdata)
              (Z.lor (rd_flags rdata) flags)).

Definition rdataset_count (m : mem) (rs : rdataset) : option Z :=
  rd16 m (private3 rs).

Definition methods : RdatasetMethods (mem * rdataset) := {|
  dns_rdataset_count s := rdataset_count s.1 s.2;
  dns_rdataset_first s := '(res, rs) ← rdataset_first s.1 s.2; Some (res, (s.1, rs));
  dns_rdataset_next s := '(res, rs) ← rdataset_next s.1 s.2; Some (res, (s.1, rs));
  dns_rdataset_current s := rdataset_current s.1 s.2;
  dns_rdataset_type s := rs_type s.2 |}.
End Stock.

(** The load balancer's table, [#else // LBBIND]. *)
Module Lbbind.
Definition rdataset_first (m : mem) (rs : rdataset)
    : option (isc_result * rdataset) :=
  let raw := private3 rs in
  count ← rd16 m raw;
  if bool_decide (count = 0%Z) then
    Some (ISC_R_NOMORE, set_cursor rs (privateuint4 rs) None)
  else
    offset ← rd32 m (raw + 2);
    Some (ISC_R_SUCCESS,
          set_cursor rs (u32 (count - 1)) (Some (raw + Z.to_nat offset))).

Definition rdataset_next (m : mem) (rs : rdataset)
    : option (isc_result * rdataset) :=
  let count := privateuint4 rs in
  if bool_decide (count = 0%Z) then Some (ISC_R_NOMORE, rs)
  else
    let raw := private3 rs in
    orig_count ← rd16 m raw;
    let current := u32 (orig_count - count) in
    offset ← rd32 m (raw + Z.to_nat (u32 (2 + current * 4)));
    Some (ISC_R_SUCCESS,
          set_cursor rs (u32 (count - 1)) (Some (raw + Z.to_nat offset))).

(** A [NULL] cursor fails the [REQUIRE]. *)
Definition rdataset_current (m : mem) (rs : rdataset) : option rdata :=
  raw ← private5 rs;
  length ← rd16 m raw;
  _index ← rd16 m (raw + 2);
  let raw := raw + 4 in
  '(flags, length, raw) ←
    (if is_rrsig (rs_type rs) then
       b ← m !! raw;
       Some (if bool_decide (Z.land b DNS_RDATASLAB_OFFLINE ≠ 0%Z)
             then DNS_RDATA_OFFLINE else 0%Z, u32 (length - 1), raw + 1)
     else Some (0%Z, length, raw));
  base ← mread m raw (Z.to_nat length);
  let rdata := dns_rdata_fromregion (rs_class rs) (rs_type rs) base in
  Some (Rdata (rd_data rdata) (rd_class rdata) (rd_type rdata)
              (Z.lor (rd_flags rdata) flags)).

Definition rdataset_count (m : mem) (rs : rdataset) : option Z :=
  rd16 m (private3 rs).

Definition methods : RdatasetMethods (mem * rdataset) := {|
  dns_rdataset_count s := rdataset_count s.1 s.2;
  dns_rdataset_first s := '(res, rs) ← rdataset_first s.1 s.2; Some (res, (s.1, rs));
  dns_rdataset_next s := '(res, rs) ← rdataset_next s.1 s.2; Some (res, (s.1, rs));
  dns_rdataset_current s := rdataset_current s.1 s.2;
  dns_rdataset_type s := rs_type s.2 |}.

(** It is the code of [lib/dns/rdataslab.c]. *)
Lemma methods_slab : methods = slab_methods.
Proof. reflexivity. Qed.
End Lbbind.

(** ** The stock table keeps the promise *)

#[local] Existing Instance Stock.methods.

(** Fetching with the cursor where the table's kind wants it. *)
Lemma stock_current m rs base e cur :
  private3 rs = base → private5 rs = Some cur → rec_at m base e →
  (if loadorder rs then rd32 m cur = Some (Z.of_nat e.1) else cur = base + e.1) →
  body_ok (rs_type rs) e.2 →
  Stock.rdataset_current m rs = Some (body_rdata (rs_class rs) (rs_type rs) e.2).
Proof.
  intros Hb Hc Hrec Hcur Hok. unfold Stock.rdataset_current. rewrite Hc.
  cbn [mbind option_bind].
  assert ((if loadorder rs
           then offset ← rd32 m cur; Some (private3 rs + Z.to_nat offset)
           else Some cur) = Some (base + e.1)) as ->.
  { destruct (loadorder rs); [|by f_equal]. rewrite Hcur, Hb. cbn. by rewrite Nat2Z.id. }
  cbn [mbind option_bind]. destruct Hrec as (Hlen & Hr & Hbody). rewrite Hr.
  cbn [mbind option_bind]. unfold body_rdata, body_ok in *. destruct (is_rrsig (rs_type rs)).
  - destruct (e.2) as [|b0 bs] eqn:Eb; [naive_solver|]. cbn [length] in *.
    pose proof (mread_lookup _ _ _ _ 0 Hbody ltac:(lia)) as H0.
    rewrite Nat.add_0_r in H0. rewrite <- H0. cbn. rewrite u32_small by lia.
    replace (Z.to_nat _) with (length bs) by lia.
    pose proof (mread_sub _ _ _ _ 1 (length bs) Hbody ltac:(lia)) as Hs. cbn [drop] in Hs.
    rewrite drop_0, take_ge in Hs by done. rewrite Hs. done.
  - cbn. by rewrite Nat2Z.id, Hbody.
Qed.

Section stock.
Context {m : mem} {base : nat} {lo : list entry} {ph : list (list Z)}.
Context (Hs : slab_at m base lo ph).

Lemma stock_table rs k :
  private3 rs = base → loadorder rs = true → Forall (body_ok (rs_type rs)) lo.*2 →
  k < length lo → privateuint4 rs = (Z.of_nat (length lo - k - 1))%Z →
  private5 rs = Some (base + 2 + 4 * k) →
  rds_from ISC_R_SUCCESS (m, rs)
    (body_rdata (rs_class rs) (rs_type rs) <$> drop k lo.*2).
Proof.
  intros Hb Hlo Hok. remember (length lo - k) as n eqn:Hn.
  revert rs k Hb Hlo Hok Hn. induction n as [|n IH];
    intros rs k Hb Hlo Hok Hn Hk Hl Hc; [lia|].
  destruct (lookup_lt_is_Some_2 lo k) as [e He]; [lia|].
  assert (lo.*2 !! k = Some e.2) as He2 by (by rewrite list_lookup_fmap, He).
  rewrite (drop_S _ _ _ He2), fmap_cons.
  assert (Stock.rdataset_current m rs =
          Some (body_rdata (rs_class rs) (rs_type rs) e.2)) as Hcur.
  { eapply stock_current; [done|done| |by rewrite Hlo; apply (sl_tab _ _ _ _ Hs)|].
    - apply (sl_rec _ _ _ _ Hs). by eapply list_elem_of_lookup_2.
    - rewrite Forall_lookup in Hok. by eapply Hok. }
  pose proof (sl_max _ _ _ _ Hs) as Hmax.
  destruct n as [|n].
  - eapply rds_more; [exact Hcur| |].
    + cbn. unfold Stock.rdataset_next. rewrite Hl, bool_decide_true by lia. done.
    + rewrite drop_ge by (rewrite length_fmap; lia). constructor.
  - eapply rds_more; [exact Hcur| |].
    + cbn. unfold Stock.rdataset_next. rewrite Hl, bool_decide_false by lia.
      rewrite Hc. cbn [mbind option_bind]. rewrite Hlo. done.
    + rewrite u32_small by lia.
      replace (base + 2 + 4 * k + 4) with (base + 2 + 4 * S k) by lia.
      match goal with |- rds_from _ (_, ?rs') _ =>
        apply (IH rs' (S k)) end; try done; try lia; cbn; lia.
Qed.

Lemma stock_physical rs kvs start b l :
  private3 rs = base → loadorder rs = false →
  walk m base kvs start (b :: l) → Forall (body_ok (rs_type rs)) (b :: l) →
  (Z.of_nat (length l) < 2 ^ 16)%Z →
  privateuint4 rs = Z.of_nat (length l) → private5 rs = Some (base + start) →
  rds_from ISC_R_SUCCESS (m, rs) (body_rdata (rs_class rs) (rs_type rs) <$> b :: l).
Proof.
  revert rs kvs start b. induction l as [|b' l IH];
    intros rs kvs start b Hb Hlo Hw Hok Hmax Hl Hc;
    apply walk_cons in Hw as (k & kvs' & -> & Hrec & _ & Hw);
    apply Forall_cons in Hok as [Hok1 Hok2]; rewrite fmap_cons;
    assert (Stock.rdataset_current m rs =
            Some (body_rdata (rs_class rs) (rs_type rs) b)) as Hcur
      by (apply (stock_current m rs base (start, b) _ Hb Hc Hrec); [by rewrite Hlo|done]).
  - eapply rds_more; [exact Hcur| |constructor].
    cbn. unfold Stock.rdataset_next. rewrite Hl, bool_decide_true by done. done.
  - eapply rds_more; [exact Hcur| |].
    + cbn. unfold Stock.rdataset_next. rewrite Hl, bool_decide_false by done.
      rewrite Hc. cbn [mbind option_bind]. rewrite Hlo.
      destruct Hrec as (_ & Hr & _). cbn [fst snd] in Hr. rewrite Hr.
      cbn [mbind option_bind]. rewrite Nat2Z.id. done.
    + cbn [length] in *. rewrite u32_small by lia.
      match goal with |- rds_from _ (_, ?rs') _ =>
        apply (IH rs' kvs' (start + 4 + length b)) end; try done; cbn; try lia.
      f_equal. lia.
Qed.

Lemma stock_yields rs :
  private3 rs = base → Forall (body_ok (rs_type rs)) lo.*2 →
  rds_yields (m, rs) (body_rdata (rs_class rs) (rs_type rs) <$>
                        if loadorder rs then lo.*2 else ph).
Proof.
  intros Hb Hok. pose proof (entries_bodies (sl_phys _ _ _ _ Hs)) as Hp.
  pose proof (entries_length (sl_phys _ _ _ _ Hs)) as Hlp.
  pose proof (sl_max _ _ _ _ Hs) as Hmax. split.
  - cbn. unfold Stock.rdataset_count. rewrite Hb, (sl_count _ _ _ _ Hs).
    rewrite length_fmap. destruct (loadorder rs); rewrite ?length_fmap; congruence.
  - cbn. unfold Stock.rdataset_first. rewrite Hb, (sl_count _ _ _ _ Hs).
    cbn [mbind option_bind]. case_bool_decide as H0.
    { do 2 eexists. split; [done|]. rewrite Hlp in H0.
      destruct lo; [|cbn in Hlp; lia]. destruct ph; [|done].
      destruct (loadorder rs); constructor. }
    do 2 eexists. split; [done|]. rewrite Nat2Z.id, u32_small by lia.
    destruct (loadorder rs) eqn:Hlo.
    + rewrite <- (drop_0 lo.*2).
      match goal with |- rds_from _ (_, ?rs') _ => apply (stock_table rs' 0) end;
        try done; cbn; try lia. f_equal. lia.
    + destruct (slab_walk _ _ _ _ Hs) as (kvs & Hw & _).
      destruct ph as [|b l] eqn:Eph; [cbn in Hlp; lia|].
      match goal with |- rds_from _ (_, ?rs') _ =>
        apply (stock_physical rs' kvs (2 + 4 * length (b :: l)) b l) end; try done;
        cbn in *; try lia; [by rewrite <- Hp|]. f_equal. lia.
Qed.
End stock.

#[export] Program Instance stock_promise : SlabMethods Stock.methods := {|
  order_of rs lo ph := if loadorder rs then lo.*2 else ph |}.
Next Obligation. intros rs lo ph H. cbn. by destruct (loadorder rs). Qed.
Next Obligation. intros rs lo ph H. cbn. by destruct (loadorder rs). Qed.
Next Obligation.
  cbn. intros [m rs] res s' Hf. apply bind_Some in Hf as ([r rs'] & Hf & [= <- <-]).
  split; [done|]. cbn in *. unfold Stock.rdataset_first in Hf.
  apply bind_Some in Hf as (count & _ & Hf). case_bool_decide; by injection Hf as <- <-.
Qed.
Next Obligation.
  cbn. intros [m rs] res s' Hf. apply bind_Some in Hf as ([r rs'] & Hf & [= <- <-]).
  split; [done|]. cbn in *. unfold Stock.rdataset_next in Hf.
  case_bool_decide; [by injection Hf as <- <-|].
  apply bind_Some in Hf as (? & _ & (? & _ & [= <- <-])%bind_Some). done.
Qed.
Next Obligation. intros m rs lo ph Hs. by apply (stock_yields Hs). Qed.

(** C8: the two builds' method tables over one slab. Without [LBBIND] the
    records come in load order if the rdataset has the load-order attribute
    and in physical order otherwise; with [LBBIND] they always come in load
    order. So on the rdatasets of answers, which have the attribute, the two
    tables yield the same records in the same order, and the count of either
    is the number of records. *)
Theorem tables_yield m rs lo ph :
  slab_at m (private3 rs) lo ph → Forall (body_ok (rs_type rs)) lo.*2 →
  let recs := fmap (body_rdata (rs_class rs) (rs_type rs)) in
  @rds_yields _ Stock.methods (m, rs) (recs (if loadorder rs then lo.*2 else ph)) ∧
  @rds_yields _ Lbbind.methods (m, rs) (recs lo.*2) ∧
  lo.*2 ≡ₚ ph.
Proof.
  intros Hs Hok recs. split_and!.
  - by apply (stock_yields Hs).
  - rewrite Lbbind.methods_slab. by apply (slab_yields Hs).
  - apply entries_bodies, (sl_phys _ _ _ _ Hs).
Qed.

(** ** References to a node *)

Module Refs.
(** [node->references] of a node that has data and is not dirty, and how
    many rdatasets are associated with it. *)
Record nodestate := NodeState { references : Z; associated : nat }.

Definition new_reference (refs : Z) : option Z :=
  let refs := u32 (refs + 1) in
  if bool_decide (refs ≠ 0%Z) then Some refs else None.

Definition attachnode (refs : Z) : option Z :=
  if bool_decide (refs > 0)%Z then
    let refs := u32 (refs + 1) in
    if bool_decide (refs ≠ 0%Z) then Some refs else None
  else None.

Definition detachnode (refs : Z) : option Z :=
  if bool_decide (refs > 0)%Z then Some (refs - 1)%Z else None.

(** What a client does with rdatasets of the node. *)
Inductive op := Bind | Clone | Disassociate.

Definition bind_rdataset (s : nodestate) : option nodestate :=
  refs ← new_reference (references s); Some (NodeState refs (S (associated s))).

Definition rdataset_clone (lbbind : bool) (s : nodestate) : option nodestate :=
  refs ← (if lbbind then Some (references s) else attachnode (references s));
  Some (NodeState refs (S (associated s))).

Definition rdataset_disassociate (s : nodestate) : option nodestate :=
  refs ← detachnode (references s); Some (NodeState refs (pred (associated s))).

Definition run_op (lbbind : bool) (o : op) (s : nodestate) : option nodestate :=
  match o with
  | Bind => bind_rdataset s
  | Clone => rdataset_clone lbbind s
  | Disassociate => rdataset_disassociate s
  end.

Fixpoint run (lbbind : bool) (ops : list op) (s : nodestate) : option nodestate :=
  match ops with
  | [] => Some s
  | o :: ops' => s ← run_op lbbind o s; run lbbind ops' s
  end.

(** The client clones and disassociates only rdatasets it has; [n] of them
    at the start. *)
Fixpoint legal (ops : list op) (n : nat) : bool :=
  match ops with
  | [] => true
  | Bind :: ops' => legal ops' (S n)
  | Clone :: ops' => bool_decide (0 < n) && legal ops' (S n)
  | Disassociate :: ops' => bool_decide (0 < n) && legal ops' (pred n)
  end.

Definition is_clone (o : op) : bool := match o with Clone => true | _ => false end.
Definition clones (ops : list op) : nat := length (filter is_clone ops).

Lemma run_stock ops s :
  references s = Z.of_nat (associated s) →
  legal ops (associated s) = true →
  (Z.of_nat (associated s + length ops) < 2 ^ 32)%Z →
  ∃ s', run false ops s = Some s' ∧ references s' = Z.of_nat (associated s').
Proof.
  revert s. induction ops as [|o ops IH]; intros [r n]; cbn [references associated];
    intros -> Hleg Hb; [by eexists|]. cbn [length run] in *.
  destruct o; cbn [run_op legal] in *.
  - unfold bind_rdataset, new_reference. cbn [references].
    rewrite u32_small, bool_decide_true by lia. cbn [mbind option_bind].
    apply IH; cbn; [lia|done|lia].
  - apply andb_true_iff in Hleg as [Hn%bool_decide_eq_true Hleg].
    unfold rdataset_clone, attachnode. cbn [references].
    rewrite (bool_decide_true (_ > 0)%Z), u32_small, bool_decide_true by lia.
    cbn [mbind option_bind]. apply IH; cbn; [lia|done|lia].
  - apply andb_true_iff in Hleg as [Hn%bool_decide_eq_true Hleg].
    unfold rdataset_disassociate, detachnode. cbn [references].
    rewrite bool_decide_true by lia. cbn [mbind option_bind].
    apply IH; cbn; [lia|done|lia].
Qed.

Lemma run_lbbind ops s s' :
  (0 <= references s)%Z → (references s + Z.of_nat (length ops) < 2 ^ 32)%Z →
  legal ops (associated s) = true → run true ops s = Some s' →
  (references s' - Z.of_nat (associated s') =
   references s - Z.of_nat (associated s) - Z.of_nat (clones ops))%Z.
Proof.
  revert s. induction ops as [|o ops IH]; intros [r n]; cbn [references associated];
    intros Hr Hb Hleg Hrun; [cbn in Hrun; injection Hrun as <-; cbn; lia|].
  cbn [length run] in *. unfold clones. rewrite filter_cons. fold (clones ops).
  destruct o; cbn [run_op legal] in *.
  - unfold bind_rdataset, new_reference in Hrun. cbn [references] in Hrun.
    rewrite u32_small, bool_decide_true in Hrun by lia. cbn [mbind option_bind] in Hrun.
    rewrite decide_False by auto. apply IH in Hrun; cbn in *; try lia; try done.
    unfold clones in *. lia.
  - apply andb_true_iff in Hleg as [Hn%bool_decide_eq_true Hleg].
    unfold rdataset_clone in Hrun. cbn [references mbind option_bind] in Hrun.
    rewrite decide_True by done. apply IH in Hrun; cbn in *; try lia; try done.
    unfold clones in *. lia.
  - apply andb_true_iff in Hleg as [Hn%bool_decide_eq_true Hleg].
    unfold rdataset_disassociate, detachnode in Hrun. cbn [references] in Hrun.
    case_bool_decide; [|done]. cbn [mbind option_bind] in Hrun.
    rewrite decide_False by auto. apply IH in Hrun; cbn in *; try lia; try done.
    unfold clones in *. lia.
Qed.

(** A clone, a bind, disassociations, in numbers. *)
Lemma run_app lbbind ops1 ops2 s :
  run lbbind (ops1 ++ ops2) s = s ← run lbbind ops1 s; run lbbind ops2 s.
Proof.
  revert s. induction ops1 as [|o ops1 IH]; intros s; [done|]. cbn.
  destruct (run_op lbbind o s); cbn; [apply IH|done].
Qed.

Lemma legal_release k n : k <= n → legal (replicate k Disassociate) n = true.
Proof.
  revert n. induction k as [|k IH]; intros n Hk; [done|]. cbn.
  rewrite bool_decide_true by lia. apply IH. lia.
Qed.

Lemma legal_clones k n ops :
  0 < n → legal (replicate k Clone ++ ops) n = legal ops (n + k).
Proof.
  revert n. induction k as [|k IH]; intros n Hn; cbn; [by rewrite Nat.add_0_r|].
  rewrite bool_decide_true by lia. cbn. rewrite IH by lia. f_equal. lia.
Qed.

Lemma run_lbbind_clones k r n :
  run true (replicate k Clone) (NodeState r n) = Some (NodeState r (n + k)).
Proof.
  revert n. induction k as [|k IH]; intros n; cbn; [by rewrite Nat.add_0_r|].
  rewrite IH. do 2 f_equal. lia.
Qed.


(** Under [LBBIND]'s table a client that binds one rdataset, clones it
    [S k] times and disassociates all [S (S k)] of them fails the assertion
    in [detachnode], for every [k]: its clones took no reference to the
    node. The same client is fine with the stock table. *)
Theorem lbbind_underflow k :
  (Z.of_nat k + 6 < 2 ^ 30)%Z →
  let ops := Bind :: replicate (S k) Clone ++ replicate (S (S k)) Disassociate in
  legal ops 0 = true ∧ run true ops (NodeState 0 0) = None ∧
  ∃ s, run false ops (NodeState 0 0) = Some s.
Proof.
  intros Hk ops.
  assert (legal ops 0 = true) as Hl.
  { subst ops. cbn [legal]. rewrite legal_clones by lia. apply legal_release. lia. }
  split; [done|]. split.
  - subst ops. cbn [run run_op]. change (bind_rdataset (NodeState 0 0)) with (Some (NodeState 1 1)).
    cbn [mbind option_bind]. rewrite run_app, run_lbbind_clones. cbn [mbind option_bind].
    by cbn.
  - destruct (run_stock ops (NodeState 0 0)) as (s & E & _); [done|done| |by exists s].
    subst ops. cbn [length associated]. rewrite length_app, !length_replicate. lia.
Qed.
End Refs.
