(* ===== verification/Float32.v ===== *)
(** * Single-precision floats

    The profiler ([bin/named/profiler.c]) keeps the loads that a worker
    reports as C [float]s, copied bytewise from the message, combines them,
    and converts a difference to [int]. IEEE 754 arithmetic is the Standard
    Library's specification ([SpecFloat]) at 24 bits of precision. Here are
    the decoding of the four bytes (little-endian, as on the machines the
    code runs on), the conversion to [int], and lemmas that the operations
    are exact on small multiples of a power of two. *)
From Stdlib Require Import SpecFloat.
From S2P Require Import Prelude.
#[local] Open Scope Z_scope.

Abbreviation f32 := spec_float.
Definition f32_add : f32 → f32 → f32 := SFadd 24 128.
Definition f32_sub : f32 → f32 → f32 := SFsub 24 128.
Definition f32_mul : f32 → f32 → f32 := SFmul 24 128.

(** The [float] with the given bit pattern. *)
Definition f32_of_bits (w : Z) : f32 :=
  let s := Z.testbit w 31 in
  let e := Z.land (Z.shiftr w 23) 255 in
  let m := Z.land w (2 ^ 23 - 1) in
  if bool_decide (e = 255) then
    (if bool_decide (m = 0) then S754_infinity s else S754_nan)
  else if bool_decide (e = 0) then
    match m with
    | Zpos p => S754_finite s p (-149)
    | _ => S754_zero s
    end
  else match m + 2 ^ 23 with
       | Zpos p => S754_finite s p (e - 150)
       | _ => S754_nan
       end.

Definition f32_of_bytes (bs : list Z) : f32 :=
  match bs with
  | [a; b; c; d] => f32_of_bits (a + b * 2 ^ 8 + c * 2 ^ 16 + d * 2 ^ 24)
  | _ => S754_nan
  end.

(** [(int) f]: truncation towards zero. Out of range the C conversion is
    undefined; x86 yields the smallest integer. *)
Definition int_of_f32 (f : f32) : Z :=
  let indefinite := - 2 ^ 31 in
  match f with
  | S754_zero _ => 0
  | S754_finite s m e =>
      let v := if bool_decide (0 <= e) then Zpos m * 2 ^ e else Zpos m / 2 ^ (- e) in
      let v := if s then - v else v in
      if bool_decide (- 2 ^ 31 <= v < 2 ^ 31) then v else indefinite
  | S754_infinity _ | S754_nan => indefinite
  end.

(** ** Mantissas *)

Lemma digits2_log2 p : Zpos (digits2_pos p) = Z.log2 (Zpos p) + 1.
Proof.
  induction p as [p IH|p IH|]; cbn [digits2_pos]; [..|done].
  - rewrite Pos2Z.inj_succ, IH. rewrite (Pos2Z.inj_xI p), Z.log2_succ_double by lia. lia.
  - rewrite Pos2Z.inj_succ, IH. rewrite (Pos2Z.inj_xO p), Z.log2_double by lia. lia.
Qed.

(** A normal mantissa. *)
Definition normal (m : positive) : Prop := 2 ^ 23 <= Zpos m < 2 ^ 24.

Lemma normal_log2 m : normal m → Z.log2 (Zpos m) = 23.
Proof. intros Hm. apply Z.log2_unique; [lia|]. exact Hm. Qed.

Lemma iter_pos_nat {A} (f : A → A) (n : positive) (x : A) :
  SpecFloat.iter_pos f n x = Nat.iter (Pos.to_nat n) f x.
Proof.
  assert (∀ a b y, Nat.iter (a + b) f y = Nat.iter a f (Nat.iter b f y)) as Hadd
    by (intros a b y; induction a as [|a IHa]; [done|exact (f_equal f IHa)]).
  revert x. induction n as [n IH|n IH|]; intros x; cbn [SpecFloat.iter_pos]; [..|done].
  - rewrite !IH, <- Hadd. rewrite Pos2Nat.inj_xI.
    replace (S (2 * Pos.to_nat n)) with ((Pos.to_nat n + Pos.to_nat n) + 1)%nat by lia.
    by rewrite (Hadd (_ + _)%nat 1%nat).
  - rewrite !IH, <- Hadd. f_equal. lia.
Qed.

Lemma shr_exact n m :
  Nat.iter n shr_1 {| shr_m := Zpos m * 2 ^ Z.of_nat n; shr_r := false; shr_s := false |} =
  {| shr_m := Zpos m; shr_r := false; shr_s := false |}.
Proof.
  induction n as [|n IH]; [cbn; by rewrite Z.mul_1_r|].
  rewrite Nat.iter_succ_r, <- IH. f_equal.
  rewrite Nat2Z.inj_succ, Z.pow_succ_r by lia.
  replace (Zpos m * (2 * 2 ^ Z.of_nat n)) with (2 * (Zpos m * 2 ^ Z.of_nat n)) by lia.
  destruct (Zpos m * 2 ^ Z.of_nat n) as [|q|q] eqn:E; [..|]; try lia. done.
Qed.

Lemma fexp_small e : -125 <= e → fexp 24 128 e = e - 24.
Proof. unfold fexp, emin. lia. Qed.

(** Rounding a value that fits is exact. *)
Lemma binary_round_aux_exact s m e j q :
  normal m → -149 <= e <= 104 → 0 <= j → Zpos q = Zpos m * 2 ^ j →
  binary_round_aux 24 128 s (Zpos q) (e - j) loc_Exact = S754_finite s m e.
Proof.
  intros Hm He Hj Hq. pose proof (normal_log2 _ Hm) as Hlog.
  assert (Zdigits2 (Zpos q) = 24 + j) as Hd.
  { cbn [Zdigits2]. rewrite digits2_log2, Hq, Z.log2_mul_pow2 by lia. lia. }
  assert (shr_fexp 24 128 (Zpos q) (e - j) loc_Exact =
          ({| shr_m := Zpos m; shr_r := false; shr_s := false |}, e)) as H1.
  { unfold shr_fexp. rewrite Hd. replace (24 + j + (e - j)) with (24 + e) by lia.
    rewrite fexp_small by lia. unfold shr.
    replace (24 + e - 24 - (e - j)) with j by lia.
    destruct j as [|j|j]; [|..]; [|f_equal; [|lia]|lia].
    - rewrite Z.mul_1_r in Hq. injection Hq as ->. cbn. by rewrite Z.sub_0_r.
    - cbn [shr_record_of_loc]. rewrite iter_pos_nat, Hq.
      rewrite <- (positive_nat_Z j). apply shr_exact. }
  unfold binary_round_aux. rewrite H1. cbn [shr_m loc_of_shr_record round_nearest_even].
  assert (shr_fexp 24 128 (Zpos m) e loc_Exact =
          ({| shr_m := Zpos m; shr_r := false; shr_s := false |}, e)) as H2.
  { unfold shr_fexp. cbn [Zdigits2]. rewrite digits2_log2, Hlog.
    replace (23 + 1 + e) with (24 + e) by lia. rewrite fexp_small by lia.
    by replace (24 + e - 24 - e) with 0 by lia. }
  rewrite H2. cbn [shr_m]. destruct (Z.leb_spec e (128 - 24)); [done|lia].
Qed.

(** ** Exact values

    [f] is the normal float of value [z * 2 ^ e0]. *)
Definition repr (f : f32) (z e0 : Z) : Prop :=
  (z = 0 ∧ f = S754_zero false) ∨
  (z ≠ 0 ∧ ∃ m e, f = S754_finite (bool_decide (z < 0)) m e ∧ normal m ∧
     e0 - 23 <= e <= e0 ∧ Zpos m = Z.abs z * 2 ^ (e0 - e)).

Lemma xO_iter p d : Zpos (Pos.iter xO p d) = Zpos p * 2 ^ Zpos d.
Proof.
  rewrite Pos2Nat.inj_iter. rewrite <- (positive_nat_Z d).
  generalize (Pos.to_nat d). induction n as [|n IH]; [cbn; lia|].
  - cbn [nat_rect]. rewrite Pos2Z.inj_xO, IH, Nat2Z.inj_succ, Z.pow_succ_r by lia. lia.
Qed.

Lemma shl_align_down p e e' : e' <= e →
  Zpos (fst (shl_align p e e')) = Zpos p * 2 ^ (e - e').
Proof.
  intros He. unfold shl_align. destruct (e' - e) as [|d|d] eqn:E; cbn [fst].
  - replace (e - e') with 0 by lia. lia.
  - lia.
  - rewrite xO_iter. f_equal. f_equal. lia.
Qed.

(** The canonical mantissa of a small non-zero integer. *)
Lemma normal_mantissa a :
  0 < a < 2 ^ 24 →
  ∃ m, normal m ∧ Zpos m = a * 2 ^ (23 - Z.log2 a) ∧ 0 <= Z.log2 a <= 23.
Proof.
  intros Ha. pose proof (Z.log2_spec a ltac:(lia)) as [H1 H2].
  pose proof (Z.log2_nonneg a).
  assert (Z.log2 a < 24) by (apply Z.log2_lt_pow2; lia).
  assert (0 < 2 ^ (23 - Z.log2 a)) as Hp by (apply Z.pow_pos_nonneg; lia).
  destruct (a * 2 ^ (23 - Z.log2 a)) as [|m|m] eqn:E; [nia| |nia].
  exists m. split; [|split; [done|lia]]. unfold normal. rewrite <- E.
  replace (2 ^ 23) with (2 ^ Z.log2 a * 2 ^ (23 - Z.log2 a))
    by (rewrite <- Z.pow_add_r by lia; f_equal; lia).
  replace (2 ^ 24) with (2 ^ Z.succ (Z.log2 a) * 2 ^ (23 - Z.log2 a))
    by (rewrite <- Z.pow_add_r by lia; f_equal; lia).
  split; [nia|]. apply Z.mul_lt_mono_pos_r; lia.
Qed.

Lemma binary_round_repr s a k e0 q :
  0 < a < 2 ^ 24 → 0 <= k → -100 <= e0 <= 0 → Zpos q = a * 2 ^ k →
  ∃ m e, binary_round 24 128 s q (e0 - k) = S754_finite s m e ∧ normal m ∧
    e0 - 23 <= e <= e0 ∧ Zpos m = a * 2 ^ (e0 - e).
Proof.
  intros Ha Hk He0 Hq. destruct (normal_mantissa a Ha) as (m & Hm & Hma & Hlog).
  set (e := e0 - (23 - Z.log2 a)).
  exists m, e. split; [|split; [done|split; [lia|]]].
  2:{ rewrite Hma. do 2 f_equal. lia. }
  unfold binary_round.
  assert (fexp 24 128 (Zpos (digits2_pos q) + (e0 - k)) = e) as ->.
  { rewrite digits2_log2, Hq, Z.log2_mul_pow2 by lia.
    rewrite fexp_small by lia. subst e. lia. }
  unfold shl_align. destruct (e - (e0 - k)) as [|j|j] eqn:E.
  - replace (e0 - k) with (e - 0) by lia.
    apply binary_round_aux_exact; [done|lia|lia|].
    rewrite Hq, Hma. rewrite Z.mul_1_r. do 2 f_equal. lia.
  - replace (e0 - k) with (e - Zpos j) by lia.
    apply binary_round_aux_exact; [done|lia|lia|].
    rewrite Hq, Hma, <- Z.mul_assoc, <- Z.pow_add_r by lia. do 2 f_equal. lia.
  - rewrite <- (Z.sub_0_r e) at 1.
    apply binary_round_aux_exact; [done|lia|lia|].
    rewrite xO_iter, Hq, Hma, <- Z.mul_assoc, <- Z.pow_add_r, Z.mul_1_r by lia.
    do 2 f_equal. lia.
Qed.

Lemma binary_normalize_repr z k e0 :
  Z.abs z < 2 ^ 24 → 0 <= k → -100 <= e0 <= 0 →
  repr (binary_normalize 24 128 (z * 2 ^ k) (e0 - k) false) z e0.
Proof.
  intros Hz Hk He0. assert (0 < 2 ^ k) by (apply Z.pow_pos_nonneg; lia).
  destruct (z * 2 ^ k) as [|q|q] eqn:E; cbn [binary_normalize].
  - left. split; [nia|done].
  - right. assert (0 < z) by nia. split; [lia|].
    destruct (binary_round_repr false z k e0 q) as (m & e & Hr & ?); [lia..|].
    exists m, e. rewrite bool_decide_false, Z.abs_eq by lia. done.
  - right. assert (z < 0) by nia. split; [lia|].
    destruct (binary_round_repr true (- z) k e0 q) as (m & e & Hr & ?); [lia..|].
    exists m, e. rewrite bool_decide_true, Z.abs_neq by lia. done.
Qed.

(** What [repr] says of the mantissa, sign included. *)
Lemma repr_aligned (z e0 e ez : Z) (m : positive) :
  Zpos m = Z.abs z * 2 ^ (e0 - e) → ez <= e → e <= e0 →
  cond_Zopp (bool_decide (z < 0)) (Zpos (fst (shl_align m e ez))) = z * 2 ^ (e0 - ez).
Proof.
  intros Hm H1 H2. rewrite shl_align_down by done.
  rewrite Hm, <- Z.mul_assoc, <- Z.pow_add_r by lia.
  replace (e0 - e + (e - ez)) with (e0 - ez) by lia.
  case_bool_decide; cbn [cond_Zopp]; lia.
Qed.

Lemma f32_add_repr x y a b e0 :
  repr x a e0 → repr y b e0 → Z.abs (a + b) < 2 ^ 24 → -70 <= e0 <= 0 →
  repr (f32_add x y) (a + b) e0.
Proof.
  intros Hx Hy Hab He0. unfold f32_add.
  destruct Hx as [[-> ->]|(Ha & m1 & e1 & -> & Hm1 & He1 & Hv1)].
  { destruct Hy as [[-> ->]|(Hb & m2 & e2 & -> & H)]; [by left|].
    right. split; [lia|]. exists m2, e2. done. }
  destruct Hy as [[-> ->]|(Hb & m2 & e2 & -> & Hm2 & He2 & Hv2)].
  { right. rewrite Z.add_0_r in *. split; [lia|]. exists m1, e1. done. }
  cbn [SFadd].
  rewrite (repr_aligned a e0 e1), (repr_aligned b e0 e2) by (done || lia).
  rewrite <- Z.mul_add_distr_r.
  pose proof (binary_normalize_repr (a + b) (e0 - Z.min e1 e2) e0) as Hr.
  replace (e0 - (e0 - Z.min e1 e2)) with (Z.min e1 e2) in Hr by lia.
  apply Hr; lia.
Qed.

Lemma f32_sub_repr x y a b e0 :
  repr x a e0 → repr y b e0 → Z.abs (a - b) < 2 ^ 24 → -70 <= e0 <= 0 →
  repr (f32_sub x y) (a - b) e0.
Proof.
  intros Hx Hy Hab He0. unfold f32_sub.
  destruct Hx as [[-> ->]|(Ha & m1 & e1 & -> & Hm1 & He1 & Hv1)].
  { destruct Hy as [[-> ->]|(Hb & m2 & e2 & -> & H)]; [by left|].
    right. split; [lia|]. exists m2, e2. rewrite Z.abs_opp.
    cbn [SFsub]. split; [|done]. f_equal.
    repeat case_bool_decide; cbn; lia || done. }
  destruct Hy as [[-> ->]|(Hb & m2 & e2 & -> & Hm2 & He2 & Hv2)].
  { right. rewrite Z.sub_0_r in *. split; [lia|]. exists m1, e1. done. }
  cbn [SFsub].
  rewrite (repr_aligned a e0 e1), (repr_aligned b e0 e2) by (done || lia).
  rewrite <- Z.mul_sub_distr_r.
  pose proof (binary_normalize_repr (a - b) (e0 - Z.min e1 e2) e0) as Hr.
  replace (e0 - (e0 - Z.min e1 e2)) with (Z.min e1 e2) in Hr by lia.
  apply Hr; lia.
Qed.

(** Multiplying by a power of two. *)
Lemma f32_mul_repr x a e0 k :
  repr x a e0 → -50 <= e0 <= 0 → -50 <= k + 23 <= 0 →
  repr (f32_mul x (S754_finite false 8388608 k)) a (e0 + (k + 23)).
Proof.
  intros [[-> ->]|(Ha & m & e & -> & Hm & He & Hv)] He0 Hk; [by left|].
  right. split; [done|]. exists m, (e + (k + 23)). split; [|split; [done|split; [lia|]]].
  - unfold f32_mul. cbn [SFmul]. rewrite xorb_false_r.
    replace (e + k) with (e + (k + 23) - 23) by lia.
    apply binary_round_aux_exact; [done|lia|lia|]. rewrite Pos2Z.inj_mul. lia.
  - rewrite Hv. do 2 f_equal. lia.
Qed.

(** Scaling the unit. *)
Lemma repr_scale f z e0 d :
  repr f z e0 → 0 <= d → Z.abs z * 2 ^ d < 2 ^ 24 → repr f (z * 2 ^ d) (e0 - d).
Proof.
  intros Hf Hd Hz. assert (0 < 2 ^ d) by (apply Z.pow_pos_nonneg; lia).
  destruct Hf as [[-> ->]|(Hnz & m & e & -> & Hm & He & Hv)]; [by left|].
  right. split; [nia|]. exists m, e.
  replace (bool_decide (z * 2 ^ d < 0)) with (bool_decide (z < 0))
    by (apply bool_decide_ext; nia).
  split; [done|]. split; [done|].
  assert (e <= e0 - d) as Hle.
  { destruct (decide (e <= e0 - d)) as [|Hgt]; [done|].
    assert (2 ^ (e0 - e) <= 2 ^ (d - 1)) by (apply Z.pow_le_mono_r; lia).
    assert (2 ^ d = 2 * 2 ^ (d - 1)) as Hd2
      by (rewrite <- Z.pow_succ_r by lia; f_equal; lia).
    unfold normal in Hm. nia. }
  split; [lia|]. rewrite Hv, Z.abs_mul, (Z.abs_eq (2 ^ d)), <- Z.mul_assoc by lia.
  rewrite <- Z.pow_add_r by lia. do 2 f_equal. lia.
Qed.

(** Converting to [int]. *)
Lemma int_of_f32_repr f z e0 :
  repr f z e0 → -50 <= e0 <= 0 → Z.abs z < 2 ^ 24 → int_of_f32 f = Z.quot z (2 ^ (- e0)).
Proof.
  intros [[-> ->]|(Hnz & m & e & -> & Hm & He & Hv)] He0 Hz; [done|].
  assert (0 < 2 ^ (- e0)) as Hp0 by (apply Z.pow_pos_nonneg; lia).
  assert (Z.abs (Z.quot z (2 ^ (- e0))) <= Z.abs z) as Hb.
  { rewrite <- Z.quot_abs by lia. rewrite Z.quot_div_nonneg by lia.
    apply Z.div_le_upper_bound; [lia|]. nia. }
  cbn [int_of_f32].
  assert ((if bool_decide (0 <= e) then Zpos m * 2 ^ e else Zpos m / 2 ^ (- e)) =
          Z.abs z / 2 ^ (- e0)) as Hval.
  { case_bool_decide.
    - assert (e = 0) as -> by lia. assert (e0 = 0) as -> by lia.
      rewrite Hv, Z.div_1_r. cbn. lia.
    - rewrite Hv. replace (- e) with ((- e0) + (e0 - e)) by lia.
      rewrite Z.pow_add_r by lia. apply Z.div_mul_cancel_r; [lia|].
      apply Z.pow_nonzero; lia. }
  rewrite Hval. clear Hval.
  assert ((if bool_decide (z < 0) then - (Z.abs z / 2 ^ (- e0))
           else Z.abs z / 2 ^ (- e0)) = Z.quot z (2 ^ (- e0))) as ->.
  { case_bool_decide.
    - rewrite Z.abs_neq by lia. set (p := 2 ^ (- e0)) in *.
      rewrite <- (Z.quot_div_nonneg (- z) p) by lia.
      rewrite (Z.quot_opp_l z p) by lia. apply Z.opp_involutive.
    - rewrite Z.abs_eq, Z.quot_div_nonneg by lia. done. }
  rewrite bool_decide_true; [done|]. lia.
Qed.

(** The bit pattern of a [float] decodes to its value, at examples. *)
Example f32_255 : f32_of_bytes [0; 0; 0x7f; 0x43] = S754_finite false 16711680 (-16).
Proof. reflexivity. Qed.
