(* ===== verification/Profiler.v ===== *)
(** * The load-balancing profiler

    [bin/named/profiler.c]: for every rdataset with more than one record a
    node is registered ([ns_profiler_thread]); then, round after round, every
    node's workers are asked for their load ([ns_profiler_poll_workers]), the
    node's array is sorted by load ([cmp], [qsort]) and the slab gets that
    order ([ns_profiler_update_addrs]).

    The network is a parameter of a round: for each worker, no connection or
    what a request is answered with. The MD5 digest (OpenSSL) is the
    parameter [md5]. *)
From Stdlib Require Import SpecFloat.
From S2P Require Import Prelude Qsort Rdata Slab SlabIndex SlabBuild SlabSpec SlabTransform Float32.

(** ** Loads *)

(** [0.5f], [0.25f], [0.25f] *)
Definition CPU : f32 := S754_finite false 8388608 (-24).
Definition IO : f32 := S754_finite false 8388608 (-25).
Definition NET : f32 := S754_finite false 8388608 (-25).

Definition CALC_LOAD (x : a_node) : f32 :=
  f32_add (f32_add (f32_mul (f32_of_bytes (an_cpu_load x)) CPU)
                   (f32_mul (f32_of_bytes (an_io_load x)) IO))
          (f32_mul (f32_of_bytes (an_net_load x)) NET).

Definition cmp (a b : a_node) : Z :=
  int_of_f32 (f32_sub (CALC_LOAD a) (CALC_LOAD b)).

(** [255.0f] *)
Definition load_255 : list Z := [0; 0; 0x7f; 0x43]%Z.

Definition set_loads (a : a_node) (cpu io net : list Z) : a_node :=
  ANode (an_addr a) (an_offset a) cpu io net.

Definition set_dead (a : a_node) : a_node := set_loads a load_255 load_255 load_255.

(** ** Talking to a worker *)

Section worker.
Context (md5_digest : list Z → list Z).

(** The digest check of a 28-byte response; the loads are stored before the
    check. The result is the code's, the response buffer is consumed. *)
Definition parse_response (response : mem) (currnode : a_node)
    : option (Z * a_node) :=
  io_load ← mread response 0 4;
  cpu_load ← mread response 4 4;
  net_load ← mread response 8 4;
  msg_digest ← mread response 12 16;
  response ← mwrite response 12 [0%Z];
  input ← mread response 0 12;
  digest ← mread (md5_digest input) 0 16;
  Some (if bool_decide (msg_digest = digest) then 0%Z else (-1)%Z,
        set_loads currnode cpu_load io_load net_load).

(** The bytes of a C string up to its terminator. *)
Fixpoint cstr (s : list Z) : list Z :=
  match s with
  | [] => []
  | c :: s' => if bool_decide (c = 0%Z) then [] else c :: cstr s'
  end.

(** What [sendMessage] writes to the socket: [strcat]s into a buffer of 256
    bytes. *)
Definition request_message (orig_message ip : list Z) : option (list Z) :=
  let digest := md5_digest orig_message in
  let message := orig_message ++ [35%Z] ++ ip ++ [35%Z] ++ cstr (take 16 digest) in
  if bool_decide (length message < 256) then Some message else None.

(** A worker that accepts the connection answers a request with the bytes
    of one [recv], or with nothing. *)
Abbreviation worker := (option (list Z → option (list Z))).

(** [garbage] is the fresh 42-byte buffer; [recv] reads at most 28 bytes. *)
Definition sendMessage (orig_message ip : list Z)
    (answer : list Z → option (list Z)) (garbage : mem) : option (option mem) :=
  message ← request_message orig_message ip;
  let received := take 28 (default [] (answer message)) in
  response ← mwrite garbage 0 received;
  response ← mwrite response 28 [0%Z];
  Some (if bool_decide (length received = 0) then None else Some response).

(** [inet_ntoa] of the C library. *)
Definition dec_byte (b : Z) : list Z :=
  if bool_decide (b < 10)%Z then [48 + b]%Z
  else if bool_decide (b < 100)%Z then [48 + b / 10; 48 + b mod 10]%Z
  else [48 + b / 100; 48 + (b / 10) mod 10; 48 + b mod 10]%Z.

Definition inet_ntoa (addr : list Z) : list Z :=
  match addr with
  | [a; b; c; d] =>
      dec_byte a ++ [46%Z] ++ dec_byte b ++ [46%Z] ++ dec_byte c ++ [46%Z] ++ dec_byte d
  | _ => []
  end.

(** "REQSTATS" *)
Definition REQSTATS : list Z := [82; 69; 81; 83; 84; 65; 84; 83]%Z.

Definition poll_one (a : a_node) (w : worker) (garbage : mem) : option a_node :=
  let ip2 := inet_ntoa (an_addr a) in
  match w with
  | None => Some (set_dead a)
  | Some answer =>
      response ← sendMessage REQSTATS ip2 answer garbage;
      match response with
      | None => Some (set_dead a)
      | Some response =>
          '(rc, a) ← parse_response response a;
          Some (if bool_decide (rc ≠ 0%Z) then set_dead a else a)
      end
  end.
End worker.

Abbreviation worker := (option (list Z → option (list Z))).

(** ** Nodes *)

Record node := Node { nd_rdataset : rdataset; nd_stats : list a_node; nd_naddrs : Z }.

(** What the outside contributes to a round: the workers' answers and the
    contents of fresh buffers, by index. *)
Record env := Env { env_worker : nat → worker; env_buffer : nat → mem }.

Section profiler.
Context (md5_digest : list Z → list Z) `{Qsort}.

(** The loop from index [i], [n] rounds left. *)
Fixpoint poll_loop (e : env) (stats : list a_node) (i n : nat) : option (list a_node) :=
  match n with
  | O => Some stats
  | S n =>
      a ← stats !! i;
      a ← poll_one md5_digest a (env_worker e i) (env_buffer e i);
      poll_loop e (<[i := a]> stats) (S i) n
  end.

Definition ns_profiler_poll_workers (e : env) (cur : node) : option node :=
  stats ← poll_loop e (nd_stats cur) 0 (Z.to_nat (nd_naddrs cur));
  Some (Node (nd_rdataset cur) stats (nd_naddrs cur)).

(** One node's part of a round of [ns_profiler_update_addrs]. *)
Definition update_node (e : env) (m : mem) (current : node) : option (mem * node) :=
  if bool_decide (nd_naddrs current > 0)%Z then
    current ← ns_profiler_poll_workers e current;
    let n := Z.to_nat (nd_naddrs current) in
    let stats := qsort cmp (take n (nd_stats current)) ++ drop n (nd_stats current) in
    '(_, m, rs) ← dns_rdataslab_sort_fromrdataset m (nd_rdataset current) stats;
    Some (m, Node rs stats (nd_naddrs current))
  else Some (m, current).

(** A round: every node of the list [list_g], each with its slab. *)
Fixpoint update_round (es : list env) (l : list (mem * node)) {struct l}
    : option (list (mem * node)) :=
  match l, es with
  | [], _ => Some []
  | (m, nd) :: l', e :: es' =>
      x ← update_node e m nd; l' ← update_round es' l'; Some (x :: l')
  | _ :: _, [] => None
  end.

(** ** Registering an rdataset *)

(** [tostruct_in_a] ([lib/dns/rdata/in_1/a_1.c]): the address of an A
    record, in network order. *)
Definition tostruct_in_a (rdata : rdata) : option (list Z) :=
  if bool_decide (rd_type rdata = dns_rdatatype_a ∧
                  rd_class rdata = dns_rdataclass_in ∧ length (rd_data rdata) = 4)
  then Some (rd_data rdata) else None.

Definition set_addr (a : a_node) (addr : list Z) : a_node :=
  ANode addr (an_offset a) (an_cpu_load a) (an_io_load a) (an_net_load a).

(** The loop that copies the addresses into the array. *)
Fixpoint addrs_loop `{RdatasetMethods St} (fuel : nat) (s : St) (result : isc_result)
    (stats : list a_node) (i : nat) (naddrs : Z) : option (list a_node * Z) :=
  if bool_decide (result = ISC_R_SUCCESS) then
    match fuel with
    | O => None
    | S fuel =>
        rdata ← dns_rdataset_current s;
        '(stats, i, naddrs) ←
          (if bool_decide (rd_type rdata = dns_rdatatype_a) then
             in_addr ← tostruct_in_a rdata;
             a ← stats !! i;
             Some (<[i := set_addr a in_addr]> stats, S i, naddrs)
           else Some (stats, i, (naddrs - 1)%Z));
        '(result, s) ← dns_rdataset_next s;
        addrs_loop fuel s result stats i naddrs
    end
  else Some (stats, naddrs).

Definition zero_node : a_node :=
  ANode [0;0;0;0]%Z 0 [0;0;0;0]%Z [0;0;0;0]%Z [0;0;0;0]%Z.

(** The body of the rdataset loop of [ns_profiler_thread]. *)
Definition register `{RdatasetMethods (mem * rdataset)} (m : mem) (rs : rdataset)
    : option (mem * option node) :=
  count ← dns_rdataset_count (m, rs);
  if bool_decide (count > 1)%Z then
    let value_rdataset := rdataset_clone rs in
    let addr_stats := replicate (Z.to_nat count) zero_node in
    '(_, m, rs, addr_stats) ← dns_rdataslab_transformrdataset m rs addr_stats;
    '(result, s) ← dns_rdataset_first (m, rs);
    '(addr_stats, naddrs) ←
      addrs_loop (S (Z.to_nat count)) s result addr_stats 0 count;
    Some (m, Some (Node value_rdataset addr_stats naddrs))
  else Some (m, None).
End profiler.

(** ** Order of the loads *)

(** The loads are the whole numbers [c], [i] and [n]. *)
Definition whole_loads (a : a_node) (c i n : Z) : Prop :=
  repr (f32_of_bytes (an_cpu_load a)) c 0 ∧
  repr (f32_of_bytes (an_io_load a)) i 0 ∧
  repr (f32_of_bytes (an_net_load a)) n 0 ∧
  (0 <= c < 2 ^ 20 ∧ 0 <= i < 2 ^ 20 ∧ 0 <= n < 2 ^ 20)%Z.

(** Four times the weighted load. *)
Definition weight (c i n : Z) : Z := (2 * c + i + n)%Z.

Lemma calc_load_repr a c i n :
  whole_loads a c i n → repr (CALC_LOAD a) (weight c i n) (-2).
Proof.
  intros (Hc & Hi & Hn & Hb). unfold CALC_LOAD, weight.
  apply f32_add_repr; [|by apply (f32_mul_repr _ _ 0 (-25))|lia|lia].
  apply f32_add_repr; [|by apply (f32_mul_repr _ _ 0 (-25))|lia|lia].
  rewrite Z.mul_comm. apply (repr_scale _ c (-1) 1); [|lia|lia].
  by apply (f32_mul_repr _ _ 0 (-24)).
Qed.

(** On whole loads the comparison is the truncated difference of the
    weighted loads. *)
Lemma cmp_weight a b c i n c' i' n' :
  whole_loads a c i n → whole_loads b c' i' n' →
  cmp a b = Z.quot (weight c i n - weight c' i' n') 4.
Proof.
  intros Ha Hb. unfold cmp.
  assert (∀ x y z, 0 <= x < 2 ^ 20 ∧ 0 <= y < 2 ^ 20 ∧ 0 <= z < 2 ^ 20 →
                   0 <= weight x y z < 2 ^ 22)%Z as Hw by (unfold weight; lia).
  pose proof (Hw c i n) as H1. pose proof (Hw c' i' n') as H2.
  unfold whole_loads in *. rewrite (int_of_f32_repr _ (weight c i n - weight c' i' n') (-2)).
  - done.
  - apply f32_sub_repr; [by apply calc_load_repr|by apply calc_load_repr|lia|lia].
  - lia.
  - lia.
Qed.

Lemma load_255_repr : repr (f32_of_bytes load_255) 255 0.
Proof.
  right. split; [done|]. exists 16711680%positive, (-16)%Z. unfold normal.
  repeat split; lia.
Qed.

Lemma set_dead_whole a : whole_loads (set_dead a) 255 255 255.
Proof. repeat split; try apply load_255_repr; lia. Qed.

(** ** Polling *)

Lemma cstr_length s : length (cstr s) <= length s.
Proof. induction s as [|c s IH]; cbn; [lia|]. case_bool_decide; cbn; lia. Qed.

Lemma dec_byte_length b : length (dec_byte b) <= 3.
Proof. unfold dec_byte. repeat case_bool_decide; cbn; lia. Qed.

Lemma inet_ntoa_length a : length (inet_ntoa a) <= 15.
Proof.
  destruct a as [|a [|b [|c [|d [|? ?]]]]]; cbn; try lia.
  rewrite !length_app. cbn. pose proof (dec_byte_length a). pose proof (dec_byte_length b).
  pose proof (dec_byte_length c). pose proof (dec_byte_length d).
  rewrite length_app. cbn. rewrite length_app. cbn. lia.
Qed.

(** The environment hands out buffers of the size asked for. *)
Definition env_ok (e : env) : Prop := ∀ i, length (env_buffer e i) = 42.

Section poll.
Context (md5_digest : list Z → list Z).
Context (Hmd5 : ∀ x, 16 <= length (md5_digest x)).

Lemma request_message_fits addr :
  ∃ req, request_message md5_digest REQSTATS (inet_ntoa addr) = Some req ∧
         length req <= 41.
Proof.
  unfold request_message. set (s := cstr _).
  assert (length s <= 16) as Hs.
  { subst s. etrans; [apply cstr_length|]. rewrite length_take. lia. }
  pose proof (inet_ntoa_length addr) as Hi.
  assert (length (REQSTATS ++ [35%Z] ++ inet_ntoa addr ++ [35%Z] ++ s) <= 41) as Hl.
  { rewrite !length_app. cbn. lia. }
  rewrite bool_decide_true by lia. eauto.
Qed.

Lemma poll_one_ok a w garbage :
  length garbage = 42 →
  ∃ a', poll_one md5_digest a w garbage = Some a' ∧
    an_addr a' = an_addr a ∧ an_offset a' = an_offset a.
Proof.
  intros Hg. unfold poll_one. destruct w as [answer|]; [|by eexists].
  destruct (request_message_fits (an_addr a)) as (req & Hreq & _).
  unfold sendMessage. rewrite Hreq. cbn [mbind option_bind].
  set (received := take 28 _).
  assert (length received <= 28) as Hr by (subst received; rewrite length_take; lia).
  destruct (mwrite_is_Some garbage 0 received) as [r1 H1]; [lia|].
  pose proof (mwrite_length _ _ _ _ H1) as L1.
  destruct (mwrite_is_Some r1 28 [0%Z]) as [r2 H2]; [cbn; lia|].
  pose proof (mwrite_length _ _ _ _ H2) as L2.
  rewrite H1. cbn [mbind option_bind]. rewrite H2. cbn [mbind option_bind].
  case_bool_decide; [by eexists|]. unfold parse_response.
  destruct (mread_is_Some r2 0 4) as [io ->]; [lia|]. cbn [mbind option_bind].
  destruct (mread_is_Some r2 4 4) as [cpu ->]; [lia|]. cbn [mbind option_bind].
  destruct (mread_is_Some r2 8 4) as [net ->]; [lia|]. cbn [mbind option_bind].
  destruct (mread_is_Some r2 12 16) as [dig ->]; [lia|]. cbn [mbind option_bind].
  destruct (mwrite_is_Some r2 12 [0%Z]) as [r3 H3]; [cbn; lia|].
  pose proof (mwrite_length _ _ _ _ H3) as L3. rewrite H3. cbn [mbind option_bind].
  destruct (mread_is_Some r3 0 12) as [inp ->]; [lia|]. cbn [mbind option_bind].
  destruct (mread_is_Some (md5_digest inp) 0 16) as [d ->]; [apply Hmd5|].
  cbn [mbind option_bind].
  destruct (bool_decide (dig = d)); cbn; eexists; (split; [done|]); done.
Qed.

(** A worker that sends the full 28 bytes: its loads are taken exactly when
    the digest is the one of the loads. *)
Lemma poll_one_reply a answer garbage req io cpu net dig rest :
  length garbage = 42 →
  request_message md5_digest REQSTATS (inet_ntoa (an_addr a)) = Some req →
  answer req = Some (io ++ cpu ++ net ++ dig ++ rest) →
  length io = 4 → length cpu = 4 → length net = 4 → length dig = 16 →
  poll_one md5_digest a (Some answer) garbage =
  Some (if bool_decide (dig = take 16 (md5_digest (io ++ cpu ++ net)))
        then set_loads a cpu io net else set_dead a).
Proof.
  intros Hg Hreq Hans L1 L2 L3 L4. unfold poll_one, sendMessage.
  rewrite Hreq. cbn [mbind option_bind]. rewrite Hans. cbn [from_option id].
  assert (take 28 (io ++ cpu ++ net ++ dig ++ rest) = io ++ cpu ++ net ++ dig) as ->.
  { rewrite !app_assoc. rewrite take_app_length'; [done|]. rewrite !length_app. lia. }
  set (recd := io ++ cpu ++ net ++ dig).
  assert (length recd = 28) as Lr by (subst recd; rewrite !length_app; lia).
  destruct (mwrite_is_Some garbage 0 recd) as [r1 H1]; [lia|].
  pose proof (mwrite_length _ _ _ _ H1) as Lr1.
  destruct (mwrite_is_Some r1 28 [0%Z]) as [r2 H2]; [cbn; lia|].
  pose proof (mwrite_length _ _ _ _ H2) as Lr2.
  rewrite H1. cbn [mbind option_bind]. rewrite H2. cbn [mbind option_bind].
  rewrite bool_decide_false by lia.
  assert (mread r2 0 28 = Some recd) as Hr2.
  { rewrite (mread_frame _ _ _ _ _ _ H2) by lia. rewrite <- Lr.
    by apply (mread_mwrite_same _ _ _ _ H1). }
  destruct (mwrite_is_Some r2 12 [0%Z]) as [r3 H3]; [cbn; lia|].
  assert (mread r3 0 12 = Some (io ++ cpu ++ net)) as Hr3.
  { rewrite (mread_frame _ _ _ _ _ _ H3) by lia.
    pose proof (mread_sub _ 0 28 _ 0 12 Hr2 ltac:(lia)) as M. cbn [Nat.add] in M.
    rewrite M, drop_0. f_equal.
    replace recd with ((io ++ cpu ++ net) ++ dig) by (subst recd; by rewrite <- !app_assoc).
    apply take_app_length'. rewrite !length_app. lia. }
  unfold parse_response.
  pose proof (mread_sub _ 0 28 _ 0 4 Hr2 ltac:(lia)) as M0.
  pose proof (mread_sub _ 0 28 _ 4 4 Hr2 ltac:(lia)) as M4.
  pose proof (mread_sub _ 0 28 _ 8 4 Hr2 ltac:(lia)) as M8.
  pose proof (mread_sub _ 0 28 _ 12 16 Hr2 ltac:(lia)) as M12.
  cbn [Nat.add] in M0, M4, M8, M12. rewrite M0, M4, M8, M12.
  cbn [mbind option_bind]. rewrite H3. cbn [mbind option_bind]. rewrite Hr3.
  cbn [mbind option_bind].
  assert (mread (md5_digest (io ++ cpu ++ net)) 0 16 =
          Some (take 16 (md5_digest (io ++ cpu ++ net)))) as ->.
  { unfold mread. rewrite bool_decide_true by apply Hmd5. done. }
  cbn [mbind option_bind].
  assert (take 4 (drop 0 recd) = io) as -> by
    (subst recd; rewrite drop_0; by apply take_app_length').
  assert (take 4 (drop 4 recd) = cpu) as -> by
    (subst recd; rewrite drop_app_length' by done; by apply take_app_length').
  assert (drop 8 recd = net ++ dig) as Hd8.
  { subst recd. rewrite app_assoc. apply drop_app_length'. rewrite length_app. lia. }
  assert (drop 12 recd = dig) as ->.
  { change 12 with (8 + 4). rewrite <- drop_drop, Hd8. by apply drop_app_length'. }
  rewrite Hd8, (take_app_length' net), (take_ge dig) by lia.
  destruct (bool_decide (dig = _)); done.
Qed.

(** A worker that cannot be reached or closes the connection is marked
    dead. *)
Lemma poll_one_dead a w garbage :
  length garbage = 42 →
  w = None ∨ (∃ answer, w = Some answer ∧ ∀ req, default [] (answer req) = []) →
  poll_one md5_digest a w garbage = Some (set_dead a).
Proof.
  intros Hg [->|(answer & -> & Hans)]; [done|]. unfold poll_one, sendMessage.
  destruct (request_message_fits (an_addr a)) as (req & Hreq & _).
  rewrite Hreq. cbn [mbind option_bind]. rewrite Hans. cbn [take].
  destruct (mwrite_is_Some garbage 0 []) as [r1 H1]; [cbn; lia|].
  pose proof (mwrite_length _ _ _ _ H1) as Lr1.
  destruct (mwrite_is_Some r1 28 [0%Z]) as [r2 H2]; [cbn; lia|].
  rewrite H1. cbn [mbind option_bind]. rewrite H2. done.
Qed.
End poll.

(** ** A round *)

(** The profiler's array describes the slab: entry by entry the offset and
    the address of a record, in some order. *)
Definition stat_entry (a : a_node) : Z * list Z := (an_offset a, an_addr a).
Definition slab_entry (e : entry) : Z * list Z := (Z.of_nat e.1, e.2).

Record node_inv (m : mem) (nd : node) (lo : list entry) (ph : list (list Z)) : Prop := {
  ni_slab : slab_at m (private3 (nd_rdataset nd)) lo ph;
  ni_naddrs : nd_naddrs nd = Z.of_nat (length lo);
  ni_stats : stat_entry <$> take (length lo) (nd_stats nd) ≡ₚ slab_entry <$> lo }.

Section round.
Context (md5_digest : list Z → list Z) `{Qsort}.
Context (Hmd5 : ∀ x, 16 <= length (md5_digest x)).

Lemma poll_loop_ok e n :
  env_ok e → ∀ i stats, i + n <= length stats →
  ∃ stats', poll_loop md5_digest e stats i n = Some stats' ∧
    stat_entry <$> stats' = stat_entry <$> stats.
Proof.
  intros He. induction n as [|n IH]; intros i stats Hl; [by eexists|].
  destruct (lookup_lt_is_Some_2 stats i) as [a Ha]; [lia|].
  cbn [poll_loop]. rewrite Ha. cbn [mbind option_bind].
  destruct (poll_one_ok md5_digest Hmd5 a (env_worker e i) (env_buffer e i) (He i))
    as (a' & -> & Ea & Eo). cbn [mbind option_bind].
  destruct (IH (S i) (<[i := a']> stats)) as (stats' & Hp & Hs);
    [rewrite length_insert; lia|].
  exists stats'. split; [done|]. rewrite Hs, list_fmap_insert.
  apply list_insert_id. rewrite list_lookup_fmap, Ha. cbn. unfold stat_entry.
  by rewrite Ea, Eo.
Qed.

(** One round over one node. The new load order is the order of the sorted
    array; records, addresses and everything outside the slab stay. *)
Lemma update_node_ok e m nd lo ph :
  node_inv m nd lo ph → env_ok e →
  ∃ m' nd' lo', update_node md5_digest e m nd = Some (m', nd') ∧
    node_inv m' nd' lo' ph ∧ lo' ≡ₚ lo ∧
    slab_entry <$> lo' = stat_entry <$> take (length lo) (nd_stats nd') ∧
    (cmp_order_on cmp (take (length lo) (nd_stats nd')) →
     StronglySorted (cmp_le cmp) (take (length lo) (nd_stats nd'))) ∧
    nd_rdataset nd' = (if bool_decide (lo = []) then nd_rdataset nd
                       else set_cursor (nd_rdataset nd) 0 None) ∧
    (∀ i, i < private3 (nd_rdataset nd) ∨
          private3 (nd_rdataset nd) + slab_size ph <= i → m' !! i = m !! i).
Proof.
  intros [Hs Hn Hst] He. unfold update_node, ns_profiler_poll_workers.
  assert (length lo <= length (nd_stats nd)) as Hl.
  { apply Permutation_length in Hst. rewrite !length_fmap, length_take in Hst. lia. }
  rewrite Hn. case_bool_decide as Hpos; cycle 1.
  { exists m, nd, lo. destruct lo; [|cbn in Hpos; lia]. cbn.
    do 4 (split; [done|]). split; [constructor|]. done. }
  rewrite Nat2Z.id.
  destruct (poll_loop_ok e (length lo) He 0 (nd_stats nd)) as (stats & -> & Hss); [lia|].
  cbn [mbind option_bind nd_naddrs nd_stats nd_rdataset]. rewrite Nat2Z.id.
  pose proof (f_equal length Hss) as Hsl. rewrite !length_fmap in Hsl.
  set (srt := qsort cmp (take (length lo) stats)).
  assert (srt ≡ₚ take (length lo) stats) as Hsp by apply qsort_perm.
  assert (length srt = length lo) as Hsrl by (rewrite Hsp, length_take; lia).
  assert (stat_entry <$> srt ≡ₚ slab_entry <$> lo) as Hp.
  { rewrite <- Hst, Hsp. by rewrite !fmap_take, Hss. }
  destruct (Permutation_map_inv _ _ Hp) as (lo' & Hlo' & Hpl).
  change (map slab_entry lo') with (slab_entry <$> lo') in Hlo'.
  assert (take (length lo) (srt ++ drop (length lo) stats) = srt) as Htk
    by (by apply take_app_length').
  destruct (sort_slab m (nd_rdataset nd) lo lo' ph (srt ++ drop (length lo) stats))
    as (m' & -> & Hs' & Hlm & Hfr & _); [done|done| |].
  { rewrite Htk. trans ((stat_entry <$> srt).*1); [by rewrite <- list_fmap_compose|].
    rewrite Hlo'. by rewrite <- !list_fmap_compose. }
  cbn [mbind option_bind]. do 3 eexists. split; [done|].
  cbn [nd_stats nd_rdataset nd_naddrs]. rewrite Htk.
  assert (length lo' = length lo) as Hll by (by rewrite <- Hpl).
  split; [|split; [done|split; [done|]]].
  - split; cbn; [done|lia|]. rewrite Hll, Htk. by rewrite Hlo'.
  - split.
    + intros Ho. apply qsort_sorted.
      eapply cmp_order_on_subset; [|exact Ho]. intros x. by rewrite Hsp.
    + rewrite bool_decide_false by (intros ->; cbn in Hpos; lia). done.
Qed.

(** *** Rounds *)

(** The endless loop of [ns_profiler_update_addrs], cut after the rounds
    of [ess]. *)
Fixpoint update_rounds (ess : list (list env)) (l : list (mem * node))
    : option (list (mem * node)) :=
  match ess with
  | [] => Some l
  | es :: ess' => l ← update_round md5_digest es l; update_rounds ess' l
  end.

(** What a round establishes for one node: its rdataset, as readers see it,
    holds the records in the order of the profiler's array. *)
Definition in_stats_order (x : mem * node) (lo : list entry) : Prop :=
  slab_entry <$> lo = stat_entry <$> take (length lo) (nd_stats x.2).

(** After a round: the order of the array, which is sorted by load whenever
    [cmp] is consistent on it. *)
Definition settled (x : mem * node) (lo : list entry) : Prop :=
  in_stats_order x lo ∧
  (cmp_order_on cmp (take (length lo) (nd_stats x.2)) →
   StronglySorted (cmp_le cmp) (take (length lo) (nd_stats x.2))).

(** Node [x] has slab records [p.1] in load order and [p.2] in memory. *)
Definition node_at (x : mem * node) (p : list entry * list (list Z)) : Prop :=
  node_inv x.1 x.2 p.1 p.2.

(** Between two observations of a node: the records were rearranged, the
    bytes in memory and the rdataset's identity are the same. *)
Definition rearranged (p p' : list entry * list (list Z)) : Prop :=
  p'.1 ≡ₚ p.1 ∧ p'.2 = p.2.

#[local] Instance rearranged_preorder : PreOrder rearranged.
Proof.
  split; [done|]. intros p p' p'' [H1 H2] [H3 H4].
  split; [by rewrite H3|congruence].
Qed.

Lemma update_round_ok es l ps :
  length l <= length es → Forall env_ok es → Forall2 node_at l ps →
  ∃ l' ps', update_round md5_digest es l = Some l' ∧ Forall2 node_at l' ps' ∧
    Forall2 rearranged ps ps' ∧ Forall2 (λ x p, settled x p.1) l' ps'.
Proof.
  intros Hl He Hf. revert es Hl He.
  induction Hf as [|[m nd] [lo ph] l ps Hx Hf IH]; intros es Hl He.
  { by exists [], []. }
  destruct es as [|e es]; [cbn in Hl; lia|].
  apply Forall_cons in He as [He Hes].
  destruct (update_node_ok e m nd lo ph Hx He)
    as (m' & nd' & lo' & Hu & Hinv & Hp & Hst & Hso & _).
  destruct (IH es ltac:(cbn in Hl; lia) Hes) as (l' & ps' & Hu' & H1 & H2 & H3).
  exists ((m', nd') :: l'), ((lo', ph) :: ps'). cbn [update_round].
  rewrite Hu. cbn [mbind option_bind]. rewrite Hu'. cbn [mbind option_bind].
  repeat split; constructor; try done.
  unfold settled, in_stats_order. cbn [fst snd]. by rewrite (Permutation_length Hp).
Qed.

Lemma update_rounds_ok ess : ∀ l ps,
  Forall (λ es, length l <= length es ∧ Forall env_ok es) ess →
  Forall2 node_at l ps →
  ∃ l' ps', update_rounds ess l = Some l' ∧ Forall2 node_at l' ps' ∧
    Forall2 rearranged ps ps' ∧
    (ess ≠ [] → Forall2 (λ x p, settled x p.1) l' ps').
Proof.
  induction ess as [|es ess IH]; intros l ps Hes Hf.
  - exists l, ps. split_and!; [done|done|reflexivity|done].
  - apply Forall_cons in Hes as [[Hl He] Hes].
    destruct (update_round_ok es l ps Hl He Hf) as (l1 & ps1 & H1 & Hf1 & Hr1 & Ho1).
    cbn [update_rounds]. rewrite H1. cbn [mbind option_bind].
    destruct ess as [|es' ess]; [exists l1, ps1; split_and!; done|].
    assert (length l1 = length l) as Hl1.
    { by rewrite (Forall2_length _ _ _ Hf1), (Forall2_length _ _ _ Hf),
        (Forall2_length _ _ _ Hr1). }
    destruct (IH l1 ps1) as (l2 & ps2 & -> & Hf2 & Hr2 & Ho2); [by rewrite Hl1|done|].
    exists l2, ps2. split; [done|]. split; [done|].
    split; [by trans ps1|]. intros _. by apply Ho2.
Qed.
End round.

(** ** Registration *)

Section register.
(** A rdataset of IN addresses. *)
Definition address_rdataset (rs : rdataset) (lo : list entry) : Prop :=
  rs_type rs = dns_rdatatype_a ∧ rs_class rs = dns_rdataclass_in ∧
  Forall (λ b, length b = 4) lo.*2.

Lemma tostruct_a b :
  length b = 4 →
  tostruct_in_a (Rdata b dns_rdataclass_in dns_rdatatype_a 0) = Some b.
Proof. intros Hb. unfold tostruct_in_a. by rewrite bool_decide_true. Qed.

Lemma addrs_loop_ok `{RdatasetMethods St} res (s : St) bs :
  rds_from res s (body_rdata dns_rdataclass_in dns_rdatatype_a <$> bs) →
  Forall (λ b, length b = 4) bs → ∀ fuel i stats naddrs,
  i + length bs <= length stats → length bs < fuel →
  ∃ stats', addrs_loop fuel s res stats i naddrs = Some (stats', naddrs) ∧
    length stats' = length stats ∧
    (∀ j, j < i → stats' !! j = stats !! j) ∧
    (∀ j b, bs !! j = Some b → ∃ a, stats !! (i + j) = Some a ∧
       stats' !! (i + j) = Some (set_addr a b)).
Proof.
  remember (body_rdata _ _ <$> bs) as l eqn:Hl. intros Hf. revert bs Hl.
  induction Hf as [s|s r res s' l Hc Hn Hf IH]; intros [|b bs] Hl Hb;
    try done; intros [|fuel] i stats naddrs Hst Hfu; cbn [length] in *; try lia.
  - exists stats. done.
  - rewrite fmap_cons in Hl. injection Hl as -> ->. apply Forall_cons in Hb as [Hb1 Hb].
    cbn [addrs_loop]. rewrite bool_decide_true, Hc by done. cbn [mbind option_bind].
    change (body_rdata dns_rdataclass_in dns_rdatatype_a b)
      with (Rdata b dns_rdataclass_in dns_rdatatype_a 0) in *.
    rewrite tostruct_a by done. cbn [rd_type mbind option_bind].
    rewrite bool_decide_true by done.
    destruct (lookup_lt_is_Some_2 stats i) as [a Ha]; [lia|]. rewrite Ha.
    cbn [mbind option_bind]. rewrite Hn. cbn [mbind option_bind].
    destruct (IH bs eq_refl Hb fuel (S i) (<[i:=set_addr a b]> stats) naddrs)
      as (stats' & -> & Hl' & Hlt & Hge); [rewrite length_insert; lia|lia|].
    exists stats'. split; [done|]. rewrite length_insert in Hl'. split; [done|]. split.
    + intros j Hj. by rewrite Hlt, list_lookup_insert_ne by lia.
    + intros [|j] b' Hj; cbn in Hj.
      * injection Hj as <-. exists a. rewrite Nat.add_0_r. split; [done|].
        by rewrite Hlt, list_lookup_insert_eq by lia.
      * destruct (Hge j b' Hj) as (a' & Ha' & Hs').
        rewrite list_lookup_insert_ne in Ha' by lia.
        exists a'. by rewrite <- !Nat.add_succ_comm in *.
Qed.

Lemma addrs_loop_other `{RdatasetMethods St} res (s : St) l :
  rds_from res s l → Forall (λ r, rd_type r ≠ dns_rdatatype_a) l →
  ∀ fuel i stats naddrs, length l < fuel →
  addrs_loop fuel s res stats i naddrs =
    Some (stats, (naddrs - Z.of_nat (length l))%Z).
Proof.
  induction 1 as [s|s r res s' l Hc Hn Hf IH]; intros Ht [|fuel] i stats naddrs Hfu;
    cbn [length] in *; try lia.
  - cbn. by rewrite Z.sub_0_r.
  - apply Forall_cons in Ht as [Ht1 Ht]. cbn [addrs_loop].
    rewrite bool_decide_true, Hc by done. cbn [mbind option_bind].
    rewrite bool_decide_false by done. cbn [mbind option_bind]. rewrite Hn.
    cbn [mbind option_bind]. rewrite IH by (done || lia). do 2 f_equal. lia.
Qed.

Context {I : RdatasetMethods (mem * rdataset)} `{!SlabMethods I}.

(** What the transformed rdataset yields. *)
Lemma transformed_yields m rs ph :
  slab_at m (private3 rs) (layout (2 + 4 * length ph) ph) ph →
  Forall (body_ok (rs_type rs)) ph →
  ∃ res s, dns_rdataset_first (m, set_cursor rs 0 None) = Some (res, s) ∧
    rds_from res s (body_rdata (rs_class rs) (rs_type rs) <$> ph).
Proof.
  intros Hs Hok.
  destruct (sm_yields m (set_cursor rs 0 None) _ ph Hs) as (_ & res & s & Hf & Hy).
  { by rewrite layout_snd. }
  rewrite (order_of_same _ _ ph) in Hy by apply layout_snd. by exists res, s.
Qed.

(** Registering an rdataset of addresses: its node describes the slab, the
    slab's load order is the order in which the method table yields the
    records, and the rdataset the profiler keeps is the one registered. *)
Lemma register_ok m rs lo ph :
  slab_at m (private3 rs) lo ph → address_rdataset rs lo → 1 < length lo →
  ∃ m' nd lo', register m rs = Some (m', Some nd) ∧
    node_inv m' nd lo' lo'.*2 ∧ lo'.*2 = order_of rs lo ph ∧
    nd_rdataset nd = rdataset_clone rs ∧ slab_size lo'.*2 = slab_size ph ∧
    (∀ i, i < private3 rs ∨ private3 rs + slab_size ph <= i → m' !! i = m !! i).
Proof.
  intros Hs Ha Hlo. pose proof Ha as (Ht & Hc & Hb). unfold register.
  assert (Forall (body_ok (rs_type rs)) lo.*2) as Hok.
  { rewrite Forall_forall. intros b _ Hr. by rewrite Ht in Hr. }
  pose proof (entries_bodies (sl_phys _ _ _ _ Hs)) as Hp0.
  pose proof (order_of_perm rs lo ph Hp0) as Hp.
  assert (length (order_of rs lo ph) = length lo) as Hol
    by (by rewrite Hp, <- Hp0, length_fmap).
  destruct (sm_yields m rs lo ph Hs Hok) as (-> & _). cbn [mbind option_bind].
  rewrite length_fmap, Hol, bool_decide_true, Nat2Z.id by lia.
  destruct (transform_slab m rs lo ph (replicate (length lo) zero_node))
    as (m' & stats' & ph' & -> & Hs' & Hsame & Hsz & Hls & Hoff & _ & _ & Hfr);
    [done|intros ->; cbn in Hlo; lia|done|by rewrite length_replicate|].
  cbn [mbind option_bind].
  assert (ph' = order_of rs lo ph) as ->.
  { apply list_eq_Forall2. eapply Forall2_flip, Forall2_impl; [exact Hsame|].
    intros b b' Hbb. unfold same_record in Hbb. rewrite Ht in Hbb. by symmetry. }
  rewrite length_replicate in Hls. set (bs := order_of rs lo ph) in *.
  assert (Forall (λ b, length b = 4) bs) as Hb4 by (by rewrite Hp, <- Hp0).
  assert (Forall (body_ok (rs_type rs)) bs) as Hokb by (by rewrite Hp, <- Hp0).
  destruct (transformed_yields m' rs bs Hs' Hokb) as (res & s & -> & Hy).
  cbn [mbind option_bind]. rewrite Ht, Hc in Hy.
  destruct (addrs_loop_ok res s bs Hy Hb4 (S (length lo)) 0 stats' (Z.of_nat (length lo)))
    as (stats & -> & Hlst & _ & Hst); [lia|lia|]. cbn [mbind option_bind].
  exists m', (Node (rdataset_clone rs) stats (Z.of_nat (length lo))),
    (layout (2 + 4 * length bs) bs).
  rewrite layout_snd. split; [done|]. split; [|done].
  split; cbn; rewrite ?layout_length; [exact Hs'|lia|].
  rewrite take_ge by lia.
  assert (stat_entry <$> stats = slab_entry <$> layout (2 + 4 * length bs) bs) as ->;
    [|done].
  apply list_eq. intros i. rewrite !list_lookup_fmap.
  destruct (layout _ bs !! i) as [e|] eqn:He; cycle 1.
  { rewrite (lookup_ge_None_2 stats); [done|]. apply lookup_ge_None in He.
    rewrite layout_length in He. lia. }
  destruct (Hst i e.2) as (a & Hai & Hsi).
  { by rewrite <- (layout_snd (2 + 4 * length bs) bs), list_lookup_fmap, He. }
  destruct (Hoff i e.1) as (a0 & _ & Ha0); [by rewrite list_lookup_fmap, He|].
  cbn [Nat.add] in *. rewrite Ha0 in Hai. injection Hai as <-. by rewrite Hsi.
Qed.

(** Any other rdataset gets a node that no round polls or sorts. *)
Lemma register_other m rs lo ph :
  slab_at m (private3 rs) lo ph → rs_type rs ≠ dns_rdatatype_a →
  Forall (body_ok (rs_type rs)) lo.*2 → 1 < length lo →
  ∃ m' nd lo' ph', register m rs = Some (m', Some nd) ∧ nd_naddrs nd = 0%Z ∧
    slab_at m' (private3 rs) lo' ph' ∧
    Forall2 (same_record (rs_type rs)) (order_of rs lo ph) lo'.*2 ∧
    (∀ md5 (Hq : Qsort) e, update_node md5 e m' nd = Some (m', nd)).
Proof.
  intros Hs Ht Hok Hlo. unfold register.
  pose proof (entries_bodies (sl_phys _ _ _ _ Hs)) as Hp0.
  pose proof (order_of_perm rs lo ph Hp0) as Hp.
  assert (length (order_of rs lo ph) = length lo) as Hol
    by (by rewrite Hp, <- Hp0, length_fmap).
  destruct (sm_yields m rs lo ph Hs Hok) as (-> & _). cbn [mbind option_bind].
  rewrite length_fmap, Hol, bool_decide_true, Nat2Z.id by lia.
  destruct (transform_slab m rs lo ph (replicate (length lo) zero_node))
    as (m' & stats' & ph' & -> & Hs' & Hsame & _);
    [done|intros ->; cbn in Hlo; lia|done|by rewrite length_replicate|].
  cbn [mbind option_bind]. pose proof (Forall2_length _ _ _ Hsame) as Hll.
  assert (Forall (body_ok (rs_type rs)) ph') as Hok'.
  { apply Forall_lookup. intros j b Hj Hr.
    destruct (Forall2_lookup_r _ _ _ _ _ Hsame Hj) as (b0 & _ & Hsm).
    unfold same_record in Hsm. rewrite Hr in Hsm. by destruct Hsm. }
  destruct (transformed_yields m' rs ph' Hs' Hok') as (res & s & -> & Hy).
  cbn [mbind option_bind]. rewrite (addrs_loop_other res s _ Hy).
  - cbn [mbind option_bind]. do 4 eexists. split; [done|].
    split; [cbn; rewrite length_fmap; lia|]. split; [exact Hs'|].
    split; [by rewrite layout_snd|]. intros. unfold update_node. cbn [nd_naddrs].
    rewrite bool_decide_false; [done|]. rewrite length_fmap. lia.
  - rewrite Forall_fmap. apply Forall_forall. intros b _. cbn.
    by rewrite body_rdata_type.
  - rewrite length_fmap. lia.
Qed.
End register.

(** ** What the profiler guarantees *)



(** C37: registering an rdataset of at least two IN addresses, through either
    method table: the slab is transformed in place, the new node's array
    describes the slab (so the rounds' invariant holds for it from the
    start), its load order is the order in which the table yields the
    addresses, and nothing outside the slab changes. *)
Theorem register_addresses {I : RdatasetMethods (mem * rdataset)} `{!SlabMethods I}
    m rs lo ph :
  slab_at m (private3 rs) lo ph → address_rdataset rs lo → 1 < length lo →
  ∃ m' nd lo', register m rs = Some (m', Some nd) ∧
    node_inv m' nd lo' lo'.*2 ∧ lo'.*2 = order_of rs lo ph ∧
    nd_rdataset nd = rdataset_clone rs ∧ slab_size lo'.*2 = slab_size ph ∧
    (∀ i, i < private3 rs ∨ private3 rs + slab_size ph <= i → m' !! i = m !! i).
Proof. apply register_ok. Qed.

(** Registering an rdataset of another type with at least two records:
    its slab is transformed too, but the node has no addresses, so no round
    ever polls a worker for it or sorts it. *)
Theorem register_other_type {I : RdatasetMethods (mem * rdataset)} `{!SlabMethods I}
    m rs lo ph :
  slab_at m (private3 rs) lo ph → rs_type rs ≠ dns_rdatatype_a →
  Forall (body_ok (rs_type rs)) lo.*2 → 1 < length lo →
  ∃ m' nd lo' ph', register m rs = Some (m', Some nd) ∧ nd_naddrs nd = 0%Z ∧
    slab_at m' (private3 rs) lo' ph' ∧
    Forall2 (same_record (rs_type rs)) (order_of rs lo ph) lo'.*2 ∧
    (∀ md5 (Hq : Qsort) e, update_node md5 e m' nd = Some (m', nd)).
Proof. apply register_other. Qed.

(** Loads, in numbers. *)
Definition with_net (net : list Z) : a_node := set_loads zero_node [0;0;0;0]%Z [0;0;0;0]%Z net.

(** The comparison of loads. On whole loads below [2^20], [cmp] is the
    difference of the weighted loads (cpu twice, io and net once, over four)
    cut towards zero. If the weights of an array are multiples of four it is
    a consistent order, so [qsort] sorts the array by load. In general it is
    not: for net loads 0, 3 and 6 neighbours compare equal and the ends do
    not, and [qsort] promises nothing. *)
Theorem cmp_spec :
  (∀ a b c i n c' i' n', whole_loads a c i n → whole_loads b c' i' n' →
     cmp a b = Z.quot (weight c i n - weight c' i' n') 4) ∧
  (∀ l, (∀ a, a ∈ l → ∃ c i n, whole_loads a c i n ∧ (4 | weight c i n)%Z) →
     cmp_order_on cmp l) ∧
  (∃ a b c, whole_loads a 0 0 0 ∧ whole_loads b 0 0 3 ∧ whole_loads c 0 0 6 ∧
     cmp a b = 0%Z ∧ cmp b c = 0%Z ∧ cmp a c ≠ 0%Z ∧ ¬ cmp_order_on cmp [a; b; c]).
Proof.
  split; [apply cmp_weight|]. split.
  - intros l Hl.
    assert (∀ a b, a ∈ l → b ∈ l → ∀ x y,
      (∃ c i n, whole_loads a c i n ∧ weight c i n = (x * 4)%Z) →
      (∃ c i n, whole_loads b c i n ∧ weight c i n = (y * 4)%Z) → cmp a b = (x - y)%Z) as Hxy.
    { intros a b _ _ x y (c & i & n & Ha & Hx) (c' & i' & n' & Hb & Hy).
      rewrite (cmp_weight _ _ _ _ _ _ _ _ Ha Hb), Hx, Hy.
      replace (x * 4 - y * 4)%Z with ((x - y) * 4)%Z by lia. by apply Z.quot_mul. }
    assert (∀ a, a ∈ l → ∃ x c i n, whole_loads a c i n ∧ weight c i n = (x * 4)%Z) as Hw.
    { intros a (c & i & n & Ha & [x Hx])%Hl. by exists x, c, i, n. }
    split.
    + intros a Ha. destruct (Hw a Ha) as (x & Hx). rewrite (Hxy a a Ha Ha x x Hx Hx). lia.
    + intros a b Ha Hb. destruct (Hw a Ha) as (x & Hx), (Hw b Hb) as (y & Hy).
      rewrite (Hxy a b Ha Hb x y Hx Hy), (Hxy b a Hb Ha y x Hy Hx). lia.
    + intros a b d Ha Hb Hd. destruct (Hw a Ha) as (x & Hx), (Hw b Hb) as (y & Hy),
        (Hw d Hd) as (z & Hz).
      rewrite (Hxy a b Ha Hb x y Hx Hy), (Hxy b d Hb Hd y z Hy Hz), (Hxy a d Ha Hd x z Hx Hz). lia.
  - exists (with_net [0;0;0;0]%Z), (with_net [0;0;0x40;0x40]%Z), (with_net [0;0;0xC0;0x40]%Z).
    assert (repr (f32_of_bytes [0;0;0;0]%Z) 0 0) as R0 by (by left).
    assert (repr (f32_of_bytes [0;0;0x40;0x40]%Z) 3 0) as R3.
    { right. split; [done|]. exists 12582912%positive, (-22)%Z. unfold normal. repeat split; lia. }
    assert (repr (f32_of_bytes [0;0;0xC0;0x40]%Z) 6 0) as R6.
    { right. split; [done|]. exists 12582912%positive, (-21)%Z. unfold normal. repeat split; lia. }
    assert (∀ net n, repr (f32_of_bytes net) n 0 → (0 <= n < 2 ^ 20)%Z →
      whole_loads (with_net net) 0 0 n) as Hw
      by (intros net n Hn Hb; split; [exact R0|split; [exact R0|split; [exact Hn|lia]]]).
    split; [by apply Hw|]. split; [by apply Hw|]. split; [by apply Hw|].
    split; [by vm_compute|]. split; [by vm_compute|]. split; [by vm_compute|].
    intros [_ _ Ht].
    assert (cmp (with_net [0;0;0xC0;0x40]%Z) (with_net [0;0;0;0]%Z) <= 0)%Z as Hc
      by (apply (Ht _ (with_net [0;0;0x40;0x40]%Z)); [set_solver +..|by vm_compute|by vm_compute]).
    by vm_compute in Hc.
Qed.
