(* ===== verification/Race.v ===== *)
(** * Readers during a sort

    [LB_LOCKING] is not defined, so a query thread may walk a slab's rdataset
    while the profiler thread writes its new load order. The two threads are
    a step relation: the profiler performs the writes of
    [dns_rdataslab_sort_fromrdataset] one by one, the reader runs the loop
    [dns_rdataset_first]; [dns_rdataset_current]; [dns_rdataset_next].

    A write is atomic for a whole offset or index here; [byte_writes] splits
    it into the single byte stores of the C code, for which the reader can
    fetch a torn offset. *)
From stdpp Require Import relations.
From S2P Require Import Prelude Qsort Rdata Slab SlabIndex.

(** A store: its address and bytes. *)
Abbreviation chunk := (nat * list Z)%type.

(** The stores of [sort_loop] from index [i]. *)
Fixpoint sort_writes (base : nat) (addr_stats : list a_node) (i : nat) : list chunk :=
  match addr_stats with
  | [] => []
  | a :: addr_stats' =>
      (base + 2 + 4 * i, enc32 (an_offset a)) ::
      (base + Z.to_nat (an_offset a) + 2, enc16 (Z.of_nat i)) ::
      sort_writes base addr_stats' (S i)
  end.

Fixpoint run_writes (m : mem) (ws : list chunk) : option mem :=
  match ws with
  | [] => Some m
  | w :: ws' => m ← mwrite m w.1 w.2; run_writes m ws'
  end.

(** [*raw++ = b] for each byte. *)
Definition byte_writes (ws : list chunk) : list chunk :=
  ws ≫= λ w, imap (λ i b, (w.1 + i, [b])) w.2.

(** The reader's loop: before [first], at a record, after its rdata was
    fetched, finished; with the rdata fetched so far. *)
Inductive reader :=
  | Idle (rs : rdataset)
  | Visiting (rs : rdataset) (acc : list rdata)
  | Fetched (rs : rdataset) (acc : list rdata)
  | Done (acc : list rdata).

(** Where [first] or [next] leads. *)
Definition visit (x : isc_result * rdataset) (acc : list rdata) : reader :=
  match x with (ISC_R_SUCCESS, rs) => Visiting rs acc | _ => Done acc end.

Abbreviation threads := (mem * list chunk * reader)%type.

Inductive step : threads → threads → Prop :=
  | step_write m w ws m' r :
      mwrite m w.1 w.2 = Some m' → step (m, w :: ws, r) (m', ws, r)
  | step_first m ws rs x :
      rdataset_first m rs = Some x → step (m, ws, Idle rs) (m, ws, visit x [])
  | step_current m ws rs acc d :
      rdataset_current m rs = Some d →
      step (m, ws, Visiting rs acc) (m, ws, Fetched rs (acc ++ [d]))
  | step_next m ws rs acc x :
      rdataset_next m rs = Some x → step (m, ws, Fetched rs acc) (m, ws, visit x acc).

(** ** The stores and the sort *)

Lemma sort_loop_writes base stats n : ∀ m i,
  i + n <= length stats →
  sort_loop m base stats i n = run_writes m (sort_writes base (take n (drop i stats)) i).
Proof.
  induction n as [|n IH]; intros m i Hl; [done|].
  destruct (lookup_lt_is_Some_2 stats i) as [a Ha]; [lia|].
  rewrite (drop_S _ _ _ Ha). cbn [take sort_writes sort_loop run_writes fst snd].
  rewrite Ha. cbn [mbind option_bind].
  destruct (mwrite m _ _) as [m1|]; cbn [mbind option_bind]; [|done].
  destruct (mwrite m1 _ _) as [m2|]; cbn [mbind option_bind]; [|done].
  apply IH. lia.
Qed.

Lemma run_writes_app m ws ws' :
  run_writes m (ws ++ ws') = m ← run_writes m ws; run_writes m ws'.
Proof.
  revert m. induction ws as [|w ws IH]; intros m; [done|]. cbn.
  destruct (mwrite m w.1 w.2); cbn; [apply IH|done].
Qed.

(** ** The invariant *)

Section race.
Context (base : nat) (lo : list entry) (ph : list (list Z)).
Context (Hphys : lo ≡ₚ layout (2 + 4 * length ph) ph).
Context (Hmax : (Z.of_nat (length lo) < 2 ^ 16)%Z).
Context (Hsmall : (Z.of_nat (slab_size ph) < 2 ^ 32)%Z).

(** Between two stores: every record is in place and every slot of the table
    holds the offset of some record. *)
Record mixed (m : mem) : Prop := {
  mx_count : rd16 m base = Some (Z.of_nat (length lo));
  mx_tab : ∀ k, k < length lo →
    ∃ e, e ∈ lo ∧ rd32 m (base + 2 + 4 * k) = Some (Z.of_nat e.1);
  mx_rec : ∀ e, e ∈ lo → rec_at m base e;
  mx_idx : ∀ e, e ∈ lo → ∃ v, rd16 m (base + e.1 + 2) = Some v;
  mx_fits : base + slab_size ph <= length m }.

(** A store of a record's offset into the table, or into a record's
    index. *)
Inductive good_write : chunk → Prop :=
  | good_slot k e : k < length lo → e ∈ lo →
      good_write (base + 2 + 4 * k, enc32 (Z.of_nat e.1))
  | good_index v e : e ∈ lo → good_write (base + e.1 + 2, enc16 v).

Lemma slab_mixed m : slab_at m base lo ph → mixed m.
Proof.
  intros Hs. split.
  - apply (sl_count _ _ _ _ Hs).
  - intros k Hk. destruct (lookup_lt_is_Some_2 lo k) as [e He]; [done|].
    exists e. split; [by eapply list_elem_of_lookup_2|]. by apply (sl_tab _ _ _ _ Hs).
  - apply (sl_rec _ _ _ _ Hs).
  - intros e [k Hk]%list_elem_of_lookup. eexists. by apply (sl_idx _ _ _ _ Hs).
  - apply (sl_fits _ _ _ _ Hs).
Qed.

Lemma rd16_some m p : p + 2 <= length m → ∃ v, rd16 m p = Some v.
Proof.
  intros Hp. unfold rd16.
  destruct (lookup_lt_is_Some_2 m p) as [a ->]; [lia|]. cbn.
  destruct (lookup_lt_is_Some_2 m (p + 1)) as [b ->]; [lia|]. cbn. by eexists.
Qed.

Lemma good_write_fits m w :
  mixed m → good_write w → w.1 + length w.2 <= length m.
Proof.
  intros Hm Hw. pose proof (mx_fits _ Hm). pose proof (entries_length Hphys).
  destruct Hw as [k e Hk He|v e He]; pose proof (entries_bounds Hphys e He);
    cbn [fst snd]; rewrite ?enc32_length, ?enc16_length; unfold slab_size in *; lia.
Qed.

Lemma mixed_write m w m' :
  mixed m → good_write w → mwrite m w.1 w.2 = Some m' → mixed m'.
Proof.
  intros Hm Hw Hwr. pose proof (mwrite_length _ _ _ _ Hwr) as Hl.
  pose proof (entries_length Hphys) as Hlen. pose proof (mx_fits _ Hm) as Hfit.
  assert (∀ e, e ∈ lo → rec_at m' base e) as Hrec.
  { intros e He. pose proof (entries_bounds Hphys e He) as Hb.
    eapply rec_at_frame; [exact Hwr| |by apply (mx_rec _ Hm)].
    destruct Hw as [k e' Hk He'|v e' He']; cbn [fst snd];
      rewrite ?enc32_length, ?enc16_length; [lia|].
    apply list_elem_of_lookup in He as [i Hi].
    apply list_elem_of_lookup in He' as [j Hj].
    destruct (decide (i = j)) as [->|Hij].
    - assert (e' = e) as -> by congruence. lia.
    - pose proof (entries_disj Hphys i j e e' Hi Hj Hij) as [?|?]; lia. }
  assert (w.1 >= base + 2 ∧ (w.1 + length w.2 <= base + slab_size ph)) as Hout.
  { destruct Hw as [k e Hk He|v e He]; pose proof (entries_bounds Hphys e He);
      cbn [fst snd]; rewrite ?enc32_length, ?enc16_length; unfold slab_size in *; lia. }
  split; [| |done| |lia].
  - rewrite (rd16_frame _ _ _ _ _ Hwr) by lia. apply (mx_count _ Hm).
  - intros j Hj. destruct (mx_tab _ Hm j Hj) as (e0 & He0 & Ht).
    destruct Hw as [k e Hk He|v e He]; cbn [fst snd] in *.
    + pose proof (enc32_length (Z.of_nat e.1)).
      destruct (decide (j = k)) as [->|Hjk].
      * exists e. split; [done|]. pose proof (entries_bounds Hphys e He).
        eapply rd32_mwrite; [exact Hwr|lia].
      * exists e0. split; [done|]. rewrite (rd32_frame _ _ _ _ _ Hwr) by lia. done.
    + pose proof (entries_bounds Hphys e He).
      exists e0. split; [done|]. rewrite (rd32_frame _ _ _ _ _ Hwr) by lia. done.
  - intros e He. apply rd16_some. pose proof (entries_bounds Hphys e He). lia.
Qed.

(** The reader's cursor is on a record and its count of records left fits
    what it has fetched. *)
Definition on_record (rs : rdataset) (left : nat) : Prop :=
  private3 rs = base ∧ privateuint4 rs = Z.of_nat left ∧ left < length lo ∧
  ∃ e, e ∈ lo ∧ private5 rs = Some (base + e.1).

Context (rdclass type : Z) (Hok : Forall (body_ok type) lo.*2).

Definition from_slab (d : rdata) : Prop :=
  ∃ b, b ∈ lo.*2 ∧ d = body_rdata rdclass type b.

Definition typed (rs : rdataset) : Prop := rs_class rs = rdclass ∧ rs_type rs = type.

Definition reader_inv (r : reader) : Prop :=
  match r with
  | Idle rs => private3 rs = base ∧ typed rs
  | Visiting rs acc => ∃ left, on_record rs left ∧ typed rs ∧
      length acc + left + 1 = length lo ∧ Forall from_slab acc
  | Fetched rs acc => ∃ left, on_record rs left ∧ typed rs ∧
      length acc + left = length lo ∧ Forall from_slab acc
  | Done acc => length acc = length lo ∧ Forall from_slab acc
  end.

Lemma mixed_first m rs :
  mixed m → private3 rs = base → typed rs →
  ∃ x, rdataset_first m rs = Some x ∧ reader_inv (visit x []).
Proof.
  intros Hm Hb Ht. unfold rdataset_first. rewrite Hb, (mx_count _ Hm).
  cbn [mbind option_bind]. case_bool_decide as H0.
  - eexists. split; [done|]. cbn. split; [lia|constructor].
  - destruct (mx_tab _ Hm 0) as (e & He & Ht0); [lia|].
    replace (base + 2 + 4 * 0) with (base + 2) in Ht0 by lia. rewrite Ht0.
    cbn [mbind option_bind]. eexists. split; [done|]. cbn.
    exists (length lo - 1). rewrite Nat2Z.id, u32_small by lia.
    split; [|split; [done|split; [lia|constructor]]].
    split; [done|]. cbn. split; [lia|]. split; [lia|]. by exists e.
Qed.

Lemma mixed_next m rs left acc :
  mixed m → on_record rs left → typed rs → length acc + left = length lo →
  Forall from_slab acc →
  ∃ x, rdataset_next m rs = Some x ∧ reader_inv (visit x acc).
Proof.
  intros Hm (Hb & Hl & Hlt & _) Ht Ha Hf. unfold rdataset_next. rewrite Hl.
  case_bool_decide as H0.
  - eexists. split; [done|]. cbn. split; [lia|done].
  - rewrite Hb, (mx_count _ Hm). cbn [mbind option_bind].
    rewrite (u32_small (Z.of_nat (length lo) - _)), (u32_small (2 + _)) by lia.
    destruct (mx_tab _ Hm (length lo - left)) as (e & He & Ht0); [lia|].
    replace (base + Z.to_nat _) with (base + 2 + 4 * (length lo - left)) by lia.
    rewrite Ht0. cbn [mbind option_bind]. eexists. split; [done|]. cbn.
    exists (left - 1). rewrite Nat2Z.id, u32_small by lia.
    split; [|split; [done|split; [lia|done]]].
    split; [done|]. cbn. split; [lia|]. split; [lia|]. by exists e.
Qed.

Lemma mixed_current m rs left :
  mixed m → on_record rs left → typed rs →
  ∃ d, rdataset_current m rs = Some d ∧ from_slab d.
Proof.
  intros Hm (Hb & _ & _ & e & He & Hcur) [Hc Ht].
  exists (body_rdata rdclass type e.2). split; [|exists e.2; split; [set_solver|done]].
  destruct (mx_idx _ Hm e He) as [v Hv].
  rewrite <- Hc, <- Ht. eapply rec_current; [done|by apply (mx_rec _ Hm)|done|].
  rewrite Ht. rewrite Forall_forall in Hok. apply Hok. set_solver +He.
Qed.

(** The invariant of the two threads: the memory is what the stores so far
    made of [m0], and the rest of the stores is sound. *)
Definition race_inv (m0 : mem) (all : list chunk) (s : threads) : Prop :=
  let '(m, ws, r) := s in
  mixed m ∧ Forall good_write ws ∧ reader_inv r ∧
  ∃ ws', all = ws' ++ ws ∧ run_writes m0 ws' = Some m.

Lemma race_inv_step m0 all s s' :
  race_inv m0 all s → step s s' → race_inv m0 all s'.
Proof.
  intros Hi Hst. destruct Hst as [m w ws m' r Hw|m ws rs x Hx|m ws rs acc d Hd|m ws rs acc x Hx];
    destruct Hi as (Hm & Hws & Hr & ws' & Hall & Hrun).
  - apply Forall_cons in Hws as [Hw1 Hws].
    split; [by eapply mixed_write|]. split; [done|]. split; [done|].
    exists (ws' ++ [w]). split; [by rewrite <- app_assoc|].
    rewrite run_writes_app, Hrun. cbn. by rewrite Hw.
  - destruct Hr as [Hb Ht]. destruct (mixed_first m rs Hm Hb Ht) as (x' & Hx' & Hr').
    rewrite Hx in Hx'. injection Hx' as <-. split_and!; eauto.
  - destruct Hr as (left & Ho & Ht & Hl & Hf).
    destruct (mixed_current m rs left Hm Ho Ht) as (d' & Hd' & Hs).
    rewrite Hd in Hd'. injection Hd' as <-. split_and!; [done|done| |by eauto]. exists left.
    split; [done|]. split; [done|]. rewrite length_app. cbn. split; [lia|].
    apply Forall_app_2; [done|by constructor].
  - destruct Hr as (left & Ho & Ht & Hl & Hf).
    destruct (mixed_next m rs left acc Hm Ho Ht Hl Hf) as (x' & Hx' & Hr').
    rewrite Hx in Hx'. injection Hx' as <-. split_and!; eauto.
Qed.

(** Neither thread faults: the profiler's next store and the reader's next
    call are always defined. *)
Lemma race_inv_progress m0 all m ws r :
  race_inv m0 all (m, ws, r) →
  (ws = [] ∨ ∃ m' ws', step (m, ws, r) (m', ws', r)) ∧
  ((∃ acc, r = Done acc) ∨ ∃ r', r ≠ r' ∧ step (m, ws, r) (m, ws, r')).
Proof.
  intros (Hm & Hws & Hr & _). split.
  - destruct ws as [|w ws]; [by left|right]. apply Forall_cons in Hws as [Hw _].
    destruct (mwrite_is_Some m w.1 w.2) as [m' Hm']; [by apply good_write_fits|].
    exists m', ws. by constructor.
  - destruct r as [rs|rs acc|rs acc|acc]; [right..|left; by exists acc].
    + destruct Hr as [Hb Ht]. destruct (mixed_first m rs Hm Hb Ht) as ([res rs'] & Hx & _).
      exists (visit (res, rs') []). split; [by destruct res|]. by constructor.
    + destruct Hr as (left & Ho & Ht & _).
      destruct (mixed_current m rs left Hm Ho Ht) as (d & Hd & _).
      eexists. split; [|by constructor]. done.
    + destruct Hr as (left & Ho & Ht & Hl & Hf).
      destruct (mixed_next m rs left acc Hm Ho Ht Hl Hf) as ([res rs'] & Hx & _).
      exists (visit (res, rs') acc). split; [by destruct res|]. by constructor.
Qed.
End race.

(** ** The stores of a sort are sound *)

Lemma sort_writes_good base lo (lo' : list entry) stats i :
  i + length lo' <= length lo → (∀ e, e ∈ lo' → e ∈ lo) →
  an_offset <$> stats = Z.of_nat <$> lo'.*1 →
  Forall (good_write base lo) (sort_writes base stats i).
Proof.
  revert i stats. induction lo' as [|e lo' IH]; intros i [|a stats] Hi Hin Ho; try done.
  cbn in Ho. injection Ho as Ho1 Ho2. cbn [length sort_writes] in *.
  rewrite Ho1, Nat2Z.id. constructor; [constructor; [lia|apply Hin; set_solver +]|].
  constructor; [constructor; apply Hin; set_solver +|].
  apply IH; [lia|intros; apply Hin; set_solver|done].
Qed.

(** The state in which a sort of the slab at [private3 rs] starts, with a
    reader of the same slab. *)
Lemma race_start m rs lo lo' ph stats :
  slab_at m (private3 rs) lo ph → lo' ≡ₚ lo →
  an_offset <$> stats = Z.of_nat <$> lo'.*1 →
  race_inv (private3 rs) lo ph (rs_class rs) (rs_type rs) m
    (sort_writes (private3 rs) stats 0)
    (m, sort_writes (private3 rs) stats 0, Idle rs).
Proof.
  intros Hs Hp Ho. split; [by apply slab_mixed|]. split.
  - eapply sort_writes_good; [|intros e He; by rewrite <- Hp|done].
    by rewrite (Permutation_length Hp).
  - split; [done|]. by exists [].
Qed.

Lemma race_reachable base lo ph rdclass type m0 all s s' :
  lo ≡ₚ layout (2 + 4 * length ph) ph →
  (Z.of_nat (length lo) < 2 ^ 16)%Z → (Z.of_nat (slab_size ph) < 2 ^ 32)%Z →
  Forall (body_ok type) lo.*2 →
  race_inv base lo ph rdclass type m0 all s → rtc step s s' →
  race_inv base lo ph rdclass type m0 all s'.
Proof.
  intros Hph Hmax Hsm Hok Hi Hr. induction Hr as [|s s1 s' Hst _ IH]; [done|].
  apply IH. eapply race_inv_step; [done..|exact Hok|exact Hi|exact Hst].
Qed.

(** ** What readers can and cannot see *)

(** The writes of a sort make the memory the sort returns. *)
Lemma sort_is_writes m rs lo ph stats :
  slab_at m (private3 rs) lo ph → length lo = length stats →
  dns_rdataslab_sort_fromrdataset m rs stats =
    (m ← run_writes m (sort_writes (private3 rs) stats 0);
     Some (ISC_R_SUCCESS, m, set_cursor rs 0 None)).
Proof.
  intros Hs Hl. unfold dns_rdataslab_sort_fromrdataset. rewrite (sl_count _ _ _ _ Hs).
  cbn [mbind option_bind]. rewrite Nat2Z.id, Hl, sort_loop_writes by lia.
  by rewrite drop_0, take_ge by lia.
Qed.


(** What is left to do. *)
Definition reader_work (n : nat) (r : reader) : nat :=
  match r with
  | Idle _ => 2 * n + 1
  | Visiting rs _ => 2 * Z.to_nat (privateuint4 rs) + 2
  | Fetched rs _ => 2 * Z.to_nat (privateuint4 rs) + 1
  | Done _ => 0
  end.

Definition work (n : nat) (s : threads) : nat := length s.1.2 + reader_work n s.2.

Lemma race_work base lo ph rdclass type m0 all s s' :
  race_inv base lo ph rdclass type m0 all s → race_inv base lo ph rdclass type m0 all s' →
  step s s' → work (length lo) s' < work (length lo) s.
Proof.
  intros Hi Hi' Hst. unfold work.
  destruct Hst as [m w ws m' r Hw|m ws rs [res rs'] Hx|m ws rs acc d Hd|m ws rs acc [res rs'] Hx];
    cbn [fst snd length]; [lia| | |]; destruct Hi as (_ & _ & Hr & _), Hi' as (_ & _ & Hr' & _).
  - destruct res; cbn [visit reader_work]; try lia.
    destruct Hr' as (left & (_ & -> & Hlt & _) & _). lia.
  - cbn. lia.
  - destruct res; cbn [visit reader_work]; try lia.
    destruct Hr' as (left' & (_ & -> & _) & _ & Hl' & _).
    destruct Hr as (left & (_ & -> & _) & _ & Hl & _). lia.
Qed.


(** What a reader can see. On a slab with two addresses, a reader that
    fetched the first one before a sort exchanges them, and goes on after it,
    is given the first address twice and never the second. *)
Theorem reader_may_repeat :
  ∃ lo' stats m' d, lo' ≡ₚ two_entries ∧ an_offset <$> stats = Z.of_nat <$> lo'.*1 ∧
    rtc step (two_addresses, sort_writes 0 stats 0, Idle two_rdataset) (m', [], Done [d; d]).
Proof.
  set (a := λ off, ANode [] off [] [] []).
  exists (reverse two_entries), [a 18; a 10]%Z. do 2 eexists.
  split; [by rewrite reverse_Permutation|]. split; [done|].
  eapply rtc_l; [apply step_first; reflexivity|].
  eapply rtc_l; [apply step_current; reflexivity|].
  do 4 (eapply rtc_l; [apply step_write; reflexivity|]).
  eapply rtc_l; [apply step_next; reflexivity|].
  eapply rtc_l; [apply step_current; reflexivity|].
  eapply rtc_l; [apply step_next; reflexivity|]. cbn. apply rtc_refl.
Qed.
