(* ===== verification/Order.v ===== *)
(** * The order of answers: configuration

    [lib/dns/order.c], [configure_order] of [bin/named/server.c], which turns
    an entry of [rrset-order] into entries of the list, and the attributes
    that [query_addrdataset] of [bin/named/query.c] gives the rdatasets of an
    answer. The load balancer's configuration
    ([Bind_dependencies/etc_bind/named.conf.options]) is
    [rrset-order {order fixed;}]: [fixed_everywhere] shows that every
    rdataset of an answer is then in fixed order, and in load order. *)
From S2P Require Import Prelude Qsort Rdata Name NameText FromWire Compress Slab RbtdbRdataset.

Definition DNS_RDATASETATTR_FIXEDORDER : Z := 0x00000400.
Definition DNS_RDATASETATTR_RANDOMIZE : Z := 0x00000800.
Definition dns_rdatatype_any : Z := 255.
Definition dns_rdataclass_any : Z := 255.

Record dns_order_ent := OrderEnt {
  oe_name : name; oe_rdclass : Z; oe_rdtype : Z; oe_mode : Z }.

(** The list [order->ents]. *)
Abbreviation dns_order := (list dns_order_ent).

Definition dns_order_add `{Alloc} (order : dns_order) (nm : name) (rdtype rdclass mode : Z)
    : option (isc_result * dns_order) :=
  if bool_decide (mode = DNS_RDATASETATTR_RANDOMIZE ∨ mode = DNS_RDATASETATTR_FIXEDORDER ∨
                  mode = 0%Z) then
    if alloc (length order)
    then Some (ISC_R_SUCCESS, order ++ [OrderEnt nm rdclass rdtype mode])
    else Some (ISC_R_NOMEMORY, order)
  else None.

(** [match] *)
Definition order_match (name1 name2 : name) : option bool :=
  w ← dns_name_iswildcard name2;
  if w : bool then dns_name_matcheswildcard name1 name2 else dns_name_equal name1 name2.

Fixpoint dns_order_find (order : dns_order) (nm : name) (rdtype rdclass : Z) : option Z :=
  match order with
  | [] => Some 0%Z
  | ent :: order' =>
      if bool_decide (oe_rdtype ent ≠ rdtype ∧ oe_rdtype ent ≠ dns_rdatatype_any)
      then dns_order_find order' nm rdtype rdclass
      else if bool_decide (oe_rdclass ent ≠ rdclass ∧ oe_rdclass ent ≠ dns_rdataclass_any)
      then dns_order_find order' nm rdtype rdclass
      else
        m ← order_match nm (oe_name ent);
        if m : bool then Some (oe_mode ent) else dns_order_find order' nm rdtype rdclass
  end.

(** ** Configuration *)

Inductive ordering := order_fixed | order_random | order_cyclic.

(** An entry as the configuration parser gives it; [None] is a field that is
    absent. *)
Record order_cfg := OrderCfg {
  oc_class : option Z; oc_type : option Z; oc_name : option (list Z); oc_order : ordering }.

Definition order_mode (o : ordering) : Z :=
  match o with
  | order_fixed => DNS_RDATASETATTR_FIXEDORDER
  | order_random => DNS_RDATASETATTR_RANDOMIZE
  | order_cyclic => 0
  end.

Definition dns_rootname : name := name_of [[]].

Definition configure_order `{Alloc} (order : dns_order) (ent : order_cfg)
    : option (isc_result * dns_order) :=
  let rdclass := default dns_rdataclass_any (oc_class ent) in
  let rdtype := default dns_rdatatype_any (oc_type ent) in
  let str := default [42%Z] (oc_name ent) in
  let addroot := bool_decide (str = [42%Z]) in
  r ← dns_name_fromtext str (Some dns_rootname) false DNS_NAME_MAXWIRE;
  match r with
  | inl e => Some (e, order)
  | inr (fixed, _) =>
      let mode := order_mode (oc_order ent) in
      '(result, order) ← (if addroot then dns_order_add order dns_rootname rdtype rdclass mode
                          else Some (ISC_R_SUCCESS, order));
      if bool_decide (result ≠ ISC_R_SUCCESS) then Some (result, order)
      else dns_order_add order fixed rdtype rdclass mode
  end.

(** ** The attributes of an answer's rdataset *)

(** What [query_addrdataset] does to [rdataset->attributes]; [order] is
    [client->view->order]. *)
Definition query_addrdataset (order : option dns_order) (fname : name) (rs : rdataset)
    : option rdataset :=
  mode ← match order with
         | Some o => dns_order_find o fname (rs_type rs) (rs_class rs)
         | None => Some 0%Z
         end;
  let attributes := Z.lor (Z.lor (rs_attributes rs) mode) DNS_RDATASETATTR_LOADORDER in
  Some {| rs_class := rs_class rs; rs_type := rs_type rs; rs_covers := rs_covers rs;
          rs_ttl := rs_ttl rs; rs_trust := rs_trust rs; rs_attributes := attributes;
          private3 := private3 rs; privateuint4 := privateuint4 rs; private5 := private5 rs |}.

(** ** Which entry applies *)

(** An entry for the labels [els] applies to the name [ls]. *)
Definition label_match (ls els : list label) : Prop :=
  if bool_decide (head els = Some [42%Z]) then below ls (tail els) else same_labels ls els.

#[export] Instance label_match_dec ls els : Decision (label_match ls els).
Proof. unfold label_match. case_bool_decide; apply _. Defined.

Definition ent_applies (ls : list label) (rdtype rdclass : Z)
    (e : dns_order_ent * list label) : Prop :=
  (oe_rdtype e.1 = rdtype ∨ oe_rdtype e.1 = dns_rdatatype_any) ∧
  (oe_rdclass e.1 = rdclass ∨ oe_rdclass e.1 = dns_rdataclass_any) ∧
  label_match ls e.2.

Lemma is_root_last_tail l ls :
  l ≠ [] → is_root_last (l :: ls) = true → is_root_last ls = true.
Proof.
  intros Hl Hr. destruct ls as [|l' ls]; [|by rewrite is_root_last_cons in Hr].
  unfold is_root_last in Hr. apply bool_decide_eq_true in Hr. by injection Hr.
Qed.

Lemma order_match_spec nm enm ls els :
  name_ok nm ls → name_ok enm els →
  order_match nm enm = Some (bool_decide (label_match ls els)).
Proof.
  intros [Hn Hr] [He Her]. assert (ls ≠ []) as N1 by (by intros ->).
  assert (els ≠ []) as N2 by (by intros ->). unfold order_match.
  destruct (wildcard_ok nm enm ls els Hn He N1 N2) as (-> & _ & Hm). cbn [mbind option_bind].
  destruct (decide (head els = Some [42%Z])) as [Hw|Hw].
  - rewrite (bool_decide_true (head els = _)), Hm; [|done| |done].
    + f_equal. apply bool_decide_ext. unfold label_match. by rewrite bool_decide_true.
    + destruct els as [|l els]; [done|]. injection Hw as ->. cbn [tail].
      by rewrite Hr, (is_root_last_tail [42%Z] els).
  - rewrite (bool_decide_false (head els = _)), (name_equal_labels _ _ _ _ Hn He)
      by congruence. f_equal. apply bool_decide_ext. unfold label_match.
    by rewrite bool_decide_false.
Qed.

(** *** The first entry that applies *)

#[export] Instance ent_applies_dec ls rdtype rdclass e :
  Decision (ent_applies ls rdtype rdclass e).
Proof. unfold ent_applies. apply _. Defined.

(** A list of entries, with the labels of their names. *)
Definition order_repr (order : dns_order) (els : list (dns_order_ent * list label)) : Prop :=
  els.*1 = order ∧ Forall (λ e, name_ok (oe_name e.1) e.2) els.

Definition order_mode_of (els : list (dns_order_ent * list label)) (ls : list label)
    (rdtype rdclass : Z) : Z :=
  from_option (λ e, oe_mode e.2.1) 0%Z
    (list_find (ent_applies ls rdtype rdclass) els).

Lemma order_find_ok order els nm ls rdtype rdclass :
  order_repr order els → name_ok nm ls →
  dns_order_find order nm rdtype rdclass = Some (order_mode_of els ls rdtype rdclass).
Proof.
  intros [<- He] Hn. unfold order_mode_of.
  induction He as [|[e el] els Hel _ IH]; [done|]. cbn [fmap list_fmap dns_order_find fst].
  cbn [list_find fst snd] in *. rewrite IH.
  assert (∀ (o : option (nat * (dns_order_ent * list label))),
    from_option (λ e, oe_mode e.2.1) 0%Z (prod_map S id <$> o) =
    from_option (λ e, oe_mode e.2.1) 0%Z o) as Hmap by (by intros [[? ?]|]).
  destruct (decide (ent_applies ls rdtype rdclass (e, el))) as [(H1 & H2 & H3)|Hno].
  - cbn [fst snd] in *. rewrite bool_decide_false, bool_decide_false by naive_solver.
    rewrite (order_match_spec _ _ _ _ Hn Hel), bool_decide_true by done. done.
  - rewrite Hmap. case_bool_decide as B1; [done|]. case_bool_decide as B2; [done|].
    rewrite (order_match_spec _ _ _ _ Hn Hel). cbn [mbind option_bind].
    rewrite bool_decide_false; [done|]. intros Hm. apply Hno. unfold ent_applies. cbn.
    split_and!; [| |done].
    + destruct (decide (oe_rdtype e = rdtype)); [by left|].
      destruct (decide (oe_rdtype e = dns_rdatatype_any)); [by right|]. by destruct B1.
    + destruct (decide (oe_rdclass e = rdclass)); [by left|].
      destruct (decide (oe_rdclass e = dns_rdataclass_any)); [by right|]. by destruct B2.
Qed.

(** [WANT_FIXED] and [WANT_RANDOM] of [lib/dns/rdataset.c]. *)
Definition WANT_FIXED (rs : rdataset) : bool :=
  bool_decide (Z.land (rs_attributes rs) DNS_RDATASETATTR_FIXEDORDER ≠ 0%Z).
Definition WANT_RANDOM (rs : rdataset) : bool :=
  bool_decide (Z.land (rs_attributes rs) DNS_RDATASETATTR_RANDOMIZE ≠ 0%Z).

Lemma land_lor_same a b c : Z.land b c = b → b ≠ 0%Z → Z.land (Z.lor a b) c ≠ 0%Z.
Proof.
  intros Hb Hn E. apply Hn. rewrite <- Hb. apply Z.bits_inj'. intros n Hlt.
  apply (f_equal (λ z, Z.testbit z n)) in E. rewrite Z.land_spec, Z.lor_spec, Z.bits_0 in E.
  rewrite Z.land_spec, Z.bits_0. by destruct (Z.testbit a n), (Z.testbit b n), (Z.testbit c n).
Qed.

Lemma root_or_below ls : is_root_last ls = true → ls = [[]] ∨ below ls [[]].
Proof.
  intros Hr. destruct ls as [|l ls _] using rev_ind; [done|].
  unfold is_root_last in Hr. rewrite last_snoc in Hr.
  apply bool_decide_eq_true in Hr as [= ->]. destruct ls as [|l ls]; [by left|right].
  by exists (l :: ls), [[]].
Qed.

(** [dns_order_find] never fails an assertion on well-formed names, and
    returns the mode of the first entry of the list that applies: its type
    and class are the rdataset's or [ANY], and the name is the entry's name
    or, for a wildcard entry, strictly below the wildcard's parent. Without
    such an entry it returns 0, cyclic order. *)
Theorem order_find_first_match order els nm ls rdtype rdclass :
  order_repr order els → name_ok nm ls →
  ∃ mode, dns_order_find order nm rdtype rdclass = Some mode ∧
    ((∃ i e, els !! i = Some e ∧ ent_applies ls rdtype rdclass e ∧ mode = oe_mode e.1 ∧
       ∀ j e', j < i → els !! j = Some e' → ¬ ent_applies ls rdtype rdclass e') ∨
     mode = 0%Z ∧ Forall (λ e, ¬ ent_applies ls rdtype rdclass e) els).
Proof.
  intros Ho Hn. eexists. split; [by apply order_find_ok|]. unfold order_mode_of.
  destruct (list_find _ els) as [[i e]|] eqn:E.
  - apply list_find_Some in E as (Hi & He & Hno). left. exists i, e. split_and!; try done.
    intros j e' Hj Hl. by eapply Hno.
  - apply list_find_None in E. by right.
Qed.

Lemma fixed_flags (rs : rdataset) a :
  rs_attributes rs = Z.lor (Z.lor a DNS_RDATASETATTR_FIXEDORDER) DNS_RDATASETATTR_LOADORDER →
  WANT_FIXED rs = true ∧ loadorder rs = true.
Proof.
  intros E. unfold WANT_FIXED, loadorder. rewrite E. split; apply bool_decide_true.
  - rewrite <- Z.lor_assoc, (Z.lor_comm DNS_RDATASETATTR_FIXEDORDER), Z.lor_assoc.
    by apply land_lor_same.
  - by apply land_lor_same.
Qed.

Lemma fixed_everywhere_ok `{Alloc} fname ls rs :
  alloc 0 = true → alloc 1 = true → name_ok fname ls →
  ∃ order, configure_order [] (OrderCfg None None None order_fixed) =
      Some (ISC_R_SUCCESS, order) ∧
    query_addrdataset (Some order) fname rs =
      Some (Rdataset (rs_class rs) (rs_type rs) (rs_covers rs) (rs_ttl rs) (rs_trust rs)
        (Z.lor (Z.lor (rs_attributes rs) DNS_RDATASETATTR_FIXEDORDER)
               DNS_RDATASETATTR_LOADORDER)
        (private3 rs) (privateuint4 rs) (private5 rs)).
Proof.
  intros A0 A1 Hn. set (root := OrderEnt dns_rootname 255 255 DNS_RDATASETATTR_FIXEDORDER).
  set (any := OrderEnt (name_of [[42]; []]%Z) 255 255 DNS_RDATASETATTR_FIXEDORDER).
  assert (configure_order [] (OrderCfg None None None order_fixed) =
    Some (ISC_R_SUCCESS, [root; any])) as E.
  { unfold configure_order. cbn [default oc_name].
    replace (dns_name_fromtext [42%Z] (Some dns_rootname) false DNS_NAME_MAXWIRE)
      with (Some (inr (name_of [[42]; []]%Z, []) : isc_result + name * list Z))
      by (by vm_compute).
    cbn [mbind option_bind oc_order oc_class oc_type default]. unfold dns_order_add.
    cbn [length]. rewrite !bool_decide_true, A0 by auto. cbn [mbind option_bind length].
    rewrite bool_decide_false by auto. cbn [app length]. by rewrite A1. }
  assert (order_repr [root; any] [(root, [[]]); (any, [[42]; []]%Z)]) as Ho.
  { split; [done|]. repeat constructor; cbn; lia || done || (try by intros [|[|[]]]).
    all: unfold DNS_NAME_MAXWIRE; try lia. }
  pose proof (order_find_ok _ _ fname ls (rs_type rs) (rs_class rs) Ho Hn) as Hf.
  assert (order_mode_of [(root, [[]]); (any, [[42]; []]%Z)] ls (rs_type rs) (rs_class rs) =
    DNS_RDATASETATTR_FIXEDORDER) as Em.
  { unfold order_mode_of. cbn [list_find].
    case_decide as H1; [done|]. case_decide as H2; [done|]. destruct Hn as [_ Hr].
    destruct (root_or_below ls Hr) as [->|Hb]; [destruct H1|destruct H2];
      (split_and!; [by right|by right|]); done. }
  eexists. split; [exact E|]. unfold query_addrdataset. by rewrite Hf, Em.
Qed.

(** Under the load balancer's configuration, [rrset-order {order fixed;}],
    [query_addrdataset] marks every rdataset of every name, the root
    included, for fixed order, and for load order, and changes nothing else
    of it. *)
Theorem fixed_everywhere `{Alloc} fname ls rs :
  alloc 0 = true → alloc 1 = true → name_ok fname ls →
  ∃ order rs',
    configure_order [] (OrderCfg None None None order_fixed) = Some (ISC_R_SUCCESS, order) ∧
    query_addrdataset (Some order) fname rs = Some rs' ∧
    WANT_FIXED rs' = true ∧ loadorder rs' = true ∧
    rs' = Rdataset (rs_class rs) (rs_type rs) (rs_covers rs) (rs_ttl rs) (rs_trust rs)
            (rs_attributes rs') (private3 rs) (privateuint4 rs) (private5 rs).
Proof.
  intros A0 A1 Hn. destruct (fixed_everywhere_ok fname ls rs A0 A1 Hn) as (order & E & Eq).
  eexists order, _. split_and!; [done|done|by eapply fixed_flags..|done].
Qed.
