(* ===== verification/Answer.v ===== *)
(** * Rendering an answer

    [towiresorted] of [lib/dns/rdataset.c]: the records of a rdataset, in the
    order the rdataset's attributes ask for, into a response message; with
    [dns_rdata_towire] of [lib/dns/rdata.c] and [towire_in_a] of
    [lib/dns/rdata/in_1/a_1.c].

    The order in which clients see the records is the point of the load
    balancer: [arranged] says what it is, and [answer_in_order] that the
    message holds exactly those records.

    Parameters: the dispatch [TOWIRESWITCH] on the rdata's type, which the
    build generates, and the random numbers of [isc_random_get]. Negative
    rdatasets are rendered by [dns_ncache_towire] ([lib/dns/ncache.c]), which
    is not modelled and an argument here. *)
From S2P Require Import Prelude Qsort Rdata Name FromWire Compress Slab RbtdbRdataset Order.

(** ** One rdata *)

Definition DNS_RDATA_UPDATE : Z := 1.

(** What a function that writes gives: the result, the buffer and the
    compression context. *)
Abbreviation written := (isc_result * mem * compress)%type.

(** [TOWIRESWITCH]: inside, [None] sets [use_default]. *)
Class TowireSwitch :=
  towire_switch : rdata → compress → nat → mem → option (option written).

Definition towire_in_a (rdata : rdata) (cctx : compress) (cap : nat) (m : mem)
    : option written :=
  if bool_decide (rd_type rdata = dns_rdatatype_a ∧ rd_class rdata = dns_rdataclass_in ∧
                  length (rd_data rdata) = 4) then
    if bool_decide (cap - length m < length (rd_data rdata))
    then Some (ISC_R_NOSPACE, m, cctx)
    else Some (ISC_R_SUCCESS, m ++ rd_data rdata, cctx)
  else None.

Definition dns_rdata_towire `{TowireSwitch} (rdata : rdata) (cctx : compress) (cap : nat)
    (m : mem) : option written :=
  if bool_decide (Z.land (rd_flags rdata) DNS_RDATA_UPDATE ≠ 0%Z) then
    if bool_decide (rd_data rdata = []) then Some (ISC_R_SUCCESS, m, cctx) else None
  else
    r ← towire_switch rdata cctx cap m;
    match r with
    | None =>
        if bool_decide (cap - length m < length (rd_data rdata))
        then Some (ISC_R_NOSPACE, m, cctx)
        else Some (ISC_R_SUCCESS, m ++ rd_data rdata, cctx)
    | Some (result, m', cctx') =>
        if bool_decide (result ≠ ISC_R_SUCCESS) then
          if bool_decide (Z.of_nat (length m) < 65536)%Z
          then Some (result, m, dns_compress_rollback cctx' (u16 (Z.of_nat (length m))))
          else None
        else Some (result, m', cctx')
    end.

(** ** The rdataset *)

Definition DNS_RDATASETATTR_QUESTION : Z := 0x00000001.
Definition DNS_RDATASETATTR_NEGATIVE : Z := 0x00200000.
Definition MAX_SHUFFLE : Z := 32.

(** The fields of [dns_rdataset_t] that [towiresorted] reads itself;
    [ri_count] is the counter of cyclic order. *)
Record rds_info := RdsInfo {
  ri_attributes : Z; ri_count : Z; ri_rdclass : Z; ri_type : Z; ri_ttl : Z }.

Definition attr_set (i : rds_info) (a : Z) : bool :=
  bool_decide (Z.land (ri_attributes i) a ≠ 0%Z).

(** The methods of question rdatasets. *)
Definition question_methods : RdatasetMethods unit := {|
  dns_rdataset_count _ := None;
  dns_rdataset_first s := Some (ISC_R_NOMORE, s);
  dns_rdataset_next s := Some (ISC_R_NOMORE, s);
  dns_rdataset_current _ := None;
  dns_rdataset_type _ := 0%Z |}.

(** [isc_random_get], by the number of values drawn before. *)
Class IscRandom := isc_random_get : nat → Z.

Definition towire_compare (a b : Z * nat) : Z := (a.1 - b.1)%Z.

Section towiresorted.
Context `{RdatasetMethods St, Qsort, Alloc, TowireSwitch, IscRandom}.
Implicit Types (order : option (rdata → Z)) (st : St).

(** [do ... while (result == ISC_R_SUCCESS)] over the rdataset; [todo] is
    [count - i]. *)
Fixpoint save_loop (todo : nat) st (acc : list rdata)
    : option (isc_result * list rdata * St) :=
  match todo with
  | O => None
  | S todo =>
      r ← dns_rdataset_current st;
      '(res, st) ← dns_rdataset_next st;
      if bool_decide (res = ISC_R_SUCCESS) then save_loop todo st (acc ++ [r])
      else Some (res, acc ++ [r], st)
  end.

(** [sorted] holds keys and indices into [shuffled]. *)
Definition sort_entry order (shuffled : list rdata) (i : nat) : option (Z * nat) :=
  r ← shuffled !! i;
  Some (match order with Some f => f r | None => 0%Z end, i).

Fixpoint fixed_loop order (shuffled : list rdata) (i rest : nat) : option (list (Z * nat)) :=
  match rest with
  | O => Some []
  | S rest =>
      e ← sort_entry order shuffled i;
      l ← fixed_loop order shuffled (S i) rest; Some (e :: l)
  end.

(** [shuffled] and [sorted] at the end; [vals] is how many random values
    were drawn. *)
Fixpoint random_loop order (count vals i rest : nat) (shuffled : list rdata)
    (sorted : list (Z * nat)) : option (list rdata * list (Z * nat)) :=
  match rest with
  | O => Some (shuffled, sorted)
  | S rest =>
      let val := u32 (isc_random_get vals) in
      let choice := i + Z.to_nat (val mod (Z.of_nat count - Z.of_nat i)) in
      a ← shuffled !! i; b ← shuffled !! choice;
      let shuffled := <[choice := a]> (<[i := b]> shuffled) in
      e ← sort_entry order shuffled i;
      random_loop order count (S vals) (S i) rest shuffled (sorted ++ [e])
  end.

Fixpoint cyclic_loop order (shuffled : list rdata) (count j rest : nat)
    : option (list (Z * nat)) :=
  match rest with
  | O => Some []
  | S rest =>
      e ← sort_entry order shuffled j;
      let j := if bool_decide (S j = count) then 0 else S j in
      l ← cyclic_loop order shuffled count j rest; Some (e :: l)
  end.

(** [if (shuffle)]: the pointers [sorted[i].rdata]. *)
Definition shuffle_rdata (i : rds_info) order (shuffled : list rdata)
    : option (list rdata) :=
  let count := length shuffled in
  '(shuffled, sorted) ←
    (if attr_set i DNS_RDATASETATTR_FIXEDORDER then
       if bool_decide (order = None) then None
       else l ← fixed_loop order shuffled 0 count; Some (shuffled, l)
     else if attr_set i DNS_RDATASETATTR_RANDOMIZE then
       random_loop order count 0 0 count shuffled []
     else
       let val := if bool_decide (ri_count i = 2 ^ 32 - 1)%Z then u32 (isc_random_get 0)
                  else ri_count i in
       l ← cyclic_loop order shuffled count (Z.to_nat (val mod Z.of_nat count)) count;
       Some (shuffled, l));
  let sorted := match order with
                | Some _ => qsort towire_compare sorted
                | None => sorted
                end in
  mapM (λ e, shuffled !! e.2) sorted.

(** The body of the writing loop: one record. [rd] is [None] in a
    question. *)
Definition write_rr (owner : name) (i : rds_info) (rd : option rdata) (cctx : compress)
    (cap : nat) (m : mem) : option written :=
  let cctx := dns_compress_setmethods cctx true in
  '(result, m, cctx) ← dns_name_towire owner false cctx cap m;
  if bool_decide (result ≠ ISC_R_SUCCESS) then Some (result, m, cctx)
  else
    let headlen := match rd with Some _ => 10 | None => 4 end in
    if bool_decide (cap - length m < headlen) then Some (ISC_R_NOSPACE, m, cctx)
    else
      let m := m ++ enc16 (ri_type i) ++ enc16 (ri_rdclass i) in
      match rd with
      | None => Some (ISC_R_SUCCESS, m, cctx)
      | Some rdata =>
          let m := m ++ enc32 (ri_ttl i) in
          let rdlen := length m in
          let m := m ++ [0; 0]%Z in
          '(result, m, cctx) ← dns_rdata_towire rdata cctx cap m;
          if bool_decide (result ≠ ISC_R_SUCCESS) then Some (result, m, cctx)
          else if bool_decide (rdlen + 2 <= length m ∧
                            (Z.of_nat (length m - rdlen - 2) < 65536)%Z)
          then
            m ← mwrite m rdlen (enc16 (u16 (Z.of_nat (length m - rdlen - 2))));
            Some (ISC_R_SUCCESS, m, cctx)
          else None
      end.

(** [goto rollback], or the end of the loop: the result, [added], the
    buffer, the context, and [rrbuffer]. *)
Abbreviation looped := (isc_result * nat * mem * compress * mem)%type.

Fixpoint write_sorted (owner : name) (i : rds_info) (items : list rdata) (added : nat)
    (cctx : compress) (cap : nat) (m : mem) : option looped :=
  match items with
  | [] => Some (ISC_R_NOMORE, added, m, cctx, m)
  | r :: items =>
      '(result, m', cctx') ← write_rr owner i (Some r) cctx cap m;
      if bool_decide (result ≠ ISC_R_SUCCESS) then Some (result, added, m', cctx', m)
      else write_sorted owner i items (S added) cctx' cap m'
  end.

(** The loop without shuffling; the fuel bounds the rounds. *)
Fixpoint write_iter (fuel : nat) (owner : name) (i : rds_info) st (added : nat)
    (cctx : compress) (cap : nat) (m : mem) : option looped :=
  match fuel with
  | O => None
  | S fuel =>
      r ← dns_rdataset_current st;
      '(result, m', cctx') ← write_rr owner i (Some r) cctx cap m;
      if bool_decide (result ≠ ISC_R_SUCCESS) then Some (result, added, m', cctx', m)
      else
        '(result, st) ← dns_rdataset_next st;
        if bool_decide (result = ISC_R_SUCCESS)
        then write_iter fuel owner i st (S added) cctx' cap m'
        else Some (result, S added, m', cctx', m')
  end.

(** After the loop: the result, the buffer, the context and [*countp]. *)
Definition finish (partial : bool) (count countp : nat) (saved : mem) (l : looped)
    : option (written * nat) :=
  let '(result, added, m, cctx, rrbuffer) := l in
  if bool_decide (result = ISC_R_NOMORE)
  then Some (ISC_R_SUCCESS, m, cctx, countp + count)
  else if partial && bool_decide (result = ISC_R_NOSPACE) then
    if bool_decide (Z.of_nat (length rrbuffer) < 65536)%Z then
      Some (result, rrbuffer,
            dns_compress_rollback cctx (u16 (Z.of_nat (length rrbuffer))), countp + added)
    else None
  else if bool_decide (Z.of_nat (length saved) < 65536)%Z then
    Some (result, saved, dns_compress_rollback cctx (u16 (Z.of_nat (length saved))), 0)
  else None.

(** [mem_ok] is whether the arrays of a large answer can be allocated;
    [ncache] stands for [dns_ncache_towire]. *)
Definition towiresorted (st : St) (i : rds_info) (owner : name) order (partial mem_ok : bool)
    (ncache : compress → nat → mem → nat → option (written * nat))
    (cctx : compress) (cap : nat) (m : mem) (countp : nat) : option (written * nat) :=
  if attr_set i DNS_RDATASETATTR_QUESTION then
    '(result, st) ← dns_rdataset_first st;
    if bool_decide (result = ISC_R_NOMORE) then
      '(result, m', cctx') ← write_rr owner i None cctx cap m;
      if bool_decide (result ≠ ISC_R_SUCCESS)
      then finish partial 1 countp m (result, 0, m', cctx', m)
      else
        '(result, _) ← dns_rdataset_next st;
        (* [question_methods] end the loop here *)
        if bool_decide (result = ISC_R_SUCCESS) then None
        else finish partial 1 countp m (result, 0, m', cctx', m')
    else None
  else if attr_set i DNS_RDATASETATTR_NEGATIVE then ncache cctx cap m countp
  else
    count ← dns_rdataset_count st;
    '(result, st) ← dns_rdataset_first st;
    if bool_decide (result = ISC_R_NOMORE) then Some (ISC_R_SUCCESS, m, cctx, countp)
    else if bool_decide (result ≠ ISC_R_SUCCESS) then Some (result, m, cctx, countp)
    else
      let shuffle := bool_decide (1 < count)%Z &&
        (negb (attr_set i DNS_RDATASETATTR_FIXEDORDER) || bool_decide (order ≠ None)) &&
        bool_decide (ri_type i ≠ dns_rdatatype_rrsig) in
      let shuffle := if bool_decide (MAX_SHUFFLE < count)%Z then shuffle && mem_ok
                     else shuffle in
      if shuffle then
        '(result, shuffled, _) ← save_loop (Z.to_nat count) st [];
        if bool_decide (result ≠ ISC_R_NOMORE) then Some (result, m, cctx, countp)
        else if bool_decide (Z.of_nat (length shuffled) = count) then
          items ← shuffle_rdata i order shuffled;
          l ← write_sorted owner i items 0 cctx cap m;
          finish partial (Z.to_nat count) countp m l
        else None
      else
        l ← write_iter (Z.to_nat count) owner i st 0 cctx cap m;
        finish partial (Z.to_nat count) countp m l.

Definition dns_rdataset_towiresorted st i owner order mem_ok ncache cctx cap m countp :=
  towiresorted st i owner order false mem_ok ncache cctx cap m countp.

Definition dns_rdataset_towirepartial st i owner order mem_ok ncache cctx cap m countp :=
  towiresorted st i owner order true mem_ok ncache cctx cap m countp.
End towiresorted.

(** ** The order of the records *)

Section arrangement.
Context `{RdatasetMethods St, Qsort, IscRandom}.
Implicit Types (order : option (rdata → Z)) (st : St).

Lemma save_loop_spec todo st acc l :
  rds_from ISC_R_SUCCESS st l → length l <= todo →
  ∃ st', save_loop todo st acc = Some (ISC_R_NOMORE, acc ++ l, st').
Proof.
  intros Hf. remember ISC_R_SUCCESS as res0 eqn:Er. revert todo acc Er.
  induction Hf as [|st r res st' l Hc Hn Hf IH]; intros todo acc Er Hl; [done|].
  destruct todo as [|todo]; [cbn in Hl; lia|]. cbn [save_loop]. rewrite Hc. cbn [mbind option_bind].
  rewrite Hn. cbn [mbind option_bind]. case_bool_decide as Es.
  - destruct (IH todo (acc ++ [r]) Es) as [st2 ->]; [cbn in Hl; lia|].
    exists st2. by rewrite <- app_assoc.
  - destruct Hf; [by eexists|done].
Qed.

Definition key_of order (r : rdata) : Z := match order with Some f => f r | None => 0%Z end.

(** The entries for the records at the given places. *)
Definition entries_at order (l : list rdata) (idx : list nat) : list (Z * nat) :=
  (λ k, (from_option (key_of order) 0%Z (l !! k), k)) <$> idx.

Lemma sort_entry_at order l k :
  k < length l → sort_entry order l k = Some (from_option (key_of order) 0%Z (l !! k), k).
Proof.
  intros [r Hr]%lookup_lt_is_Some_2. unfold sort_entry. rewrite Hr. cbn.
  by destruct order.
Qed.

Lemma fixed_loop_spec order l i rest :
  i + rest <= length l → fixed_loop order l i rest = Some (entries_at order l (seq i rest)).
Proof.
  revert i. induction rest as [|rest IH]; intros i Hl; [done|].
  cbn [fixed_loop]. rewrite sort_entry_at by lia. cbn [mbind option_bind].
  by rewrite IH by lia.
Qed.

Lemma cyclic_loop_spec order l j rest :
  j < length l →
  cyclic_loop order l (length l) j rest =
    Some (entries_at order l ((λ k, (j + k) mod length l) <$> seq 0 rest)).
Proof.
  revert j. induction rest as [|rest IH]; intros j Hj; [done|].
  cbn [cyclic_loop]. rewrite sort_entry_at by done. cbn [mbind option_bind].
  rewrite IH by (case_bool_decide; lia). cbn [mbind option_bind seq].
  rewrite fmap_cons. unfold entries_at. rewrite fmap_cons.
  rewrite Nat.add_0_r, Nat.mod_small by done. do 2 f_equal.
  rewrite <- (fmap_S_seq 0 rest), <- !list_fmap_compose. apply list_fmap_ext.
  intros k x _. cbn. case_bool_decide as E.
  - replace (j + S x) with (0 + x + 1 * length l) by lia. by rewrite Nat.Div0.mod_add.
  - by replace (S j + x) with (j + S x) by lia.
Qed.

Lemma mapM_entries order l idx items :
  mapM (λ k, l !! k) idx = Some items →
  mapM (λ e : Z * nat, l !! e.2) (entries_at order l idx) = Some items ∧
  (entries_at order l idx).*1 = key_of order <$> items.
Proof.
  revert items. induction idx as [|k idx IH]; intros items Hm.
  { injection Hm as <-. done. }
  cbn in Hm. apply bind_Some in Hm as (r & Hr & (items' & Hi & [= <-])%bind_Some).
  destruct (IH items' Hi) as [E1 E2]. unfold entries_at in *. cbn. rewrite Hr, E1, E2.
  done.
Qed.

Lemma mapM_seq (l : list rdata) : mapM (λ k, l !! k) (seq 0 (length l)) = Some l.
Proof.
  apply mapM_Some_2, Forall2_same_length_lookup. split; [by rewrite length_seq|].
  intros i k r Hk Hr. apply lookup_seq in Hk as [-> _]. done.
Qed.

Lemma mapM_rotate (l : list rdata) j :
  j < length l →
  mapM (λ k, l !! k) ((λ k, (j + k) mod length l) <$> seq 0 (length l)) =
    Some (drop j l ++ take j l).
Proof.
  intros Hj. apply mapM_Some_2, Forall2_same_length_lookup. split.
  { rewrite length_fmap, length_seq, length_app, length_drop, length_take. lia. }
  intros i k r Hk Hr. rewrite list_lookup_fmap in Hk.
  destruct (seq 0 (length l) !! i) as [k'|] eqn:Es; [|done].
  apply lookup_seq in Es as [-> Hi]. injection Hk as <-. cbn [Nat.add] in *.
  destruct (decide (j + i < length l)) as [Hlt|Hge].
  - rewrite Nat.mod_small by done. rewrite lookup_app_l in Hr by (rewrite length_drop; lia).
    by rewrite lookup_drop in Hr.
  - replace (j + i) with ((j + i - length l) + 1 * length l) by lia.
    rewrite Nat.Div0.mod_add, Nat.mod_small by lia.
    rewrite lookup_app_r in Hr by (rewrite length_drop; lia).
    rewrite length_drop in Hr. rewrite lookup_take_lt in Hr by lia.
    rewrite <- Hr. f_equal. lia.
Qed.

Lemma swap_perm (l : list rdata) i c a b :
  l !! i = Some a → l !! c = Some b → <[c := a]> (<[i := b]> l) ≡ₚ l.
Proof.
  intros Ha Hb. destruct (decide (i = c)) as [->|Hne].
  { rewrite Ha in Hb. injection Hb as ->. rewrite list_insert_insert_eq.
    by rewrite list_insert_id. }
  pose proof (lookup_lt_Some _ _ _ Ha) as Hi. pose proof (lookup_lt_Some _ _ _ Hb) as Hc.
  apply Permutation_inj. split; [by rewrite !length_insert|].
  exists (λ k, if decide (k = i) then c else if decide (k = c) then i else k). split.
  - intros x y. repeat case_decide; congruence.
  - intros k. repeat case_decide; subst.
    + rewrite list_lookup_insert_ne by done. by rewrite list_lookup_insert_eq.
    + by rewrite list_lookup_insert_eq by (by rewrite length_insert).
    + by rewrite !list_lookup_insert_ne by done.
Qed.

(** The places below [i] are final. *)
Lemma random_loop_spec order vals i rest l sorted :
  i + rest = length l → sorted = entries_at order l (seq 0 i) →
  ∃ l', random_loop order (length l) vals i rest l sorted =
          Some (l', entries_at order l' (seq 0 (length l))) ∧ l' ≡ₚ l.
Proof.
  revert vals i l sorted. induction rest as [|rest IH]; intros vals i l sorted Hl ->.
  { exists l. split; [|done]. cbn. by rewrite <- Hl, Nat.add_0_r. }
  cbn [random_loop]. set (val := u32 (isc_random_get vals)).
  set (c := i + Z.to_nat (val mod (Z.of_nat (length l) - Z.of_nat i))).
  pose proof (Z.mod_pos_bound val (Z.of_nat (length l) - Z.of_nat i) ltac:(lia)) as Hb.
  assert (i <= c < length l) as Hc by (subst c; lia).
  destruct (lookup_lt_is_Some_2 l i) as [a Ha]; [lia|].
  destruct (lookup_lt_is_Some_2 l c) as [b Hb']; [lia|].
  rewrite Ha, Hb'. cbn [mbind option_bind]. set (l1 := <[c := a]> (<[i := b]> l)).
  assert (length l1 = length l) as Hl1 by (subst l1; by rewrite !length_insert).
  rewrite sort_entry_at by lia. cbn [mbind option_bind]. rewrite <- Hl1.
  destruct (IH (S vals) (S i) l1 (entries_at order l (seq 0 i) ++
    [(from_option (key_of order) 0%Z (l1 !! i), i)])) as (l' & E & Hp); [lia| |].
  - rewrite seq_S. unfold entries_at. rewrite fmap_app. cbn [fmap list_fmap Nat.add]. f_equal.
    apply list_fmap_ext. intros k x [-> Hx]%lookup_seq. cbn. do 2 f_equal. subst l1.
    by rewrite !list_lookup_insert_ne by lia.
  - exists l'. rewrite E. split; [done|]. rewrite Hp. by apply swap_perm.
Qed.

Lemma towire_compare_order (l : list (Z * nat)) : cmp_order_on towire_compare l.
Proof. unfold towire_compare. split; intros; lia. Qed.

(** What [towiresorted] may do to the records [l]. *)
Definition cyclic_start (i : rds_info) (l : list rdata) : nat :=
  Z.to_nat ((if bool_decide (ri_count i = 2 ^ 32 - 1)%Z then u32 (isc_random_get 0)
             else ri_count i) mod Z.of_nat (length l)).

Record arranged (i : rds_info) order (l items : list rdata) : Prop := {
  ar_perm : items ≡ₚ l;
  ar_fixed : order = None → attr_set i DNS_RDATASETATTR_FIXEDORDER = true → items = l;
  ar_cyclic : order = None → attr_set i DNS_RDATASETATTR_FIXEDORDER = false →
    attr_set i DNS_RDATASETATTR_RANDOMIZE = false →
    items = drop (cyclic_start i l) l ++ take (cyclic_start i l) l;
  ar_sorted : ∀ f, order = Some f → StronglySorted (λ a b, f a <= f b)%Z items }.

Lemma items_of_entries order l1 idx items es :
  mapM (λ k, l1 !! k) idx = Some items → es ≡ₚ entries_at order l1 idx →
  ∃ items', mapM (λ e : Z * nat, l1 !! e.2) es = Some items' ∧ items' ≡ₚ items ∧
    es.*1 = key_of order <$> items'.
Proof.
  intros Hm Hp. destruct (mapM_entries order l1 idx items Hm) as [E _].
  assert (∃ idx', es = entries_at order l1 idx' ∧ idx' ≡ₚ idx) as (idx' & -> & Hp').
  { apply Permutation_map_inv in Hp as (idx' & -> & Hp'). by exists idx'. }
  assert (∃ items', mapM (λ k, l1 !! k) idx' = Some items' ∧ items' ≡ₚ items)
    as (items' & Hm' & Hpi).
  { clear -Hp' Hm. revert items Hm. induction Hp' as [|x k1 k2 _ IH|x y k|k1 k2 k3 _ IH1 _ IH2];
      intros items Hm.
    - by exists items.
    - cbn in Hm. apply bind_Some in Hm as (r & Hr & (it & Hi & [= <-])%bind_Some).
      destruct (IH it Hi) as (it' & Hi' & Hpi). exists (r :: it'). cbn. rewrite Hr, Hi'.
      split; [done|]. by constructor.
    - cbn in Hm. apply bind_Some in Hm as (r & Hr & (it & Hi & [= <-])%bind_Some).
      apply bind_Some in Hi as (r2 & Hr2 & (it2 & Hi2 & [= <-])%bind_Some).
      exists (r2 :: r :: it2). cbn. rewrite Hr, Hr2. cbn. rewrite Hi2.
      split; [done|]. by constructor.
    - destruct (IH2 items Hm) as (i2 & H2 & P2). destruct (IH1 i2 H2) as (i1 & H1' & P1).
      exists i1. split; [done|]. by rewrite P1. }
  destruct (mapM_entries order l1 idx' items' Hm') as [E1 E2]. by exists items'.
Qed.

Lemma shuffle_rdata_spec i order l :
  l ≠ [] → (attr_set i DNS_RDATASETATTR_FIXEDORDER = true → order ≠ None) →
  ∃ items, shuffle_rdata i order l = Some items ∧ arranged i order l items.
Proof.
  intros Hne Hfix. unfold shuffle_rdata.
  assert (0 < length l) as Hl by (destruct l; [done|cbn; lia]).
  match goal with |- context [?x ≫= _] => assert (∃ l1 idx items, x = Some (l1, entries_at order l1 idx) ∧
    mapM (λ k, l1 !! k) idx = Some items ∧ items ≡ₚ l ∧
    (order = None → attr_set i DNS_RDATASETATTR_FIXEDORDER = false →
     attr_set i DNS_RDATASETATTR_RANDOMIZE = false →
     items = drop (cyclic_start i l) l ++ take (cyclic_start i l) l))
    as (l1 & idx & items & -> & Hm & Hp & Hcyc) end.
  { destruct (attr_set i DNS_RDATASETATTR_FIXEDORDER) eqn:Ef.
    { rewrite bool_decide_false by auto. rewrite fixed_loop_spec by lia.
      exists l, (seq 0 (length l)), l. split_and!; [done|apply mapM_seq|done|done]. }
    destruct (attr_set i DNS_RDATASETATTR_RANDOMIZE) eqn:Er.
    { destruct (random_loop_spec order 0 0 (length l) l []) as (l1 & -> & Hp); [lia|done|].
      exists l1, (seq 0 (length l)), l1. rewrite <- (Permutation_length Hp).
      split_and!; [done|apply mapM_seq|done|done]. }
    fold (cyclic_start i l).
    assert (cyclic_start i l < length l) as Hc.
    { unfold cyclic_start. match goal with |- context [(?v mod _)%Z] =>
        pose proof (Z.mod_pos_bound v (Z.of_nat (length l))) end. lia. }
    rewrite cyclic_loop_spec by done.
    exists l, ((λ k, (cyclic_start i l + k) mod length l) <$> seq 0 (length l)),
      (drop (cyclic_start i l) l ++ take (cyclic_start i l) l).
    split; [done|]. split; [by apply mapM_rotate|]. split; [|done].
    rewrite Permutation_app_comm. by rewrite take_drop. }
  cbn [mbind option_bind]. destruct order as [f|].
  - destruct (items_of_entries (Some f) l1 idx items
      (qsort towire_compare (entries_at (Some f) l1 idx)) Hm (qsort_perm _ _ _))
      as (items' & E & Hp' & Ek).
    exists items'. split; [exact E|]. split; [by rewrite Hp'|done|done|].
    intros f' [= <-]. pose proof (qsort_sorted _ towire_compare _ (towire_compare_order
      (entries_at (Some f) l1 idx))) as Hs.
    revert Hs Ek. generalize (qsort towire_compare (entries_at (Some f) l1 idx)) as es.
    clear. intros es Hs. revert items'. induction Hs as [|e es Hs IH He]; intros [|r items'] Ek;
      try done; [constructor|]. cbn in Ek. injection Ek as E1 Ek.
    constructor; [by apply IH|]. clear IH Hs. revert items' Ek.
    induction He as [|e' es He' _ IH]; intros [|r' items'] Ek; try done.
    cbn in Ek. injection Ek as E2 Ek. constructor; [|by apply IH].
    unfold cmp_le, towire_compare in He'. lia.
  - destruct (mapM_entries None l1 idx items Hm) as [E _].
    exists items. split; [exact E|]. split; [done| |done|done].
    intros _ Ef. by destruct (Hfix Ef).
Qed.
End arrangement.

(** ** Records in a message *)

(** A record at [p], up to [q]: the owner's labels, the fixed fields and the
    bytes [x] of its rdata. *)
Record rr_at (sens : bool) (m : mem) (p : nat) (owner : list label) (i : rds_info)
    (x : list Z) (q : nat) : Prop := {
  ra_labels : ∃ ls k, alike sens owner ls ∧ wire_at true m p p ls k ∧
    q = p + k + (10 + length x) ∧
    mread m (p + k) (10 + length x) =
      Some (enc16 (ri_type i) ++ enc16 (ri_rdclass i) ++ enc32 (ri_ttl i) ++
            enc16 (Z.of_nat (length x)) ++ x) }.

Lemma rr_at_app sens m y p owner i x q :
  rr_at sens m p owner i x q → rr_at sens (m ++ y) p owner i x q.
Proof.
  intros [(ls & k & Ha & Hw & Hq & Hr)]. split. exists ls, k.
  split_and!; [done|by apply wire_at_app|done|by apply mread_app].
Qed.

(** The buffer's contents do not matter to a writer, only its length. *)
Definition appends (w : mem → option written) (n : nat) (res : isc_result) (x : list Z)
    (cctx' : compress) : Prop :=
  ∀ m : mem, length m = n → w m = Some (res, m ++ x, cctx').

Lemma app_same_nil (m x : mem) : m = m ++ x → x = [].
Proof.
  intros E%(f_equal length). rewrite length_app in E. destruct x; [done|cbn in E; lia].
Qed.

Lemma towire_appends `{Alloc} nm nocompress cctx cap n res m x cctx' :
  length m = n → dns_name_towire nm nocompress cctx cap m = Some (res, m ++ x, cctx') →
  appends (dns_name_towire nm nocompress cctx cap) n res x cctx'.
Proof.
  intros Hn Hw m2 Hm2. unfold dns_name_towire in *. rewrite Hm2. rewrite Hn in Hw.
  destruct (if negb nocompress && global14 cctx then _ else _) as [gf|]; [|done].
  cbn [mbind option_bind] in *.
  destruct (match gf with Some _ => _ | None => _ end) as [[gp go]|].
  - rewrite length_app in *. rewrite Hm2. rewrite Hn in Hw.
    case_bool_decide.
    { injection Hw as <- Hx <-. apply app_same_nil in Hx as ->. by rewrite app_nil_r. }
    case_bool_decide.
    { injection Hw as <- Hx <-. apply app_inv_head in Hx. by subst x. }
    destruct (if bool_decide (length (ndata gp) ≠ 0) then _ else _) as [c|]; [|done].
    cbn [mbind option_bind] in *. injection Hw as <- Hx <-.
    rewrite <- app_assoc in *. apply app_inv_head in Hx. by subst x.
  - case_bool_decide.
    { injection Hw as <- Hx <-. apply app_same_nil in Hx as ->. by rewrite app_nil_r. }
    destruct (dns_compress_add cctx nm nm _) as [c|]; [|done].
    cbn [mbind option_bind] in *. injection Hw as <- Hx <-.
    apply app_inv_head in Hx. by subst x.
Qed.

(** What the generated dispatch promises for the rdata that are well-formed
    ([rdata_wf]): the type's function appends to the buffer, within its room
    and whatever the buffer holds, adds to the context only what the message
    then has, and writes what stands for the rdata ([renders]). *)
Class TowireOk `{TowireSwitch, Alloc} := {
  rdata_wf : rdata → Prop;
  renders : rdata → list Z → Prop;
  switch_default : ∀ rd cctx cap m, rdata_wf rd →
    towire_switch rd cctx cap m = Some None → renders rd (rd_data rd);
  switch_ok : ∀ rd cctx cap n, rdata_wf rd → n <= cap → (Z.of_nat cap < 2 ^ 16)%Z →
    (∃ m, length m = n ∧ ctx_ok m cctx) →
    (∀ m, length m = n → towire_switch rd cctx cap m = Some None) ∨
    ∃ res x cctx',
      (∀ m, length m = n → towire_switch rd cctx cap m = Some (Some (res, m ++ x, cctx'))) ∧
      n + length x <= cap ∧ grown (Z.of_nat n) cctx cctx' ∧
      (res = ISC_R_SUCCESS ∧ renders rd x ∧
         (∀ m, length m = n → ctx_ok m cctx → ctx_ok (m ++ x) cctx') ∨
       res = ISC_R_NOSPACE) }.

Section records.
Context `{TowireOk}.

Definition rd_ok (rd : rdata) : Prop :=
  rdata_wf rd ∧ Z.land (rd_flags rd) DNS_RDATA_UPDATE = 0%Z.

Lemma rdata_towire_ok rd cctx cap n :
  rd_ok rd → n <= cap → (Z.of_nat cap < 2 ^ 16)%Z → (∃ m, length m = n ∧ ctx_ok m cctx) →
  ∃ res x cctx', appends (dns_rdata_towire rd cctx cap) n res x cctx' ∧
    n + length x <= cap ∧ grown (Z.of_nat n) cctx cctx' ∧
    (res = ISC_R_SUCCESS ∧ renders rd x ∧
       (∀ m, length m = n → ctx_ok m cctx → ctx_ok (m ++ x) cctx') ∨
     res = ISC_R_NOSPACE).
Proof.
  intros [Hwf Hfl] Hn Hcap (m0 & Hm0 & Hc).
  destruct (switch_ok rd cctx cap n Hwf Hn Hcap) as [Hd|(res & x & c' & Hs & Hx & Hg & Hr)];
    [by exists m0| |].
  - destruct (decide (cap - n < length (rd_data rd))) as [Hlt|Hge].
    + exists ISC_R_NOSPACE, [], cctx. rewrite Nat.add_0_r.
      split_and!; [|done|apply grown_refl|by right]. intros m Hm. unfold dns_rdata_towire.
      rewrite Hfl, bool_decide_false, Hd, Hm by auto. cbn [mbind option_bind].
      by rewrite bool_decide_true, app_nil_r by done.
    + exists ISC_R_SUCCESS, (rd_data rd), cctx.
      split_and!; [|lia|apply grown_refl|left].
      * intros m Hm. unfold dns_rdata_towire.
        rewrite Hfl, bool_decide_false, Hd, Hm by auto. cbn [mbind option_bind].
        by rewrite bool_decide_false by done.
      * split_and!; [done|by eapply switch_default, (Hd m0)|]. intros m Hm Hcm.
        by apply ctx_ok_app.
  - destruct Hr as [(-> & Hren & Hcm)| ->].
    + exists ISC_R_SUCCESS, x, c'. split_and!; [|done|done|by left].
      intros m Hm. unfold dns_rdata_towire.
      rewrite Hfl, bool_decide_false, Hs by auto. done.
    + exists ISC_R_NOSPACE, [], (dns_compress_rollback c' (u16 (Z.of_nat n))).
      rewrite Nat.add_0_r. split_and!; [|done| |by right].
      * intros m Hm. unfold dns_rdata_towire.
        rewrite Hfl, bool_decide_false, Hs, Hm by auto. cbn [mbind option_bind].
        rewrite bool_decide_true, bool_decide_true by (done || lia).
        by rewrite app_nil_r.
      * rewrite u16_small by lia. rewrite <- Hm0 in *.
        rewrite (rollback_puts _ _ _ Hc Hg). apply grown_refl.
Qed.

Lemma mwrite_middle (a b b' c : mem) :
  length b = length b' → mwrite (a ++ b ++ c) (length a) b' = Some (a ++ b' ++ c).
Proof.
  intros Hl. unfold mwrite. rewrite bool_decide_true by (rewrite !length_app; lia).
  rewrite take_app_length, <- Hl, <- length_app, (app_assoc a b c), drop_app_length. done.
Qed.

Lemma setmethods_ok m cctx : ctx_ok m cctx → ctx_ok m (dns_compress_setmethods cctx true).
Proof. by intros [? ? ?]. Qed.

(** A compression context that fits some message of that length. *)
Definition fitting (n : nat) (cctx : compress) : Prop := ∃ m, length m = n ∧ ctx_ok m cctx.

(** A record with an rdata, or a question, from [p] to [q]. *)
Definition rr_here (sens : bool) (m : mem) (p : nat) (owner : list label) (i : rds_info) (rd : option rdata)
    (q : nat) : Prop :=
  match rd with
  | Some rd => ∃ x, renders rd x ∧ rr_at sens m p owner i x q
  | None => ∃ ls k, alike sens owner ls ∧ wire_at true m p p ls k ∧ q = p + k + 4 ∧
      mread m (p + k) 4 = Some (enc16 (ri_type i) ++ enc16 (ri_rdclass i))
  end.

(** Writing a name, as [appends] has it. *)
Lemma name_writes owner ls cctx cap n :
  name_ok owner ls → n <= cap → (Z.of_nat cap < 2 ^ 16)%Z → fitting n cctx →
  ∃ r x cctx', appends (dns_name_towire owner false cctx cap) n r x cctx' ∧ n + length x <= cap ∧
    grown (Z.of_nat n) cctx cctx' ∧
    (r = ISC_R_SUCCESS ∧ (∀ m, length m = n → ctx_ok m cctx → ctx_ok (m ++ x) cctx' ∧
       ∃ ls', alike (sensitive cctx) ls ls' ∧ wire_at true (m ++ x) n n ls' (length x)) ∨ r = ISC_R_NOSPACE).
Proof.
  intros Hn Hcap Hcap' (m0 & Hm0 & Hc0).
  destruct (towire_ok m0 cctx owner ls false cap Hc0 Hn) as (r & m1 & c1 & E & Hg & [x ->] & Hl & Hr); [lia|done|].
  pose proof (towire_appends owner false cctx cap n r m0 x c1 Hm0 E) as Hap.
  rewrite length_app, Hm0 in Hl. rewrite Hm0 in Hg.
  exists r, x, c1. split_and!; [done..|]. destruct Hr as [(-> & _)|[-> _]]; [left|by right]. split; [done|].
  intros m Hm Hc. destruct (towire_ok m cctx owner ls false cap Hc Hn) as (r & m' & c & E' & _ & _ & _ & Hr); [lia|done|].
  rewrite (Hap m Hm) in E'. injection E' as <- <- <-. destruct Hr as [(_ & Hc' & (ls' & Ha & Hw) & _)|[? _]]; [|done].
  split; [done|]. exists ls'. split; [done|]. rewrite length_app, Hm in Hw. by replace (n + length x - n) with (length x) in Hw by lia.
Qed.

(** The bytes of a record: what is written before the rdata, and the rdata. *)
Definition rr_bytes (x1 : list Z) (i : rds_info) (x : list Z) : list Z :=
  x1 ++ enc16 (ri_type i) ++ enc16 (ri_rdclass i) ++ enc32 (ri_ttl i) ++ enc16 (Z.of_nat (length x)) ++ x.

Lemma rr_bytes_length x1 i x : length (rr_bytes x1 i x) = length x1 + 10 + length x.
Proof. unfold rr_bytes. rewrite !length_app, !enc16_length, enc32_length. lia. Qed.

Lemma rr_bytes_at sens (m : mem) n ls ls' x1 i x :
  length m = n → alike sens ls ls' → wire_at true (m ++ x1) n n ls' (length x1) →
  rr_at sens (m ++ rr_bytes x1 i x) n ls i x (n + length (rr_bytes x1 i x)).
Proof.
  intros Hm Ha Hw. split. exists ls', (length x1). split_and!; [done| | |].
  - unfold rr_bytes. rewrite app_assoc. by apply wire_at_app.
  - rewrite rr_bytes_length. lia.
  - rewrite <- Hm, <- length_app. unfold rr_bytes. rewrite app_assoc. set (z := enc16 (ri_type i) ++ _).
    assert (10 + length x = length z) as -> by (subst z; by rewrite !length_app).
    pose proof (mread_part (m ++ x1) z []) as Hp. by rewrite app_nil_r in Hp.
Qed.

Lemma write_rr_writes owner ls i rd cctx cap n :
  name_ok owner ls → (∀ r, rd = Some r → rd_ok r) → n <= cap → (Z.of_nat cap < 2 ^ 16)%Z → fitting n cctx →
  ∃ res y cctx', appends (write_rr owner i rd cctx cap) n res y cctx' ∧ n + length y <= cap ∧
    grown (Z.of_nat n) (dns_compress_setmethods cctx true) cctx' ∧
    (res = ISC_R_SUCCESS ∧ (∀ m, length m = n → ctx_ok m cctx → ctx_ok (m ++ y) cctx' ∧
       rr_here (sensitive cctx) (m ++ y) n ls i rd (n + length y)) ∨ res = ISC_R_NOSPACE).
Proof.
  intros Hn Hrd Hcap Hcap' (m0 & Hm0 & Hc0). set (c0 := dns_compress_setmethods cctx true).
  destruct (name_writes owner ls c0 cap n Hn Hcap Hcap') as (r & x1 & c1 & Hap & Hl1 & Hg & Hr).
  { exists m0. split; [done|]. by apply setmethods_ok. }
  destruct Hr as [[-> Hx1]| ->].
  2:{ exists ISC_R_NOSPACE, x1, c1. split_and!; [|done..|by right]. intros m Hm. unfold write_rr. fold c0. by rewrite (Hap m Hm). }
  set (headlen := match rd with Some _ => 10 | None => 4 end).
  destruct (decide (cap - (n + length x1) < headlen)) as [Hs|Hs].
  { exists ISC_R_NOSPACE, x1, c1. split_and!; [|done..|by right]. intros m Hm. unfold write_rr. fold c0. rewrite (Hap m Hm). cbn [mbind option_bind].
    rewrite bool_decide_false by auto. by rewrite length_app, Hm, bool_decide_true. }
  assert (∀ m : mem, length m = n → ctx_ok m cctx → ctx_ok m c0) as Hc0' by (intros; by apply setmethods_ok).
  destruct rd as [rd|].
  - set (z := x1 ++ enc16 (ri_type i) ++ enc16 (ri_rdclass i) ++ enc32 (ri_ttl i)).
    assert (length z = length x1 + 8) as Hz by (subst z; rewrite !length_app; cbn; lia).
    assert (∀ m (h : mem), length m = n → ctx_ok m cctx → ctx_ok ((m ++ z) ++ h) c1) as Hh.
    { intros m h Hm Hc. subst z. rewrite <- !app_assoc, app_assoc. apply ctx_ok_app. by apply Hx1, Hc0'. }
    destruct (rdata_towire_ok rd c1 cap (n + length x1 + 10)) as (res & x & c2 & Happ & Hlx & Hg2 & Hr);
      [by apply Hrd|cbn in *; lia|done| |].
    { exists ((m0 ++ z) ++ [0; 0]%Z). split; [rewrite !length_app; cbn; lia|by apply Hh]. }
    assert (grown (Z.of_nat n) c0 c2) as Hg3.
    { eapply grown_trans; [exact Hg|]. eapply grown_lower; [|exact Hg2]. lia. }
    assert (∀ m, length m = n → write_rr owner i (Some rd) cctx cap m =
      (let m' := ((m ++ z) ++ [0; 0]%Z) ++ x in
       if bool_decide (res ≠ ISC_R_SUCCESS) then Some (res, m', c2)
       else m'' ← mwrite m' (length (m ++ z)) (enc16 (Z.of_nat (length x))); Some (ISC_R_SUCCESS, m'', c2))) as Hw.
    { intros m Hm. unfold write_rr. fold c0. rewrite (Hap m Hm). cbn [mbind option_bind].
      rewrite bool_decide_false by auto. rewrite length_app, Hm, bool_decide_false by done.
      replace (((m ++ x1) ++ enc16 (ri_type i) ++ enc16 (ri_rdclass i)) ++ enc32 (ri_ttl i)) with (m ++ z)
        by (subst z; by rewrite <- !app_assoc).
      rewrite (Happ ((m ++ z) ++ [0; 0]%Z)) by (rewrite !length_app; cbn; lia). cbn [mbind option_bind].
      case_bool_decide; [done|]. rewrite !length_app. cbn [length]. rewrite bool_decide_true by lia.
      replace (length m + length z + 2 + length x - (length m + length z) - 2) with (length x) by lia.
      by rewrite u16_small by lia. }
    destruct Hr as [(-> & Hren & Hcx)| ->].
    + exists ISC_R_SUCCESS, (rr_bytes x1 i x), c2. rewrite rr_bytes_length.
      assert (∀ m, (m ++ z) ++ enc16 (Z.of_nat (length x)) ++ x = m ++ rr_bytes x1 i x) as Ey
        by (intros m; subst z; unfold rr_bytes; by rewrite <- !app_assoc).
      split_and!; [|lia|done|left; split; [done|]].
      * intros m Hm. rewrite (Hw m Hm). cbv zeta. rewrite bool_decide_false by auto. rewrite <- app_assoc.
        rewrite (mwrite_middle (m ++ z) [0; 0]%Z (enc16 (Z.of_nat (length x))) x) by done. cbn [mbind option_bind].
        by rewrite Ey.
      * intros m Hm Hc. split.
        { rewrite <- Ey, app_assoc. apply Hcx; [rewrite !length_app; cbn; lia|by apply Hh]. }
        exists x. split; [done|]. destruct (Hx1 m Hm (Hc0' m Hm Hc)) as (_ & ls' & Ha & Hwr).
        rewrite <- (rr_bytes_length x1 i x). by eapply rr_bytes_at.
    + exists ISC_R_NOSPACE, (z ++ [0; 0]%Z ++ x), c2. split_and!; [|rewrite !length_app; cbn; lia|done|by right].
      intros m Hm. rewrite (Hw m Hm). cbv zeta. rewrite bool_decide_true by done. by rewrite <- !app_assoc.
  - exists ISC_R_SUCCESS, (x1 ++ enc16 (ri_type i) ++ enc16 (ri_rdclass i)), c1.
    cbn in Hs. split_and!; [|rewrite !length_app; cbn; lia|done|left; split; [done|]].
    + intros m Hm. unfold write_rr. fold c0. rewrite (Hap m Hm). cbn [mbind option_bind].
      rewrite bool_decide_false by auto. by rewrite length_app, Hm, bool_decide_false, <- app_assoc.
    + intros m Hm Hc. destruct (Hx1 m Hm (Hc0' m Hm Hc)) as (Hc1 & ls' & Ha & Hwr).
      rewrite app_assoc. split; [by apply ctx_ok_app|]. exists ls', (length x1).
      split_and!; [done|by apply wire_at_app|rewrite !length_app; cbn; lia|].
      rewrite <- Hm, <- length_app. pose proof (mread_part (m ++ x1) (enc16 (ri_type i) ++ enc16 (ri_rdclass i)) []) as Hp.
      by rewrite app_nil_r in Hp.
Qed.

(** Records one after the other. *)
Fixpoint rrs_at (sens : bool) (m : mem) (p : nat) (owner : list label) (i : rds_info)
    (items : list rdata) (q : nat) : Prop :=
  match items with
  | [] => q = p
  | rd :: items' => ∃ x p', renders rd x ∧ rr_at sens m p owner i x p' ∧
      rrs_at sens m p' owner i items' q
  end.

Lemma rrs_at_app sens m y p owner i items q :
  rrs_at sens m p owner i items q → rrs_at sens (m ++ y) p owner i items q.
Proof.
  revert p. induction items as [|rd items IH]; intros p; [done|].
  intros (x & p' & Hx & Hr & Hi). exists x, p'. split_and!; [done|by apply rr_at_app|by apply IH].
Qed.

(** The writing loop: it writes the records [items], or as many as fit. *)
Lemma write_sorted_writes owner ls i items added cctx cap n :
  name_ok owner ls → Forall rd_ok items → n <= cap → (Z.of_nat cap < 2 ^ 16)%Z → fitting n cctx →
  ∃ res k y cctx' rr y' crr,
    (∀ m, length m = n → write_sorted owner i items added cctx cap m = Some (res, added + k, m ++ y, cctx', m ++ rr)) ∧
    y = rr ++ y' ∧ n + length y <= cap ∧ k <= length items ∧
    grown (Z.of_nat n) (if decide (items = []) then cctx else dns_compress_setmethods cctx true) cctx' ∧
    grown (Z.of_nat (n + length rr)) crr cctx' ∧ sensitive crr = sensitive cctx ∧
    (∀ m, length m = n → ctx_ok m cctx → ctx_ok (m ++ rr) crr ∧
       rrs_at (sensitive cctx) (m ++ rr) n ls i (take k items) (n + length rr)) ∧
    (res = ISC_R_NOMORE ∧ k = length items ∧ y = rr ∧ crr = cctx' ∨ res = ISC_R_NOSPACE ∧ k < length items).
Proof.
  intros Hn Hrd Hm Hcap. revert added cctx n Hm. induction Hrd as [|rd items Hrd Hrds IH];
    intros added cctx n Hm Hf.
  { exists ISC_R_NOMORE, 0, [], cctx, [], [], cctx. cbn. rewrite !Nat.add_0_r.
    split_and!; try done; [|apply grown_refl..| |by left].
    - intros m _. by rewrite !app_nil_r.
    - intros m <- Hc. by rewrite app_nil_r. }
  destruct (write_rr_writes owner ls i (Some rd) cctx cap n) as (res & y1 & c1 & E & Hl1 & Hg1 & Hr); try done.
  { by intros r [= <-]. }
  assert (sensitive c1 = sensitive cctx) as Hs1 by (by destruct Hg1 as (_ & -> & _)).
  destruct Hr as [[-> Hok]| ->].
  - destruct (IH (S added) c1 (n + length y1) Hl1)
      as (res & k & y & c2 & rr & y' & crr & E2 & -> & Hl2 & Hk & Hg2 & Hgr & Hsr & Hat & Hres).
    { destruct Hf as (m0 & Hm0 & Hc0). exists (m0 ++ y1). split; [by rewrite length_app, Hm0|by apply Hok]. }
    exists res, (S k), (y1 ++ rr ++ y'), c2, (y1 ++ rr), y', crr.
    rewrite Hs1 in *. rewrite !length_app in *. split_and!; try done; [|by rewrite app_assoc|lia|cbn; lia|..].
    + intros m Hlm. cbn [write_sorted]. rewrite (E m Hlm). cbn [mbind option_bind].
      rewrite bool_decide_false by auto. rewrite E2 by (by rewrite length_app, Hlm).
      by rewrite !app_assoc, Nat.add_succ_r.
    + rewrite decide_False by done. eapply grown_trans; [exact Hg1|].
      apply (grown_lower (Z.of_nat (n + length y1))); [lia|].
      destruct (decide (items = [])); [exact Hg2|].
      destruct Hg2 as (G & S & T). destruct Hg1 as (G1 & _). split_and!; [|done|done].
      by rewrite G, G1.
    + by rewrite Nat.add_assoc.
    + intros m Hlm Hc. destruct (Hok m Hlm Hc) as (Hc1 & x & Hren & Hrr).
      destruct (Hat (m ++ y1)) as [Hcr Hit]; [by rewrite length_app, Hlm|done|].
      rewrite app_assoc. split; [done|]. cbn [take rrs_at]. exists x, (n + length y1).
      split_and!; [done|by apply rr_at_app|]. by rewrite Nat.add_assoc.
    + destruct Hres as [(-> & -> & Hy & ->)|[-> Hlt]]; [left|right]; split_and!; try done.
      * by rewrite Hy.
      * cbn. lia.
  - exists ISC_R_NOSPACE, 0, y1, c1, [], y1, (dns_compress_setmethods cctx true). rewrite decide_False by done.
    cbn [length]. rewrite !(Nat.add_0_r n). split_and!; try done; [|lia| |right; split; [done|lia]].
    + intros m Hlm. cbn [write_sorted]. rewrite (E m Hlm). cbn [mbind option_bind].
      by rewrite Nat.add_0_r, app_nil_r.
    + intros m <- Hc. rewrite app_nil_r. split; [by apply setmethods_ok|done].
Qed.
End records.

(** ** The whole rdataset *)

Section answer.
Context `{RdatasetMethods St, Qsort, IscRandom, TowireOk}.
Implicit Types (order : option (rdata → Z)) (st : St).

Lemma write_iter_spec fuel owner i st l added cctx cap m :
  rds_from ISC_R_SUCCESS st l → length l <= fuel →
  write_iter fuel owner i st added cctx cap m = write_sorted owner i l added cctx cap m.
Proof.
  intros Hf. remember ISC_R_SUCCESS as res0 eqn:Er. revert fuel added cctx m Er.
  induction Hf as [|st r res st' l Hc Hn Hf IH]; intros fuel added cctx m Er Hl; [done|].
  destruct fuel as [|fuel]; [cbn in Hl; lia|]. cbn [write_iter write_sorted].
  rewrite Hc. cbn [mbind option_bind].
  destruct (write_rr owner i (Some r) cctx cap m) as [[[r1 m1] c1]|]; [|done].
  cbn [mbind option_bind]. case_bool_decide; [done|]. rewrite Hn. cbn [mbind option_bind].
  case_bool_decide as Es.
  - apply IH; [done|cbn in Hl; lia].
  - destruct Hf; [done|done].
Qed.

(** Whether [towiresorted] shuffles, and what it then shows. *)
Definition shuffles (i : rds_info) order (mem_ok : bool) (l : list rdata) : bool :=
  bool_decide (1 < length l) &&
  (negb (attr_set i DNS_RDATASETATTR_FIXEDORDER) || bool_decide (order ≠ None)) &&
  bool_decide (ri_type i ≠ dns_rdatatype_rrsig) &&
  (bool_decide (Z.of_nat (length l) <= MAX_SHUFFLE)%Z || mem_ok).

Definition shown (i : rds_info) order (mem_ok : bool) (l items : list rdata) : Prop :=
  if shuffles i order mem_ok l then arranged i order l items else items = l.

Lemma towiresorted_shown st l i owner order partial mem_ok :
  rds_yields st l → attr_set i DNS_RDATASETATTR_QUESTION = false →
  attr_set i DNS_RDATASETATTR_NEGATIVE = false →
  ∃ items, shown i order mem_ok l items ∧ ∀ ncache cctx cap m countp,
    towiresorted st i owner order partial mem_ok ncache cctx cap m countp =
      if bool_decide (l = []) then Some ((ISC_R_SUCCESS, m, cctx), countp)
      else w ← write_sorted owner i items 0 cctx cap m;
           finish partial (length l) countp m w.
Proof.
  intros (Hcnt & res & st1 & Hfst & Hf) Hq Hneg. unfold towiresorted.
  rewrite Hq, Hneg, Hcnt, Hfst. cbn [mbind option_bind].
  case_bool_decide as Hr.
  { destruct Hf; [|done]. exists []. rewrite bool_decide_true by done. by split. }
  case_bool_decide as Hr2; [by destruct Hf|].
  assert (res = ISC_R_SUCCESS) as -> by (by destruct Hf).
  assert (l ≠ []) as Hne by (by inversion Hf). rewrite (bool_decide_false (l = [])) by done.
  assert ((if bool_decide (MAX_SHUFFLE < Z.of_nat (length l))%Z
           then (bool_decide (1 < Z.of_nat (length l))%Z &&
                 (negb (attr_set i DNS_RDATASETATTR_FIXEDORDER) || bool_decide (order ≠ None)) &&
                 bool_decide (ri_type i ≠ dns_rdatatype_rrsig)) && mem_ok
           else bool_decide (1 < Z.of_nat (length l))%Z &&
                (negb (attr_set i DNS_RDATASETATTR_FIXEDORDER) || bool_decide (order ≠ None)) &&
                bool_decide (ri_type i ≠ dns_rdatatype_rrsig)) = shuffles i order mem_ok l) as ->.
  { unfold shuffles. rewrite (bool_decide_ext (1 < Z.of_nat (length l))%Z (1 < length l)) by lia.
    repeat case_bool_decide; try lia;
      destruct mem_ok, (attr_set i DNS_RDATASETATTR_FIXEDORDER); cbn; try done; lia. }
  rewrite Nat2Z.id. unfold shown. destruct (shuffles i order mem_ok l) eqn:Es.
  - destruct (save_loop_spec (length l) st1 [] l Hf) as [st2 ->]; [done|].
    cbn [mbind option_bind app]. rewrite bool_decide_false, bool_decide_true by auto.
    destruct (shuffle_rdata_spec i order l Hne) as (items & -> & Ha).
    + intros Hfx ->. unfold shuffles in Es. rewrite Hfx in Es.
      rewrite (bool_decide_false (None ≠ None)) in Es by auto.
      cbn in Es. by rewrite andb_false_r in Es.
    + by exists items.
  - exists l. split; [done|]. intros. by rewrite (write_iter_spec _ _ _ _ l).
Qed.

Lemma shown_perm i order mem_ok l items : shown i order mem_ok l items → items ≡ₚ l.
Proof. unfold shown. intros Hs. destruct (shuffles i order mem_ok l); [by apply ar_perm in Hs|by subst]. Qed.

(** What a rendering of the records [l] appends, shown as [items]: all of
    them, or those that fit, or nothing. *)
Record rendered (partial : bool) (l items : list rdata) (ls : list label) (i : rds_info) (n : nat)
    (cctx : compress) (r : isc_result) (y : list Z) (cctx' : compress) (cnt : nat) : Prop := {
  rn_grown : sensitive cctx' = sensitive cctx;
  rn_ctx : ∀ m, length m = n → ctx_ok m cctx → ctx_ok (m ++ y) cctx';
  rn_result : r = ISC_R_SUCCESS ∧ cnt = length l ∨
    r = ISC_R_NOSPACE ∧ partial = true ∧ cnt < length l ∨
    r = ISC_R_NOSPACE ∧ partial = false ∧ l ≠ [] ∧ y = [] ∧ cnt = 0 ∧ cctx' = dns_compress_setmethods cctx true;
  rn_at : ∀ m, length m = n → ctx_ok m cctx →
    rrs_at (sensitive cctx) (m ++ y) n ls i (take cnt items) (n + length y) }.

Lemma answer_writes st l i owner ls order partial mem_ok cctx cap n :
  rds_yields st l → attr_set i DNS_RDATASETATTR_QUESTION = false →
  attr_set i DNS_RDATASETATTR_NEGATIVE = false → Forall rd_ok l →
  name_ok owner ls → n <= cap → (Z.of_nat cap < 2 ^ 16)%Z → fitting n cctx →
  ∃ items r y cctx' cnt, shown i order mem_ok l items ∧ n + length y <= cap ∧
    (∀ m ncache countp, length m = n → towiresorted st i owner order partial mem_ok ncache cctx cap m countp =
       Some ((r, m ++ y, cctx'),
             if bool_decide (r = ISC_R_SUCCESS) || partial then countp + cnt else 0)) ∧
    rendered partial l items ls i n cctx r y cctx' cnt.
Proof.
  intros Hy Hq Hneg Hrd Hn Hm Hcap Hf.
  destruct (towiresorted_shown st l i owner order partial mem_ok Hy Hq Hneg) as (items & Hs & Hw).
  exists items. pose proof (shown_perm _ _ _ _ _ Hs) as Hp.
  destruct (decide (l = [])) as [->|Hl].
  { apply Permutation_nil_r in Hp as ->. exists ISC_R_SUCCESS, [], cctx, 0. cbn [length]. rewrite Nat.add_0_r.
    split_and!; [done..| |].
    - intros m ncache countp _. rewrite Hw, bool_decide_true, app_nil_r, Nat.add_0_r by done. by rewrite bool_decide_true.
    - split; [done| |by left|]; intros m ?; rewrite app_nil_r; [done|]. cbn. lia. }
  destruct (write_sorted_writes owner ls i items 0 cctx cap n Hn)
    as (res & k & y & c' & rr & y' & crr & E & -> & Hlen & Hk & Hg & Hgr & Hsr & Hat & Hres);
    [by rewrite Hp|done..|]. rewrite length_app in Hlen.
  rewrite (Permutation_length Hp) in *.
  assert (items ≠ []) as Hi by (intros ->; by apply Permutation_nil_l in Hp). rewrite decide_False in Hg by done.
  assert (∀ m, length m = n → ctx_ok m cctx → dns_compress_rollback c' (Z.of_nat n) = dns_compress_setmethods cctx true) as Hback.
  { intros m <- Hc. by apply rollback_puts; [apply setmethods_ok|]. }
  assert (dns_compress_rollback c' (Z.of_nat (n + length rr)) = crr) as Hpart.
  { destruct Hf as (m & Hlm & Hc). destruct (Hat m Hlm Hc) as [Hcr _].
    rewrite <- Hlm, <- length_app in *. by apply rollback_puts. }
  assert (∀ m ncache countp, length m = n → towiresorted st i owner order partial mem_ok ncache cctx cap m countp =
    finish partial (length l) countp m (res, k, m ++ rr ++ y', c', m ++ rr)) as Hw'.
  { intros m ncache countp Hlm. by rewrite Hw, bool_decide_false, (E m Hlm) by done. }
  destruct Hres as [(-> & -> & Hy' & ->)|[-> Hlt]].
  - exists ISC_R_SUCCESS, rr, c', (length l). split_and!; [done|lia| |].
    + intros m ncache countp Hlm. rewrite (Hw' m ncache countp Hlm), Hy'. cbn [finish]. by rewrite !bool_decide_true.
    + split; [done|by apply Hat|by left|by apply Hat].
  - destruct partial.
    + exists ISC_R_NOSPACE, rr, crr, k. split_and!; [done|lia| |].
      * intros m ncache countp Hlm. rewrite (Hw' m ncache countp Hlm). cbn [finish].
        rewrite bool_decide_false, (bool_decide_true (_ = ISC_R_NOSPACE)) by done. cbn [andb]. rewrite length_app, Hlm.
        rewrite bool_decide_true, u16_small, Hpart by lia. by rewrite orb_true_r.
      * split; [done|by apply Hat|right; left; done|by apply Hat].
    + exists ISC_R_NOSPACE, [], (dns_compress_setmethods cctx true), 0. cbn [length]. rewrite Nat.add_0_r.
      split_and!; [done..| |].
      * intros m ncache countp Hlm. rewrite (Hw' m ncache countp Hlm). cbn [finish andb].
        rewrite bool_decide_false by done. rewrite Hlm, bool_decide_true, u16_small by lia.
        destruct Hf as (m0 & Hlm0 & Hc0). rewrite (Hback m0) by done. by rewrite app_nil_r.
      * split; [done|..|right; right; done|]; intros m Hlm Hc; rewrite app_nil_r; [by apply setmethods_ok|].
        rewrite take_0. by cbn.
Qed.

Lemma answer_ok st l i owner ls order partial mem_ok ncache cctx cap m countp :
  rds_yields st l → attr_set i DNS_RDATASETATTR_QUESTION = false →
  attr_set i DNS_RDATASETATTR_NEGATIVE = false → Forall rd_ok l →
  name_ok owner ls → ctx_ok m cctx → length m <= cap → (Z.of_nat cap < 2 ^ 16)%Z →
  ∃ items r y cctx' cnt, shown i order mem_ok l items ∧
    towiresorted st i owner order partial mem_ok ncache cctx cap m countp =
      Some ((r, m ++ y, cctx'), cnt) ∧
    length (m ++ y) <= cap ∧ ctx_ok (m ++ y) cctx' ∧
    (r = ISC_R_SUCCESS ∧ cnt = countp + length l ∧
       rrs_at (sensitive cctx) (m ++ y) (length m) ls i items (length (m ++ y)) ∨
     r = ISC_R_NOSPACE ∧ partial = true ∧
       (∃ k, k < length l ∧ cnt = countp + k ∧
          rrs_at (sensitive cctx) (m ++ y) (length m) ls i (take k items) (length (m ++ y))) ∨
     r = ISC_R_NOSPACE ∧ partial = false ∧ y = [] ∧ cnt = 0 ∧
       cctx' = dns_compress_setmethods cctx true).
Proof.
  intros Hy Hq Hneg Hrd Hn Hc Hm Hcap.
  destruct (answer_writes st l i owner ls order partial mem_ok cctx cap (length m))
    as (items & r & y & c' & cnt & Hs & Hl & Hw & [_ Hctx Hres Hat]); [done..|by exists m|].
  exists items, r, y, c', (if bool_decide (r = ISC_R_SUCCESS) || partial then countp + cnt else 0).
  rewrite length_app. split_and!; [done|by apply Hw|done|by apply Hctx|]. specialize (Hat m eq_refl Hc).
  destruct Hres as [[-> ->]|[(-> & -> & Hlt)|(-> & -> & _ & -> & -> & ->)]].
  - left. rewrite bool_decide_true by done. split_and!; [done..|].
    by rewrite take_ge in Hat by (by rewrite (shown_perm _ _ _ _ _ Hs)).
  - right; left. split_and!; [done..|]. exists cnt. by rewrite orb_true_r.
  - right; right. done.
Qed.

End answer.

(** ** Address records *)

(** The dispatch sends the type A of class IN to [towire_in_a]. *)
Class DispatchA `{TowireSwitch} :=
  dispatch_a : ∀ rd cctx cap m,
    rd_type rd = dns_rdatatype_a → rd_class rd = dns_rdataclass_in →
    towire_switch rd cctx cap m = (w ← towire_in_a rd cctx cap m; Some (Some w)).

(** A writer that copies the data as they are. *)
Definition copies (rd : rdata) (cctx : compress) (cap : nat) (m : mem) : written :=
  if bool_decide (cap - length m < length (rd_data rd)) then (ISC_R_NOSPACE, m, cctx)
  else (ISC_R_SUCCESS, m ++ rd_data rd, cctx).

(** It keeps the promise. *)
Lemma copies_ok `{TowireSwitch, Alloc} rd cctx cap n :
  (∀ m, towire_switch rd cctx cap m = Some (Some (copies rd cctx cap m))) → n <= cap →
  ∃ res x cctx',
    (∀ m, length m = n → towire_switch rd cctx cap m = Some (Some (res, m ++ x, cctx'))) ∧
    n + length x <= cap ∧ grown (Z.of_nat n) cctx cctx' ∧
    (res = ISC_R_SUCCESS ∧ x = rd_data rd ∧ (∀ m, length m = n → ctx_ok m cctx → ctx_ok (m ++ x) cctx') ∨
     res = ISC_R_NOSPACE).
Proof.
  intros Hs Hn. destruct (decide (cap - n < length (rd_data rd))) as [Hlt|Hge].
  - exists ISC_R_NOSPACE, [], cctx. split_and!; [|cbn; lia|apply grown_refl|by right].
    intros m <-. by rewrite Hs, app_nil_r; unfold copies; rewrite bool_decide_true.
  - exists ISC_R_SUCCESS, (rd_data rd), cctx. split_and!; [|lia|apply grown_refl|left].
    + intros m <-. by rewrite Hs; unfold copies; rewrite bool_decide_false.
    + split_and!; [done..|]. intros m _ Hcm. by apply ctx_ok_app.
Qed.

(** The writer of addresses keeps the promise: the address is in the message
    as it is. *)
#[export] Program Instance a_towire_ok `{DispatchA, Alloc} : TowireOk := {|
  rdata_wf rd := rd_type rd = dns_rdatatype_a ∧ rd_class rd = dns_rdataclass_in ∧
                 length (rd_data rd) = 4;
  renders rd x := x = rd_data rd |}.
Next Obligation. done. Qed.
Next Obligation.
  intros ??? rd cctx cap n (Ht & Hc & Hl) Hn Hcap _. right. apply copies_ok; [|done].
  intros m. rewrite dispatch_a by done. unfold towire_in_a, copies.
  rewrite (bool_decide_true (_ ∧ _)) by done. by case_bool_decide.
Qed.

(** A dispatch with no other type's function. *)
Definition only_a : TowireSwitch := λ rd cctx cap m,
  if bool_decide (rd_type rd = dns_rdatatype_a ∧ rd_class rd = dns_rdataclass_in)
  then w ← towire_in_a rd cctx cap m; Some (Some w) else Some None.

Lemma only_a_dispatch : @DispatchA only_a.
Proof. intros rd cctx cap m Ht Hc. unfold towire_switch, only_a. by rewrite bool_decide_true. Qed.
