(* ===== verification/Message.v ===== *)
(** * Messages

    [struct dns_message] of [lib/dns/include/dns/message.h] and the functions
    of [lib/dns/message.c] that both parsing and rendering use: creation,
    reset, the search for names and rdatasets, the header; with the lists of
    records of [lib/dns/rdatalist.c].

    A section is the list of its names, a name has the list of its rdatasets;
    both belong to one list at a time in the code, so that they are values
    here. The pools from which names and rdatasets come are counters of what
    is allocated, since [dns_message_reset] asserts that all is given back.
    Parsed names and records keep pointing into scratch buffers, which grow
    and are never rewritten; the state has the room left in the last of them.
    The free lists of rdata and rdatalists, to which only callers return, and
    the cursors of the sections are not modelled, nor are TSIG keys. *)
From S2P Require Import Prelude Qsort Rdata Name FromWire Compress Slab RbtdbRdataset Order Answer.

(** ** Constants *)

Definition dns_rdatatype_sig : Z := 24.
Definition dns_rdatatype_aaaa : Z := 28.
Definition dns_rdatatype_opt : Z := 41.
Definition dns_rdatatype_dnskey : Z := 48.
Definition dns_rdatatype_tkey : Z := 249.
Definition dns_rdatatype_tsig : Z := 250.
Definition dns_rdataclass_none : Z := 254.

Definition dns_opcode_query : Z := 0.
Definition dns_opcode_notify : Z := 4.
Definition dns_opcode_update : Z := 5.

Definition DNS_SECTION_ANY : Z := -1.
Definition DNS_SECTION_QUESTION : nat := 0.
Definition DNS_SECTION_ANSWER : nat := 1.
Definition DNS_SECTION_AUTHORITY : nat := 2.
Definition DNS_SECTION_ADDITIONAL : nat := 3.
Definition DNS_SECTION_MAX : nat := 4.
Definition DNS_SECTION_PREREQUISITE : nat := DNS_SECTION_ANSWER.
Definition DNS_SECTION_UPDATE : nat := DNS_SECTION_AUTHORITY.

Definition DNS_MESSAGEFLAG_QR : Z := 0x8000.
Definition DNS_MESSAGEFLAG_TC : Z := 0x0200.
Definition DNS_MESSAGEFLAG_AD : Z := 0x0020.
Definition DNS_MESSAGE_REPLYPRESERVE : Z := Z.lor 0x0100 0x0010.

Definition DNS_MESSAGE_HEADERLEN : nat := 12.
Definition DNS_MESSAGE_OPCODE_MASK : Z := 0x7800.
Definition DNS_MESSAGE_OPCODE_SHIFT : Z := 11.
Definition DNS_MESSAGE_RCODE_MASK : Z := 0x000f.
Definition DNS_MESSAGE_FLAG_MASK : Z := 0x8ff0.
Definition DNS_MESSAGE_EDNSRCODE_MASK : Z := 0xff000000.

Definition DNS_MESSAGE_INTENTPARSE : Z := 1.
Definition DNS_MESSAGE_INTENTRENDER : Z := 2.

Definition DNS_RDATASETATTR_RENDERED : Z := 0x00000002.
Definition DNS_RDATASETATTR_TTLADJUSTED : Z := 0x00000200.
Definition DNS_RDATASETATTR_REQUIREDGLUE : Z := 0x00010000.
Definition DNS_RDATASETATTR_OPTOUT : Z := 0x00100000.

Definition SCRATCHPAD_SIZE : nat := 512.

(** ** Lists of records *)

(** A rdataset made by [dns_rdatalist_tordataset]: the records and the
    cursor, [private2]. *)
Record rdatalist := Rdatalist { rl_type : Z; rl_rdata : list rdata; rl_cursor : option nat }.

Definition isc__rdatalist_first (r : rdatalist) : isc_result * rdatalist :=
  match rl_rdata r with
  | [] => (ISC_R_NOMORE, Rdatalist (rl_type r) (rl_rdata r) None)
  | _ => (ISC_R_SUCCESS, Rdatalist (rl_type r) (rl_rdata r) (Some 0))
  end.

Definition isc__rdatalist_next (r : rdatalist) : isc_result * rdatalist :=
  match rl_cursor r with
  | None => (ISC_R_NOMORE, r)
  | Some i =>
      if bool_decide (S i < length (rl_rdata r))
      then (ISC_R_SUCCESS, Rdatalist (rl_type r) (rl_rdata r) (Some (S i)))
      else (ISC_R_NOMORE, Rdatalist (rl_type r) (rl_rdata r) None)
  end.

Definition isc__rdatalist_current (r : rdatalist) : option rdata :=
  i ← rl_cursor r; rl_rdata r !! i.

Definition isc__rdatalist_count (r : rdatalist) : Z := Z.of_nat (length (rl_rdata r)).

Definition rdatalist_methods : RdatasetMethods rdatalist := {|
  dns_rdataset_count r := Some (isc__rdatalist_count r);
  dns_rdataset_first r := Some (isc__rdatalist_first r);
  dns_rdataset_next r := Some (isc__rdatalist_next r);
  dns_rdataset_current r := isc__rdatalist_current r;
  dns_rdataset_type r := rl_type r |}.

(** The methods yield the records in the order of the list. *)
Lemma rdatalist_from t l i :
  i < length l → @rds_from _ rdatalist_methods ISC_R_SUCCESS (Rdatalist t l (Some i)) (drop i l).
Proof.
  remember (length l - i) as k eqn:Hk. revert i Hk. induction k as [|k IH]; intros i Hk Hi; [lia|].
  destruct (lookup_lt_is_Some_2 l i Hi) as [r Hr]. rewrite (drop_S l r i Hr).
  destruct (decide (S i < length l)) as [Hlt|Hge].
  - eapply (@rds_more _ rdatalist_methods); [exact Hr| |apply (IH (S i)); lia].
    cbn. unfold isc__rdatalist_next. cbn. by rewrite bool_decide_true.
  - rewrite (drop_ge l (S i)) by lia.
    eapply (@rds_more _ rdatalist_methods); [exact Hr| |apply rds_nomore].
    cbn. unfold isc__rdatalist_next. cbn. by rewrite bool_decide_false.
Qed.

(** ** The message *)

Section Data.
Context {St : Type}.

(** [struct dns_rdataset] as a message has it; [rr_state] is the state of its
    iterator. *)
Record rrset := Rrset { rr_info : rds_info; rr_covers : Z; rr_trust : Z; rr_state : St }.

(** A name of a section with its [list]. *)
Record mname := Mname { mn_name : name; mn_list : list rrset }.

Record header := Header { id : Z; flags : Z; rcode : Z; opcode : Z }.

(** What is allocated: [asked] counts the requests made to the allocator,
    [scratch] is the room in the current scratch buffer. *)
Record pools := Pools { asked : nat; scratch : nat; names_out : Z; rds_out : Z }.

(** The part of the message for rendering: the buffer is the bytes used and
    the length. *)
Record render := Render {
  opt_reserved : Z; sig_reserved : Z; reserved : Z; buffer : option (mem * nat); cctx : compress }.

Record message := Message {
  m_header : header; m_rdclass : Z; m_counts : list Z; m_sections : list (list mname);
  m_opt : option rrset; m_sig0 : option rrset; m_sig0name : option name;
  m_tsig : option rrset; m_tsigname : option name; m_querytsig : option rrset; m_state : Z; m_intent : Z; m_sigstart : Z;
  m_header_ok : bool; m_question_ok : bool; m_saved : option mem; m_query : option mem;
  m_pools : pools; m_render : render }.

Definition set_header (m : message) x := Message x (m_rdclass m) (m_counts m) (m_sections m) (m_opt m)
  (m_sig0 m) (m_sig0name m) (m_tsig m) (m_tsigname m) (m_querytsig m) (m_state m) (m_intent m) (m_sigstart m) (m_header_ok m)
  (m_question_ok m) (m_saved m) (m_query m) (m_pools m) (m_render m).
Definition set_class (m : message) rdclass state := Message (m_header m) rdclass (m_counts m) (m_sections m) (m_opt m)
  (m_sig0 m) (m_sig0name m) (m_tsig m) (m_tsigname m) (m_querytsig m) state (m_intent m) (m_sigstart m) (m_header_ok m)
  (m_question_ok m) (m_saved m) (m_query m) (m_pools m) (m_render m).
Definition set_counts (m : message) x := Message (m_header m) (m_rdclass m) x (m_sections m) (m_opt m)
  (m_sig0 m) (m_sig0name m) (m_tsig m) (m_tsigname m) (m_querytsig m) (m_state m) (m_intent m) (m_sigstart m) (m_header_ok m)
  (m_question_ok m) (m_saved m) (m_query m) (m_pools m) (m_render m).
Definition set_sections (m : message) x := Message (m_header m) (m_rdclass m) (m_counts m) x (m_opt m)
  (m_sig0 m) (m_sig0name m) (m_tsig m) (m_tsigname m) (m_querytsig m) (m_state m) (m_intent m) (m_sigstart m) (m_header_ok m)
  (m_question_ok m) (m_saved m) (m_query m) (m_pools m) (m_render m).
Definition set_opt (m : message) x := Message (m_header m) (m_rdclass m) (m_counts m) (m_sections m) x
  (m_sig0 m) (m_sig0name m) (m_tsig m) (m_tsigname m) (m_querytsig m) (m_state m) (m_intent m) (m_sigstart m) (m_header_ok m)
  (m_question_ok m) (m_saved m) (m_query m) (m_pools m) (m_render m).
Definition set_sig0 (m : message) x xn := Message (m_header m) (m_rdclass m) (m_counts m) (m_sections m) (m_opt m)
  x xn (m_tsig m) (m_tsigname m) (m_querytsig m) (m_state m) (m_intent m) (m_sigstart m) (m_header_ok m)
  (m_question_ok m) (m_saved m) (m_query m) (m_pools m) (m_render m).
Definition set_tsig (m : message) x xn q := Message (m_header m) (m_rdclass m) (m_counts m) (m_sections m) (m_opt m)
  (m_sig0 m) (m_sig0name m) x xn q (m_state m) (m_intent m) (m_sigstart m) (m_header_ok m)
  (m_question_ok m) (m_saved m) (m_query m) (m_pools m) (m_render m).
Definition set_sigstart (m : message) x := Message (m_header m) (m_rdclass m) (m_counts m) (m_sections m) (m_opt m)
  (m_sig0 m) (m_sig0name m) (m_tsig m) (m_tsigname m) (m_querytsig m) (m_state m) (m_intent m) x (m_header_ok m)
  (m_question_ok m) (m_saved m) (m_query m) (m_pools m) (m_render m).
Definition set_ok (m : message) h q := Message (m_header m) (m_rdclass m) (m_counts m) (m_sections m) (m_opt m)
  (m_sig0 m) (m_sig0name m) (m_tsig m) (m_tsigname m) (m_querytsig m) (m_state m) (m_intent m) (m_sigstart m) h
  q (m_saved m) (m_query m) (m_pools m) (m_render m).
Definition set_saved (m : message) sv qu := Message (m_header m) (m_rdclass m) (m_counts m) (m_sections m) (m_opt m)
  (m_sig0 m) (m_sig0name m) (m_tsig m) (m_tsigname m) (m_querytsig m) (m_state m) (m_intent m) (m_sigstart m) (m_header_ok m)
  (m_question_ok m) sv qu (m_pools m) (m_render m).
Definition set_pools (m : message) x := Message (m_header m) (m_rdclass m) (m_counts m) (m_sections m) (m_opt m)
  (m_sig0 m) (m_sig0name m) (m_tsig m) (m_tsigname m) (m_querytsig m) (m_state m) (m_intent m) (m_sigstart m) (m_header_ok m)
  (m_question_ok m) (m_saved m) (m_query m) x (m_render m).
Definition set_render (m : message) intent x := Message (m_header m) (m_rdclass m) (m_counts m) (m_sections m) (m_opt m)
  (m_sig0 m) (m_sig0name m) (m_tsig m) (m_tsigname m) (m_querytsig m) (m_state m) intent (m_sigstart m) (m_header_ok m)
  (m_question_ok m) (m_saved m) (m_query m) (m_pools m) x.
End Data.
Arguments rrset : clear implicits.
Arguments mname : clear implicits.
Arguments message : clear implicits.

Section Operations.
Context {St : Type} (mem_get : nat → bool).
Implicit Types (msg : message St).

(** A request to the allocator. *)
Definition ask msg : bool * message St :=
  let p := m_pools msg in
  (mem_get (asked p), set_pools msg (Pools (S (asked p)) (scratch p) (names_out p) (rds_out p))).

Definition put_names msg (n : nat) : message St :=
  let p := m_pools msg in
  set_pools msg (Pools (asked p) (scratch p) (names_out p - Z.of_nat n) (rds_out p)).
Definition put_rds msg (n : nat) : message St :=
  let p := m_pools msg in
  set_pools msg (Pools (asked p) (scratch p) (names_out p) (rds_out p - Z.of_nat n)).
Definition set_scratch msg (n : nat) : message St :=
  let p := m_pools msg in set_pools msg (Pools (asked p) n (names_out p) (rds_out p)).

(** [isc_mempool_get] *)
Definition get_name msg : bool * message St :=
  let '(ok, msg) := ask msg in
  (ok, if ok then let p := m_pools msg in
                  set_pools msg (Pools (asked p) (scratch p) (names_out p + 1) (rds_out p)) else msg).
Definition get_rds msg : bool * message St :=
  let '(ok, msg) := ask msg in
  (ok, if ok then let p := m_pools msg in
                  set_pools msg (Pools (asked p) (scratch p) (names_out p) (rds_out p + 1)) else msg).

(** [newbuffer] *)
Definition newbuffer msg (size : nat) : isc_result * message St :=
  let '(ok, msg) := ask msg in
  if ok then (ISC_R_SUCCESS, set_scratch msg size) else (ISC_R_NOMEMORY, msg).

(** ** Creation and reset *)

Definition init_render (r : render) : render := Render 0 0 0 None (cctx r).

(** [msginitprivate] *)
Definition msginitprivate msg : message St :=
  Message (m_header msg) (m_rdclass msg) (replicate DNS_SECTION_MAX 0%Z) (m_sections msg) None None None None None
    (m_querytsig msg) DNS_SECTION_ANY (m_intent msg) (m_sigstart msg) (m_header_ok msg) (m_question_ok msg)
    (m_saved msg) (m_query msg) (m_pools msg) (init_render (m_render msg)).

(** [msginit], with [msginitheader], [msginitprivate] and [msginittsig] *)
Definition msginit msg : message St :=
  let msg := msginitprivate msg in
  Message (Header 0 0 0 0) 0 (m_counts msg) (m_sections msg) (m_opt msg) (m_sig0 msg) (m_sig0name msg) (m_tsig msg)
    (m_tsigname msg) None (m_state msg) (m_intent msg) (-1) false false None None (m_pools msg) (m_render msg).

(** [dns_message_create]; the compression context is [NULL] in the code
    until a rendering begins. *)
Definition dns_message_create (intent : Z) (cctx0 : compress) : isc_result * option (message St) :=
  let msg := msginit (Message (Header 0 0 0 0) 0 [] (replicate DNS_SECTION_MAX []) None None None None None None 0
    intent 0 false false None None (Pools 0 0 0 0) (Render 0 0 0 None cctx0)) in
  let '(ok, msg) := ask msg in
  if negb ok then (ISC_R_NOMEMORY, None) else
  let '(ok, msg) := ask msg in
  if negb ok then (ISC_R_NOMEMORY, None) else
  let '(ok, msg) := ask msg in
  if negb ok then (ISC_R_NOMEMORY, None) else
  let '(result, msg) := newbuffer msg SCRATCHPAD_SIZE in
  if bool_decide (result ≠ ISC_R_SUCCESS) then (ISC_R_NOMEMORY, None) else (ISC_R_SUCCESS, Some msg).

Definition count_rds (ns : list (mname St)) : nat := length (mjoin (mn_list <$> ns)).

(** [msgresetnames] *)
Definition msgresetnames msg (first_section : nat) : message St :=
  let gone := mjoin (drop first_section (m_sections msg)) in
  let msg := put_rds (put_names msg (length gone)) (count_rds gone) in
  set_sections msg (take first_section (m_sections msg) ++
                    replicate (length (m_sections msg) - first_section) []).

(** [dns_message_renderrelease] *)
Definition dns_message_renderrelease msg (space : Z) : option (message St) :=
  let r := m_render msg in
  if bool_decide (space <= reserved r)%Z then
    Some (set_render msg (m_intent msg)
      (Render (opt_reserved r) (sig_reserved r) (u32 (reserved r - space)) (buffer r) (cctx r)))
  else None.

Definition set_reserved msg (opt sig : Z) : message St :=
  let r := m_render msg in
  set_render msg (m_intent msg) (Render opt sig (reserved r) (buffer r) (cctx r)).

(** [msgresetopt] *)
Definition msgresetopt msg : option (message St) :=
  match m_opt msg with
  | None => Some msg
  | Some _ =>
      let r := m_render msg in
      msg ← (if bool_decide (0 < opt_reserved r)%Z then
               msg ← dns_message_renderrelease msg (opt_reserved r);
               Some (set_reserved msg 0 (sig_reserved r))
             else Some msg);
      Some (set_opt (put_rds msg 1) None)
  end.

(** [msgresetsigs] *)
Definition msgresetsigs msg (replying : bool) : option (message St) :=
  let r := m_render msg in
  msg ← (if bool_decide (0 < sig_reserved r)%Z then
           msg ← dns_message_renderrelease msg (sig_reserved r);
           Some (set_reserved msg (opt_reserved r) 0)
         else Some msg);
  msg ← (match m_tsig msg with
         | Some tsig =>
             '(msg, querytsig) ←
               (if replying then
                  if bool_decide (is_Some (m_querytsig msg)) then None else Some (msg, Some tsig)
                else match m_querytsig msg with
                     | Some _ => Some (put_rds msg 2, m_querytsig msg)
                     | None => Some (put_rds msg 1, None)
                     end);
             _ ← m_tsigname msg;
             Some (set_tsig (put_names msg 1) None None querytsig)
         | None =>
             match m_querytsig msg with
             | Some _ => if replying then Some msg
                         else Some (set_tsig (put_rds msg 1) None (m_tsigname msg) None)
             | None => Some msg
             end
         end);
  match m_sig0 msg with
  | Some _ =>
      let msg := put_rds msg 1 in
      let msg := match m_sig0name msg with Some _ => put_names msg 1 | None => msg end in
      Some (set_sig0 msg None None)
  | None => Some msg
  end.

(** [msgreset]; the assertion is that the pools have all back. *)
Definition msgreset msg (everything : bool) : option (message St) :=
  let msg := msgresetnames msg 0 in
  msg ← msgresetopt msg;
  msg ← msgresetsigs msg false;
  let msg := set_scratch msg SCRATCHPAD_SIZE in
  let msg := set_saved msg None None in
  let msg := if everything then msg else msginit msg in
  if bool_decide (names_out (m_pools msg) = 0%Z ∧ rds_out (m_pools msg) = 0%Z) then Some msg else None.

Definition dns_message_reset msg (intent : Z) : option (message St) :=
  if bool_decide (intent = DNS_MESSAGE_INTENTPARSE ∨ intent = DNS_MESSAGE_INTENTRENDER) then
    msg ← msgreset msg false; Some (set_render msg intent (m_render msg))
  else None.

(** What is left of the message is given back to the allocator. *)
Definition dns_message_destroy msg : option (message St) := msgreset msg true.

(** ** Searching a section *)

(** [findname]: the last name of the section that is equal, by its place. *)
Fixpoint findname (target : name) (section : list (mname St)) : option (option nat) :=
  match section with
  | [] => Some None
  | curr :: section =>
      later ← findname target section;
      match later with
      | Some i => Some (Some (S i))
      | None => eq ← dns_name_equal (mn_name curr) target; Some (if eq : bool then Some 0 else None)
      end
  end.

(** [dns_message_find] and [dns_message_findtype]: the last that fits. *)
Fixpoint find_rrset (fits : rrset St → bool) (l : list (rrset St)) : option nat :=
  match l with
  | [] => None
  | curr :: l => match find_rrset fits l with
                 | Some i => Some (S i)
                 | None => if fits curr then Some 0 else None
                 end
  end.

Definition dns_message_find (n : mname St) (rdclass type covers : Z) : option nat :=
  find_rrset (λ curr, bool_decide (ri_rdclass (rr_info curr) = rdclass) &&
    bool_decide (ri_type (rr_info curr) = type) && bool_decide (rr_covers curr = covers)) (mn_list n).

Definition dns_message_findtype (n : mname St) (type covers : Z) : option nat :=
  find_rrset (λ curr, bool_decide (ri_type (rr_info curr) = type) && bool_decide (rr_covers curr = covers))
    (mn_list n).

(** [dns_message_findname]: the places of the name and of the rdataset. *)
Definition dns_message_findname msg (section : nat) (target : name) (type covers : Z)
    : option (isc_result * option nat * option nat) :=
  s ← m_sections msg !! section;
  i ← findname target s;
  match i with
  | None => Some (DNS_R_NXDOMAIN, None, None)
  | Some i =>
      if bool_decide (type = dns_rdatatype_any) then Some (ISC_R_SUCCESS, Some i, None)
      else
        n ← s !! i;
        match dns_message_findtype n type covers with
        | None => Some (DNS_R_NXRRSET, Some i, None)
        | Some k => Some (ISC_R_SUCCESS, Some i, Some k)
        end
  end.

(** ** The reply *)

(** [dns_message_reply] of a message without a TSIG key *)
Definition dns_message_reply msg (want_question_section : bool) : option (isc_result * message St) :=
  if bool_decide (Z.land (flags (m_header msg)) DNS_MESSAGEFLAG_QR = 0%Z) then
    if negb (m_header_ok msg) then Some (DNS_R_FORMERR, msg)
    else
      let op := opcode (m_header msg) in
      let want := if bool_decide (op ≠ dns_opcode_query ∧ op ≠ dns_opcode_notify) then false
                  else want_question_section in
      if negb (bool_decide (op = dns_opcode_update)) && want && negb (m_question_ok msg)
      then Some (DNS_R_FORMERR, msg)
      else
        let clear_after := if bool_decide (op = dns_opcode_update) then DNS_SECTION_PREREQUISITE
                           else if want then DNS_SECTION_ANSWER else DNS_SECTION_QUESTION in
        let msg := set_render msg DNS_MESSAGE_INTENTRENDER (m_render msg) in
        let msg := msgresetnames msg clear_after in
        msg ← msgresetopt msg;
        msg ← msgresetsigs msg true;
        let msg := msginitprivate msg in
        let h := m_header msg in
        let msg := set_header msg (Header (id h)
          (Z.lor (Z.land (flags h) DNS_MESSAGE_REPLYPRESERVE) DNS_MESSAGEFLAG_QR) (rcode h) (opcode h)) in
        Some (ISC_R_SUCCESS, match m_saved msg with
                             | Some saved => set_saved msg None (Some saved)
                             | None => msg
                             end)
  else None.
End Operations.

(** [dns_message_peekheader]: the id and the flags. *)
Definition dns_message_peekheader (source : mem) (pos : nat) : option (isc_result * option (Z * Z)) :=
  if bool_decide (length source - pos < DNS_MESSAGE_HEADERLEN) then Some (ISC_R_UNEXPECTEDEND, None)
  else
    id ← rd16 source pos; flags ← rd16 source (pos + 2);
    Some (ISC_R_SUCCESS, Some (id, Z.land flags DNS_MESSAGE_FLAG_MASK)).
