(* ===== verification/Opt.v ===== *)
(** * OPT records

    [lib/dns/rdata/generic/opt_41.c]: an OPT record's rdata is a list of
    options, each a code, a length and so many bytes; it is written as it is.
    [options_ok] is the grammar that [fromwire_opt] checks. *)
From S2P Require Import Prelude Qsort Rdata Name FromWire Compress Slab RbtdbRdataset Order Answer Message.

(** [mem_tobuffer] of [lib/dns/rdata.c] *)
Definition mem_tobuffer (cap : nat) (m : mem) (base : list Z) : isc_result * mem :=
  if bool_decide (cap - length m < length base) then (ISC_R_NOSPACE, m) else (ISC_R_SUCCESS, m ++ base).

Definition towire_opt (rdata : rdata) (cctx : compress) (cap : nat) (m : mem) : option written :=
  if bool_decide (rd_type rdata = dns_rdatatype_opt) then
    let '(result, m) := mem_tobuffer cap m (rd_data rdata) in Some (result, m, cctx)
  else None.

(** [while (sregion.length != 0)]: [total], unless the options end early;
    [n] bytes remain at [p]. *)
Fixpoint opt_loop (fuel : nat) (source : mem) (p n total : nat) : option (isc_result + nat) :=
  if bool_decide (n = 0) then Some (inr total)
  else
    match fuel with
    | O => None
    | S fuel =>
        if bool_decide (n < 4) then Some (inl ISC_R_UNEXPECTEDEND)
        else
          len ← rd16 source (p + 2);
          if bool_decide (n - 4 < Z.to_nat len) then Some (inl ISC_R_UNEXPECTEDEND)
          else opt_loop fuel source (p + 4 + Z.to_nat len) (n - 4 - Z.to_nat len) (total + 4 + Z.to_nat len)
    end.

Definition fromwire_opt (type : Z) (source : mem) (pos active avail : nat) : option (isc_result * nat * list Z) :=
  if bool_decide (type = dns_rdatatype_opt) then
    r ← opt_loop (active - pos) source pos (active - pos) 0;
    match r with
    | inl e => Some (e, pos, [])
    | inr total =>
        if bool_decide (avail < total) then Some (ISC_R_NOSPACE, pos, [])
        else x ← mread source pos total; Some (ISC_R_SUCCESS, pos + total, x)
    end
  else None.

(** ** The grammar *)

Inductive options_ok : list Z → Prop :=
  | options_nil : options_ok []
  | options_cons code x l :
      (0 <= code < 2 ^ 16)%Z → (Z.of_nat (length x) < 2 ^ 16)%Z → options_ok l →
      options_ok (enc16 code ++ enc16 (Z.of_nat (length x)) ++ x ++ l).

Lemma opt_loop_ok source p n x fuel total :
  mread source p n = Some x → options_ok x → n <= fuel → opt_loop fuel source p n total = Some (inr (total + n)).
Proof.
  intros Hr Hx. revert p n fuel total Hr. induction Hx as [|code x l Hc Hl _ IH]; intros p n fuel total Hr Hf;
    pose proof (mread_length _ _ _ _ Hr) as Hn.
  { cbn in Hn. subst n. destruct fuel; cbn; by rewrite Nat.add_0_r. }
  rewrite !length_app, !enc16_length in Hn. destruct fuel as [|fuel]; [lia|]. cbn [opt_loop].
  rewrite bool_decide_false, bool_decide_false by lia.
  assert (mread source p n = Some (enc16 code ++ enc16 (Z.of_nat (length x)) ++ x ++ l)) as Hr' by done.
  pose proof (mread_sub _ _ _ _ 2 2 Hr ltac:(lia)) as H2.
  replace (take 2 (drop 2 (enc16 code ++ enc16 (Z.of_nat (length x)) ++ x ++ l)))
    with (enc16 (Z.of_nat (length x))) in H2 by done.
  assert (rd16 source (p + 2) = Some (Z.of_nat (length x))) as ->.
  { unfold rd16. pose proof (mread_lookup _ _ _ _ 0 H2 ltac:(lia)) as L0. pose proof (mread_lookup _ _ _ _ 1 H2 ltac:(lia)) as L1.
    rewrite Nat.add_0_r in L0. rewrite <- L0, <- L1, enc16_arith. cbn. by rewrite dec16_enc16 by lia. }
  cbn [mbind option_bind]. rewrite Nat2Z.id, bool_decide_false by lia.
  pose proof (mread_sub _ _ _ _ (4 + length x) (length l) Hr ltac:(lia)) as H3.
  replace (take (length l) (drop (4 + length x) (enc16 code ++ enc16 (Z.of_nat (length x)) ++ x ++ l))) with l in H3.
  2:{ rewrite enc16_arith, enc16_arith. cbn. by rewrite drop_app_length, take_ge. }
  rewrite Nat.add_assoc in H3. replace (n - 4 - length x) with (length l) by lia.
  rewrite (IH (p + 4 + length x)) by (done || lia). do 2 f_equal. lia.
Qed.

Lemma fromwire_opt_ok source p n x avail :
  mread source p n = Some x → options_ok x → n <= avail →
  fromwire_opt dns_rdatatype_opt source p (p + n) avail = Some (ISC_R_SUCCESS, p + n, x).
Proof.
  intros Hr Hx Ha. unfold fromwire_opt. rewrite bool_decide_true by done.
  replace (p + n - p) with n by lia. rewrite (opt_loop_ok source p n x) by done. cbn [mbind option_bind Nat.add].
  by rewrite bool_decide_false, Hr by lia.
Qed.
