(* ===== verification/MessageRender.v ===== *)
(** * Rendering messages

    The functions of [lib/dns/message.c] with which a caller fills a message
    and renders it: names and rdatasets from the pools, the reserved space,
    [dns_message_renderbegin], [dns_message_rendersection] with its passes
    over the additional section, [dns_message_renderend] and the header. The
    rdatasets are rendered by [towiresorted] of [Answer.v].

    The buffer of a message being rendered is the bytes used and its length.
    [dns_message_rendersection] shortens the buffer by the reserved space
    while it renders: a length below what is used is a broken buffer, in which
    writers do not see where they must stop.

    Parameters: [order] is the message's order function with its argument;
    [arrays] tells whether [towiresorted] can allocate its arrays for a large
    rdataset; [ncache] stands for [dns_ncache_towire]. Messages with TSIG or
    SIG(0) keys are not modelled. *)
From S2P Require Import Prelude Qsort Rdata Name FromWire Compress Slab RbtdbRdataset Order Answer Message.

Definition DNS_MESSAGERENDER_ORDERED : Z := 0x0001.
Definition DNS_MESSAGERENDER_PARTIAL : Z := 0x0002.
Definition DNS_MESSAGERENDER_OMITDNSSEC : Z := 0x0004.
Definition DNS_MESSAGERENDER_PREFER_A : Z := 0x0008.
Definition DNS_MESSAGERENDER_PREFER_AAAA : Z := 0x0010.

Definition DNS_RDATASETTOWIRE_OMITDNSSEC : Z := 0x0001.
Definition dns_trust_secure : Z := 8.

Definition flag_set (flags f : Z) : bool := bool_decide (Z.land flags f ≠ 0%Z).

(** ** Filling a message *)

Section Fill.
Context {St : Type} (mem_get : nat → bool).
Implicit Types (msg : message St).

Definition set_buffer msg (b : option (mem * nat)) : message St :=
  let r := m_render msg in
  set_render msg (m_intent msg) (Render (opt_reserved r) (sig_reserved r) (reserved r) b (cctx r)).
Definition set_space msg (space : Z) : message St :=
  let r := m_render msg in
  set_render msg (m_intent msg) (Render (opt_reserved r) (sig_reserved r) space (buffer r) (cctx r)).
Definition set_cctx msg (c : compress) : message St :=
  let r := m_render msg in
  set_render msg (m_intent msg) (Render (opt_reserved r) (sig_reserved r) (reserved r) (buffer r) c).

Definition dns_message_gettempname msg : isc_result * message St :=
  let '(ok, msg) := get_name mem_get msg in (if ok then ISC_R_SUCCESS else ISC_R_NOMEMORY, msg).
Definition dns_message_gettemprdataset msg : isc_result * message St :=
  let '(ok, msg) := get_rds mem_get msg in (if ok then ISC_R_SUCCESS else ISC_R_NOMEMORY, msg).
Definition dns_message_puttempname msg : message St := put_names msg 1.

(** [associated] is whether the rdataset has its methods. *)
Definition dns_message_puttemprdataset msg (associated : bool) : option (message St) :=
  if associated then None else Some (put_rds msg 1).

(** A name with its rdatasets at the end of a section. *)
Definition dns_message_addname msg (n : mname St) (section : nat) : option (message St) :=
  if bool_decide (m_intent msg = DNS_MESSAGE_INTENTRENDER ∧ section < DNS_SECTION_MAX)
  then Some (set_sections msg (alter (λ l, l ++ [n]) section (m_sections msg))) else None.

(** The name at a place of a section. *)
Definition dns_message_removename msg (i section : nat) : option (message St) :=
  if bool_decide (m_intent msg = DNS_MESSAGE_INTENTRENDER ∧ section < DNS_SECTION_MAX) then
    l ← m_sections msg !! section; _ ← l !! i;
    Some (set_sections msg (<[section := delete i l]> (m_sections msg)))
  else None.

Definition dns_message_movename msg (i fromsection tosection : nat) : option (message St) :=
  if bool_decide (tosection < DNS_SECTION_MAX) then
    l ← m_sections msg !! fromsection; n ← l !! i;
    msg ← dns_message_removename msg i fromsection;
    dns_message_addname msg n tosection
  else None.

(** ** The buffer *)

(** [base] is the bytes of the caller's buffer, from its start to its end. *)
Definition dns_message_renderbegin msg (cctx0 : compress) (base : mem) : option (isc_result * message St) :=
  if bool_decide (buffer (m_render msg) = None ∧ m_intent msg = DNS_MESSAGE_INTENTRENDER) then
    let msg := set_cctx msg cctx0 in
    if bool_decide (length base < DNS_MESSAGE_HEADERLEN) then Some (ISC_R_NOSPACE, msg)
    else if bool_decide (Z.of_nat (length base) < reserved (m_render msg))%Z then Some (ISC_R_NOSPACE, msg)
    else Some (ISC_R_SUCCESS, set_buffer msg (Some (take DNS_MESSAGE_HEADERLEN base, length base)))
  else None.

Definition dns_message_renderchangebuffer msg (base : mem) : option (isc_result * message St) :=
  '(used, _) ← buffer (m_render msg);
  if bool_decide (length used < length base)
  then Some (ISC_R_SUCCESS, set_buffer msg (Some (used, length base))) else None.

Definition dns_message_renderreserve msg (space : Z) : isc_result * message St :=
  let r := m_render msg in
  let short := match buffer r with
               | Some (used, len) => bool_decide (Z.of_nat (len - length used) < u32 (space + reserved r))%Z
               | None => false
               end in
  if short then (ISC_R_NOSPACE, msg) else (ISC_R_SUCCESS, set_space msg (u32 (reserved r + space))).

Definition with_attributes (rs : rrset St) (a : Z) : rrset St :=
  let i := rr_info rs in
  Rrset (RdsInfo a (ri_count i) (ri_rdclass i) (ri_type i) (ri_ttl i)) (rr_covers rs) (rr_trust rs) (rr_state rs).

(** The rdatasets of a name may be rendered again. *)
Definition unmark (n : mname St) : mname St :=
  Mname (mn_name n)
    ((λ rs, with_attributes rs (Z.ldiff (ri_attributes (rr_info rs)) DNS_RDATASETATTR_RENDERED)) <$> mn_list n).

Definition put_tsig msg : option (message St) :=
  match m_tsig msg with
  | Some _ => '(p : message St) ← dns_message_puttemprdataset msg false;
              Some (set_tsig p None (m_tsigname p) (m_querytsig p))
  | None => Some msg
  end.

Definition put_sig0 msg : option (message St) :=
  match m_sig0 msg with
  | Some _ => '(p : message St) ← dns_message_puttemprdataset msg false; Some (set_sig0 p None (m_sig0name p))
  | None => Some msg
  end.

(** [dns_message_renderreset] *)
Definition dns_message_renderreset msg : option (message St) :=
  if bool_decide (m_intent msg = DNS_MESSAGE_INTENTRENDER) then
    let msg := set_counts (set_buffer msg None) (replicate DNS_SECTION_MAX 0%Z) in
    let msg := set_sections msg (map (map unmark) (m_sections msg)) in
    let msg := match m_tsigname msg with
               | Some _ => set_tsig (dns_message_puttempname msg) (m_tsig msg) None (m_querytsig msg)
               | None => msg
               end in
    msg ← put_tsig msg; put_sig0 msg
  else None.

(** ** The header *)

Definition header_flags (h : header) : Z :=
  u16 (Z.lor (Z.lor (Z.land (Z.shiftl (opcode h) DNS_MESSAGE_OPCODE_SHIFT) DNS_MESSAGE_OPCODE_MASK)
                    (Z.land (rcode h) DNS_MESSAGE_RCODE_MASK))
             (Z.land (flags h) DNS_MESSAGE_FLAG_MASK)).

(** [target] is a region at whose start the header is written. *)
Definition dns_message_renderheader msg (target : mem) : option mem :=
  if bool_decide (DNS_MESSAGE_HEADERLEN <= length target) then
    if bool_decide (Forall (λ c, (c < 65536)%Z) (m_counts msg)) then
      let h := m_header msg in
      mwrite target 0 (enc16 (u16 (id h)) ++ enc16 (header_flags h) ++ mjoin ((λ c, enc16 (u16 c)) <$> m_counts msg))
    else None
  else None.
End Fill.

(** ** Rendering a section *)

Section Render.
Context `{RdatasetMethods St, Qsort, Alloc, TowireSwitch, IscRandom}.
Context (order : option (rdata → Z)) (arrays : rrset St → bool)
  (ncache : rrset St → Z → compress → nat → mem → nat → option (written * nat)).
Implicit Types (msg : message St) (rs : rrset St).

Definition needed_pass rs (preferred_glue : Z) : nat :=
  let t := ri_type (rr_info rs) in
  if bool_decide (t = dns_rdatatype_a ∨ t = dns_rdatatype_aaaa)
  then if bool_decide (preferred_glue = t) then 4 else 3
  else if bool_decide (t = dns_rdatatype_rrsig ∨ t = dns_rdatatype_dnskey) then 2 else 1.

Definition wrong_priority rs (pass : nat) (preferred_glue : Z) : bool :=
  if bool_decide (ri_rdclass (rr_info rs) ≠ dns_rdataclass_in) then false
  else negb (bool_decide (pass <= needed_pass rs preferred_glue)).

(** What changes while a section is rendered: the flags of the message, the
    compression context, the bytes used, and [total]. *)
Record rendering := Rendering { g_flags : Z; g_cctx : compress; g_used : mem; g_total : nat }.

(** The call of [dns_rdataset_towirepartial] or [dns_rdataset_towiresorted],
    with the rollback; [cap] is the shortened length of the buffer. *)
Definition towire_rrset (partial : bool) (cap rd_options : Z) (owner : name) rs (g : rendering)
    : option (isc_result * rendering) :=
  if bool_decide (Z.of_nat (length (g_used g)) <= cap)%Z then
    '(result, m, c, count) ←
      (if partial then dns_rdataset_towirepartial else dns_rdataset_towiresorted)
        (rr_state rs) (rr_info rs) owner order (arrays rs) (ncache rs rd_options) (g_cctx g) (Z.to_nat cap)
        (g_used g) 0;
    let total := g_total g + count in
    if partial && bool_decide (result = ISC_R_NOSPACE) then Some (result, Rendering (g_flags g) c m total)
    else if bool_decide (result ≠ ISC_R_SUCCESS) then
      if bool_decide (Z.of_nat (length (g_used g)) < 65536)%Z then
        Some (result, Rendering (g_flags g) (dns_compress_rollback c (u16 (Z.of_nat (length (g_used g)))))
                        (g_used g) total)
      else None
    else Some (result, Rendering (g_flags g) c m total)
  else None.

Definition mark rs : rrset St := with_attributes rs (Z.lor (ri_attributes (rr_info rs)) DNS_RDATASETATTR_RENDERED).

Definition set_flags (g : rendering) (f : Z) : rendering := Rendering f (g_cctx g) (g_used g) (g_total g).

(** Required glue, of which [TC] says that it did not fit. *)
Definition render_glue (partial : bool) (cap rd_options : Z) (section : list (mname St)) (g : rendering)
    : option (isc_result * list (mname St) * rendering) :=
  match section with
  | Mname n (rs :: l) :: names =>
      if attr_set (rr_info rs) DNS_RDATASETATTR_REQUIREDGLUE && negb (attr_set (rr_info rs) DNS_RDATASETATTR_RENDERED)
      then
        '(result, g) ← towire_rrset partial cap rd_options n rs g;
        let g := if bool_decide (result = ISC_R_NOSPACE)
                 then set_flags g (Z.lor (g_flags g) DNS_MESSAGEFLAG_TC) else g in
        if bool_decide (result ≠ ISC_R_SUCCESS) then Some (result, section, g)
        else Some (result, Mname n (mark rs :: l) :: names, g)
      else Some (ISC_R_SUCCESS, section, g)
  | _ => Some (ISC_R_SUCCESS, section, g)
  end.

Section Passes.
Context (sectionid : nat) (options : Z) (partial : bool) (cap rd_options preferred_glue : Z).

(** [goto next]: the rdataset is not rendered in this pass. *)
Definition skipped (pass : nat) rs : bool :=
  attr_set (rr_info rs) DNS_RDATASETATTR_RENDERED ||
  (negb (flag_set options DNS_MESSAGERENDER_ORDERED) && bool_decide (sectionid = DNS_SECTION_ADDITIONAL) &&
   wrong_priority rs pass preferred_glue).

(** The AD bit goes with data that were not validated. *)
Definition clear_ad rs (f : Z) : Z :=
  let f := if bool_decide (rr_trust rs ≠ dns_trust_secure) &&
              bool_decide (sectionid = DNS_SECTION_ANSWER ∨ sectionid = DNS_SECTION_AUTHORITY)
           then Z.ldiff f DNS_MESSAGEFLAG_AD else f in
  if attr_set (rr_info rs) DNS_RDATASETATTR_OPTOUT then Z.ldiff f DNS_MESSAGEFLAG_AD else f.

Fixpoint render_rrsets (pass : nat) (owner : name) (l : list (rrset St)) (g : rendering)
    : option (isc_result * list (rrset St) * rendering) :=
  match l with
  | [] => Some (ISC_R_SUCCESS, [], g)
  | rs :: l =>
      if skipped pass rs then
        '(result, l, g) ← render_rrsets pass owner l g; Some (result, rs :: l, g)
      else
        '(result, g) ← towire_rrset partial cap rd_options owner rs g;
        if bool_decide (result ≠ ISC_R_SUCCESS) then Some (result, rs :: l, g)
        else
          let g := set_flags g (clear_ad rs (g_flags g)) in
          '(result, l, g) ← render_rrsets pass owner l g; Some (result, mark rs :: l, g)
  end.

Fixpoint render_names (pass : nat) (names : list (mname St)) (g : rendering)
    : option (isc_result * list (mname St) * rendering) :=
  match names with
  | [] => Some (ISC_R_SUCCESS, [], g)
  | n :: names =>
      '(result, l, g) ← render_rrsets pass (mn_name n) (mn_list n) g;
      let n := Mname (mn_name n) l in
      if bool_decide (result ≠ ISC_R_SUCCESS) then Some (result, n :: names, g)
      else '(result, names, g) ← render_names pass names g; Some (result, n :: names, g)
  end.

(** [do ... while (--pass != 0)] *)
Fixpoint render_passes (pass : nat) (section : list (mname St)) (g : rendering)
    : option (isc_result * list (mname St) * rendering) :=
  match pass with
  | O => Some (ISC_R_SUCCESS, section, g)
  | S rest =>
      if bool_decide (section = []) then Some (ISC_R_SUCCESS, section, g)
      else
        '(result, section, g) ← render_names pass section g;
        if bool_decide (result ≠ ISC_R_SUCCESS) then Some (result, section, g)
        else render_passes rest section g
  end.
End Passes.

(** The first pass, and the type of glue to come first. *)
Definition first_pass (sectionid : nat) (options : Z) : nat * Z :=
  if bool_decide (sectionid = DNS_SECTION_ADDITIONAL) && negb (flag_set options DNS_MESSAGERENDER_ORDERED) then
    if flag_set options DNS_MESSAGERENDER_PREFER_A then (4, dns_rdatatype_a)
    else if flag_set options DNS_MESSAGERENDER_PREFER_AAAA then (4, dns_rdatatype_aaaa)
    else (3, 0%Z)
  else (1, 0%Z).

Definition dns_message_rendersection msg (sectionid : nat) (options : Z) : option (isc_result * message St) :=
  let r := m_render msg in
  '(used, len) ← buffer r;
  section ← m_sections msg !! sectionid;
  let '(pass, preferred_glue) := first_pass sectionid options in
  let rd_options := if flag_set options DNS_MESSAGERENDER_OMITDNSSEC then DNS_RDATASETTOWIRE_OMITDNSSEC else 0%Z in
  let cap := (Z.of_nat len - reserved r)%Z in
  let partial := bool_decide (reserved r = 0%Z) && flag_set options DNS_MESSAGERENDER_PARTIAL in
  '(result, section, g) ← render_glue partial cap rd_options section (Rendering (flags (m_header msg)) (cctx r) used 0);
  '(result, section, g) ←
    (if bool_decide (result ≠ ISC_R_SUCCESS) then Some (result, section, g)
     else render_passes sectionid options partial cap rd_options preferred_glue pass section g);
  let h := m_header msg in
  let msg := set_header msg (Header (id h) (g_flags g) (rcode h) (opcode h)) in
  let msg := set_sections msg (<[sectionid := section]> (m_sections msg)) in
  let msg := set_counts msg (alter (λ c, u32 (c + Z.of_nat (g_total g))) sectionid (m_counts msg)) in
  Some (result, set_cctx (set_buffer msg (Some (g_used g, len))) (g_cctx g)).

(** ** The OPT record and the end *)

(** [dns_message_setopt]. On an error the rdataset is put back although it
    has its methods. *)
Definition dns_message_setopt msg (opt : rrset St) : option (isc_result * message St) :=
  if bool_decide (ri_type (rr_info opt) = dns_rdatatype_opt ∧ m_intent msg = DNS_MESSAGE_INTENTRENDER ∧
                  m_state msg = DNS_SECTION_ANY) then
    msg ← msgresetopt msg;
    '(result, st) ← dns_rdataset_first (rr_state opt);
    let opt := Rrset (rr_info opt) (rr_covers opt) (rr_trust opt) st in
    if bool_decide (result ≠ ISC_R_SUCCESS) then
      '(p : message St) ← dns_message_puttemprdataset msg true; Some (result, p)
    else
      rdata ← dns_rdataset_current st;
      let space := u32 (11 + Z.of_nat (length (rd_data rdata))) in
      let msg := set_reserved msg space (sig_reserved (m_render msg)) in
      let '(result, msg) := dns_message_renderreserve msg space in
      if bool_decide (result ≠ ISC_R_SUCCESS) then
        '(p : message St) ← dns_message_puttemprdataset (set_reserved msg 0 (sig_reserved (m_render msg))) true;
        Some (result, p)
      else Some (ISC_R_SUCCESS, set_opt msg (Some opt))
  else None.

Definition dns_message_getopt msg : option (rrset St) := m_opt msg.

(** The OPT record with the extended rcode in its TTL. *)
Definition with_ercode (opt : rrset St) (rcode : Z) : rrset St :=
  let i := rr_info opt in
  let ttl := Z.lor (Z.ldiff (ri_ttl i) DNS_MESSAGE_EDNSRCODE_MASK)
                   (Z.land (u32 (Z.shiftl rcode 20)) DNS_MESSAGE_EDNSRCODE_MASK) in
  Rrset (RdsInfo (ri_attributes i) (ri_count i) (ri_rdclass i) (ri_type i) ttl) (rr_covers opt) (rr_trust opt)
    (rr_state opt).

(** [if (msg->opt != NULL)]: the OPT record is rendered last, in the space
    that was reserved for it. *)
Definition render_opt msg : option (isc_result * message St) :=
  match m_opt msg with
  | None => Some (ISC_R_SUCCESS, msg)
  | Some opt =>
      msg ← dns_message_renderrelease msg (opt_reserved (m_render msg));
      let msg := set_reserved msg 0 (sig_reserved (m_render msg)) in
      let opt := with_ercode opt (rcode (m_header msg)) in
      let msg := set_opt msg (Some opt) in
      '(used, len) ← buffer (m_render msg);
      '(result, m, c, count) ←
        towiresorted (rr_state opt) (rr_info opt) dns_rootname None false (arrays opt) (ncache opt 0%Z)
          (cctx (m_render msg)) len used 0;
      let msg := set_cctx (set_buffer msg (Some (m, len))) c in
      Some (result, set_counts msg
        (alter (λ x, u32 (x + Z.of_nat count)) DNS_SECTION_ADDITIONAL (m_counts msg)))
  end.

(** [dns_message_renderend] of a message without a TSIG or SIG(0) key; with
    what is then in the caller's buffer *)
Definition dns_message_renderend msg : option (isc_result * message St * mem) :=
  '(used, _) ← buffer (m_render msg);
  if bool_decide (Z.ldiff (rcode (m_header msg)) DNS_MESSAGE_RCODE_MASK ≠ 0%Z ∧ m_opt msg = None)
  then Some (DNS_R_FORMERR, msg, used)
  else
    '(result, msg) ← render_opt msg;
    '(used, _) ← buffer (m_render msg);
    if bool_decide (result ≠ ISC_R_SUCCESS) then Some (result, msg, used)
    else used ← dns_message_renderheader msg used; Some (ISC_R_SUCCESS, set_buffer msg None, used).
End Render.
