(* ===== verification/RenderSpec.v ===== *)
(** * What rendering a section writes

    The specification of [dns_message_rendersection]: a section is a list of
    jobs, rdatasets with their owner; [plan] is the order in which the passes
    take them; what is written is the records of a prefix of the plan, all of
    it if the result is [ISC_R_SUCCESS], and those jobs are marked.

    Every writer appends bytes that depend on the length of the message and
    not on its contents, so that the statements are about all messages of a
    length: the header, which is written last, does not matter before. *)
From S2P Require Import Prelude Qsort Rdata Name FromWire Compress Slab RbtdbRdataset Order Answer Message MessageRender.

(** ** Logs of records *)

(** A record, or question, with its owner as the program has it. *)
Record entry := Entry { en_owner : name; en_info : rds_info; en_rd : option rdata }.

Section Log.
Context `{TowireOk}.

Fixpoint log_at (sens : bool) (m : mem) (p : nat) (log : list entry) (q : nat) : Prop :=
  match log with
  | [] => q = p
  | e :: log => ∃ ls p', name_ok (en_owner e) ls ∧ rr_here sens m p ls (en_info e) (en_rd e) p' ∧
      log_at sens m p' log q
  end.

Lemma rr_here_app sens m y p ls i rd q : rr_here sens m p ls i rd q → rr_here sens (m ++ y) p ls i rd q.
Proof.
  destruct rd as [rd|]; cbn.
  - intros (x & ? & ?). exists x. split; [done|by apply rr_at_app].
  - intros (ls' & k & ? & ? & ? & ?). exists ls', k. split_and!; [done|by apply wire_at_app|done|by apply mread_app].
Qed.

Lemma log_at_mono sens m y p log q : log_at sens m p log q → log_at sens (m ++ y) p log q.
Proof.
  revert p. induction log as [|e log IH]; intros p; [done|]. intros (ls & p' & ? & ? & ?).
  exists ls, p'. split_and!; [done|by apply rr_here_app|by apply IH].
Qed.

Lemma log_at_app sens m p log1 q log2 r :
  log_at sens m p log1 q → log_at sens m q log2 r → log_at sens m p (log1 ++ log2) r.
Proof.
  revert p. induction log1 as [|e log1 IH]; intros p; [by intros ->|]. intros (ls & p' & ? & ? & ?) ?.
  exists ls, p'. split_and!; [done..|by apply IH].
Qed.

Lemma rr_here_size sens m p ls i rd q : rr_here sens m p ls i rd q → p + 5 <= q.
Proof.
  destruct rd as [rd|]; cbn.
  - intros (x & _ & [(ls' & k & _ & Hw & -> & _)]). destruct Hw; lia.
  - intros (ls' & k & _ & Hw & -> & _). destruct Hw; lia.
Qed.

(** Each entry takes space. *)
Lemma log_at_size sens m p log q : log_at sens m p log q → p + 5 * length log <= q.
Proof.
  revert p. induction log as [|e log IH]; intros p; cbn [log_at length]; [lia|].
  intros (ls & p' & _ & ?%rr_here_size & ?%IH). lia.
Qed.

Lemma rrs_log sens m p owner ls i items q :
  name_ok owner ls → rrs_at sens m p ls i items q → log_at sens m p (Entry owner i <$> (Some <$> items)) q.
Proof.
  intros Hn. revert p. induction items as [|rd items IH]; intros p; [done|].
  intros (x & p' & Hr & Hx & Hi). exists ls, p'. split_and!; [done|by exists x|by apply IH].
Qed.
End Log.

(** ** One rdataset *)

Section Spec.
Context `{RdatasetMethods St, Qsort, IscRandom, TowireOk}.
Context (order : option (rdata → Z)) (arrays : rrset St → bool)
  (ncache : rrset St → Z → compress → nat → mem → nat → option (written * nat)).
Context (recs : St → list rdata).
Implicit Types (msg : message St) (rs : rrset St).

(** The rdataset keeps its promises: it yields its records, which can be
    written, and a question has none. *)
Record renderable rs : Prop := {
  re_negative : attr_set (rr_info rs) DNS_RDATASETATTR_NEGATIVE = false;
  re_yields : rds_yields (rr_state rs) (recs (rr_state rs));
  re_question : attr_set (rr_info rs) DNS_RDATASETATTR_QUESTION = true →
    ∃ st1 st2, dns_rdataset_first (rr_state rs) = Some (ISC_R_NOMORE, st1) ∧
      dns_rdataset_next st1 = Some (ISC_R_NOMORE, st2);
  re_rds : Forall rd_ok (recs (rr_state rs)) }.

(** What is to be seen of it in a message. *)
Definition shown_as rs (items : list (option rdata)) : Prop :=
  if attr_set (rr_info rs) DNS_RDATASETATTR_QUESTION then items = [None]
  else ∃ its, shown (rr_info rs) order (arrays rs) (recs (rr_state rs)) its ∧ items = Some <$> its.

Definition entries (owner : name) rs (items : list (option rdata)) : list entry := Entry owner (rr_info rs) <$> items.

Lemma towiresorted_question rs owner ls partial cap n c :
  attr_set (rr_info rs) DNS_RDATASETATTR_QUESTION = true → renderable rs → name_ok owner ls →
  n <= cap → (Z.of_nat cap < 2 ^ 16)%Z → fitting n c →
  ∃ r y c' cnt, n + length y <= cap ∧ sensitive c' = sensitive c ∧
    (∀ m nc countp, length m = n →
      towiresorted (rr_state rs) (rr_info rs) owner order partial (arrays rs) nc c cap m countp =
      Some ((r, m ++ y, c'), if bool_decide (r = ISC_R_SUCCESS) || partial then countp + cnt else 0)) ∧
    (∀ m, length m = n → ctx_ok m c → ctx_ok (m ++ y) c' ∧
       log_at (sensitive c) (m ++ y) n (take cnt (entries owner rs [None])) (n + length y)) ∧
    (r = ISC_R_SUCCESS ∧ cnt = 1 ∨ r = ISC_R_NOSPACE ∧ cnt = 0 ∧ y = [] ∧ c' = dns_compress_setmethods c true).
Proof.
  intros Hq Hre Hn Hc Hcap Hf. destruct (re_question _ Hre Hq) as (st1 & st2 & E1 & E2).
  destruct (write_rr_writes owner ls (rr_info rs) None c cap n Hn) as (r & y & c' & Hap & Hl & Hg & Hr); [done..|].
  assert (sensitive c' = sensitive c) as Hs by (by destruct Hg as (_ & -> & _)).
  destruct Hr as [[-> Hok]| ->].
  - exists ISC_R_SUCCESS, y, c', 1. split_and!; [done..| | |by left].
    + intros m nc countp Hlm. unfold towiresorted. rewrite Hq, E1. cbn [mbind option_bind].
      rewrite bool_decide_true, (Hap m Hlm) by done. cbn [mbind option_bind]. rewrite bool_decide_false, E2 by auto.
      cbn [mbind option_bind finish]. by rewrite bool_decide_false, !bool_decide_true.
    + intros m Hlm Hc0. destruct (Hok m Hlm Hc0) as [Hc1 Hh]. split; [done|]. cbn. eexists ls, _. split_and!; [done|exact Hh|done].
  - exists ISC_R_NOSPACE, [], (dns_compress_setmethods c true), 0. cbn [length]. rewrite Nat.add_0_r.
    split_and!; [done..| | |by right].
    + intros m nc countp Hlm. unfold towiresorted. rewrite Hq, E1. cbn [mbind option_bind].
      rewrite bool_decide_true, (Hap m Hlm) by done. cbn [mbind option_bind]. rewrite bool_decide_true by auto.
      assert (dns_compress_rollback c' (u16 (Z.of_nat (length m))) = dns_compress_setmethods c true) as Hb.
      { destruct Hf as (m0 & Hm0 & Hc0). rewrite u16_small, Hlm, <- Hm0 by lia.
        apply rollback_puts; [by apply setmethods_ok|by rewrite Hm0]. }
      cbn [finish]. rewrite bool_decide_false, (bool_decide_true (_ = ISC_R_NOSPACE)) by done.
      rewrite Hb, (bool_decide_true (_ < 65536)%Z), app_nil_r, Nat.add_0_r by lia. by destruct partial.
    + intros m <- Hc0. rewrite app_nil_r. split; [by apply setmethods_ok|done].
Qed.

(** The same for any rdataset. *)
Lemma towiresorted_writes rs owner ls partial cap n c :
  renderable rs → name_ok owner ls → n <= cap → (Z.of_nat cap < 2 ^ 16)%Z → fitting n c →
  ∃ items r y c' cnt, shown_as rs items ∧ n + length y <= cap ∧ sensitive c' = sensitive c ∧
    (∀ m nc countp, length m = n →
      towiresorted (rr_state rs) (rr_info rs) owner order partial (arrays rs) nc c cap m countp =
      Some ((r, m ++ y, c'), if bool_decide (r = ISC_R_SUCCESS) || partial then countp + cnt else 0)) ∧
    (∀ m, length m = n → ctx_ok m c → ctx_ok (m ++ y) c' ∧
       log_at (sensitive c) (m ++ y) n (take cnt (entries owner rs items)) (n + length y)) ∧
    (r = ISC_R_SUCCESS ∧ cnt = length items ∨
     r = ISC_R_NOSPACE ∧ cnt < length items ∧
       (partial = false → cnt = 0 ∧ y = [] ∧ c' = dns_compress_setmethods c true)).
Proof.
  intros Hre Hn Hm Hcap Hf. unfold shown_as. destruct (attr_set (rr_info rs) DNS_RDATASETATTR_QUESTION) eqn:Hq.
  - destruct (towiresorted_question rs owner ls partial cap n c Hq Hre Hn Hm Hcap Hf)
      as (r & y & c' & cnt & Hl & Hs & Hw & Hok & Hr).
    exists [None], r, y, c', cnt. split_and!; [done..|].
    destruct Hr as [Hr|(-> & -> & Hy & Hc)]; [by left|right]. split_and!; [done|cbn; lia|done].
  - destruct Hre as [Hng Hy _ Hrd].
    destruct (answer_writes (rr_state rs) (recs (rr_state rs)) (rr_info rs) owner ls order partial (arrays rs) c cap n
      Hy Hq Hng Hrd Hn Hm Hcap Hf) as (its & r & y & c' & cnt & Hs & Hl & Hw & [Hsen Hctx Hr Hat]).
    exists (Some <$> its), r, y, c', cnt. rewrite length_fmap, (Permutation_length (shown_perm _ _ _ _ _ Hs)).
    split_and!; [by exists its|done..| |].
    + intros m Hlm Hc. split; [by apply Hctx|]. unfold entries. rewrite <- !fmap_take. eapply rrs_log; [done|by apply Hat].
    + destruct Hr as [Hr|[(? & -> & ?)|(? & -> & Hne & ? & -> & ?)]]; [by left|by right|].
      right. split_and!; [done| |done]. destruct (recs (rr_state rs)); [done|cbn; lia].
Qed.

Lemma towire_rrset_writes partial cap rd_options owner rs n c :
  renderable rs → (∃ ls, name_ok owner ls) → n <= cap → (Z.of_nat cap < 2 ^ 16)%Z → fitting n c →
  ∃ items r y c' cnt, shown_as rs items ∧ n + length y <= cap ∧ sensitive c' = sensitive c ∧
    (∀ m f total, length m = n →
       towire_rrset order arrays ncache partial (Z.of_nat cap) rd_options owner rs (Rendering f c m total) =
       Some (r, Rendering f c' (m ++ y) (total + cnt))) ∧
    (∀ m, length m = n → ctx_ok m c → ctx_ok (m ++ y) c' ∧
       log_at (sensitive c) (m ++ y) n (take cnt (entries owner rs items)) (n + length y)) ∧
    (r = ISC_R_SUCCESS ∧ cnt = length items ∨
     r = ISC_R_NOSPACE ∧ cnt < length items ∧ (partial = false → cnt = 0)).
Proof.
  intros Hre [ls Hn] Hm Hcap Hf.
  destruct (towiresorted_writes rs owner ls partial cap n c Hre Hn Hm Hcap Hf)
    as (items & r & y & c' & cnt & Hs & Hl & Hsen & Hw & Hok & Hr).
  assert (∀ m f total, length m = n →
    towire_rrset order arrays ncache partial (Z.of_nat cap) rd_options owner rs (Rendering f c m total) =
    Some (r, Rendering f c' (m ++ y) (total + cnt))) as Htw.
  { intros m f total Hlm. unfold towire_rrset. cbn [g_used g_cctx g_flags g_total].
    rewrite bool_decide_true by lia. rewrite Nat2Z.id.
    replace ((if partial then dns_rdataset_towirepartial else dns_rdataset_towiresorted) (rr_state rs) (rr_info rs) owner
      order (arrays rs) (ncache rs rd_options) c cap m 0)
      with (towiresorted (rr_state rs) (rr_info rs) owner order partial (arrays rs) (ncache rs rd_options) c cap m 0)
      by (by destruct partial).
    rewrite (Hw m _ 0 Hlm). cbn [mbind option_bind].
    destruct Hr as [[-> ->]|(-> & Hlt & Hp)].
    - rewrite (bool_decide_true (ISC_R_SUCCESS = ISC_R_SUCCESS)), !bool_decide_false by auto.
      by destruct partial.
    - rewrite (bool_decide_false (ISC_R_NOSPACE = ISC_R_SUCCESS)), !(bool_decide_true (_ = ISC_R_NOSPACE)) by done.
      destruct partial; cbn [orb andb]; [done|].
      destruct (Hp eq_refl) as (-> & -> & ->). rewrite bool_decide_true, Hlm, bool_decide_true by (done || lia).
      destruct Hf as (m0 & Hm0 & Hc0). rewrite u16_small, <- Hm0 by lia.
      rewrite (rollback_puts m0 (dns_compress_setmethods c true)) by (done || apply setmethods_ok, Hc0 || apply grown_refl).
      by rewrite app_nil_r. }
  exists items, r, y, c', cnt. split_and!; [done..|].
  destruct Hr as [?|(? & ? & Hp)]; [by left|right]. split_and!; [done..|]. intros Hpf. by apply Hp.
Qed.

(** ** Stages *)

(** A job is a rdataset with its owner. *)
Abbreviation job := (name * rrset St)%type.

Definition job_ok (j : job) : Prop := renderable j.2 ∧ ∃ ls, name_ok j.1 ls.

(** The entries of some jobs, each with its items in the order shown. *)
Definition log_of (js : list job) (log : list entry) : Prop :=
  ∃ ess, Forall2 (λ j es, ∃ items, shown_as j.2 items ∧ es = entries j.1 j.2 items) js ess ∧ log = concat ess.

(** The first [k] jobs of [todo] are done, and perhaps a part of the next. *)
Definition progress (partial : bool) (todo : list job) (k : nat) (r : isc_result) (log : list entry) : Prop :=
  ∃ full part, log = full ++ part ∧ log_of (take k todo) full ∧
    (r = ISC_R_SUCCESS ∧ k = length todo ∧ part = [] ∨
     r = ISC_R_NOSPACE ∧ ∃ j items cnt, todo !! k = Some j ∧ shown_as j.2 items ∧ cnt < length items ∧
       part = take cnt (entries j.1 j.2 items) ∧ (partial = false → cnt = 0)).

Lemma log_of_app js1 js2 log1 log2 : log_of js1 log1 → log_of js2 log2 → log_of (js1 ++ js2) (log1 ++ log2).
Proof.
  intros (e1 & F1 & ->) (e2 & F2 & ->). exists (e1 ++ e2). split; [by apply Forall2_app|]. symmetry. apply concat_app.
Qed.

Lemma progress_more partial todo1 todo2 k r log1 log2 :
  progress partial todo1 (length todo1) ISC_R_SUCCESS log1 → progress partial todo2 k r log2 →
  progress partial (todo1 ++ todo2) (length todo1 + k) r (log1 ++ log2).
Proof.
  intros (full1 & part1 & -> & L1 & K1) (full2 & part2 & -> & L2 & K2).
  destruct K1 as [(_ & _ & ->)|[? _]]; [|done]. rewrite app_nil_r, take_ge in * by done.
  exists (full1 ++ full2), part2. rewrite take_app_add, app_assoc by done.
  split_and!; [done|by apply log_of_app|]. rewrite length_app.
  destruct K2 as [(-> & -> & ->)|(-> & j & items & cnt & Hj & K2)]; [by left|right].
  split; [done|]. exists j, items, cnt. rewrite lookup_app_r by lia. by replace (length todo1 + k - length todo1) with k by lia.
Qed.

Lemma progress_stop partial todo1 todo2 k log :
  progress partial todo1 k ISC_R_NOSPACE log → progress partial (todo1 ++ todo2) k ISC_R_NOSPACE log ∧ k < length todo1.
Proof.
  intros (full & part & -> & L & [[? _]|(_ & j & items & cnt & Hj & Hr)]); [done|].
  pose proof (lookup_lt_Some _ _ _ Hj) as Hk. split; [|done]. exists full, part.
  rewrite take_app_le by lia. split_and!; [done..|right]. split; [done|]. exists j, items, cnt.
  by rewrite lookup_app_l by lia.
Qed.

(** [stage step todo out run]: [run] does the jobs of [todo] until there is
    no space, [out k] is its outcome when [k] are done, and each changes the
    flags by [step]. *)
Definition stage {X} (partial : bool) (cap : nat) (step : job → Z → Z) (todo : list job) (out : nat → X)
    (run : rendering → option (isc_result * X * rendering)) : Prop :=
  ∀ n c, n <= cap → fitting n c → ∃ r k y c' log,
    progress partial todo k r log ∧ n + length y <= cap ∧ sensitive c' = sensitive c ∧
    (∀ m f total, length m = n → run (Rendering f c m total) =
       Some (r, out k, Rendering (foldl (λ f j, step j f) f (take k todo)) c' (m ++ y) (total + length log))) ∧
    (∀ m, length m = n → ctx_ok m c → ctx_ok (m ++ y) c' ∧ log_at (sensitive c) (m ++ y) n log (n + length y)).

Lemma stage_ext {X} partial cap step todo (out out' : nat → X) run run' :
  stage partial cap step todo out run → (∀ k, k <= length todo → out' k = out k) → (∀ g, run' g = run g) →
  stage partial cap step todo out' run'.
Proof.
  intros Hs Ho Hr n c Hn Hf. destruct (Hs n c Hn Hf) as (r & k & y & c' & log & Hp & Hl & Hc & Hrun & Hok).
  exists r, k, y, c', log. split_and!; [done..| |done]. intros m f total Hm. rewrite Hr, (Hrun m f total Hm). rewrite Ho; [done|].
  destruct Hp as (_ & _ & _ & _ & [(_ & -> & _)|(_ & j & _ & _ & Hj%lookup_lt_Some & _)]); lia.
Qed.

Lemma stage_nil {X} partial cap step (x : X) :
  stage partial cap step [] (λ _, x) (λ g, Some (ISC_R_SUCCESS, x, g)).
Proof.
  intros n c Hn Hf. exists ISC_R_SUCCESS, 0, [], c, []. cbn [length take foldl]. rewrite Nat.add_0_r.
  split_and!; [|done..| |].
  - exists [], []. split_and!; [done| |by left]. by exists [].
  - intros m f total _. by rewrite app_nil_r, Nat.add_0_r.
  - intros m <- Hc. by rewrite app_nil_r.
Qed.

Lemma stage_bind {X Y Z} partial cap step todo1 todo2 (out1 : nat → X) (out2 : nat → Y) (out : nat → Z) run1 run2
    (h1 : X → Z) (h2 : X → Y → Z) :
  stage partial cap step todo1 out1 run1 → stage partial cap step todo2 out2 (run2 (out1 (length todo1))) →
  (∀ k, k < length todo1 → out k = h1 (out1 k)) →
  (∀ k, out (length todo1 + k) = h2 (out1 (length todo1)) (out2 k)) →
  stage partial cap step (todo1 ++ todo2) out (λ g,
    '(r, x, g) ← run1 g;
    if bool_decide (r ≠ ISC_R_SUCCESS) then Some (r, h1 x, g)
    else '(r, y, g) ← run2 x g; Some (r, h2 x y, g)).
Proof.
  intros K1 K2 Ho1 Ho2 n c Hn Hf. destruct (K1 n c Hn Hf) as (r1 & k1 & y1 & c1 & log1 & P1 & L1 & S1 & R1 & O1).
  assert (r1 = ISC_R_SUCCESS ∧ k1 = length todo1 ∨ r1 = ISC_R_NOSPACE) as Hcase
    by (destruct P1 as (_ & _ & _ & _ & [(? & ? & _)|[? _]]); auto).
  destruct Hcase as [[-> ->]| ->].
  - assert (fitting (n + length y1) c1) as Hf1.
    { destruct Hf as (m & <- & Hc). exists (m ++ y1). split; [by rewrite length_app|by apply O1]. }
    destruct (K2 (n + length y1) c1 L1 Hf1) as (r2 & k2 & y2 & c2 & log2 & P2 & L2 & S2 & R2 & O2).
    exists r2, (length todo1 + k2), (y1 ++ y2), c2, (log1 ++ log2). rewrite !length_app, !Nat.add_assoc.
    split_and!; [by apply progress_more|done|congruence| |].
    + intros m f total Hm. rewrite (R1 m f total Hm). cbn [mbind option_bind]. rewrite bool_decide_false by auto.
      rewrite R2 by (by rewrite length_app, Hm). cbn [mbind option_bind].
      by rewrite Ho2, take_app_add, foldl_app, (take_ge todo1), app_assoc, Nat.add_assoc by done.
    + intros m Hm Hc. destruct (O1 m Hm Hc) as [Hc1 La1].
      destruct (O2 (m ++ y1)) as [Hc2 La2]; [by rewrite length_app, Hm|done|]. rewrite app_assoc. split; [done|].
      eapply log_at_app; [by apply log_at_mono|]. by rewrite <- S1.
  - destruct (progress_stop _ _ todo2 _ _ P1) as [P Hk].
    exists ISC_R_NOSPACE, k1, y1, c1, log1. split_and!; [done..| |done].
    intros m f total Hm. rewrite (R1 m f total Hm). cbn [mbind option_bind]. rewrite bool_decide_true by done.
    by rewrite Ho1, take_app_le by lia.
Qed.
End Spec.
