(* ===== verification/RenderPlan.v ===== *)
(** * The order in which a section is rendered

    [plan] is the list of the jobs of a section in the order of the passes of
    [dns_message_rendersection]; [plan_levels] says what that order is. The
    rendering of a section is a stage ([RenderSpec.v]) with that plan. *)
From S2P Require Import Prelude Qsort Rdata Name FromWire Compress Slab RbtdbRdataset Order Answer Message MessageRender RenderSpec.

Section Plan.
Context `{RdatasetMethods St, Qsort, IscRandom, TowireOk}.
Context (order : option (rdata → Z)) (arrays : rrset St → bool)
  (ncache : rrset St → Z → compress → nat → mem → nat → option (written * nat)).
Context (recs : St → list rdata).
Implicit Types (msg : message St) (rs : rrset St) (names : list (mname St)).
#[local] Abbreviation job := (name * rrset St)%type.
#[local] Abbreviation stage := (RenderSpec.stage order arrays recs).
#[local] Abbreviation job_ok := (RenderSpec.job_ok recs).

Lemma stage_map {X Y} partial cap step todo (out : nat → X) run (h : X → Y) :
  stage partial cap step todo out run →
  stage partial cap step todo (λ k, h (out k)) (λ g, '(r, x, g) ← run g; Some (r, h x, g)).
Proof.
  intros Hs n c Hn Hf. destruct (Hs n c Hn Hf) as (r & k & y & c' & log & Hp & Hl & Hc & Hrun & Hok).
  exists r, k, y, c', log. split_and!; [done..| |done]. intros m f total Hm. by rewrite (Hrun m f total Hm).
Qed.

(** One rdataset, which changes the flags if it is rendered. *)
Lemma stage_job partial cap rd_options step (j : job) :
  job_ok j → (Z.of_nat cap < 2 ^ 16)%Z →
  stage partial cap step [j] (λ _, ()) (λ g,
    '(r, g) ← towire_rrset order arrays ncache partial (Z.of_nat cap) rd_options j.1 j.2 g;
    Some (r, (), if bool_decide (r ≠ ISC_R_SUCCESS) then g else set_flags g (step j (g_flags g)))).
Proof.
  intros [Hre Hn] Hcap n c Hc Hf.
  destruct (towire_rrset_writes order arrays ncache recs partial cap rd_options j.1 j.2 n c Hre Hn Hc Hcap Hf)
    as (items & r & y & c' & cnt & Hs & Hl & Hsen & Hw & Hok & Hr).
  assert (length (take cnt (entries j.1 j.2 items)) = cnt) as Hlen.
  { unfold entries. rewrite length_take, length_fmap. destruct Hr as [[_ ->]|(_ & ? & _)]; lia. }
  exists r, (if bool_decide (r = ISC_R_SUCCESS) then 1 else 0), y, c', (take cnt (entries j.1 j.2 items)).
  rewrite Hlen. split_and!; [|done..| |done].
  - destruct Hr as [[-> ->]|(-> & Hlt & Hp)].
    + exists (entries j.1 j.2 items), []. rewrite bool_decide_true by done.
      rewrite take_ge by (unfold entries; by rewrite length_fmap). split_and!; [by rewrite app_nil_r| |by left].
      exists [entries j.1 j.2 items]. split; [|cbn; by rewrite app_nil_r]. constructor; [by exists items|done].
    + exists [], (take cnt (entries j.1 j.2 items)). rewrite bool_decide_false by done. split_and!; [done|by exists []|right].
      split; [done|]. by exists j, items, cnt.
  - intros m f total Hm. rewrite (Hw m f total Hm). cbn [mbind option_bind].
    destruct Hr as [[-> _]|(-> & _)]; by rewrite ?bool_decide_true, ?bool_decide_false by auto.
Qed.

Section Passes.
Context (sectionid : nat) (options : Z) (preferred_glue : Z).

#[local] Abbreviation skipped := (MessageRender.skipped sectionid options preferred_glue).
#[local] Abbreviation step := (λ (j : job), clear_ad sectionid j.2).

(** What a pass does to the rdatasets of a name, and to the names. *)
Definition todo_rrsets (pass : nat) (owner : name) (l : list (rrset St)) : list job :=
  pair owner <$> filter (λ rs, skipped pass rs = false) l.
Definition todo (pass : nat) names : list job := names ≫= λ n, todo_rrsets pass (mn_name n) (mn_list n).

(** The first [k] of them are marked. *)
Fixpoint mark_rrsets (pass k : nat) (l : list (rrset St)) : list (rrset St) :=
  match l with
  | [] => []
  | rs :: l => if skipped pass rs then rs :: mark_rrsets pass k l
               else match k with O => rs :: l | S k => mark rs :: mark_rrsets pass k l end
  end.

Fixpoint mark_names (pass k : nat) names : list (mname St) :=
  match names with
  | [] => []
  | n :: names =>
      let here := length (todo_rrsets pass (mn_name n) (mn_list n)) in
      if bool_decide (k < here) then Mname (mn_name n) (mark_rrsets pass k (mn_list n)) :: names
      else Mname (mn_name n) (mark_rrsets pass here (mn_list n)) :: mark_names pass (k - here) names
  end.

Fixpoint plan (pass : nat) names : list job :=
  match pass with
  | O => []
  | S rest => todo pass names ++ plan rest (mark_names pass (length (todo pass names)) names)
  end.

Fixpoint mark_plan (pass k : nat) names : list (mname St) :=
  match pass with
  | O => names
  | S rest => let here := length (todo pass names) in
              if bool_decide (k < here) then mark_names pass k names
              else mark_plan rest (k - here) (mark_names pass here names)
  end.

Section Render.
Context (partial : bool) (cap : nat) (rd_options : Z) (Hcap : (Z.of_nat cap < 2 ^ 16)%Z).

Lemma stage_rrsets pass owner (l : list (rrset St)) :
  (∃ ls, name_ok owner ls) → Forall (renderable recs) l →
  stage partial cap step (todo_rrsets pass owner l) (λ k, mark_rrsets pass k l)
    (render_rrsets order arrays ncache sectionid options partial (Z.of_nat cap) rd_options preferred_glue pass owner l).
Proof.
  intros Hn Hl. unfold todo_rrsets. induction Hl as [|rs l Hr _ IH]; [apply stage_nil|].
  cbn [render_rrsets mark_rrsets]. rewrite filter_cons. destruct (skipped pass rs) eqn:Hs.
  - rewrite decide_False by done. by apply (stage_map _ _ _ _ _ _ (cons rs)).
  - rewrite decide_True by done. cbn [fmap list_fmap]. eapply stage_ext; [|reflexivity..|].
    + eapply (stage_bind _ _ _ _ _ _ [(owner, rs)] _ (λ _, ()) (λ k, mark_rrsets pass k l)
        (λ k, match k with O => rs :: l | S k => mark rs :: mark_rrsets pass k l end) _
        (λ _, render_rrsets order arrays ncache sectionid options partial (Z.of_nat cap) rd_options preferred_glue pass owner l)
        (λ _, rs :: l) (λ _ l', mark rs :: l')); [by apply (stage_job _ _ rd_options)|exact IH| |done].
      intros [|k]; cbn [length]; [done|lia].
    + intros g. cbn [fst snd]. destruct (towire_rrset _ _ _ _ _ _ _ _ _) as [[r g']|]; [|done]. cbn [mbind option_bind].
      by case_bool_decide.
Qed.

Definition names_ok names : Prop := Forall (λ n, (∃ ls, name_ok (mn_name n) ls) ∧ Forall (renderable recs) (mn_list n)) names.

Lemma stage_names pass names :
  names_ok names →
  stage partial cap step (todo pass names) (λ k, mark_names pass k names)
    (render_names order arrays ncache sectionid options partial (Z.of_nat cap) rd_options preferred_glue pass names).
Proof.
  unfold todo. induction 1 as [|n names [Hn Hl] _ IH]; [apply stage_nil|].
  cbn [render_names mark_names]. rewrite bind_cons. eapply stage_ext; [|reflexivity..|].
  - eapply (stage_bind _ _ _ _ _ _ _ _ (λ k, mark_rrsets pass k (mn_list n)) (λ k, mark_names pass k names)
      (λ k, let here := length (todo_rrsets pass (mn_name n) (mn_list n)) in
            if bool_decide (k < here) then Mname (mn_name n) (mark_rrsets pass k (mn_list n)) :: names
            else Mname (mn_name n) (mark_rrsets pass here (mn_list n)) :: mark_names pass (k - here) names) _
      (λ _, render_names order arrays ncache sectionid options partial (Z.of_nat cap) rd_options preferred_glue pass names)
      (λ l, Mname (mn_name n) l :: names) (λ l names, Mname (mn_name n) l :: names));
      [by apply stage_rrsets|exact IH| |].
    + intros k Hk. cbv zeta. by rewrite bool_decide_true.
    + intros k. cbv zeta. rewrite bool_decide_false by lia. do 2 f_equal. lia.
  - intros g. reflexivity.
Qed.

Lemma attr_set_mark rs a :
  Z.land DNS_RDATASETATTR_RENDERED a = 0%Z → attr_set (rr_info (mark rs)) a = attr_set (rr_info rs) a.
Proof.
  intros Ha. unfold attr_set, mark, with_attributes. cbn. by rewrite Z.land_lor_distr_l, Ha, Z.lor_0_r.
Qed.

Lemma mark_renderable rs : renderable recs rs → renderable recs (mark rs).
Proof. intros [Hn Hy Hq Hr]. split; [rewrite attr_set_mark|..|rewrite attr_set_mark|]; done. Qed.

Lemma mark_names_ok pass k names : names_ok names → names_ok (mark_names pass k names).
Proof.
  assert (∀ k l, Forall (renderable recs) l → Forall (renderable recs) (mark_rrsets pass k l)) as Hm.
  { intros k' l Hl. revert k'. induction Hl as [|rs l Hr Hl IH]; intros k'; cbn; [done|].
    destruct (skipped pass rs); [by constructor|]. destruct k'; [by constructor|].
    constructor; [by apply mark_renderable|apply IH]. }
  unfold names_ok. intros Hn. revert k. induction Hn as [|n names [Hn Hl] Hns IH]; intros k; cbn [mark_names]; [done|].
  case_bool_decide; (constructor; [split; [done|by apply Hm]|done || apply IH]).
Qed.

Lemma plan_nil pass : plan pass [] = [].
Proof. by induction pass. Qed.

Lemma mark_plan_nil pass k : mark_plan pass k [] = [].
Proof. revert k. induction pass as [|pass IH]; intros k; cbn; [done|]. by case_bool_decide. Qed.

Lemma stage_passes pass names :
  names_ok names →
  stage partial cap step (plan pass names) (λ k, mark_plan pass k names)
    (render_passes order arrays ncache sectionid options partial (Z.of_nat cap) rd_options preferred_glue pass names).
Proof.
  revert names. induction pass as [|pass IH]; intros names Hn; [apply stage_nil|].
  cbn [render_passes]. case_bool_decide as Hne.
  { subst names. rewrite plan_nil. eapply stage_ext; [apply (stage_nil _ _ _ _ _ _ [])| |done]. intros k _. apply (mark_plan_nil (S pass)). }
  cbn [plan mark_plan]. eapply stage_ext; [|reflexivity..|].
  - eapply (stage_bind _ _ _ _ _ _ _ _ (λ k, mark_names (S pass) k names)
      (λ k, mark_plan pass k (mark_names (S pass) (length (todo (S pass) names)) names))
      (λ k, let here := length (todo (S pass) names) in
            if bool_decide (k < here) then mark_names (S pass) k names
            else mark_plan pass (k - here) (mark_names (S pass) here names)) _
      (render_passes order arrays ncache sectionid options partial (Z.of_nat cap) rd_options preferred_glue pass)
      (λ x, x) (λ _ x, x)); [by apply stage_names|by apply IH, mark_names_ok| |].
    + intros k Hk. cbv zeta. by rewrite bool_decide_true.
    + intros k. cbv zeta. rewrite bool_decide_false by lia. f_equal. lia.
  - intros g. cbv beta. destruct (render_names _ _ _ _ _ _ _ _ _ _ _ _) as [[[r l] g']|]; [|done]. cbn [mbind option_bind].
    case_bool_decide; [done|]. by destruct (render_passes _ _ _ _ _ _ _ _ _ _ _ _) as [[[r2 l2] g2]|].
Qed.
End Render.
End Passes.
End Plan.
