(* ===== verification/RenderSection.v ===== *)
(** * Rendering a section of a message

    [render_section_ok]: what [dns_message_rendersection] does to a message
    whose rdatasets keep their promises, with the required glue and the
    flags; [plan_levels] and [order_levels] describe the order. *)
From S2P Require Import Prelude Qsort Rdata Name FromWire Compress Slab RbtdbRdataset Order Answer Message MessageRender RenderSpec RenderPlan.

Section Section_.
Context `{RdatasetMethods St, Qsort, IscRandom, TowireOk}.
Context (order : option (rdata → Z)) (arrays : rrset St → bool)
  (ncache : rrset St → Z → compress → nat → mem → nat → option (written * nat)).
Context (recs : St → list rdata).
Implicit Types (msg : message St) (rs : rrset St) (names : list (mname St)).
#[local] Abbreviation job := (name * rrset St)%type.
#[local] Abbreviation progress := (RenderSpec.progress order arrays recs).
#[local] Abbreviation names_ok := (RenderPlan.names_ok recs).
#[local] Abbreviation rendersection := (dns_message_rendersection order arrays ncache).

(** The required glue, and the section when it is rendered. *)
Definition glue_job names : option job :=
  match names with
  | Mname n (rs :: _) :: _ =>
      if attr_set (rr_info rs) DNS_RDATASETATTR_REQUIREDGLUE && negb (attr_set (rr_info rs) DNS_RDATASETATTR_RENDERED)
      then Some (n, rs) else None
  | _ => None
  end.

Definition mark_glue names : list (mname St) :=
  match names with
  | Mname n (rs :: l) :: names => Mname n (mark rs :: l) :: names
  | _ => names
  end.

Section Order.
Context (sectionid : nat) (options : Z).
Let pass := (first_pass sectionid options).1.
Let preferred_glue := (first_pass sectionid options).2.

(** The jobs of a section in order; the section when [k] are done; and the
    flags, with TC if not even the glue fits. *)
Definition order_of names : list job :=
  match glue_job names with
  | None => plan sectionid options preferred_glue pass names
  | Some j => j :: plan sectionid options preferred_glue pass (mark_glue names)
  end.

Definition section_after (k : nat) names : list (mname St) :=
  match glue_job names, k with
  | None, _ => mark_plan sectionid options preferred_glue pass k names
  | Some _, O => names
  | Some _, S k => mark_plan sectionid options preferred_glue pass k (mark_glue names)
  end.

Definition flags_after (k : nat) names (f : Z) : Z :=
  let step f (j : job) := clear_ad sectionid j.2 f in
  match glue_job names, k with
  | None, _ => foldl step f (take k (order_of names))
  | Some _, O => Z.lor f DNS_MESSAGEFLAG_TC
  | Some _, S k => foldl step f (take k (tail (order_of names)))
  end.

Lemma mark_glue_ok names : names_ok names → names_ok (mark_glue names).
Proof.
  destruct names as [|[n [|rs l]] names]; [done..|]. intros [[Hn [Hr Hl]%Forall_cons] Hns]%Forall_cons.
  constructor; [|done]. split; [done|]. constructor; [by apply mark_renderable|done].
Qed.

Lemma glue_job_ok names j : names_ok names → glue_job names = Some j → job_ok recs j.
Proof.
  destruct names as [|[n [|rs l]] names]; [done..|]. intros [[Hn [Hr Hl]%Forall_cons] Hns]%Forall_cons.
  cbn. destruct (_ && _); [|done]. by intros [= <-].
Qed.

(** Glue and passes together. *)
Lemma render_all_ok partial cap rd_options names n c :
  names_ok names → n <= cap → (Z.of_nat cap < 2 ^ 16)%Z → fitting n c →
  ∃ r k y c' log,
    progress partial (order_of names) k r log ∧ n + length y <= cap ∧ sensitive c' = sensitive c ∧
    (∀ m f, length m = n →
       ('(result, section, g) ← render_glue order arrays ncache partial (Z.of_nat cap) rd_options names (Rendering f c m 0);
        if bool_decide (result ≠ ISC_R_SUCCESS) then Some (result, section, g)
        else render_passes order arrays ncache sectionid options partial (Z.of_nat cap) rd_options preferred_glue pass
               section g) =
       Some (r, section_after k names, Rendering (flags_after k names f) c' (m ++ y) (length log))) ∧
    (∀ m, length m = n → ctx_ok m c → ctx_ok (m ++ y) c' ∧ log_at (sensitive c) (m ++ y) n log (n + length y)).
Proof.
  intros Hns Hn Hcap Hf. unfold section_after, flags_after, order_of. destruct (glue_job names) as [j|] eqn:Hj.
  - destruct (glue_job_ok _ _ Hns Hj) as [Hre Hnm].
    destruct (towire_rrset_writes order arrays ncache recs partial cap rd_options j.1 j.2 n c Hre Hnm Hn Hcap Hf)
      as (items & r & y & c' & cnt & Hs & Hl & Hsen & Hw & Hok & Hr).
    assert (∀ g, render_glue order arrays ncache partial (Z.of_nat cap) rd_options names g =
      '(r, g) ← towire_rrset order arrays ncache partial (Z.of_nat cap) rd_options j.1 j.2 g;
      let g := if bool_decide (r = ISC_R_NOSPACE) then set_flags g (Z.lor (g_flags g) DNS_MESSAGEFLAG_TC) else g in
      if bool_decide (r ≠ ISC_R_SUCCESS) then Some (r, names, g) else Some (r, mark_glue names, g)) as Hg.
    { intros g. destruct names as [|[nm [|rs l]] names]; [done..|]. cbn in Hj |- *. destruct (_ && _); [|done].
      injection Hj as <-. cbn. destruct (towire_rrset _ _ _ _ _ _ _ _ _) as [[r' g']|]; [|done]. cbn.
      case_bool_decide; case_bool_decide; done. }
    destruct Hr as [[-> ->]|(-> & Hlt & Hp)].
    + assert (fitting (n + length y) c') as Hf'.
      { destruct Hf as (m & <- & Hc). exists (m ++ y). split; [by rewrite length_app|by apply Hok]. }
      destruct (stage_passes order arrays ncache recs sectionid options preferred_glue partial cap rd_options Hcap pass
        (mark_glue names) (mark_glue_ok _ Hns) (n + length y) c' Hl Hf')
        as (r & k & y2 & c2 & log & Hpr & Hl2 & Hsen2 & Hrun & Hok2).
      set (es := entries j.1 j.2 items) in *. assert (length es = length items) as Hes by (subst es; unfold entries; by rewrite length_fmap).
      exists r, (S k), (y ++ y2), c2, (es ++ log). rewrite !length_app, !Nat.add_assoc.
      split_and!; [|done|congruence| |].
      * apply (progress_more order arrays recs partial [j]); [|done]. exists es, []. rewrite app_nil_r.
        split_and!; [done| |by left]. exists [es]. split; [constructor; [by exists items|done]|cbn; by rewrite app_nil_r].
      * intros m f Hm. rewrite Hg, (Hw m f 0 Hm). cbn [mbind option_bind]. rewrite bool_decide_false, bool_decide_false by (done || auto).
        cbn [mbind option_bind]. rewrite bool_decide_false by auto. rewrite Hrun by (by rewrite length_app, Hm).
        cbn [tail]. by rewrite Hes, app_assoc.
      * intros m Hm Hc. destruct (Hok m Hm Hc) as [Hc1 La]. destruct (Hok2 (m ++ y)) as [Hc2 Lb]; [by rewrite length_app, Hm|done|].
        rewrite app_assoc. split; [done|]. eapply log_at_app; [apply log_at_mono|].
        -- rewrite take_ge in La by (by rewrite Hes). exact La.
        -- by rewrite <- Hsen.
    + exists ISC_R_NOSPACE, 0, y, c', (take cnt (entries j.1 j.2 items)).
      split_and!; [|done..| |done].
      * exists [], (take cnt (entries j.1 j.2 items)). split_and!; [done|by exists []|right]. split; [done|].
        by exists j, items, cnt.
      * intros m f Hm. rewrite Hg, (Hw m f 0 Hm). cbn [mbind option_bind]. rewrite bool_decide_true, bool_decide_true by done.
        cbn [mbind option_bind]. rewrite bool_decide_true by done. unfold entries. rewrite length_take, length_fmap.
        rewrite Nat.min_l by lia. done.
  - destruct (stage_passes order arrays ncache recs sectionid options preferred_glue partial cap rd_options Hcap pass
      names Hns n c Hn Hf) as (r & k & y & c' & log & Hpr & Hl & Hsen & Hrun & Hok).
    exists r, k, y, c', log. split_and!; [done..| |done]. intros m f Hm.
    assert (∀ g, render_glue order arrays ncache partial (Z.of_nat cap) rd_options names g = Some (ISC_R_SUCCESS, names, g)) as Hg.
    { intros g. destruct names as [|[nm [|rs l]] names]; [done..|]. cbn in Hj |- *. by destruct (_ && _). }
    rewrite Hg. cbn [mbind option_bind]. by rewrite bool_decide_false, Hrun by auto.
Qed.
End Order.
End Section_.
