(* ===== verification/RenderMessage.v ===== *)
(** * A message while it is rendered

    [rendering_ok]: what is true of a message between
    [dns_message_renderbegin] and [dns_message_renderend]. The bytes after
    the header are [y], whatever the header will be; they have the entries
    [log]; and the space that was reserved is free. Sections, the OPT record
    and the header keep it, so that a message with an OPT record in reserved
    space never lacks the room for it. *)
From S2P Require Import Prelude Qsort Rdata Name FromWire Compress Slab RbtdbRdataset Order Answer Message Opt MessageRender RenderSpec RenderPlan RenderSection.

Section Rendering.
Context `{RdatasetMethods St, Qsort, IscRandom, TowireOk}.
Context (order : option (rdata → Z)) (arrays : rrset St → bool)
  (ncache : rrset St → Z → compress → nat → mem → nat → option (written * nat)).
Context (recs : St → list rdata) (len : nat) (sens : bool).
Implicit Types (msg : message St) (rs : rrset St) (names : list (mname St)).
#[local] Abbreviation progress := (RenderSpec.progress order arrays recs).
#[local] Abbreviation names_ok := (RenderPlan.names_ok recs).
#[local] Abbreviation rendersection := (dns_message_rendersection order arrays ncache).

(** The message with these bytes in its buffer. *)
Definition at_buffer msg (m : mem) : message St := set_buffer msg (Some (m, len)).

Record rendering_ok msg (y : list Z) (log : list entry) : Prop := RenderingOk {
  ro_sections : Forall names_ok (m_sections msg);
  ro_four : length (m_sections msg) = DNS_SECTION_MAX ∧ length (m_counts msg) = DNS_SECTION_MAX;
  ro_counts : Forall (λ c, 0 <= c <= Z.of_nat (length log))%Z (m_counts msg);
  ro_reserved : (0 <= reserved (m_render msg))%Z;
  ro_room : (Z.of_nat (DNS_MESSAGE_HEADERLEN + length y) + reserved (m_render msg) <= Z.of_nat len)%Z;
  ro_len : (Z.of_nat len < 2 ^ 16)%Z;
  ro_sens : sensitive (cctx (m_render msg)) = sens;
  ro_at : ∀ h, length h = DNS_MESSAGE_HEADERLEN → ctx_ok (h ++ y) (cctx (m_render msg)) ∧
    log_at sens (h ++ y) DNS_MESSAGE_HEADERLEN log (DNS_MESSAGE_HEADERLEN + length y) }.

Lemma ro_fitting msg y log :
  rendering_ok msg y log → fitting (DNS_MESSAGE_HEADERLEN + length y) (cctx (m_render msg)).
Proof.
  intros Ho. exists (replicate DNS_MESSAGE_HEADERLEN 0%Z ++ y). split; [by rewrite length_app, length_replicate|].
  apply (ro_at _ _ _ Ho). by rewrite length_replicate.
Qed.

Lemma ro_size msg y log : rendering_ok msg y log → DNS_MESSAGE_HEADERLEN + 5 * length log <= DNS_MESSAGE_HEADERLEN + length y.
Proof.
  intros Ho. destruct (ro_at _ _ _ Ho (replicate DNS_MESSAGE_HEADERLEN 0%Z)) as [_ Hl]; [by rewrite length_replicate|].
  by apply log_at_size in Hl.
Qed.

(** The message after a section. *)
Definition after_section msg (sectionid : nat) (section : list (mname St)) (f : Z) (total : nat) (c : compress)
    : message St :=
  let h := m_header msg in
  let msg := set_header msg (Header (id h) f (rcode h) (opcode h)) in
  let msg := set_sections msg (<[sectionid := section]> (m_sections msg)) in
  set_cctx (set_counts msg (alter (λ x, x + Z.of_nat total)%Z sectionid (m_counts msg))) c.

Lemma counts_alter (l : list Z) i a b :
  Forall (λ c, 0 <= c <= Z.of_nat a)%Z l → (Z.of_nat (a + b) < 2 ^ 32)%Z →
  alter (λ x, u32 (x + Z.of_nat b)) i l = alter (λ x, x + Z.of_nat b)%Z i l ∧
  Forall (λ c, 0 <= c <= Z.of_nat (a + b))%Z (alter (λ x, x + Z.of_nat b)%Z i l).
Proof.
  intros Hl Hb. revert i. induction Hl as [|c l Hc Hl IH]; intros i; [by split|].
  destruct i as [|i]; cbn.
  - split; [by rewrite u32_small by lia|]. constructor; [lia|]. eapply Forall_impl; [exact Hl|]. cbn. lia.
  - destruct (IH i) as [E F]. rewrite E. split; [done|]. constructor; [lia|done].
Qed.

Lemma mark_plan_ok sectionid options glue pass k names :
  names_ok names → names_ok (mark_plan sectionid options glue pass k names).
Proof.
  revert k names. induction pass as [|pass IH]; intros k names Hn; cbn; [done|].
  case_bool_decide; [by apply mark_names_ok|]. by apply IH, mark_names_ok.
Qed.

Lemma section_after_ok sectionid options k names : names_ok names → names_ok (section_after sectionid options k names).
Proof.
  intros Hn. unfold section_after. destruct (glue_job names); [destruct k; [done|]|]; apply mark_plan_ok; [|done].
  by apply mark_glue_ok.
Qed.

(** [dns_message_rendersection] of a section. *)
Lemma rendersection_ok msg y log sectionid options names :
  rendering_ok msg y log → m_sections msg !! sectionid = Some names →
  ∃ r k y' c' log',
    let partial := bool_decide (reserved (m_render msg) = 0%Z) && flag_set options DNS_MESSAGERENDER_PARTIAL in
    let msg' := after_section msg sectionid (section_after sectionid options k names)
                  (flags_after sectionid options k names (flags (m_header msg))) (length log') c' in
    progress partial (order_of sectionid options names) k r log' ∧
    (∀ h, length h = DNS_MESSAGE_HEADERLEN → rendersection (at_buffer msg (h ++ y)) sectionid options =
       Some (r, at_buffer msg' (h ++ y ++ y'))) ∧
    rendering_ok msg' (y ++ y') (log ++ log').
Proof.
  intros Ho Hs. pose proof (ro_fitting _ _ _ Ho) as Hf. destruct Ho as [Hsec Hfour Hcnt Hr Hroom Hlen Hsens Hat].
  set (cap := len - Z.to_nat (reserved (m_render msg))).
  assert (Z.of_nat cap = Z.of_nat len - reserved (m_render msg))%Z as Hcap by (subst cap; lia).
  assert (names_ok names) as Hn by (by eapply Forall_lookup_1 in Hs).
  destruct (render_all_ok order arrays ncache recs sectionid options
    (bool_decide (reserved (m_render msg) = 0%Z) && flag_set options DNS_MESSAGERENDER_PARTIAL) cap
    (if flag_set options DNS_MESSAGERENDER_OMITDNSSEC then DNS_RDATASETTOWIRE_OMITDNSSEC else 0%Z) names
    (DNS_MESSAGE_HEADERLEN + length y) (cctx (m_render msg))) as (r & k & y' & c' & log' & Hp & Hl & Hse & Hrun & Hok);
    [done|lia|lia|done|].
  exists r, k, y', c', log'. cbv zeta. split; [done|].
  assert (∀ h : mem, length h = DNS_MESSAGE_HEADERLEN → length (h ++ y) = DNS_MESSAGE_HEADERLEN + length y) as Hlh
    by (intros h Hh; by rewrite length_app, Hh).
  assert (∀ h, length h = DNS_MESSAGE_HEADERLEN → ctx_ok (h ++ y ++ y') c' ∧
    log_at sens (h ++ y ++ y') DNS_MESSAGE_HEADERLEN (log ++ log') (DNS_MESSAGE_HEADERLEN + length (y ++ y'))) as Hat'.
  { intros h Hh. destruct (Hat h Hh) as [Hc La]. destruct (Hok (h ++ y) (Hlh h Hh) Hc) as [Hc' Lb].
    rewrite app_assoc. split; [done|]. eapply log_at_app; [by apply log_at_mono|]. by rewrite <- Hsens, length_app, Nat.add_assoc. }
  assert (5 * length (log ++ log') <= length (y ++ y')) as Hsz.
  { destruct (Hat' (replicate DNS_MESSAGE_HEADERLEN 0%Z)) as [_ Hz%log_at_size]; [by rewrite length_replicate|]. lia. }
  destruct (counts_alter (m_counts msg) sectionid (length log) (length log') Hcnt) as [Ecnt Fcnt].
  { rewrite !length_app in Hsz. lia. }
  split.
  - intros h Hh. unfold dns_message_rendersection, at_buffer. cbn [m_render set_buffer set_render buffer m_sections mbind option_bind].
    rewrite Hs. cbn [mbind option_bind]. destruct (first_pass sectionid options) as [pass pg] eqn:Efp. cbn [reserved cctx m_header set_header].
    rewrite <- Hcap. cbn [fst snd] in Hrun. specialize (Hrun (h ++ y) (flags (m_header msg)) (Hlh h Hh)).
    destruct (render_glue _ _ _ _ _ _ _ _) as [[[r1 s1] g1]|]; [|done]. cbn [mbind option_bind] in Hrun |- *.
    rewrite Hrun. cbn [mbind option_bind]. unfold after_section. cbn. rewrite Ecnt, app_assoc. reflexivity.
  - split; cbn; try done.
    + apply Forall_insert; [done|by apply section_after_ok].
    + by rewrite length_insert, length_alter.
    + by rewrite length_app.
    + rewrite length_app. cbn in *. lia.
    + congruence.
Qed.

(** ** Beginning *)

Lemma renderbegin_ok msg base :
  buffer (m_render msg) = None → m_intent msg = DNS_MESSAGE_INTENTRENDER →
  Forall names_ok (m_sections msg) → length (m_sections msg) = DNS_SECTION_MAX →
  m_counts msg = replicate DNS_SECTION_MAX 0%Z → (0 <= reserved (m_render msg))%Z →
  length base = len → (Z.of_nat len < 2 ^ 16)%Z →
  (Z.of_nat DNS_MESSAGE_HEADERLEN + reserved (m_render msg) <= Z.of_nat len)%Z → sens = false →
  dns_message_renderbegin msg dns_compress_init base =
    Some (ISC_R_SUCCESS, at_buffer (set_cctx msg dns_compress_init) (take DNS_MESSAGE_HEADERLEN base ++ [])) ∧
  rendering_ok (set_cctx msg dns_compress_init) [] [].
Proof.
  intros Hb Hi Hs Hfour Hc Hr Hbase Hlen Hroom ->. unfold dns_message_renderbegin. split.
  - rewrite bool_decide_true by done. rewrite bool_decide_false, bool_decide_false by (cbn in *; lia).
    by rewrite app_nil_r, Hbase.
  - split; try done.
    + split; [done|]. cbn. by rewrite Hc.
    + cbn. rewrite Hc. by apply Forall_replicate.
    + intros h Hh. rewrite app_nil_r. split; [apply ctx_init_ok|done].
Qed.

(** ** The OPT record *)

(** The type's function is [towire_opt]. *)
Context (dispatch_opt : ∀ rd cctx cap m, rd_type rd = dns_rdatatype_opt →
  towire_switch rd cctx cap m = (w ← towire_opt rd cctx cap m; Some (Some w))).

(** An OPT record: one rdata, wherever its cursor is. *)
Record opt_ok (opt : rrset St) (rd : rdata) : Prop := {
  oo_renderable : renderable recs opt;
  oo_recs : recs (rr_state opt) = [rd];
  oo_type : rd_type rd = dns_rdatatype_opt;
  oo_noquestion : attr_set (rr_info opt) DNS_RDATASETATTR_QUESTION = false }.

Lemma root_ok : name_ok dns_rootname [[]].
Proof. split; [apply name_of_repr, labels_ok_root|done]. Qed.

Lemma root_towire c cap (m : mem) :
  1 <= cap - length m → dns_name_towire dns_rootname false c cap m = Some (ISC_R_SUCCESS, m ++ [0%Z], c).
Proof.
  intros Hm. unfold dns_name_towire, dns_compress_findglobal, dns_compress_add.
  replace (absolute dns_rootname) with true by done. replace (labels dns_rootname) with 1 by done.
  replace (length (ndata dns_rootname)) with 1 by done. replace (ndata dns_rootname) with [0%Z] by done.
  cbn [negb andb Nat.sub find_loop add_loop]. rewrite (bool_decide_true (true = true)), (bool_decide_true (0 < 1)) by (done || lia).
  assert ((if global14 c then if bool_decide (cc_count c = 0) then Some None
           else found ← Some None; match found with None => Some None | Some (n, nd) =>
             prefix ← (if bool_decide (n = 0) then Some (Name [] 0 false) else dns_name_getlabelsequence dns_rootname 0 n);
             Some (Some (prefix, cn_offset nd)) end
           else Some None) = @Some (option (name * Z)) None) as ->.
  { destruct (global14 c); [|done]. by case_bool_decide. }
  cbn [mbind option_bind]. by rewrite bool_decide_false by lia.
Qed.

Lemma opt_write_rr i rd cap (m : mem) c :
  rd_type rd = dns_rdatatype_opt → rd_ok rd → length m + (11 + length (rd_data rd)) <= cap → (Z.of_nat cap < 2 ^ 16)%Z →
  write_rr dns_rootname i (Some rd) c cap m =
    Some (ISC_R_SUCCESS, m ++ rr_bytes [0%Z] i (rd_data rd), dns_compress_setmethods c true).
Proof.
  intros Ht [_ Hfl] Hm Hcap. unfold write_rr. rewrite root_towire by lia. cbn [mbind option_bind].
  rewrite bool_decide_false by auto. rewrite length_app. cbn [length]. rewrite bool_decide_false by lia.
  set (z := ((m ++ [0%Z]) ++ enc16 (ri_type i) ++ enc16 (ri_rdclass i)) ++ enc32 (ri_ttl i)).
  assert (length z = length m + 9) as Hz by (subst z; rewrite !length_app; cbn; lia).
  unfold dns_rdata_towire. rewrite Hfl, bool_decide_false, dispatch_opt by auto. unfold towire_opt, mem_tobuffer.
  rewrite (bool_decide_true (rd_type rd = _)) by done.
  rewrite !(bool_decide_false (cap - _ < length (rd_data rd))) by (rewrite length_app; cbn; lia). cbn [mbind option_bind].
  rewrite !(bool_decide_false (ISC_R_SUCCESS ≠ ISC_R_SUCCESS)) by auto. cbn [mbind option_bind].
  rewrite ?(bool_decide_false (ISC_R_SUCCESS ≠ ISC_R_SUCCESS)) by auto. rewrite !length_app. cbn [length].
  rewrite bool_decide_true by lia. replace (length z + 2 + length (rd_data rd) - length z - 2) with (length (rd_data rd)) by lia.
  rewrite u16_small, <- app_assoc by lia. rewrite (mwrite_middle z [0; 0]%Z) by done. cbn [mbind option_bind].
  do 3 f_equal. subst z. unfold rr_bytes. by rewrite <- !app_assoc.
Qed.

(** With so much room it is written. *)
Lemma opt_fits opt rd cap n c :
  opt_ok opt rd → n + (11 + length (rd_data rd)) <= cap → (Z.of_nat cap < 2 ^ 16)%Z → fitting n c →
  ∃ y c', length y = 11 + length (rd_data rd) ∧ sensitive c' = sensitive c ∧
    (∀ m nc countp, length m = n →
      towiresorted (rr_state opt) (rr_info opt) dns_rootname None false (arrays opt) nc c cap m countp =
      Some ((ISC_R_SUCCESS, m ++ y, c'), countp + 1)) ∧
    (∀ m, length m = n → ctx_ok m c → ctx_ok (m ++ y) c' ∧
       log_at (sensitive c) (m ++ y) n [Entry dns_rootname (rr_info opt) (Some rd)] (n + length y)).
Proof.
  intros [Hre Hrec Ht Hq] Hn Hcap Hf. pose proof Hre as [Hng Hy _ Hrd]. rewrite Hrec in *.
  apply Forall_cons in Hrd as [Hrd _].
  destruct (answer_writes (rr_state opt) [rd] (rr_info opt) dns_rootname [[]] None false (arrays opt) c cap n
    Hy Hq Hng) as (items & r & y & c' & cnt & Hs & Hl & Hw & [Hsen Hctx Hr Hat]);
    [by constructor|apply root_ok|lia|done|done|].
  assert (items = [rd]) as -> by (apply Permutation_singleton_r; by eapply shown_perm).
  destruct (towiresorted_shown (rr_state opt) [rd] (rr_info opt) dns_rootname None false (arrays opt) Hy Hq Hng)
    as (items & Hs' & Hsh).
  assert (items = [rd]) as -> by (apply Permutation_singleton_r; by eapply shown_perm).
  destruct Hf as (m0 & Hm0 & Hc0).
  pose proof (Hsh (λ _ _ _ _, None) c cap m0 0) as E. rewrite (Hw m0 _ 0 Hm0) in E.
  rewrite (bool_decide_false ([rd] = [])) in E by done. cbn [write_sorted mbind option_bind] in E.
  rewrite opt_write_rr in E by (done || lia). cbn [mbind option_bind] in E.
  rewrite (bool_decide_false (ISC_R_SUCCESS ≠ ISC_R_SUCCESS)) in E by auto. cbn [mbind option_bind finish length] in E.
  rewrite (bool_decide_true (ISC_R_NOMORE = ISC_R_NOMORE)) in E by done.
  injection E as -> Ey%app_inv_head -> Ecnt. subst y.
  destruct Hr as [[_ ->]|[[? _]|[? _]]]; [|done..].
  exists (rr_bytes [0%Z] (rr_info opt) (rd_data rd)), (dns_compress_setmethods c true). split_and!; [|done| |].
  - rewrite rr_bytes_length. cbn; lia.
  - intros m nc countp Hm. by rewrite (Hw m nc countp Hm).
  - intros m Hm Hc. split; [by apply Hctx|]. eapply (rrs_log _ _ _ _ _ _ [rd]); [apply root_ok|by apply Hat].
Qed.

(** [dns_message_setopt] during the rendering, if there is room. *)
Definition with_opt msg (opt : rrset St) (space : Z) : message St :=
  set_opt (set_space (set_reserved msg space (sig_reserved (m_render msg))) (reserved (m_render msg) + space)) (Some opt).

Lemma setopt_ok msg y log opt st1 rd :
  rendering_ok msg y log → m_intent msg = DNS_MESSAGE_INTENTRENDER → m_state msg = DNS_SECTION_ANY → m_opt msg = None →
  ri_type (rr_info opt) = dns_rdatatype_opt → dns_rdataset_first (rr_state opt) = Some (ISC_R_SUCCESS, st1) →
  dns_rdataset_current st1 = Some rd →
  let space := (11 + Z.of_nat (length (rd_data rd)))%Z in
  (Z.of_nat (DNS_MESSAGE_HEADERLEN + length y) + reserved (m_render msg) + space <= Z.of_nat len)%Z →
  let msg' := with_opt msg (Rrset (rr_info opt) (rr_covers opt) (rr_trust opt) st1) space in
  (∀ h, length h = DNS_MESSAGE_HEADERLEN →
     dns_message_setopt (at_buffer msg (h ++ y)) opt = Some (ISC_R_SUCCESS, at_buffer msg' (h ++ y))) ∧
  rendering_ok msg' y log.
Proof.
  intros Ho Hi Hst Hop Ht Hfst Hcur space Hroom msg'. destruct Ho as [Hsec Hfour Hcnt Hr Hrm Hlen Hsens Hat].
  split.
  - intros h Hh. unfold dns_message_setopt. rewrite bool_decide_true by done.
    unfold msgresetopt. cbn [at_buffer set_buffer set_render m_opt]. rewrite Hop. cbn [mbind option_bind].
    rewrite Hfst. cbn [mbind option_bind]. rewrite bool_decide_false by auto. rewrite Hcur. cbn [mbind option_bind].
    fold space. rewrite (u32_small space) by (subst space; cbn in *; lia).
    unfold dns_message_renderreserve. cbn [at_buffer set_buffer set_reserved set_render m_render buffer reserved].
    rewrite !(u32_small (_ + _)) by (subst space; cbn in *; lia).
    rewrite (bool_decide_false (_ < _)%Z) by (rewrite length_app, Hh; cbn in *; lia).
    by rewrite bool_decide_false by auto.
  - subst msg'. split; cbn; try done; cbn in *; lia.
Qed.

(** What the OPT record of a message is in the log. *)
Definition opt_log msg (rd : rdata) : list entry :=
  match m_opt msg with
  | None => []
  | Some opt => [Entry dns_rootname (rr_info (with_ercode opt (rcode (m_header msg)))) (Some rd)]
  end.

(** Its space is reserved. *)
Definition opt_ready msg (rd : rdata) : Prop :=
  ∀ opt, m_opt msg = Some opt → opt_ok opt rd ∧
    opt_reserved (m_render msg) = (11 + Z.of_nat (length (rd_data rd)))%Z ∧
    (opt_reserved (m_render msg) <= reserved (m_render msg))%Z.

Lemma with_ercode_ok opt rd rc : opt_ok opt rd → opt_ok (with_ercode opt rc) rd.
Proof. intros [[Hn Hy Hq Hr] Hrec Ht Hnq]. split; [by split|done..]. Qed.

Lemma render_opt_ok msg y log rd :
  rendering_ok msg y log → opt_ready msg rd →
  ∃ msg' y', (∀ h, length h = DNS_MESSAGE_HEADERLEN →
      render_opt arrays ncache (at_buffer msg (h ++ y)) = Some (ISC_R_SUCCESS, at_buffer msg' (h ++ y ++ y'))) ∧
    rendering_ok msg' (y ++ y') (log ++ opt_log msg rd) ∧ m_header msg' = m_header msg ∧
    m_counts msg' = alter (λ x, x + Z.of_nat (length (opt_log msg rd)))%Z DNS_SECTION_ADDITIONAL (m_counts msg).
Proof.
  intros Ho Hready. unfold opt_log, render_opt. destruct (m_opt msg) as [opt|] eqn:Eo.
  2:{ exists msg, []. cbn [length]. rewrite !app_nil_r. split_and!; [|done..|].
      - intros h Hh. cbn [at_buffer set_buffer set_render m_opt]. rewrite Eo. done.
      - rewrite <- (list_alter_id (λ x, x + Z.of_nat 0)%Z (m_counts msg) DNS_SECTION_ADDITIONAL) at 1; [done|]. intros x. lia. }
  destruct (Hready opt Eo) as (Hok & Hres & Hle). pose proof (ro_fitting _ _ _ Ho) as Hf.
  destruct Ho as [Hsec Hfour Hcnt Hr Hrm Hlen Hsens Hat].
  destruct (opt_fits (with_ercode opt (rcode (m_header msg))) rd len (DNS_MESSAGE_HEADERLEN + length y) (cctx (m_render msg)))
    as (y' & c' & Hy & Hse & Hw & Hok'); [by apply with_ercode_ok|cbn in *; lia|done|done|].
  set (e := Entry dns_rootname (rr_info (with_ercode opt (rcode (m_header msg)))) (Some rd)) in *.
  assert (∀ h, length h = DNS_MESSAGE_HEADERLEN → ctx_ok (h ++ y ++ y') c' ∧
    log_at sens (h ++ y ++ y') DNS_MESSAGE_HEADERLEN (log ++ [e]) (DNS_MESSAGE_HEADERLEN + length (y ++ y'))) as Hat'.
  { intros h Hh. destruct (Hat h Hh) as [Hc La]. destruct (Hok' (h ++ y)) as [Hc' Lb]; [by rewrite length_app, Hh|done|].
    rewrite app_assoc. split; [done|]. eapply log_at_app; [by apply log_at_mono|]. by rewrite <- Hsens, length_app, Nat.add_assoc. }
  assert (5 * length (log ++ [e]) <= length (y ++ y')) as Hsz.
  { destruct (Hat' (replicate DNS_MESSAGE_HEADERLEN 0%Z)) as [_ Hz%log_at_size]; [by rewrite length_replicate|]. lia. }
  destruct (counts_alter (m_counts msg) DNS_SECTION_ADDITIONAL (length log) 1 Hcnt) as [Ecnt Fcnt].
  { rewrite !length_app in Hsz. cbn in *. lia. }
  set (r := m_render msg) in *.
  exists (set_counts (set_cctx (set_opt (set_reserved (set_space msg (reserved r - opt_reserved r)) 0 (sig_reserved r))
    (Some (with_ercode opt (rcode (m_header msg))))) c')
    (alter (λ x, x + Z.of_nat 1)%Z DNS_SECTION_ADDITIONAL (m_counts msg))), y'.
  split_and!; [| |done|done].
  - intros h Hh. cbn [at_buffer set_buffer set_render m_opt]. rewrite Eo. unfold dns_message_renderrelease.
    cbn [at_buffer set_buffer set_render m_render reserved opt_reserved]. fold r.
    rewrite bool_decide_true by done. rewrite u32_small by lia. cbn [mbind option_bind]. cbn [set_reserved set_opt set_render m_render buffer m_header].
    cbn [mbind option_bind rr_state rr_info cctx].
    change (arrays (with_ercode opt (rcode (m_header msg)))) with (arrays (with_ercode opt (rcode (m_header msg)))).
    fold r. rewrite (Hw (h ++ y)) by (by rewrite length_app, Hh). cbn [mbind option_bind Nat.add].
    cbn. rewrite Ecnt, app_assoc. reflexivity.
  - split; cbn; try done.
    + by rewrite length_alter.
    + by rewrite length_app.
    + fold r. lia.
    + fold r. rewrite length_app, Hy. cbn in Hrm. subst r. lia.
    + congruence.
Qed.

(** ** The header and the end *)

Definition header_bytes (h : header) (counts : list Z) : list Z :=
  enc16 (u16 (id h)) ++ enc16 (header_flags h) ++ mjoin ((λ c, enc16 (u16 c)) <$> counts).

Lemma header_bytes_length h counts : length counts = DNS_SECTION_MAX → length (header_bytes h counts) = DNS_MESSAGE_HEADERLEN.
Proof. intros Hc. do 5 (destruct counts as [|? counts]; [done|]). done. Qed.

Lemma renderheader_ok msg h z :
  length (m_counts msg) = DNS_SECTION_MAX → Forall (λ c, (c < 65536)%Z) (m_counts msg) → length h = DNS_MESSAGE_HEADERLEN →
  dns_message_renderheader msg (h ++ z) = Some (header_bytes (m_header msg) (m_counts msg) ++ z).
Proof.
  intros Hc Hf Hh. unfold dns_message_renderheader. fold (header_bytes (m_header msg) (m_counts msg)).
  rewrite bool_decide_true, bool_decide_true by (done || (rewrite length_app; lia)).
  apply (mwrite_middle [] h). by rewrite header_bytes_length.
Qed.

Lemma renderend_ok msg y log rd :
  rendering_ok msg y log → opt_ready msg rd →
  (Z.ldiff (rcode (m_header msg)) DNS_MESSAGE_RCODE_MASK = 0%Z ∨ m_opt msg ≠ None) →
  ∃ msg' y' b, b = header_bytes (m_header msg) (m_counts msg') ++ y ++ y' ∧
    (∀ h, length h = DNS_MESSAGE_HEADERLEN →
       dns_message_renderend arrays ncache (at_buffer msg (h ++ y)) = Some (ISC_R_SUCCESS, msg', b)) ∧
    m_counts msg' = alter (λ x, x + Z.of_nat (length (opt_log msg rd)))%Z DNS_SECTION_ADDITIONAL (m_counts msg) ∧
    length b <= len ∧ log_at sens b DNS_MESSAGE_HEADERLEN (log ++ opt_log msg rd) (length b).
Proof.
  intros Ho Hready Hrc. destruct (render_opt_ok msg y log rd Ho Hready) as (msg' & y' & Hw & Ho' & Hhd & Hcnt).
  destruct (ro_four _ _ _ Ho') as [_ Hfour]. pose proof (ro_len _ _ _ Ho') as Hlen. pose proof (ro_room _ _ _ Ho') as Hroom.
  pose proof (ro_reserved _ _ _ Ho') as Hr. pose proof (ro_size _ _ _ Ho') as Hsz.
  assert (Forall (λ c, (c < 65536)%Z) (m_counts msg')) as Hsmall.
  { eapply Forall_impl; [apply (ro_counts _ _ _ Ho')|]. cbn. cbn in *. lia. }
  pose proof (header_bytes_length (m_header msg) (m_counts msg') Hfour) as Hl.
  exists (set_buffer msg' None), y', (header_bytes (m_header msg) (m_counts msg') ++ y ++ y').
  assert (length (header_bytes (m_header msg) (m_counts msg') ++ y ++ y') = DNS_MESSAGE_HEADERLEN + length (y ++ y')) as Hb
    by (by rewrite length_app, Hl).
  split_and!; [done| |done|rewrite Hb; lia|].
  - intros h Hh. unfold dns_message_renderend. cbn [at_buffer set_buffer set_render m_render buffer mbind option_bind m_header m_opt].
    rewrite bool_decide_false by tauto.
    change (set_render msg (m_intent msg) _) with (at_buffer msg (h ++ y)). rewrite (Hw h Hh). cbn [mbind option_bind].
    cbn [at_buffer set_buffer set_render m_render buffer mbind option_bind]. rewrite bool_decide_false by auto.
    change (set_render msg' (m_intent msg') _) with (at_buffer msg' (h ++ y ++ y')).
    rewrite renderheader_ok by done. cbn [mbind option_bind at_buffer set_buffer set_render m_header m_counts]. by rewrite Hhd.
  - rewrite Hb. by apply (ro_at _ _ _ Ho').
Qed.
End Rendering.
