(* ===== verification/RenderOrder.v ===== *)
(** * In which order a section is rendered

    The passes of [dns_message_rendersection] take the rdatasets of a section
    by levels: [plan_levels] says that the plan is the levels one after the
    other, highest first, and within a level the order of the section.
    [order_of_jobs]: nothing is rendered twice and nothing is left out. *)
From S2P Require Import Prelude Qsort Rdata Name FromWire Compress Slab RbtdbRdataset Order Answer Message MessageRender RenderSpec RenderPlan RenderSection RenderMessage.

Section Order.
Context {St : Type}.
Implicit Types (rs : rrset St) (names : list (mname St)).
#[local] Abbreviation job := (name * rrset St)%type.

(** The rdatasets of a section with their owners. *)
Definition jobs names : list job := names ≫= λ n, pair (mn_name n) <$> mn_list n.

Definition rendered_bit rs : bool := attr_set (rr_info rs) DNS_RDATASETATTR_RENDERED.

Lemma mark_rendered rs : rendered_bit (mark rs) = true.
Proof.
  unfold rendered_bit, mark, with_attributes, attr_set. cbn. apply bool_decide_eq_true. intros E.
  apply (f_equal (λ z, Z.land z DNS_RDATASETATTR_RENDERED)) in E. rewrite <- Z.land_assoc, Z.land_lor_distr_l in E.
  apply (f_equal (λ z, Z.testbit z (Z.log2 DNS_RDATASETATTR_RENDERED))) in E.
  rewrite Z.lor_spec, !Z.land_spec in E. change (Z.testbit _ _) with true in E at 2. by rewrite !orb_true_r in E.
Qed.

Lemma filter_bind {A B} (P : B → Prop) `{∀ x, Decision (P x)} (f : A → list B) l :
  filter P (l ≫= f) = l ≫= λ x, filter P (f x).
Proof. induction l as [|x l IH]; [done|]. by rewrite !bind_cons, filter_app, IH. Qed.

Lemma filter_pair (P : job → Prop) `{∀ x, Decision (P x)} n (l : list (rrset St)) :
  filter P (pair n <$> l) = pair n <$> filter (λ rs, P (n, rs)) l.
Proof.
  induction l as [|rs l IH]; [done|]. cbn [fmap list_fmap]. rewrite !filter_cons.
  destruct (decide (P (n, rs))); [cbn [fmap list_fmap]; by rewrite IH|done].
Qed.

(** The jobs that are not rendered yet. *)
Definition unrendered names : list job := filter (λ j, rendered_bit j.2 = false) (jobs names).

Section Levels.
Context (sectionid : nat) (options preferred_glue : Z).
#[local] Abbreviation skipped := (MessageRender.skipped sectionid options preferred_glue).

(** The pass, of those from [pass] down to 1, in which a rdataset is
    rendered: 0 if it is rendered already. *)
Definition prioritized rs : bool :=
  negb (flag_set options DNS_MESSAGERENDER_ORDERED) && bool_decide (sectionid = DNS_SECTION_ADDITIONAL) &&
  bool_decide (ri_rdclass (rr_info rs) = dns_rdataclass_in).

Definition level (pass : nat) rs : nat :=
  if rendered_bit rs then 0
  else if prioritized rs then min pass (needed_pass rs preferred_glue) else pass.

Lemma skipped_level pass rs : skipped pass rs = bool_decide (rendered_bit rs = true ∨ level pass rs ≠ pass).
Proof.
  unfold MessageRender.skipped, level, prioritized, wrong_priority. fold (rendered_bit rs).
  destruct (rendered_bit rs); cbn [orb]; [symmetry; apply bool_decide_eq_true; by left|].
  destruct (_ && bool_decide (sectionid = _)); cbn [andb].
  2:{ symmetry. apply bool_decide_eq_false. by intros [?|?]. }
  destruct (decide (ri_rdclass (rr_info rs) = dns_rdataclass_in)) as [Hc|Hc].
  - rewrite (bool_decide_false (_ ≠ _)), (bool_decide_true (_ = dns_rdataclass_in)) by auto.
    case_bool_decide as Hp; symmetry; [apply bool_decide_eq_false|apply bool_decide_eq_true]; [|right; lia].
    intros [?|?]; [done|lia].
  - rewrite (bool_decide_true (_ ≠ _)), (bool_decide_false (_ = dns_rdataclass_in)) by auto.
    symmetry. apply bool_decide_eq_false. by intros [?|?].
Qed.

Lemma needed_positive rs : 1 <= needed_pass rs preferred_glue.
Proof. unfold needed_pass. repeat case_bool_decide; lia. Qed.

(** The jobs of level [q]. *)
Definition at_level (pass q : nat) names : list job := filter (λ j, level pass j.2 = q) (jobs names).

Lemma todo_level pass names :
  0 < pass → todo sectionid options preferred_glue pass names = at_level pass pass names.
Proof.
  intros Hp. unfold todo, todo_rrsets, at_level, jobs. rewrite filter_bind. induction names as [|n names IH]; [done|].
  rewrite !bind_cons, IH, filter_pair. f_equal. f_equal. apply list_filter_iff. intros rs. cbn [snd].
  rewrite skipped_level, bool_decide_eq_false. split.
  - intros Hn. destruct (decide (level pass rs = pass)); [done|]. exfalso. apply Hn. by right.
  - intros Hl [Hr|?]; [|done]. unfold level in Hl. rewrite Hr in Hl. lia.
Qed.

(** When a pass is done, its jobs have level 0 and the others the level they
    had. *)
Definition marked (pass : nat) (j : job) : job := if skipped pass j.2 then j else (j.1, mark j.2).

Lemma mark_all_rrsets pass (l : list (rrset St)) k owner :
  length (todo_rrsets sectionid options preferred_glue pass owner l) <= k →
  mark_rrsets sectionid options preferred_glue pass k l = (λ rs, if skipped pass rs then rs else mark rs) <$> l.
Proof.
  unfold todo_rrsets. rewrite length_fmap. revert k. induction l as [|rs l IH]; intros k; [done|].
  cbn [mark_rrsets fmap list_fmap]. rewrite filter_cons. destruct (skipped pass rs).
  - rewrite decide_False by done. intros Hk. f_equal. by apply IH.
  - rewrite decide_True by done. cbn [length]. intros Hk. destruct k as [|k]; [lia|]. f_equal. apply IH. lia.
Qed.

Lemma mark_all_names pass names k :
  length (todo sectionid options preferred_glue pass names) <= k →
  jobs (mark_names sectionid options preferred_glue pass k names) = marked pass <$> jobs names.
Proof.
  unfold todo, jobs. revert k. induction names as [|n names IH]; intros k; [done|].
  rewrite !bind_cons, length_app, fmap_app. intros Hk. cbn [mark_names]. rewrite bool_decide_false by lia.
  rewrite bind_cons, IH by lia. f_equal. cbn [mn_name mn_list]. rewrite (mark_all_rrsets _ _ _ (mn_name n)) by done.
  rewrite <- !list_fmap_compose. apply list_fmap_ext. intros i rs _. cbn. unfold marked. cbn. by destruct (skipped pass rs).
Qed.

Lemma marked_level pass j q :
  1 <= q <= pass → level pass (marked (S pass) j).2 = q ↔ level (S pass) j.2 = q.
Proof.
  intros Hq. unfold marked. rewrite skipped_level. case_bool_decide as Hs.
  - unfold level in *. destruct (rendered_bit j.2); [done|]. destruct (prioritized j.2); [lia|naive_solver].
  - cbn [snd]. assert (level pass (mark j.2) = 0) as -> by (unfold level; by rewrite mark_rendered).
    destruct (decide (level (S pass) j.2 = S pass)) as [E|E]; [lia|naive_solver].
Qed.

Lemma at_level_marked pass q names names' :
  1 <= q <= pass → jobs names' = marked (S pass) <$> jobs names → at_level pass q names' = at_level (S pass) q names.
Proof.
  intros Hq E. unfold at_level. rewrite E. clear E. induction (jobs names) as [|j js IH]; [done|].
  cbn [fmap list_fmap]. rewrite !filter_cons, IH. pose proof (marked_level pass j q Hq) as Hm.
  destruct (decide (level (S pass) j.2 = q)) as [E|E].
  - rewrite decide_True by naive_solver. f_equal. unfold marked. rewrite skipped_level, bool_decide_true; [done|]. right. lia.
  - by rewrite decide_False by naive_solver.
Qed.

(** The plan: level after level. *)
Lemma plan_levels pass names :
  plan sectionid options preferred_glue pass names = concat ((λ q, at_level pass q names) <$> reverse (seq 1 pass)).
Proof.
  revert names. induction pass as [|pass IH]; intros names; [done|].
  rewrite seq_S, reverse_app. cbn [plan reverse rev_append app fmap list_fmap concat Nat.add].
  rewrite todo_level by lia. f_equal. rewrite IH. f_equal. apply list_fmap_ext. intros i q Hq.
  apply list_elem_of_lookup_2, elem_of_reverse, elem_of_seq in Hq.
  apply at_level_marked; [lia|]. apply mark_all_names. by rewrite todo_level by lia.
Qed.

Lemma level_range pass rs : rendered_bit rs = false → 1 <= pass → 1 <= level pass rs <= pass.
Proof. intros Hr Hp. unfold level. rewrite Hr. pose proof (needed_positive rs). destruct (prioritized rs); lia. Qed.

(** Filtering by each of the possible values gives all. *)
Lemma filter_levels {A} (f : A → nat) (l : list A) n :
  concat ((λ q, filter (λ x, f x = q) l) <$> reverse (seq 1 n)) ≡ₚ filter (λ x, 1 <= f x <= n) l.
Proof.
  induction n as [|n IH].
  - cbn. induction l as [|x l IHl]; [done|].
    rewrite filter_cons_False by lia. done.
  - rewrite seq_S, reverse_app. cbn [reverse rev_append app fmap list_fmap concat Nat.add]. rewrite IH. clear IH.
    induction l as [|x l IHl]; [done|]. rewrite !filter_cons. destruct (decide (f x = S n)) as [E|E].
    + rewrite (decide_False (P := 1 <= f x <= n)), (decide_True (P := 1 <= f x <= S n)) by lia. cbn [app]. by rewrite IHl.
    + destruct (decide (1 <= f x <= n)) as [E2|E2].
      * rewrite decide_True by lia. by rewrite <- Permutation_middle, IHl.
      * by rewrite decide_False by lia.
Qed.

Lemma plan_unrendered pass names : 1 <= pass → plan sectionid options preferred_glue pass names ≡ₚ unrendered names.
Proof.
  intros Hp. rewrite plan_levels. unfold at_level. rewrite (filter_levels (λ j, level pass j.2)). unfold unrendered.
  apply reflexive_eq. apply list_filter_iff. intros j. destruct (rendered_bit j.2) eqn:E.
  - split; [|done]. unfold level. rewrite E. lia.
  - split; [done|]. intros _. by apply level_range.
Qed.
End Levels.

Lemma first_pass_range sectionid options : 1 <= (first_pass sectionid options).1 <= 4.
Proof. unfold first_pass. destruct (_ && _); [|cbn; lia]. destruct (flag_set _ _); [cbn; lia|]. destruct (flag_set _ _); cbn; lia. Qed.

(** All that is not rendered yet, each once. *)
Lemma order_of_jobs sectionid options names : order_of sectionid options names ≡ₚ unrendered names.
Proof.
  pose proof (first_pass_range sectionid options) as Hp. unfold order_of.
  destruct names as [|[n [|rs l]] names]; cbn [glue_job]; [by apply plan_unrendered; lia..|].
  destruct (_ && _) eqn:E; [|by apply plan_unrendered; lia].
  apply andb_true_iff in E as [_ E%negb_true_iff]. rewrite plan_unrendered by lia.
  unfold unrendered, jobs. cbn [mark_glue]. rewrite !bind_cons. cbn [mn_name mn_list fmap list_fmap app].
  rewrite !filter_cons. cbn [snd]. rewrite (decide_False (P := rendered_bit (mark rs) = false)) by (by rewrite mark_rendered).
  by rewrite decide_True.
Qed.
End Order.

(** ** A section, in terms of its levels *)

Section Spec.
Context `{RdatasetMethods St, Qsort, IscRandom, TowireOk}.
Context (order : option (rdata → Z)) (arrays : rrset St → bool)
  (ncache : rrset St → Z → compress → nat → mem → nat → option (written * nat)).
Context (recs : St → list rdata) (len : nat) (sens : bool).
Implicit Types (msg : message St).

(** C0: What [dns_message_rendersection] does to a message in the course of
    rendering, whatever the header will be. The rdatasets of the section that
    are not rendered yet, each once, are taken in this order: required glue
    at the start of the section first, then, in the additional section, unless
    the caller asks for the order of the section, addresses of the preferred
    type, the other addresses, keys and signatures, and the rest; within a
    level, and in the other sections, as they stand in the section. The
    result is [ISC_R_SUCCESS] and the records of all of them are appended, in
    an order that their attributes and the server allow, or
    [ISC_R_NOSPACE] and those of the first [k] are, and, if a partial answer
    may be given and no space is reserved, some records of the next. The
    records are counted in the section's count, those [k] rdatasets are
    marked, so that they are not rendered again, the bytes before are not
    changed, and the space that is reserved is still free. *)
Theorem rendersection_spec msg y log sectionid options names :
  rendering_ok recs len sens msg y log → m_sections msg !! sectionid = Some names →
  ∃ js r k y' c' log',
    let '(pass, preferred_glue) := first_pass sectionid options in
    let partial := bool_decide (reserved (m_render msg) = 0%Z) && flag_set options DNS_MESSAGERENDER_PARTIAL in
    let msg' := after_section msg sectionid (section_after sectionid options k names)
                  (flags_after sectionid options k names (flags (m_header msg))) (length log') c' in
    js ≡ₚ unrendered names ∧ (∀ j, glue_job names = Some j → head js = Some j) ∧
    (glue_job names = None →
       js = concat ((λ q, at_level sectionid options preferred_glue pass q names) <$> reverse (seq 1 pass))) ∧
    progress order arrays recs partial js k r log' ∧
    (∀ h, length h = DNS_MESSAGE_HEADERLEN →
       dns_message_rendersection order arrays ncache (at_buffer len msg (h ++ y)) sectionid options =
       Some (r, at_buffer len msg' (h ++ y ++ y'))) ∧
    rendering_ok recs len sens msg' (y ++ y') (log ++ log').
Proof.
  intros Ho Hs. destruct (rendersection_ok order arrays ncache recs len sens msg y log sectionid options names Ho Hs)
    as (r & k & y' & c' & log' & Hp & Hrun & Ho').
  exists (order_of sectionid options names), r, k, y', c', log'. destruct (first_pass sectionid options) as [pass glue] eqn:E.
  split_and!; [apply order_of_jobs| | |done..].
  - intros j Hj. unfold order_of. by rewrite Hj.
  - intros Hj. unfold order_of. rewrite Hj, plan_levels. by rewrite E.
Qed.
End Spec.
