(* ===== verification/ClientSend.v ===== *)
(** * Sending a reply

    [ns_client_send] of [bin/named/client.c]: the reply in a client's message
    is rendered into a buffer of the size that the transport allows, section
    by section, and cut off with the TC flag where it does not fit; with
    [client_allocsendbuf] and [client_addopt].

    The bytes given to [client_sendpkg], which hands them to the socket, are
    the result here. [base] is what the buffer holds before. *)
From S2P Require Import Prelude Qsort Rdata Name FromWire Compress Slab RbtdbRdataset Order Answer Message Opt MessageRender RenderSpec RenderPlan RenderSection RenderMessage.

Definition TCP_BUFFER_SIZE : nat := Z.to_nat (65535 + 2).
Definition SEND_BUFFER_SIZE : Z := 4096.

Definition NS_CLIENTATTR_TCP : Z := 0x01.
Definition NS_CLIENTATTR_RA : Z := 0x02.
Definition NS_CLIENTATTR_WANTDNSSEC : Z := 0x10.
Definition NS_CLIENTATTR_WANTNSID : Z := 0x20.

Definition DNS_MESSAGEFLAG_RA : Z := 0x0080.
Definition DNS_MESSAGEEXTFLAG_REPLYPRESERVE : Z := 0x8000.
Definition DNS_OPT_NSID : Z := 0x0003.

(** The fields of [struct ns_client] that matter here; [c_preferred_glue] is
    that of the view, if there is one, and [c_tcpbuf] whether a buffer for
    TCP is allocated. *)
Record client (St : Type) := Client {
  c_attributes : Z; c_udpsize : Z; c_extflags : Z; c_preferred_glue : option Z; c_opt : option (rrset St);
  c_message : message St; c_tcpbuf : bool }.
Arguments Client {_}.
Arguments c_attributes {_}.
Arguments c_udpsize {_}.
Arguments c_extflags {_}.
Arguments c_preferred_glue {_}.
Arguments c_opt {_}.
Arguments c_message {_}.
Arguments c_tcpbuf {_}.

Section Send.
Context `{RdatasetMethods St, Qsort, Alloc, TowireSwitch, IscRandom}.
Context (order : option (rdata → Z)) (arrays : rrset St → bool)
  (ncache : rrset St → Z → compress → nat → mem → nat → option (written * nat)).
Implicit Types (c : client St) (msg : message St).

Definition TCP_CLIENT c : bool := flag_set (c_attributes c) NS_CLIENTATTR_TCP.

Definition set_message c msg : client St :=
  Client (c_attributes c) (c_udpsize c) (c_extflags c) (c_preferred_glue c) (c_opt c) msg (c_tcpbuf c).
Definition set_tcpbuf c (b : bool) : client St :=
  Client (c_attributes c) (c_udpsize c) (c_extflags c) (c_preferred_glue c) (c_opt c) (c_message c) b.
Definition no_opt c : client St :=
  Client (c_attributes c) (c_udpsize c) (c_extflags c) (c_preferred_glue c) None (c_message c) (c_tcpbuf c).

Definition with_flags msg (f : Z) : message St :=
  let h := m_header msg in set_header msg (Header (id h) f (rcode h) (opcode h)).

(** [client_allocsendbuf] for a message that is to be rendered: the length of
    the buffer. [mem_ok] is whether [isc_mem_get] succeeds. *)
Definition client_allocsendbuf c (mem_ok : bool) : option (isc_result * nat * client St) :=
  if TCP_CLIENT c then
    if c_tcpbuf c then None
    else if mem_ok then Some (ISC_R_SUCCESS, TCP_BUFFER_SIZE - 2, set_tcpbuf c true)
    else Some (ISC_R_NOMEMORY, 0, c)
  else
    let bufsize := if bool_decide (c_udpsize c < SEND_BUFFER_SIZE)%Z then c_udpsize c else SEND_BUFFER_SIZE in
    Some (ISC_R_SUCCESS, Z.to_nat bufsize, c).

(** A section that must fit: without space, TC is set and the sending goes on
    at [renderend]; after another error it goes to [done]. *)
Definition send_section (sectionid : nat) (options : Z) msg (next : message St → option (isc_result * message St))
    : option (isc_result * message St) :=
  '(result, msg) ← dns_message_rendersection order arrays ncache msg sectionid options;
  if bool_decide (result = ISC_R_NOSPACE) then
    Some (ISC_R_SUCCESS, with_flags msg (Z.lor (flags (m_header msg)) DNS_MESSAGEFLAG_TC))
  else if bool_decide (result ≠ ISC_R_SUCCESS) then Some (result, msg)
  else next msg.

Definition render_opts c : Z :=
  if flag_set (c_attributes c) NS_CLIENTATTR_WANTDNSSEC then 0%Z else DNS_MESSAGERENDER_OMITDNSSEC.

Definition preferred_glue c : Z :=
  match c_preferred_glue c with
  | Some t => if bool_decide (t = dns_rdatatype_a) then DNS_MESSAGERENDER_PREFER_A
              else if bool_decide (t = dns_rdatatype_aaaa) then DNS_MESSAGERENDER_PREFER_AAAA else 0%Z
  | None => 0%Z
  end.

Definition send_sections c msg : option (isc_result * message St) :=
  let partial := Z.lor DNS_MESSAGERENDER_PARTIAL (render_opts c) in
  send_section DNS_SECTION_QUESTION 0 msg (λ msg,
  send_section DNS_SECTION_ANSWER partial msg (λ msg,
  send_section DNS_SECTION_AUTHORITY partial msg (λ msg,
    '(result, msg) ← dns_message_rendersection order arrays ncache msg DNS_SECTION_ADDITIONAL
                       (Z.lor (preferred_glue c) (render_opts c));
    Some (if bool_decide (result = ISC_R_NOSPACE) then ISC_R_SUCCESS else result, msg)))).

(** [goto done] *)
Definition send_failed c msg (result : isc_result) : option (isc_result * client St * option mem) :=
  Some (result, set_tcpbuf (set_message c msg) false, None).

Definition ns_client_send c (base : mem) (mem_ok : bool) : option (isc_result * client St * option mem) :=
  let msg := c_message c in
  let msg := if flag_set (c_attributes c) NS_CLIENTATTR_RA
             then with_flags msg (Z.lor (flags (m_header msg)) DNS_MESSAGEFLAG_RA) else msg in
  '(result, size, c) ← client_allocsendbuf c mem_ok;
  if bool_decide (result ≠ ISC_R_SUCCESS) then send_failed c msg result else
  '(result, msg) ← dns_message_renderbegin msg dns_compress_init (take size base);
  if bool_decide (result ≠ ISC_R_SUCCESS) then send_failed c msg result else
  '(result, msg) ← (match c_opt c with
                    | Some opt => dns_message_setopt msg opt
                    | None => Some (ISC_R_SUCCESS, msg)
                    end);
  let c := no_opt c in
  if bool_decide (result ≠ ISC_R_SUCCESS) then send_failed c msg result else
  '(result, msg) ← send_sections c msg;
  if bool_decide (result ≠ ISC_R_SUCCESS) then send_failed c msg result else
  '(result, msg, used) ← dns_message_renderend arrays ncache msg;
  if bool_decide (result ≠ ISC_R_SUCCESS) then send_failed c msg result else
  Some (ISC_R_SUCCESS, set_message c msg,
        Some (if TCP_CLIENT c then enc16 (u16 (Z.of_nat (length used))) ++ used else used)).
End Send.

(** [client_addopt]: the OPT record of a reply. [server_id] is the name to
    give with NSID, or [ns_os_gethostname]'s, if the server has one;
    [udpsize] is that of the resolver or of the server; the requests to the
    allocator are [mem_get]. *)
Definition client_addopt (mem_get : nat → bool) (c : client rdatalist) (udpsize : Z) (server_id : option (list Z))
    (buffer_ok : bool) : option (isc_result * client rdatalist) :=
  if bool_decide (c_opt c = None) then
    let '(ok, msg) := ask mem_get (c_message c) in
    if negb ok then Some (ISC_R_NOMEMORY, set_message c msg) else
    let '(ok, msg) := ask mem_get msg in
    if negb ok then Some (ISC_R_NOMEMORY, set_message c msg) else
    let '(result, msg) := dns_message_gettemprdataset mem_get msg in
    if bool_decide (result ≠ ISC_R_SUCCESS) then Some (result, set_message c msg) else
    let data := match server_id with
                | Some nsid => if flag_set (c_attributes c) NS_CLIENTATTR_WANTNSID && buffer_ok
                               then enc16 DNS_OPT_NSID ++ enc16 (u16 (Z.of_nat (length nsid))) ++ nsid else []
                | None => []
                end in
    let rdata := Rdata data udpsize dns_rdatatype_opt 0 in
    let ttl := Z.land (c_extflags c) DNS_MESSAGEEXTFLAG_REPLYPRESERVE in
    let opt := Rrset (RdsInfo 0 (2 ^ 32 - 1) udpsize dns_rdatatype_opt ttl) 0 0
                     (Rdatalist dns_rdatatype_opt [rdata] None) in
    Some (ISC_R_SUCCESS, Client (c_attributes c) (c_udpsize c) (c_extflags c) (c_preferred_glue c) (Some opt) msg
                           (c_tcpbuf c))
  else None.
