(* ===== verification/SendSpec.v ===== *)
(** * What a client is sent

    [ns_client_send] of a reply whose rdatasets keep their promises gives the
    socket one message, no longer than the transport allows: the header,
    then for each section the records of the jobs in the order of [order_of],
    all of them or as many as fit, then the OPT record, for which there is
    always room. *)
From S2P Require Import Prelude Qsort Rdata Name FromWire Compress Slab RbtdbRdataset Order Answer Message Opt MessageRender RenderSpec RenderPlan RenderSection RenderMessage ClientSend.

Section Send.
Context `{RdatasetMethods St, Qsort, IscRandom, TowireOk}.
Context (order : option (rdata → Z)) (arrays : rrset St → bool)
  (ncache : rrset St → Z → compress → nat → mem → nat → option (written * nat)).
Context (recs : St → list rdata).
Context (dispatch_opt : ∀ rd cctx cap m, rd_type rd = dns_rdatatype_opt →
  towire_switch rd cctx cap m = (w ← towire_opt rd cctx cap m; Some (Some w))).
Implicit Types (msg : message St) (c : client St).
#[local] Abbreviation progress := (RenderSpec.progress order arrays recs).
#[local] Abbreviation names_ok := (RenderPlan.names_ok recs).

(** What becomes of the sections, from [sectionid] on, with their options:
    the flags before, the entries written for each, and the flags after. A
    section that does not fit is the last; it sets TC unless it is the
    additional section. *)
Inductive sent (partial : bool) : nat → list (Z * list (mname St)) → Z → list (list entry) → Z → Prop :=
  | sent_end i f : sent partial i [] f [] f
  | sent_all i opts names rest f k log logs f' :
      progress (partial && flag_set opts DNS_MESSAGERENDER_PARTIAL) (order_of i opts names) k ISC_R_SUCCESS log →
      sent partial (S i) rest (flags_after i opts k names f) logs f' →
      sent partial i ((opts, names) :: rest) f (log :: logs) f'
  | sent_cut i opts names rest f k log :
      progress (partial && flag_set opts DNS_MESSAGERENDER_PARTIAL) (order_of i opts names) k ISC_R_NOSPACE log →
      let f' := flags_after i opts k names f in
      sent partial i ((opts, names) :: rest) f (log :: ((λ _, []) <$> rest))
        (if bool_decide (i = DNS_SECTION_ADDITIONAL) then f' else Z.lor f' DNS_MESSAGEFLAG_TC).

(** The options of the sections. *)
Definition section_options c : list Z :=
  let partial := Z.lor DNS_MESSAGERENDER_PARTIAL (render_opts c) in
  [0%Z; partial; partial; Z.lor (preferred_glue c) (render_opts c)].

Definition size_of c : nat :=
  if TCP_CLIENT c then TCP_BUFFER_SIZE - 2
  else Z.to_nat (if bool_decide (c_udpsize c < SEND_BUFFER_SIZE)%Z then c_udpsize c else SEND_BUFFER_SIZE).

(** A reply that may be sent: nothing is rendered or reserved yet, and an OPT
    record, with rdata [rd], fits into the buffer with the header. *)
Record reply_ready c (rd : rdata) : Prop := {
  rr_sections : Forall names_ok (m_sections (c_message c));
  rr_four : length (m_sections (c_message c)) = DNS_SECTION_MAX;
  rr_counts : m_counts (c_message c) = replicate DNS_SECTION_MAX 0%Z;
  rr_intent : m_intent (c_message c) = DNS_MESSAGE_INTENTRENDER;
  rr_fresh : m_state (c_message c) = DNS_SECTION_ANY ∧ m_opt (c_message c) = None ∧
    buffer (m_render (c_message c)) = None ∧ reserved (m_render (c_message c)) = 0%Z;
  rr_rcode : Z.ldiff (rcode (m_header (c_message c))) DNS_MESSAGE_RCODE_MASK = 0%Z ∨ c_opt c ≠ None;
  rr_transport : if TCP_CLIENT c then c_tcpbuf c = false else (512 <= c_udpsize c < 65536)%Z;
  rr_opt : ∀ opt, c_opt c = Some opt → ri_type (rr_info opt) = dns_rdatatype_opt ∧
    (11 + Z.of_nat (length (rd_data rd)) <= 500)%Z ∧
    ∃ st, dns_rdataset_first (rr_state opt) = Some (ISC_R_SUCCESS, st) ∧ dns_rdataset_current st = Some rd ∧
      opt_ok recs (Rrset (rr_info opt) (rr_covers opt) (rr_trust opt) st) rd }.

Lemma size_bounds c rd : reply_ready c rd → 512 <= size_of c ∧ (Z.of_nat (size_of c) < 2 ^ 16)%Z.
Proof.
  intros Hc. pose proof (rr_transport _ _ Hc) as Ht. unfold size_of, TCP_BUFFER_SIZE, SEND_BUFFER_SIZE.
  destruct (TCP_CLIENT c); [lia|]. case_bool_decide; lia.
Qed.

(** ** The sections one after the other *)

Fixpoint add_counts (i : nat) (logs : list (list entry)) (counts : list Z) : list Z :=
  match logs with
  | [] => counts
  | log :: logs => add_counts (S i) logs (alter (λ x, x + Z.of_nat (length log))%Z i counts)
  end.

Lemma add_counts_nil {A} i (l : list A) counts : add_counts i ((λ _, []) <$> l) counts = counts.
Proof.
  revert i counts. induction l as [|a l IH]; intros i counts; cbn; [done|]. rewrite IH. apply list_alter_id. intros x. lia.
Qed.

Section Sections.
Context (len : nat).
#[local] Abbreviation rendering_ok := (RenderMessage.rendering_ok recs len false).

(** What sending some sections leaves alone. *)
Record kept msg msg' : Prop := {
  kp_id : id (m_header msg') = id (m_header msg); kp_rcode : rcode (m_header msg') = rcode (m_header msg);
  kp_opcode : opcode (m_header msg') = opcode (m_header msg); kp_opt : m_opt msg' = m_opt msg;
  kp_reserved : reserved (m_render msg') = reserved (m_render msg);
  kp_opt_reserved : opt_reserved (m_render msg') = opt_reserved (m_render msg) }.

(** [run] sends the sections from [i] on. *)
Definition sends (partial : bool) (i : nat) (specs : list (Z * list (mname St)))
    (run : message St → option (isc_result * message St)) : Prop :=
  ∀ msg y log, rendering_ok msg y log → snd <$> specs = drop i (m_sections msg) →
    partial = bool_decide (reserved (m_render msg) = 0%Z) →
    ∃ msg' y' logs f', sent partial i specs (flags (m_header msg)) logs f' ∧
      (∀ h, length h = DNS_MESSAGE_HEADERLEN →
         run (at_buffer len msg (h ++ y)) = Some (ISC_R_SUCCESS, at_buffer len msg' (h ++ y ++ y'))) ∧
      rendering_ok msg' (y ++ y') (log ++ concat logs) ∧ flags (m_header msg') = f' ∧ kept msg msg' ∧
      m_counts msg' = add_counts i logs (m_counts msg).

Lemma progress_result partial todo k r log : progress partial todo k r log → r = ISC_R_SUCCESS ∨ r = ISC_R_NOSPACE.
Proof. intros (_ & _ & _ & _ & [[-> _]|[-> _]]); auto. Qed.

Lemma specs_head (i : nat) opts names (rest : list (Z * list (mname St))) (sections : list (list (mname St))) :
  snd <$> ((opts, names) :: rest) = drop i sections →
  sections !! i = Some names ∧ ∀ names', snd <$> rest = drop (S i) (<[i := names']> sections).
Proof.
  intros E. assert (sections !! i = Some names) as Hi.
  { rewrite <- (Nat.add_0_r i), <- lookup_drop, <- E. done. }
  split; [done|]. intros names'. rewrite drop_insert_lt by lia. rewrite (drop_S _ _ _ Hi) in E. by injection E.
Qed.

Lemma set_flags_ok msg f y log : rendering_ok msg y log → rendering_ok (with_flags msg f) y log.
Proof. by intros []. Qed.

Lemma concat_nils {A B} (l : list B) : concat ((λ _, []) <$> l) = @nil A.
Proof. by induction l. Qed.

Lemma sends_last partial opts names :
  sends partial DNS_SECTION_ADDITIONAL [(opts, names)] (λ msg,
    '(result, msg) ← dns_message_rendersection order arrays ncache msg DNS_SECTION_ADDITIONAL opts;
    Some (if bool_decide (result = ISC_R_NOSPACE) then ISC_R_SUCCESS else result, msg)).
Proof.
  intros msg y log Ho Hs Hp. destruct (specs_head _ _ _ _ _ Hs) as [Hi _].
  destruct (rendersection_ok order arrays ncache recs len false msg y log _ opts names Ho Hi)
    as (r & k & y' & c' & log' & Hpr & Hrun & Ho'). rewrite <- Hp in Hpr.
  exists (after_section msg DNS_SECTION_ADDITIONAL (section_after DNS_SECTION_ADDITIONAL opts k names)
    (flags_after DNS_SECTION_ADDITIONAL opts k names (flags (m_header msg))) (length log') c'), y', [log'],
    (flags_after DNS_SECTION_ADDITIONAL opts k names (flags (m_header msg))).
  split_and!; [| |by rewrite (app_nil_r log' : concat [log'] = log')|done|done|done].
  - destruct (progress_result _ _ _ _ _ Hpr) as [-> | ->].
    + by eapply sent_all; [|apply sent_end].
    + by eapply (sent_cut partial DNS_SECTION_ADDITIONAL opts names []).
  - intros h Hh. rewrite Hrun by done. cbn [mbind option_bind].
    destruct (progress_result _ _ _ _ _ Hpr) as [-> | ->]; [by rewrite bool_decide_false|by rewrite bool_decide_true].
Qed.

Lemma sends_more partial i opts names rest next :
  i ≠ DNS_SECTION_ADDITIONAL → sends partial (S i) rest next →
  sends partial i ((opts, names) :: rest) (λ msg, send_section order arrays ncache i opts msg next).
Proof.
  intros Hi Hnext msg y log Ho Hs Hp. destruct (specs_head _ _ _ _ _ Hs) as [Hat Hrest].
  destruct (rendersection_ok order arrays ncache recs len false msg y log i opts names Ho Hat)
    as (r & k & y' & c' & log' & Hpr & Hrun & Ho'). rewrite <- Hp in Hpr.
  set (f := flags_after i opts k names (flags (m_header msg))) in *.
  set (msg' := after_section msg i (section_after i opts k names) f (length log') c') in *.
  destruct (progress_result _ _ _ _ _ Hpr) as [-> | ->].
  - destruct (Hnext msg' (y ++ y') (log ++ log') Ho' (Hrest _) Hp)
      as (msg2 & y2 & logs & f2 & Hsent & Hrun2 & Ho2 & Hf2 & Hk & Hc2).
    exists msg2, (y' ++ y2), (log' :: logs), f2. split_and!; [| |cbn [concat]; rewrite !app_assoc; exact Ho2|done| |done].
    + eapply sent_all; [exact Hpr|exact Hsent].
    + intros h Hh. unfold send_section. rewrite Hrun by done. cbn [mbind option_bind].
      rewrite (bool_decide_false (ISC_R_SUCCESS = ISC_R_NOSPACE)), (bool_decide_false (_ ≠ _)) by auto.
      rewrite <- (app_assoc y y' y2) in Hrun2. by apply Hrun2.
    + destruct Hk. by split.
  - exists (with_flags msg' (Z.lor f DNS_MESSAGEFLAG_TC)), y', (log' :: ((λ _, []) <$> rest)), (Z.lor f DNS_MESSAGEFLAG_TC).
    split_and!; [| |by cbn [concat]; rewrite concat_nils, app_nil_r; apply set_flags_ok|done|done|].
    + pose proof (sent_cut partial i opts names rest (flags (m_header msg)) k log' Hpr) as Hc. cbv zeta in Hc.
      by rewrite bool_decide_false in Hc by done.
    + intros h Hh. unfold send_section. rewrite Hrun by done. cbn [mbind option_bind]. by rewrite bool_decide_true.
    + cbn [add_counts]. by rewrite add_counts_nil.
Qed.

Lemma send_sections_ok partial c q a n r :
  sends partial 0 (zip (section_options c) [q; a; n; r]) (send_sections order arrays ncache c).
Proof.
  unfold section_options, send_sections. cbn [zip zip_with].
  do 3 (apply sends_more; [by apply (bool_decide_eq_false_1 _)|]). apply sends_last.
Qed.
End Sections.

Lemma sent_length partial i specs f logs f' : sent partial i specs f logs f' → length logs = length specs.
Proof. induction 1 as [| |i opts names rest f k log]; cbn; [done|by f_equal|by rewrite length_fmap]. Qed.

(** ** The message that is sent *)

Definition flags_of c : Z :=
  let f := flags (m_header (c_message c)) in
  if flag_set (c_attributes c) NS_CLIENTATTR_RA then Z.lor f DNS_MESSAGEFLAG_RA else f.

(** The OPT record as an entry. *)
Definition opt_entries c (rd : rdata) : list entry :=
  match c_opt c with
  | None => []
  | Some opt => [Entry dns_rootname (rr_info (with_ercode opt (rcode (m_header (c_message c))))) (Some rd)]
  end.

Definition count_of (logs : list (list entry)) : list Z := (λ l, Z.of_nat (length l)) <$> logs.

Lemma counts_sent (logs : list (list entry)) (extra : list entry) :
  length logs = DNS_SECTION_MAX →
  alter (λ x, x + Z.of_nat (length extra))%Z DNS_SECTION_ADDITIONAL (add_counts 0 logs (replicate DNS_SECTION_MAX 0%Z)) =
  count_of (alter (λ l, l ++ extra) DNS_SECTION_ADDITIONAL logs).
Proof.
  intros Hl. destruct logs as [|l0 [|l1 [|l2 [|l3 [|? ?]]]]]; try done.
  unfold count_of. cbn. by rewrite length_app, Nat2Z.inj_add.
Qed.

Lemma renderbegin_size c (base : mem) : size_of c <= length base → length (take (size_of c) base) = size_of c.
Proof. intros. rewrite length_take. lia. Qed.

Lemma client_allocsendbuf_ok c rd mem_ok :
  reply_ready c rd → (TCP_CLIENT c = true → mem_ok = true) →
  ∃ c', client_allocsendbuf c mem_ok = Some (ISC_R_SUCCESS, size_of c, c') ∧ c_opt c' = c_opt c ∧
    c_attributes c' = c_attributes c ∧ c_preferred_glue c' = c_preferred_glue c.
Proof.
  intros Hc Hm. pose proof (rr_transport _ _ Hc) as Ht. unfold client_allocsendbuf, size_of.
  destruct (TCP_CLIENT c); [|by exists c]. rewrite Ht, Hm by done. by exists (set_tcpbuf c true).
Qed.

Lemma header_eta (h : header) : h = Header (id h) (flags h) (rcode h) (opcode h).
Proof. by destruct h. Qed.

Lemma client_send_outcome c rd (base : mem) mem_ok :
  reply_ready c rd → (TCP_CLIENT c = true → mem_ok = true) → size_of c <= length base →
  ∃ c' b logs f,
    ns_client_send order arrays ncache c base mem_ok =
      Some (ISC_R_SUCCESS, c', Some (if TCP_CLIENT c then enc16 (u16 (Z.of_nat (length b))) ++ b else b)) ∧
    length b <= size_of c ∧
    sent (bool_decide (c_opt c = None)) 0 (zip (section_options c) (m_sections (c_message c))) (flags_of c) logs f ∧
    (let h := m_header (c_message c) in
     take DNS_MESSAGE_HEADERLEN b = header_bytes (Header (id h) f (rcode h) (opcode h))
       (count_of (alter (λ l, l ++ opt_entries c rd) DNS_SECTION_ADDITIONAL logs))) ∧
    log_at false b DNS_MESSAGE_HEADERLEN (concat logs ++ opt_entries c rd) (length b).
Proof.
  intros Hc Hmem Hbase. destruct (size_bounds _ _ Hc) as [Hlo Hhi].
  destruct (client_allocsendbuf_ok c rd mem_ok Hc Hmem) as (c1 & Ea & Eo1 & Eat & Eg).
  destruct Hc as [Hsec Hfour Hcnt Hint (Hst & Hop & Hbuf & Hres) Hrc Htr Hopt].
  set (msg0 := if flag_set (c_attributes c) NS_CLIENTATTR_RA
               then with_flags (c_message c) (Z.lor (flags (m_header (c_message c))) DNS_MESSAGEFLAG_RA) else c_message c).
  assert (kept (c_message c) msg0 ∧ flags (m_header msg0) = flags_of c ∧ m_sections msg0 = m_sections (c_message c) ∧
    m_counts msg0 = m_counts (c_message c) ∧ m_intent msg0 = m_intent (c_message c) ∧ m_state msg0 = m_state (c_message c) ∧
    m_render msg0 = m_render (c_message c)) as (Hk0 & Hf0 & Es0 & Ec0 & Ei0 & Et0 & Er0).
  { subst msg0. unfold flags_of. destruct (flag_set _ _); split_and!; done. }
  destruct (renderbegin_ok recs (size_of c) false msg0 (take (size_of c) base)) as [Eb Ho1]; rewrite ?Er0, ?Ei0, ?Es0, ?Ec0; try done.
  { by rewrite Hres. } { by apply renderbegin_size. } { rewrite Hres. unfold DNS_MESSAGE_HEADERLEN. lia. }
  set (msg1 := set_cctx msg0 dns_compress_init) in *.
  assert (∃ msg2, (∀ h, length h = DNS_MESSAGE_HEADERLEN → (match c_opt c with
      | Some opt => dns_message_setopt (at_buffer (size_of c) msg1 (h ++ [])) opt
      | None => Some (ISC_R_SUCCESS, at_buffer (size_of c) msg1 (h ++ [])) end) =
      Some (ISC_R_SUCCESS, at_buffer (size_of c) msg2 (h ++ []))) ∧ rendering_ok recs (size_of c) false msg2 [] [] ∧
    m_header msg2 = m_header msg0 ∧ m_sections msg2 = m_sections msg0 ∧ m_counts msg2 = m_counts msg0 ∧
    opt_ready recs msg2 rd ∧ bool_decide (reserved (m_render msg2) = 0%Z) = bool_decide (c_opt c = None) ∧
    (m_opt msg2 = None ↔ c_opt c = None) ∧
    (∀ msg', m_opt msg' = m_opt msg2 → rcode (m_header msg') = rcode (m_header (c_message c)) → opt_log msg' rd = opt_entries c rd))
    as (msg2 & E2 & Ho2 & Eh2 & Es2 & Ec2 & Hready & Hpart & Hoo & Hol).
  { destruct (c_opt c) as [opt|] eqn:Eo.
    - destruct (Hopt opt eq_refl) as (Ht & Hsz & st & Hfst & Hcur & Hok).
      destruct (setopt_ok recs (size_of c) false msg1 [] [] opt st rd Ho1) as [E2 Ho2]; try done.
      { by rewrite <- Hint, <- Ei0. } { by rewrite <- Hst, <- Et0. } { by rewrite <- Hop; apply Hk0. }
      { cbn. rewrite Er0, Hres. cbn. lia. }
      eexists. split_and!; [exact E2|exact Ho2|done..| | | |].
      + intros opt' [= <-]. cbn. rewrite Er0, Hres. split; [exact Hok|lia].
      + cbn. rewrite Er0, Hres. rewrite !bool_decide_false by (done || lia). done.
      + done.
      + intros msg' Hm Hr. unfold opt_log, opt_entries. rewrite Hm, Eo, Hr. done.
    - exists msg1. assert (m_opt msg1 = None) as Hn by (by rewrite <- Hop; apply Hk0).
      split_and!; try done.
      + intros opt' Ho'. by rewrite Hn in Ho'.
      + cbn. rewrite Er0, Hres. by rewrite !bool_decide_true.
      + intros msg' Hm Hr. unfold opt_log, opt_entries. by rewrite Hm, Hn, Eo. }
  assert (m_sections (c_message c) = m_sections msg2) as Es by congruence.
  destruct (m_sections (c_message c)) as [|q [|a [|n [|r [|? ?]]]]] eqn:Eqs; try done.
  destruct (send_sections_ok (size_of c) (bool_decide (c_opt c = None)) (no_opt c) q a n r msg2 [] [] Ho2)
    as (msg3 & y & logs & f & Hsent & Hrun & Ho3 & Hf3 & Hk3 & Ec3); [by rewrite <- Es|done|].
  assert (opt_ready recs msg3 rd) as Hready3.
  { intros opt Ho. destruct Hk3 as [_ _ _ K1 K2 K3]. rewrite K1 in Ho. destruct (Hready opt Ho) as (? & ? & ?). by rewrite K2, K3. }
  assert (rcode (m_header msg3) = rcode (m_header (c_message c))) as Erc.
  { rewrite (kp_rcode _ _ Hk3), Eh2. apply Hk0. }
  destruct (renderend_ok arrays ncache recs (size_of c) false dispatch_opt msg3 ([] ++ y) ([] ++ concat logs) rd Ho3 Hready3)
    as (msg4 & y4 & b & -> & Eend & Ec4 & Hlen & Hlog).
  { rewrite Erc. destruct Hrc as [Hrc|Hrc]; [by left|right]. intros Hn. rewrite (kp_opt _ _ Hk3) in Hn. by apply Hrc, Hoo. }
  assert (opt_log msg3 rd = opt_entries c rd) as Eol by (apply Hol; [apply (kp_opt _ _ Hk3)|done]).
  rewrite Eol in *. cbn [app] in *.
  set (b := header_bytes (m_header msg3) (m_counts msg4) ++ y ++ y4) in *.
  assert (length logs = DNS_SECTION_MAX) as Hl4 by (by rewrite (sent_length _ _ _ _ _ _ Hsent)).
  assert (m_counts msg4 = count_of (alter (λ l, l ++ opt_entries c rd) DNS_SECTION_ADDITIONAL logs)) as Ec.
  { rewrite Ec4, Ec3, Ec2, Ec0, Hcnt. by apply counts_sent. }
  eexists _, b, logs, f. split_and!; [|done| | |done].
  - unfold ns_client_send. fold msg0. rewrite Ea. cbn [mbind option_bind]. rewrite bool_decide_false by auto.
    rewrite Eb. cbn [mbind option_bind]. rewrite bool_decide_false by auto. rewrite Eo1.
    assert (length (take DNS_MESSAGE_HEADERLEN (take (size_of c) base)) = DNS_MESSAGE_HEADERLEN) as Hh.
    { rewrite length_take_le; [done|]. rewrite renderbegin_size by done. unfold DNS_MESSAGE_HEADERLEN. lia. }
    rewrite E2 by done. cbn [mbind option_bind]. rewrite bool_decide_false by auto.
    assert (∀ msg, send_sections order arrays ncache (no_opt c1) msg = send_sections order arrays ncache (no_opt c) msg) as Ess.
    { intros msg. unfold send_sections, render_opts, preferred_glue. cbn. by rewrite Eat, Eg. }
    rewrite Ess, (Hrun _ Hh). cbn [mbind option_bind]. rewrite bool_decide_false by auto.
    rewrite (Eend _ Hh). cbn [mbind option_bind]. rewrite bool_decide_false by auto.
    unfold TCP_CLIENT. cbn [no_opt c_attributes]. by rewrite Eat.
  - by rewrite <- Hf0, <- Eh2.
  - cbv zeta. subst b. rewrite take_app_length' by (symmetry; apply header_bytes_length; rewrite Ec; unfold count_of; by rewrite length_fmap, length_alter).
    rewrite Ec. f_equal. rewrite <- Hf3, <- Erc, (header_eta (m_header msg3)). destruct Hk3, Hk0. f_equal; congruence.
Qed.

(** C0: [ns_client_send] sends a reply that is ready to be sent. Whatever was
    in the buffer, one message goes to the socket, over TCP behind its length;
    it is no longer than the buffer: 65535 bytes, or what the client offers
    up to 4096. The message is the header, with the counts of what follows,
    and then exactly the records of the log, at which names may be compressed
    and written in the case of an earlier one: for each section what
    [dns_message_rendersection] gives of its rdatasets, in its order, and at
    the end the OPT record, for which there is always room, with the extended
    part of the rcode. A section other than the additional one that does not
    fit is the last and sets TC, and its answer is partial only without an
    OPT record; an additional section that does not fit sets nothing. RA is
    set as the client has it, and data that are not secure clear AD. *)
Theorem client_send_spec c rd (base : mem) mem_ok :
  reply_ready c rd → (TCP_CLIENT c = true → mem_ok = true) → size_of c <= length base →
  ∃ c' b logs f,
    ns_client_send order arrays ncache c base mem_ok =
      Some (ISC_R_SUCCESS, c', Some (if TCP_CLIENT c then enc16 (u16 (Z.of_nat (length b))) ++ b else b)) ∧
    length b <= size_of c ∧
    sent (bool_decide (c_opt c = None)) 0 (zip (section_options c) (m_sections (c_message c))) (flags_of c) logs f ∧
    (let h := m_header (c_message c) in
     take DNS_MESSAGE_HEADERLEN b = header_bytes (Header (id h) f (rcode h) (opcode h))
       (count_of (alter (λ l, l ++ opt_entries c rd) DNS_SECTION_ADDITIONAL logs))) ∧
    log_at false b DNS_MESSAGE_HEADERLEN (concat logs ++ opt_entries c rd) (length b).
Proof. apply client_send_outcome. Qed.
End Send.
