(* ===== verification/MessageParse.v ===== *)
(** * Parsing messages

    [dns_message_parse] of [lib/dns/message.c]: the header, the questions and
    the three sections of records, gathered into names with rdatasets; with
    [dns_rdata_fromwire] of [lib/dns/rdata.c] and [fromwire_in_a] of
    [lib/dns/rdata/in_1/a_1.c]. This file is the model, [ParseSpec.v] has what
    it does.

    The parsers are written in a state and error monad. Its state has the
    message, the position in the source, and those locals of [getquestions]
    and [getsection] that their exit code looks at: [seen_problem],
    [free_name] and [free_rdataset]. An error is the [goto cleanup] of the
    code; [None] is a failed assertion.

    Parameters: the dispatch [FROMWIRESWITCH] on the type of the rdata and the
    attributes of types, which the build generates. *)
From S2P Require Import Prelude Qsort Rdata Name FromWire Compress Slab RbtdbRdataset Order Answer Message.

(** ** Decompression contexts *)

Definition DNS_COMPRESS_NONE : Z := 0x00.
Definition DNS_COMPRESS_GLOBAL14 : Z := 0x01.
Definition DNS_COMPRESS_ALL : Z := 0x01.

Inductive dns_decompresstype := DNS_DECOMPRESS_ANY | DNS_DECOMPRESS_STRICT | DNS_DECOMPRESS_NONE.

Record decompress := Decompress { dx_allowed : Z; dx_edns : Z; dx_type : dns_decompresstype }.

Definition dns_decompress_init (edns : Z) (type : dns_decompresstype) : decompress :=
  Decompress DNS_COMPRESS_NONE edns type.

Definition dns_decompress_setmethods (dctx : decompress) (allowed : Z) : decompress :=
  Decompress (match dx_type dctx with
              | DNS_DECOMPRESS_ANY => DNS_COMPRESS_ALL
              | DNS_DECOMPRESS_NONE => DNS_COMPRESS_NONE
              | DNS_DECOMPRESS_STRICT => allowed
              end) (dx_edns dctx) (dx_type dctx).

Definition dns_decompress_getmethods (dctx : decompress) : Z := dx_allowed dctx.

(** What [dns_name_fromwire] asks of it. *)
Definition allows_global14 (dctx : decompress) : bool :=
  bool_decide (Z.land (dns_decompress_getmethods dctx) DNS_COMPRESS_GLOBAL14 ≠ 0%Z).

(** ** Rdata *)

(** [FROMWIRESWITCH] for a class and type, on the bytes of the source from a
    position up to the active end, with some room in the target: the result,
    the new position and the bytes written; inside, [None] sets
    [use_default]. The context is of the kind that allows all compression,
    which no function changes. *)
Class FromwireSwitch :=
  fromwire_switch : Z → Z → mem → nat → nat → decompress → nat → option (option (isc_result * nat * list Z)).

(** [dns_rdatatype_questiononly], [dns_rdatatype_issingleton]: attributes of
    types in the generated [RDATATYPE_ATTRIBUTE_SW]. *)
Class RdataTypes := {
  dns_rdatatype_questiononly : Z → bool; dns_rdatatype_issingleton : Z → bool }.

(** The error, or the rdata and the new position. *)
Definition dns_rdata_fromwire `{FromwireSwitch} (rdclass type : Z) (source : mem) (pos len : nat) (dctx : decompress)
    (avail : nat) : option (isc_result + rdata * nat) :=
  if bool_decide (type = 0%Z) then Some (inl DNS_R_FORMERR)
  else if bool_decide (Z.of_nat len < 65536)%Z then
    r ← fromwire_switch rdclass type source pos (pos + len) dctx avail;
    '(result, pos', x) ←
      (match r with
       | None => if bool_decide (avail < len) then Some (ISC_R_NOSPACE, pos, [])
                 else x ← mread source pos len; Some (ISC_R_SUCCESS, pos + len, x)
       | Some r => Some r
       end);
    let result := if bool_decide (result = ISC_R_SUCCESS ∧ pos' ≠ pos + len) then DNS_R_EXTRADATA else result in
    if bool_decide (result = ISC_R_SUCCESS) then Some (inr (dns_rdata_fromregion rdclass type x, pos'))
    else Some (inl result)
  else None.

(** [fromwire_in_a] *)
Definition fromwire_in_a (rdclass type : Z) (source : mem) (pos active avail : nat)
    : option (isc_result * nat * list Z) :=
  if bool_decide (type = dns_rdatatype_a ∧ rdclass = dns_rdataclass_in) then
    if bool_decide (active - pos < 4) then Some (ISC_R_UNEXPECTEDEND, pos, [])
    else if bool_decide (avail < 4) then Some (ISC_R_NOSPACE, pos, [])
    else x ← mread source pos 4; Some (ISC_R_SUCCESS, pos + 4, x)
  else None.

(** [dns_rdata_covers]: [covers_rrsig] and [covers_sig] *)
Definition dns_rdata_covers (rd : rdata) : option Z :=
  if bool_decide (rd_type rd = dns_rdatatype_rrsig ∨ rd_type rd = dns_rdatatype_sig)
  then rd16 (rd_data rd) 0 else None.

(** ** The monad *)

Record parsing := Parsing {
  p_msg : message rdatalist; p_pos : nat; p_seen : bool; p_free_name : bool; p_free_rds : bool }.

Definition parser (A : Type) : Type := parsing → option ((isc_result * parsing) + (A * parsing)).

Declare Scope parser_scope.
Delimit Scope parser_scope with parser.
Bind Scope parser_scope with parser.

Definition pret {A} (a : A) : parser A := λ s, Some (inr (a, s)).
Definition pbind {A B} (c : parser A) (f : A → parser B) : parser B := λ s,
  r ← c s; match r with inl e => Some (inl e) | inr (a, s) => f a s end.
Definition fail {A} (r : isc_result) : parser A := λ s, Some (inl (r, s)).
Definition lift {A} (x : option A) : parser A := λ s, a ← x; Some (inr (a, s)).
Definition get : parser parsing := λ s, Some (inr (s, s)).
Definition insist (b : bool) : parser unit := λ s, if b then Some (inr (tt, s)) else None.

Notation "x <- c ;; f" := (pbind c (λ x, f)) (at level 100, c at next level, right associativity) : parser_scope.
Notation "c ;; f" := (pbind c (λ _ : unit, f)) (at level 100, right associativity) : parser_scope.
#[local] Open Scope parser_scope.

Definition with_msg (f : message rdatalist → message rdatalist) : parser unit := λ s,
  Some (inr (tt, Parsing (f (p_msg s)) (p_pos s) (p_seen s) (p_free_name s) (p_free_rds s))).
Definition set_pos (pos : nat) : parser unit := λ s,
  Some (inr (tt, Parsing (p_msg s) pos (p_seen s) (p_free_name s) (p_free_rds s))).
Definition set_seen : parser unit := λ s,
  Some (inr (tt, Parsing (p_msg s) (p_pos s) true (p_free_name s) (p_free_rds s))).
Definition set_free_name (b : bool) : parser unit := λ s,
  Some (inr (tt, Parsing (p_msg s) (p_pos s) (p_seen s) b (p_free_rds s))).
Definition set_free_rds (b : bool) : parser unit := λ s,
  Some (inr (tt, Parsing (p_msg s) (p_pos s) (p_seen s) (p_free_name s) b)).

(** ** Parts of a message *)

Section Parse.
Context (mem_get : nat → bool) `{FromwireSwitch, RdataTypes} (source : mem) (dctx : decompress) (options : Z).

Definition DNS_MESSAGEPARSE_PRESERVEORDER : Z := 0x0001.
Definition DNS_MESSAGEPARSE_BESTEFFORT : Z := 0x0002.
Definition DNS_MESSAGEPARSE_CLONEBUFFER : Z := 0x0004.
Definition DNS_MESSAGEPARSE_IGNORETRUNCATION : Z := 0x0008.

Definition option_set (o : Z) : bool := bool_decide (Z.land options o ≠ 0%Z).

(** [DO_FORMERR] *)
Definition do_formerr : parser unit :=
  if option_set DNS_MESSAGEPARSE_BESTEFFORT then set_seen else fail DNS_R_FORMERR.

(** A request for memory: [goto cleanup] if there is none. *)
Definition request (f : message rdatalist → bool * message rdatalist) : parser unit :=
  s <- get ;;
  let '(ok, msg) := f (p_msg s) in
  with_msg (λ _, msg) ;; if ok then pret tt else fail ISC_R_NOMEMORY.

Definition renew (size : nat) : parser unit :=
  s <- get ;;
  let '(result, msg) := newbuffer mem_get (p_msg s) size in
  with_msg (λ _, msg) ;; if bool_decide (result = ISC_R_SUCCESS) then pret tt else fail result.

(** The bytes written to the scratch buffer *)
Definition use_scratch (n : nat) : parser unit :=
  with_msg (λ msg, set_scratch msg (scratch (m_pools msg) - n)).

(** [getname] *)
Fixpoint getname_loop (tries : nat) : parser name :=
  match tries with
  | O => insist false ;; fail ISC_R_UNEXPECTED
  | S tries =>
      s <- get ;;
      r <- lift (dns_name_fromwire source (p_pos s) (allows_global14 dctx) false
             (scratch (m_pools (p_msg s)))) ;;
      match r with
      | inl ISC_R_NOSPACE => renew SCRATCHPAD_SIZE ;; getname_loop tries
      | inl e => fail e
      | inr (n, used) => use_scratch (length (ndata n)) ;; set_pos (p_pos s + used) ;; pret n
      end
  end.

Definition getname : parser name := getname_loop 2.

(** [getrdata]; the size of the next buffer doubles up to 2^17. *)
Fixpoint getrdata_loop (fuel : nat) (rdclass type : Z) (rdatalen : nat) (trysize : option Z) : parser rdata :=
  match fuel with
  | O => lift None
  | S fuel =>
      s <- get ;;
      r <- lift (dns_rdata_fromwire rdclass type source (p_pos s) rdatalen dctx (scratch (m_pools (p_msg s)))) ;;
      match r with
      | inl ISC_R_NOSPACE =>
          trysize <- (match trysize with
                      | None => pret (Z.max (2 * Z.of_nat rdatalen) (Z.of_nat SCRATCHPAD_SIZE))
                      | Some trysize => if bool_decide (65535 <= trysize)%Z then fail ISC_R_NOSPACE
                                        else pret (trysize * 2)%Z
                      end) ;;
          renew (Z.to_nat trysize) ;; getrdata_loop fuel rdclass type rdatalen (Some trysize)
      | inl e => fail e
      | inr (rd, pos) => use_scratch (length (rd_data rd)) ;; set_pos pos ;; pret rd
      end
  end.

Definition getrdata (rdclass type : Z) (rdatalen : nat) : parser rdata :=
  if bool_decide (Z.of_nat rdatalen < 65536)%Z then getrdata_loop 10 rdclass type rdatalen None else lift None.

(** [isc_buffer_remainingregion] must have so many bytes. *)
Definition need (n : nat) : parser unit :=
  s <- get ;; if bool_decide (length source - p_pos s < n) then fail ISC_R_UNEXPECTEDEND else pret tt.

Definition getuint16 : parser Z :=
  s <- get ;; v <- lift (rd16 source (p_pos s)) ;; set_pos (p_pos s + 2) ;; pret v.
Definition getuint32 : parser Z :=
  s <- get ;; v <- lift (rd32 source (p_pos s)) ;; set_pos (p_pos s + 4) ;; pret v.

(** A new name from the pool, with its offsets, read from the source. *)
Definition new_name : parser name :=
  request (get_name mem_get) ;; set_free_name true ;; request (ask mem_get) ;; getname.

Definition section_at (sectionid : nat) : parser (list (mname rdatalist)) :=
  s <- get ;; lift (m_sections (p_msg s) !! sectionid).

(** [ISC_LIST_APPEND] of a name to a section: the place of the name. *)
Definition append_name (sectionid : nat) (n : name) : parser nat :=
  section <- section_at sectionid ;;
  with_msg (λ msg, set_sections msg (alter (λ l, l ++ [Mname n []]) sectionid (m_sections msg))) ;;
  set_free_name false ;; pret (length section).

(** The name is in the section already; the new one goes back. *)
Definition reuse_name (i : nat) : parser nat :=
  with_msg (λ msg, put_names msg 1) ;; set_free_name false ;; pret i.

Definition alter_list (f : list (rrset rdatalist) → list (rrset rdatalist)) (n : mname rdatalist) : mname rdatalist :=
  Mname (mn_name n) (f (mn_list n)).

Definition alter_name (sectionid i : nat) (f : list (rrset rdatalist) → list (rrset rdatalist)) : parser unit :=
  with_msg (λ msg, set_sections msg (alter (alter (alter_list f) i) sectionid (m_sections msg))).

(** [dns_rdataset_init] and [dns_rdatalist_tordataset] of an empty list *)
Definition new_rrset (rdclass type covers ttl : Z) : rrset rdatalist :=
  Rrset (RdsInfo 0 (2 ^ 32 - 1) rdclass type ttl) covers 0 (Rdatalist type [] None).

Definition add_attributes (rs : rrset rdatalist) (a : Z) : rrset rdatalist :=
  let i := rr_info rs in
  Rrset (RdsInfo (Z.lor (ri_attributes i) a) (ri_count i) (ri_rdclass i) (ri_type i) (ri_ttl i))
    (rr_covers rs) (rr_trust rs) (rr_state rs).

(** ** The questions *)

(** One round of [getquestions]. *)
Definition getquestion : parser unit :=
  name <- new_name ;;
  section <- section_at DNS_SECTION_QUESTION ;;
  found <- lift (findname name section) ;;
  i <- (match found with
        | None => (if bool_decide (section ≠ []) then do_formerr else pret tt) ;;
                  append_name DNS_SECTION_QUESTION name
        | Some i => reuse_name i
        end) ;;
  need 4 ;;
  rdtype <- getuint16 ;; rdclass <- getuint16 ;;
  s <- get ;;
  (if bool_decide (m_state (p_msg s) = DNS_SECTION_ANY)
   then with_msg (λ msg, set_class msg rdclass (Z.of_nat DNS_SECTION_QUESTION))
   else if bool_decide (m_rdclass (p_msg s) ≠ rdclass) then do_formerr else pret tt) ;;
  section <- section_at DNS_SECTION_QUESTION ;;
  n <- lift (section !! i) ;;
  (if bool_decide (dns_message_find n rdclass rdtype 0 ≠ None) then do_formerr else pret tt) ;;
  request (ask mem_get) ;;
  request (get_rds mem_get) ;; set_free_rds true ;;
  alter_name DNS_SECTION_QUESTION i
    (λ l, l ++ [add_attributes (new_rrset rdclass rdtype 0 0) DNS_RDATASETATTR_QUESTION]) ;;
  set_free_rds false.

Fixpoint questions_loop (rest : nat) : parser unit :=
  match rest with O => pret tt | S rest => getquestion ;; questions_loop rest end.

(** [cleanup], or the end of the loop: the result, the message and the
    position. *)
Definition run (c : parser unit) (msg : message rdatalist) (pos : nat)
    : option (isc_result * message rdatalist * nat) :=
  r ← c (Parsing msg pos false false false);
  Some (match r with
        | inl (result, s) =>
            let msg := if p_free_name s then put_names (p_msg s) 1 else p_msg s in
            (result, if p_free_rds s then put_rds msg 1 else msg, p_pos s)
        | inr (_, s) => (if p_seen s then DNS_R_RECOVERABLE else ISC_R_SUCCESS, p_msg s, p_pos s)
        end).

Definition getquestions (msg : message rdatalist) (pos : nat) : option (isc_result * message rdatalist * nat) :=
  count ← m_counts msg !! DNS_SECTION_QUESTION; run (questions_loop (Z.to_nat count)) msg pos.

(** ** The sections of records *)

Definition is_opcode_update : parser bool :=
  s <- get ;; pret (bool_decide (opcode (m_header (p_msg s)) = dns_opcode_update)).

(** Type and class of the record: the first record establishes the class of
    the message if there was no question. *)
Definition check_class (rdtype rdclass : Z) : parser unit :=
  s <- get ;;
  (if bool_decide (m_state (p_msg s) = DNS_SECTION_ANY ∧
                   rdtype ∉ [dns_rdatatype_opt; dns_rdatatype_tsig; dns_rdatatype_tkey])
   then with_msg (λ msg, set_class msg rdclass (Z.of_nat DNS_SECTION_QUESTION)) else pret tt) ;;
  s <- get ;; upd <- is_opcode_update ;;
  if negb upd && bool_decide (rdtype ∉ [dns_rdatatype_tsig; dns_rdatatype_opt; dns_rdatatype_dnskey;
                                        dns_rdatatype_sig; dns_rdatatype_tkey] ∧
       m_rdclass (p_msg s) ≠ dns_rdataclass_any ∧ m_rdclass (p_msg s) ≠ rdclass)
  then do_formerr else pret tt.

(** Special type handling for TSIG, OPT, and TKEY: whether the searches are
    skipped. [last] says that this is the last record of the section. *)
Definition check_type (sectionid : nat) (last : bool) (recstart : nat) (rdtype rdclass : Z) (n : name) : parser bool :=
  if bool_decide (rdtype = dns_rdatatype_tsig) then
    (if bool_decide (sectionid ≠ DNS_SECTION_ADDITIONAL ∨ rdclass ≠ dns_rdataclass_any) || negb last
     then do_formerr else pret tt) ;;
    with_msg (λ msg, set_sigstart msg (Z.of_nat recstart)) ;; pret true
  else if bool_decide (rdtype = dns_rdatatype_opt) then
    eq <- lift (dns_name_equal dns_rootname n) ;; s <- get ;;
    (if negb eq || bool_decide (is_Some (m_opt (p_msg s))) then do_formerr else pret tt) ;; pret true
  else if bool_decide (rdtype = dns_rdatatype_tkey) then
    s <- get ;;
    let tkeysection := if bool_decide (Z.land (flags (m_header (p_msg s))) DNS_MESSAGEFLAG_QR = 0%Z)
                       then DNS_SECTION_ADDITIONAL else DNS_SECTION_ANSWER in
    (if bool_decide (sectionid ≠ tkeysection ∧ sectionid ≠ DNS_SECTION_ANSWER) then do_formerr else pret tt) ;;
    pret false
  else pret false.

Definition update (section : nat) (rdclass : Z) : bool :=
  if bool_decide (section = DNS_SECTION_PREREQUISITE)
  then bool_decide (rdclass = dns_rdataclass_any ∨ rdclass = dns_rdataclass_none)
  else if bool_decide (section = DNS_SECTION_UPDATE) then bool_decide (rdclass = dns_rdataclass_any)
  else false.

Definition read_rdata (sectionid : nat) (rdtype rdclass : Z) (rdatalen : nat) : parser rdata :=
  request (ask mem_get) ;;
  upd <- is_opcode_update ;;
  rd <- (if upd && update sectionid rdclass then
           if bool_decide (rdatalen ≠ 0) then fail DNS_R_FORMERR
           else pret (Rdata [] rdclass rdtype DNS_RDATA_UPDATE)
         else if bool_decide (rdclass = dns_rdataclass_none) && upd && bool_decide (sectionid = DNS_SECTION_UPDATE)
         then s <- get ;; getrdata (m_rdclass (p_msg s)) rdtype rdatalen
         else getrdata rdclass rdtype rdatalen) ;;
  pret (Rdata (rd_data rd) rdclass (rd_type rd) (rd_flags rd)).

(** The type covered, and whether the record is a SIG(0). *)
Definition read_covers (sectionid : nat) (last : bool) (recstart : nat) (rdtype : Z) (rd : rdata) : parser (Z * bool) :=
  if bool_decide (rdtype = dns_rdatatype_rrsig ∧ rd_flags rd = 0%Z) then
    covers <- lift (dns_rdata_covers rd) ;;
    (if bool_decide (covers = 0%Z) then do_formerr else pret tt) ;; pret (covers, false)
  else if bool_decide (rdtype = dns_rdatatype_sig ∧ rd_flags rd = 0%Z) then
    covers <- lift (dns_rdata_covers rd) ;;
    if bool_decide (covers = 0%Z) then
      (if bool_decide (sectionid ≠ DNS_SECTION_ADDITIONAL) || negb last then do_formerr else pret tt) ;;
      with_msg (λ msg, set_sigstart msg (Z.of_nat recstart)) ;; pret (covers, true)
    else pret (covers, false)
  else pret (0%Z, false).

(** The name's place in the section; OPT, TSIG and SIG(0) records have
    none. *)
Definition link_name (sectionid : nat) (skip special : bool) (n : name) : parser (option nat) :=
  upd <- is_opcode_update ;;
  if option_set DNS_MESSAGEPARSE_PRESERVEORDER || upd || skip then
    if special then pret None else i <- append_name sectionid n ;; pret (Some i)
  else
    section <- section_at sectionid ;;
    found <- lift (findname n section) ;;
    i <- (match found with Some i => reuse_name i | None => append_name sectionid n end) ;;
    pret (Some i).

(** The rdataset that the record belongs to: at a place, or loose. *)
Inductive found_rrset := Linked (i k : nat) | Loose (rs : rrset rdatalist).

Definition name_at (sectionid : nat) (place : option nat) : parser (mname rdatalist) :=
  section <- section_at sectionid ;; lift (i ← place; section !! i).

Definition find_or_new (sectionid : nat) (skip : bool) (place : option nat) (rdtype rdclass covers ttl : Z)
    : parser found_rrset :=
  upd <- is_opcode_update ;;
  found <- (if option_set DNS_MESSAGEPARSE_PRESERVEORDER || upd || skip then pret None
            else
              (if dns_rdatatype_questiononly rdtype then do_formerr else pret tt) ;;
              n <- name_at sectionid place ;; pret (dns_message_find n rdclass rdtype covers)) ;;
  match found with
  | Some k =>
      i <- lift place ;;
      (if dns_rdatatype_issingleton rdtype then do_formerr else pret tt) ;; pret (Linked i k)
  | None =>
      request (get_rds mem_get) ;; set_free_rds true ;; request (ask mem_get) ;;
      let rs := new_rrset rdclass rdtype covers ttl in
      match place with
      | Some i =>
          n <- name_at sectionid place ;;
          alter_name sectionid i (λ l, l ++ [rs]) ;; set_free_rds false ;; pret (Linked i (length (mn_list n)))
      | None => pret (Loose rs)
      end
  end.

(** Minimize TTLs, and append the rdata. *)
Definition add_rdata (ttl : Z) (rd : rdata) (rs : rrset rdatalist) : rrset rdatalist :=
  let i := rr_info rs in
  let i := if bool_decide (ttl ≠ ri_ttl i)
           then RdsInfo (Z.lor (ri_attributes i) DNS_RDATASETATTR_TTLADJUSTED) (ri_count i) (ri_rdclass i) (ri_type i)
                  (Z.min ttl (ri_ttl i))
           else i in
  let l := rr_state rs in
  Rrset i (rr_covers rs) (rr_trust rs) (Rdatalist (rl_type l) (rl_rdata l ++ [rd]) (rl_cursor l)).

(** OPT, SIG(0) and TSIG records are remembered. (The name of a TSIG also
    becomes one that is never compressed.) *)
Definition remember (rdtype : Z) (issigzero : bool) (n : name) (rs : rrset rdatalist) : parser unit :=
  s <- get ;;
  (if bool_decide (rdtype = dns_rdatatype_opt ∧ m_opt (p_msg s) = None) then
     with_msg (λ msg,
       let h := m_header msg in
       let ercode := u16 (Z.shiftr (Z.land (ri_ttl (rr_info rs)) DNS_MESSAGE_EDNSRCODE_MASK) 20) in
       put_names (set_header (set_opt msg (Some rs)) (Header (id h) (flags h) (Z.lor (rcode h) ercode) (opcode h))) 1) ;;
     set_free_rds false ;; set_free_name false
   else pret tt) ;;
  s <- get ;;
  if issigzero && bool_decide (m_sig0 (p_msg s) = None) then
    with_msg (λ msg, set_sig0 msg (Some rs) (Some n)) ;; set_free_rds false ;; set_free_name false
  else if bool_decide (rdtype = dns_rdatatype_tsig ∧ m_tsig (p_msg s) = None) then
    with_msg (λ msg, set_tsig msg (Some rs) (Some n) (m_querytsig msg)) ;; set_free_rds false ;; set_free_name false
  else pret tt.

(** The end of a round. *)
Definition end_round : parser unit :=
  s <- get ;;
  (if p_seen s then
     with_msg (λ msg,
       let msg := if p_free_name s then put_names msg 1 else msg in
       if p_free_rds s then put_rds msg 1 else msg) ;;
     set_free_name false ;; set_free_rds false
   else pret tt) ;;
  s <- get ;; insist (negb (p_free_name s)) ;; insist (negb (p_free_rds s)).

(** One round of [getsection]. *)
Definition getrecord (sectionid : nat) (last : bool) : parser unit :=
  s <- get ;; let recstart := p_pos s in
  n <- new_name ;;
  need (2 + 2 + 4 + 2) ;;
  rdtype <- getuint16 ;; rdclass <- getuint16 ;;
  check_class rdtype rdclass ;;
  skip <- check_type sectionid last recstart rdtype rdclass n ;;
  ttl <- getuint32 ;; rdatalen <- getuint16 ;;
  need (Z.to_nat rdatalen) ;;
  rd <- read_rdata sectionid rdtype rdclass (Z.to_nat rdatalen) ;;
  c <- read_covers sectionid last recstart rdtype rd ;;
  let '(covers, issigzero) := c in
  let skip := skip || issigzero in
  let special := bool_decide (rdtype = dns_rdatatype_opt ∨ rdtype = dns_rdatatype_tsig) || issigzero in
  place <- link_name sectionid skip special n ;;
  found <- find_or_new sectionid skip place rdtype rdclass covers ttl ;;
  (match found with
   | Linked i k => alter_name sectionid i (alter (add_rdata ttl rd) k)
   | Loose rs => remember rdtype issigzero n (add_rdata ttl rd rs)
   end) ;;
  end_round.

Fixpoint section_loop (sectionid rest : nat) : parser unit :=
  match rest with
  | O => pret tt
  | S rest => getrecord sectionid (bool_decide (rest = 0)) ;; section_loop sectionid rest
  end.

Definition getsection (sectionid : nat) (msg : message rdatalist) (pos : nat)
    : option (isc_result * message rdatalist * nat) :=
  count ← m_counts msg !! sectionid; run (section_loop sectionid (Z.to_nat count)) msg pos.

End Parse.

(** ** The whole message *)

Section Message.
Context (mem_get : nat → bool) `{FromwireSwitch, RdataTypes} (source : mem) (options : Z).
Implicit Types (msg : message rdatalist).

Definition ignore_tc : bool := option_set options DNS_MESSAGEPARSE_IGNORETRUNCATION.

(** The header. *)
Definition parse_header msg (pos : nat) : option (message rdatalist) :=
  hid ← rd16 source pos; tmpflags ← rd16 source (pos + 2);
  qd ← rd16 source (pos + 4); an ← rd16 source (pos + 6); ns ← rd16 source (pos + 8); ar ← rd16 source (pos + 10);
  let h := Header hid (Z.land tmpflags DNS_MESSAGE_FLAG_MASK) (Z.land tmpflags DNS_MESSAGE_RCODE_MASK)
    (Z.shiftr (Z.land tmpflags DNS_MESSAGE_OPCODE_MASK) DNS_MESSAGE_OPCODE_SHIFT) in
  Some (set_ok (set_counts (set_header msg h) [qd; an; ns; ar]) true false).

(** The sections one after the other: the result of the last that was read,
    whether it was cut short, and whether there were problems. *)
Fixpoint parse_sections (dctx : decompress) (sections : list nat) msg (pos : nat) (seen_problem : bool)
    : option (isc_result * bool * message rdatalist) :=
  match sections with
  | [] => Some (ISC_R_SUCCESS, seen_problem, msg)
  | sectionid :: sections =>
      '(ret, msg, pos) ← (if bool_decide (sectionid = DNS_SECTION_QUESTION)
                          then getquestions mem_get source dctx options msg pos
                          else getsection mem_get source dctx options sectionid msg pos);
      if bool_decide (ret ≠ ISC_R_SUCCESS ∧ ret ≠ DNS_R_RECOVERABLE) then Some (ret, seen_problem, msg)
      else
        let msg := if bool_decide (sectionid = DNS_SECTION_QUESTION) then set_ok msg true true else msg in
        parse_sections dctx sections msg pos (seen_problem || bool_decide (ret = DNS_R_RECOVERABLE))
  end.

(** [dns_message_parse] *)
Definition dns_message_parse msg (pos : nat) : option (isc_result * message rdatalist) :=
  if bool_decide (m_intent msg = DNS_MESSAGE_INTENTPARSE) then
    let msg := set_ok msg false false in
    if bool_decide (length source - pos < DNS_MESSAGE_HEADERLEN) then Some (ISC_R_UNEXPECTEDEND, msg)
    else
      msg ← parse_header msg pos;
      let dctx := dns_decompress_setmethods (dns_decompress_init (-1) DNS_DECOMPRESS_ANY) DNS_COMPRESS_GLOBAL14 in
      '(ret, seen_problem, msg) ←
        parse_sections dctx [DNS_SECTION_QUESTION; DNS_SECTION_ANSWER; DNS_SECTION_AUTHORITY; DNS_SECTION_ADDITIONAL]
          msg (pos + DNS_MESSAGE_HEADERLEN) false;
      let truncated := bool_decide (ret = ISC_R_UNEXPECTEDEND) && ignore_tc in
      if bool_decide (ret ≠ ISC_R_SUCCESS) && negb truncated then Some (ret, msg)
      else
        '(ok, msg) ← Some (if option_set options DNS_MESSAGEPARSE_CLONEBUFFER then ask mem_get msg else (true, msg));
        if negb ok then Some (ISC_R_NOMEMORY, msg)
        else
          let msg := set_saved msg (Some source) (m_query msg) in
          Some (if truncated || seen_problem then DNS_R_RECOVERABLE else ISC_R_SUCCESS, msg)
  else None.
End Message.
