(* ===== verification/Gather.v ===== *)
(** * Records gathered

    [gather rs] is the section that the records [rs] make: names in the
    order of their first records, with a rdataset for each class, type and
    covered type, which has the records of that name and key in order and the
    least of their TTLs. It says what the sections that [getsection] of
    [lib/dns/message.c] builds are meant to be, without its searches;
    [ParseSpec.v] shows that they are. *)
From S2P Require Import Prelude Qsort Rdata Name FromWire Compress Slab RbtdbRdataset Order Answer Message MessageParse.

(** ** Lists *)

Lemma sum_alter {A} (h : A → nat) f i (l : list A) x :
  l !! i = Some x → sum_list_with h (alter f i l) + h x = sum_list_with h l + h (f x).
Proof.
  revert i. induction l as [|y l IH]; intros [|i] Hi; try done; cbn in *.
  - injection Hi as ->. lia.
  - specialize (IH i Hi). change (list_alter f i l) with (alter f i l). lia.
Qed.

Lemma alter_insert {A} (f : A → A) i (l : list A) x : l !! i = Some x → alter f i l = <[i := f x]> l.
Proof.
  revert i. induction l as [|y l IH]; intros [|i] Hi; try done; cbn in *; [by injection Hi as ->|].
  f_equal. by apply IH.
Qed.

Lemma alter_twice {A} (f : A → A) (l : list (list A)) sec section i x :
  l !! sec = Some section → section !! i = Some x → alter (alter f i) sec l = <[sec := <[i := f x]> section]> l.
Proof. intros Hs Hi. rewrite (alter_insert _ _ _ section) by done. by rewrite (alter_insert _ _ _ x). Qed.

Lemma existsb_false {A} (f : A → bool) l : existsb f l = false ↔ Forall (λ x, f x = false) l.
Proof.
  induction l as [|x l IH]; [by split; [constructor|]|]. cbn. by rewrite orb_false_iff, IH, Forall_cons.
Qed.

Lemma existsb_lookup {A} (f : A → bool) l k x : l !! k = Some x → f x = true → existsb f l = true.
Proof. intros Hk Hf. apply existsb_exists. exists x. split; [by eapply list_elem_of_In, list_elem_of_lookup_2|done]. Qed.

(** ** Names *)

(** An absolute name. *)
Definition dname_ok (n : name) : Prop := ∃ ls, n = name_of ls ∧ labels_ok ls ∧ is_root_last ls = true ∧ Forall bytes_ok ls.

(** Equal up to case. *)
Definition equal (n1 n2 : name) : bool := bool_decide (dns_name_equal n1 n2 = Some true).

Lemma dname_equal n1 n2 : dname_ok n1 → dname_ok n2 → dns_name_equal n1 n2 = Some (equal n1 n2).
Proof.
  intros (l1 & -> & L1 & R1 & _) (l2 & -> & L2 & R2 & _). unfold equal.
  rewrite (name_equal_labels _ _ l1 l2) by (congruence || by apply name_of_repr). f_equal.
  destruct (bool_decide (same_labels l1 l2)); [by rewrite bool_decide_true|by rewrite bool_decide_false].
Qed.

Lemma equal_labels_iff l1 l2 :
  labels_ok l1 → labels_ok l2 → is_root_last l1 = true → is_root_last l2 = true →
  equal (name_of l1) (name_of l2) = bool_decide (same_labels l1 l2).
Proof.
  intros L1 L2 R1 R2. unfold equal. apply bool_decide_ext.
  rewrite (name_equal_labels _ _ l1 l2) by (congruence || by apply name_of_repr).
  split; [by intros [= E%bool_decide_eq_true]|intros E; by rewrite bool_decide_true].
Qed.

Lemma equal_refl n : dname_ok n → equal n n = true.
Proof. intros (ls & -> & L & R & _). rewrite equal_labels_iff by done. by rewrite bool_decide_true. Qed.

Lemma equal_sym n1 n2 : dname_ok n1 → dname_ok n2 → equal n1 n2 = equal n2 n1.
Proof.
  intros (l1 & -> & L1 & R1 & _) (l2 & -> & L2 & R2 & _). rewrite !equal_labels_iff by done.
  apply bool_decide_ext. split; by symmetry.
Qed.

Lemma equal_trans n1 n2 n3 : dname_ok n1 → dname_ok n2 → dname_ok n3 → equal n1 n2 = true → equal n2 n3 = equal n1 n3.
Proof.
  intros (l1 & -> & L1 & R1 & _) (l2 & -> & L2 & R2 & _) (l3 & -> & L3 & R3 & _). rewrite !equal_labels_iff by done.
  intros E%bool_decide_eq_true. apply bool_decide_ext.
  split; intros Hs; (etrans; [|exact Hs]); [done|by symmetry].
Qed.

(** ** Gathering *)

(** A record that was read. *)
Record record := Rec { rec_name : name; rec_ttl : Z; rec_rdata : rdata }.

Definition rec_covers (r : record) : Z := default 0%Z (dns_rdata_covers (rec_rdata r)).

(** The records of a rdataset have a class, a type and a covered type. *)
Definition fits (c t covers : Z) (rs : rrset rdatalist) : bool :=
  bool_decide (ri_rdclass (rr_info rs) = c) && bool_decide (ri_type (rr_info rs) = t) && bool_decide (rr_covers rs = covers).
Definition same_key (rs : rrset rdatalist) (r : record) : bool :=
  fits (rd_class (rec_rdata r)) (rd_type (rec_rdata r)) (rec_covers r) rs.

Definition fresh_rrset (r : record) : rrset rdatalist :=
  new_rrset (rd_class (rec_rdata r)) (rd_type (rec_rdata r)) (rec_covers r) (rec_ttl r).
Definition join_rrset (r : record) (rs : rrset rdatalist) : rrset rdatalist := add_rdata (rec_ttl r) (rec_rdata r) rs.

(** A record joins the rdataset of its class, type and covered type. *)
Fixpoint add_rrset (r : record) (l : list (rrset rdatalist)) : list (rrset rdatalist) :=
  match l with
  | [] => [join_rrset r (fresh_rrset r)]
  | rs :: l => if same_key rs r then join_rrset r rs :: l else rs :: add_rrset r l
  end.

(** ... of its name. *)
Fixpoint add_record (r : record) (section : list (mname rdatalist)) : list (mname rdatalist) :=
  match section with
  | [] => [Mname (rec_name r) (add_rrset r [])]
  | n :: section => if equal (mn_name n) (rec_name r) then Mname (mn_name n) (add_rrset r (mn_list n)) :: section
                    else n :: add_record r section
  end.

Definition gather (rs : list record) : list (mname rdatalist) := foldl (λ s r, add_record r s) [] rs.

(** The key of a rdataset, and of a record. *)
Definition rrset_key (rs : rrset rdatalist) : Z * Z * Z := (ri_rdclass (rr_info rs), ri_type (rr_info rs), rr_covers rs).
Definition rec_key (r : record) : Z * Z * Z := (rd_class (rec_rdata r), rd_type (rec_rdata r), rec_covers r).

Lemma same_key_eq rs r : same_key rs r = bool_decide (rrset_key rs = rec_key r).
Proof.
  unfold same_key, fits, rrset_key, rec_key. apply eq_true_iff_eq. rewrite !andb_true_iff, !bool_decide_eq_true.
  split; [intros [[-> ->] ->]; done|by intros [= -> -> ->]].
Qed.

Lemma fits_key rs r : same_key rs r = true ↔ rrset_key rs = rec_key r.
Proof. rewrite same_key_eq. apply bool_decide_eq_true. Qed.

Lemma join_key r rs : rrset_key (join_rrset r rs) = rrset_key rs.
Proof. unfold join_rrset, add_rdata, rrset_key. by case_bool_decide. Qed.

(** *** One of each *)

Record distinct (section : list (mname rdatalist)) : Prop := Distinct {
  di_names : ∀ i j a b, section !! i = Some a → section !! j = Some b → equal (mn_name a) (mn_name b) = true → i = j;
  di_keys : Forall (λ n, NoDup (rrset_key <$> mn_list n)) section }.

Lemma add_rrset_in r l k rs :
  NoDup (rrset_key <$> l) → l !! k = Some rs → same_key rs r = true → add_rrset r l = <[k := join_rrset r rs]> l.
Proof.
  revert k. induction l as [|a l IH]; intros [|k] Hnd Hk Hs; try done; cbn in *.
  - injection Hk as ->. by rewrite Hs.
  - apply NoDup_cons in Hnd as [Hna Hnd]. destruct (same_key a r) eqn:E.
    + exfalso. apply Hna. apply fits_key in E, Hs. rewrite E, <- Hs.
      apply list_elem_of_fmap. exists rs. split; [done|]. by eapply list_elem_of_lookup_2.
    + change (list_insert k (join_rrset r rs) l) with (<[k := join_rrset r rs]> l). f_equal. by apply IH.
Qed.

Lemma add_rrset_new r l :
  Forall (λ rs, same_key rs r = false) l → add_rrset r l = l ++ [join_rrset r (fresh_rrset r)].
Proof. induction 1 as [|a l Ha _ IH]; [done|]. cbn. by rewrite Ha, IH. Qed.

Lemma add_record_in r section i n :
  distinct section → Forall (λ n, dname_ok (mn_name n)) section → dname_ok (rec_name r) →
  section !! i = Some n → equal (mn_name n) (rec_name r) = true →
  add_record r section = <[i := Mname (mn_name n) (add_rrset r (mn_list n))]> section.
Proof.
  intros [Hd _] Hall Hr. revert i Hd. induction Hall as [|a section Ha Hall IH]; intros [|i] Hd Hi He; try done; cbn in *.
  - injection Hi as ->. by rewrite He.
  - destruct (equal (mn_name a) (rec_name r)) eqn:E.
    + exfalso. pose proof (Forall_lookup_1 _ _ _ _ Hall Hi) as Hn. cbn in Hn.
      assert (0 = S i); [|done]. apply (Hd _ _ a n); [done|done|].
      rewrite <- (equal_trans _ (rec_name r)) by done. by rewrite equal_sym.
    + change (list_insert i ?x section) with (<[i := x]> section). f_equal. apply IH; [|done|done].
      intros j k b d Hj Hk Hbd. assert (S j = S k); [by eapply Hd|lia].
Qed.

Lemma add_record_new r section :
  Forall (λ n, equal (mn_name n) (rec_name r) = false) section →
  add_record r section = section ++ [Mname (rec_name r) (add_rrset r [])].
Proof. induction 1 as [|a section Ha _ IH]; [done|]. cbn. by rewrite Ha, IH. Qed.

Lemma add_rrset_keys r l :
  rrset_key <$> add_rrset r l =
    (rrset_key <$> l) ++ (if existsb (λ s, same_key s r) l then [] else [rec_key r]).
Proof.
  induction l as [|a l IH]; [cbn; by rewrite join_key|]. cbn. destruct (same_key a r); cbn.
  - by rewrite join_key, app_nil_r.
  - by rewrite IH.
Qed.

Lemma add_record_names r section :
  mn_name <$> add_record r section =
    (mn_name <$> section) ++ (if existsb (λ n, equal (mn_name n) (rec_name r)) section then [] else [rec_name r]).
Proof.
  induction section as [|a section IH]; [done|]. cbn. destruct (equal _ _); cbn; [by rewrite app_nil_r|by rewrite IH].
Qed.

Lemma add_rrset_nodup r l : NoDup (rrset_key <$> l) → NoDup (rrset_key <$> add_rrset r l).
Proof.
  intros Hnd. rewrite add_rrset_keys. destruct (existsb _ l) eqn:E; [by rewrite app_nil_r|].
  apply NoDup_app. split_and!; [done| |by repeat constructor; set_solver].
  intros k (s & -> & Hs)%list_elem_of_fmap Hk%list_elem_of_singleton.
  apply existsb_false in E. rewrite Forall_forall in E. specialize (E s Hs). cbn in E.
  apply fits_key in Hk. congruence.
Qed.

Lemma distinct_nil : distinct [].
Proof. split; [done|constructor]. Qed.

Lemma add_record_distinct r section :
  distinct section → Forall (λ n, dname_ok (mn_name n)) section → dname_ok (rec_name r) →
  distinct (add_record r section).
Proof.
  intros Hd Hall Hr. destruct (existsb (λ n, equal (mn_name n) (rec_name r)) section) eqn:E.
  - apply existsb_exists in E as (n & [i Hi]%list_elem_of_In%list_elem_of_lookup_1 & He).
    rewrite (add_record_in r section i n) by done. destruct Hd as [Hd Hk]. split.
    + intros j1 j2 a b Ha Hb Hab. eapply (f_equal (fmap mn_name)) in Ha, Hb. rewrite <- !list_lookup_fmap in *.
      rewrite list_fmap_insert in Ha, Hb. cbn in Ha, Hb.
      rewrite list_insert_id in Ha, Hb by (by rewrite list_lookup_fmap, Hi). rewrite list_lookup_fmap in Ha, Hb.
      apply fmap_Some in Ha as (a' & Ha & Ea), Hb as (b' & Hb & Eb). rewrite Ea, Eb in Hab. by eapply Hd.
    + apply Forall_insert; [done|]. cbn. apply add_rrset_nodup. by apply (Forall_lookup_1 _ _ _ _ Hk Hi).
  - apply existsb_false in E. rewrite add_record_new by done. destruct Hd as [Hd Hk]. split.
    + rewrite Forall_forall in E. assert (∀ i a, section !! i = Some a → equal (mn_name a) (rec_name r) = true → False) as Hno.
      { intros i a Ha Hea. specialize (E a). rewrite E in Hea; [done|]. by eapply list_elem_of_lookup_2. }
      rewrite Forall_forall in Hall. intros i j a b. rewrite !lookup_app.
      destruct (section !! i) as [x|] eqn:Hi, (section !! j) as [y|] eqn:Hj.
      * intros [= ->] [= ->]. by apply Hd.
      * intros [= ->] (_ & <-)%list_lookup_singleton_Some Hab. cbn in Hab. by eapply Hno in Hab.
      * intros (_ & <-)%list_lookup_singleton_Some [= ->] Hab. cbn in Hab. exfalso. eapply Hno; [exact Hj|].
        rewrite equal_sym; [done| |done]. apply Hall. by eapply list_elem_of_lookup_2.
      * apply lookup_ge_None in Hi, Hj. intros (? & _)%list_lookup_singleton_Some (? & _)%list_lookup_singleton_Some _. lia.
    + apply Forall_app. split; [done|]. constructor; [|done]. cbn. rewrite join_key. by repeat constructor; set_solver.
Qed.

Lemma gather_snoc rs r : gather (rs ++ [r]) = add_record r (gather rs).
Proof. unfold gather. by rewrite foldl_app. Qed.

Lemma gather_ok rs :
  Forall (λ r, dname_ok (rec_name r)) rs →
  distinct (gather rs) ∧ Forall (λ n, dname_ok (mn_name n)) (gather rs).
Proof.
  induction rs as [|r rs IH] using rev_ind; [by split; [apply distinct_nil|constructor]|].
  intros [Hrs Hr]%Forall_app. apply Forall_cons in Hr as [Hr _]. destruct (IH Hrs) as [Hd Hall]. rewrite gather_snoc.
  split; [by apply add_record_distinct|]. apply (Forall_fmap mn_name dname_ok). rewrite add_record_names.
  apply Forall_app. split; [by apply Forall_fmap|]. by destruct (existsb _ _); repeat constructor.
Qed.

(** *** What there is of a name and a key *)

Definition rrset_at (section : list (mname rdatalist)) (n : name) (k : Z * Z * Z) : option (rrset rdatalist) :=
  m ← List.find (λ m, equal (mn_name m) n) section; List.find (λ s, bool_decide (rrset_key s = k)) (mn_list m).

(** The records of the name and the key. *)
Definition own (n : name) (k : Z * Z * Z) (r : record) : bool := equal (rec_name r) n && bool_decide (rec_key r = k).

Lemma find_add_rrset r l k :
  List.find (λ s, bool_decide (rrset_key s = k)) (add_rrset r l) =
    if bool_decide (rec_key r = k)
    then Some (join_rrset r (default (fresh_rrset r) (List.find (λ s, bool_decide (rrset_key s = k)) l)))
    else List.find (λ s, bool_decide (rrset_key s = k)) l.
Proof.
  induction l as [|a l IH]; cbn [add_rrset List.find].
  - rewrite join_key. change (rrset_key (fresh_rrset r)) with (rec_key r). by case_bool_decide.
  - rewrite same_key_eq. destruct (decide (rrset_key a = rec_key r)) as [E|E].
    + rewrite (bool_decide_true (_ = rec_key r)) by done. cbn [List.find]. rewrite join_key, E. by case_bool_decide.
    + rewrite (bool_decide_false (_ = rec_key r)) by done. cbn [List.find]. rewrite IH.
      destruct (decide (rec_key r = k)) as [Ek|Ek].
      * subst k. by rewrite (bool_decide_false (_ = rec_key r)) by done.
      * rewrite (bool_decide_false (rec_key r = k)) by done. by case_bool_decide.
Qed.

Lemma rrset_at_add r section n k :
  Forall (λ m, dname_ok (mn_name m)) section → dname_ok (rec_name r) → dname_ok n →
  rrset_at (add_record r section) n k =
    if own n k r then Some (join_rrset r (default (fresh_rrset r) (rrset_at section n k))) else rrset_at section n k.
Proof.
  intros Hall Hr Hn. unfold rrset_at, own. induction Hall as [|a section Ha _ IH]; cbn [add_record List.find mn_name].
  - destruct (equal (rec_name r) n) eqn:E; [|done]. cbn [mbind option_bind mn_list andb].
    rewrite find_add_rrset. done.
  - destruct (equal (mn_name a) (rec_name r)) eqn:E; cbn [List.find mn_name].
    + rewrite <- (equal_trans _ _ _ Ha Hr Hn E). destruct (equal (rec_name r) n); [|done].
      cbn [mbind option_bind mn_list andb]. by rewrite find_add_rrset.
    + destruct (equal (mn_name a) n) eqn:En; [|exact IH]. cbn [mbind option_bind].
      destruct (equal (rec_name r) n) eqn:Er; [|done]. exfalso. rewrite equal_sym in Er by done.
      rewrite (equal_trans _ _ _ Ha Hn Hr En) in Er. congruence.
Qed.

Lemma join_rdata r s : rl_rdata (rr_state (join_rrset r s)) = rl_rdata (rr_state s) ++ [rec_rdata r].
Proof. done. Qed.

Lemma join_ttl r s : ri_ttl (rr_info (join_rrset r s)) = Z.min (ri_ttl (rr_info s)) (rec_ttl r).
Proof. unfold join_rrset, add_rdata. case_bool_decide; cbn; lia. Qed.

(** The summary of the records of a name and a key. *)
Definition summary (k : Z * Z * Z) (rs : list record) (s : option (rrset rdatalist)) : Prop :=
  match rs with
  | [] => s = None
  | r :: l => ∃ s', s = Some s' ∧ rrset_key s' = k ∧ rl_rdata (rr_state s') = rec_rdata <$> rs ∧
      ri_ttl (rr_info s') = foldr Z.min (rec_ttl r) (rec_ttl <$> l)
  end.

Lemma foldr_min_snoc a l b : foldr Z.min a (l ++ [b]) = Z.min (foldr Z.min a l) b.
Proof. induction l as [|x l IH]; cbn; [lia|]. rewrite IH. lia. Qed.

Lemma gather_summary rs n k :
  Forall (λ r, dname_ok (rec_name r)) rs → dname_ok n → summary k (filter (λ r, own n k r = true) rs) (rrset_at (gather rs) n k).
Proof.
  intros Hrs Hn. induction rs as [|r rs IH] using rev_ind; [done|].
  apply Forall_app in Hrs as [Hrs Hr]. apply Forall_cons in Hr as [Hr _]. specialize (IH Hrs).
  destruct (gather_ok rs Hrs) as [_ Hall]. rewrite gather_snoc, rrset_at_add, filter_app by done.
  destruct (own n k r) eqn:Eo.
  - rewrite filter_cons_True by done. rewrite filter_nil.
    assert (rec_key r = k) as Ek by (apply andb_true_iff in Eo as [_ Eo]; by apply bool_decide_eq_true in Eo).
    unfold summary in IH. destruct (filter _ rs) as [|r0 l].
    + rewrite IH. cbn. eexists. split; [done|]. rewrite join_key, join_rdata, join_ttl. cbn.
      split_and!; [done|done|lia].
    + destruct IH as (s & -> & Hk & Hd & Ht). cbn [app summary default]. eexists. split; [done|].
      rewrite join_key, join_rdata, join_ttl. unfold Datatypes.id. rewrite Hd, Ht, !fmap_cons, !fmap_app.
      change (rec_ttl <$> [r]) with [rec_ttl r]. rewrite foldr_min_snoc. by split_and!.
  - rewrite filter_cons_False by congruence. by rewrite filter_nil, app_nil_r.
Qed.
