(* ===== verification/ParseRules.v ===== *)
(** * What the parser of messages does

    [wp c s Q E]: from the state [s] the parser [c] does not fail an
    assertion; it ends with a value and a state for which [Q] holds, or goes
    to the cleanup with an error for which [E] holds. The first part gives
    such rules for the parts of [MessageParse.v]; [parse_ok] is the
    invariant of a message being parsed: well-formed sections, and pools that
    have given out exactly the names and rdatasets that the message refers
    to. *)
From S2P Require Import Prelude Qsort Rdata Name FromWire Compress Slab RbtdbRdataset Order Answer Message MessageParse Gather.

#[local] Open Scope parser_scope.

(** ** Rules *)

Definition wp {A} (c : parser A) (s : parsing) (Q : A → parsing → Prop) (E : isc_result → parsing → Prop) : Prop :=
  match c s with
  | None => False
  | Some (inl (e, s')) => E e s'
  | Some (inr (a, s')) => Q a s'
  end.

Section Rules.
Context {A B : Type}.
Implicit Types (s : parsing) (E : isc_result → parsing → Prop).

Lemma wp_bind (c : parser A) (f : A → parser B) s Q E :
  wp c s (λ a s', wp (f a) s' Q E) E → wp (pbind c f) s Q E.
Proof. unfold wp, pbind. destruct (c s) as [[[e s']|[a s']]|]; done. Qed.

Lemma wp_mono (c : parser A) s (Q Q' : A → parsing → Prop) (E E' : isc_result → parsing → Prop) :
  wp c s Q E → (∀ a s', Q a s' → Q' a s') → (∀ e s', E e s' → E' e s') → wp c s Q' E'.
Proof. unfold wp. intros H HQ HE. destruct (c s) as [[[e s']|[a s']]|]; auto. Qed.

Lemma wp_ret (a : A) s (Q : A → parsing → Prop) E : Q a s → wp (pret a) s Q E.
Proof. done. Qed.

Lemma wp_fail e s (Q : A → parsing → Prop) E : E e s → wp (fail e) s Q E.
Proof. done. Qed.

Lemma wp_lift (x : option A) a s (Q : A → parsing → Prop) E : x = Some a → Q a s → wp (lift x) s Q E.
Proof. intros ->. done. Qed.

Lemma wp_get s (Q : parsing → parsing → Prop) E : Q s s → wp get s Q E.
Proof. done. Qed.

Lemma wp_if (b : bool) (c1 c2 : parser A) s Q E :
  (b = true → wp c1 s Q E) → (b = false → wp c2 s Q E) → wp (if b then c1 else c2) s Q E.
Proof. destruct b; auto. Qed.
End Rules.

Section Updates.
Context (s : parsing) (Q : unit → parsing → Prop) (E : isc_result → parsing → Prop).

Lemma wp_with_msg f :
  Q tt (Parsing (f (p_msg s)) (p_pos s) (p_seen s) (p_free_name s) (p_free_rds s)) → wp (with_msg f) s Q E.
Proof. done. Qed.

Lemma wp_set_pos pos :
  Q tt (Parsing (p_msg s) pos (p_seen s) (p_free_name s) (p_free_rds s)) → wp (set_pos pos) s Q E.
Proof. done. Qed.

Lemma wp_set_seen : Q tt (Parsing (p_msg s) (p_pos s) true (p_free_name s) (p_free_rds s)) → wp set_seen s Q E.
Proof. done. Qed.

Lemma wp_set_free_name b :
  Q tt (Parsing (p_msg s) (p_pos s) (p_seen s) b (p_free_rds s)) → wp (set_free_name b) s Q E.
Proof. done. Qed.

Lemma wp_set_free_rds b :
  Q tt (Parsing (p_msg s) (p_pos s) (p_seen s) (p_free_name s) b) → wp (set_free_rds b) s Q E.
Proof. done. Qed.

Lemma wp_insist b : b = true → Q tt s → wp (insist b) s Q E.
Proof. by intros ->. Qed.
End Updates.

(** One step of a parser: the rule for its first part. *)
Ltac wp_step :=
  match goal with
  | |- wp (pbind _ _) _ _ _ => apply wp_bind
  | |- wp (pret _) _ _ _ => apply wp_ret
  | |- wp get _ _ _ => apply wp_get
  | |- wp (fail _) _ _ _ => apply wp_fail
  | |- wp (with_msg _) _ _ _ => apply wp_with_msg
  | |- wp (set_pos _) _ _ _ => apply wp_set_pos
  | |- wp set_seen _ _ _ => apply wp_set_seen
  | |- wp (set_free_name _) _ _ _ => apply wp_set_free_name
  | |- wp (set_free_rds _) _ _ _ => apply wp_set_free_rds
  end; cbv beta.
Ltac wp_steps := repeat (wp_step; cbn [p_msg p_pos p_seen p_free_name p_free_rds]).

(** ** Laws of the generated code *)

(** The function of a type reads within the active part of the source,
    writes what fits, and gives an error of its own or a success; those of
    RRSIG and SIG write the type covered first. *)
Class FromwireOk `{FromwireSwitch} := {
  fromwire_ok_switch : ∀ rdclass type source pos len dctx avail,
    bytes_ok source → pos + len <= length source → (Z.of_nat len < 2 ^ 16)%Z →
    ∃ r, fromwire_switch rdclass type source pos (pos + len) dctx avail = Some r ∧
      match r with
      | None => type ≠ dns_rdatatype_rrsig ∧ type ≠ dns_rdatatype_sig
      | Some (result, pos', x) =>
          pos' <= pos + len ∧ length x <= avail ∧ bytes_ok x ∧ result ≠ DNS_R_RECOVERABLE ∧
          (result = ISC_R_SUCCESS → type = dns_rdatatype_rrsig ∨ type = dns_rdatatype_sig → 2 <= length x)
      end }.

(** ** The invariant *)

Section Spec.
Context (mem_get : nat → bool) `{FromwireOk, RdataTypes} (source : mem) (Hsrc : bytes_ok source).
Context (options : Z) (Hbest : option_set options DNS_MESSAGEPARSE_BESTEFFORT = false).
Context (dctx : decompress) (Hdctx : allows_global14 dctx = true).
(** The condition under which no error is expected; false where any may
    come. *)
Context (fine : Prop) (Hmem : fine → ∀ k, mem_get k = true).
Implicit Types (msg : message rdatalist) (s : parsing).

(** A rdataset holds records of its class and type. *)
Record rrset_ok (rs : rrset rdatalist) : Prop := RrsetOk {
  ro_rdata : Forall (λ rd, rd_class rd = ri_rdclass (rr_info rs) ∧ rd_type rd = ri_type (rr_info rs) ∧ bytes_ok (rd_data rd))
               (rl_rdata (rr_state rs));
  ro_type : rl_type (rr_state rs) = ri_type (rr_info rs);
  ro_cursor : rl_cursor (rr_state rs) = None }.

Record mname_ok (n : mname rdatalist) : Prop := MnameOk {
  mo_name : dname_ok (mn_name n); mo_list : Forall rrset_ok (mn_list n) }.

(** What the message refers to. *)
Definition one {A} (x : option A) : nat := match x with Some _ => 1 | None => 0 end.
Definition names_held msg : nat := length (mjoin (m_sections msg)) + one (m_tsigname msg) + one (m_sig0name msg).
Definition rds_held msg : nat :=
  count_rds (mjoin (m_sections msg)) + one (m_opt msg) + one (m_tsig msg) + one (m_sig0 msg) + one (m_querytsig msg).

Record msg_ok msg : Prop := MsgOk {
  mk_sections : length (m_sections msg) = DNS_SECTION_MAX;
  mk_names : Forall (Forall mname_ok) (m_sections msg);
  mk_tsig : one (m_tsig msg) = one (m_tsigname msg);
  mk_sig0 : one (m_sig0 msg) = one (m_sig0name msg);
  mk_reserved : opt_reserved (m_render msg) = 0%Z ∧ sig_reserved (m_render msg) = 0%Z }.

(** [fn] names and [fr] rdatasets are held by locals. *)
Record pools_ok msg (fn fr : bool) : Prop := PoolsOk {
  po_names : names_out (m_pools msg) = Z.of_nat (names_held msg + Nat.b2n fn);
  po_rds : rds_out (m_pools msg) = Z.of_nat (rds_held msg + Nat.b2n fr) }.

Record parse_ok s : Prop := ParseOk {
  pk_msg : msg_ok (p_msg s);
  pk_pools : pools_ok (p_msg s) (p_free_name s) (p_free_rds s);
  pk_seen : p_seen s = false;
  pk_pos : p_pos s <= length source }.

(** An error leaves a message that can be cleaned up. *)
Definition err (e : isc_result) s : Prop := e ≠ ISC_R_SUCCESS ∧ e ≠ DNS_R_RECOVERABLE ∧ parse_ok s ∧ ¬ fine.

Lemma no_memory k : mem_get k = false → ¬ fine.
Proof. intros Hk Hf. by rewrite (Hmem Hf) in Hk. Qed.

(** [s'] is [s] but for the pools, which have given out [dn] names and [dr]
    rdatasets more. *)
Definition pooled msg msg' (dn dr : Z) : Prop :=
  ∃ p, msg' = set_pools msg p ∧ names_out p = (names_out (m_pools msg) + dn)%Z ∧
    rds_out p = (rds_out (m_pools msg) + dr)%Z.

Lemma pooled_refl msg : pooled msg msg 0 0.
Proof. exists (m_pools msg). split_and!; [by destruct msg|lia|lia]. Qed.

Lemma pooled_trans m1 m2 m3 a b c d : pooled m1 m2 a b → pooled m2 m3 c d → pooled m1 m3 (a + c) (b + d).
Proof. intros (p & -> & ? & ?) (q & -> & Hn & Hr). exists q. cbn in *. split_and!; [done|lia|lia]. Qed.

Lemma pooled_ok msg msg' dn dr fn fr fn' fr' :
  pooled msg msg' dn dr → (Z.b2z fn' = Z.b2z fn + dn)%Z → (Z.b2z fr' = Z.b2z fr + dr)%Z →
  msg_ok msg ∧ pools_ok msg fn fr → msg_ok msg' ∧ pools_ok msg' fn' fr'.
Proof.
  intros (p & -> & Hn & Hr) Hfn Hfr [Hm [P1 P2]]. split; [by destruct Hm|].
  change (names_held (set_pools msg p)) with (names_held msg) in *.
  split; [change (names_out p = Z.of_nat (names_held msg + Nat.b2n fn'))|
          change (rds_out p = Z.of_nat (rds_held msg + Nat.b2n fr'))];
    [rewrite Hn, P1|rewrite Hr, P2]; destruct fn, fn', fr, fr'; cbn [Z.b2z Nat.b2n] in *; lia.
Qed.

Definition at_msg s msg : parsing := Parsing msg (p_pos s) (p_seen s) (p_free_name s) (p_free_rds s).

(** Moving on in the source, with other pools and other locals. *)
Lemma parse_ok_move s msg' dn dr pos' fn' fr' :
  parse_ok s → pooled (p_msg s) msg' dn dr → (Z.b2z fn' = Z.b2z (p_free_name s) + dn)%Z →
  (Z.b2z fr' = Z.b2z (p_free_rds s) + dr)%Z → pos' <= length source →
  parse_ok (Parsing msg' pos' false fn' fr').
Proof.
  intros [Hm Hp Hs _] Hpool Hfn Hfr Hpos.
  destruct (pooled_ok _ _ _ _ _ _ _ _ Hpool Hfn Hfr (conj Hm Hp)). by split.
Qed.

(** ** Memory *)

Lemma wp_ask s (Q : unit → parsing → Prop) :
  parse_ok s → (∀ m', pooled (p_msg s) m' 0 0 → parse_ok (at_msg s m') → Q tt (at_msg s m')) →
  wp (request (ask mem_get)) s Q err.
Proof.
  intros Hok HQ. unfold request. wp_steps. destruct (ask mem_get (p_msg s)) as [ok m'] eqn:E.
  unfold ask in E. injection E as Eok Em. assert (pooled (p_msg s) m' 0 0) as Hp.
  { rewrite <- Em. eexists. split; [done|]. cbn. lia. }
  assert (parse_ok (at_msg s m')) as Hok'.
  { unfold at_msg. rewrite (pk_seen _ Hok). eapply parse_ok_move; [done..|lia|lia|apply Hok]. }
  destruct ok; wp_steps; [by apply HQ|]. split_and!; try done. by eapply no_memory.
Qed.

Lemma wp_get_name s (Q : unit → parsing → Prop) :
  parse_ok s → p_free_name s = false →
  (∀ m', pooled (p_msg s) m' 1 0 → parse_ok (Parsing m' (p_pos s) false true (p_free_rds s)) → Q tt (at_msg s m')) →
  wp (request (get_name mem_get)) s Q err.
Proof.
  intros Hok Hfn HQ. unfold request. wp_steps. destruct (get_name mem_get (p_msg s)) as [ok m'] eqn:E.
  unfold get_name, ask in E. injection E as Eok Em. rewrite Eok in Em. destruct ok; wp_steps.
  - assert (pooled (p_msg s) m' 1 0) as Hp.
    { rewrite <- Em. eexists. split; [done|]. cbn. lia. }
    apply HQ; [done|]. eapply parse_ok_move; [done..| |lia|apply Hok]. rewrite Hfn. cbn. lia.
  - split_and!; [done..| |by eapply no_memory]. assert (pooled (p_msg s) m' 0 0) as Hp.
    { rewrite <- Em. eexists. split; [done|]. cbn. lia. }
    rewrite (pk_seen _ Hok). eapply parse_ok_move; [done..|lia|lia|apply Hok].
Qed.

Lemma wp_get_rds s (Q : unit → parsing → Prop) :
  parse_ok s → p_free_rds s = false →
  (∀ m', pooled (p_msg s) m' 0 1 → parse_ok (Parsing m' (p_pos s) false (p_free_name s) true) → Q tt (at_msg s m')) →
  wp (request (get_rds mem_get)) s Q err.
Proof.
  intros Hok Hfn HQ. unfold request. wp_steps. destruct (get_rds mem_get (p_msg s)) as [ok m'] eqn:E.
  unfold get_rds, ask in E. injection E as Eok Em. rewrite Eok in Em. destruct ok; wp_steps.
  - assert (pooled (p_msg s) m' 0 1) as Hp.
    { rewrite <- Em. eexists. split; [done|]. cbn. lia. }
    apply HQ; [done|]. eapply parse_ok_move; [done..|lia| |apply Hok]. rewrite Hfn. cbn. lia.
  - split_and!; [done..| |by eapply no_memory]. assert (pooled (p_msg s) m' 0 0) as Hp.
    { rewrite <- Em. eexists. split; [done|]. cbn. lia. }
    rewrite (pk_seen _ Hok). eapply parse_ok_move; [done..|lia|lia|apply Hok].
Qed.

Lemma wp_renew size s (Q : unit → parsing → Prop) :
  parse_ok s → (∀ m', pooled (p_msg s) m' 0 0 → scratch (m_pools m') = size → parse_ok (at_msg s m') → Q tt (at_msg s m')) →
  wp (renew mem_get size) s Q err.
Proof.
  intros Hok HQ. unfold renew. wp_steps. destruct (newbuffer mem_get (p_msg s) size) as [result m'] eqn:E.
  unfold newbuffer, ask in E. destruct (mem_get _) eqn:Ek; injection E as Er Em; subst result.
  all: assert (pooled (p_msg s) m' 0 0) as Hp by (rewrite <- Em; eexists; split; [done|]; cbn; lia).
  all: assert (parse_ok (at_msg s m')) as Hok'
    by (unfold at_msg; rewrite (pk_seen _ Hok); eapply parse_ok_move; [done..|lia|lia|apply Hok]).
  - rewrite bool_decide_true by done. wp_steps. apply HQ; [done| |done]. by rewrite <- Em.
  - rewrite bool_decide_false by done. wp_steps. split_and!; try done. by eapply no_memory.
Qed.

(** ** Names *)

Lemma fw_loop_error fuel g dc nmax m st e :
  fw_loop fuel g dc nmax m st = Some (inl e) →
  e ∈ [DNS_R_BADLABELTYPE; DNS_R_DISALLOWED; DNS_R_BADPOINTER; fw_full nmax].
Proof.
  revert st. induction fuel as [|fuel IH]; intros st; cbn; destruct (fw_done st); try done;
    destruct (m !! current st) as [c|]; try done.
  destruct (fw_step g dc nmax c st) as [[e'|st']|] eqn:E; cbn; [|by apply IH|done].
  intros [= ->]. unfold fw_step, fw_case_start, fw_case_newcurrent, fw_copy_byte in E. cbn in E.
  destruct (fw_st st); cbn in E; repeat case_bool_decide; cbn in E; try (destruct g; cbn in E); simplify_eq;
    set_solver.
Qed.

Lemma fromwire_fits m p g dc avail :
  DNS_NAME_MAXWIRE <= avail → dns_name_fromwire m p g dc avail ≠ Some (inl ISC_R_NOSPACE).
Proof.
  intros Hav. unfold dns_name_fromwire.
  assert ((if bool_decide (DNS_NAME_MAXWIRE < avail) then DNS_NAME_MAXWIRE else avail) = DNS_NAME_MAXWIRE) as ->
    by (clear -Hav; case_bool_decide; lia).
  destruct (fw_loop _ _ _ _ _ _) as [[e|st]|] eqn:E; cbn; [|by destruct (fw_done st)|done].
  intros [= ->]. apply fw_loop_error in E. unfold fw_full in E. rewrite bool_decide_true in E by done. set_solver.
Qed.

Lemma wire_at_bound g m b p ls k : wire_at g m b p ls k → p + k <= length m.
Proof.
  induction 1 as [b p Hz|b p l ls k Hl Hr _ IH|b p hi lo ls k Hg Hhi Hlo Hrg Hq _ IH].
  - apply lookup_lt_Some in Hz. lia.
  - lia.
  - apply lookup_lt_Some in Hlo. lia.
Qed.

Definition name_read s (n : name) s' (dn : Z) (fn : bool) : Prop :=
  ∃ m' ls used, n = name_of ls ∧ labels_ok ls ∧ is_root_last ls = true ∧ Forall bytes_ok ls ∧
    wire_at true source (p_pos s) (p_pos s) ls used ∧ pooled (p_msg s) m' dn 0 ∧
    s' = Parsing m' (p_pos s + used) false fn (p_free_rds s) ∧ parse_ok s'.

(** A name that can be read is encoded at the position. *)
Definition name_here (pos : nat) : Prop :=
  ∃ ls k, wire_at true source pos pos ls k ∧ length (enc_labels ls) <= DNS_NAME_MAXWIRE.

Lemma wp_getname s :
  parse_ok s → (fine → name_here (p_pos s)) →
  wp (getname mem_get source dctx) s (λ n s', name_read s n s' 0 (p_free_name s)) err.
Proof.
  intros Hok Hhere. unfold getname.
  assert (∀ tries s0, parse_ok s0 → pooled (p_msg s) (p_msg s0) 0 0 → p_pos s0 = p_pos s →
    p_free_name s0 = p_free_name s → p_free_rds s0 = p_free_rds s →
    (tries = 2 ∨ tries = 1 ∧ DNS_NAME_MAXWIRE <= scratch (m_pools (p_msg s0))) →
    wp (getname_loop mem_get source dctx tries) s0 (λ n s', name_read s n s' 0 (p_free_name s)) err) as Hloop.
  2:{ apply Hloop; [done|apply pooled_refl|done|done|done|by left]. }
  induction tries as [|tries IH]; intros s0 Hok0 Hp0 Hpos0 Hfn0 Hfr0 Ht; [lia|].
  cbn [getname_loop]. wp_steps. rewrite Hdctx, Hpos0.
  destruct (fromwire_ok source (p_pos s) true false (scratch (m_pools (p_msg s0))) Hsrc) as (r & Hr & Hspec).
  { rewrite <- Hpos0. apply Hok0. }
  eapply wp_lift; [exact Hr|]. destruct r as [e|[n used]].
  - destruct Hspec as [He Hwire]. destruct (decide (e = ISC_R_NOSPACE)) as [->|Hne].
    + wp_steps. apply wp_renew; [done|]. intros m' Hpm Hsc Hokm. destruct Ht as [Ht|[Ht Hs]].
      * assert (tries = 1) as -> by lia. apply IH; try done; [|right; split; [done|cbn; rewrite Hsc; unfold DNS_NAME_MAXWIRE, SCRATCHPAD_SIZE; lia]].
        cbn. pose proof (pooled_trans _ _ _ _ _ _ _ Hp0 Hpm). done.
      * exfalso. by eapply fromwire_fits.
    + assert (wp (fail e) s0 (λ (n : name) s', name_read s n s' 0 (p_free_name s)) err) as Hf.
      { apply wp_fail. split_and!; [..|done|]; [intros ->; unfold fw_errors in He; set_solver +He..|].
        intros (ls & k & Hw & Hsz)%Hhere. destruct (Hwire _ _ Hw) as [-> Hlt].
        unfold fw_full in Hne. case_bool_decide; [lia|done]. }
      by destruct e.
  - destruct Hspec as (ls & Hw & Hsz & En & Hrep & Habs). rewrite lower_labels_if_false in En, Hrep.
    wp_steps. pose proof (wire_at_bound _ _ _ _ _ _ Hw) as Hb.
    assert (pooled (p_msg s) (set_scratch (p_msg s0) (scratch (m_pools (p_msg s0)) - length (ndata n))) 0 0) as Hp.
    { eapply (pooled_trans _ _ _ 0 0 0 0); [exact Hp0|]. eexists. split; [done|]. cbn. lia. }
    eexists _, ls, used. split_and!; try done.
    + by eapply nr_ok.
    + by eapply wire_at_root_last.
    + by eapply wire_at_bytes.
    + by rewrite (pk_seen _ Hok0), Hfn0, Hfr0.
    + rewrite (pk_seen _ Hok0), Hfn0, Hfr0. eapply parse_ok_move; [exact Hok|exact Hp|by rewrite Z.add_0_r|by rewrite Z.add_0_r|done].
Qed.

Lemma wp_new_name s :
  parse_ok s → p_free_name s = false → (fine → name_here (p_pos s)) → wp (new_name mem_get source dctx) s (λ n s', name_read s n s' 1 true) err.
Proof.
  intros Hok Hfn Hhere. unfold new_name. wp_step. apply wp_get_name; [done..|]. intros m1 Hp1 Hok1. unfold at_msg. wp_steps.
  rewrite (pk_seen _ Hok). apply wp_ask; [done|]. intros m2 Hp2 Hok2. eapply wp_mono; [by apply wp_getname| |done].
  intros n s' (m' & ls & used & W1 & W2 & W3 & W4 & W5 & W6 & W7 & W8). exists m', ls, used. split_and!; try done.
  pose proof (pooled_trans _ _ _ _ _ _ _ (pooled_trans _ _ _ _ _ _ _ Hp1 Hp2) W6) as Hp. done.
Qed.

(** ** Rdata *)

Lemma rdata_fromwire_ok rdclass type pos len avail :
  pos + len <= length source → (Z.of_nat len < 2 ^ 16)%Z →
  ∃ r, dns_rdata_fromwire rdclass type source pos len dctx avail = Some r ∧
    match r with
    | inl e => e ≠ ISC_R_SUCCESS ∧ e ≠ DNS_R_RECOVERABLE
    | inr (rd, pos') => pos' = pos + len ∧ rd_class rd = rdclass ∧ rd_type rd = type ∧ rd_flags rd = 0%Z ∧
        bytes_ok (rd_data rd) ∧ (type = dns_rdatatype_rrsig ∨ type = dns_rdatatype_sig → 2 <= length (rd_data rd))
    end.
Proof.
  intros Hb Hl. unfold dns_rdata_fromwire. case_bool_decide; [by eexists|].
  rewrite bool_decide_true by done.
  destruct (fromwire_ok_switch rdclass type source pos len dctx avail Hsrc Hb Hl) as (r & -> & Hr).
  cbn [mbind option_bind].
  assert (∀ result pos' x, (result = ISC_R_SUCCESS → pos' = pos + len → bytes_ok x ∧
      (type = dns_rdatatype_rrsig ∨ type = dns_rdatatype_sig → 2 <= length x)) → result ≠ DNS_R_RECOVERABLE →
    ∃ r, (let result := if bool_decide (result = ISC_R_SUCCESS ∧ pos' ≠ pos + len) then DNS_R_EXTRADATA else result in
      if bool_decide (result = ISC_R_SUCCESS) then Some (inr (dns_rdata_fromregion rdclass type x, pos'))
      else Some (inl result)) = Some r ∧
    match r with
    | inl e => e ≠ ISC_R_SUCCESS ∧ e ≠ DNS_R_RECOVERABLE
    | inr (rd, pos') => pos' = pos + len ∧ rd_class rd = rdclass ∧ rd_type rd = type ∧ rd_flags rd = 0%Z ∧
        bytes_ok (rd_data rd) ∧ (type = dns_rdatatype_rrsig ∨ type = dns_rdatatype_sig → 2 <= length (rd_data rd))
    end) as Hend.
  { intros result pos' x Hx Hrec. cbv zeta. destruct (decide (result = ISC_R_SUCCESS)) as [->|Hne].
    - destruct (decide (pos' = pos + len)) as [->|Hpos].
      + rewrite (bool_decide_false (_ ∧ _)) by (by intros [_ ?]). rewrite bool_decide_true by done. eexists. split; [done|].
        destruct (Hx eq_refl eq_refl). done.
      + rewrite (bool_decide_true (_ ∧ _)) by done. rewrite bool_decide_false by done. by eexists.
    - rewrite (bool_decide_false (_ ∧ _)) by (by intros [? _]). rewrite bool_decide_false by done. by eexists. }
  destruct r as [[[result pos'] x]|].
  - destruct Hr as (_ & _ & Hx & Hrec & Hlen). cbn [mbind option_bind]. apply Hend; [|done]. auto.
  - case_bool_decide; cbn [mbind option_bind]; [by apply Hend|].
    destruct (mread_is_Some source pos len Hb) as [x Hx]. rewrite Hx. cbn [mbind option_bind].
    apply Hend; [|done]. intros _ _. split; [by eapply mread_bytes_ok|]. tauto.
Qed.

Definition rdata_read (rdclass type : Z) (len : nat) s (rd : rdata) s' : Prop :=
  ∃ m' avail, dns_rdata_fromwire rdclass type source (p_pos s) len dctx avail = Some (inr (rd, p_pos s + len)) ∧
    pooled (p_msg s) m' 0 0 ∧ s' = Parsing m' (p_pos s + len) false (p_free_name s) (p_free_rds s) ∧ parse_ok s' ∧
    rd_class rd = rdclass ∧ rd_type rd = type ∧ rd_flags rd = 0%Z ∧ bytes_ok (rd_data rd) ∧
    (type = dns_rdatatype_rrsig ∨ type = dns_rdatatype_sig → 2 <= length (rd_data rd)).

(** Rdata that can be read, in any buffer that is large enough. *)
Definition rdata_here (rdclass type : Z) (pos len : nat) (rd : rdata) : Prop :=
  ∀ avail, dns_rdata_fromwire rdclass type source pos len dctx avail = Some (inr (rd, pos + len)) ∨
    dns_rdata_fromwire rdclass type source pos len dctx avail = Some (inl ISC_R_NOSPACE) ∧ (Z.of_nat avail < 65535)%Z.

(** The buffer doubles until it is large enough or has 2^16 bytes. *)
Lemma wp_getrdata rdclass type len s :
  parse_ok s → p_pos s + len <= length source → (Z.of_nat len < 2 ^ 16)%Z →
  (fine → ∃ rd, rdata_here rdclass type (p_pos s) len rd) →
  wp (getrdata mem_get source dctx rdclass type len) s (rdata_read rdclass type len s) err.
Proof.
  intros Hok Hb Hl Hhere. unfold getrdata. rewrite bool_decide_true by done.
  assert (∀ fuel s0 t, parse_ok s0 → pooled (p_msg s) (p_msg s0) 0 0 → p_pos s0 = p_pos s →
    p_free_name s0 = p_free_name s → p_free_rds s0 = p_free_rds s →
    match t with
    | None => fuel = 10
    | Some t => (65535 <= t * 2 ^ (Z.of_nat fuel - 1))%Z ∧ 0 < fuel ∧ scratch (m_pools (p_msg s0)) = Z.to_nat t
    end →
    wp (getrdata_loop mem_get source dctx fuel rdclass type len t) s0 (rdata_read rdclass type len s) err) as Hloop.
  2:{ apply Hloop; [done|apply pooled_refl|done..]. }
  induction fuel as [|fuel IH]; intros s0 t Hok0 Hp0 Hpos0 Hfn0 Hfr0 Ht.
  { destruct t; [lia|done]. }
  cbn [getrdata_loop]. wp_steps. rewrite Hpos0.
  destruct (rdata_fromwire_ok rdclass type (p_pos s) len (scratch (m_pools (p_msg s0))) Hb Hl) as (r & Hr & Hspec).
  eapply wp_lift; [exact Hr|]. destruct r as [e|[rd pos']].
  - destruct Hspec as [He1 He2]. destruct (decide (e = ISC_R_NOSPACE)) as [->|Hne].
    2:{ assert (wp (fail e) s0 (rdata_read rdclass type len s) err) as Hf; [|by destruct e].
        apply wp_fail. split_and!; try done. intros [rd Hrd]%Hhere.
        destruct (Hrd (scratch (m_pools (p_msg s0)))) as [Hr'|[Hr' _]]; congruence. }
    assert (∀ t', (65535 <= t' * 2 ^ (Z.of_nat fuel - 1))%Z → 0 < fuel →
      wp (renew mem_get (Z.to_nat t')) s0 (λ _ s', wp (getrdata_loop mem_get source dctx fuel rdclass type len (Some t'))
        s' (rdata_read rdclass type len s) err) err) as Hgo.
    { intros t' Ht' Hf. apply wp_renew; [done|]. intros m' Hpm Hsc Hokm. apply IH; try done.
      cbn. by pose proof (pooled_trans _ _ _ _ _ _ _ Hp0 Hpm). }
    destruct t as [t|]; wp_steps.
    + apply wp_if; intros Ht65; wp_steps.
      { split_and!; try done. intros [rd Hrd]%Hhere. apply bool_decide_eq_true in Ht65.
        destruct Ht as (_ & _ & Hsc). destruct (Hrd (scratch (m_pools (p_msg s0)))) as [Hr'|[_ Hlt]]; [congruence|lia]. }
      apply bool_decide_eq_false in Ht65.
      assert (0 < fuel) as Hf.
      { destruct fuel; [|lia]. destruct Ht as [Ht _]. cbn in Ht. lia. }
      apply Hgo; [|done]. destruct Ht as (Ht & _ & _).
      replace (Z.of_nat (S fuel) - 1)%Z with (Z.succ (Z.of_nat fuel - 1))%Z in Ht by lia.
      rewrite Z.pow_succ_r in Ht by lia. lia.
    + injection Ht as ->. apply Hgo; [|lia]. unfold SCRATCHPAD_SIZE. lia.
  - destruct Hspec as (-> & H2 & H3 & H4 & H5 & H6). wp_steps.
    assert (pooled (p_msg s) (set_scratch (p_msg s0) (scratch (m_pools (p_msg s0)) - length (rd_data rd))) 0 0) as Hp.
    { eapply (pooled_trans _ _ _ 0 0 0 0); [exact Hp0|]. eexists. split; [done|]. cbn. lia. }
    eexists _, _. split_and!; try done.
    + by rewrite (pk_seen _ Hok0), Hfn0, Hfr0.
    + rewrite (pk_seen _ Hok0), Hfn0, Hfr0.
      eapply parse_ok_move; [exact Hok|exact Hp|by rewrite Z.add_0_r|by rewrite Z.add_0_r|done].
Qed.

(** ** Numbers *)

Lemma rd16_range m p v : bytes_ok m → rd16 m p = Some v → (0 <= v < 2 ^ 16)%Z.
Proof.
  intros Hm. unfold rd16. rewrite Forall_lookup in Hm. destruct (m !! p) as [a|] eqn:Ha; [|done].
  destruct (m !! (p + 1)) as [b|] eqn:Hb; [|done]. intros [= <-]. apply dec16_range; by eapply Hm.
Qed.

Definition moved s (k : nat) : parsing := Parsing (p_msg s) (p_pos s + k) (p_seen s) (p_free_name s) (p_free_rds s).

Lemma moved_ok s k : parse_ok s → p_pos s + k <= length source → parse_ok (moved s k).
Proof. by intros [? ? ? _] ?. Qed.

Lemma wp_need n s (Q : unit → parsing → Prop) :
  parse_ok s → (fine → p_pos s + n <= length source) → (p_pos s + n <= length source → Q tt s) →
  wp (need source n) s Q err.
Proof.
  intros Hok Hfine HQ. unfold need. wp_steps. pose proof (pk_pos _ Hok).
  apply wp_if; intros Hn; wp_steps.
  - apply bool_decide_eq_true in Hn. split_and!; try done. intros Hf%Hfine. lia.
  - apply bool_decide_eq_false in Hn. apply HQ. lia.
Qed.

Lemma wp_getuint16 s (Q : Z → parsing → Prop) :
  parse_ok s → p_pos s + 2 <= length source →
  (∀ v, rd16 source (p_pos s) = Some v → (0 <= v < 2 ^ 16)%Z → parse_ok (moved s 2) → Q v (moved s 2)) →
  wp (getuint16 source) s Q err.
Proof.
  intros Hok Hb HQ. unfold getuint16. wp_steps.
  destruct (rd16 source (p_pos s)) as [v|] eqn:E.
  - eapply wp_lift; [done|]. wp_steps. apply HQ; [done| |by apply moved_ok].
    by apply (rd16_range source (p_pos s)).
  - exfalso. unfold rd16 in E. destruct (lookup_lt_is_Some_2 source (p_pos s)) as [x Hx]; [lia|].
    destruct (lookup_lt_is_Some_2 source (p_pos s + 1)) as [y Hy]; [lia|]. by rewrite Hx, Hy in E.
Qed.

Lemma wp_getuint32 s (Q : Z → parsing → Prop) :
  parse_ok s → p_pos s + 4 <= length source →
  (∀ v, rd32 source (p_pos s) = Some v → parse_ok (moved s 4) → Q v (moved s 4)) →
  wp (getuint32 source) s Q err.
Proof.
  intros Hok Hb HQ. unfold getuint32. wp_steps.
  destruct (rd32 source (p_pos s)) as [v|] eqn:E.
  - eapply wp_lift; [done|]. wp_steps. apply HQ; [done|by apply moved_ok].
  - exfalso. unfold rd32 in E. destruct (lookup_lt_is_Some_2 source (p_pos s)) as [x Hx]; [lia|].
    destruct (lookup_lt_is_Some_2 source (p_pos s + 1)) as [y Hy]; [lia|].
    destruct (lookup_lt_is_Some_2 source (p_pos s + 2)) as [z Hz]; [lia|].
    destruct (lookup_lt_is_Some_2 source (p_pos s + 3)) as [w Hw]; [lia|]. by rewrite Hx, Hy, Hz, Hw in E.
Qed.

End Spec.
