(* ===== verification/RRtypes.v ===== *)
(** * The types of addresses and options

    The functions that [lib/dns/rdata/in_1/a_1.c] and [aaaa_28.c] and
    [lib/dns/rdata/generic/opt_41.c] have for the wire: addresses and options
    are copied as they are. [plain_towire] and [plain_fromwire] are the
    generated dispatch restricted to these types, which have functions of
    their own, and to types without; both keep their promises, and what one
    writes the other reads ([Readable]). *)
From S2P Require Import Prelude Qsort Rdata Name FromWire Compress Slab RbtdbRdataset Order Answer Message Opt MessageParse Gather ParseRules.

(** ** AAAA *)

Definition towire_in_aaaa (rdata : rdata) (cctx : compress) (cap : nat) (m : mem) : option written :=
  if bool_decide (rd_type rdata = dns_rdatatype_aaaa ∧ rd_class rdata = dns_rdataclass_in ∧ length (rd_data rdata) = 16)
  then
    if bool_decide (cap - length m < length (rd_data rdata)) then Some (ISC_R_NOSPACE, m, cctx)
    else Some (ISC_R_SUCCESS, m ++ rd_data rdata, cctx)
  else None.

Definition fromwire_in_aaaa (rdclass type : Z) (source : mem) (pos active avail : nat)
    : option (isc_result * nat * list Z) :=
  if bool_decide (type = dns_rdatatype_aaaa ∧ rdclass = dns_rdataclass_in) then
    if bool_decide (active - pos < 16) then Some (ISC_R_UNEXPECTEDEND, pos, [])
    else if bool_decide (avail < 16) then Some (ISC_R_NOSPACE, pos, [])
    else x ← mread source pos 16; Some (ISC_R_SUCCESS, pos + 16, x)
  else None.

(** ** What one writes the other reads *)

(** The bytes that stand for the rdata of a type are read as that rdata,
    wherever they are: they do not refer to the rest of the message. *)
Class Readable `{TowireOk, FromwireSwitch} := {
  renders_bytes : ∀ rd x, rdata_wf rd → bytes_ok (rd_data rd) → renders rd x → bytes_ok x;
  renders_here : ∀ rd x source dctx pos, rdata_wf rd → bytes_ok (rd_data rd) → rd_flags rd = 0%Z → renders rd x →
    (Z.of_nat (length x) < 2 ^ 16)%Z → mread source pos (length x) = Some x →
    rdata_here source dctx (rd_class rd) (rd_type rd) pos (length x) rd }.

(** A reader that copies the data as they are. *)
Lemma copied_here `{FromwireSwitch} source dctx rd pos :
  rd_type rd ≠ 0%Z → rd_flags rd = 0%Z → (Z.of_nat (length (rd_data rd)) < 2 ^ 16)%Z →
  (∀ avail, fromwire_switch (rd_class rd) (rd_type rd) source pos (pos + length (rd_data rd)) dctx avail =
     Some (Some (if bool_decide (avail < length (rd_data rd)) then (ISC_R_NOSPACE, pos, [])
                 else (ISC_R_SUCCESS, pos + length (rd_data rd), rd_data rd)))) →
  rdata_here source dctx (rd_class rd) (rd_type rd) pos (length (rd_data rd)) rd.
Proof.
  intros Ht Hf Hl Hs avail. unfold dns_rdata_fromwire.
  rewrite (bool_decide_false (_ = 0%Z)) by done. rewrite (bool_decide_true (_ < 65536)%Z), Hs by lia. cbn [mbind option_bind].
  destruct (decide (avail < length (rd_data rd))) as [Ha|Ha].
  - right. rewrite (bool_decide_true (avail < _)) by done. cbn [mbind option_bind].
    rewrite (bool_decide_false (_ ∧ _)) by (by intros [? _]). rewrite bool_decide_false by done. split; [done|lia].
  - left. rewrite (bool_decide_false (avail < _)) by done. cbn [mbind option_bind].
    rewrite (bool_decide_false (_ ∧ _)) by (by intros [_ ?]). rewrite bool_decide_true by done.
    destruct rd as [x t c f]. cbn in *. by subst f.
Qed.

(** ** The dispatch *)

Definition plain_towire : TowireSwitch := λ rd cctx cap m,
  if bool_decide (rd_type rd = dns_rdatatype_opt) then w ← towire_opt rd cctx cap m; Some (Some w)
  else if bool_decide (rd_class rd = dns_rdataclass_in ∧ rd_type rd = dns_rdatatype_a)
  then w ← towire_in_a rd cctx cap m; Some (Some w)
  else if bool_decide (rd_class rd = dns_rdataclass_in ∧ rd_type rd = dns_rdatatype_aaaa)
  then w ← towire_in_aaaa rd cctx cap m; Some (Some w)
  else Some None.

Definition plain_fromwire : FromwireSwitch := λ rdclass type source pos active dctx avail,
  if bool_decide (type = dns_rdatatype_opt) then r ← fromwire_opt type source pos active avail; Some (Some r)
  else if bool_decide (rdclass = dns_rdataclass_in ∧ type = dns_rdatatype_a)
  then r ← fromwire_in_a rdclass type source pos active avail; Some (Some r)
  else if bool_decide (rdclass = dns_rdataclass_in ∧ type = dns_rdatatype_aaaa)
  then r ← fromwire_in_aaaa rdclass type source pos active avail; Some (Some r)
  else if bool_decide (type = dns_rdatatype_rrsig ∨ type = dns_rdatatype_sig)
  then Some (Some (ISC_R_UNEXPECTED, pos, []))
  else Some None.

(** Rdata of these types. *)
Inductive plain_rdata (rd : rdata) : Prop :=
  | plain_opt : rd_type rd = dns_rdatatype_opt → options_ok (rd_data rd) → plain_rdata rd
  | plain_a : rd_class rd = dns_rdataclass_in → rd_type rd = dns_rdatatype_a → length (rd_data rd) = 4 → plain_rdata rd
  | plain_aaaa : rd_class rd = dns_rdataclass_in → rd_type rd = dns_rdatatype_aaaa → length (rd_data rd) = 16 →
      plain_rdata rd.

Lemma plain_towire_copies rd cctx cap m :
  plain_rdata rd → plain_towire rd cctx cap m = Some (Some (copies rd cctx cap m)).
Proof.
  unfold plain_towire, copies. intros [Ht Ho|Hc Ht Hl|Hc Ht Hl]; rewrite Ht.
  - rewrite bool_decide_true by done. unfold towire_opt, mem_tobuffer. rewrite bool_decide_true by done.
    by case_bool_decide.
  - rewrite bool_decide_false, bool_decide_true by done. unfold towire_in_a.
    rewrite bool_decide_true by done. by case_bool_decide.
  - rewrite bool_decide_false, (bool_decide_false (_ ∧ dns_rdatatype_aaaa = dns_rdatatype_a)), bool_decide_true by (done || by intros []).
    unfold towire_in_aaaa. rewrite bool_decide_true by done. by case_bool_decide.
Qed.

Program Definition plain_towire_ok `{Alloc} : @TowireOk plain_towire _ := {|
  rdata_wf := plain_rdata; renders rd x := x = rd_data rd |}.
Next Obligation. done. Qed.
Next Obligation. intros ? rd cctx cap n Hrd Hn _ _. right. apply copies_ok; [|done]. intros m. by apply plain_towire_copies. Qed.

Lemma plain_dispatch_opt rd cctx cap m :
  rd_type rd = dns_rdatatype_opt → @towire_switch plain_towire rd cctx cap m = (w ← towire_opt rd cctx cap m; Some (Some w)).
Proof. intros Ht. unfold towire_switch, plain_towire. by rewrite bool_decide_true. Qed.

(** Reading from the start of the active part. *)
Lemma fixed_fromwire source pos active avail n (Hb : bytes_ok source) :
  pos <= active → active <= length source →
  ∃ result pos' x,
    (if bool_decide (active - pos < n) then Some (ISC_R_UNEXPECTEDEND, pos, [])
     else if bool_decide (avail < n) then Some (ISC_R_NOSPACE, pos, [])
     else x ← mread source pos n; Some (ISC_R_SUCCESS, pos + n, x)) = Some (result, pos', x) ∧
    pos' <= active ∧ length x <= avail ∧ bytes_ok x ∧ result ≠ DNS_R_RECOVERABLE.
Proof.
  intros Hp Ha. case_bool_decide; [eexists _, _, _; split_and!; try done; cbn; lia|].
  case_bool_decide; [eexists _, _, _; split_and!; try done; cbn; lia|].
  destruct (mread_is_Some source pos n) as [x Hx]; [lia|]. rewrite Hx. pose proof (mread_length _ _ _ _ Hx).
  eexists _, _, _. split_and!; [done|lia|lia|by eapply mread_bytes_ok|done].
Qed.

(** The options that are read are in the active part. *)
Lemma opt_loop_total source p n fuel total :
  p + n <= length source → n <= fuel →
  ∃ r, opt_loop fuel source p n total = Some r ∧ r ≠ inl DNS_R_RECOVERABLE ∧ ∀ t, r = inr t → t = total + n.
Proof.
  revert p n total. induction fuel as [|fuel IH]; intros p n total Hp Hf; cbn [opt_loop]; case_bool_decide as H0; try lia.
  - eexists. split_and!; [done|done|]. intros t [= <-]. lia.
  - eexists. split_and!; [done|done|]. intros t [= <-]. lia.
  - case_bool_decide; [by eexists|]. unfold rd16.
    destruct (lookup_lt_is_Some_2 source (p + 2)) as [a ->]; [lia|]. destruct (lookup_lt_is_Some_2 source (p + 2 + 1)) as [b ->]; [lia|].
    cbn [mbind option_bind]. case_bool_decide; [by eexists|].
    set (z := Z.to_nat _) in *. destruct (IH (p + 4 + z) (n - 4 - z) (total + 4 + z)) as (r & E & Hr & Ht); [lia|lia|].
    exists r. split_and!; [exact E|done|]. intros t Et. rewrite (Ht t Et). lia.
Qed.

Lemma plain_fromwire_ok : @FromwireOk plain_fromwire.
Proof.
  split. intros rdclass type source pos len dctx avail Hb Hl _. unfold fromwire_switch, plain_fromwire.
  case_bool_decide as Ho.
  { subst type. unfold fromwire_opt. rewrite bool_decide_true by done. replace (pos + len - pos) with len by lia.
    destruct (opt_loop_total source pos len len 0) as (r & -> & Hr & Ht); [done|done|]. cbn [mbind option_bind].
    destruct r as [e|t]; [|case_bool_decide].
    - eexists. split; [done|]. split_and!; try done; [lia|cbn; lia|congruence|naive_solver].
    - eexists. split; [done|]. split_and!; try done; cbn; lia.
    - rewrite (Ht t eq_refl) in *. destruct (mread_is_Some source pos (0 + len)) as [x Hx]; [lia|]. rewrite Hx.
      pose proof (mread_length _ _ _ _ Hx). eexists. split; [done|]. split_and!; [lia|lia|by eapply mread_bytes_ok|done|by intros _ [?|?]]. }
  case_bool_decide as Ha.
  { destruct Ha as [-> ->]. unfold fromwire_in_a. rewrite bool_decide_true by done.
    destruct (fixed_fromwire source pos (pos + len) avail 4 Hb) as (r & p' & x & -> & Hp & Hx & Hbx & Hr); [lia|done|].
    eexists. split; [done|]. split_and!; [done..|by intros _ [?|?]]. }
  case_bool_decide as Haaaa.
  { destruct Haaaa as [-> ->]. unfold fromwire_in_aaaa. rewrite bool_decide_true by done.
    destruct (fixed_fromwire source pos (pos + len) avail 16 Hb) as (r & p' & x & -> & Hp & Hx & Hbx & Hr); [lia|done|].
    eexists. split; [done|]. split_and!; [done..|by intros _ [?|?]]. }
  case_bool_decide as Hs; eexists; (split; [done|]); [|naive_solver]. split_and!; try done; cbn; lia.
Qed.

Lemma plain_fromwire_copies rd source dctx pos avail :
  plain_rdata rd → mread source pos (length (rd_data rd)) = Some (rd_data rd) →
  plain_fromwire (rd_class rd) (rd_type rd) source pos (pos + length (rd_data rd)) dctx avail =
    Some (Some (if bool_decide (avail < length (rd_data rd)) then (ISC_R_NOSPACE, pos, [])
                else (ISC_R_SUCCESS, pos + length (rd_data rd), rd_data rd))).
Proof.
  unfold plain_fromwire. intros [Ht Ho|Hc Ht Hl|Hc Ht Hl] Hr; rewrite Ht.
  - rewrite bool_decide_true by done. unfold fromwire_opt. rewrite bool_decide_true by done.
    replace (pos + _ - pos) with (length (rd_data rd)) by lia. rewrite (opt_loop_ok source pos _ (rd_data rd)) by done.
    cbn [mbind option_bind Nat.add]. case_bool_decide; [done|]. by rewrite Hr.
  - rewrite Hc, bool_decide_false, bool_decide_true by done. unfold fromwire_in_a. rewrite Hl in *.
    rewrite bool_decide_true, (bool_decide_false (pos + 4 - pos < 4)) by (done || lia). case_bool_decide; [done|]. by rewrite Hr.
  - rewrite Hc, bool_decide_false, (bool_decide_false (_ ∧ dns_rdatatype_aaaa = dns_rdatatype_a)), bool_decide_true by (done || by intros []).
    unfold fromwire_in_aaaa. rewrite Hl in *.
    rewrite bool_decide_true, (bool_decide_false (pos + 16 - pos < 16)) by (done || lia). case_bool_decide; [done|]. by rewrite Hr.
Qed.

Lemma plain_readable `{Alloc} : @Readable plain_towire _ plain_towire_ok plain_fromwire.
Proof.
  split; [by intros rd x _ Hb ->|]. intros rd x source dctx pos Hrd _ Hf -> Hl Hr. apply copied_here; [|done..|].
  - destruct Hrd as [Ht _|_ Ht _|_ Ht _]; by rewrite Ht.
  - intros avail. by apply plain_fromwire_copies.
Qed.
