(* ===== verification/ParseSpec.v ===== *)
(** * The sections of a message

    Rules for the parts of [getquestions] and [getsection] that put what was
    read into the message: they keep the invariant [parse_ok] of
    [ParseRules.v]. Without updates and preserved order, a section is then
    the records that were read, gathered: [add_record] of [Gather.v] is how one
    record is added. *)
From S2P Require Import Prelude Qsort Rdata Name FromWire Compress Slab RbtdbRdataset Order Answer Message MessageParse Gather ParseRules.

#[local] Open Scope parser_scope.
#[local] Arguments count_rds : simpl never.

(** ** Counting *)

Lemma length_mjoin {A} (l : list (list A)) : length (mjoin l) = sum_list_with length l.
Proof. induction l; cbn; [done|]. rewrite length_app. by f_equal. Qed.

Lemma count_rds_sum {St} (ns : list (mname St)) : count_rds ns = sum_list_with (λ n, length (mn_list n)) ns.
Proof. unfold count_rds. rewrite length_mjoin. induction ns; cbn; [done|]. by f_equal. Qed.

Lemma count_rds_mjoin {St} (l : list (list (mname St))) : count_rds (mjoin l) = sum_list_with count_rds l.
Proof.
  induction l as [|a l IH]; [done|]. cbn [sum_list_with]. rewrite <- IH.
  change (mjoin (a :: l)) with (a ++ mjoin l). rewrite !count_rds_sum. apply sum_list_with_app.
Qed.

Section Spec.
Context (mem_get : nat → bool) `{FromwireOk, RdataTypes} (source : mem) (Hsrc : bytes_ok source).
Context (options : Z) (Hbest : option_set options DNS_MESSAGEPARSE_BESTEFFORT = false).
Context (dctx : decompress) (Hdctx : allows_global14 dctx = true).
Context (fine : Prop) (Hmem : fine → ∀ k, mem_get k = true).
Implicit Types (msg : message rdatalist) (s : parsing).

#[local] Abbreviation parse_ok := (ParseRules.parse_ok source).
#[local] Abbreviation err := (ParseRules.err source fine).

(** [DO_FORMERR] where no best effort is made. *)
Lemma wp_do_formerr s (Q : unit → parsing → Prop) : parse_ok s → ¬ fine → wp (do_formerr options) s Q err.
Proof. intros Hok Hf. unfold do_formerr. rewrite Hbest. by wp_steps. Qed.

Lemma wp_check (b : bool) s (Q : unit → parsing → Prop) :
  parse_ok s → (fine → b = false) → (b = false → Q tt s) → wp (if b then do_formerr options else pret tt) s Q err.
Proof.
  intros Hok Hf HQ. apply wp_if; intros ->; [|by wp_steps; apply HQ].
  apply wp_do_formerr; [done|]. intros ?%Hf. done.
Qed.

(** ** Places in the message *)

Lemma msg_ok_section msg sec : msg_ok msg → sec < 4 → ∃ section, m_sections msg !! sec = Some section ∧ Forall mname_ok section.
Proof.
  intros [Hl Hn _ _ _] Hs. destruct (lookup_lt_is_Some_2 (m_sections msg) sec) as [section E]; [rewrite Hl; done|].
  exists section. split; [done|]. by eapply (Forall_lookup_1 _ _ _ _ Hn).
Qed.

(** A section rewritten, with [dn] names and [dr] rdatasets more. *)
Lemma alter_section_ok s sec section f dn dr fn fr :
  parse_ok s → m_sections (p_msg s) !! sec = Some section → Forall mname_ok (f section) →
  length (f section) = length section + dn → count_rds (f section) = count_rds section + dr →
  Nat.b2n (p_free_name s) = dn + Nat.b2n fn → Nat.b2n (p_free_rds s) = dr + Nat.b2n fr →
  parse_ok (Parsing (set_sections (p_msg s) (alter f sec (m_sections (p_msg s)))) (p_pos s) (p_seen s) fn fr).
Proof.
  intros [[M1 M2 M3 M4 M5] [P1 P2] Hs Hp] Hsec Hf Hln Hlr Hfn Hfr. split; cbn; [| |done|done].
  - split; cbn; [by rewrite length_alter| |done|done|done].
    apply Forall_alter; [done|]. intros x Hx _. rewrite Hsec in Hx. by injection Hx as <-.
  - unfold names_held in P1. unfold rds_held in P2.
    pose proof (sum_alter length f sec _ _ Hsec) as E1. pose proof (sum_alter count_rds f sec _ _ Hsec) as E2.
    split; unfold names_held, rds_held; cbn; rewrite ?length_mjoin, ?count_rds_mjoin in *; [rewrite P1|rewrite P2]; lia.
Qed.

(** The same message but for its class and where its signature starts. *)
Record stamped msg msg' : Prop := Stamped {
  st_sections : m_sections msg' = m_sections msg; st_header : m_header msg' = m_header msg;
  st_opt : m_opt msg' = m_opt msg; st_tsig : m_tsig msg' = m_tsig msg; st_tsigname : m_tsigname msg' = m_tsigname msg;
  st_sig0 : m_sig0 msg' = m_sig0 msg; st_sig0name : m_sig0name msg' = m_sig0name msg;
  st_query : m_querytsig msg' = m_querytsig msg; st_counts : m_counts msg' = m_counts msg;
  st_intent : m_intent msg' = m_intent msg; st_pools : m_pools msg' = m_pools msg; st_render : m_render msg' = m_render msg }.

Lemma stamped_ok s msg' : parse_ok s → stamped (p_msg s) msg' → parse_ok (at_msg s msg').
Proof.
  intros [[M1 M2 M3 M4 M5] [P1 P2] Hs Hp] [E1 E2 E3 E4 E5 E6 E7 E8 E9 E10 E11 E12]. split; cbn; [| |done|done].
  - split; [by rewrite E1|by rewrite E1|by rewrite E4, E5|by rewrite E6, E7|by rewrite E12].
  - split; [rewrite E11, P1|rewrite E11, P2]; unfold names_held, rds_held; by rewrite ?E1, ?E3, ?E4, ?E5, ?E6, ?E7, ?E8.
Qed.

Lemma stamped_refl msg : stamped msg msg.
Proof. by split. Qed.

Lemma stamped_trans m1 m2 m3 : stamped m1 m2 → stamped m2 m3 → stamped m1 m3.
Proof. intros [] []. split; congruence. Qed.

Lemma stamped_class msg rdclass state : stamped msg (set_class msg rdclass state).
Proof. by split. Qed.

Lemma stamped_sigstart msg x : stamped msg (set_sigstart msg x).
Proof. by split. Qed.

Lemma wp_section_at sec s section (Q : list (mname rdatalist) → parsing → Prop) E :
  m_sections (p_msg s) !! sec = Some section → Q section s → wp (section_at sec) s Q E.
Proof. intros Hs HQ. unfold section_at. wp_steps. by eapply wp_lift. Qed.

(** ** Class and type *)

Lemma wp_check_class rdtype rdclass s (Q : unit → parsing → Prop) :
  parse_ok s → (fine → m_state (p_msg s) ≠ DNS_SECTION_ANY ∧ m_rdclass (p_msg s) = rdclass) →
  (∀ m', stamped (p_msg s) m' → (m_state (p_msg s) ≠ DNS_SECTION_ANY → m' = p_msg s) →
     parse_ok (at_msg s m') → Q tt (at_msg s m')) →
  wp (check_class options rdtype rdclass) s Q err.
Proof.
  intros Hok Hf HQ. unfold check_class. wp_steps.
  assert (∀ m', stamped (p_msg s) m' → (m_state (p_msg s) ≠ DNS_SECTION_ANY → m' = p_msg s) →
    wp (upd <- is_opcode_update ;;
      if negb upd && bool_decide (rdtype ∉ [dns_rdatatype_tsig; dns_rdatatype_opt; dns_rdatatype_dnskey;
                                            dns_rdatatype_sig; dns_rdatatype_tkey] ∧
           m_rdclass m' ≠ dns_rdataclass_any ∧ m_rdclass m' ≠ rdclass)
      then do_formerr options else pret tt) (at_msg s m') Q err) as Hrest.
  { intros m' Hst Hsame. pose proof (stamped_ok _ _ Hok Hst) as Hok'. unfold is_opcode_update. wp_steps.
    apply wp_check; [done| |auto]. intros [Hany Hc]%Hf. rewrite (Hsame Hany), Hc.
    rewrite (bool_decide_false (_ ∧ _)) by (intros (_ & _ & ?); done). apply andb_false_r. }
  apply wp_if; intros Hb; wp_steps.
  - apply Hrest; [apply stamped_class|]. apply bool_decide_eq_true in Hb as [Hb _]. done.
  - destruct s as [msg pos sn fn fr]. by apply (Hrest msg (stamped_refl _)).
Qed.

Lemma dname_root : dname_ok dns_rootname.
Proof. exists [[]]. split_and!; [done|apply labels_ok_root|done|by repeat constructor]. Qed.

Lemma wp_check_type sec (last : bool) recstart t c n s (Q : bool → parsing → Prop) :
  parse_ok s → dname_ok n → (fine → t ∉ [dns_rdatatype_tsig; dns_rdatatype_opt; dns_rdatatype_tkey]) →
  (∀ m', stamped (p_msg s) m' → m_state m' = m_state (p_msg s) → m_rdclass m' = m_rdclass (p_msg s) →
     parse_ok (at_msg s m') → (t = dns_rdatatype_tsig → sec = DNS_SECTION_ADDITIONAL ∧ last = true) →
     (t = dns_rdatatype_opt → m_opt (p_msg s) = None) →
     Q (bool_decide (t = dns_rdatatype_opt ∨ t = dns_rdatatype_tsig)) (at_msg s m')) →
  wp (check_type options sec last recstart t c n) s Q err.
Proof.
  intros Hok Hn Hf HQ. unfold check_type.
  assert (at_msg s (p_msg s) = s) as Hs by (by destruct s). pose proof (HQ (p_msg s) (stamped_refl _) eq_refl eq_refl) as HQ0.
  rewrite Hs in HQ0. specialize (HQ0 Hok).
  apply wp_if; intros Ht; [apply bool_decide_eq_true in Ht|apply bool_decide_eq_false in Ht; apply wp_if; intros Ho;
    [apply bool_decide_eq_true in Ho|apply bool_decide_eq_false in Ho; apply wp_if; intros Hk]].
  - wp_step. apply wp_check; [done|intros Hfine%Hf; set_solver|]. intros Hb. apply orb_false_iff in Hb as [Hb Hl].
    apply bool_decide_eq_false in Hb. wp_steps. rewrite (bool_decide_true (_ ∨ _)) in HQ by auto.
    apply (HQ (set_sigstart (p_msg s) (Z.of_nat recstart))); [apply stamped_sigstart|done|done| | |].
    + apply (stamped_ok _ _ Hok), stamped_sigstart.
    + intros _. split; [|by destruct last]. destruct (decide (sec = DNS_SECTION_ADDITIONAL)); [done|tauto].
    + subst t. done.
  - wp_step. eapply wp_lift; [by apply (dname_equal _ _ dname_root)|]. wp_steps.
    apply wp_check; [done|intros Hfine%Hf; set_solver|]. intros Hc. apply orb_false_iff in Hc as [_ Hc].
    apply bool_decide_eq_false in Hc. wp_steps. rewrite (bool_decide_true (_ ∨ _)) in HQ0 by auto.
    apply HQ0; [done|]. intros _. destruct (m_opt (p_msg s)); [|done]. by destruct Hc.
  - wp_steps. apply wp_check; [done|apply bool_decide_eq_true in Hk; intros Hfine%Hf; set_solver|]. intros _. wp_steps.
    rewrite (bool_decide_false (_ ∨ _)) in HQ0 by tauto. by apply HQ0.
  - wp_steps. rewrite (bool_decide_false (_ ∨ _)) in HQ0 by tauto. by apply HQ0.
Qed.

(** ** Rdata *)

Definition updates s : bool := bool_decide (opcode (m_header (p_msg s)) = dns_opcode_update).

Record rdata_got (t c : Z) (pos len : nat) (upd : bool) (rd : rdata) : Prop := RdataGot {
  rg_class : rd_class rd = c; rg_type : rd_type rd = t; rg_bytes : bytes_ok (rd_data rd);
  rg_flags : rd_flags rd = 0%Z ∨ rd_data rd = [];
  rg_covers : rd_flags rd = 0%Z → t = dns_rdatatype_rrsig ∨ t = dns_rdatatype_sig → 2 <= length (rd_data rd);
  rg_wire : upd = false → rd_flags rd = 0%Z ∧
    ∃ avail, dns_rdata_fromwire c t source pos len dctx avail = Some (inr (rd, pos + len)) }.

Lemma wp_read_rdata sec t c len s (Q : rdata → parsing → Prop) :
  parse_ok s → p_pos s + len <= length source → (Z.of_nat len < 2 ^ 16)%Z →
  (fine → updates s = false ∧ ∃ rd, rdata_here source dctx c t (p_pos s) len rd) →
  (∀ m' rd, pooled (p_msg s) m' 0 0 → rdata_got t c (p_pos s) len (updates s) rd →
     parse_ok (Parsing m' (p_pos s + len) false (p_free_name s) (p_free_rds s)) →
     Q rd (Parsing m' (p_pos s + len) false (p_free_name s) (p_free_rds s))) →
  wp (read_rdata mem_get source dctx sec t c len) s Q err.
Proof.
  intros Hok Hb Hl Hf HQ. unfold read_rdata. wp_step. apply wp_ask; [done..|]. intros m1 Hp1 Hok1.
  assert (opcode (m_header m1) = opcode (m_header (p_msg s))) as Eop by (by destruct Hp1 as (p & -> & _)).
  unfold is_opcode_update, at_msg. wp_steps. rewrite Eop. fold (updates s).
  assert (∀ c', (updates s = false → c' = c) → (fine → c' = c) →
    wp (getrdata mem_get source dctx c' t len) (at_msg s m1)
      (λ rd s', wp (pret (Rdata (rd_data rd) c (rd_type rd) (rd_flags rd))) s' Q err) err) as Hget.
  { intros c' Hc' Hfc. eapply wp_mono; [apply (wp_getrdata mem_get source Hsrc dctx fine Hmem); [done..|]| |done].
    - intros Hfine. rewrite Hfc by done. cbn. by apply Hf.
    - intros rd s' (m' & avail & Hw & Hp & -> & Hok' & R1 & R2 & R3 & R4 & R5). cbn in Hok', Hw. wp_steps. apply HQ; [|split|done].
      + by pose proof (pooled_trans _ _ _ _ _ _ _ Hp1 Hp).
      + done.
      + done.
      + done.
      + by left.
      + intros _. exact R5.
      + intros Hu. cbn. split; [done|]. exists avail. rewrite (Hc' Hu) in *. rewrite Hw. destruct rd. cbn in R1. by subst. }
  unfold at_msg in Hget. rewrite (pk_seen _ _ Hok) in *.
  apply wp_if; intros Hu; wp_steps.
  - apply andb_true_iff in Hu as [Hu _]. apply wp_if; intros Hlen; wp_steps.
    + split_and!; [done..| |]; [|intros [? _]%Hf; congruence]. unfold at_msg in Hok1. by rewrite (pk_seen _ _ Hok) in Hok1.
    + apply bool_decide_eq_false in Hlen. assert (len = 0) as -> by lia. unfold at_msg in Hok1. rewrite (pk_seen _ _ Hok) in Hok1.
      rewrite Nat.add_0_r in *. apply HQ; [done| |done]. split; try done; [by right|]. by rewrite Hu.
  - apply wp_if; intros Hn; wp_steps; [|apply Hget; [done..|]].
    + apply andb_true_iff in Hn as [Hn _]. apply andb_true_iff in Hn as [_ Hn]. apply Hget; [congruence|].
      intros [? _]%Hf. congruence.
    + done.
Qed.

Lemma covers_some rd :
  bytes_ok (rd_data rd) → rd_type rd = dns_rdatatype_rrsig ∨ rd_type rd = dns_rdatatype_sig →
  2 <= length (rd_data rd) → is_Some (dns_rdata_covers rd).
Proof.
  intros _ Ht Hl. unfold dns_rdata_covers. rewrite bool_decide_true by done. unfold rd16.
  destruct (lookup_lt_is_Some_2 (rd_data rd) 0) as [x Hx]; [lia|].
  destruct (lookup_lt_is_Some_2 (rd_data rd) (0 + 1)) as [y Hy]; [lia|]. by rewrite Hx, Hy.
Qed.

(** A signature of the message itself, SIG(0). *)
Definition is_sig0 (t : Z) (rd : rdata) : bool :=
  bool_decide (t = dns_rdatatype_sig ∧ rd_flags rd = 0%Z ∧ default 0%Z (dns_rdata_covers rd) = 0%Z).

Lemma wp_read_covers sec (last : bool) recstart t c pos len rd s (Q : Z * bool → parsing → Prop) :
  parse_ok s → rdata_got t c pos len (updates s) rd → (fine → t ≠ dns_rdatatype_sig ∧ t ≠ dns_rdatatype_rrsig) →
  (∀ m' covers, stamped (p_msg s) m' → m_state m' = m_state (p_msg s) → m_rdclass m' = m_rdclass (p_msg s) →
     covers = default 0%Z (dns_rdata_covers rd) →
     (is_sig0 t rd = true → sec = DNS_SECTION_ADDITIONAL ∧ last = true) →
     parse_ok (at_msg s m') → Q (covers, is_sig0 t rd) (at_msg s m')) →
  wp (read_covers options sec last recstart t rd) s Q err.
Proof.
  intros Hok [R1 R2 R3 R3' R4 _] Hf HQ. unfold read_covers. assert (at_msg s (p_msg s) = s) as Hs by (by destruct s).
  pose proof (λ covers, HQ (p_msg s) covers (stamped_refl _) eq_refl eq_refl) as HQ0. rewrite Hs in HQ0.
  apply wp_if; intros Ht; [apply bool_decide_eq_true in Ht as [-> Hfl]|apply bool_decide_eq_false in Ht; apply wp_if;
    intros Hsig; [apply bool_decide_eq_true in Hsig as [-> Hfl]|apply bool_decide_eq_false in Hsig]].
  - destruct (covers_some rd) as [cv Hcv]; [done|by left|by apply R4; [|left]|]. wp_step. eapply wp_lift; [exact Hcv|].
    wp_step. apply wp_check; [done|intros [_ ?]%Hf; done|]. intros _. wp_steps.
    rewrite Hcv in HQ0. replace false with (is_sig0 dns_rdatatype_rrsig rd) by (unfold is_sig0; rewrite bool_decide_false; [done|by intros [? _]]).
    apply HQ0; [done| |done]. unfold is_sig0. rewrite bool_decide_false; [done|by intros [? _]].
  - destruct (covers_some rd) as [cv Hcv]; [done|by right|by apply R4; [|right]|]. wp_step. eapply wp_lift; [exact Hcv|].
    unfold is_sig0 in *. rewrite Hcv in *. cbn [default] in *. apply wp_if; intros Hz.
    + apply bool_decide_eq_true in Hz as ->. rewrite (bool_decide_true (_ ∧ _)) in * by done. wp_step.
      apply wp_check; [done|intros [? _]%Hf; done|]. intros Hb. apply orb_false_iff in Hb as [Hb Hl].
      apply bool_decide_eq_false in Hb. wp_steps. apply (HQ (set_sigstart (p_msg s) (Z.of_nat recstart)));
        [apply stamped_sigstart|done..| |apply (stamped_ok _ _ Hok), stamped_sigstart].
      intros _. split; [|by destruct last]. destruct (decide (sec = DNS_SECTION_ADDITIONAL)); [done|tauto].
    + apply bool_decide_eq_false in Hz. rewrite (bool_decide_false (_ ∧ _)) in * by (intros (_ & _ & ?); done).
      wp_steps. apply HQ0; [done..|]. done.
  - wp_steps. unfold is_sig0 in *. rewrite (bool_decide_false (_ ∧ _)) in * by (intros (? & ? & _); tauto). apply HQ0; [|done|done].
    unfold dns_rdata_covers. rewrite R2. case_bool_decide as Hcase; [|done].
    destruct R3' as [?| ->]; [tauto|done].
Qed.

(** ** The name's place *)

Lemma findname_spec n (section : list (mname rdatalist)) :
  dname_ok n → Forall mname_ok section →
  ∃ r, findname n section = Some r ∧
    match r with
    | Some i => ∃ n', section !! i = Some n' ∧ equal (mn_name n') n = true
    | None => Forall (λ n', equal (mn_name n') n = false) section
    end.
Proof.
  intros Hn. induction 1 as [|a section [Ha _] _ (r & Hr & IH)]; [by exists None|].
  cbn [findname]. rewrite Hr. cbn [mbind option_bind]. destruct r as [i|].
  - exists (Some (S i)). by split.
  - rewrite (dname_equal _ _ Ha Hn). cbn [mbind option_bind].
    destruct (equal (mn_name a) n) eqn:E; eexists; (split; [done|]); [by exists a|by constructor].
Qed.

(** [msg'] is [msg] but for its sections and its pools. *)
Definition kept msg msg' : Prop := ∃ secs p, msg' = set_pools (set_sections msg secs) p.

Lemma pooled_kept msg msg' dn dr : pooled msg msg' dn dr → kept msg msg'.
Proof. intros (p & -> & _). exists (m_sections msg), p. by destruct msg. Qed.

Lemma kept_trans m1 m2 m3 : kept m1 m2 → kept m2 m3 → kept m1 m3.
Proof. intros (? & ? & ->) (? & ? & ->). by eexists _, _. Qed.

Lemma wp_append_name sec n s section (Q : nat → parsing → Prop) :
  parse_ok s → m_sections (p_msg s) !! sec = Some section → dname_ok n → p_free_name s = true →
  (∀ s', s' = Parsing (set_sections (p_msg s) (alter (λ l, l ++ [Mname n []]) sec (m_sections (p_msg s))))
                (p_pos s) (p_seen s) false (p_free_rds s) → parse_ok s' → Q (length section) s') →
  wp (append_name sec n) s Q err.
Proof.
  intros Hok Hsec Hn Hfn HQ. unfold append_name. wp_step. eapply wp_section_at; [done|]. wp_steps.
  apply HQ; [done|]. eapply (alter_section_ok _ _ section _ 1 0); try done.
  - apply Forall_app. split; [|by repeat constructor].
    pose proof (mk_names _ (pk_msg _ _ Hok)) as Hall. by eapply (Forall_lookup_1 _ _ _ _ Hall).
  - by rewrite length_app.
  - rewrite !count_rds_sum, sum_list_with_app. cbn. lia.
  - by rewrite Hfn.
Qed.

Lemma wp_reuse_name i s (Q : nat → parsing → Prop) :
  parse_ok s → p_free_name s = true →
  (∀ s', s' = Parsing (put_names (p_msg s) 1) (p_pos s) (p_seen s) false (p_free_rds s) → parse_ok s' → Q i s') →
  wp (reuse_name i) s Q err.
Proof.
  intros Hok Hfn HQ. unfold reuse_name. wp_steps. apply HQ; [done|]. rewrite (pk_seen _ _ Hok).
  apply (parse_ok_move source s _ (-1) 0); [exact Hok| | | |apply Hok].
  - eexists. split; [done|]. cbn. lia.
  - rewrite Hfn. cbn. lia.
  - cbn. lia.
Qed.

(** A section with a place for the name. *)
Definition name_in (n : name) (section : list (mname rdatalist)) : bool :=
  existsb (λ n', equal (mn_name n') n) section.
Definition link (n : name) (section : list (mname rdatalist)) : list (mname rdatalist) :=
  if name_in n section then section else section ++ [Mname n []].

Definition searching s (skip : bool) : bool := negb (option_set options DNS_MESSAGEPARSE_PRESERVEORDER || updates s || skip).

Lemma wp_link_name sec (skip special : bool) n s section (Q : option nat → parsing → Prop) :
  parse_ok s → m_sections (p_msg s) !! sec = Some section → dname_ok n → p_free_name s = true →
  (special = true → searching s skip = false → Q None s) →
  (∀ m' section' i n', kept (p_msg s) m' → m_sections m' = <[sec := section']> (m_sections (p_msg s)) →
     section' !! i = Some n' →
     (searching s skip = true → section' = link n section ∧ equal (mn_name n') n = true) →
     (searching s skip = false → special = false) →
     parse_ok (Parsing m' (p_pos s) (p_seen s) false (p_free_rds s)) →
     Q (Some i) (Parsing m' (p_pos s) (p_seen s) false (p_free_rds s))) →
  wp (link_name options sec skip special n) s Q err.
Proof.
  intros Hok Hsec Hn Hfn HQ1 HQ2. unfold link_name, is_opcode_update. wp_steps. fold (updates s).
  unfold searching in *. destruct (option_set options DNS_MESSAGEPARSE_PRESERVEORDER || updates s || skip) eqn:E; cbn in *.
  - destruct special; wp_steps; [by apply HQ1|]. eapply wp_append_name; [done..|]. intros s' -> Hok'. wp_steps.
    eapply (HQ2 _ (section ++ [Mname n []]) (length section)).
    + by eexists _, (m_pools (p_msg s)).
    + cbn. by erewrite alter_insert.
    + by rewrite list_lookup_middle.
    + done.
    + done.
    + done.
  - wp_step. eapply wp_section_at; [done|]. wp_steps. destruct (msg_ok_section _ sec (pk_msg _ _ Hok)) as (sec' & Hs' & Hall).
    { change 4 with DNS_SECTION_MAX. rewrite <- (mk_sections _ (pk_msg _ _ Hok)). by eapply lookup_lt_Some. }
    rewrite Hsec in Hs'. injection Hs' as <-.
    destruct (findname_spec n section Hn Hall) as (r & Hr & Hspec). eapply wp_lift; [exact Hr|]. destruct r as [i|].
    + destruct Hspec as (n' & Hi & He). wp_step. apply wp_reuse_name; [done..|]. intros s' -> Hok'. wp_steps.
      eapply (HQ2 _ section i n'); try done.
      * exists (m_sections (p_msg s)), (m_pools (put_names (p_msg s) 1)). by destruct (p_msg s).
      * cbn. by rewrite list_insert_id.
      * intros _. split; [|done]. unfold link, name_in. by rewrite (existsb_lookup _ _ _ _ Hi He).
    + wp_step. eapply wp_append_name; [done..|]. intros s' -> Hok'. wp_steps.
      eapply (HQ2 _ (section ++ [Mname n []]) (length section)).
      * by eexists _, (m_pools (p_msg s)).
      * cbn. by erewrite alter_insert.
      * by rewrite list_lookup_middle.
      * intros _. split; [unfold link, name_in; by rewrite (proj2 (existsb_false _ _) Hspec)|by apply equal_refl].
      * done.
      * done.
Qed.

(** ** The rdataset's place *)

Lemma find_rrset_spec (f : rrset rdatalist → bool) l :
  match find_rrset f l with
  | Some k => ∃ rs, l !! k = Some rs ∧ f rs = true
  | None => Forall (λ rs, f rs = false) l
  end.
Proof.
  induction l as [|a l IH]; [by constructor|]. cbn [find_rrset]. destruct (find_rrset f l) as [k|]; [exact IH|].
  destruct (f a) eqn:E; [by exists a|by constructor].
Qed.

Lemma new_rrset_ok c t covers ttl : rrset_ok (new_rrset c t covers ttl).
Proof. by split; cbn. Qed.

Lemma new_rrset_fits c t covers ttl : fits c t covers (new_rrset c t covers ttl) = true.
Proof. unfold fits. cbn. by rewrite !bool_decide_true. Qed.

Definition link_rrset (c t covers ttl : Z) (l : list (rrset rdatalist)) : list (rrset rdatalist) :=
  if existsb (fits c t covers) l then l else l ++ [new_rrset c t covers ttl].

(** The list of one name of a section rewritten. *)
Lemma alter_name_ok s sec section i n l' dr fr :
  parse_ok s → m_sections (p_msg s) !! sec = Some section → section !! i = Some n →
  Forall rrset_ok l' → length l' = length (mn_list n) + dr → Nat.b2n (p_free_rds s) = dr + Nat.b2n fr →
  parse_ok (Parsing (set_sections (p_msg s) (<[sec := <[i := Mname (mn_name n) l']> section]> (m_sections (p_msg s))))
              (p_pos s) (p_seen s) (p_free_name s) fr).
Proof.
  intros Hok Hsec Hi Hl' Hlen Hfr.
  rewrite <- (alter_insert (λ _, <[i := Mname (mn_name n) l']> section) sec _ section) by done.
  pose proof (mk_names _ (pk_msg _ _ Hok)) as Hall. pose proof (Forall_lookup_1 _ _ _ _ Hall Hsec) as Hs. cbn in Hs.
  pose proof (Forall_lookup_1 _ _ _ _ Hs Hi) as [Hn _].
  eapply (alter_section_ok _ _ section _ 0 dr); try done.
  - by apply Forall_insert.
  - rewrite length_insert. lia.
  - rewrite !count_rds_sum. rewrite <- (alter_insert (λ _, Mname (mn_name n) l') i section n) by done.
    pose proof (sum_alter (λ n, length (mn_list n)) (λ _, Mname (mn_name n) l') i section n Hi) as E. cbn in E. lia.
Qed.

Lemma wp_name_at sec i section n s (Q : mname rdatalist → parsing → Prop) E :
  m_sections (p_msg s) !! sec = Some section → section !! i = Some n → Q n s → wp (name_at sec (Some i)) s Q E.
Proof. intros Hs Hi HQ. unfold name_at. wp_step. eapply wp_section_at; [done|]. by eapply wp_lift. Qed.

Section Rrset.
Context (sec : nat) (skip : bool) (t c covers ttl : Z) (section : list (mname rdatalist)).

Lemma wp_new_loose s (Q : found_rrset → parsing → Prop) :
  parse_ok s → p_free_rds s = false →
  (∀ m', kept (p_msg s) m' → m_sections m' = m_sections (p_msg s) →
     parse_ok (Parsing m' (p_pos s) false (p_free_name s) true) →
     Q (Loose (new_rrset c t covers ttl)) (Parsing m' (p_pos s) false (p_free_name s) true)) →
  wp (find_or_new mem_get options sec true None t c covers ttl) s Q err.
Proof.
  intros Hok Hfr HQ. unfold find_or_new, is_opcode_update. wp_steps. rewrite orb_true_r. wp_steps.
  apply (wp_get_rds mem_get source fine Hmem); [done..|]. intros m1 Hp1 Hok1. unfold at_msg. wp_steps. rewrite (pk_seen _ _ Hok).
  apply (wp_ask mem_get source fine Hmem); [done|]. intros m2 Hp2 Hok2. unfold at_msg in *. wp_steps.
  apply HQ; [|by destruct Hp1 as (? & -> & _), Hp2 as (? & -> & _)|done].
  eapply kept_trans; by eapply pooled_kept.
Qed.

Lemma wp_find_or_new i n s (Q : found_rrset → parsing → Prop) :
  parse_ok s → p_free_rds s = false → m_sections (p_msg s) !! sec = Some section → section !! i = Some n →
  (fine → searching s skip = true → dns_rdatatype_questiononly t = false ∧
     (dns_rdatatype_issingleton t = true → existsb (fits c t covers) (mn_list n) = false)) →
  (∀ m' l' k rs, kept (p_msg s) m' → m_sections m' = <[sec := <[i := Mname (mn_name n) l']> section]> (m_sections (p_msg s)) →
     l' !! k = Some rs → fits c t covers rs = true → Forall rrset_ok l' →
     (searching s skip = true → l' = link_rrset c t covers ttl (mn_list n)) →
     parse_ok (Parsing m' (p_pos s) false (p_free_name s) false) →
     Q (Linked i k) (Parsing m' (p_pos s) false (p_free_name s) false)) →
  wp (find_or_new mem_get options sec skip (Some i) t c covers ttl) s Q err.
Proof.
  intros Hok Hfr Hsec Hi Hf HQ. unfold find_or_new, is_opcode_update. wp_steps. fold (updates s).
  pose proof (mk_names _ (pk_msg _ _ Hok)) as Hall. pose proof (Forall_lookup_1 _ _ _ _ Hall Hsec) as Hs. cbn in Hs.
  pose proof (Forall_lookup_1 _ _ _ _ Hs Hi) as [Hn Hl].
  assert ((searching s skip = true → Forall (λ rs, fits c t covers rs = false) (mn_list n)) →
    wp (request (get_rds mem_get) ;; set_free_rds true ;; request (ask mem_get) ;;
      n <- name_at sec (Some i) ;; alter_name sec i (λ l, l ++ [new_rrset c t covers ttl]) ;;
      set_free_rds false ;; pret (Linked i (length (mn_list n)))) s Q err) as Hnew.
  { intros Hnone. wp_steps. apply (wp_get_rds mem_get source fine Hmem); [done..|]. intros m1 Hp1 Hok1. unfold at_msg. wp_steps.
    rewrite (pk_seen _ _ Hok). apply (wp_ask mem_get source fine Hmem); [done|]. intros m2 Hp2 Hok2. unfold at_msg in *.
    assert (m_sections m2 = m_sections (p_msg s)) as E2 by (by destruct Hp1 as (? & -> & _), Hp2 as (? & -> & _)).
    wp_step. cbn [p_msg p_pos p_seen p_free_name p_free_rds] in *.
    eapply wp_name_at; [cbn; by rewrite E2|done|]. unfold alter_name. wp_steps.
    rewrite (alter_twice _ _ _ section i n) by (by rewrite ?E2). rewrite E2. unfold alter_list.
    apply (HQ _ (mn_list n ++ [new_rrset c t covers ttl]) _ (new_rrset c t covers ttl)).
    - eapply kept_trans; [by eapply pooled_kept|]. eapply kept_trans; [by eapply pooled_kept|].
      by eexists _, (m_pools m2).
    - done.
    - by rewrite list_lookup_middle.
    - apply new_rrset_fits.
    - apply Forall_app. split; [done|]. constructor; [apply new_rrset_ok|done].
    - intros Hsr. unfold link_rrset. by rewrite (proj2 (existsb_false _ _)) by auto.
    - rewrite <- E2. eapply (alter_name_ok _ sec section i n _ 1 false Hok2); cbn; rewrite ?E2; try done.
      + apply Forall_app. split; [done|]. constructor; [apply new_rrset_ok|done].
      + by rewrite length_app. }
  unfold searching in *. destruct (option_set options DNS_MESSAGEPARSE_PRESERVEORDER || updates s || skip) eqn:E; cbn [negb] in *.
  - wp_step. by apply Hnew.
  - wp_step. apply wp_check; [done|by intros Hfine; apply Hf|]. intros _. wp_step. eapply wp_name_at; [done..|]. wp_step.
    unfold dns_message_find. pose proof (find_rrset_spec (fits c t covers) (mn_list n)) as Hfind. fold (fits c t covers).
    destruct (find_rrset (fits c t covers) (mn_list n)) as [k|]; [|by apply Hnew].
    destruct Hfind as (rs & Hk & Hfits). wp_step. eapply wp_lift; [done|]. wp_step.
    pose proof (existsb_lookup _ _ _ _ Hk Hfits) as Hex.
    apply wp_check; [done| |].
    { intros Hfine. destruct (Hf Hfine eq_refl) as [_ Hsing]. destruct (dns_rdatatype_issingleton t); [|done].
      rewrite Hsing in Hex by done. done. }
    intros _. wp_step. destruct s as [msg pos sn fn fr]. cbn in *. subst fr.
    pose proof (pk_seen _ _ Hok) as Hsn. cbn in Hsn. subst sn. eapply (HQ msg (mn_list n) k rs); try done.
    + exists (m_sections msg), (m_pools msg). by destruct msg.
    + replace (Mname (mn_name n) (mn_list n)) with n by (by destruct n).
      rewrite (list_insert_id section i n) by done. by rewrite list_insert_id.
    + intros _. unfold link_rrset. by rewrite Hex.
Qed.
End Rrset.

(** ** Storing a record *)

Lemma insert_last {A} (l : list A) x y : <[length l := y]> (l ++ [x]) = l ++ [y].
Proof. by rewrite insert_app_r_alt, Nat.sub_diag by lia. Qed.

Lemma store_rrset r l k rs :
  NoDup (rrset_key <$> l) →
  link_rrset (rd_class (rec_rdata r)) (rd_type (rec_rdata r)) (rec_covers r) (rec_ttl r) l !! k = Some rs → same_key rs r = true →
  <[k := join_rrset r rs]> (link_rrset (rd_class (rec_rdata r)) (rd_type (rec_rdata r)) (rec_covers r) (rec_ttl r) l) = add_rrset r l.
Proof.
  intros Hnd Hk Hs. unfold link_rrset in *. destruct (existsb _ l) eqn:E.
  - symmetry. by apply add_rrset_in.
  - apply existsb_false in E. rewrite add_rrset_new by done.
    apply lookup_app_Some in Hk as [Hk|[Hge (Hk & <-)%list_lookup_singleton_Some]].
    + apply (Forall_lookup_1 _ _ _ _ E) in Hk. unfold same_key in Hs. congruence.
    + assert (k = length l) as -> by lia. apply insert_last.
Qed.

Lemma store_record r section i n k rs :
  distinct section → Forall (λ n, dname_ok (mn_name n)) section → dname_ok (rec_name r) →
  link (rec_name r) section !! i = Some n → equal (mn_name n) (rec_name r) = true →
  let l := link_rrset (rd_class (rec_rdata r)) (rd_type (rec_rdata r)) (rec_covers r) (rec_ttl r) (mn_list n) in
  l !! k = Some rs → same_key rs r = true →
  <[i := Mname (mn_name n) (<[k := join_rrset r rs]> l)]> (link (rec_name r) section) = add_record r section.
Proof.
  intros Hd Hall Hr Hi He l Hk Hs. unfold link in *. destruct (name_in (rec_name r) section) eqn:E.
  - rewrite (add_record_in r section i n) by done. subst l. rewrite store_rrset; [done| |done|done].
    apply (Forall_lookup_1 _ _ _ _ (di_keys _ Hd) Hi).
  - apply existsb_false in E. rewrite add_record_new by done.
    apply lookup_app_Some in Hi as [Hi|[Hge (Hi & <-)%list_lookup_singleton_Some]].
    + apply (Forall_lookup_1 _ _ _ _ E) in Hi. congruence.
    + assert (i = length section) as -> by lia. rewrite insert_last. subst l. rewrite store_rrset; [done| |done|done].
      constructor.
Qed.

Lemma join_ok r rs :
  rrset_ok rs → rd_class (rec_rdata r) = ri_rdclass (rr_info rs) → rd_type (rec_rdata r) = ri_type (rr_info rs) →
  bytes_ok (rd_data (rec_rdata r)) → rrset_ok (join_rrset r rs).
Proof.
  intros [O1 O2 O3] Hc Ht Hb. 
  assert (ri_rdclass (rr_info (join_rrset r rs)) = ri_rdclass (rr_info rs)) as Ekc
    by (unfold join_rrset, add_rdata; by case_bool_decide).
  assert (ri_type (rr_info (join_rrset r rs)) = ri_type (rr_info rs)) as Ekt
    by (unfold join_rrset, add_rdata; by case_bool_decide).
  split; [|by rewrite Ekt|done]. rewrite join_rdata, Ekc, Ekt. apply Forall_app. split; [done|]. by repeat constructor.
Qed.

(** Records that are kept apart: OPT, TSIG and SIG(0). *)
Definition apart (r : record) : bool :=
  bool_decide (rd_type (rec_rdata r) = dns_rdatatype_opt ∨ rd_type (rec_rdata r) = dns_rdatatype_tsig) ||
  is_sig0 (rd_type (rec_rdata r)) (rec_rdata r).

Lemma end_round_ok s (Q : unit → parsing → Prop) :
  p_seen s = false → p_free_name s = false → p_free_rds s = false → Q tt s → wp end_round s Q err.
Proof.
  intros Hs Hn Hr HQ. unfold end_round. wp_step. wp_step. wp_step. rewrite Hs. wp_steps. rewrite Hn, Hr. by wp_steps.
Qed.

(** The record goes to its place, or is remembered. *)
Definition store (sectionid : nat) (t ttl : Z) (rd : rdata) (issigzero : bool) (n : name) (found : found_rrset) : parser unit :=
  (match found with
   | Linked i k => alter_name sectionid i (alter (add_rdata ttl rd) k)
   | Loose rs => remember t issigzero n (add_rdata ttl rd rs)
   end) ;;
  end_round.

Lemma wp_store_linked sec section i n k rs r issigzero nm s (Q : unit → parsing → Prop) :
  parse_ok s → p_free_name s = false → p_free_rds s = false →
  m_sections (p_msg s) !! sec = Some section → section !! i = Some n → mn_list n !! k = Some rs → same_key rs r = true →
  bytes_ok (rd_data (rec_rdata r)) →
  (∀ m', kept (p_msg s) m' →
     m_sections m' = <[sec := <[i := Mname (mn_name n) (<[k := join_rrset r rs]> (mn_list n))]> section]> (m_sections (p_msg s)) →
     parse_ok (Parsing m' (p_pos s) false false false) → Q tt (Parsing m' (p_pos s) false false false)) →
  wp (store sec (rd_type (rec_rdata r)) (rec_ttl r) (rec_rdata r) issigzero nm (Linked i k)) s Q err.
Proof.
  intros Hok Hfn Hfr Hsec Hi Hk Hs Hb HQ. unfold store, alter_name. wp_steps. rewrite Hfn, Hfr, (pk_seen _ _ Hok).
  apply end_round_ok; [done..|]. rewrite (alter_twice _ _ _ section i n) by done. unfold alter_list.
  rewrite (alter_insert _ _ _ rs) by done. fold (join_rrset r rs). apply HQ.
  - by eexists _, (m_pools (p_msg s)).
  - done.
  - pose proof (mk_names _ (pk_msg _ _ Hok)) as Hall. pose proof (Forall_lookup_1 _ _ _ _ Hall Hsec) as Hsn. cbn in Hsn.
    pose proof (Forall_lookup_1 _ _ _ _ Hsn Hi) as [Hn Hl]. pose proof (Forall_lookup_1 _ _ _ _ Hl Hk) as Hrs.
    apply fits_key in Hs. injection Hs as Hc Ht _.
    pose proof (alter_name_ok s sec section i n (<[k := join_rrset r rs]> (mn_list n)) 0 false Hok Hsec Hi) as Hok'.
    rewrite Hfn, Hfr, (pk_seen _ _ Hok) in Hok'. apply Hok'; [|by rewrite length_insert|done].
    apply Forall_insert; [done|]. by apply join_ok.
Qed.

(** The same special records, header and counts. *)
Record held msg msg' : Prop := Held {
  he_header : m_header msg' = m_header msg; he_counts : m_counts msg' = m_counts msg; he_intent : m_intent msg' = m_intent msg;
  he_opt : m_opt msg' = m_opt msg; he_tsig : m_tsig msg' = m_tsig msg; he_sig0 : m_sig0 msg' = m_sig0 msg;
  he_query : m_querytsig msg' = m_querytsig msg; he_render : m_render msg' = m_render msg }.

Lemma held_trans m1 m2 m3 : held m1 m2 → held m2 m3 → held m1 m3.
Proof. intros [] []. split; congruence. Qed.

Lemma kept_held msg msg' : kept msg msg' → held msg msg' ∧ m_state msg' = m_state msg ∧ m_rdclass msg' = m_rdclass msg.
Proof. intros (secs & p & ->). by split. Qed.

Lemma stamped_held msg msg' : stamped msg msg' → held msg msg'.
Proof. by intros []; split. Qed.

(** What [remember] does with OPT, TSIG and SIG(0) records. *)
Record remembered (r : record) (issigzero : bool) msg msg' : Prop := Remembered {
  rm_sections : m_sections msg' = m_sections msg; rm_counts : m_counts msg' = m_counts msg;
  rm_intent : m_intent msg' = m_intent msg; rm_render : m_render msg' = m_render msg; rm_query : m_querytsig msg' = m_querytsig msg;
  rm_class : m_state msg' = m_state msg ∧ m_rdclass msg' = m_rdclass msg;
  rm_opcode : opcode (m_header msg') = opcode (m_header msg);
  rm_header : rd_type (rec_rdata r) ≠ dns_rdatatype_opt → m_header msg' = m_header msg;
  rm_opt : m_opt msg' = if bool_decide (rd_type (rec_rdata r) = dns_rdatatype_opt)
    then Some (join_rrset r (fresh_rrset r)) else m_opt msg;
  rm_sigs : rd_type (rec_rdata r) ≠ dns_rdatatype_tsig → issigzero = false → m_tsig msg' = m_tsig msg ∧ m_sig0 msg' = m_sig0 msg }.

Lemma wp_store_loose sec r issigzero nm s (Q : unit → parsing → Prop) :
  parse_ok s → p_free_name s = true → p_free_rds s = true →
  (issigzero = true → rd_type (rec_rdata r) = dns_rdatatype_sig) →
  rd_type (rec_rdata r) = dns_rdatatype_opt ∨ rd_type (rec_rdata r) = dns_rdatatype_tsig ∨ issigzero = true →
  (rd_type (rec_rdata r) = dns_rdatatype_opt → m_opt (p_msg s) = None) →
  m_tsig (p_msg s) = None → m_sig0 (p_msg s) = None →
  (∀ m', remembered r issigzero (p_msg s) m' →
     parse_ok (Parsing m' (p_pos s) false false false) → Q tt (Parsing m' (p_pos s) false false false)) →
  wp (store sec (rd_type (rec_rdata r)) (rec_ttl r) (rec_rdata r) issigzero nm (Loose (fresh_rrset r))) s Q err.
Proof.
  intros Hok Hfn Hfr Hsig Hcase Hopt Htsig Hsig0 HQ. unfold store, remember. wp_steps. fold (join_rrset r (fresh_rrset r)).
  destruct Hok as [[M1 M2 M3 M4 M5] [P1 P2] Hs Hp]. unfold names_held, rds_held in P1, P2.
  rewrite Htsig in M3. rewrite Hsig0 in M4. destruct (m_tsigname (p_msg s)) eqn:En; [done|].
  destruct (m_sig0name (p_msg s)) eqn:En0; [done|]. rewrite Hfn in P1. rewrite Hfr, Htsig, Hsig0 in P2. cbn in P1, P2.
  destruct (decide (rd_type (rec_rdata r) = dns_rdatatype_opt)) as [Eo|Eo].
  - specialize (Hopt Eo). rewrite (bool_decide_true (_ ∧ m_opt _ = None)) by done. wp_steps.
    assert (issigzero = false) as -> by (destruct issigzero; [|done]; rewrite Hsig in Eo by done; done).
    cbn [andb]. rewrite bool_decide_false by (intros [E _]; rewrite Eo in E; done). wp_steps.
    apply end_round_ok; [done..|]. rewrite Hs. rewrite Hopt in P2. cbn in P2. apply HQ.
    + split; try done. cbn. by rewrite bool_decide_true.
    + split; cbn; [by split; cbn; rewrite ?Htsig, ?Hsig0, ?En, ?En0| |done|done].
      split; unfold names_held, rds_held; cbn; rewrite ?Htsig, ?Hsig0, ?En, ?En0; cbn; lia.
  - rewrite (bool_decide_false (_ ∧ m_opt _ = None)) by (by intros [? _]). wp_steps.
    destruct issigzero.
    + rewrite Hsig0, (bool_decide_true (None = None)) by done. cbn [andb]. wp_steps. apply end_round_ok; [done..|]. rewrite Hs. apply HQ.
      * split; try done. cbn. by rewrite bool_decide_false.
      * split; cbn; [by split; cbn; rewrite ?Htsig, ?Hsig0, ?En, ?En0| |done|done].
        split; unfold names_held, rds_held; cbn; rewrite ?Htsig, ?Hsig0, ?En, ?En0; cbn; lia.
    + destruct Hcase as [?|[Et|?]]; [done| |done]. cbn [andb]. rewrite Et, Htsig, bool_decide_true by done. wp_steps.
      apply end_round_ok; [done..|]. rewrite Hs. apply HQ.
      * split; try done. cbn. by rewrite bool_decide_false.
      * split; cbn; [by split; cbn; rewrite ?Htsig, ?Hsig0, ?En, ?En0| |done|done].
        split; unfold names_held, rds_held; cbn; rewrite ?Htsig, ?Hsig0, ?En, ?En0; cbn; lia.
Qed.

(** What comes of a record with its name in hand. *)
Record placed (sec : nat) (section : list (mname rdatalist)) (r : record) s s' : Prop := Placed {
  pl_ok : parse_ok s'; pl_name : p_free_name s' = false; pl_rds : p_free_rds s' = false; pl_pos : p_pos s' = p_pos s;
  pl_counts : m_counts (p_msg s') = m_counts (p_msg s); pl_intent : m_intent (p_msg s') = m_intent (p_msg s);
  pl_query : m_querytsig (p_msg s') = m_querytsig (p_msg s); pl_render : m_render (p_msg s') = m_render (p_msg s);
  pl_class : m_state (p_msg s') = m_state (p_msg s) ∧ m_rdclass (p_msg s') = m_rdclass (p_msg s);
  pl_opcode : opcode (m_header (p_msg s')) = opcode (m_header (p_msg s));
  pl_header : rd_type (rec_rdata r) ≠ dns_rdatatype_opt → m_header (p_msg s') = m_header (p_msg s);
  pl_opt : m_opt (p_msg s') = if bool_decide (rd_type (rec_rdata r) = dns_rdatatype_opt)
    then Some (join_rrset r (fresh_rrset r)) else m_opt (p_msg s);
  pl_sigs : rd_type (rec_rdata r) ≠ dns_rdatatype_tsig → is_sig0 (rd_type (rec_rdata r)) (rec_rdata r) = false →
    m_tsig (p_msg s') = m_tsig (p_msg s) ∧ m_sig0 (p_msg s') = m_sig0 (p_msg s);
  pl_sections : updates s = false → option_set options DNS_MESSAGEPARSE_PRESERVEORDER = false → distinct section →
    m_sections (p_msg s') =
      if apart r then m_sections (p_msg s) else <[sec := add_record r section]> (m_sections (p_msg s)) }.

Lemma rrset_at_found section i n nm k :
  distinct section → Forall (λ n, dname_ok (mn_name n)) section → dname_ok nm →
  section !! i = Some n → equal (mn_name n) nm = true →
  rrset_at section nm k = List.find (λ x, bool_decide (rrset_key x = k)) (mn_list n).
Proof.
  intros [Hd _] Hall Hnm. unfold rrset_at. revert i Hd. induction Hall as [|a section Ha Hall IH]; intros [|i] Hd Hi He; try done; cbn in *.
  - injection Hi as ->. by rewrite He.
  - destruct (equal (mn_name a) nm) eqn:E.
    + exfalso. pose proof (Forall_lookup_1 _ _ _ _ Hall Hi) as Hn. cbn in Hn. assert (0 = S i); [|done].
      apply (Hd _ _ a n); [done|done|]. rewrite <- (equal_trans _ nm) by done. by rewrite equal_sym.
    + apply (IH i); [|done|done]. intros j k' b d Hj Hk Hbd. assert (S j = S k'); [by eapply Hd|lia].
Qed.

Lemma wp_place sec r section s (Q : unit → parsing → Prop) :
  parse_ok s → p_free_name s = true → p_free_rds s = false → m_sections (p_msg s) !! sec = Some section →
  dname_ok (rec_name r) → bytes_ok (rd_data (rec_rdata r)) →
  (rd_type (rec_rdata r) = dns_rdatatype_opt → m_opt (p_msg s) = None) →
  m_tsig (p_msg s) = None → m_sig0 (p_msg s) = None →
  (fine → dns_rdatatype_questiononly (rd_type (rec_rdata r)) = false ∧
     (dns_rdatatype_issingleton (rd_type (rec_rdata r)) = true →
      distinct section ∧ rrset_at section (rec_name r) (rec_key r) = None)) →
  (∀ s', placed sec section r s s' → Q tt s') →
  wp (place <- link_name options sec (apart r) (apart r) (rec_name r) ;;
      found <- find_or_new mem_get options sec (apart r) place (rd_type (rec_rdata r)) (rd_class (rec_rdata r))
                 (rec_covers r) (rec_ttl r) ;;
      store sec (rd_type (rec_rdata r)) (rec_ttl r) (rec_rdata r) (is_sig0 (rd_type (rec_rdata r)) (rec_rdata r))
        (rec_name r) found) s Q err.
Proof.
  intros Hok Hfn Hfr Hsec Hn Hb Hopt Htsig Hsig0 Hf HQ. wp_step.
  assert (Forall mname_ok section) as Hall.
  { pose proof (mk_names _ (pk_msg _ _ Hok)) as Hall. by apply (Forall_lookup_1 _ _ _ _ Hall Hsec). }
  assert (Forall (λ n, dname_ok (mn_name n)) section) as Hnames by (eapply Forall_impl; [exact Hall|by intros ? []]).
  eapply wp_link_name; [done..| |].
  - intros Hap _. wp_step. rewrite Hap. apply wp_new_loose; [done..|]. intros m1 Hk1 Hs1 Hok1.
    destruct (kept_held _ _ Hk1) as ([E1 E2 E3 E4 E5 E6 E7 E10] & E8 & E9). rewrite Hfn in *.
    apply wp_store_loose; [done|done|done| | | | | |]; cbn; try congruence.
    + unfold is_sig0. by intros [? _]%bool_decide_eq_true.
    + apply orb_true_iff in Hap as [Hap%bool_decide_eq_true|Hap]; [tauto|by right; right].
    + intros Ho. rewrite E4. by apply Hopt.
    + intros m2 [F1 F2 F3 F3' F4 [F5 F5'] F6 F7 F8 F9] Hok2. apply HQ.
      split; cbn; try done; try congruence.
      * split; congruence.
      * intros Hno. rewrite F7 by done. done.
      * rewrite F8, E4. done.
      * intros Ht Hsg. destruct (F9 Ht Hsg). split; congruence.
      * intros _ _ _. rewrite Hap. congruence.
  - intros m1 section' i n' Hk1 Hs1 Hi Hsrch Hns Hok1.
    assert (sec < length (m_sections (p_msg s))) as Hlt by (by eapply lookup_lt_Some).
    assert (∀ b, searching (Parsing m1 (p_pos s) (p_seen s) false (p_free_rds s)) b = searching s b) as Esr
      by (by destruct Hk1 as (? & ? & ->)).
    destruct (kept_held _ _ Hk1) as ([E1 E2 E3 E4 E5 E6 E7 E10] & E8 & E9). wp_step. rewrite Hfr, (pk_seen _ _ Hok) in *.
    eapply (wp_find_or_new sec _ _ _ _ _ section' i n'); [done|done| |done| |].
    { cbn. by rewrite Hs1, list_lookup_insert_eq. }
    { intros Hfine Hsr. rewrite Esr in Hsr. destruct (Hsrch Hsr) as [-> He]. destruct (Hf Hfine) as [Hq Hsing].
      split; [done|]. intros Hst. destruct (Hsing Hst) as [Hd Hat]. unfold link in Hi. destruct (name_in _ _) eqn:En.
      - rewrite (rrset_at_found section i n') in Hat by done. apply existsb_false, Forall_forall. intros x Hx.
        destruct (fits _ _ _ x) eqn:Ef; [|done]. exfalso. apply list_elem_of_In in Hx. pose proof (List.find_none _ _ Hat x Hx) as Hnone. cbn in Hnone.
        rewrite <- same_key_eq in Hnone. unfold same_key in Hnone. congruence.
      - apply lookup_app_Some in Hi as [Hi|[Hge (Hi & <-)%list_lookup_singleton_Some]]; [|done].
        apply existsb_false in En. apply (Forall_lookup_1 _ _ _ _ En) in Hi. congruence. }
    cbn [p_msg p_pos p_free_name]. intros m2 l' k rs Hk2 Hs2 Hk Hfits Hl' Hlink Hok2.
    rewrite Hs1, list_insert_insert_eq in Hs2. destruct (kept_held _ _ Hk2) as ([G1 G2 G3 G4 G5 G6 G7 G10] & G8 & G9).
    eapply (wp_store_linked sec (<[i := Mname (mn_name n') l']> section') i (Mname (mn_name n') l') k rs); try done.
    + cbn. by rewrite Hs2, list_lookup_insert_eq.
    + rewrite list_lookup_insert_eq; [done|by eapply lookup_lt_Some].
    + cbn [p_msg p_pos p_free_name mn_name mn_list]. intros m3 Hk3 Hs3 Hok3.
      rewrite Hs2, !list_insert_insert_eq in Hs3. destruct (kept_held _ _ Hk3) as ([K1 K2 K3 K4 K5 K6 K7 K10] & K8 & K9).
      assert (apart r ≠ true) as Hnoap.
      { intros Hap. rewrite Hap in Hns. unfold searching in Hns. rewrite orb_true_r in Hns. by specialize (Hns eq_refl). }
      apply HQ. split; cbn; try done; try congruence.
      * split; congruence.
      * rewrite bool_decide_false; [congruence|]. intros Ho. apply Hnoap. unfold apart. by rewrite bool_decide_true by auto.
      * intros _ _. split; congruence.
      * intros Hu Hp Hd. destruct (apart r) eqn:Hap; [done|].
        assert (searching s false = true) as Hsr by (unfold searching; by rewrite Hu, Hp).
        destruct (Hsrch Hsr) as [-> He]. rewrite Esr in Hlink. specialize (Hlink Hsr). subst l'.
        rewrite Hs3. f_equal. by apply store_record.
Qed.
End Spec.
