(* ===== verification/ParseRecord.v ===== *)
(** * Reading a record

    One round of [getquestions] and one of [getsection] of
    [lib/dns/message.c] as a whole: what is read from the source and what
    becomes of the message. [record_at] and [question_at] say what a record
    and a question in a message are. *)
From S2P Require Import Prelude Qsort Rdata Name FromWire Compress Slab RbtdbRdataset Order Answer Message MessageParse Gather ParseRules ParseSpec.

#[local] Open Scope parser_scope.

(** ** Records and questions in a message *)

Section Wire.
Context `{FromwireSwitch} (source : mem) (dctx : decompress).

(** The name [n] takes [k] bytes from [p] on. *)
Definition name_at_pos (p : nat) (n : name) (k : nat) : Prop :=
  ∃ ls, n = name_of ls ∧ wire_at true source p p ls k ∧ length (enc_labels ls) <= DNS_NAME_MAXWIRE.

(** Type, class, TTL and length of the rdata. *)
Definition fixed_at (p : nat) (t c ttl : Z) (len : nat) : Prop :=
  rd16 source p = Some t ∧ rd16 source (p + 2) = Some c ∧ rd32 source (p + 2 + 2) = Some ttl ∧
  rd16 source (p + 2 + 2 + 4) = Some (Z.of_nat len).

(** The record [r] from [p] to [p']; its rdata is decoded into buffers for
    which [P] holds. *)
Definition record_in (rdata_in : Z → Z → nat → nat → rdata → Prop) (p : nat) (r : record) (p' : nat) : Prop :=
  ∃ k len, name_at_pos p (rec_name r) k ∧
    fixed_at (p + k) (rd_type (rec_rdata r)) (rd_class (rec_rdata r)) (rec_ttl r) len ∧
    p' = p + k + 10 + len ∧ p' <= length source ∧
    rdata_in (rd_class (rec_rdata r)) (rd_type (rec_rdata r)) (p + k + 10) len (rec_rdata r).

(** ... into some buffer. *)
Definition record_at : nat → record → nat → Prop :=
  record_in (λ c t pos len rd, rd_flags rd = 0%Z ∧
    ∃ avail, dns_rdata_fromwire c t source pos len dctx avail = Some (inr (rd, pos + len))).

(** ... into any that is large enough. *)
Definition record_here : nat → record → nat → Prop := record_in (rdata_here source dctx).

Definition question_at (p : nat) (n : name) (t c : Z) (p' : nat) : Prop :=
  ∃ k, name_at_pos p n k ∧ rd16 source (p + k) = Some t ∧ rd16 source (p + k + 2) = Some c ∧ p' = p + k + 4.
End Wire.

Section Spec.
Context (mem_get : nat → bool) `{FromwireOk, RdataTypes} (source : mem) (Hsrc : bytes_ok source).
Context (options : Z) (Hbest : option_set options DNS_MESSAGEPARSE_BESTEFFORT = false).
Context (dctx : decompress) (Hdctx : allows_global14 dctx = true).
Context (fine : Prop) (Hmem : fine → ∀ k, mem_get k = true).
Implicit Types (msg : message rdatalist) (s : parsing).

#[local] Abbreviation parse_ok := (ParseRules.parse_ok source).
#[local] Abbreviation err := (ParseRules.err source fine).
#[local] Abbreviation record_at := (record_at source dctx).
#[local] Abbreviation record_here := (record_here source dctx).

(** A name that was read. *)
Lemma name_read_at s n s' dn fn :
  name_read source s n s' dn fn →
  ∃ m' k, name_at_pos source (p_pos s) n k ∧ dname_ok n ∧ pooled (p_msg s) m' dn 0 ∧
    s' = Parsing m' (p_pos s + k) false fn (p_free_rds s) ∧ parse_ok s'.
Proof.
  intros (m' & ls & k & -> & Hl & Hr & Hb & Hw & Hp & -> & Hok). exists m', k. split_and!; [|by exists ls|done..].
  exists ls. split_and!; [done..|]. apply (lo_max _ Hl).
Qed.

Lemma name_here_at p n k : name_at_pos source p n k → name_here source p.
Proof. intros (ls & _ & Hw & Hl). by exists ls, k. Qed.

(** The names in a message are determined by their place. *)
Lemma name_at_pos_det p n n' k k' :
  name_at_pos source p n k → name_at_pos source p n' k' → n' = n ∧ k' = k.
Proof.
  intros (ls & -> & Hw & _) (ls' & -> & Hw' & _). by destruct (wire_at_det _ _ _ _ _ _ Hw Hw') as [-> ->].
Qed.

(** ** One record *)

(** What a record is that gives no error after those before. *)
Definition acceptable (sec : nat) s (r : record) : Prop :=
  updates s = false ∧ m_state (p_msg s) ≠ DNS_SECTION_ANY ∧ m_rdclass (p_msg s) = rd_class (rec_rdata r) ∧
  rd_type (rec_rdata r) ∉ [dns_rdatatype_tsig; dns_rdatatype_opt; dns_rdatatype_tkey; dns_rdatatype_sig; dns_rdatatype_rrsig] ∧
  dns_rdatatype_questiononly (rd_type (rec_rdata r)) = false ∧
  (dns_rdatatype_issingleton (rd_type (rec_rdata r)) = true →
   ∀ section, m_sections (p_msg s) !! sec = Some section →
     distinct section ∧ rrset_at section (rec_name r) (rec_key r) = None).

(** The message after a round of [getsection]. *)
Record recorded (sec : nat) (last : bool) s s' : Prop := Recorded {
  rc_ok : parse_ok s'; rc_name : p_free_name s' = false; rc_rds : p_free_rds s' = false;
  rc_counts : m_counts (p_msg s') = m_counts (p_msg s); rc_intent : m_intent (p_msg s') = m_intent (p_msg s);
  rc_query : m_querytsig (p_msg s') = m_querytsig (p_msg s); rc_render : m_render (p_msg s') = m_render (p_msg s);
  rc_class : m_state (p_msg s) ≠ DNS_SECTION_ANY →
    m_state (p_msg s') = m_state (p_msg s) ∧ m_rdclass (p_msg s') = m_rdclass (p_msg s);
  rc_opcode : opcode (m_header (p_msg s')) = opcode (m_header (p_msg s));
  rc_sigs : ¬ (sec = DNS_SECTION_ADDITIONAL ∧ last = true) → m_tsig (p_msg s') = None ∧ m_sig0 (p_msg s') = None;
  rc_record : updates s = false → ∃ r, record_at (p_pos s) r (p_pos s') ∧ dname_ok (rec_name r) ∧
    (rd_type (rec_rdata r) ≠ dns_rdatatype_opt → m_header (p_msg s') = m_header (p_msg s)) ∧
    m_opt (p_msg s') = (if bool_decide (rd_type (rec_rdata r) = dns_rdatatype_opt)
                        then Some (join_rrset r (fresh_rrset r)) else m_opt (p_msg s)) ∧
    (option_set options DNS_MESSAGEPARSE_PRESERVEORDER = false → ∀ section, m_sections (p_msg s) !! sec = Some section →
       distinct section →
       m_sections (p_msg s') =
         if apart r then m_sections (p_msg s) else <[sec := add_record r section]> (m_sections (p_msg s))) }.

(** From the rdata on. *)
Lemma wp_record_rest sec (last : bool) recstart t c ttl len n section s (Q : unit → parsing → Prop) :
  parse_ok s → p_free_name s = true → p_free_rds s = false → m_sections (p_msg s) !! sec = Some section →
  m_tsig (p_msg s) = None → m_sig0 (p_msg s) = None → dname_ok n → (Z.of_nat len < 2 ^ 16)%Z →
  (t = dns_rdatatype_tsig → sec = DNS_SECTION_ADDITIONAL ∧ last = true) → (t = dns_rdatatype_opt → m_opt (p_msg s) = None) →
  (fine → p_pos s + len <= length source ∧ ∃ r, rec_name r = n ∧ rd_type (rec_rdata r) = t ∧ rd_class (rec_rdata r) = c ∧
     rdata_here source dctx c t (p_pos s) len (rec_rdata r) ∧ acceptable sec s r) →
  (∀ sX s' rd, rdata_got source dctx t c (p_pos s) len (updates s) rd → p_pos s + len <= length source →
     held (p_msg s) (p_msg sX) → m_state (p_msg sX) = m_state (p_msg s) → m_rdclass (p_msg sX) = m_rdclass (p_msg s) →
     m_sections (p_msg sX) = m_sections (p_msg s) → p_pos sX = p_pos s + len →
     (is_sig0 t rd = true → sec = DNS_SECTION_ADDITIONAL ∧ last = true) →
     placed source options sec section (Rec n ttl rd) sX s' → Q tt s') →
  wp (need source len ;;
      rd <- read_rdata mem_get source dctx sec t c len ;;
      c0 <- read_covers options sec last recstart t rd ;;
      let '(covers, issigzero) := c0 in
      let skip := bool_decide (t = dns_rdatatype_opt ∨ t = dns_rdatatype_tsig) || issigzero in
      place <- link_name options sec skip skip n ;;
      found <- find_or_new mem_get options sec skip place t c covers ttl ;;
      store sec t ttl rd issigzero n found) s Q err.
Proof.
  intros Hok Hfn Hfr Hsec Htsig Hsig0 Hn Hl Htend Hopt Hf HQ. wp_step.
  apply (wp_need source fine); [done|by intros [? _]%Hf|]. intros Hlen. wp_step.
  apply (wp_read_rdata mem_get source Hsrc dctx fine Hmem); [done|done|done| |].
  { intros (_ & r & _ & _ & _ & Hrd & (Hu & _))%Hf. split; [done|by exists (rec_rdata r)]. }
  intros m1 rd Hp1 Hgot Hok1. wp_step. rewrite Hfn, Hfr in *.
  destruct (kept_held _ _ (pooled_kept _ _ _ _ Hp1)) as (Hh1 & Hst1 & Hcl1).
  assert (m_sections m1 = m_sections (p_msg s)) as Hse1 by (by destruct Hp1 as (? & -> & _)).
  assert (fine → ∃ r, rec_name r = n ∧ rec_rdata r = rd ∧ acceptable sec s r) as Hf1.
  { intros (_ & r & En & _ & _ & Hrd & Hacc)%Hf. exists r. split_and!; [done| |done].
    destruct Hacc as [Hu _]. destruct (rg_wire _ _ _ _ _ _ _ _ Hgot Hu) as (_ & avail & Hw).
    destruct (Hrd avail) as [Hw'|[Hw' _]]; congruence. }
  apply (wp_read_covers source options Hbest dctx fine sec last recstart t c (p_pos s) len); [done| | |].
  { unfold updates in *. cbn [p_msg]. by rewrite (he_header _ _ Hh1). }
  { intros (r & _ & Er & (_ & _ & _ & A & _))%Hf1. rewrite Er, (rg_type _ _ _ _ _ _ _ _ Hgot) in A. split; set_solver +A. }
  cbn [p_msg]. intros m2 covers Hs2 Hst2 Hcl2 -> Hsig Hok2. unfold at_msg in *. cbn [p_msg p_pos p_seen p_free_name p_free_rds] in *.
  set (r := Rec n ttl rd). pose proof (rg_type _ _ _ _ _ _ _ _ Hgot) as Et. pose proof (rg_class _ _ _ _ _ _ _ _ Hgot) as Ec.
  replace (bool_decide (t = dns_rdatatype_opt ∨ t = dns_rdatatype_tsig) || is_sig0 t rd) with (apart r)
    by (unfold apart; cbn; by rewrite Et).
  pose proof (held_trans _ _ _ Hh1 (stamped_held _ _ Hs2)) as Hh2.
  pose proof (wp_place mem_get source options Hbest fine Hmem sec r section (Parsing m2 (p_pos s + len) false true false) Q) as Hpl.
  cbn [rec_rdata rec_name rec_ttl r p_msg p_free_name p_free_rds] in Hpl. rewrite Et, Ec in Hpl. fold (rec_covers r).
  apply Hpl; clear Hpl; [done|done|done| |done|apply (rg_bytes _ _ _ _ _ _ _ _ Hgot)| | | | |].
  - by rewrite (st_sections _ _ Hs2), Hse1.
  - rewrite (he_opt _ _ Hh2). done.
  - by rewrite (he_tsig _ _ Hh2).
  - by rewrite (he_sig0 _ _ Hh2).
  - intros (r' & En & Er & (_ & _ & _ & _ & A5 & A6))%Hf1. rewrite Er, Et in A5, A6. split; [done|].
    intros Hsi. destruct (A6 Hsi _ Hsec) as [Hd Hat]. split; [done|]. rewrite <- En. rewrite <- Hat. f_equal.
    unfold rec_key, rec_covers. subst r. cbn. by rewrite Er.
  - intros s' Hpl. apply (HQ (Parsing m2 (p_pos s + len) false true false) s' rd Hgot Hlen Hh2); cbn; try done; try congruence. by rewrite (st_sections _ _ Hs2), Hse1.
Qed.

Lemma wp_getrecord sec (last : bool) s (Q : unit → parsing → Prop) :
  parse_ok s → p_free_name s = false → p_free_rds s = false → sec < 4 →
  m_tsig (p_msg s) = None → m_sig0 (p_msg s) = None →
  (fine → ∃ r p', record_here (p_pos s) r p' ∧ acceptable sec s r) →
  (∀ s', recorded sec last s s' → Q tt s') →
  wp (getrecord mem_get source dctx options sec last) s Q err.
Proof.
  intros Hok Hfn Hfr Hsec Htsig Hsig0 Hf HQ. unfold getrecord. wp_steps.
  eapply wp_mono; [apply (wp_new_name mem_get source Hsrc options Hbest dctx Hdctx fine Hmem); [done|done|]| |done].
  { intros (r & p' & (k & len & Hn & _) & _)%Hf. by eapply name_here_at. }
  intros n s1 (m1 & k & Hnp & Hn & Hp1 & -> & Hok1)%name_read_at.
  assert (fine → ∃ r len, rec_name r = n ∧
    fixed_at source (p_pos s + k) (rd_type (rec_rdata r)) (rd_class (rec_rdata r)) (rec_ttl r) len ∧
    p_pos s + k + 10 + len <= length source ∧
    rdata_here source dctx (rd_class (rec_rdata r)) (rd_type (rec_rdata r)) (p_pos s + k + 10) len (rec_rdata r) ∧
    acceptable sec s r) as Hf1.
  { intros (r & p' & (k' & len & Hn' & Hfix & -> & Hp' & Hrd) & Hacc)%Hf.
    destruct (name_at_pos_det _ _ _ _ _ Hn' Hnp) as [-> ->]. by exists r, len. }
  wp_step. apply (wp_need source fine); [done| |]; cbn [p_pos].
  { intros (r & len & _ & _ & Hl & _)%Hf1. lia. }
  intros Hlen. wp_step. apply (wp_getuint16 source Hsrc fine); [done|cbn [p_pos]; lia|]. cbn [p_pos]. intros t Ht Htr Hok2. unfold moved in *.
  cbn [p_msg p_pos p_seen p_free_name p_free_rds] in *. wp_step.
  apply (wp_getuint16 source Hsrc fine); [done|cbn [p_pos]; lia|]. cbn [p_pos]. intros c Hc Hcr Hok3. unfold moved in *.
  cbn [p_msg p_pos p_seen p_free_name p_free_rds] in *. wp_step.
  assert (fine → ∃ r len, rec_name r = n ∧ rd_type (rec_rdata r) = t ∧ rd_class (rec_rdata r) = c ∧
    fixed_at source (p_pos s + k) t c (rec_ttl r) len ∧
    p_pos s + k + 10 + len <= length source ∧ rdata_here source dctx c t (p_pos s + k + 10) len (rec_rdata r) ∧
    acceptable sec s r) as Hf2.
  { intros (r & len & En & Hfix & Hl & Hrd & Hacc)%Hf1. exists r, len.
    destruct Hfix as (F1 & F2 & F3 & F4). rewrite Ht in F1. rewrite Hc in F2. injection F1 as F1. injection F2 as F2.
    rewrite <- F1, <- F2 in *. done. }
  clear Hf1. assert (held (p_msg s) m1 ∧ m_state m1 = m_state (p_msg s) ∧ m_rdclass m1 = m_rdclass (p_msg s) ∧
    m_sections m1 = m_sections (p_msg s)) as (Hh1 & Hst1 & Hcl1 & Hsec1) by (by destruct Hp1 as (? & -> & _)).
  apply (wp_check_class source options Hbest fine); [done| |].
  { cbn. intros (r & len & _ & _ & Ec & _ & _ & _ & (_ & A2 & A3 & _))%Hf2. split; congruence. }
  cbn [p_msg]. intros m2 Hs2 Hsame Hok4. unfold at_msg in *. cbn [p_msg p_pos p_seen p_free_name p_free_rds] in *. wp_step.
  apply (wp_check_type mem_get source Hsrc options Hbest dctx Hdctx fine Hmem); [done|done| |].
  { intros (r & len & _ & Et & _ & _ & _ & _ & (_ & _ & _ & A4 & _))%Hf2. rewrite Et in A4. set_solver +A4. }
  cbn [p_msg]. intros m3 Hs3 Hst3 Hcl3 Hok5 Htsigend Hoptnone. unfold at_msg in *.
  cbn [p_msg p_pos p_seen p_free_name p_free_rds] in *. wp_step.
  apply (wp_getuint32 source fine); [done|cbn [p_pos]; lia|]. cbn [p_pos]. intros ttl Httl Hok6. unfold moved in *.
  cbn [p_msg p_pos p_seen p_free_name p_free_rds] in *. wp_step.
  apply (wp_getuint16 source Hsrc fine); [done|cbn [p_pos]; lia|]. cbn [p_pos]. intros rdlen Hrdl Hrdr Hok7. unfold moved in *.
  cbn [p_msg p_pos p_seen p_free_name p_free_rds] in *.
  destruct (msg_ok_section _ sec (pk_msg _ _ Hok) Hsec) as (section & Hse & _).
  pose proof (held_trans _ _ _ Hh1 (held_trans _ _ _ (stamped_held _ _ Hs2) (stamped_held _ _ Hs3))) as Hh3.
  assert (m_sections m3 = m_sections (p_msg s)) as Hse3
    by (by rewrite (st_sections _ _ Hs3), (st_sections _ _ Hs2)).
  assert (m_state (p_msg s) ≠ DNS_SECTION_ANY → m_state m3 = m_state (p_msg s) ∧ m_rdclass m3 = m_rdclass (p_msg s)) as Hcls.
  { intros Hany. rewrite Hst3, Hcl3, Hsame, Hst1, Hcl1; [done|]. by rewrite Hst1. }
  assert (updates (Parsing m3 (p_pos s + k + 2 + 2 + 4 + 2) false true (p_free_rds s)) = updates s) as Eu
    by (unfold updates; cbn; by rewrite (he_header _ _ Hh3)).
  apply (wp_record_rest sec last (p_pos s) t c ttl (Z.to_nat rdlen) n section
    (Parsing m3 (p_pos s + k + 2 + 2 + 4 + 2) false true (p_free_rds s))); cbn [p_msg p_pos p_free_name p_free_rds].
  - done.
  - done.
  - done.
  - by rewrite Hse3.
  - by rewrite (he_tsig _ _ Hh3).
  - by rewrite (he_sig0 _ _ Hh3).
  - done.
  - lia.
  - done.
  - intros Ho. specialize (Hoptnone Ho). by rewrite (st_opt _ _ Hs3).
  - intros (r & len & En & Et & Ec & (_ & _ & _ & F4) & Hl & Hrd & Hacc)%Hf2. rewrite Hrdl in F4. injection F4 as ->.
    rewrite Nat2Z.id. replace (p_pos s + k + 10) with (p_pos s + k + 2 + 2 + 4 + 2) in Hl, Hrd by lia. split; [done|].
    exists r. split_and!; try done. destruct Hacc as (A1 & A2 & A3 & A4 & A5 & A6). destruct (Hcls A2) as [C1 C2].
    unfold acceptable. cbn [p_msg]. rewrite C1, C2, Hse3, Eu. done.
  - intros sX s' rd Hgot Hl HhX HstX HclX HseX HposX Hsig Hpl. destruct Hpl as [L1 L2 L3 L4 L5 L6 L7 L7' [L8 L9] L10 L11 L12 L13 L14].
    pose proof (held_trans _ _ _ Hh3 HhX) as HhX'. rewrite Eu in Hgot. pose proof (rg_type _ _ _ _ _ _ _ _ Hgot) as Et.
    pose proof (rg_class _ _ _ _ _ _ _ _ Hgot) as Ec. cbn [rec_rdata] in *. rewrite Et in *.
    apply HQ. split; try done.
    + rewrite L5. apply (he_counts _ _ HhX').
    + rewrite L6. apply (he_intent _ _ HhX').
    + rewrite L7. apply (he_query _ _ HhX').
    + rewrite L7'. apply (he_render _ _ HhX').
    + intros Hany. rewrite L8, L9, HstX, HclX. by apply Hcls.
    + rewrite L10. by rewrite (he_header _ _ HhX').
    + intros Hnl. destruct L13 as [-> ->]; [tauto| |].
      * destruct (is_sig0 t rd) eqn:E; [|done]. exfalso. by apply Hnl, Hsig.
      * by rewrite (he_tsig _ _ HhX'), (he_sig0 _ _ HhX').
    + intros Hu. exists (Rec n ttl rd). destruct (rg_wire _ _ _ _ _ _ _ _ Hgot Hu) as (Hfl & avail & Hw). cbn [rec_name rec_rdata rec_ttl].
      rewrite Et. split_and!.
      * exists k, (Z.to_nat rdlen). cbn [rec_name rec_rdata rec_ttl]. rewrite Et, Ec. unfold fixed_at. rewrite Z2Nat.id by lia.
        replace (p_pos s + k + 10) with (p_pos s + k + 2 + 2 + 4 + 2) by lia. split_and!; try done; [lia|lia|].
        eexists. exact Hw.
      * done.
      * intros Hno. by rewrite L11, (he_header _ _ HhX').
      * by rewrite L12, (he_opt _ _ HhX').
      * intros Hp section' Hse' Hd. rewrite Hse in Hse'. injection Hse' as <-.
        rewrite L14; [by rewrite HseX, Hse3| |done|done]. rewrite <- Hu, <- Eu. unfold updates. cbn. by rewrite (he_header _ _ HhX).
Qed.

(** ** One question *)

Record question := Question { q_name : name; q_type : Z; q_class : Z }.

Definition asks (q : question) : rrset rdatalist :=
  add_attributes (new_rrset (q_class q) (q_type q) 0 0) DNS_RDATASETATTR_QUESTION.

(** The section of the questions: the name of the first, with all. *)
Definition asked (qs : list question) : list (mname rdatalist) :=
  match qs with [] => [] | q :: _ => [Mname (q_name q) (asks <$> qs)] end.

(** Another question must have the same name and class, and another type. *)
Definition compatible (qs : list question) (q : question) : Prop :=
  match qs with
  | [] => True
  | q0 :: _ => equal (q_name q0) (q_name q) = true ∧ q_class q0 = q_class q ∧ q_type q ∉ q_type <$> qs
  end.

Record asked_ok (qs : list question) msg : Prop := AskedOk {
  ak_section : m_sections msg !! 0 = Some (asked qs);
  ak_state : m_state msg = if bool_decide (qs = []) then DNS_SECTION_ANY else Z.of_nat DNS_SECTION_QUESTION;
  ak_class : ∀ q, q ∈ qs → q_class q = m_rdclass msg }.

Definition question_here (p : nat) (q : question) (p' : nat) : Prop :=
  question_at source p (q_name q) (q_type q) (q_class q) p'.

Lemma asks_fits q c t : fits c t 0 (asks q) = bool_decide (q_class q = c) && bool_decide (q_type q = t).
Proof. unfold fits. cbn [asks add_attributes new_rrset rr_covers]. by rewrite (bool_decide_true (0%Z = 0%Z)), andb_true_r. Qed.

(** The name of the questions so far, or this one. *)
Definition first_name (qs : list question) (n : name) : name := match qs with [] => n | q :: _ => q_name q end.

Lemma wp_question_name qs n (g : nat → parser unit) s (Q : unit → parsing → Prop) :
  parse_ok s → p_free_name s = true → p_free_rds s = false → asked_ok qs (p_msg s) → dname_ok n →
  (fine → ∃ q, q_name q = n ∧ compatible qs q) →
  (∀ m', kept (p_msg s) m' → m_sections m' = <[0 := [Mname (first_name qs n) (asks <$> qs)]]> (m_sections (p_msg s)) →
     match qs with [] => True | q0 :: _ => equal (q_name q0) n = true end →
     parse_ok (Parsing m' (p_pos s) false false false) → wp (g 0) (Parsing m' (p_pos s) false false false) Q err) →
  wp (section <- section_at DNS_SECTION_QUESTION ;;
      found <- lift (findname n section) ;;
      i <- (match found with
            | None => (if bool_decide (section ≠ []) then do_formerr options else pret tt) ;;
                      append_name DNS_SECTION_QUESTION n
            | Some i => reuse_name i
            end) ;;
      g i) s Q err.
Proof.
  intros Hok Hfn Hfr [Hsec _ _] Hn Hf HQ. wp_step. eapply wp_section_at; [exact Hsec|]. wp_step.
  pose proof (mk_names _ (pk_msg _ _ Hok)) as Hall. pose proof (Forall_lookup_1 _ _ _ _ Hall Hsec) as Hs. cbn in Hs.
  destruct (findname_spec n (asked qs) Hn Hs) as (r & Hr & Hspec). eapply wp_lift; [exact Hr|]. wp_step.
  destruct r as [i|].
  - destruct Hspec as (n' & Hi & He). destruct qs as [|q0 qs]; [done|]. cbn [asked] in *.
    apply list_lookup_singleton_Some in Hi as [-> <-].
    apply (wp_reuse_name source fine); [done|done|]. intros s' -> Hok'. rewrite (pk_seen _ _ Hok), Hfr in *. apply HQ.
    + exists (m_sections (p_msg s)), (m_pools (put_names (p_msg s) 1)). by destruct (p_msg s).
    + cbn. by rewrite list_insert_id.
    + exact He.
    + done.
  - wp_step. apply (wp_check source options Hbest fine); [done| |].
    { intros (q & <- & Hc)%Hf. destruct qs as [|q0 qs]; [by rewrite bool_decide_false by auto|].
      destruct Hc as [He _]. apply Forall_cons in Hspec as [Hno _]. cbn in Hno. congruence. }
    intros He. apply bool_decide_eq_false in He. assert (qs = []) as -> by (destruct qs; [done|by destruct He]).
    apply (wp_append_name source fine DNS_SECTION_QUESTION n s (asked [])); [done|done|done|done|]. intros s' -> Hok'.
    rewrite (pk_seen _ _ Hok), Hfr in *. apply HQ; [|by etrans; [apply (alter_insert _ 0 _ _ Hsec)|]|done|done].
    by eexists _, (m_pools (p_msg s)).
Qed.

Lemma asked_snoc qs q : asked (qs ++ [q]) = [Mname (first_name qs (q_name q)) ((asks <$> qs) ++ [asks q])].
Proof. destruct qs as [|q0 qs]; cbn; [done|]. by rewrite fmap_app. Qed.

(** What is done with type and class. *)
Definition question_rest (t c : Z) : parser unit :=
  s <- get ;;
  (if bool_decide (m_state (p_msg s) = DNS_SECTION_ANY)
   then with_msg (λ msg, set_class msg c (Z.of_nat DNS_SECTION_QUESTION))
   else if bool_decide (m_rdclass (p_msg s) ≠ c) then do_formerr options else pret tt) ;;
  section <- section_at DNS_SECTION_QUESTION ;;
  n <- lift (section !! 0) ;;
  (if bool_decide (dns_message_find n c t 0 ≠ None) then do_formerr options else pret tt) ;;
  request (ask mem_get) ;;
  request (get_rds mem_get) ;; set_free_rds true ;;
  alter_name DNS_SECTION_QUESTION 0 (λ l, l ++ [add_attributes (new_rrset c t 0 0) DNS_RDATASETATTR_QUESTION]) ;;
  set_free_rds false.

Lemma wp_question_rest qs n t c s (Q : unit → parsing → Prop) :
  parse_ok s → p_free_name s = false → p_free_rds s = false →
  m_sections (p_msg s) !! 0 = Some [Mname (first_name qs n) (asks <$> qs)] →
  m_state (p_msg s) = (if bool_decide (qs = []) then DNS_SECTION_ANY else Z.of_nat DNS_SECTION_QUESTION) →
  (∀ q, q ∈ qs → q_class q = m_rdclass (p_msg s)) →
  (fine → compatible qs (Question n t c)) →
  (∀ m', held (p_msg s) m' → (∀ q, q ∈ qs → q_class q = c ∧ q_type q ≠ t) → asked_ok (qs ++ [Question n t c]) m' →
     m_sections m' = <[0 := asked (qs ++ [Question n t c])]> (m_sections (p_msg s)) →
     parse_ok (Parsing m' (p_pos s) false false false) → Q tt (Parsing m' (p_pos s) false false false)) →
  wp (question_rest t c) s Q err.
Proof.
  intros Hok Hfn Hfr Hsec Hst Hcls Hf HQ. unfold question_rest. wp_step. wp_step. wp_step.
  assert (∀ m1, stamped (p_msg s) m1 → m_state m1 = Z.of_nat DNS_SECTION_QUESTION → m_rdclass m1 = c → (∀ q, q ∈ qs → q_class q = c) →
    wp (section <- section_at DNS_SECTION_QUESTION ;;
      n <- lift (section !! 0) ;;
      (if bool_decide (dns_message_find n c t 0 ≠ None) then do_formerr options else pret tt) ;;
      request (ask mem_get) ;;
      request (get_rds mem_get) ;; set_free_rds true ;;
      alter_name DNS_SECTION_QUESTION 0 (λ l, l ++ [add_attributes (new_rrset c t 0 0) DNS_RDATASETATTR_QUESTION]) ;;
      set_free_rds false) (at_msg s m1) Q err) as Hrest.
  { intros m1 Hs1 Hst1 Hc1 Hqc. pose proof (stamped_ok _ _ _ Hok Hs1) as Hok1.
    assert (m_sections m1 !! 0 = Some [Mname (first_name qs n) (asks <$> qs)]) as Hsec1 by (by rewrite (st_sections _ _ Hs1)).
    wp_step. eapply wp_section_at; [exact Hsec1|]. wp_step. eapply wp_lift; [done|]. wp_step.
    pose proof (find_rrset_spec (fits c t 0) (asks <$> qs)) as Hfind.
    change (dns_message_find _ c t 0) with (find_rrset (fits c t 0) (asks <$> qs)).
    apply (wp_check source options Hbest fine); [done| |].
    { intros Hcomp%Hf. destruct (find_rrset _ _) as [i|]; [|by rewrite bool_decide_false by auto].
      destruct Hfind as (rs & (q & -> & Hq)%list_lookup_fmap_Some & Hfit). exfalso. rewrite asks_fits in Hfit.
      apply andb_true_iff in Hfit as [_ Ht]. apply bool_decide_eq_true in Ht.
      destruct qs as [|q0 qs]; [done|]. destruct Hcomp as (_ & _ & Hno). apply Hno. cbn [q_type]. rewrite <- Ht.
      apply list_elem_of_fmap. exists q. split; [done|]. by eapply list_elem_of_lookup_2. }
    intros Hnone. apply bool_decide_eq_false in Hnone. destruct (find_rrset _ _); [by destruct Hnone|].
    wp_step. apply (wp_ask mem_get source fine Hmem); [done|]. intros m2 Hp2 Hok2. wp_step.
    apply (wp_get_rds mem_get source fine Hmem); [done|done|]. intros m3 Hp3 Hok3. unfold at_msg in *.
    cbn [p_msg p_pos p_seen p_free_name p_free_rds] in *. unfold alter_name. wp_steps.
    assert (m_sections m3 = m_sections (p_msg s)) as E3.
    { rewrite <- (st_sections _ _ Hs1). by destruct Hp2 as (? & -> & _), Hp3 as (? & -> & _). }
    destruct (kept_held _ _ (pooled_kept _ _ _ _ Hp2)) as (Hh2 & Hst2 & Hcl2).
    destruct (kept_held _ _ (pooled_kept _ _ _ _ Hp3)) as (Hh3 & Hst3 & Hcl3).
    pose proof (held_trans _ _ _ (stamped_held _ _ Hs1) (held_trans _ _ _ Hh2 Hh3)) as Hh.
    assert (m_sections m3 !! DNS_SECTION_QUESTION = Some [Mname (first_name qs n) (asks <$> qs)]) as Hsec3 by (by rewrite E3).
    assert (alter (alter (alter_list (λ l, l ++ [add_attributes (new_rrset c t 0 0) DNS_RDATASETATTR_QUESTION])) 0)
        DNS_SECTION_QUESTION (m_sections m3) = <[0 := asked (qs ++ [Question n t c])]> (m_sections (p_msg s))) as Ealt.
    { erewrite alter_twice; [|exact Hsec3|done]. rewrite E3, asked_snoc. done. }
    rewrite Ealt. rewrite (pk_seen _ _ Hok), Hfn in *.
    assert (0 < length (m_sections (p_msg s))) as Hlt by (by eapply lookup_lt_Some).
    apply HQ.
    - destruct Hh. by split.
    - intros q Hq. split; [by apply Hqc|]. intros Ht. rewrite Forall_forall in Hfind.
      assert (asks q ∈ asks <$> qs) as Hin by (apply list_elem_of_fmap; by exists q). specialize (Hfind _ Hin).
      cbn in Hfind. rewrite asks_fits, !bool_decide_true in Hfind by auto. done.
    - split; cbn.
      + by rewrite list_lookup_insert_eq.
      + rewrite bool_decide_false by (by destruct qs). congruence.
      + rewrite Hcl3, Hcl2, Hc1. intros q [Hq| ->%list_elem_of_singleton]%elem_of_app; [by apply Hqc|done].
    - done.
    - rewrite <- E3, asked_snoc. cbn [q_name].
      pose proof (alter_name_ok source (Parsing m3 (p_pos s) false false true) DNS_SECTION_QUESTION _ 0 _
        ((asks <$> qs) ++ [asks (Question n t c)]) 1 false Hok3 Hsec3 eq_refl) as Hend.
      apply Hend; cbn; [|by rewrite length_app|done].
      pose proof (mk_names _ (pk_msg _ _ Hok3)) as Hall. pose proof (Forall_lookup_1 _ _ _ _ Hall Hsec3) as Hs. cbn in Hs.
      apply Forall_cons in Hs as [[_ Hl] _]. cbn in Hl. apply Forall_app. split; [done|]. repeat constructor. }
  apply wp_if; intros Hany; [apply bool_decide_eq_true in Hany|apply bool_decide_eq_false in Hany].
  - wp_step. apply (Hrest (set_class (p_msg s) c (Z.of_nat DNS_SECTION_QUESTION))); [apply stamped_class|done|done|].
    rewrite Hst in Hany. case_bool_decide as Hq; [subst qs; by intros ? ?%elem_of_nil|done].
  - rewrite Hst in Hany. case_bool_decide as Hq; [done|].
    apply (wp_check source options Hbest fine); [done| |].
    { intros Hcomp%Hf. apply bool_decide_eq_false. intros Hne. apply Hne. destruct qs as [|q0 qs]; [done|].
      rewrite <- (Hcls q0) by left. by destruct Hcomp as (_ & ? & _). }
    intros Hc. apply bool_decide_eq_false in Hc. destruct (decide (m_rdclass (p_msg s) = c)) as [Ec|]; [|done].
    pose proof (Hrest (p_msg s) (stamped_refl _) Hst Ec) as Hr. unfold at_msg in Hr. destruct s. apply Hr.
    intros q Hin. rewrite <- Ec. by apply Hcls.
Qed.

(** The message after a round of [getquestions]. *)
Record questioned (qs : list question) (q : question) s s' : Prop := Questioned {
  qd_ok : parse_ok s'; qd_name : p_free_name s' = false; qd_rds : p_free_rds s' = false;
  qd_held : held (p_msg s) (p_msg s'); qd_asked : asked_ok (qs ++ [q]) (p_msg s');
  qd_sections : m_sections (p_msg s') = <[0 := asked (qs ++ [q])]> (m_sections (p_msg s));
  qd_here : question_here (p_pos s) q (p_pos s'); qd_dname : dname_ok (q_name q); qd_compatible : compatible qs q }.

Lemma wp_getquestion qs s (Q : unit → parsing → Prop) :
  parse_ok s → p_free_name s = false → p_free_rds s = false → asked_ok qs (p_msg s) →
  (fine → ∃ q p', question_here (p_pos s) q p' ∧ p' <= length source ∧ compatible qs q) →
  (∀ q s', questioned qs q s s' → Q tt s') →
  wp (getquestion mem_get source dctx options) s Q err.
Proof.
  intros Hok Hfn Hfr Hask Hf HQ. unfold getquestion. wp_step.
  eapply wp_mono; [apply (wp_new_name mem_get source Hsrc options Hbest dctx Hdctx fine Hmem); [done|done|]| |done].
  { intros (q & p' & (k & Hn & _) & _)%Hf. by eapply name_here_at. }
  intros n s1 (m1 & k & Hnp & Hn & Hp1 & -> & Hok1)%name_read_at.
  assert (fine → ∃ q, q_name q = n ∧ rd16 source (p_pos s + k) = Some (q_type q) ∧ rd16 source (p_pos s + k + 2) = Some (q_class q) ∧
    p_pos s + k + 4 <= length source ∧ compatible qs q) as Hf1.
  { intros (q & p' & (k' & Hn' & Ht & Hc & ->) & Hl & Hcomp)%Hf.
    destruct (name_at_pos_det _ _ _ _ _ Hn' Hnp) as [-> ->]. by exists q. }
  destruct (kept_held _ _ (pooled_kept _ _ _ _ Hp1)) as (Hh1 & Hst1 & Hcl1).
  assert (m_sections m1 = m_sections (p_msg s)) as E1 by (by destruct Hp1 as (? & -> & _)).
  apply (wp_question_name qs n); [done|done|done| |done| |].
  { destruct Hask as [A1 A2 A3]. split; cbn; [by rewrite E1|by rewrite Hst1|by rewrite Hcl1]. }
  { intros (q & En & _ & _ & _ & Hc)%Hf1. by exists q. }
  cbn [p_msg p_pos]. intros m2 Hk2 Hse2 Heq Hok2. destruct (kept_held _ _ Hk2) as (Hh2 & Hst2 & Hcl2). wp_step.
  apply (wp_need source fine); [done|by intros (q & _ & _ & _ & Hl & _)%Hf1|]. cbn [p_pos]. intros Hl. wp_step.
  apply (wp_getuint16 source Hsrc fine); [done|cbn [p_pos]; lia|]. cbn [p_pos]. intros t Ht _ Hok3. unfold moved in *.
  cbn [p_msg p_pos p_seen p_free_name p_free_rds] in *. wp_step.
  apply (wp_getuint16 source Hsrc fine); [done|cbn [p_pos]; lia|]. cbn [p_pos]. intros c Hc _ Hok4. unfold moved in *.
  cbn [p_msg p_pos p_seen p_free_name p_free_rds] in *.
  destruct Hask as [A1 A2 A3]. assert (0 < length (m_sections (p_msg s))) as Hlt by (by eapply lookup_lt_Some).
  apply (wp_question_rest qs n t c (Parsing m2 (p_pos s + k + 2 + 2) false false false)); cbn [p_msg p_pos].
  - done.
  - done.
  - done.
  - rewrite Hse2, E1. by rewrite list_lookup_insert_eq.
  - by rewrite Hst2, Hst1.
  - rewrite Hcl2, Hcl1. done.
  - intros (q & En & Et & Ec & _ & Hcomp)%Hf1. rewrite Ht in Et. rewrite Hc in Ec. injection Et as ->. injection Ec as ->.
    rewrite <- En. by destruct q.
  - intros m3 Hh3 Hqs Hask Hse3 Hok5. apply (HQ (Question n t c)). split; try done.
    + exact (held_trans _ _ _ Hh1 (held_trans _ _ _ Hh2 Hh3)).
    + cbn [p_msg]. by rewrite Hse3, Hse2, E1, list_insert_insert_eq.
    + exists k. cbn. split_and!; try done. lia.
    + destruct qs as [|q0 qs]; [done|]. split_and!; [done|by apply (Hqs q0); left|].
      intros (q & Eq & Hin)%list_elem_of_fmap. cbn [q_type] in Eq. destruct (Hqs q Hin) as [_ Hne]. congruence.
Qed.
End Spec.
