(* ===== verification/ParseMessage.v ===== *)
(** * Parsing a message, as a whole

    The loops of [getquestions] and [getsection] and [dns_message_parse] of
    [lib/dns/message.c]: on any bytes no assertion fails, and what the
    message then holds is what is in the bytes. [chain] puts the questions
    and records of a message one after the other. *)
From S2P Require Import Prelude Qsort Rdata Name FromWire Compress Slab RbtdbRdataset Order Answer Message MessageParse Gather ParseRules ParseSpec ParseRecord.

#[local] Open Scope parser_scope.
#[local] Arguments count_rds : simpl never.

(** Things one after the other. *)
Fixpoint chain {A} (R : nat → A → nat → Prop) (p : nat) (l : list A) (p' : nat) : Prop :=
  match l with [] => p' = p | x :: l => ∃ q, R p x q ∧ chain R q l p' end.

(** Each question is compatible with those before. *)
Fixpoint compatible_all (qs l : list question) : Prop :=
  match l with [] => True | q :: l => compatible qs q ∧ compatible_all (qs ++ [q]) l end.

(** Records of class [c] that give no error in a section. *)
Definition plain (c : Z) `{RdataTypes} (section : list (mname rdatalist)) (r : record) : Prop :=
  rd_class (rec_rdata r) = c ∧
  rd_type (rec_rdata r) ∉ [dns_rdatatype_tsig; dns_rdatatype_opt; dns_rdatatype_tkey; dns_rdatatype_sig; dns_rdatatype_rrsig] ∧
  dns_rdatatype_questiononly (rd_type (rec_rdata r)) = false ∧
  (dns_rdatatype_issingleton (rd_type (rec_rdata r)) = true → rrset_at section (rec_name r) (rec_key r) = None).

Fixpoint plain_all (c : Z) `{RdataTypes} (section : list (mname rdatalist)) (rs : list record) : Prop :=
  match rs with [] => True | r :: rs => plain c section r ∧ plain_all c (add_record r section) rs end.

Lemma plain_apart c `{RdataTypes} section r : plain c section r → apart r = false.
Proof.
  intros (_ & Ht & _). unfold apart, is_sig0. rewrite !bool_decide_false; [done| |]; [intros [E _]|intros [E|E]];
    rewrite E in Ht; set_solver +Ht.
Qed.

(** The OPT record among some records, or the one there was. *)
Definition opt_of (o : option (rrset rdatalist)) (rs : list record) : option (rrset rdatalist) :=
  foldl (λ o r, if bool_decide (rd_type (rec_rdata r) = dns_rdatatype_opt) then Some (join_rrset r (fresh_rrset r)) else o) o rs.

(** The records that belong to the section, not to the message. *)
Definition together (rs : list record) : list record := filter (λ r, apart r = false) rs.

Section Spec.
Context (mem_get : nat → bool) `{FromwireOk, RdataTypes} (source : mem) (Hsrc : bytes_ok source).
Context (options : Z) (Hbest : option_set options DNS_MESSAGEPARSE_BESTEFFORT = false).
Context (dctx : decompress) (Hdctx : allows_global14 dctx = true).
Context (fine : Prop) (Hmem : fine → ∀ k, mem_get k = true).
Implicit Types (msg : message rdatalist) (s : parsing).

#[local] Abbreviation parse_ok := (ParseRules.parse_ok source).
#[local] Abbreviation err := (ParseRules.err source fine).
#[local] Abbreviation record_at := (record_at source dctx).
#[local] Abbreviation record_here := (record_here source dctx).
#[local] Abbreviation question_here := (question_here source).

Lemma held_refl msg : held msg msg.
Proof. by split. Qed.

Lemma question_det p q q' p1 p2 : question_here p q p1 → question_here p q' p2 → q' = q ∧ p2 = p1.
Proof.
  intros (k & Hn & Ht & Hc & ->) (k' & Hn' & Ht' & Hc' & ->).
  destruct (name_at_pos_det _ _ _ _ _ _ Hn Hn') as [En ->]. rewrite Ht in Ht'. rewrite Hc in Hc'.
  injection Ht' as Et. injection Hc' as Ec. split; [|done]. destruct q, q'. cbn in *. by subst.
Qed.

(** ** The questions *)

Lemma wp_questions_loop n qs s (Q : unit → parsing → Prop) :
  parse_ok s → p_free_name s = false → p_free_rds s = false → asked_ok qs (p_msg s) →
  (fine → ∃ l p', length l = n ∧ chain question_here (p_pos s) l p' ∧ p' <= length source ∧ compatible_all qs l) →
  (∀ l s', parse_ok s' → p_free_name s' = false → p_free_rds s' = false → held (p_msg s) (p_msg s') → length l = n →
     chain question_here (p_pos s) l (p_pos s') → compatible_all qs l → asked_ok (qs ++ l) (p_msg s') →
     m_sections (p_msg s') = <[0 := asked (qs ++ l)]> (m_sections (p_msg s)) → Forall (λ q, dname_ok (q_name q)) l →
     Q tt s') →
  wp (questions_loop mem_get source dctx options n) s Q err.
Proof.
  revert qs s. induction n as [|n IH]; intros qs s Hok Hfn Hfr Hask Hf HQ; cbn [questions_loop].
  - wp_step. apply (HQ []); try done; rewrite ?app_nil_r; [done|]. rewrite list_insert_id; [done|]. apply Hask.
  - wp_step. apply (wp_getquestion mem_get source Hsrc options Hbest dctx Hdctx fine Hmem qs); [done..| |].
    { intros (l & p' & Hl & Hch & Hp & Hc)%Hf. destruct l as [|q l]; [done|]. destruct Hch as (p1 & Hq & Hch), Hc as [Hc _].
      exists q, p1. split_and!; [done| |done]. clear -Hch Hp. revert p1 Hch. induction l as [|q' l IHl]; intros p1; cbn; [lia|].
      intros (p2 & (k & _ & _ & _ & ->) & Hch). apply IHl in Hch. lia. }
    intros q s1 [D1 D2 D3 D4 D5 D6 D7 D8 D9]. apply (IH (qs ++ [q])); [done..| |].
    + intros (l & p' & Hl & Hch & Hp & Hc)%Hf. destruct l as [|q' l]; [done|]. destruct Hch as (p1 & Hq & Hch), Hc as [_ Hc].
      destruct (question_det _ _ _ _ _ D7 Hq) as [-> ->]. exists l, p'. split_and!; try done. cbn in Hl. lia.
    + intros l s2 L1 L2 L3 L4 L5 L6 L7 L8 L9 L10. apply (HQ (q :: l)); try done.
      * by eapply held_trans.
      * cbn. by rewrite L5.
      * by exists (p_pos s1).
      * by rewrite <- app_assoc in L8.
      * rewrite L9, D6, list_insert_insert_eq, <- app_assoc. done.
      * by constructor.
Qed.

(** ** The records *)

Lemma record_det p r r' p1 p2 : record_at p r p1 → record_here p r' p2 → r' = r ∧ p2 = p1.
Proof.
  intros (k & len & Hn & (F1 & F2 & F3 & F4) & -> & _ & _ & avail & Hw) (k' & len' & Hn' & (F1' & F2' & F3' & F4') & -> & _ & Hrd).
  destruct (name_at_pos_det _ _ _ _ _ _ Hn Hn') as [En ->]. rewrite F1 in F1'. rewrite F2 in F2'. rewrite F3 in F3'. rewrite F4 in F4'.
  injection F1' as Et. injection F2' as Ec. injection F3' as El. injection F4' as Elen. apply Nat2Z.inj in Elen. subst len'.
  split; [|done]. rewrite <- Et, <- Ec in Hrd. destruct (Hrd avail) as [Hw'|[Hw' _]]; rewrite Hw in Hw'; [|done].
  injection Hw' as Er. destruct r, r'. cbn in *. by subst.
Qed.

(** The message after [getsection]. *)
Record sectioned (sec n : nat) s s' : Prop := Sectioned {
  sc_ok : parse_ok s'; sc_name : p_free_name s' = false; sc_rds : p_free_rds s' = false;
  sc_counts : m_counts (p_msg s') = m_counts (p_msg s); sc_intent : m_intent (p_msg s') = m_intent (p_msg s);
  sc_query : m_querytsig (p_msg s') = m_querytsig (p_msg s); sc_render : m_render (p_msg s') = m_render (p_msg s);
  sc_class : m_state (p_msg s) ≠ DNS_SECTION_ANY →
    m_state (p_msg s') = m_state (p_msg s) ∧ m_rdclass (p_msg s') = m_rdclass (p_msg s);
  sc_opcode : opcode (m_header (p_msg s')) = opcode (m_header (p_msg s));
  sc_sigs : sec ≠ DNS_SECTION_ADDITIONAL → m_tsig (p_msg s') = None ∧ m_sig0 (p_msg s') = None;
  sc_records : updates s = false → ∃ rs, length rs = n ∧ chain record_at (p_pos s) rs (p_pos s') ∧
    Forall (λ r, dname_ok (rec_name r)) rs ∧
    (Forall (λ r, rd_type (rec_rdata r) ≠ dns_rdatatype_opt) rs → m_header (p_msg s') = m_header (p_msg s)) ∧
    m_opt (p_msg s') = opt_of (m_opt (p_msg s)) rs ∧
    (option_set options DNS_MESSAGEPARSE_PRESERVEORDER = false → ∀ section, m_sections (p_msg s) !! sec = Some section →
       distinct section →
       m_sections (p_msg s') = <[sec := foldl (λ l r, add_record r l) section (together rs)]> (m_sections (p_msg s))) }.

Lemma wp_section_loop sec n s (Q : unit → parsing → Prop) :
  parse_ok s → p_free_name s = false → p_free_rds s = false → sec < 4 →
  m_tsig (p_msg s) = None → m_sig0 (p_msg s) = None →
  (fine → updates s = false ∧ option_set options DNS_MESSAGEPARSE_PRESERVEORDER = false ∧
     m_state (p_msg s) ≠ DNS_SECTION_ANY ∧ ∃ rs p' section, length rs = n ∧ chain record_here (p_pos s) rs p' ∧
       m_sections (p_msg s) !! sec = Some section ∧ distinct section ∧ plain_all (m_rdclass (p_msg s)) section rs) →
  (∀ s', sectioned sec n s s' → Q tt s') →
  wp (section_loop mem_get source dctx options sec n) s Q err.
Proof.
  revert s. induction n as [|n IH]; intros s Hok Hfn Hfr Hsec Htsig Hsig0 Hf HQ; cbn [section_loop].
  - wp_step. apply HQ. split; try done. intros _. exists []. split_and!; try done.
    intros _ section Hse _. cbn. by rewrite list_insert_id.
  - wp_step. apply (wp_getrecord mem_get source Hsrc options Hbest dctx Hdctx fine Hmem sec); [done..| |].
    { intros (Hu & _ & Hst & rs & p' & section & Hl & Hch & Hse & Hd & Hpl)%Hf. destruct rs as [|r rs]; [done|].
      destruct Hch as (p1 & Hr & _), Hpl as [(P1 & P2 & P3 & P4) _]. exists r, p1. split; [done|].
      split_and!; try done. intros Hsi section' Hse'. rewrite Hse in Hse'. injection Hse' as <-. split; [done|]. by apply P4. }
    intros s1 [D1 D2 D3 D4 D5 D6 D6' D7 D8 D9 D10].
    assert (updates s1 = updates s) as Eu by (unfold updates; by rewrite D8).
    destruct (decide (n = 0)) as [->|Hn0].
    + rewrite bool_decide_true in D9 by done. cbn [section_loop]. wp_step. apply HQ. split; try done.
      * intros Hs. apply D9. tauto.
      * intros Hu. destruct (D10 Hu) as (r & R1 & R2 & R3 & R4 & R5). exists [r]. split_and!; try done.
        -- by exists (p_pos s1).
        -- by repeat constructor.
        -- intros Ho%Forall_inv. by apply R3.
        -- intros Hp section Hse Hd. rewrite (R5 Hp section Hse Hd). unfold together.
           destruct (apart r) eqn:Hap; [rewrite filter_cons_False by congruence|rewrite filter_cons_True by done]; cbn; [|done].
           by rewrite list_insert_id.
    + rewrite bool_decide_false in D9 by done. destruct D9 as [T1 T2]; [by intros [_ ?]|].
      apply IH; try done.
      * intros (Hu & Hp & Hst & rs & p' & section & Hl & Hch & Hse & Hd & Hpl)%Hf. destruct rs as [|r rs]; [done|].
        destruct Hch as (p1 & Hr & Hch), Hpl as [Hpr Hpl]. destruct (D10 Hu) as (r0 & R1 & R2 & R3 & R4 & R5).
        destruct (record_det _ _ _ _ _ R1 Hr) as [-> ->]. destruct (D7 Hst) as [C1 C2]. rewrite C1, C2, Eu.
        pose proof (R5 Hp section Hse Hd) as Hse1. rewrite (plain_apart _ _ _ Hpr) in Hse1.
        split_and!; [done..|]. exists rs, p', (add_record r0 section). cbn in Hl. split_and!; try done.
        -- lia.
        -- rewrite Hse1, list_lookup_insert_eq; [done|]. by eapply lookup_lt_Some.
        -- apply add_record_distinct; [done| |done]. destruct (msg_ok_section _ sec (pk_msg _ _ Hok) Hsec) as (section' & Hse' & Hall).
           rewrite Hse in Hse'. injection Hse' as <-. eapply Forall_impl; [exact Hall|by intros ? []].
      * intros s2 [L1 L2 L3 L4 L5 L6 L7 L8 L9 L10 L11]. apply HQ. split; try done; try congruence.
        -- intros Hany. destruct (D7 Hany) as [C1 C2]. rewrite <- C1, <- C2. apply L8. congruence.
        -- intros Hu. destruct (D10 Hu) as (r & R1 & R2 & R3 & R4 & R5). rewrite Eu in L11.
           destruct (L11 Hu) as (rs & S1 & S2 & S3 & S4 & S5 & S6). exists (r :: rs). split_and!.
           ++ cbn. by rewrite S1.
           ++ by exists (p_pos s1).
           ++ by constructor.
           ++ intros [Ho Hos]%Forall_cons. by rewrite S4, R3.
           ++ by rewrite S5, R4.
           ++ intros Hp section Hse Hd. pose proof (R5 Hp section Hse Hd) as Hse1.
              destruct (msg_ok_section _ sec (pk_msg _ _ Hok) Hsec) as (section' & Hse' & Hall).
              rewrite Hse in Hse'. injection Hse' as <-. unfold together.
              assert (sec < length (m_sections (p_msg s))) as Hlt by (by eapply lookup_lt_Some).
              destruct (apart r) eqn:Hap; [rewrite filter_cons_False by congruence|rewrite filter_cons_True by done].
              ** rewrite Hse1 in S6. by rewrite (S6 Hp section Hse Hd).
              ** rewrite Hse1 in S6. cbn [foldl].
                 rewrite (S6 Hp (add_record r section)); [by rewrite list_insert_insert_eq|by rewrite list_lookup_insert_eq|].
                 apply add_record_distinct; [done| |done]. eapply Forall_impl; [exact Hall|by intros ? []].
Qed.

(** ** The end of [getquestions] and [getsection] *)

Lemma run_ok c msg pos (R : parsing → Prop) :
  wp c (Parsing msg pos false false false)
    (λ _ s', parse_ok s' ∧ p_free_name s' = false ∧ p_free_rds s' = false ∧ R s') err →
  ∃ r m p, run c msg pos = Some (r, m, p) ∧ msg_ok m ∧ pools_ok m false false ∧ p <= length source ∧
    (r = ISC_R_SUCCESS ∧ R (Parsing m p false false false) ∨ r ≠ ISC_R_SUCCESS ∧ r ≠ DNS_R_RECOVERABLE ∧ ¬ fine).
Proof.
  unfold wp, run. destruct (c (Parsing msg pos false false false)) as [[[e s]|[[] s]]|]; [| |done]; cbn [mbind option_bind].
  - intros (E1 & E2 & [Hm [P1 P2] Hs Hp] & Hnf). do 3 eexists. split; [done|].
    destruct (p_free_name s), (p_free_rds s); (split; [by destruct Hm|split; [|split; [done|by right]]]);
      split; cbn in *; rewrite ?P1, ?P2; unfold names_held, rds_held; cbn; lia.
  - intros ([Hm Hpo Hs Hp] & Hfn & Hfr & HR). do 3 eexists. split; [done|]. rewrite Hfn, Hfr in Hpo. rewrite Hs.
    split_and!; try done. left. split; [done|]. destruct s as [m p sn fn fr]; cbn in *. by subst.
Qed.

(** ** Fresh messages *)

Record fresh (intent : Z) msg : Prop := Fresh {
  fs_sections : m_sections msg = replicate DNS_SECTION_MAX [];
  fs_opt : m_opt msg = None; fs_tsig : m_tsig msg = None; fs_tsigname : m_tsigname msg = None; fs_sig0 : m_sig0 msg = None;
  fs_sig0name : m_sig0name msg = None; fs_query : m_querytsig msg = None; fs_state : m_state msg = DNS_SECTION_ANY;
  fs_intent : m_intent msg = intent; fs_names : names_out (m_pools msg) = 0%Z; fs_rds : rds_out (m_pools msg) = 0%Z;
  fs_reserved : opt_reserved (m_render msg) = 0%Z ∧ sig_reserved (m_render msg) = 0%Z }.

Lemma fresh_ok intent msg : fresh intent msg → msg_ok msg ∧ pools_ok msg false false.
Proof.
  intros [F1 F2 F3 F4 F5 F6 F7 F8 F9 F10 F11 F12]. split.
  - split; rewrite ?F1, ?F3, ?F4, ?F5, ?F6; try done. repeat constructor.
  - split; [rewrite F10|rewrite F11]; unfold names_held, rds_held; rewrite ?F1, ?F2, ?F3, ?F4, ?F5, ?F6, ?F7; done.
Qed.

Lemma create_fresh intent cctx0 msg :
  dns_message_create mem_get intent cctx0 = (ISC_R_SUCCESS, Some msg) → fresh intent msg.
Proof.
  unfold dns_message_create, newbuffer, ask. cbn. destruct (mem_get 0); [|done]. cbn. destruct (mem_get 1); [|done]. cbn.
  destruct (mem_get 2); [|done]. cbn. destruct (mem_get 3); [|done]. cbn. intros [= <-]. by split.
Qed.

Lemma resetnames_pools msg fs :
  let m := msgresetnames msg fs in
  m_pools m = Pools (Message.asked (m_pools msg)) (scratch (m_pools msg))
    (names_out (m_pools msg) - Z.of_nat (length (mjoin (drop fs (m_sections msg)))))
    (rds_out (m_pools msg) - Z.of_nat (count_rds (mjoin (drop fs (m_sections msg))))).
Proof. done. Qed.

(** A message that was parsed, well or not, can be used again. *)
Lemma reset_fresh msg intent :
  intent = DNS_MESSAGE_INTENTPARSE ∨ intent = DNS_MESSAGE_INTENTRENDER → msg_ok msg → pools_ok msg false false →
  ∃ msg', dns_message_reset msg intent = Some msg' ∧ fresh intent msg'.
Proof.
  intros Hi [M1 M2 M3 M4 [M5 M6]] [P1 P2]. unfold names_held, rds_held in P1, P2. cbn in P1, P2.
  unfold dns_message_reset. rewrite bool_decide_true by done. unfold msgreset.
  set (m1 := msgresetnames msg 0).
  assert (m_sections m1 = replicate DNS_SECTION_MAX []) as S1.
  { unfold m1, msgresetnames. cbn. rewrite M1. done. }
  assert (names_out (m_pools m1) = Z.of_nat (one (m_tsigname msg) + one (m_sig0name msg))) as N1.
  { unfold m1. rewrite resetnames_pools. cbn. rewrite drop_0. lia. }
  assert (rds_out (m_pools m1) = Z.of_nat (one (m_opt msg) + one (m_tsig msg) + one (m_sig0 msg) + one (m_querytsig msg))) as R1.
  { unfold m1. rewrite resetnames_pools. cbn. rewrite drop_0. unfold count_rds. unfold count_rds in P2. lia. }
  assert (∃ m2, msgresetopt m1 = Some m2 ∧ m_sections m2 = m_sections m1 ∧ m_render m2 = m_render msg ∧ m_tsig m2 = m_tsig msg ∧
    m_tsigname m2 = m_tsigname msg ∧ m_sig0 m2 = m_sig0 msg ∧ m_sig0name m2 = m_sig0name msg ∧ m_querytsig m2 = m_querytsig msg ∧
    names_out (m_pools m2) = names_out (m_pools m1) ∧
    rds_out (m_pools m2) = Z.of_nat (one (m_tsig msg) + one (m_sig0 msg) + one (m_querytsig msg))) as
    (m2 & -> & S2 & RE2 & T2 & TN2 & G2 & GN2 & Q2 & N2 & R2).
  { unfold msgresetopt. change (m_opt m1) with (m_opt msg). change (m_render m1) with (m_render msg). rewrite M5.
    rewrite bool_decide_false by lia. destruct (m_opt msg); (eexists; split; [done|]); split_and!; try done; cbn in *; lia. }
  cbn [mbind option_bind].
  assert (∃ m3, msgresetsigs m2 false = Some m3 ∧ m_sections m3 = m_sections m1 ∧
    names_out (m_pools m3) = 0%Z ∧ rds_out (m_pools m3) = 0%Z) as (m3 & -> & S3 & N3 & R3).
  { unfold msgresetsigs. rewrite RE2, M6, bool_decide_false by lia. cbn [mbind option_bind]. rewrite T2, Q2, TN2.
    rewrite N1 in N2. destruct (m_tsig msg), (m_tsigname msg), (m_querytsig msg), (m_sig0 msg) eqn:Eg, (m_sig0name msg); try done;
      cbn in *; rewrite ?TN2; cbn; rewrite ?G2; cbn; rewrite ?GN2; (eexists; split; [done|]); (split; [done|]); cbn; lia. }
  cbn [mbind option_bind]. cbn. rewrite N3, R3, bool_decide_true by done. cbn [mbind option_bind]. eexists. split; [done|].
  split; try done. cbn. by rewrite S3.
Qed.

(** ** The whole message *)

Definition clean msg : Prop := msg_ok msg ∧ pools_ok msg false false.

Lemma clean_start msg pos : clean msg → pos <= length source → parse_ok (Parsing msg pos false false false).
Proof. intros [? ?] ?. by split. Qed.

(** The outcome of a part: it is done, or there is an error. *)
Definition part (x : option (isc_result * message rdatalist * nat)) (R : message rdatalist → nat → Prop) : Prop :=
  ∃ r m p, x = Some (r, m, p) ∧ clean m ∧ p <= length source ∧
    (r = ISC_R_SUCCESS ∧ R m p ∨ r ≠ ISC_R_SUCCESS ∧ r ≠ DNS_R_RECOVERABLE ∧ ¬ fine).

Lemma getquestions_ok msg pos n :
  clean msg → pos <= length source → asked_ok [] msg → m_counts msg !! 0 = Some (Z.of_nat n) →
  (fine → ∃ l p', length l = n ∧ chain question_here pos l p' ∧ p' <= length source ∧ compatible_all [] l) →
  part (getquestions mem_get source dctx options msg pos) (λ m p, ∃ qs, length qs = n ∧ chain question_here pos qs p ∧
    compatible_all [] qs ∧ held msg m ∧ asked_ok qs m ∧ m_sections m = <[0 := asked qs]> (m_sections msg)).
Proof.
  intros Hc Hpos Hask Hn Hf. unfold getquestions. change (m_counts msg !! DNS_SECTION_QUESTION) with (m_counts msg !! 0).
  rewrite Hn. cbn [mbind option_bind]. rewrite Nat2Z.id.
  destruct (run_ok (questions_loop mem_get source dctx options n) msg pos (λ s, ∃ qs, length qs = n ∧ chain question_here pos qs (p_pos s) ∧
    compatible_all [] qs ∧ held msg (p_msg s) ∧ asked_ok qs (p_msg s) ∧ m_sections (p_msg s) = <[0 := asked qs]> (m_sections msg)))
    as (r & m & p & E & Hm & Hp & Hl & HR).
  - apply (wp_questions_loop n []); [by apply clean_start|done..|]. intros l s' L1 L2 L3 L4 L5 L6 L7 L8 L9 L10.
    split_and!; [done..|]. by exists l.
  - exists r, m, p. split_and!; try done.
Qed.

Lemma getsection_ok sec msg pos n :
  clean msg → pos <= length source → sec < 4 → m_counts msg !! sec = Some (Z.of_nat n) → m_tsig msg = None → m_sig0 msg = None →
  (fine → updates (Parsing msg pos false false false) = false ∧ option_set options DNS_MESSAGEPARSE_PRESERVEORDER = false ∧
     m_state msg ≠ DNS_SECTION_ANY ∧ ∃ rs p' section, length rs = n ∧ chain record_here pos rs p' ∧
       m_sections msg !! sec = Some section ∧ distinct section ∧ plain_all (m_rdclass msg) section rs) →
  part (getsection mem_get source dctx options sec msg pos)
    (λ m p, sectioned sec n (Parsing msg pos false false false) (Parsing m p false false false)).
Proof.
  intros Hc Hpos Hsec Hn Htsig Hsig0 Hf. unfold getsection. rewrite Hn. cbn [mbind option_bind]. rewrite Nat2Z.id.
  destruct (run_ok (section_loop mem_get source dctx options sec n) msg pos
    (sectioned sec n (Parsing msg pos false false false))) as (r & m & p & E & Hm & Hp & Hl & HR).
  - apply (wp_section_loop sec n); [by apply clean_start|done..|]. intros s' Hs. pose proof Hs as []. by split_and!.
  - by exists r, m, p.
Qed.


Lemma chain_app {A} (R : nat → A → nat → Prop) p l1 l2 p' :
  chain R p (l1 ++ l2) p' ↔ ∃ q, chain R p l1 q ∧ chain R q l2 p'.
Proof.
  revert p. induction l1 as [|x l1 IH]; intros p; cbn.
  - split; [intros ?; by exists p|by intros (? & -> & ?)].
  - setoid_rewrite IH. naive_solver.
Qed.

(** The sections with the records read. *)
Definition put_sections (secs : list nat) (rss : list (list record)) (l : list (list (mname rdatalist))) :=
  foldl (λ l '(sec, rs), <[sec := gather (together rs)]> l) l (zip secs rss).

(** What is left to read, if no error is expected. *)
Definition sections_plain msg (pos : nat) (secs : list nat) : Prop :=
  opcode (m_header msg) ≠ dns_opcode_update ∧ option_set options DNS_MESSAGEPARSE_PRESERVEORDER = false ∧
  m_state msg ≠ DNS_SECTION_ANY ∧ ∃ rss p', Forall2 (λ sec rs, m_counts msg !! sec = Some (Z.of_nat (length rs))) secs rss ∧
    chain record_here pos (mjoin rss) p' ∧ Forall (plain_all (m_rdclass msg) []) rss.

Record sections_read msg (pos : nat) (secs : list nat) msg' : Prop := SectionsRead {
  sr_counts : m_counts msg' = m_counts msg; sr_query : m_querytsig msg' = m_querytsig msg;
  sr_intent : m_intent msg' = m_intent msg;
  sr_class : m_state msg ≠ DNS_SECTION_ANY → m_state msg' = m_state msg ∧ m_rdclass msg' = m_rdclass msg;
  sr_opcode : opcode (m_header msg') = opcode (m_header msg);
  sr_records : opcode (m_header msg) ≠ dns_opcode_update → ∃ rss p',
    Forall2 (λ sec rs, m_counts msg !! sec = Some (Z.of_nat (length rs))) secs rss ∧ chain record_at pos (mjoin rss) p' ∧
    p' <= length source ∧ Forall (Forall (λ r, dname_ok (rec_name r))) rss ∧
    (Forall (λ r, rd_type (rec_rdata r) ≠ dns_rdatatype_opt) (mjoin rss) → m_header msg' = m_header msg) ∧
    m_opt msg' = opt_of (m_opt msg) (mjoin rss) ∧
    (option_set options DNS_MESSAGEPARSE_PRESERVEORDER = false →
       m_sections msg' = put_sections secs rss (m_sections msg)) }.

Lemma opt_of_app o rs1 rs2 : opt_of o (rs1 ++ rs2) = opt_of (opt_of o rs1) rs2.
Proof. unfold opt_of. by rewrite foldl_app. Qed.

Lemma chain_det p rs1 rs2 p1 p2 :
  length rs1 = length rs2 → chain record_at p rs1 p1 → chain record_here p rs2 p2 → rs2 = rs1 ∧ p2 = p1.
Proof.
  revert p rs2. induction rs1 as [|r1 rs1 IH]; intros p [|r2 rs2] Hl; try done; cbn.
  - by intros -> ->.
  - intros (q1 & H1' & Hc1) (q2 & H2' & Hc2). destruct (record_det _ _ _ _ _ H1' H2') as [-> ->].
    destruct (IH q1 rs2) as [-> ->]; [by injection Hl|done..].
Qed.

Lemma sections_ok secs msg pos :
  clean msg → pos <= length source → StronglySorted lt secs → Forall (λ sec, 1 <= sec < 4) secs →
  Forall (λ sec, is_Some (m_counts msg !! sec)) secs →
  (opcode (m_header msg) ≠ dns_opcode_update → option_set options DNS_MESSAGEPARSE_PRESERVEORDER = false →
     Forall (λ sec, m_sections msg !! sec = Some []) secs) →
  Forall (λ c, 0 <= c)%Z (m_counts msg) →
  m_tsig msg = None → m_sig0 msg = None → (fine → sections_plain msg pos secs) →
  ∃ r m, parse_sections mem_get source options dctx secs msg pos false = Some (r, false, m) ∧ clean m ∧
    (r = ISC_R_SUCCESS ∧ sections_read msg pos secs m ∨ r ≠ ISC_R_SUCCESS ∧ r ≠ DNS_R_RECOVERABLE ∧ ¬ fine).
Proof.
  revert msg pos. induction secs as [|sec secs IH]; intros msg pos Hc Hpos Hsorted Hr Hcs Hempty Hz Htsig Hsig0 Hf; cbn [parse_sections].
  { eexists _, _. split; [done|]. split; [done|left]. split; [done|]. split; try done. intros _. exists [], pos. by split_and!. }
  apply Forall_cons in Hr as [Hr Hrs], Hcs as [[count Hcount] Hcs].
  apply StronglySorted_inv in Hsorted as [Hsorted Hlt].
  rewrite bool_decide_false by (unfold DNS_SECTION_QUESTION; lia).
  pose proof (Forall_lookup_1 _ _ _ _ Hz Hcount) as Hcz. cbn in Hcz.
  destruct (getsection_ok sec msg pos (Z.to_nat count)) as (r & m & p & E & Hcm & Hp & Hres); [done|done|lia|by rewrite Z2Nat.id|done|done| |].
  { intros (Hu & Hpr & Hst & rss & p' & Hcnt & Hch & Hpl)%Hf. split; [by apply bool_decide_eq_false|]. split_and!; [done..|].
    destruct rss as [|rs rss]; [by apply Forall2_length in Hcnt|]. apply Forall2_cons in Hcnt as [Hcn Hcnt].
    specialize (Hempty Hu Hpr). apply Forall_cons in Hempty as [He _].
    cbn in Hch. apply chain_app in Hch as (q & Hch1 & Hch2). apply Forall_cons in Hpl as [Hpl1 Hpl].
    exists rs, q, []. rewrite Hcount in Hcn. injection Hcn as ->. rewrite Nat2Z.id. by split_and!. }
  rewrite E. cbn [mbind option_bind].
  destruct Hres as [[-> Hsc]|(Hr1 & Hr2 & Hnf)].
  2:{ rewrite bool_decide_true by done. eexists _, _. split; [done|]. split; [done|by right]. }
  rewrite (bool_decide_false (_ ∧ _)) by (by intros [? _]). rewrite (bool_decide_false (_ = DNS_R_RECOVERABLE)) by done. cbn [orb].
  destruct Hsc as [C1 C2 C3 C4 C5 C6 C7 C8 C9 C10 C11]. cbn [p_msg p_pos] in *.
  unfold updates in C11. cbn [p_msg] in C11.
  assert (opcode (m_header msg) ≠ dns_opcode_update → option_set options DNS_MESSAGEPARSE_PRESERVEORDER = false →
    ∃ rs, length rs = Z.to_nat count ∧ chain record_at pos rs p ∧ m_sections m = <[sec := gather (together rs)]> (m_sections msg)) as Hplain.
  { intros Hu Hpr. destruct C11 as (rs & R1 & R2 & R3 & R4 & R5 & R6); [by apply bool_decide_false|]. exists rs. split_and!; try done.
    specialize (Hempty Hu Hpr). apply Forall_cons in Hempty as [He _].
    rewrite (R6 Hpr [] He); [done|]. apply distinct_nil. }
  destruct secs as [|sec2 secs].
  { cbn [parse_sections]. eexists _, _. split; [done|]. split; [done|left]. split; [done|]. split; try done.
    intros Hu. destruct C11 as (rs & R1 & R2 & R3 & R4 & R5 & R6); [by apply bool_decide_false|]. exists [rs], p.
    cbn [mjoin list_join]. rewrite app_nil_r. split_and!; try done.
    - constructor; [|constructor]. by rewrite R1, Z2Nat.id.
    - by repeat constructor.
    - intros Hpr. specialize (Hempty Hu Hpr). apply Forall_cons in Hempty as [He _].
      rewrite (R6 Hpr [] He); [done|]. apply distinct_nil. }
  assert (sec ≠ DNS_SECTION_ADDITIONAL) as Hnadd.
  { apply Forall_cons in Hlt as [Hlt _], Hrs as [Hr2 _]. unfold DNS_SECTION_ADDITIONAL. lia. }
  destruct (C10 Hnadd) as [T1 T2].
  assert (opcode (m_header msg) ≠ dns_opcode_update → option_set options DNS_MESSAGEPARSE_PRESERVEORDER = false →
    m_sections msg !! sec = Some []) as Hemp by (intros Hu Hpr; specialize (Hempty Hu Hpr); by apply Forall_cons in Hempty as [He _]).
  destruct (IH m p Hcm Hp Hsorted Hrs) as (r & m' & Ers & Hc' & Hr'); rewrite ?C4; try done.
  - rewrite C9. intros Hu Hpr. destruct (Hplain Hu Hpr) as (rs & _ & _ & ->). specialize (Hempty Hu Hpr).
    apply Forall_cons in Hempty as [_ Hes]. rewrite Forall_forall in *. intros sec' Hin.
    rewrite list_lookup_insert_ne; [by apply Hes|]. specialize (Hlt sec' Hin). lia.
  - intros (Hu & Hpr & Hst & rss & p' & Hcnt & Hch & Hpl)%Hf. destruct (Hplain Hu Hpr) as (rs & Hl & Hch1 & Hsec).
    apply Forall2_cons_inv_l in Hcnt as (rs' & rss' & Hcn & Hcnt & ->). cbn in Hch. apply chain_app in Hch as (q & Hch1' & Hch2).
    apply Forall_cons in Hpl as [_ Hpl]. rewrite Hcount in Hcn. injection Hcn as ->. rewrite Nat2Z.id in Hl.
    destruct (chain_det _ _ _ _ _ Hl Hch1 Hch1') as [-> ->]. destruct (C8 Hst) as [S1 S2].
    unfold sections_plain. rewrite C9, C4, S1, S2. split_and!; [done..|]. by exists rss', p'.
  - exists r, m'. split; [exact Ers|]. split; [done|]. destruct Hr' as [[-> Hrd]|Hbad]; [left; split; [done|]|by right].
    destruct Hrd as [D1 D2 D3 D4 D5 D6]. split; try congruence.
    + intros Hst. destruct (C8 Hst) as [S1 S2]. rewrite <- S1, <- S2. apply D4. congruence.
    + intros Hu. destruct D6 as (rss & p' & X1 & X2 & X3 & X4 & X5 & X6 & X7); [by rewrite C9|].
      destruct C11 as (rs & R1 & R2 & R3 & R4 & R5 & R6); [by apply bool_decide_false|]. exists (rs :: rss), p'.
      rewrite C4 in X1. split_and!.
      * constructor; [|done]. by rewrite R1, Z2Nat.id.
      * cbn. apply chain_app. by exists p.
      * done.
      * by constructor.
      * cbn. intros [Ho1 Ho2]%Forall_app. by rewrite X5, R4.
      * cbn. by rewrite opt_of_app, X6, R5.
      * intros Hpr. rewrite (X7 Hpr), (R6 Hpr [] (Hemp Hu Hpr)); [done|apply distinct_nil].
Qed.
End Spec.

(** ** [dns_message_parse] *)

(** The context of [dns_message_parse]. *)
Definition parse_dctx : decompress :=
  dns_decompress_setmethods (dns_decompress_init (-1) DNS_DECOMPRESS_ANY) DNS_COMPRESS_GLOBAL14.

Section Message.
Context (mem_get : nat → bool) `{FromwireOk, RdataTypes} (source : mem) (Hsrc : bytes_ok source).
Context (options : Z) (Hbest : option_set options DNS_MESSAGEPARSE_BESTEFFORT = false).
Implicit Types (msg : message rdatalist).

(** The header and the counts of the sections. *)
Definition header_here (pos : nat) (h : header) (counts : list Z) : Prop :=
  ∃ i f qd an ns ar, rd16 source pos = Some i ∧ rd16 source (pos + 2) = Some f ∧ rd16 source (pos + 4) = Some qd ∧
    rd16 source (pos + 6) = Some an ∧ rd16 source (pos + 8) = Some ns ∧ rd16 source (pos + 10) = Some ar ∧
    h = Header i (Z.land f DNS_MESSAGE_FLAG_MASK) (Z.land f DNS_MESSAGE_RCODE_MASK)
          (Z.shiftr (Z.land f DNS_MESSAGE_OPCODE_MASK) DNS_MESSAGE_OPCODE_SHIFT) ∧ counts = [qd; an; ns; ar].

(** What the bytes from [pos] on hold: questions and three sections of
    records, each read as [R] says. *)
Definition message_in (R : nat → record → nat → Prop) (pos : nat) (counts : list Z) (qs : list question)
    (an ns ar : list record) : Prop :=
  ∃ p1 p4, counts = [Z.of_nat (length qs); Z.of_nat (length an); Z.of_nat (length ns); Z.of_nat (length ar)] ∧
    chain (question_here source) (pos + DNS_MESSAGE_HEADERLEN) qs p1 ∧ compatible_all [] qs ∧
    chain R p1 (an ++ ns ++ ar) p4 ∧ p4 <= length source.

(** The message that was parsed from there. *)
Definition parsed (pos : nat) msg : Prop :=
  ∃ h, header_here pos h (m_counts msg) ∧ opcode (m_header msg) = opcode h ∧
    (opcode h ≠ dns_opcode_update → ∃ qs an ns ar, message_in (record_at source parse_dctx) pos (m_counts msg) qs an ns ar ∧
       Forall (λ r, dname_ok (rec_name r)) (an ++ ns ++ ar) ∧
       (Forall (λ r, rd_type (rec_rdata r) ≠ dns_rdatatype_opt) (an ++ ns ++ ar) → m_header msg = h) ∧
       m_opt msg = opt_of None (an ++ ns ++ ar) ∧
       (option_set options DNS_MESSAGEPARSE_PRESERVEORDER = false →
          m_sections msg = [asked qs; gather (together an); gather (together ns); gather (together ar)])).

(** Bytes from which no error is expected. *)
Definition well_formed (pos : nat) : Prop :=
  option_set options DNS_MESSAGEPARSE_PRESERVEORDER = false ∧
  ∃ h counts q qs an ns ar, header_here pos h counts ∧ opcode h ≠ dns_opcode_update ∧
    message_in (record_here source parse_dctx) pos counts (q :: qs) an ns ar ∧
    plain_all (q_class q) [] an ∧ plain_all (q_class q) [] ns ∧ plain_all (q_class q) [] ar.

Lemma header_field p : p + 2 <= length source → is_Some (rd16 source p).
Proof.
  intros Hp. unfold rd16. destruct (lookup_lt_is_Some_2 source p) as [x ->]; [lia|].
  destruct (lookup_lt_is_Some_2 source (p + 1)) as [y ->]; [lia|]. by eexists.
Qed.

Lemma parse_header_ok msg pos :
  pos + DNS_MESSAGE_HEADERLEN <= length source →
  ∃ h counts, header_here pos h counts ∧ Forall (λ c, 0 <= c)%Z counts ∧
    parse_header source msg pos = Some (set_ok (set_counts (set_header msg h) counts) true false).
Proof.
  unfold DNS_MESSAGE_HEADERLEN. intros Hp. unfold parse_header.
  destruct (header_field pos) as [i Hi]; [lia|]. destruct (header_field (pos + 2)) as [f Hfl]; [lia|].
  destruct (header_field (pos + 4)) as [qd Hqd]; [lia|]. destruct (header_field (pos + 6)) as [an Han]; [lia|].
  destruct (header_field (pos + 8)) as [ns Hns]; [lia|]. destruct (header_field (pos + 10)) as [ar Har]; [lia|].
  eexists _, _. split; [by exists i, f, qd, an, ns, ar|]. split.
  - repeat constructor; eapply rd16_range; eassumption || exact Hsrc.
  - rewrite Hi, Hfl, Hqd, Han, Hns, Har. done.
Qed.

Lemma header_det pos h h' cs cs' : header_here pos h cs → header_here pos h' cs' → h' = h ∧ cs' = cs.
Proof.
  intros (i & f & qd & an & ns & ar & H1' & H2' & H3' & H4' & H5' & H6' & -> & ->)
    (i2 & f2 & qd2 & an2 & ns2 & ar2 & I1 & I2 & I3 & I4 & I5 & I6 & -> & ->). by simplify_eq.
Qed.

Lemma chain_bound {A} (R : nat → A → nat → Prop) p l p' :
  (∀ p x q, R p x q → p <= q) → chain R p l p' → p <= p'.
Proof.
  intros HR. revert p. induction l as [|x l IH]; intros p; cbn; [lia|]. intros (q & Hq%HR & Hc%IH). lia.
Qed.

Lemma record_forward p r p' : record_here source parse_dctx p r p' → p <= p'.
Proof. intros (k & len & _ & _ & -> & _). lia. Qed.

(** The sections behind the header. *)
Lemma body_outcome (fine : Prop) msg pos counts :
  (fine → ∀ k, mem_get k = true) → clean msg → pos + DNS_MESSAGE_HEADERLEN <= length source → m_counts msg = counts →
  Forall (λ c, 0 <= c)%Z counts → length counts = 4 → m_sections msg = replicate DNS_SECTION_MAX [] →
  m_state msg = DNS_SECTION_ANY → m_tsig msg = None → m_sig0 msg = None → m_opt msg = None →
  (fine → option_set options DNS_MESSAGEPARSE_PRESERVEORDER = false ∧ opcode (m_header msg) ≠ dns_opcode_update ∧
     ∃ q qs an ns ar, message_in (record_here source parse_dctx) pos counts (q :: qs) an ns ar ∧
       plain_all (q_class q) [] an ∧ plain_all (q_class q) [] ns ∧ plain_all (q_class q) [] ar) →
  ∃ r m, parse_sections mem_get source options parse_dctx
      [DNS_SECTION_QUESTION; DNS_SECTION_ANSWER; DNS_SECTION_AUTHORITY; DNS_SECTION_ADDITIONAL]
      msg (pos + DNS_MESSAGE_HEADERLEN) false = Some (r, false, m) ∧ clean m ∧
    (r = ISC_R_SUCCESS ∧ m_counts m = counts ∧ opcode (m_header m) = opcode (m_header msg) ∧
       (opcode (m_header msg) ≠ dns_opcode_update → ∃ qs an ns ar,
          message_in (record_at source parse_dctx) pos counts qs an ns ar ∧
          Forall (λ r, dname_ok (rec_name r)) (an ++ ns ++ ar) ∧
          (Forall (λ r, rd_type (rec_rdata r) ≠ dns_rdatatype_opt) (an ++ ns ++ ar) → m_header m = m_header msg) ∧
          m_opt m = opt_of None (an ++ ns ++ ar) ∧
          (option_set options DNS_MESSAGEPARSE_PRESERVEORDER = false →
             m_sections m = [asked qs; gather (together an); gather (together ns); gather (together ar)])) ∨
     r ≠ ISC_R_SUCCESS ∧ r ≠ DNS_R_RECOVERABLE ∧ ¬ fine).
Proof.
  intros Hmem Hclean Hpos Hcounts Hz Hlen Hsec Hst Htsig Hsig0 Hopt Hf.
  destruct counts as [|qd [|an [|ns [|ar [|]]]]]; try done.
  assert (0 <= qd)%Z as Hqd by (by apply Forall_inv in Hz).
  destruct (getquestions_ok mem_get source Hsrc options Hbest parse_dctx eq_refl fine Hmem msg (pos + DNS_MESSAGE_HEADERLEN) (Z.to_nat qd))
    as (r & m & p & E & Hcm & Hp & Hres); [done|done| | | |].
  { split; [by rewrite Hsec|by rewrite Hst|by intros ? ?%elem_of_nil]. }
  { by rewrite Hcounts, Z2Nat.id. }
  { intros (_ & _ & q & qs & ans & nss & ars & (p1 & p4 & Hcs & Hq & Hcomp & Hr & Hp4) & _)%Hf. exists (q :: qs), p1.
    assert (qd = Z.of_nat (length (q :: qs))) as -> by congruence. split_and!; [by rewrite Nat2Z.id|done| |done]. apply chain_bound in Hr; [lia|apply record_forward]. }
  remember [DNS_SECTION_ANSWER; DNS_SECTION_AUTHORITY; DNS_SECTION_ADDITIONAL] as secs eqn:Esecs.
  cbn [parse_sections]. rewrite (bool_decide_true (_ = DNS_SECTION_QUESTION)) by done. rewrite E. cbn [mbind option_bind].
  destruct Hres as [[-> (qs & Q1 & Q2 & Q3 & Q4 & Q5 & Q6)]|(R1 & R2 & Hnf)].
  2:{ rewrite bool_decide_true by done. eexists _, _. split; [done|]. split; [done|by right]. }
  rewrite (bool_decide_false (_ ∧ _)) by (by intros [? _]). rewrite (bool_decide_false (_ = DNS_R_RECOVERABLE)) by done. cbn [orb].
  subst secs.
  assert (clean (set_ok m true true)) as Hcm2 by (by destruct Hcm as [[] []]).
  assert (m_counts m = [qd; an; ns; ar]) as Hcm3 by (by rewrite (he_counts _ _ Q4)).
  destruct (sections_ok mem_get source Hsrc options Hbest parse_dctx eq_refl fine Hmem
    [DNS_SECTION_ANSWER; DNS_SECTION_AUTHORITY; DNS_SECTION_ADDITIONAL] (set_ok m true true) p) as (r & m' & Er & Hcm' & Hr').
  - done.
  - done.
  - repeat constructor.
  - repeat constructor.
  - cbn [set_ok m_counts]. rewrite Hcm3. repeat constructor; by eexists.
  - intros _ _. cbn [set_ok m_sections]. rewrite Q6, Hsec. repeat constructor.
  - cbn [set_ok m_counts]. by rewrite Hcm3.
  - cbn [set_ok m_tsig]. by rewrite (he_tsig _ _ Q4).
  - cbn [set_ok m_sig0]. by rewrite (he_sig0 _ _ Q4).
  - intros (Hpr & Hu & q & qs' & ans & nss & ars & (p1 & p4 & Hcs & Hq & Hcomp & Hch & Hp4) & Hp1 & Hp2 & Hp3)%Hf.
    assert (qd = Z.of_nat (length (q :: qs'))) as -> by congruence. assert (an = Z.of_nat (length ans)) as -> by congruence.
    assert (ns = Z.of_nat (length nss)) as -> by congruence. assert (ar = Z.of_nat (length ars)) as -> by congruence.
    assert (q :: qs' = qs ∧ p1 = p) as [<- <-].
    { clear -Q1 Q2 Hq. rewrite Nat2Z.id in Q1. revert Q1 Q2 Hq. generalize (pos + DNS_MESSAGE_HEADERLEN). intros b Q1 Q2 Hq.
      assert (length qs = length (q :: qs')) as Hl by (rewrite Q1; cbn; lia). clear Q1. revert Hl Q2 Hq. generalize (q :: qs'). intros l.
      revert b l. induction qs as [|x qs IH]; intros b [|y l] Hl; try done; cbn.
      - by intros -> ->.
      - intros (b1 & B1 & B2) (b2 & B3 & B4). destruct (question_det _ _ _ _ _ _ B1 B3) as [-> ->].
        destruct (IH b1 l) as [-> ->]; [by injection Hl|done..]. }
    destruct Q5 as [A1 A2 A3]. unfold sections_plain. cbn [set_ok m_header m_state m_counts m_rdclass].
    rewrite (he_header _ _ Q4), Hcm3, A2, <- (A3 q) by left. rewrite bool_decide_false by done. split_and!; [done..|].
    exists [ans; nss; ars], p4. cbn [mjoin list_join]. rewrite app_nil_r. split_and!; [|done|by repeat constructor].
    repeat constructor.
  - eexists _, _. split; [exact Er|]. split; [done|]. destruct Hr' as [[-> [S1 S2 S3 S4 S5 S6]]|?]; [left|by right].
    cbn [set_ok m_header m_counts m_sections m_opt m_state] in *. rewrite (he_header _ _ Q4) in *. split_and!; [done|by rewrite S1|done|].
    intros Hu. destruct (S6 Hu) as (rss & p' & X1 & X2 & X3 & X4 & X5 & X6 & X7). rewrite Hcm3 in X1.
    apply Forall2_cons_inv_l in X1 as (ans & rss1 & N1 & X1 & ->). apply Forall2_cons_inv_l in X1 as (nss & rss2 & N2 & X1 & ->).
    apply Forall2_cons_inv_l in X1 as (ars & rss3 & N3 & X1 & ->). apply Forall2_nil_inv_l in X1 as ->.
    cbn [mjoin list_join] in *. rewrite app_nil_r in *. cbn in N1, N2, N3. injection N1 as ->. injection N2 as ->. injection N3 as ->.
    exists qs, ans, nss, ars. split_and!.
    + exists p, p'. split_and!; try done. by rewrite Q1, Z2Nat.id.
    + apply Forall_cons in X4 as [Y1 X4]. apply Forall_cons in X4 as [Y2 X4]. apply Forall_cons in X4 as [Y3 _].
      apply Forall_app; split; [done|]. by apply Forall_app.
    + done.
    + by rewrite X6, (he_opt _ _ Q4), Hopt.
    + intros Hpr. rewrite (X7 Hpr), Q6, Hsec. done.
Qed.

(** What parsing does, whether or not memory runs out; [fine] tells that
    nothing stands in the way. *)
Lemma parse_outcome (fine : Prop) msg pos :
  (fine → ∀ k, mem_get k = true) → (fine → well_formed pos) → fresh DNS_MESSAGE_INTENTPARSE msg →
  ∃ r m, dns_message_parse mem_get source options msg pos = Some (r, m) ∧ clean m ∧
    (r = ISC_R_SUCCESS → parsed pos m) ∧ (fine → r = ISC_R_SUCCESS).
Proof.
  intros Hmem Hf Hfresh. pose proof (fresh_ok _ _ Hfresh) as Hclean. unfold dns_message_parse.
  rewrite bool_decide_true by apply (fs_intent _ _ Hfresh). case_bool_decide as Hshort.
  { eexists _, _. split; [done|]. split_and!; [by destruct Hclean as [[] []]|done|].
    intros (_ & h & counts & _ & _ & _ & _ & _ & (i & f & qd & an & ns & ar & _ & _ & _ & _ & _ & Har & _) & _)%Hf. exfalso.
    unfold rd16 in Har. destruct (source !! (pos + 10)); [|done]. destruct (source !! (pos + 10 + 1)) eqn:E; [|done].
    apply lookup_lt_Some in E. unfold DNS_MESSAGE_HEADERLEN in Hshort. lia. }
  assert (pos + DNS_MESSAGE_HEADERLEN <= length source) as Hpos by (unfold DNS_MESSAGE_HEADERLEN in *; lia).
  destruct (parse_header_ok (set_ok msg false false) pos Hpos) as (h & counts & Hh & Hz & ->). cbn [mbind option_bind].
  fold parse_dctx. set (msg1 := set_ok (set_counts _ counts) true false).
  destruct (body_outcome fine msg1 pos counts Hmem) as (r & m & E & Hcm & Hres); try done; try apply Hfresh.
  - by destruct Hclean as [[] []].
  - by destruct Hh as (? & ? & ? & ? & ? & ? & _ & _ & _ & _ & _ & _ & _ & ->).
  - intros (Hpr & h' & counts' & q & qs & an & ns & ar & Hh' & Hu & Hin & Hpl)%Hf.
    destruct (header_det _ _ _ _ _ Hh Hh') as [-> ->]. split_and!; [done..|]. by exists q, qs, an, ns, ar.
  - rewrite E. cbn [mbind option_bind]. destruct Hres as [(-> & Hc & Hop & Hrest)|(R1 & R2 & Hnf)].
    + rewrite (bool_decide_false (_ ≠ _)), (bool_decide_false (_ = ISC_R_UNEXPECTEDEND)) by auto. cbn [negb andb orb mbind option_bind].
      destruct (option_set options DNS_MESSAGEPARSE_CLONEBUFFER) eqn:Ecl.
      * destruct (ask mem_get m) as [ok m'] eqn:Ea. unfold ask in Ea. injection Ea as Eok Em.
        assert (clean m') as Hcm' by (rewrite <- Em; by destruct Hcm as [[] []]).
        assert (∀ b, clean (set_saved m' (Some source) b)) as Hcms by (intros b; by destruct Hcm' as [[] []]).
        destruct ok; cbn [mbind option_bind negb].
        -- eexists _, _. split; [done|]. split_and!; [done| |done]. intros _. exists h. rewrite <- Em. cbn. by rewrite Hc.
        -- eexists _, _. split; [done|]. split_and!; [done|done|]. intros Hfine. by rewrite (Hmem Hfine) in Eok.
      * cbn [mbind option_bind negb]. eexists _, _. split; [done|]. split_and!; [by destruct Hcm as [[] []]| |done].
        intros _. exists h. cbn. by rewrite Hc.
    + rewrite (bool_decide_true (r ≠ _)) by done.
      destruct (bool_decide (r = ISC_R_UNEXPECTEDEND) && ignore_tc options); cbn [negb andb].
      * destruct (option_set options DNS_MESSAGEPARSE_CLONEBUFFER).
        -- destruct (ask mem_get m) as [ok m'] eqn:Ea. unfold ask in Ea. injection Ea as Eok Em.
           assert (clean m') as Hcm' by (rewrite <- Em; by destruct Hcm as [[] []]).
           destruct ok; cbn [mbind option_bind negb orb]; (eexists _, _; split; [done|]; split_and!; [|done|by intros ?%Hnf]);
             by destruct Hcm' as [[] []].
        -- cbn [mbind option_bind negb orb]. eexists _, _. split; [done|]. split_and!; [|done|by intros ?%Hnf]. by destruct Hcm as [[] []].
      * eexists _, _. split; [done|]. split_and!; [done| |by intros ?%Hnf]. intros ->. done.
Qed.

(** C21: [dns_message_parse] on any bytes that anyone may have sent, and with
    memory that may run out at any request, unless it is asked for its best
    effort: into a fresh message it ends without a failed assertion or a read
    beyond the message. Whatever its result, the message has given out
    exactly the names and rdatasets that it refers to, so that
    [dns_message_reset] succeeds (which asserts it) and gives a fresh message
    again. *)
Theorem parse_safe msg pos :
  fresh DNS_MESSAGE_INTENTPARSE msg →
  ∃ r m, dns_message_parse mem_get source options msg pos = Some (r, m) ∧ msg_ok m ∧
    ∀ intent, intent = DNS_MESSAGE_INTENTPARSE ∨ intent = DNS_MESSAGE_INTENTRENDER →
      ∃ m', dns_message_reset m intent = Some m' ∧ fresh intent m'.
Proof.
  intros Hf. destruct (parse_outcome False msg pos) as (r & m & E & [Hm Hp] & _); [done..|].
  exists r, m. split_and!; [done..|]. intros intent Hi. by apply (reset_fresh m intent).
Qed.

(** C22: What a message holds when [dns_message_parse] succeeds, for opcodes
    other than UPDATE and without preserved order. The bytes are a header,
    questions and records as counted there; the question section has one
    name, with one class and each type once. In each of the sections of
    records no name occurs twice (up to case) and no name has two rdatasets
    of the same class, type and covered type; and for any name and key the
    rdataset there has exactly the records of that owner and key in the
    bytes (OPT, TSIG and SIG(0) apart), in order, with the least of their
    TTLs. *)
Theorem parse_gathers msg pos m :
  fresh DNS_MESSAGE_INTENTPARSE msg → dns_message_parse mem_get source options msg pos = Some (ISC_R_SUCCESS, m) →
  opcode (m_header m) ≠ dns_opcode_update → option_set options DNS_MESSAGEPARSE_PRESERVEORDER = false →
  ∃ qs an ns ar secs, message_in (record_at source parse_dctx) pos (m_counts m) qs an ns ar ∧
    m_sections m = asked qs :: secs ∧ m_opt m = opt_of None (an ++ ns ++ ar) ∧
    Forall2 (λ rs section, distinct section ∧
      ∀ n k, dname_ok n → summary k (filter (λ r, own n k r = true) (together rs)) (rrset_at section n k)) [an; ns; ar] secs.
Proof.
  intros Hf E Hu Hpr. destruct (parse_outcome False msg pos) as (r & m' & E' & _ & Hparsed & _); [done..|].
  rewrite E in E'. injection E' as <- <-. destruct (Hparsed eq_refl) as (h & _ & Hop & Hrest). rewrite Hop in Hu.
  destruct (Hrest Hu) as (qs & an & ns & ar & Hin & Hn & _ & Hopt & Hsec).
  exists qs, an, ns, ar, [gather (together an); gather (together ns); gather (together ar)].
  split_and!; [done|by apply Hsec|done|].
  assert (∀ rs, Forall (λ r, dname_ok (rec_name r)) rs → distinct (gather (together rs)) ∧
    ∀ n k, dname_ok n → summary k (filter (λ r, own n k r = true) (together rs)) (rrset_at (gather (together rs)) n k)) as Hg.
  { intros rs Hrs. assert (Forall (λ r, dname_ok (rec_name r)) (together rs)) as Ht.
    { unfold together. rewrite Forall_forall in *. intros r [_ Hr]%list_elem_of_filter. by apply Hrs. }
    split; [by apply gather_ok|]. intros n k Hnk. by apply gather_summary. }
  apply Forall_app in Hn as [N1 Hn]. apply Forall_app in Hn as [N2 N3].
  repeat constructor; by apply Hg.
Qed.

End Message.

(** ** A dispatch for address records *)

(** Rdata of type A in class IN is read by [fromwire_in_a]; this dispatch has
    no function for other types but those of signatures, which it refuses. *)
Definition only_a_fromwire : FromwireSwitch := λ rdclass type source pos active dctx avail,
  if bool_decide (type = dns_rdatatype_a ∧ rdclass = dns_rdataclass_in)
  then r ← fromwire_in_a rdclass type source pos active avail; Some (Some r)
  else if bool_decide (type = dns_rdatatype_rrsig ∨ type = dns_rdatatype_sig)
  then Some (Some (ISC_R_UNEXPECTED, pos, []))
  else Some None.

Lemma only_a_fromwire_ok : @FromwireOk only_a_fromwire.
Proof.
  split. intros rdclass type source pos len dctx avail Hb Hl _. unfold fromwire_switch, only_a_fromwire.
  case_bool_decide as Ha.
  - unfold fromwire_in_a. rewrite bool_decide_true by done. case_bool_decide; cbn [mbind option_bind].
    { eexists. split; [done|]. split_and!; try done; cbn; lia. }
    case_bool_decide; cbn [mbind option_bind].
    { eexists. split; [done|]. split_and!; try done; cbn; lia. }
    destruct (mread_is_Some source pos 4) as [x Hx]; [lia|]. rewrite Hx. cbn [mbind option_bind]. eexists. split; [done|].
    pose proof (mread_length _ _ _ _ Hx) as Hlen. split_and!; [lia|lia|by eapply mread_bytes_ok|done|].
    intros _ _. lia.
  - case_bool_decide as Hs; eexists; (split; [done|]); [|cbn; tauto]. split_and!; try done; cbn; lia.
Qed.
