(* ===== verification/RenderParse.v ===== *)
(** * A reply, read again

    What [ns_client_send] sends is what [dns_message_parse] reads: the bytes
    of a reply are a message in the sense of [ParseMessage.v] whose questions
    and records are those that were sent, the owners up to case. [region]
    says that all bytes of a part of the message are bytes; [shows] relates
    an entry of a log to a record. *)
From S2P Require Import Prelude Qsort Rdata Name FromWire Compress Slab RbtdbRdataset Order Answer Message Opt MessageRender RenderSpec RenderPlan RenderSection RenderMessage RenderOrder ClientSend SendSpec MessageParse Gather ParseRules RRtypes ParseSpec ParseRecord ParseMessage.

(** ** Bytes *)

Definition region (m : mem) (p q : nat) : Prop := ∀ i, p <= i < q → ∃ c, m !! i = Some c ∧ is_byte c.

Lemma region_app m p q r : region m p q → region m q r → region m p r.
Proof. intros Hp Hq i Hi. destruct (decide (i < q)); [apply Hp|apply Hq]; lia. Qed.

Lemma region_mread m p n x : mread m p n = Some x → bytes_ok x → region m p (p + n).
Proof.
  intros Hr Hx i Hi. pose proof (mread_lookup _ _ _ _ (i - p) Hr ltac:(lia)) as Hl. replace (p + (i - p)) with i in Hl by lia.
  destruct (lookup_lt_is_Some_2 x (i - p)) as [c Hc]; [apply mread_length in Hr; lia|].
  exists c. split; [congruence|]. by eapply Forall_lookup_1.
Qed.

Lemma region_all m : region m 0 (length m) → bytes_ok m.
Proof.
  intros Hm. apply Forall_lookup. intros i c Hc. destruct (Hm i) as (c' & Hc' & Hb); [apply lookup_lt_Some in Hc; lia|]. congruence.
Qed.

Lemma region_one m p c : m !! p = Some c → is_byte c → region m p (S p).
Proof. intros Hc Hb i Hi. exists c. split; [|done]. by replace i with p by lia. Qed.

Lemma enc_label_bytes l : length l <= 63 → bytes_ok l → bytes_ok (enc_label l).
Proof. intros Hl Hb. constructor; [unfold is_byte; lia|done]. Qed.

Lemma wire_at_region g m b p ls k : wire_at g m b p ls k → Forall bytes_ok ls → region m p (p + k).
Proof.
  induction 1 as [b p H0|b p l ls k Hl Hr _ IH|b p hi lo ls k Hg Hhi Hlo Hrg Hby Hq _ IH]; intros Hb.
  - rewrite Nat.add_1_r. by apply (region_one _ _ 0%Z).
  - apply Forall_cons in Hb as [Hbl Hb]. eapply region_app; [eapply (region_mread _ _ _ _ Hr), enc_label_bytes; [lia|done]|].
    rewrite Nat.add_assoc. by apply IH.
  - eapply region_app; [apply (region_one _ _ _ Hhi); unfold is_byte; lia|]. replace (p + 2) with (S (S p)) by lia.
    by apply (region_one _ _ lo).
Qed.

Lemma maptolower_is_byte a b : maptolower a = maptolower b → is_byte b → is_byte a.
Proof. unfold maptolower, is_byte. repeat case_bool_decide; lia. Qed.

Lemma same_labels_bytes ls ls' : same_labels ls ls' → Forall bytes_ok ls → Forall bytes_ok ls'.
Proof.
  unfold same_labels. revert ls'. induction ls as [|l ls IH]; intros [|l' ls'] E; try done; cbn in E.
  intros [Hl Hls]%Forall_cons. injection E as El Els. constructor; [|by apply IH]. clear -El Hl.
  revert l' El. induction Hl as [|a l Ha Hl IH]; intros [|a' l'] El; try done; cbn in El.
  injection El as Ea El. constructor; [by eapply maptolower_is_byte|by apply IH].
Qed.

Lemma labels_bytes ls : bytes_ok (enc_labels ls) → Forall bytes_ok ls.
Proof.
  induction ls as [|l ls IH]; [by constructor|]. rewrite enc_labels_cons. intros [Hl Hls]%Forall_app.
  apply Forall_cons in Hl as [_ Hl]. constructor; [done|by apply IH].
Qed.

Lemma rd16_of m p v x : mread m p 2 = Some (enc16 v) → (0 <= v < 2 ^ 16)%Z → x = v → rd16 m p = Some x.
Proof.
  intros Hr Hv ->. rewrite enc16_arith in Hr. unfold rd16.
  pose proof (mread_lookup _ _ _ _ 0 Hr ltac:(lia)) as L0. pose proof (mread_lookup _ _ _ _ 1 Hr ltac:(lia)) as L1.
  rewrite Nat.add_0_r in L0. rewrite <- L0, <- L1. cbn. by rewrite dec16_enc16.
Qed.

Lemma rd32_of m p v : mread m p 4 = Some (enc32 v) → (0 <= v < 2 ^ 32)%Z → rd32 m p = Some v.
Proof.
  intros Hr Hv. rewrite enc32_arith in Hr. unfold rd32.
  pose proof (mread_lookup _ _ _ _ 0 Hr ltac:(lia)) as L0. pose proof (mread_lookup _ _ _ _ 1 Hr ltac:(lia)) as L1.
  pose proof (mread_lookup _ _ _ _ 2 Hr ltac:(lia)) as L2. pose proof (mread_lookup _ _ _ _ 3 Hr ltac:(lia)) as L3.
  rewrite Nat.add_0_r in L0. rewrite <- L0, <- L1, <- L2, <- L3. cbn. by rewrite dec32_enc32.
Qed.

(** ** From a log to records *)

Section Log.
Context `{TowireOk, FromwireSwitch} `{!Readable}.

(** An entry whose fields have their widths. *)
Record entry_ok (e : entry) : Prop := {
  eo_owner : bytes_ok (ndata (en_owner e));
  eo_type : (0 <= ri_type (en_info e) < 2 ^ 16)%Z;
  eo_class : (0 <= ri_rdclass (en_info e) < 2 ^ 16)%Z;
  eo_ttl : (0 <= ri_ttl (en_info e) < 2 ^ 32)%Z;
  eo_rdata : ∀ rd, en_rd e = Some rd → rdata_wf rd ∧ rd_flags rd = 0%Z ∧ bytes_ok (rd_data rd) ∧
    rd_type rd = ri_type (en_info e) ∧ rd_class rd = ri_rdclass (en_info e) }.

(** The record of an entry: the owner up to case. *)
Definition shows (e : entry) (r : record) : Prop :=
  equal (en_owner e) (rec_name r) = true ∧ rec_ttl r = ri_ttl (en_info e) ∧ en_rd e = Some (rec_rdata r).

Definition asks_for (e : entry) (q : question) : Prop :=
  equal (en_owner e) (q_name q) = true ∧ q_type q = ri_type (en_info e) ∧ q_class q = ri_rdclass (en_info e) ∧ en_rd e = None.

Lemma owner_here m p e ls ls' k :
  entry_ok e → name_ok (en_owner e) ls → same_labels ls ls' → wire_at true m p p ls' k →
  region m p (p + k) ∧ name_at_pos m p (name_of ls') k ∧ equal (en_owner e) (name_of ls') = true.
Proof.
  intros He [Hn Hroot] Hs Hw.
  assert (Forall bytes_ok ls) as Hb by (apply labels_bytes; rewrite <- (nr_data _ _ Hn); apply He).
  pose proof (nr_ok _ _ Hn) as Hl. destruct (same_labels_length _ _ Hs) as [_ Hlen].
  assert (length (enc_labels ls') <= DNS_NAME_MAXWIRE) as Hmax by (rewrite <- Hlen; apply Hl).
  assert (labels_ok ls') as Hl' by (by eapply wire_at_ok).
  split_and!.
  - eapply wire_at_region; [done|]. by eapply same_labels_bytes.
  - by exists ls'.
  - unfold equal. rewrite (name_equal_labels _ _ ls ls'); [by rewrite (bool_decide_true (same_labels _ _)), bool_decide_true|done|by apply name_of_repr|].
    rewrite Hroot. symmetry. by eapply wire_at_root_last.
Qed.

Lemma record_shown m p e ls q :
  entry_ok e → name_ok (en_owner e) ls → rr_here false m p ls (en_info e) (en_rd e) q → is_Some (en_rd e) →
  (Z.of_nat (length m) < 2 ^ 16)%Z → q <= length m →
  region m p q ∧ ∃ r, shows e r ∧ record_here m parse_dctx p r q.
Proof.
  intros He Hn Hr [rd Erd] Hm Hq. rewrite Erd in Hr. destruct Hr as (x & Hren & [(ls' & k & Ha & Hw & -> & Hrd)]).
  destruct (owner_here m p e ls ls' k He Hn Ha Hw) as (Hreg & Hname & Heq).
  destruct (eo_rdata _ He rd Erd) as (Hwf & Hfl & Hb & Ht & Hc).
  assert (bytes_ok x) as Hx by (by eapply renders_bytes).
  assert (Z.of_nat (length x) < 2 ^ 16)%Z as Hxl by lia.
  pose proof (mread_sub _ _ _ _ 0 2 Hrd ltac:(lia)) as R1. pose proof (mread_sub _ _ _ _ 2 2 Hrd ltac:(lia)) as R2.
  pose proof (mread_sub _ _ _ _ 4 4 Hrd ltac:(lia)) as R3. pose proof (mread_sub _ _ _ _ 8 2 Hrd ltac:(lia)) as R4.
  pose proof (mread_sub _ _ _ _ 10 (length x) Hrd ltac:(lia)) as R5.
  change (take 2 (drop 0 _)) with (enc16 (ri_type (en_info e))) in R1.
  change (take 2 (drop 2 _)) with (enc16 (ri_rdclass (en_info e))) in R2.
  change (take 4 (drop 4 _)) with (enc32 (ri_ttl (en_info e))) in R3.
  change (take 2 (drop 8 _)) with (enc16 (Z.of_nat (length x))) in R4.
  change (drop 10 _) with x in R5. rewrite take_ge in R5 by done.
  split.
  - eapply region_app; [exact Hreg|]. rewrite Nat.add_assoc. rewrite <- Nat.add_assoc. eapply region_mread; [exact Hrd|].
    rewrite !Forall_app. auto with bytes.
  - exists (Rec (name_of ls') (ri_ttl (en_info e)) rd). split; [by split_and!|]. exists k, (length x). cbn [rec_name rec_ttl rec_rdata].
    split_and!; [done| |lia|done|].
    + unfold fixed_at. rewrite Ht, Hc. rewrite <- !(Nat.add_assoc (p + k)). cbn [Nat.add]. rewrite Nat.add_0_r in R1. split_and!.
      * by eapply rd16_of; [exact R1|apply He|].
      * by eapply rd16_of; [exact R2|apply He|].
      * apply rd32_of; [exact R3|apply He].
      * eapply rd16_of; [exact R4|lia|done].
    + by apply renders_here.
Qed.

Lemma question_shown m p e ls q :
  entry_ok e → name_ok (en_owner e) ls → rr_here false m p ls (en_info e) (en_rd e) q → en_rd e = None →
  region m p q ∧ ∃ qu, asks_for e qu ∧ question_here m p qu q.
Proof.
  intros He Hn Hr Erd. rewrite Erd in Hr. destruct Hr as (ls' & k & Ha & Hw & -> & Hrd).
  destruct (owner_here m p e ls ls' k He Hn Ha Hw) as (Hreg & Hname & Heq).
  pose proof (mread_sub _ _ _ _ 0 2 Hrd ltac:(lia)) as R1. pose proof (mread_sub _ _ _ _ 2 2 Hrd ltac:(lia)) as R2.
  change (take 2 (drop 0 _)) with (enc16 (ri_type (en_info e))) in R1.
  change (take 2 (drop 2 _)) with (enc16 (ri_rdclass (en_info e))) in R2. rewrite Nat.add_0_r in R1.
  split.
  - eapply region_app; [exact Hreg|]. eapply region_mread; [exact Hrd|]. rewrite !Forall_app. auto with bytes.
  - exists (Question (name_of ls') (ri_type (en_info e)) (ri_rdclass (en_info e))). split; [by split_and!|].
    exists k. split_and!; [done| | |done]; cbn; eapply rd16_of; try done; apply He.
Qed.

(** Records one after the other. *)
Lemma log_forward sens m p log q : log_at sens m p log q → p <= q.
Proof. intros Hl%log_at_size. lia. Qed.

Lemma log_records m p log q :
  log_at false m p log q → Forall entry_ok log → Forall (λ e, is_Some (en_rd e)) log →
  (Z.of_nat (length m) < 2 ^ 16)%Z → q <= length m →
  region m p q ∧ ∃ rs, Forall2 shows log rs ∧ chain (record_here m parse_dctx) p rs q.
Proof.
  intros Hl He Hs Hm Hq. revert p Hl. induction He as [|e log He Hes IH]; intros p; cbn [log_at].
  - intros ->. split; [intros i ?; lia|]. by exists [].
  - apply Forall_cons in Hs as [Hse Hs]. intros (ls & p' & Hn & Hr & Hl).
    destruct (record_shown m p e ls p' He Hn Hr Hse Hm) as [Hreg (r & Hsh & Hre)]; [apply log_forward in Hl; lia|].
    destruct (IH Hs p' Hl) as [Hreg' (rs & Hrs & Hch)]. split; [by eapply region_app|].
    exists (r :: rs). split; [by constructor|by exists p'].
Qed.

Lemma log_at_split sens m p log1 log2 q :
  log_at sens m p (log1 ++ log2) q → ∃ r, log_at sens m p log1 r ∧ log_at sens m r log2 q.
Proof.
  revert p. induction log1 as [|e log1 IH]; intros p; [by exists p|]. intros (ls & p' & Hn & Hr & (r & Ha & Hb)%IH).
  exists r. split; [by exists ls, p'|done].
Qed.
End Log.

Lemma question_chain_det m p qs1 qs2 p1 p2 :
  length qs1 = length qs2 → chain (question_here m) p qs1 p1 → chain (question_here m) p qs2 p2 → qs2 = qs1 ∧ p2 = p1.
Proof.
  revert p qs2. induction qs1 as [|r1 qs1 IH]; intros p [|r2 qs2] Hl; try done; cbn.
  - by intros -> ->.
  - intros (q1 & H1' & Hc1) (q2 & H2' & Hc2). destruct (question_det _ _ _ _ _ _ H1' H2') as [-> ->].
    destruct (IH q1 qs2) as [-> ->]; [by injection Hl|done..].
Qed.

Lemma plain_no_opt `{RdataTypes} cl section rs : plain_all cl section rs → Forall (λ r, rd_type (rec_rdata r) ≠ dns_rdatatype_opt) rs.
Proof.
  revert section. induction rs as [|r rs IH]; intros section; [constructor|]. intros [(_ & Ht & _) Hrs]. constructor; [|by eapply IH].
  intros E. rewrite E in Ht. apply Ht. set_solver +.
Qed.

(** ** The header *)

(** The flags as they are read: [DNS_MESSAGE_FLAG_MASK] has one of the bits of
    the opcode. *)
Definition header_read (h : header) : header :=
  Header (u16 (id h)) (Z.lor (Z.land (Z.shiftl (opcode h) DNS_MESSAGE_OPCODE_SHIFT) (Z.land DNS_MESSAGE_OPCODE_MASK DNS_MESSAGE_FLAG_MASK))
                             (Z.land (flags h) DNS_MESSAGE_FLAG_MASK))
    (Z.land (rcode h) DNS_MESSAGE_RCODE_MASK) (opcode h).

(** The bit of the flags that is the opcode's. *)
Definition OPCODE_FLAG : Z := Z.land DNS_MESSAGE_OPCODE_MASK DNS_MESSAGE_FLAG_MASK.

Lemma land_u16 x mask : Z.land mask (Z.ones 16) = mask → Z.land (u16 x) mask = Z.land x mask.
Proof.
  intros Hm. unfold u16. change (2 ^ 16)%Z with (2 ^ (16))%Z. by rewrite <- (Z.land_ones x 16), <- Z.land_assoc, (Z.land_comm (Z.ones 16)), Hm by lia.
Qed.

Lemma header_flags_fields h :
  (0 <= opcode h < 16)%Z → Z.land (flags h) OPCODE_FLAG = 0%Z →
  Header (u16 (id h)) (Z.land (header_flags h) DNS_MESSAGE_FLAG_MASK) (Z.land (header_flags h) DNS_MESSAGE_RCODE_MASK)
    (Z.shiftr (Z.land (header_flags h) DNS_MESSAGE_OPCODE_MASK) DNS_MESSAGE_OPCODE_SHIFT) = header_read h.
Proof.
  intros Hop Hf. unfold header_flags, header_read. rewrite !land_u16, !Z.land_lor_distr_l, <- !Z.land_assoc by done. f_equal.
  - change (Z.land DNS_MESSAGE_RCODE_MASK DNS_MESSAGE_FLAG_MASK) with 0%Z.
    by rewrite Z.land_0_r, Z.lor_0_r, (Z.land_diag DNS_MESSAGE_FLAG_MASK).
  - change (Z.land DNS_MESSAGE_OPCODE_MASK DNS_MESSAGE_RCODE_MASK) with 0%Z.
    change (Z.land DNS_MESSAGE_FLAG_MASK DNS_MESSAGE_RCODE_MASK) with 0%Z. by rewrite !Z.land_0_r, Z.lor_0_r, Z.land_diag.
  - change (Z.land DNS_MESSAGE_RCODE_MASK DNS_MESSAGE_OPCODE_MASK) with 0%Z.
    rewrite (Z.land_comm DNS_MESSAGE_FLAG_MASK). fold OPCODE_FLAG. rewrite Hf, Z.land_0_r, !Z.lor_0_r, Z.land_diag, Z.shiftr_land.
    unfold DNS_MESSAGE_OPCODE_SHIFT. rewrite Z.shiftr_shiftl_l by lia. change (Z.shiftr DNS_MESSAGE_OPCODE_MASK 11) with (Z.ones 4).
    rewrite Z.land_ones, Z.sub_diag, Z.shiftl_0_r by lia. by apply Z.mod_small.
Qed.

Lemma header_bytes_ok h counts : bytes_ok (header_bytes h counts).
Proof.
  unfold header_bytes. rewrite !Forall_app. split_and!; auto with bytes.
  induction counts as [|c counts IH]; [constructor|]. cbn [fmap list_fmap mjoin list_join]. rewrite Forall_app. auto with bytes.
Qed.

Lemma header_in b h counts :
  take DNS_MESSAGE_HEADERLEN b = header_bytes h counts → DNS_MESSAGE_HEADERLEN <= length b → length counts = DNS_SECTION_MAX →
  Forall (λ c, 0 <= c < 2 ^ 16)%Z counts → (0 <= opcode h < 16)%Z → Z.land (flags h) OPCODE_FLAG = 0%Z →
  region b 0 DNS_MESSAGE_HEADERLEN ∧ header_here b 0 (header_read h) counts.
Proof.
  intros Hb Hlen Hc Hr Hop Hf. rewrite <- (header_flags_fields h Hop Hf).
  assert (mread b 0 DNS_MESSAGE_HEADERLEN = Some (header_bytes h counts)) as Hm.
  { rewrite <- Hb. unfold mread. by rewrite bool_decide_true. }
  split; [by apply (region_mread _ _ _ _ Hm), header_bytes_ok|].
  destruct counts as [|qd [|an [|ns [|ar [|? ?]]]]]; try done.
  apply Forall_cons in Hr as [R1 Hr]. apply Forall_cons in Hr as [R2 Hr]. apply Forall_cons in Hr as [R3 Hr]. apply Forall_cons in Hr as [R4 _].
  assert (header_bytes h [qd; an; ns; ar] =
    enc16 (u16 (id h)) ++ enc16 (header_flags h) ++ enc16 qd ++ enc16 an ++ enc16 ns ++ enc16 ar) as E.
  { unfold header_bytes. cbn [fmap list_fmap mjoin list_join]. by rewrite (u16_small qd), (u16_small an), (u16_small ns), (u16_small ar) by lia. }
  rewrite E in Hm.
  assert (∀ k v, take 2 (drop k (enc16 (u16 (id h)) ++ enc16 (header_flags h) ++ enc16 qd ++ enc16 an ++ enc16 ns ++ enc16 ar)) = enc16 v →
    (0 <= v < 2 ^ 16)%Z → k + 2 <= 12 → rd16 b (0 + k) = Some v) as Hrd.
  { intros k v Ev Hv Hk. eapply rd16_of; [|exact Hv|done]. rewrite <- Ev. by apply (mread_sub _ _ _ _ _ _ Hm). }
  assert (∀ x, (0 <= u16 x < 2 ^ 16)%Z) as Hu by (intros x; apply Z.mod_pos_bound; lia).
  exists (u16 (id h)), (header_flags h), qd, an, ns, ar. split_and!; try done.
  - by apply (Hrd 0); [|apply Hu|lia].
  - by apply (Hrd 2); [|apply Hu|lia].
  - by apply (Hrd 4); [| |lia].
  - by apply (Hrd 6); [| |lia].
  - by apply (Hrd 8); [| |lia].
  - by apply (Hrd 10); [| |lia].
Qed.

(** ** The entries of a reply *)

Section Reply.
Context `{RdatasetMethods St, Qsort, IscRandom, TowireOk, FromwireOk} `{!Readable, RdataTypes}.
Context (order : option (rdata → Z)) (arrays : rrset St → bool)
  (ncache : rrset St → Z → compress → nat → mem → nat → option (written * nat)).
Context (recs : St → list rdata).
Context (dispatch_opt : ∀ rd cctx cap m, rd_type rd = dns_rdatatype_opt →
  towire_switch rd cctx cap m = (w ← towire_opt rd cctx cap m; Some (Some w))).
Implicit Types (c : client St) (rs : rrset St) (names : list (mname St)).
#[local] Abbreviation progress := (RenderSpec.progress order arrays recs).
#[local] Abbreviation shown_as := (RenderSpec.shown_as order arrays recs).
#[local] Abbreviation sent := (SendSpec.sent order arrays recs).

Lemma entries_in owner rs items e : e ∈ entries owner rs items → en_owner e = owner ∧ en_info e = rr_info rs ∧ en_rd e ∈ items.
Proof. unfold entries. intros (it & -> & Hit)%list_elem_of_fmap. done. Qed.

Lemma progress_entries partial todo k r log :
  progress partial todo k r log →
  ∀ e, e ∈ log → ∃ n rs items, (n, rs) ∈ todo ∧ shown_as rs items ∧ en_owner e = n ∧ en_info e = rr_info rs ∧ en_rd e ∈ items.
Proof.
  intros (full & part & -> & (ess & Hf & ->) & Hr) e He. apply elem_of_app in He as [He|He].
  - apply list_elem_of_In, in_concat in He as (es & Hes & He). apply list_elem_of_In, list_elem_of_lookup_1 in Hes as [i Hi].
    apply list_elem_of_In in He. destruct (Forall2_lookup_r _ _ _ _ _ Hf Hi) as ([n rs] & Hj & items & Hs & ->).
    destruct (entries_in _ _ _ _ He) as (E1 & E2 & E3). exists n, rs, items. split_and!; try done.
    apply lookup_take_Some in Hj as [Hj _]. by eapply list_elem_of_lookup_2.
  - destruct Hr as [(_ & _ & ->)|(_ & [n rs] & items & cnt & Hj & Hs & _ & -> & _)]; [by apply not_elem_of_nil in He|].
    destruct (entries_in n rs items e) as (E1 & E2 & E3); [apply elem_of_take in He as (i & Hi & _); by eapply list_elem_of_lookup_2|].
    exists n, rs, items. split_and!; try done. by eapply list_elem_of_lookup_2.
Qed.

Lemma sent_entries partial i specs f logs f' :
  sent partial i specs f logs f' →
  Forall2 (λ spec log, ∀ e, e ∈ log → ∃ n rs items, (n, rs) ∈ unrendered (snd spec) ∧ shown_as rs items ∧
    en_owner e = n ∧ en_info e = rr_info rs ∧ en_rd e ∈ items) specs logs.
Proof.
  induction 1 as [|i opts names rest f k log logs f' Hp _ IH|i opts names rest f k log Hp f']; [done|constructor; [|done]|constructor].
  - intros e He. destruct (progress_entries _ _ _ _ _ Hp e He) as (n & rs & items & Hj & Hrest). exists n, rs, items.
    split; [|done]. by rewrite <- (order_of_jobs i opts).
  - intros e He. destruct (progress_entries _ _ _ _ _ Hp e He) as (n & rs & items & Hj & Hrest). exists n, rs, items.
    split; [|done]. by rewrite <- (order_of_jobs i opts).
  - clear. induction rest; constructor; [|done]. by intros e ?%not_elem_of_nil.
Qed.

(** A rdataset whose fields have their widths, and which is not a question. *)
Record rrset_readable rs : Prop := {
  rb_type : (0 <= ri_type (rr_info rs) < 2 ^ 16)%Z;
  rb_class : (0 <= ri_rdclass (rr_info rs) < 2 ^ 16)%Z;
  rb_ttl : (0 <= ri_ttl (rr_info rs) < 2 ^ 32)%Z;
  rb_records : attr_set (rr_info rs) DNS_RDATASETATTR_QUESTION = false;
  rb_rds : Forall (λ rd, rd_type rd = ri_type (rr_info rs) ∧ rd_class rd = ri_rdclass (rr_info rs) ∧
    rd_flags rd = 0%Z ∧ bytes_ok (rd_data rd)) (recs (rr_state rs)) }.

Definition names_readable names : Prop :=
  Forall (λ n, bytes_ok (ndata (mn_name n)) ∧ Forall rrset_readable (mn_list n)) names.

Lemma unrendered_in n rs names : (n, rs) ∈ unrendered names → ∃ nm, nm ∈ names ∧ n = mn_name nm ∧ rs ∈ mn_list nm.
Proof.
  unfold unrendered, jobs. intros [_ (nm & Hj & Hnm)%list_elem_of_bind]%list_elem_of_filter.
  apply list_elem_of_fmap in Hj as (rs' & [= -> ->] & Hrs). by exists nm.
Qed.

Lemma section_entries names log :
  names_ok recs names → names_readable names →
  (∀ e, e ∈ log → ∃ n rs items, (n, rs) ∈ unrendered names ∧ shown_as rs items ∧
     en_owner e = n ∧ en_info e = rr_info rs ∧ en_rd e ∈ items) →
  Forall entry_ok log ∧ Forall (λ e, is_Some (en_rd e)) log.
Proof.
  intros Hok Hre Hlog. rewrite !Forall_forall.
  assert (∀ e, e ∈ log → entry_ok e ∧ is_Some (en_rd e)) as Hall; [|by split; intros e He; apply Hall].
  intros e He. destruct (Hlog e He) as (n & rs & items & Hj & Hs & En & Ei & Hit).
  destruct (unrendered_in _ _ _ Hj) as (nm & Hnm & -> & Hrs). unfold names_ok, names_readable in *. rewrite Forall_forall in Hok, Hre.
  destruct (Hok nm Hnm) as [_ Hl]. destruct (Hre nm Hnm) as [Hb Hl']. rewrite Forall_forall in Hl, Hl'.
  destruct (Hl rs Hrs) as [_ _ _ Hrd]. destruct (Hl' rs Hrs) as [Ht Hc Httl Hq Hrds].
  unfold RenderSpec.shown_as in Hs. rewrite Hq in Hs. destruct Hs as (its & Hsh & ->).
  apply list_elem_of_fmap in Hit as (rd & Erd & Hin). rewrite (shown_perm _ _ _ _ _ Hsh) in Hin.
  rewrite Forall_forall in Hrd, Hrds. destruct (Hrd rd Hin) as [Hwf _]. destruct (Hrds rd Hin) as (X1 & X2 & X3 & X4).
  split; [|by rewrite Erd]. split; rewrite ?En, ?Ei; try done. intros rd' Erd'. rewrite Erd in Erd'. injection Erd' as <-. done.
Qed.

(** The question section: one question, or none if there was no room. *)
Lemma question_log partial k r owner q log :
  attr_set (rr_info q) DNS_RDATASETATTR_QUESTION = true →
  progress partial (order_of DNS_SECTION_QUESTION 0 [Mname owner [q]]) k r log →
  log = [] ∨ log = [Entry owner (rr_info q) None].
Proof.
  intros Hq Hp. pose proof (order_of_jobs DNS_SECTION_QUESTION 0 [Mname owner [q]]) as Ho.
  assert (order_of DNS_SECTION_QUESTION 0 [Mname owner [q]] = [] ∨ order_of DNS_SECTION_QUESTION 0 [Mname owner [q]] = [(owner, q)]) as [E|E].
  { unfold unrendered in Ho. change (jobs [Mname owner [q]]) with [(owner, q)] in Ho. rewrite filter_cons, filter_nil in Ho.
    destruct (decide _); [right|left].
    - by apply Permutation_singleton_r.
    - by apply Permutation_nil_r. }
  all: rewrite E in Hp; destruct Hp as (full & part & -> & (ess & Hf & ->) & Hr).
  - left. rewrite take_nil in Hf. apply Forall2_nil_inv_l in Hf as ->. by destruct Hr as [(_ & _ & ->)|(_ & j & ? & ? & ? & _)].
  - assert (∀ items, shown_as q items → items = [None]) as Hi by (intros items; unfold RenderSpec.shown_as; by rewrite Hq).
    destruct Hr as [(_ & -> & ->)|(_ & j & items & cnt & Hj & Hs & Hcnt & -> & _)].
    + right. cbn in Hf. apply Forall2_cons_inv_l in Hf as (es & ess' & (items & Hs & ->) & Hf & ->).
      apply Forall2_nil_inv_l in Hf as ->. cbn in *. by rewrite (Hi items Hs).
    + left. destruct k as [|k]; [|done]. injection Hj as <-. cbn in Hs, Hf. rewrite (Hi items Hs) in Hcnt |- *. cbn in Hcnt.
      apply Forall2_nil_inv_l in Hf as ->. by replace cnt with 0 by lia.
Qed.

(** A bit of the flags that sending does not touch. *)
Lemma flags_after_bit i opts k names f :
  Z.land f OPCODE_FLAG = 0%Z → Z.land (flags_after i opts k names f) OPCODE_FLAG = 0%Z.
Proof.
  assert (∀ f a, Z.land f OPCODE_FLAG = 0%Z → Z.land (Z.ldiff f a) OPCODE_FLAG = 0%Z) as Hd.
  { intros g a Hg. rewrite Z.ldiff_land, <- Z.land_assoc, (Z.land_comm (Z.lnot a)), Z.land_assoc, Hg. apply Z.land_0_l. }
  assert (∀ (js : list (name * rrset St)) f, Z.land f OPCODE_FLAG = 0%Z →
    Z.land (foldl (λ f (j : name * rrset St), clear_ad i j.2 f) f js) OPCODE_FLAG = 0%Z) as Hl.
  { intros js. induction js as [|j js IH]; intros g Hg; [done|]. cbn. apply IH. unfold clear_ad.
    destruct (_ && _), (attr_set _ _); auto. }
  intros Hf. unfold flags_after. destruct (glue_job names); [destruct k|]; [|by apply Hl..].
  by rewrite Z.land_lor_distr_l, Hf.
Qed.

Lemma sent_bit partial i specs f logs f' :
  sent partial i specs f logs f' → Z.land f OPCODE_FLAG = 0%Z → Z.land f' OPCODE_FLAG = 0%Z.
Proof.
  induction 1 as [|i opts names rest f k log logs f' Hp _ IH|i opts names rest f k log Hp f']; intros Hf; [done| |].
  - apply IH. by apply flags_after_bit.
  - subst f'. case_bool_decide; [by apply flags_after_bit|]. by rewrite Z.land_lor_distr_l, flags_after_bit.
Qed.

(** ** The reply that was sent *)

(** A reply to one question, not an update, whose fields have their widths. *)
Record reply_readable c (rd : rdata) (owner : name) (q : rrset St) : Prop := {
  ry_opcode : (0 <= opcode (m_header (c_message c)) < 16)%Z ∧ opcode (m_header (c_message c)) ≠ dns_opcode_update;
  ry_flags : Z.land (flags_of c) OPCODE_FLAG = 0%Z;
  ry_sections : ∃ rest, m_sections (c_message c) = [Mname owner [q]] :: rest ∧ Forall names_readable rest;
  ry_asks : attr_set (rr_info q) DNS_RDATASETATTR_QUESTION = true;
  ry_question : entry_ok (Entry owner (rr_info q) None);
  ry_opt : Forall entry_ok (opt_entries c rd) }.

(** The bytes are the message. *)
Lemma reply_message c rd base mem_ok owner q :
  reply_ready recs c rd → reply_readable c rd owner q → (TCP_CLIENT c = true → mem_ok = true) → size_of c <= length base →
  ∃ c' b l0 l1 l2 l3 f qs an ns ar,
    ns_client_send order arrays ncache c base mem_ok =
      Some (ISC_R_SUCCESS, c', Some (if TCP_CLIENT c then enc16 (u16 (Z.of_nat (length b))) ++ b else b)) ∧
    sent (bool_decide (c_opt c = None)) 0 (zip (section_options c) (m_sections (c_message c))) (flags_of c) [l0; l1; l2; l3] f ∧
    Forall2 asks_for l0 qs ∧ Forall2 shows l1 an ∧ Forall2 shows l2 ns ∧ Forall2 shows (l3 ++ opt_entries c rd) ar ∧
    bytes_ok b ∧
    (let h := m_header (c_message c) in
     header_here b 0 (header_read (Header (id h) f (rcode h) (opcode h)))
       [Z.of_nat (length qs); Z.of_nat (length an); Z.of_nat (length ns); Z.of_nat (length ar)]) ∧
    message_in b (record_here b parse_dctx) 0
      [Z.of_nat (length qs); Z.of_nat (length an); Z.of_nat (length ns); Z.of_nat (length ar)] qs an ns ar.
Proof.
  intros Hc [[Hop _] Hfl (rest & Es & Hre) Hasks Hq Ho] Hmem Hbase. destruct (size_bounds recs c rd Hc) as [_ Hsize].
  pose proof (rr_sections _ _ _ Hc) as Hok. pose proof (rr_four _ _ _ Hc) as Hfour.
  destruct (client_send_outcome order arrays ncache recs dispatch_opt c rd base mem_ok Hc Hmem Hbase)
    as (c' & b & logs & f & Hrun & Hlen & Hsent & Hhead & Hlog).
  pose proof (sent_entries _ _ _ _ _ _ Hsent) as Hents. pose proof (sent_bit _ _ _ _ _ _ Hsent Hfl) as Hbit.
  rewrite Es in Hents, Hsent, Hfour, Hok. destruct rest as [|a [|n [|r [|? ?]]]]; try done.
  unfold section_options in Hents, Hsent. cbn [zip zip_with] in Hents, Hsent.
  apply Forall2_cons_inv_l in Hents as (l0 & logs1 & _ & Hents & ->). apply Forall2_cons_inv_l in Hents as (l1 & logs2 & H1e & Hents & ->).
  apply Forall2_cons_inv_l in Hents as (l2 & logs3 & H2e & Hents & ->). apply Forall2_cons_inv_l in Hents as (l3 & logs4 & H3e & Hents & ->).
  apply Forall2_nil_inv_l in Hents as ->. cbn [snd] in H1e, H2e, H3e.
  assert (l0 = [] ∨ l0 = [Entry owner (rr_info q) None]) as Hl0 by (inversion Hsent; subst; by eapply question_log).
  apply Forall_cons in Hok as [_ Hok]. apply Forall_cons in Hok as [Oka Hok]. apply Forall_cons in Hok as [Okn Hok]. apply Forall_cons in Hok as [Okr _].
  apply Forall_cons in Hre as [Rea Hre]. apply Forall_cons in Hre as [Ren Hre]. apply Forall_cons in Hre as [Rer _].
  destruct (section_entries _ _ Oka Rea H1e) as [E1 S1]. destruct (section_entries _ _ Okn Ren H2e) as [E2 S2].
  destruct (section_entries _ _ Okr Rer H3e) as [E3 S3].
  assert (Forall (λ e, is_Some (en_rd e)) (opt_entries c rd)) as So.
  { unfold opt_entries. destruct (c_opt c); repeat constructor. by eexists. }
  cbn [concat] in Hlog. rewrite app_nil_r, <- !app_assoc in Hlog.
  destruct (log_at_split _ _ _ _ _ _ Hlog) as (p1 & Hlog0 & Hlog1).
  destruct (log_records b p1 _ _ Hlog1) as [Hreg1 (rs & Hrs & Hch)].
  { rewrite !Forall_app. by split_and!. } { rewrite !Forall_app. by split_and!. } { lia. } { done. }
  apply Forall2_app_inv_l in Hrs as (an & rs1 & Han & Hrs & ->). apply Forall2_app_inv_l in Hrs as (ns & ar & Hns & Har & ->).
  assert (region b DNS_MESSAGE_HEADERLEN p1 ∧ ∃ qs, Forall2 asks_for l0 qs ∧ chain (question_here b) DNS_MESSAGE_HEADERLEN qs p1 ∧
    compatible_all [] qs) as (Hreg0 & qs & Hqs & Hchq & Hcomp).
  { destruct Hl0 as [-> | ->]; cbn [log_at] in Hlog0.
    - subst p1. split; [intros i ?; lia|]. by exists [].
    - destruct Hlog0 as (ls & p' & Hn & Hr & ->). destruct (question_shown b _ _ ls p' Hq Hn Hr eq_refl) as [Hreg (qu & Hqu & Hhere)].
      split; [done|]. exists [qu]. split_and!; [by constructor; [|constructor]|by exists p'|done..]. }
  pose proof (log_at_size _ _ _ _ _ Hlog) as Hsz.
  assert (count_of (alter (λ l, l ++ opt_entries c rd) DNS_SECTION_ADDITIONAL [l0; l1; l2; l3]) =
    [Z.of_nat (length qs); Z.of_nat (length an); Z.of_nat (length ns); Z.of_nat (length ar)]) as Ecnt.
  { unfold count_of. cbn. by rewrite (Forall2_length _ _ _ Hqs), (Forall2_length _ _ _ Han), (Forall2_length _ _ _ Hns), (Forall2_length _ _ _ Har). }
  rewrite !length_app in Hsz. pose proof (Forall2_length _ _ _ Hqs). pose proof (Forall2_length _ _ _ Han).
  pose proof (Forall2_length _ _ _ Hns). pose proof (Forall2_length _ _ _ Har). rewrite length_app in *.
  rewrite Ecnt in Hhead. cbv zeta in Hhead.
  destruct (header_in _ _ _ Hhead) as [Hregh Hh]; [lia|done|repeat constructor; lia|done|done|].
  exists c', b, l0, l1, l2, l3, f, qs, an, ns, ar. split_and!; try done.
  - by rewrite Es.
  - apply region_all. eapply region_app; [exact Hregh|]. by eapply region_app.
  - exists p1, (length b). by split_and!.
Qed.

(** C0: A reply to one question that [ns_client_send] sends is read again by
    [dns_message_parse]. The questions and records that are sent stand in the
    bytes one after the other as those of a message, with owners that are
    equal up to case and with their class, type, TTL and rdata. When the
    message is parsed with success, its sections are those records gathered
    by owner, class and type, and its OPT record is the one that was sent.
    And if the question is there and the records are ordinary ones of its
    class, the parsing succeeds, given memory, and the header is the one that
    was sent, within the width of its fields. *)
Theorem reply_parses c rd base mem_ok owner q :
  reply_ready recs c rd → reply_readable c rd owner q → (TCP_CLIENT c = true → mem_ok = true) → size_of c <= length base →
  ∃ c' b l0 l1 l2 l3 f qs an ns ar,
    ns_client_send order arrays ncache c base mem_ok =
      Some (ISC_R_SUCCESS, c', Some (if TCP_CLIENT c then enc16 (u16 (Z.of_nat (length b))) ++ b else b)) ∧
    sent (bool_decide (c_opt c = None)) 0 (zip (section_options c) (m_sections (c_message c))) (flags_of c) [l0; l1; l2; l3] f ∧
    Forall2 asks_for l0 qs ∧ Forall2 shows l1 an ∧ Forall2 shows l2 ns ∧ Forall2 shows (l3 ++ opt_entries c rd) ar ∧
    ∀ mem_get options msg, option_set options DNS_MESSAGEPARSE_BESTEFFORT = false →
      option_set options DNS_MESSAGEPARSE_PRESERVEORDER = false → fresh DNS_MESSAGE_INTENTPARSE msg →
      (∀ m, dns_message_parse mem_get b options msg 0 = Some (ISC_R_SUCCESS, m) →
         m_sections m = [asked qs; gather (together an); gather (together ns); gather (together ar)] ∧
         m_opt m = opt_of None (an ++ ns ++ ar)) ∧
      (∀ qu, (∀ k, mem_get k = true) → qs = [qu] → plain_all (q_class qu) [] an → plain_all (q_class qu) [] ns →
         plain_all (q_class qu) [] ar →
         ∃ m, dns_message_parse mem_get b options msg 0 = Some (ISC_R_SUCCESS, m) ∧
           m_header m = (let h := m_header (c_message c) in header_read (Header (id h) f (rcode h) (opcode h)))).
Proof.
  intros Hc Hr Hmem Hbase. pose proof (ry_opcode _ _ _ _ Hr) as [_ Hnu].
  destruct (reply_message c rd base mem_ok owner q Hc Hr Hmem Hbase)
    as (c' & b & l0 & l1 & l2 & l3 & f & qs & an & ns & ar & Hrun & Hsent & Hqs & Han & Hns & Har & Hb & Hh & Hin).
  exists c', b, l0, l1, l2, l3, f, qs, an, ns, ar. split_and!; [done..|]. intros mem_get options msg Hbest Hpr Hfresh. cbv zeta in Hh.
  assert (∀ m, parsed b options 0 m → m_sections m = [asked qs; gather (together an); gather (together ns); gather (together ar)] ∧
    m_opt m = opt_of None (an ++ ns ++ ar) ∧
    (Forall (λ r, rd_type (rec_rdata r) ≠ dns_rdatatype_opt) (an ++ ns ++ ar) → m_header m =
       (let h := m_header (c_message c) in header_read (Header (id h) f (rcode h) (opcode h))))) as Hp.
  { intros m (h & Hh' & Eop & Hrest). destruct (header_det b _ _ _ _ _ Hh Hh') as [-> Ecnt]. cbn [header_read opcode] in Hrest.
    destruct (Hrest Hnu) as (qs' & an' & ns' & ar' & Hin' & _ & Hhd & Hopt & Hsec). rewrite Ecnt in Hin'.
    destruct Hin as (p1 & p4 & _ & Hq1 & _ & Hr1 & _). destruct Hin' as (p1' & p4' & Ecs & Hq1' & _ & Hr1' & _).
    injection Ecs as X0 X1 X2 X3. apply Nat2Z.inj in X0, X1, X2, X3.
    destruct (question_chain_det _ _ _ _ _ _ (eq_sym X0) Hq1' Hq1) as [-> ->].
    assert (length (an' ++ ns' ++ ar') = length (an ++ ns ++ ar)) as Elen by (rewrite !length_app; lia).
    destruct (chain_det b parse_dctx _ _ _ _ _ Elen Hr1' Hr1) as [E ->].
    apply app_inj_1 in E as [-> E]; [|done]. apply app_inj_1 in E as [-> ->]; [|done]. auto. }
  destruct (parse_outcome mem_get b Hb options Hbest False msg 0) as (r & m & E & _ & Hparsed & _); [done..|].
  split.
  - intros m' E'. rewrite E in E'. injection E' as -> ->. destruct (Hp m' (Hparsed eq_refl)) as (? & ? & _). done.
  - intros qu Hall -> P1 P2 P3. destruct (parse_outcome mem_get b Hb options Hbest True msg 0) as (r' & m' & E' & _ & Hparsed' & Hok'); [done| |done|].
    { intros _. split; [done|]. eexists _, _, qu, [], an, ns, ar. split_and!; [exact Hh|done|exact Hin|done..]. }
    rewrite (Hok' I) in *. exists m'. split; [done|]. apply Hp; [by apply Hparsed'|].
    rewrite !Forall_app. split_and!; by eapply plain_no_opt.
Qed.
End Reply.
