(* ===== verification/Rbt.v ===== *)
(** * One level of the name tree

    [lib/dns/rbt.c] keeps the names of a database in a tree of trees: the
    nodes below one name form a level, a red-black tree of its own whose root
    hangs from the [down] field of the name's node. Here are the functions
    that link and balance a level: [rotate_left], [rotate_right],
    [dns_rbt_addonlevel] and [dns_rbt_deletefromlevel].

    A node is an address; the store maps addresses to the fields that these
    functions use. The [parent] of the root of a level is the node above the
    level, and [is_root] tells the two meanings of [parent] apart. The code
    is written twice, for left and right; [side] says which copy is meant.
    [None] is a failed assertion or an access through a [NULL] pointer. *)

From stdpp Require Import gmap.
From S2P Require Import Prelude.

#[local] Open Scope nat_scope.

Abbreviation ptr := nat.

(** [struct dns_rbtnode], as far as one level is concerned. *)
Record rbtnode := Node {
  left : option ptr; right : option ptr; parent : option ptr;
  red : bool; is_root : bool }.

Abbreviation store := (gmap ptr rbtnode).

Inductive side := Lft | Rgt.
Definition opp (d : side) : side := match d with Lft => Rgt | Rgt => Lft end.
Definition child (d : side) (n : rbtnode) : option ptr :=
  match d with Lft => left n | Rgt => right n end.

#[export] Instance side_eq_dec : EqDecision side.
Proof. solve_decision. Defined.

(** ** Fields

    [LEFT(node) = v] and the like; the node must exist. *)
Definition put_child (d : side) (m : store) (p : ptr) (v : option ptr) : option store :=
  n ← m !! p;
  Some (<[p := match d with
               | Lft => Node v (right n) (parent n) (red n) (is_root n)
               | Rgt => Node (left n) v (parent n) (red n) (is_root n)
               end]> m).
Definition put_parent (m : store) (p : ptr) (v : option ptr) : option store :=
  n ← m !! p; Some (<[p := Node (left n) (right n) v (red n) (is_root n)]> m).
Definition put_red (m : store) (p : ptr) (v : bool) : option store :=
  n ← m !! p; Some (<[p := Node (left n) (right n) (parent n) v (is_root n)]> m).
Definition put_is_root (m : store) (p : ptr) (v : bool) : option store :=
  n ← m !! p; Some (<[p := Node (left n) (right n) (parent n) (red n) v]> m).

(** [IS_RED(node)]: [NULL] is black. *)
Definition IS_RED (m : store) (p : option ptr) : option bool :=
  match p with None => Some false | Some p => n ← m !! p; Some (red n) end.

(** [if (LEFT(PARENT(node)) == node) LEFT(PARENT(node)) = v; else RIGHT(...) = v;] *)
Definition replace_child (m : store) (parent : option ptr) (p : ptr) (v : option ptr)
    : option store :=
  up ← parent; n ← m !! up;
  if bool_decide (left n = Some p) then put_child Lft m up v else put_child Rgt m up v.

(** ** Rotation *)

(** [rotate Lft] is [rotate_left], [rotate Rgt] is [rotate_right]. *)
Definition rotate (d : side) (m : store) (p : ptr) (rootp : option ptr)
    : option (store * option ptr) :=
  n ← m !! p;
  c ← child (opp d) n;
  cn ← m !! c;
  m ← put_child (opp d) m p (child d cn);
  m ← match child d cn with Some b => put_parent m b (Some p) | None => Some m end;
  m ← put_child d m c (Some p);
  m ← put_parent m c (parent n);
  '(m, rootp) ←
    (if is_root n then
       m ← put_is_root m c true; m ← put_is_root m p false; Some (m, Some c)
     else m ← replace_child m (parent n) p (Some c); Some (m, rootp));
  m ← put_parent m p (Some c);
  Some (m, rootp).

Definition rotate_left := rotate Lft.
Definition rotate_right := rotate Rgt.

(** ** Insertion *)

(** The loop of [dns_rbt_addonlevel]. Each round goes up two levels; [fuel]
    above the number of nodes is enough. *)
Fixpoint add_fix (fuel : nat) (m : store) (p : ptr) (root : option ptr)
    : option (store * option ptr) :=
  match fuel with
  | O => None
  | S fuel =>
      n ← m !! p;
      up_red ← (if bool_decide (Some p ≠ root) then IS_RED m (parent n) else Some false);
      if up_red : bool then
        par ← parent n; pn ← m !! par; grand ← parent pn; gn ← m !! grand;
        let d := if bool_decide (Some par = left gn) then Lft else Rgt in
        let uncle := child (opp d) gn in
        uncle_red ← IS_RED m uncle;
        if uncle_red : bool then
          u ← uncle;
          m ← put_red m par false; m ← put_red m u false; m ← put_red m grand true;
          add_fix fuel m grand root
        else
          '(m, root, p, par, grand) ←
            (if bool_decide (Some p = child (opp d) pn) then
               '(m, root) ← rotate d m par root;
               let p := par in
               n ← m !! p; par ← parent n; pn ← m !! par; grand ← parent pn;
               Some (m, root, p, par, grand)
             else Some (m, root, p, par, grand));
          m ← put_red m par false; m ← put_red m grand true;
          '(m, root) ← rotate (opp d) m grand root;
          add_fix fuel m p root
      else Some (m, root)
  end.

(** [dns_rbt_addonlevel]: the new [node] becomes a child of [current], to the
    left if [order] is negative; if the level is empty, its root, with
    [current] above it. *)
Definition dns_rbt_addonlevel (m : store) (node current : ptr) (order : Z)
    (rootp : option ptr) : option (store * option ptr) :=
  n ← m !! node;
  if bool_decide (left n = None ∧ right n = None) then
    match rootp with
    | None =>
        m ← put_red m node false; m ← put_is_root m node true;
        m ← put_parent m node (Some current); Some (m, Some node)
    | Some _ =>
        let d := if bool_decide (order < 0)%Z then Lft else Rgt in
        cn ← m !! current;
        if bool_decide (child d cn = None) then
          m ← put_child d m current (Some node);
          n ← m !! node;
          if bool_decide (parent n = None) then
            m ← put_parent m node (Some current);
            m ← put_red m node true;
            '(m, root) ← add_fix (S (size m)) m node rootp;
            r ← root;
            m ← put_red m r false;
            rn ← m !! r;
            if is_root rn then Some (m, root) else None
          else None
        else None
    end
  else None.

(** ** Deletion *)

(** [while (LEFT(successor) != NULL) successor = LEFT(successor);] *)
Fixpoint leftmost (fuel : nat) (m : store) (p : ptr) : option ptr :=
  match fuel with
  | O => None
  | S fuel =>
      n ← m !! p;
      match left n with None => Some p | Some q => leftmost fuel m q end
  end.

(** The two-children case. The successor takes the place of [delete], ... *)
Definition take_place (m : store) (delete successor : ptr) (rootp : option ptr)
    : option (store * option ptr) :=
  dn ← m !! delete;
  '(m, rootp) ←
    (if is_root dn then
       m ← put_is_root m successor true; m ← put_is_root m delete false;
       Some (m, Some successor)
     else m ← replace_child m (parent dn) delete (Some successor); Some (m, rootp));
  dn ← m !! delete;
  m ← put_parent m successor (parent dn);
  m ← put_child Lft m successor (left dn);
  m ← put_child Rgt m successor (right dn);
  m ← put_red m successor (red dn);
  Some (m, rootp).

(** ... adopts its children ... *)
Definition adopt (m : store) (successor : ptr) : option store :=
  sn ← m !! successor;
  m ← match left sn with Some q => put_parent m q (Some successor) | None => Some m end;
  if bool_decide (right sn ≠ Some successor) then
    q ← right sn; put_parent m q (Some successor)
  else Some m.

(** ... and [delete] takes the old place of the successor, whose fields were
    [tmp]. *)
Definition relink (m : store) (delete successor : ptr) (tmp : rbtnode) : option store :=
  dn ← m !! delete;
  if is_root dn then None
  else
    m ← (if bool_decide (parent tmp = Some delete) then
           m ← put_child Rgt m successor (Some delete);
           put_parent m delete (Some successor)
         else
           tp ← parent tmp;
           m ← put_child Lft m tp (Some delete);
           put_parent m delete (Some tp));
    m ← put_child Lft m delete None;
    m ← put_child Rgt m delete (right tmp);
    put_red m delete (red tmp).

Definition swap_successor (m : store) (delete successor : ptr) (rootp : option ptr)
    : option (store * option ptr) :=
  tmp ← m !! successor;
  '(m, rootp) ← take_place m delete successor rootp;
  m ← adopt m successor;
  m ← relink m delete successor tmp;
  Some (m, rootp).

(** The loop that fixes the colours looks at the sibling of the place that is
    one black node short. A red sibling is turned away: *)
Definition red_sibling (d : side) (m : store) (p s : ptr) (rootp : option ptr)
    : option (store * option ptr * option ptr) :=
  m ← put_red m s false; m ← put_red m p true;
  '(m, rootp) ← rotate d m p rootp;
  pn ← m !! p; Some (m, rootp, child (opp d) pn).

(** [if (IS_BLACK(RIGHT(sibling)))]: the red inner child of the sibling is
    lifted. *)
Definition lift_inner (d : side) (m : store) (p s : ptr) (rootp : option ptr)
    : option (store * option ptr * ptr) :=
  sn ← m !! s; near ← child d sn;
  m ← put_red m near false; m ← put_red m s true;
  '(m, rootp) ← rotate (opp d) m s rootp;
  pn ← m !! p; s ← child (opp d) pn; Some (m, rootp, s).

(** [COLOR(sibling) = COLOR(parent); ... rotate_left(parent, rootp);] *)
Definition lift_sibling (d : side) (m : store) (p s : ptr) (rootp : option ptr)
    : option (store * option ptr) :=
  pn ← m !! p;
  m ← put_red m s (red pn);
  m ← put_red m p false;
  sn ← m !! s; far ← child (opp d) sn;
  m ← put_red m far false;
  rotate d m p rootp.

(** The round from [INSIST(sibling != NULL)] on; the last component is the
    new [child]. *)
Definition black_sibling (d : side) (m : store) (p s : ptr) (rootp : option ptr)
    : option (store * option ptr * option ptr) :=
  sn ← m !! s;
  near_red ← IS_RED m (child d sn);
  far_red ← IS_RED m (child (opp d) sn);
  if negb near_red && negb far_red then
    m ← put_red m s true; Some (m, rootp, Some p)
  else
    '(m, rootp, s) ←
      (if negb far_red then lift_inner d m p s rootp else Some (m, rootp, s));
    '(m, rootp) ← lift_sibling d m p s rootp;
    Some (m, rootp, rootp).

(** The loop; [child = NULL] has no [parent] of its own, so [parent] is
    carried along. *)
Fixpoint delete_fix (fuel : nat) (m : store) (c : option ptr) (par : option ptr)
    (rootp : option ptr) : option (store * option ptr) :=
  match fuel with
  | O => None
  | S fuel =>
      c_red ← IS_RED m c;
      if bool_decide (c ≠ rootp) && negb c_red then
        c_root ← match c with None => Some false | Some q => n ← m !! q; Some (is_root n) end;
        if c_root : bool then None
        else
          p ← par; pn ← m !! p;
          let d := if bool_decide (left pn = c) then Lft else Rgt in
          let sibling := child (opp d) pn in
          sib_red ← IS_RED m sibling;
          '(m, rootp, sibling) ←
            (if sib_red : bool then s ← sibling; red_sibling d m p s rootp
             else Some (m, rootp, sibling));
          s ← sibling;
          '(m, rootp, c) ← black_sibling d m p s rootp;
          q ← c; cn ← m !! q;
          delete_fix fuel m c (parent cn) rootp
      else
        (if c_red : bool then q ← c; m ← put_red m q false; Some (m, rootp)
         else Some (m, rootp))
  end.

(** Removing the links to [delete], which has at most the child [c]. *)
Definition unlink_pointers (m : store) (delete : ptr) (dn : rbtnode) (c rootp : option ptr)
    : option (store * option ptr) :=
  if is_root dn then
    q ← c;
    m ← put_is_root m q true; m ← put_parent m q (parent dn); Some (m, Some q)
  else
    m ← replace_child m (parent dn) delete c;
    m ← match c with Some q => put_parent m q (parent dn) | None => Some m end;
    Some (m, rootp).

(** ... and repairing the colours. *)
Definition unlink (m : store) (delete : ptr) (c : option ptr) (rootp : option ptr)
    : option (store * option ptr) :=
  dn ← m !! delete;
  '(m, rootp) ← unlink_pointers m delete dn c rootp;
  dn ← m !! delete;
  if red dn then Some (m, rootp)
  else delete_fix (S (size m)) m c (parent dn) rootp.

Definition dns_rbt_deletefromlevel (m : store) (delete : ptr) (rootp : option ptr)
    : option (store * option ptr) :=
  dn ← m !! delete;
  linked ← (if is_root dn then Some (bool_decide (rootp = Some delete))
            else up ← parent dn; un ← m !! up;
                 Some (bool_decide (left un = Some delete ∨ right un = Some delete)));
  if linked : bool then
    match left dn, right dn with
    | None, None =>
        if is_root dn then Some (m, None) else unlink m delete None rootp
    | None, Some c => unlink m delete (Some c) rootp
    | Some c, None => unlink m delete (Some c) rootp
    | Some _, Some r =>
        successor ← leftmost (S (size m)) m r;
        sn ← m !! successor;
        '(m, rootp) ← swap_successor m delete successor rootp;
        unlink m delete (right sn) rootp
    end
  else None.
