(* ===== verification/RbtTree.v ===== *)
(** * Red-black trees, abstractly

    What a level of the name tree ([Rbt.v]) is: a tree of addresses. A place
    in a tree is the path from there to the root. [add_up] and [delete_up]
    are the repairs of [dns_rbt_addonlevel] and [dns_rbt_deletefromlevel] of
    [lib/dns/rbt.c] on paths; they keep the order of the nodes and restore
    the red-black invariant [rbt]. *)

From stdpp Require Import gmap.
From S2P Require Import Prelude Rbt.

#[local] Open Scope nat_scope.

(** [T c l p r]: the node [p], red if [c]. *)
Inductive tree := E | T (c : bool) (l : tree) (p : ptr) (r : tree).

Definition top (t : tree) : option ptr := match t with E => None | T _ _ p _ => Some p end.
Definition color (t : tree) : bool := match t with E => false | T c _ _ _ => c end.
Definition paint (c : bool) (t : tree) : tree :=
  match t with E => E | T _ l p r => T c l p r end.

(** The nodes in order. *)
Fixpoint nodes (t : tree) : list ptr :=
  match t with E => [] | T _ l p r => nodes l ++ p :: nodes r end.

(** The node with [a] on side [d] and [b] on the other. *)
Definition mk (d : side) (c : bool) (a : tree) (p : ptr) (b : tree) : tree :=
  match d with Lft => T c a p b | Rgt => T c b p a end.

(** A step of a path: the hole is on side [d] of [p], [s] on the other. *)
Record frame := Frame { f_side : side; f_red : bool; f_ptr : ptr; f_sib : tree }.
Abbreviation path := (list frame).

Fixpoint plug (k : path) (t : tree) : tree :=
  match k with
  | [] => t
  | Frame d c p s :: k => plug k (mk d c t p s)
  end.

(** The nodes before and after the hole. *)
Fixpoint before_hole (k : path) : list ptr :=
  match k with
  | [] => []
  | Frame Lft _ p s :: k => before_hole k
  | Frame Rgt _ p s :: k => before_hole k ++ nodes s ++ [p]
  end.
Fixpoint after_hole (k : path) : list ptr :=
  match k with
  | [] => []
  | Frame Lft _ p s :: k => p :: nodes s ++ after_hole k
  | Frame Rgt _ p s :: k => after_hole k
  end.

Lemma plug_nodes k t : nodes (plug k t) = before_hole k ++ nodes t ++ after_hole k.
Proof.
  revert t. induction k as [|[[] c p s] k IH]; intros t; cbn.
  - by rewrite app_nil_r.
  - rewrite IH. cbn. by rewrite <- !app_assoc.
  - rewrite IH. cbn. by rewrite <- !app_assoc.
Qed.

Lemma plug_app k1 k2 t : plug (k1 ++ k2) t = plug k2 (plug k1 t).
Proof. revert t. by induction k1 as [|[d c p s] k1 IH]; intros t; cbn. Qed.

(** ** The invariant: [rbt t n], black height [n] *)

Inductive rbt : tree → nat → Prop :=
  | rbt_E : rbt E 0
  | rbt_red l p r n :
      rbt l n → rbt r n → color l = false → color r = false → rbt (T true l p r) n
  | rbt_black l p r n : rbt l n → rbt r n → rbt (T false l p r) (S n).

(** [rbt_path k n]: the path takes a tree of black height [n]; a red frame
    needs a black hole, so the hole's colour is a separate condition. *)
Definition path_red (k : path) : bool := match k with [] => true | f :: _ => f_red f end.

Inductive rbt_path : path → nat → Prop :=
  | rbt_path_nil n : rbt_path [] n
  | rbt_path_red d p s k n :
      rbt s n → color s = false → rbt_path k n → path_red k = false →
      rbt_path (Frame d true p s :: k) n
  | rbt_path_black d p s k n :
      rbt s n → rbt_path k (S n) → rbt_path (Frame d false p s :: k) n.

Lemma rbt_mk_red d a p b n :
  rbt a n → rbt b n → color a = false → color b = false → rbt (mk d true a p b) n.
Proof. destruct d; intros; by constructor. Qed.

Lemma rbt_mk_black d a p b n : rbt a n → rbt b n → rbt (mk d false a p b) (S n).
Proof. destruct d; intros; by constructor. Qed.

Lemma rbt_mk_inv d c a p b n :
  rbt (mk d c a p b) n →
  (c = true ∧ rbt a n ∧ rbt b n ∧ color a = false ∧ color b = false) ∨
  (c = false ∧ ∃ n', n = S n' ∧ rbt a n' ∧ rbt b n').
Proof.
  destruct d; inversion 1; subst; [left|right|left|right]; split_and!; try done; by eexists.
Qed.

Lemma color_mk d c a p b : color (mk d c a p b) = c.
Proof. by destruct d. Qed.

Lemma top_mk d c a p b : top (mk d c a p b) = Some p.
Proof. by destruct d. Qed.

(** Putting a fitting tree into a path. *)
Lemma rbt_plug k t n :
  rbt_path k n → rbt t n → (path_red k = true → color t = false) →
  ∃ n', rbt (plug k t) n' ∧ color (plug k t) = false.
Proof.
  intros Hk. revert t. induction Hk as [n|d p s k n Hs Hc Hk IH Hr|d p s k n Hs Hk IH];
    intros t Ht Hred; cbn in *.
  - exists n. auto.
  - apply IH; [apply rbt_mk_red; auto|]. intros ?. congruence.
  - apply IH; [by apply rbt_mk_black|]. by rewrite color_mk.
Qed.

Lemma rbt_paint_black t n : rbt t n → ∃ n', rbt (paint false t) n' ∧ n <= n' <= S n.
Proof.
  destruct 1 as [|l p r n Hl Hr|l p r n Hl Hr].
  - exists 0. split; [constructor|lia].
  - exists (S n). split; [by constructor|lia].
  - exists (S n). split; [by constructor|lia].
Qed.

(** A tree of black height [n] has height at most [2 n + 1], and at least
    [2 ^ n - 1] nodes. *)
Fixpoint height (t : tree) : nat :=
  match t with E => 0 | T _ l _ r => S (height l `max` height r) end.

Lemma rbt_height t n : rbt t n → height t <= 2 * n + (if color t then 1 else 0).
Proof.
  induction 1 as [|l p r n Hl IHl Hr IHr Cl Cr|l p r n Hl IHl Hr IHr]; cbn; [lia| |].
  - rewrite Cl in IHl. rewrite Cr in IHr. lia.
  - destruct (color l), (color r); lia.
Qed.

Lemma rbt_size t n : rbt t n → 2 ^ n <= S (length (nodes t)).
Proof.
  induction 1 as [|l p r n Hl IHl Hr IHr Cl Cr|l p r n Hl IHl Hr IHr]; cbn; [lia| |];
    rewrite length_app; cbn; lia.
Qed.

Lemma rbt_logarithmic t n : rbt t n → color t = false → 2 ^ (height t / 2) <= S (length (nodes t)).
Proof.
  intros Ht Hc. pose proof (rbt_height t n Ht) as Hh. rewrite Hc in Hh.
  pose proof (rbt_size t n Ht). transitivity (2 ^ n); [|done].
  apply Nat.pow_le_mono_r; [lia|]. apply Nat.Div0.div_le_upper_bound. lia.
Qed.

(** ** Insertion

    [add_up k a x b]: the red node [x] with the subtrees [a], [b] is in the
    hole of [k]. *)
Fixpoint add_up (k : path) (a : tree) (x : ptr) (b : tree) : tree :=
  match k with
  | [] => T false a x b
  | [Frame d c p s] => plug k (T true a x b)
  | Frame d c p s :: Frame d' c' g u :: k' =>
      if c then
        if color u then
          let gt := mk d' true (mk d false (T true a x b) p s) g (paint false u) in
          match gt with E => E | T _ l g r => add_up k' l g r end
        else if decide (d = d') then
          plug k' (mk d' false (T true a x b) p (mk d' true s g u))
        else
          let (near, far) := match d with Lft => (b, a) | Rgt => (a, b) end in
          plug k' (mk d' false (mk d' true s p near) x (mk d' true far g u))
      else plug k (T true a x b)
  end.

(** The order of the nodes does not change. *)
Lemma mk_nodes d c a p b :
  nodes (mk d c a p b) =
    match d with Lft => nodes a ++ p :: nodes b | Rgt => nodes b ++ p :: nodes a end.
Proof. by destruct d. Qed.

Lemma path_ind2 (P : path → Prop) :
  P [] → (∀ f, P [f]) → (∀ f g k, P k → P (f :: g :: k)) → ∀ k, P k.
Proof.
  intros H0 H1 H2. fix IH 1. intros [|f [|g k]]; [done|apply H1|apply H2, IH].
Qed.

Lemma paint_nodes c t : nodes (paint c t) = nodes t.
Proof. by destruct t. Qed.

Lemma plug_nodes_eq k t t' : nodes t = nodes t' → nodes (plug k t) = nodes (plug k t').
Proof. intros H. by rewrite !plug_nodes, H. Qed.

Lemma add_up_nodes k a x b : nodes (add_up k a x b) = nodes (plug k (T true a x b)).
Proof.
  revert a x b. induction k as [|[d c p s]|[d c p s] [d' c' g u] k IH] using path_ind2;
    intros a x b; [done..|].
  cbn [add_up]. destruct c; [|done]. destruct (color u).
  - destruct d'; cbn [mk paint]; rewrite IH; cbn [plug]; apply plug_nodes_eq;
      destruct d; cbn; by rewrite paint_nodes.
  - destruct (decide (d = d')) as [<-|Hd].
    + cbn [plug]. apply plug_nodes_eq. destruct d; cbn; by rewrite <- ?app_assoc.
    + destruct d, d'; try done; cbn [plug]; apply plug_nodes_eq; cbn;
        by rewrite <- ?app_assoc; cbn; rewrite <- ?app_assoc.
Qed.

(** The invariant is restored. *)
Lemma add_up_rbt k a x b n :
  rbt_path k n → rbt a n → rbt b n → color a = false → color b = false →
  ∃ n', rbt (add_up k a x b) n' ∧ color (add_up k a x b) = false.
Proof.
  revert a x b n. induction k as [|[d c p s]|[d c p s] [d' c' g u] k IH] using path_ind2;
    intros a x b n Hk Ha Hb Ca Cb; cbn [add_up].
  - exists (S n). split; [by constructor|done].
  - inversion Hk as [|? ? ? ? ? Hs Cs Hk' Hr|? ? ? ? ? Hs Hk']; subst; [done|].
    apply (rbt_plug _ _ n); [done|by constructor|done].
  - destruct c.
    + inversion Hk as [|? ? ? ? ? Hs Cs Hk' Hr|]; subst. cbn in Hr. subst c'.
      inversion Hk' as [| |? ? ? ? ? Hu Hk'']; subst. destruct (color u) eqn:Cu.
      * assert (rbt (paint false u) (S n)) as Hu'.
        { inversion Hu; subst; try done; by constructor. }
        assert (rbt (mk d false (T true a x b) p s) (S n)) as Hp.
        { apply rbt_mk_black; [by constructor|done]. }
        assert (color (paint false u) = false) as Cu' by by destruct u.
        destruct d'; cbn [mk]; eapply IH; eauto using color_mk.
      * assert (rbt (T true a x b) n) as Hx by by constructor.
        destruct (decide (d = d')) as [<-|Hd].
        -- apply (rbt_plug _ _ (S n)); [done| |by rewrite color_mk].
           apply rbt_mk_black; [done|]. by apply rbt_mk_red.
        -- destruct d; (apply (rbt_plug _ _ (S n)); [done| |by rewrite color_mk]);
             apply rbt_mk_black; by apply rbt_mk_red.
    + apply (rbt_plug _ _ n); [done|by constructor|done].
Qed.

(** ** Deletion

    [balance d c k t p s]: the hole on side [d] of [p], whose colour is [c],
    holds [t], one black node short; the sibling [s] is black. Either the
    tree is finished, or the node above is now short. *)
Definition balance (d : side) (c : bool) (k : path) (t : tree) (p : ptr) (s : tree)
    : tree + tree :=
  match s with
  | E => inl E
  | T _ l y r =>
      let (near, far) := match d with Lft => (l, r) | Rgt => (r, l) end in
      if negb (color near) && negb (color far)
      then inr (mk d c t p (mk d true near y far))
      else if negb (color far) then
        match near with
        | E => inl E
        | T _ l' z r' =>
            let (near', far') := match d with Lft => (l', r') | Rgt => (r', l') end in
            inl (plug k (mk d c (mk d false t p near') z (mk d false far' y far)))
        end
      else inl (plug k (mk d c (mk d false t p near) y (paint false far)))
  end.

Fixpoint delete_up (k : path) (t : tree) : tree :=
  if color t then plug k (paint false t)
  else match k with
  | [] => t
  | Frame d c p s :: k =>
      if color s then
        match s with
        | E => E
        | T _ l y r =>
            let (near, far) := match d with Lft => (l, r) | Rgt => (r, l) end in
            match balance d true (Frame d false y far :: k) t p near with
            | inl t' => t'
            | inr t' => plug (Frame d false y far :: k) (paint false t')
            end
        end
      else match balance d c k t p s with
           | inl t' => t'
           | inr t' => delete_up k t'
           end
  end.

Lemma color_paint t : color (paint false t) = false.
Proof. by destruct t. Qed.

Lemma rbt_sides d (l r : tree) near far n :
  (match d with Lft => (l, r) | Rgt => (r, l) end) = (near, far) →
  rbt l n → rbt r n → rbt near n ∧ rbt far n.
Proof. destruct d; by intros [= <- <-]. Qed.

Lemma balance_rbt (d : side) (c : bool) (k : path) (t : tree) (p : ptr) (s : tree) (n : nat) :
  rbt t n → color t = false → rbt s (S n) → color s = false →
  rbt_path k (if c then S n else S (S n)) → (c = true → path_red k = false) →
  match balance d c k t p s with
  | inl t' => ∃ n', rbt t' n' ∧ color t' = false
  | inr t' => color t' = c ∧ rbt (paint false t') (S n) ∧ (c = false → rbt t' (S n))
  end.
Proof.
  intros Ht Ct Hs Cs Hk Hc. inversion Hs as [|? ? ? ? Hl Hr Cl Cr|l y r ? Hl Hr]; subst; [done|].
  unfold balance. destruct (match d with Lft => (l, r) | Rgt => (r, l) end) as [near far] eqn:Enf.
  destruct (rbt_sides d l r near far n Enf Hl Hr) as [Hnear Hfar].
  assert (∀ X y' Y, rbt X (S n) → color X = false → rbt Y (S n) → color Y = false →
    ∃ n', rbt (plug k (mk d c X y' Y)) n' ∧ color (plug k (mk d c X y' Y)) = false) as Hfin.
  { intros X y' Y HX CX HY CY. destruct c.
    - apply (rbt_plug _ _ (S n)); [done|by apply rbt_mk_red|]. rewrite Hc by done. done.
    - apply (rbt_plug _ _ (S (S n))); [done|by apply rbt_mk_black|]. by rewrite color_mk. }
  destruct (color near) eqn:Cn, (color far) eqn:Cf; cbn [negb andb].
  - apply Hfin; [by apply rbt_mk_black|by rewrite color_mk| |apply color_paint].
    inversion Hfar; subst; try done; by constructor.
  - inversion Hnear as [|l' z r' ? Hl' Hr' Cl' Cr'|]; subst; try done.
    destruct (match d with Lft => (l', r') | Rgt => (r', l') end) as [near' far'] eqn:Enf'.
    destruct (rbt_sides d l' r' near' far' n Enf' Hl' Hr') as [Hn' Hf'].
    apply Hfin; rewrite ?color_mk; try done; by apply rbt_mk_black.
  - apply Hfin; [by apply rbt_mk_black|by rewrite color_mk| |apply color_paint].
    inversion Hfar; subst; try done; by constructor.
  - rewrite color_mk. split; [done|].
    assert (rbt (mk d true near y far) n) as Hred by by apply rbt_mk_red.
    split.
    + destruct d; cbn [mk paint]; by constructor.
    + intros ->. by apply rbt_mk_black.
Qed.

Lemma delete_up_rbt k t n :
  rbt_path k (S n) → (color t = true → rbt (paint false t) (S n)) → (color t = false → rbt t n) →
  ∃ n', rbt (delete_up k t) n' ∧ color (delete_up k t) = false.
Proof.
  revert t n. induction k as [|[d c p s] k IH]; intros t n Hk Hr Hb.
  - cbn. destruct (color t) eqn:Ct; [|by eauto]. exists (S n). cbn. rewrite color_paint. auto.
  - cbn [delete_up]. destruct (color t) eqn:Ct.
    { apply (rbt_plug _ _ (S n)); [done|by apply Hr|by rewrite color_paint]. }
    specialize (Hb eq_refl). clear Hr. destruct (color s) eqn:Cs.
    + inversion Hk as [|? ? ? ? ? Hs Cs'|? ? ? ? ? Hs Hk']; subst; [congruence|].
      inversion Hs as [|l y r ? Hl Hr Cl Cr|]; subst; try done.
      destruct (match d with Lft => (l, r) | Rgt => (r, l) end) as [near far] eqn:Enf.
      destruct (rbt_sides d l r near far (S n) Enf Hl Hr) as [Hnear Hfar].
      assert (color near = false) as Cn by (destruct d; by injection Enf as <- <-).
      assert (rbt_path (Frame d false y far :: k) (S n)) as Hk2 by by constructor.
      pose proof (balance_rbt d true (Frame d false y far :: k) t p near n Hb Ct Hnear Cn Hk2
        (λ _, eq_refl)) as Hbal.
      destruct (balance d true _ t p near) as [t'|t']; [done|].
      destruct Hbal as (_ & Hp & _). apply (rbt_plug _ _ (S n)); [done|done|].
      by rewrite color_paint.
    + assert (rbt s (S n) ∧ rbt_path k (if c then S n else S (S n)) ∧
        (c = true → path_red k = false)) as (Hs & Hk' & Hc).
      { inversion Hk; subst; split_and!; done. }
      pose proof (balance_rbt d c k t p s n Hb Ct Hs Cs Hk' Hc) as Hbal.
      destruct (balance d c k t p s) as [t'|t']; [done|].
      destruct Hbal as (Hc' & Hp & Hb'). destruct c.
      * destruct k as [|f k]; [cbn in Hc; by discriminate (Hc eq_refl)|].
        cbn [delete_up]. rewrite Hc'. destruct f as [d2 c2 p2 s2].
        apply (rbt_plug _ _ (S n)); [done|done|]. by rewrite color_paint.
      * apply (IH _ (S n)); [done|by rewrite Hc'|by auto].
Qed.

(** The order of the nodes does not change. *)
Lemma balance_nodes (d : side) (c : bool) (k : path) (t : tree) (p : ptr) (s : tree) (n : nat) :
  rbt s (S n) → color s = false →
  match balance d c k t p s with
  | inl t' => nodes t' = nodes (plug k (mk d c t p s))
  | inr t' => nodes t' = nodes (mk d c t p s)
  end.
Proof.
  intros Hs Cs. inversion Hs as [| |l y r ? Hl Hr]; subst; [done|]. unfold balance.
  destruct d.
  - destruct (color l) eqn:Cl, (color r) eqn:Cr; cbn [negb andb].
    + apply plug_nodes_eq. cbn. by rewrite paint_nodes, <- !app_assoc.
    + destruct l as [|c' l' z r']; [done|]. apply plug_nodes_eq. cbn. by rewrite <- !app_assoc.
    + apply plug_nodes_eq. cbn. by rewrite paint_nodes, <- !app_assoc.
    + done.
  - destruct (color l) eqn:Cl, (color r) eqn:Cr; cbn [negb andb].
    + apply plug_nodes_eq. cbn. by rewrite paint_nodes, <- !app_assoc.
    + apply plug_nodes_eq. cbn. by rewrite paint_nodes, <- !app_assoc.
    + destruct r as [|c' l' z r']; [done|]. apply plug_nodes_eq. cbn.
      by rewrite <- !app_assoc; cbn; rewrite <- !app_assoc.
    + done.
Qed.

Lemma delete_up_nodes k t n :
  rbt_path k (S n) → (color t = false → rbt t n) →
  nodes (delete_up k t) = nodes (plug k t).
Proof.
  revert t n. induction k as [|[d c p s] k IH]; intros t n Hk Hb; cbn [delete_up].
  { destruct (color t); [|done]. cbn. apply paint_nodes. }
  destruct (color t) eqn:Ct; [apply plug_nodes_eq, paint_nodes|]. specialize (Hb eq_refl).
  destruct (color s) eqn:Cs.
  - inversion Hk as [|? ? ? ? ? Hs Cs'|? ? ? ? ? Hs Hk']; subst; [congruence|].
    inversion Hs as [|l y r ? Hl Hr Cl Cr|]; subst; try done.
    destruct (match d with Lft => (l, r) | Rgt => (r, l) end) as [near far] eqn:Enf.
    destruct (rbt_sides d l r near far (S n) Enf Hl Hr) as [Hnear Hfar].
    assert (color near = false) as Cn by (destruct d; by injection Enf as <- <-).
    pose proof (balance_nodes d true (Frame d false y far :: k) t p near n Hnear Cn) as Hbal.
    assert (nodes (plug (Frame d false y far :: k) (mk d true t p near)) =
            nodes (plug (Frame d false p (T true l y r) :: k) t)) as Heq.
    { cbn [plug]. apply plug_nodes_eq.
      destruct d; injection Enf as <- <-; cbn; by rewrite <- !app_assoc. }
    destruct (balance d true _ t p near) as [t'|t']; [congruence|].
    rewrite <- Heq. apply plug_nodes_eq. by rewrite paint_nodes.
  - assert (rbt s (S n)) as Hs by (inversion Hk; subst; auto).
    pose proof (balance_nodes d c k t p s n Hs Cs) as Hbal.
    pose proof (balance_rbt d c k t p s n Hb Ct Hs Cs) as Hrbt.
    assert (rbt_path k (if c then S n else S (S n)) ∧ (c = true → path_red k = false))
      as [Hk' Hc] by (inversion Hk; subst; split; done).
    specialize (Hrbt Hk' Hc).
    destruct (balance d c k t p s) as [t'|t']; [done|]. cbn [plug].
    rewrite <- (plug_nodes_eq k t' _ Hbal). destruct Hrbt as (Hc' & _ & Hb').
    destruct c.
    + destruct k; [cbn in Hc; by discriminate (Hc eq_refl)|]. cbn [delete_up]. rewrite Hc'.
      destruct f. apply plug_nodes_eq, paint_nodes.
    + by apply (IH t' (S n)); [|auto].
Qed.
