(* ===== verification/RbtLevel.v ===== *)
(** * The code on a level's pointers implements the abstract trees

    [level m root up t]: in the store [m], the level whose root pointer is
    [root] and which hangs from the node [up] is the tree [t] ([RbtTree.v]).
    The functions of [Rbt.v] do on the pointers what [add_up] and
    [delete_up] do on trees, touch no node of another level, and never fail
    an assertion or follow a [NULL] pointer. *)

From stdpp Require Import gmap.
From S2P Require Import Prelude Rbt RbtTree.

#[local] Open Scope nat_scope.

(** ** Trees in the store *)

Definition node_of (d : side) (a b par : option ptr) (c isr : bool) : rbtnode :=
  match d with Lft => Node a b par c isr | Rgt => Node b a par c isr end.

Fixpoint tree_at (m : store) (t : tree) (par : option ptr) (isr : bool) : Prop :=
  match t with
  | E => True
  | T c l p r =>
      m !! p = Some (Node (top l) (top r) par c isr) ∧
      tree_at m l (Some p) false ∧ tree_at m r (Some p) false
  end.

Definition parent_of (k : path) (up : option ptr) : option ptr :=
  match k with [] => up | f :: _ => Some (f_ptr f) end.
Definition is_top (k : path) : bool := match k with [] => true | _ => false end.

Fixpoint path_at (m : store) (k : path) (hole up : option ptr) : Prop :=
  match k with
  | [] => True
  | Frame d c p s :: k =>
      m !! p = Some (node_of d hole (top s) (parent_of k up) c (is_top k)) ∧
      tree_at m s (Some p) false ∧ path_at m k (Some p) up
  end.

Fixpoint path_nodes (k : path) : list ptr :=
  match k with [] => [] | Frame _ _ p s :: k => p :: nodes s ++ path_nodes k end.

Record level (m : store) (root up : option ptr) (t : tree) : Prop := Level {
  level_root : root = top t;
  level_at : tree_at m t up true;
  level_nodup : NoDup (nodes t);
  level_up : ∀ u, up = Some u → u ∉ nodes t }.

Lemma tree_at_mk m d c a p b par isr :
  tree_at m (mk d c a p b) par isr ↔
  m !! p = Some (node_of d (top a) (top b) par c isr) ∧
  tree_at m a (Some p) false ∧ tree_at m b (Some p) false.
Proof. destruct d; cbn; tauto. Qed.

Lemma tree_at_plug m k t up :
  tree_at m (plug k t) up true ↔
  path_at m k (top t) up ∧ tree_at m t (parent_of k up) (is_top k).
Proof.
  revert t. induction k as [|[d c p s] k IH]; intros t; cbn [plug path_at parent_of is_top].
  - tauto.
  - rewrite IH, tree_at_mk, top_mk. cbn [f_ptr]. tauto.
Qed.

Lemma plug_perm k t : nodes (plug k t) ≡ₚ path_nodes k ++ nodes t.
Proof.
  revert t. induction k as [|[d c p s] k IH]; intros t; [done|]. cbn.
  rewrite IH, mk_nodes. destruct d; solve_Permutation.
Qed.

Lemma tree_at_agree m m' t par isr :
  (∀ q, q ∈ nodes t → m' !! q = m !! q) → tree_at m t par isr → tree_at m' t par isr.
Proof.
  revert par isr. induction t as [|c l IHl p r IHr]; intros par isr Hag; [done|].
  cbn in *. intros (Hp & Hl & Hr). split; [|split].
  - rewrite Hag; [done|set_solver].
  - apply IHl; [|done]. intros. apply Hag. set_solver.
  - apply IHr; [|done]. intros. apply Hag. set_solver.
Qed.

Lemma path_at_agree m m' k hole up :
  (∀ q, q ∈ path_nodes k → m' !! q = m !! q) → path_at m k hole up → path_at m' k hole up.
Proof.
  revert hole. induction k as [|[d c p s] k IH]; intros hole Hag; [done|].
  cbn in *. intros (Hp & Hs & Hk). split; [|split].
  - rewrite Hag; [done|set_solver].
  - eapply tree_at_agree; [|done]. intros. apply Hag. set_solver.
  - apply IH; [|done]. intros. apply Hag. set_solver.
Qed.

Lemma mk_opp d c a p b : mk (opp d) c b p a = mk d c a p b.
Proof. by destruct d. Qed.
Lemma child_node_of d a b par c isr : child d (node_of d a b par c isr) = a.
Proof. by destruct d. Qed.
Lemma child_opp_node_of d a b par c isr : child (opp d) (node_of d a b par c isr) = b.
Proof. by destruct d. Qed.
Lemma parent_node_of d a b par c isr : parent (node_of d a b par c isr) = par.
Proof. by destruct d. Qed.
Lemma red_node_of d a b par c isr : red (node_of d a b par c isr) = c.
Proof. by destruct d. Qed.
Lemma is_root_node_of d a b par c isr : is_root (node_of d a b par c isr) = isr.
Proof. by destruct d. Qed.

Lemma top_plug f k t t' : top (plug (f :: k) t) = top (plug (f :: k) t').
Proof.
  revert f t t'. induction k as [|g k IH]; intros [d c p s] t t'.
  - cbn [plug]. by rewrite !top_mk.
  - apply (IH g (mk d c t p s) (mk d c t' p s)).
Qed.

(** *** Single assignments *)

Lemma put_red_at m p d a b par c isr v :
  m !! p = Some (node_of d a b par c isr) →
  put_red m p v = Some (<[p := node_of d a b par v isr]> m).
Proof. intros H. unfold put_red. rewrite H. by destruct d. Qed.

Lemma put_child_at m p d a b par c isr v :
  m !! p = Some (node_of d a b par c isr) →
  put_child d m p v = Some (<[p := node_of d v b par c isr]> m) ∧
  put_child (opp d) m p v = Some (<[p := node_of d a v par c isr]> m).
Proof. intros H. unfold put_child. rewrite H. by destruct d. Qed.

Lemma put_parent_at m p d a b par c isr v :
  m !! p = Some (node_of d a b par c isr) →
  put_parent m p v = Some (<[p := node_of d a b v c isr]> m).
Proof. intros H. unfold put_parent. rewrite H. by destruct d. Qed.

Lemma put_is_root_at m p d a b par c isr v :
  m !! p = Some (node_of d a b par c isr) →
  put_is_root m p v = Some (<[p := node_of d a b par c v]> m).
Proof. intros H. unfold put_is_root. rewrite H. by destruct d. Qed.

(** Painting the node in a hole. *)
Lemma paint_level m root up k c l p r v :
  level m root up (plug k (T c l p r)) →
  ∃ m', put_red m p v = Some m' ∧ level m' root up (plug k (T v l p r)) ∧
    (∀ q, q ≠ p → m' !! q = m !! q).
Proof.
  intros [Hr Hat Hd Hu]. apply tree_at_plug in Hat as (Hk & Hp & Hl & Hrt).
  pose proof (put_red_at m p Lft _ _ _ _ _ v Hp) as Hput. eexists. split; [exact Hput|].
  assert (nodes (plug k (T v l p r)) = nodes (plug k (T c l p r))) as Hn by by apply plug_nodes_eq.
  assert (∀ q, q ≠ p → <[p := node_of Lft (top l) (top r) (parent_of k up) v (is_top k)]> m !! q = m !! q)
    as Hag by (intros; by rewrite lookup_insert_ne).
  pose proof Hd as Hd'. rewrite plug_perm in Hd'. cbn in Hd'.
  apply NoDup_app in Hd' as (_ & Hdk & Hdt). apply NoDup_app in Hdt as (_ & Hdl & Hdr).
  apply NoDup_cons in Hdr as [Hdr _].
  split; [|done]. split; rewrite ?Hn; [|apply tree_at_plug|done..].
  - rewrite Hr. destruct k; [done|]. apply top_plug.
  - split; [|split; [|split]].
    + eapply path_at_agree; [|exact Hk]. intros. apply Hag. set_solver.
    + by rewrite lookup_insert_eq.
    + eapply tree_at_agree; [|exact Hl]. intros. apply Hag. set_solver.
    + eapply tree_at_agree; [|exact Hrt]. intros. apply Hag. set_solver.
Qed.

(** ** Rotation *)

(** [b] gets a new parent. *)
Definition reparent (m : store) (b : tree) (par : option ptr) (isr : bool) : store :=
  match b with
  | E => m
  | T c l p r => <[p := Node (top l) (top r) par c isr]> m
  end.

Lemma reparent_ne m b par isr q : q ∉ nodes b → reparent m b par isr !! q = m !! q.
Proof.
  destruct b as [|c l p r]; [done|]. cbn. intros Hq. rewrite lookup_insert_ne; [done|set_solver].
Qed.

Lemma reparent_at m b par isr par' isr' :
  NoDup (nodes b) → tree_at m b par isr → tree_at (reparent m b par' isr') b par' isr'.
Proof.
  destruct b as [|c l p r]; [done|]. cbn. intros Hd (Hp & Hl & Hr).
  apply NoDup_app in Hd as (_ & Hlp & Hd). apply NoDup_cons in Hd as [Hd _].
  split; [by rewrite lookup_insert_eq|].
  split; (eapply tree_at_agree; [|done]); intros q Hq; rewrite lookup_insert_ne; set_solver.
Qed.

Lemma put_parent_reparent m b par isr v :
  tree_at m b par isr →
  match top b with Some q => put_parent m q v | None => Some m end =
    Some (reparent m b v isr).
Proof. destruct b as [|c l p r]; [done|]. cbn. intros (Hp & _). unfold put_parent. by rewrite Hp. Qed.

(** Hanging another node from the frame above the hole. *)
Definition rehang (m : store) (k : path) (v up : option ptr) : store :=
  match k with
  | [] => m
  | Frame d c p s :: k => <[p := node_of d v (top s) (parent_of k up) c (is_top k)]> m
  end.

Lemma rehang_ne m k v up q : q ∉ path_nodes k → rehang m k v up !! q = m !! q.
Proof.
  destruct k as [|[d c p s] k]; [done|]. cbn. intros Hq. rewrite lookup_insert_ne; [done|set_solver].
Qed.

Lemma rehang_at m k hole v up :
  NoDup (path_nodes k) → path_at m k hole up → path_at (rehang m k v up) k v up.
Proof.
  destruct k as [|[d c p s] k]; [done|]. cbn. intros Hd (Hp & Hs & Hk).
  apply NoDup_cons in Hd as [Hd _]. split; [by rewrite lookup_insert_eq|]. split.
  - eapply tree_at_agree; [|done]. intros q Hq. rewrite lookup_insert_ne; set_solver.
  - eapply path_at_agree; [|done]. intros q Hq. rewrite lookup_insert_ne; set_solver.
Qed.

Lemma replace_child_rehang m k x v up :
  k ≠ [] → path_at m k (Some x) up → x ∉ path_nodes k →
  replace_child m (parent_of k up) x v = Some (rehang m k v up).
Proof.
  destruct k as [|[d c p s] k]; [done|]. cbn. intros _ (Hp & Hs & Hk) Hx.
  unfold replace_child. cbn [mbind option_bind]. rewrite Hp. cbn [mbind option_bind].
  destruct d.
  - rewrite bool_decide_true by done. by apply (put_child_at m p Lft _ _ _ _ _ v Hp).
  - rewrite bool_decide_false.
    + by apply (put_child_at m p Rgt _ _ _ _ _ v Hp).
    + cbn. destruct s; [done|]. cbn in *. intros [= ->]. set_solver.
Qed.

(** What [NoDup] says about the parts of a level. *)
Lemma nodup_parts k t : NoDup (nodes (plug k t)) →
  NoDup (path_nodes k) ∧ NoDup (nodes t) ∧ ∀ q, q ∈ path_nodes k → q ∉ nodes t.
Proof. rewrite plug_perm. intros (H1 & H2 & H3)%NoDup_app. auto. Qed.

Lemma nodup_mk d c a p b : NoDup (nodes (mk d c a p b)) →
  NoDup (nodes a) ∧ NoDup (nodes b) ∧ p ∉ nodes a ∧ p ∉ nodes b ∧ ∀ q, q ∈ nodes a → q ∉ nodes b.
Proof.
  rewrite mk_nodes. destruct d; intros (H1 & H2 & H3)%NoDup_app;
    apply NoDup_cons in H3 as [H3 H4]; split_and!; try done; set_solver.
Qed.

Lemma elem_of_mk d c a p b q : q ∈ nodes (mk d c a p b) ↔ q = p ∨ q ∈ nodes a ∨ q ∈ nodes b.
Proof. rewrite mk_nodes. destruct d; set_solver. Qed.

Lemma elem_of_plug k t q : q ∈ nodes (plug k t) ↔ q ∈ path_nodes k ∨ q ∈ nodes t.
Proof. rewrite plug_perm. set_solver. Qed.

Lemma top_elem t q : top t = Some q → q ∈ nodes t.
Proof. destruct t; [done|]. cbn. intros [= ->]. set_solver. Qed.

(** The store after a rotation. *)
Definition rotated (d : side) (m : store) (k : path) (up : option ptr)
    cx a x cy b y e : store :=
  <[x := node_of d (top a) (top b) (Some y) cx false]>
  (rehang (<[y := node_of d (Some x) (top e) (parent_of k up) cy (is_top k)]>
     (reparent m b (Some x) false)) k (Some y) up).

Lemma rotated_level d m root up k cx a x cy b y e :
  level m root up (plug k (mk d cx a x (mk d cy b y e))) →
  let m' := rotated d m k up cx a x cy b y e in
  let t' := plug k (mk d cy (mk d cx a x b) y e) in
  level m' (top t') up t' ∧
  ∀ q, q ∉ nodes (plug k (mk d cx a x (mk d cy b y e))) → m' !! q = m !! q.
Proof.
  intros [Hr Hat Hd Hu] m' t'.
  destruct (nodup_parts _ _ Hd) as (Dk & Dt & Dkt).
  destruct (nodup_mk _ _ _ _ _ Dt) as (Da & Dy & Xa & Xy & Aby).
  destruct (nodup_mk _ _ _ _ _ Dy) as (Db & De & Yb & Ye & Bye).
  apply tree_at_plug in Hat as [Hk Ht]. apply tree_at_mk in Ht as (Hx & Ha & Hy).
  rewrite top_mk in *. apply tree_at_mk in Hy as (Hy & Hb & He).
  assert (x ≠ y) as Hxy by (intros ->; apply Xy, elem_of_mk; auto).
  assert (nodes t' = nodes (plug k (mk d cx a x (mk d cy b y e)))) as Hn.
  { apply plug_nodes_eq. destruct d; cbn; by rewrite <- ?app_assoc. }
  assert (∀ q, q ∈ path_nodes k → q ≠ x ∧ q ≠ y ∧ q ∉ nodes b) as Kq.
  { intros q Hq. split_and!; intros Hc; apply (Dkt q Hq); rewrite !elem_of_mk; auto. }
  assert (∀ q, q ≠ x → q ≠ y → q ∉ nodes b → q ∉ path_nodes k → m' !! q = m !! q) as Hag.
  { intros q Qx Qy Qb Qk. subst m'. unfold rotated. rewrite lookup_insert_ne by done.
    rewrite rehang_ne by done. rewrite lookup_insert_ne by done. by apply reparent_ne. }
  split; [|intros q Hq; rewrite elem_of_plug, !elem_of_mk in Hq; apply Hag; tauto].
  split; [done| |by rewrite Hn|by rewrite Hn].
  apply tree_at_plug. rewrite top_mk. split; [|apply tree_at_mk; rewrite top_mk; split; [|split]].
  - apply (path_at_agree (rehang m k (Some y) up)); [|by eapply rehang_at].
    intros q Hq. destruct (Kq q Hq) as (Qx & Qy & Qb). subst m'. unfold rotated.
    rewrite lookup_insert_ne by done. destruct k as [|[d2 c2 g s] k]; [by apply elem_of_nil in Hq|]. cbn [rehang].
    destruct (decide (q = g)) as [->|Hqg]; [by rewrite !lookup_insert_eq|].
    rewrite !(lookup_insert_ne _ g) by done. rewrite lookup_insert_ne by done.
    by apply reparent_ne.
  - subst m'. unfold rotated. rewrite lookup_insert_ne by done. rewrite rehang_ne.
    + by rewrite lookup_insert_eq.
    + intros Hq. by destruct (Kq y Hq) as (_ & ? & _).
  - apply tree_at_mk. split; [|split].
    + subst m'. unfold rotated. by rewrite lookup_insert_eq.
    + eapply tree_at_agree; [|exact Ha]. intros q Hq. apply Hag.
      * by intros ->.
      * intros ->. apply (Aby y Hq), elem_of_mk. auto.
      * intros Hqb. apply (Aby q Hq), elem_of_mk. auto.
      * intros Hqk. apply (Dkt q Hqk), elem_of_mk. auto.
    + apply (tree_at_agree (reparent m b (Some x) false)); [|by eapply reparent_at].
      intros q Hq. subst m'. unfold rotated. rewrite lookup_insert_ne.
      2: { intros ->. apply Xy, elem_of_mk. auto. }
      rewrite rehang_ne by (intros Hqk; by destruct (Kq q Hqk) as (_ & _ & ?)).
      rewrite lookup_insert_ne; [done|]. intros ->. done.
  - eapply tree_at_agree; [|exact He]. intros q Hq. apply Hag.
    + intros ->. apply Xy, elem_of_mk. auto.
    + by intros ->.
    + intros Hqb. by apply (Bye q).
    + intros Hqk. apply (Dkt q Hqk). rewrite !elem_of_mk. auto.
Qed.

Lemma rotate_rotated d m root up k cx a x cy b y e :
  level m root up (plug k (mk d cx a x (mk d cy b y e))) →
  rotate d m x root =
    Some (rotated d m k up cx a x cy b y e, top (plug k (mk d cy (mk d cx a x b) y e))).
Proof.
  intros [Hr Hat Hd Hu].
  destruct (nodup_parts _ _ Hd) as (Dk & Dt & Dkt).
  destruct (nodup_mk _ _ _ _ _ Dt) as (Da & Dy & Xa & Xy & Aby).
  destruct (nodup_mk _ _ _ _ _ Dy) as (Db & De & Yb & Ye & Bye).
  apply tree_at_plug in Hat as [Hk Ht]. apply tree_at_mk in Ht as (Hx & Ha & Hy).
  rewrite top_mk in *. apply tree_at_mk in Hy as (Hy & Hb & He).
  assert (x ≠ y) as Hxy by (intros ->; apply Xy, elem_of_mk; auto).
  assert (x ∉ nodes b) as Xb by (intros Hq; apply Xy, elem_of_mk; auto).
  assert (∀ q, q ∈ path_nodes k → q ≠ x ∧ q ≠ y ∧ q ∉ nodes b) as Kq.
  { intros q Hq. split_and!; intros Hc; apply (Dkt q Hq); rewrite !elem_of_mk; auto. }
  unfold rotate. rewrite Hx. cbn [mbind option_bind]. rewrite child_opp_node_of.
  cbn [mbind option_bind]. rewrite Hy. cbn [mbind option_bind].
  rewrite (proj2 (put_child_at m x d _ _ _ _ _ _ Hx)). cbn [mbind option_bind].
  rewrite child_node_of. set (m1 := <[x := _]> m).
  assert (tree_at m1 b (Some y) false) as Hb1.
  { eapply tree_at_agree; [|exact Hb]. intros q Hq. unfold m1.
    rewrite lookup_insert_ne; [done|]. by intros ->. }
  rewrite (put_parent_reparent _ _ _ _ _ Hb1). cbn [mbind option_bind].
  set (m2 := reparent m1 b (Some x) false).
  assert (m2 !! y = Some (node_of d (top b) (top e) (Some x) cy false)) as Hy2.
  { unfold m2. rewrite reparent_ne by done. unfold m1. by rewrite lookup_insert_ne. }
  rewrite (proj1 (put_child_at m2 y d _ _ _ _ _ _ Hy2)). cbn [mbind option_bind].
  erewrite put_parent_at by apply lookup_insert_eq. cbn [mbind option_bind].
  rewrite insert_insert_eq, parent_node_of, is_root_node_of.
  set (m4 := <[y := _]> m2).
  assert (m4 !! x = Some (node_of d (top a) (top b) (parent_of k up) cx (is_top k))) as Hx4.
  { unfold m4. rewrite lookup_insert_ne by done. unfold m2. rewrite reparent_ne by done.
    unfold m1. by rewrite lookup_insert_eq. }
  assert (∀ k' (m' : store), k' = k →
    (∀ q, q ≠ x → m' !! q = rehang (<[y := node_of d (Some x) (top e) (parent_of k up) cy (is_top k)]>
      (reparent m b (Some x) false)) k (Some y) up !! q) →
    <[x := node_of d (top a) (top b) (Some y) cx false]> m' = rotated d m k up cx a x cy b y e)
    as Hfin.
  { intros _ m' _ Hm'. apply map_eq. intros q. unfold rotated.
    destruct (decide (q = x)) as [->|Hq]; [by rewrite !lookup_insert_eq|].
    rewrite !(lookup_insert_ne _ x) by done. by apply Hm'. }
  destruct k as [|[d2 c2 g s] k]; cbn [is_top].
  - erewrite put_is_root_at by apply lookup_insert_eq. cbn [mbind option_bind].
    unfold m4 at 1. rewrite insert_insert_eq.
    erewrite put_is_root_at by (rewrite lookup_insert_ne by done;
      unfold m4 in Hx4; rewrite lookup_insert_ne in Hx4 by done; exact Hx4).
    cbn [mbind option_bind]. erewrite put_parent_at by apply lookup_insert_eq.
    cbn [mbind option_bind]. rewrite insert_insert_eq. cbn [plug]. rewrite top_mk.
    rewrite (Hfin []); [done..|]. intros q Hq. cbn [rehang].
    unfold m2, m1. rewrite !lookup_insert. case_decide; [done|].
    destruct b as [|cb bl bp br]; cbn [reparent].
    + by rewrite lookup_insert_ne.
    + rewrite !lookup_insert. repeat case_decide; congruence.
  - assert (path_at m4 (Frame d2 c2 g s :: k) (Some x) up) as Hk4.
    { eapply path_at_agree; [|exact Hk]. intros q Hq. destruct (Kq q Hq) as (? & ? & ?).
      unfold m4. rewrite lookup_insert_ne by done. unfold m2. rewrite reparent_ne by done.
      unfold m1. by rewrite lookup_insert_ne. }
    rewrite (replace_child_rehang m4 (Frame d2 c2 g s :: k) x (Some y) up);
      [|done|exact Hk4|intros Hq; by destruct (Kq x Hq) as (? & _)].
    cbn [mbind option_bind].
    assert (g ≠ x ∧ g ≠ y) as [Gx Gy].
    { destruct (Kq g) as (? & ? & _); [set_solver +|done]. }
    erewrite put_parent_at by (cbn [rehang]; rewrite lookup_insert_ne by done; exact Hx4).
    cbn [mbind option_bind].
    rewrite (Hfin (Frame d2 c2 g s :: k)); [|done|].
    { rewrite Hr. f_equal. f_equal. apply top_plug. }
    intros q Hq. cbn [rehang]. rewrite !(lookup_insert _ g). case_decide; [done|].
    unfold m4, m2, m1. rewrite !(lookup_insert _ y). case_decide; [done|].
    destruct b as [|cb bl bp br]; cbn [reparent].
    + by rewrite lookup_insert_ne.
    + rewrite !lookup_insert. repeat case_decide; congruence.
Qed.

(** [rotate_left] and [rotate_right] rotate. *)
Lemma rotate_level d m root up k cx a x cy b y e :
  level m root up (plug k (mk d cx a x (mk d cy b y e))) →
  let t' := plug k (mk d cy (mk d cx a x b) y e) in
  ∃ m', rotate d m x root = Some (m', top t') ∧ level m' (top t') up t' ∧
    ∀ q, q ∉ nodes t' → m' !! q = m !! q.
Proof.
  intros Hl t'. destruct (rotated_level _ _ _ _ _ _ _ _ _ _ _ _ Hl) as [Hl' Hf].
  eexists. split; [by apply rotate_rotated|]. split; [done|]. intros q Hq. apply Hf.
  subst t'. rewrite elem_of_plug, !elem_of_mk in *. tauto.
Qed.
