(* ===== verification/RbtAdd.v ===== *)
(** * Insertion into a level

    [add_fix], the loop of [dns_rbt_addonlevel], is [add_up] on trees; so
    [dns_rbt_addonlevel] adds the node in its place, restores the red-black
    invariant and touches nothing outside the level. *)

From stdpp Require Import gmap.
From S2P Require Import Prelude Rbt RbtTree RbtLevel.

#[local] Open Scope nat_scope.

(** ** Places in a level *)

Lemma IS_RED_at m t par isr : tree_at m t par isr → IS_RED m (top t) = Some (color t).
Proof. destruct t as [|c l p r]; [done|]. cbn. intros (Hp & _). by rewrite Hp. Qed.

Lemma plug_other d c p s k t : plug (Frame d c p s :: k) t = plug (Frame (opp d) c p t :: k) s.
Proof. by destruct d. Qed.

Lemma top_plug_elem f k t q : top (plug (f :: k) t) = Some q → q ∈ path_nodes (f :: k).
Proof.
  revert f t. induction k as [|g k IH]; intros [d c p s] t; cbn [plug].
  - rewrite top_mk. intros [= ->]. set_solver.
  - intros Hq. apply IH in Hq. cbn [path_nodes]. set_solver.
Qed.

(** What the pointers say at a hole. *)
Record hole_at (m : store) (root up : option ptr) (k : path) (t : tree) : Prop := HoleAt {
  hole_root : root = top (plug k t);
  hole_path : path_at m k (top t) up;
  hole_tree : tree_at m t (parent_of k up) (is_top k);
  hole_apart : ∀ q, q ∈ path_nodes k → q ∉ nodes t;
  hole_nodup : NoDup (path_nodes k);
  hole_nodup_tree : NoDup (nodes t) }.

Lemma level_hole m root up k t : level m root up (plug k t) → hole_at m root up k t.
Proof.
  intros [Hr Hat Hd _]. apply tree_at_plug in Hat as [Hk Ht].
  by destruct (nodup_parts _ _ Hd) as (? & ? & ?).
Qed.

Lemma hole_not_root m root up f k t x :
  hole_at m root up (f :: k) t → top t = Some x → Some x ≠ root.
Proof.
  intros H Hx Hc. rewrite (hole_root _ _ _ _ _ H) in Hc. symmetry in Hc.
  apply top_plug_elem in Hc. by apply (hole_apart _ _ _ _ _ H x Hc), top_elem.
Qed.

(** A child pointer tells the side of the hole. *)
Lemma hole_side m root up d c p s k t :
  hole_at m root up (Frame d c p s :: k) t → t ≠ E ∨ s ≠ E →
  top s ≠ top t.
Proof.
  intros H Hne Heq. destruct t as [|ct l x r]; [by destruct s, Hne|].
  cbn in Heq. apply (hole_apart _ _ _ _ _ H x); [|cbn; set_solver].
  apply top_elem in Heq. cbn. set_solver.
Qed.

Lemma paint_mk m root up k d c a p b v :
  level m root up (plug k (mk d c a p b)) →
  ∃ m', put_red m p v = Some m' ∧ level m' root up (plug k (mk d v a p b)) ∧
    (∀ q, q ∉ nodes (plug k (mk d c a p b)) → m' !! q = m !! q).
Proof.
  intros H. assert (∀ q, q ∉ nodes (plug k (mk d c a p b)) → q ≠ p) as Hp.
  { intros q Hq ->. apply Hq. rewrite elem_of_plug, elem_of_mk. auto. }
  destruct d; destruct (paint_level _ _ _ _ _ _ _ _ v H) as (m' & H1 & H2 & H3);
    exists m'; auto.
Qed.

Lemma paint_top m root up k t x v :
  level m root up (plug k t) → top t = Some x →
  ∃ m', put_red m x v = Some m' ∧ level m' root up (plug k (paint v t)) ∧
    (∀ q, q ∉ nodes (plug k t) → m' !! q = m !! q).
Proof. destruct t as [|c l p r]; [done|]. cbn. intros H [= ->]. by apply (paint_mk _ _ _ k Lft c). Qed.

(** ** The loop *)

(** It stops at the root and below a black node. *)
Definition calm (k : path) : bool := match k with [] => true | f :: _ => negb (f_red f) end.

Lemma add_fix_done fuel m root up k t x :
  level m root up (plug k t) → top t = Some x → calm k → add_fix (S fuel) m x root = Some (m, root).
Proof.
  intros H%level_hole Hx Hc. cbn [add_fix]. pose proof (hole_tree _ _ _ _ _ H) as Ht.
  destruct t as [|c l y r]; [done|]. injection Hx as ->. destruct Ht as (Hm & _ & _).
  rewrite Hm. cbn [mbind option_bind]. destruct k as [|[d c' p s] k].
  - rewrite bool_decide_false by (intros Hn; apply Hn; by rewrite (hole_root _ _ _ _ _ H)). done.
  - rewrite bool_decide_true by by eapply hole_not_root. cbn [parent parent_of f_ptr].
    destruct (hole_path _ _ _ _ _ H) as (Hp & _). cbn [IS_RED mbind option_bind].
    rewrite Hp. cbn [mbind option_bind]. rewrite red_node_of.
    cbn in Hc. by destruct c'.
Qed.

(** Below a red node, the loop looks at four nodes. *)
Lemma red_pair m root up d p s d' c' g u k a x b :
  level m root up (plug (Frame d true p s :: Frame d' c' g u :: k) (T true a x b)) →
  m !! x = Some (Node (top a) (top b) (Some p) true false) ∧
  m !! p = Some (node_of d (Some x) (top s) (Some g) true false) ∧
  m !! g = Some (node_of d' (Some p) (top u) (parent_of k up) c' (is_top k)) ∧
  IS_RED m (top u) = Some (color u) ∧
  Some x ≠ root ∧ top s ≠ Some x ∧ top u ≠ Some p.
Proof.
  intros H. pose proof (level_hole _ _ _ _ _ H) as Hx.
  pose proof (level_hole _ _ _ (Frame d' c' g u :: k) (mk d true (T true a x b) p s) H) as Hp.
  destruct (hole_tree _ _ _ _ _ Hx) as (Mx & _ & _).
  destruct (hole_path _ _ _ _ _ Hx) as (Mp & _ & Mg & Hu & _).
  split_and!; [done|done|done|by eapply IS_RED_at| | |].
  - by apply (hole_not_root _ _ _ _ _ _ _ Hx).
  - apply (hole_side _ _ _ _ _ _ _ _ _ Hx). by left.
  - rewrite <- (top_mk d true (T true a x b) p s). apply (hole_side _ _ _ _ _ _ _ _ _ Hp).
    left. by destruct d.
Qed.

(** The uncle is red: three nodes change colour. *)
Lemma recolour m root up d p s d' c' g u k t :
  color u = true →
  level m root up (plug (Frame d true p s :: Frame d' c' g u :: k) t) →
  ∃ m1 m2 m3 q, top u = Some q ∧
    put_red m p false = Some m1 ∧ put_red m1 q false = Some m2 ∧ put_red m2 g true = Some m3 ∧
    level m3 root up (plug k (mk d' true (mk d false t p s) g (paint false u))) ∧
    (∀ q, q ∉ nodes (plug (Frame d true p s :: Frame d' c' g u :: k) t) → m3 !! q = m !! q).
Proof.
  intros Cu H. destruct u as [|cu ul q ur]; [done|].
  destruct (paint_mk m root up (Frame d' c' g (T cu ul q ur) :: k) d true t p s false H)
    as (m1 & P1 & H1 & F1).
  rewrite plug_other in H1.
  destruct (paint_top _ _ _ _ (T cu ul q ur) q false H1 eq_refl) as (m2 & P2 & H2 & F2).
  rewrite plug_other in H2. replace (opp (opp d')) with d' in H2 by by destruct d'.
  destruct (paint_mk _ _ _ k d' c' _ g _ true H2) as (m3 & P3 & H3 & F3).
  exists m1, m2, m3, q. split_and!; try done.
  intros q' Hq. cbn [plug] in *. rewrite F3, F2, F1; [done|..]; intros Hc; apply Hq; revert Hc;
    rewrite !elem_of_plug, ?elem_of_mk; cbn; set_solver.
Qed.

(** The uncle is black: the last rotation, after which the loop stops. *)
Lemma last_rotation m root up d p s g u k t :
  level m root up (plug (Frame d true p s :: Frame d false g u :: k) t) →
  let t' := plug k (mk d false t p (mk d true s g u)) in
  ∃ m1 m2 m3, put_red m p false = Some m1 ∧ put_red m1 g true = Some m2 ∧
    rotate (opp d) m2 g root = Some (m3, top t') ∧ level m3 (top t') up t' ∧
    (∀ q, q ∉ nodes (plug (Frame d true p s :: Frame d false g u :: k) t) → m3 !! q = m !! q).
Proof.
  intros H t'.
  destruct (paint_mk m root up (Frame d false g u :: k) d true t p s false H) as (m1 & P1 & H1 & F1).
  destruct (paint_mk m1 root up k d false (mk d false t p s) g u true H1) as (m2 & P2 & H2 & F2).
  rewrite <- (mk_opp d true), <- (mk_opp d false) in H2.
  destruct (rotate_level _ _ _ _ _ _ _ _ _ _ _ _ H2) as (m3 & P3 & H3 & F3).
  rewrite !mk_opp in *. exists m1, m2, m3. split_and!; try done.
  intros q Hq. cbn [plug] in *. rewrite F3, F2, F1; [done|..]; intros Hc; apply Hq; revert Hc;
    rewrite !elem_of_plug, !elem_of_mk; tauto.
Qed.

(** The inner grandchild is lifted first. *)
Lemma first_rotation m root up d p s g u k near x far :
  level m root up (plug (Frame (opp d) true p s :: Frame d false g u :: k) (mk d true near x far)) →
  ∃ m' root', rotate d m p root = Some (m', root') ∧
    level m' root' up (plug (Frame d true x far :: Frame d false g u :: k) (mk d true s p near)) ∧
    (∀ q, q ∉ nodes (plug (Frame (opp d) true p s :: Frame d false g u :: k) (mk d true near x far)) →
      m' !! q = m !! q).
Proof.
  intros H. change (level m root up
    (plug (Frame d false g u :: k) (mk (opp d) true (mk d true near x far) p s))) in H.
  rewrite mk_opp in H. destruct (rotate_level _ _ _ _ _ _ _ _ _ _ _ _ H) as (m' & P & Hl & F).
  exists m', (top (plug (Frame d false g u :: k) (mk d true (mk d true s p near) x far))).
  split_and!; [done|done|]. intros q Hq. apply F. intros Hc. apply Hq. revert Hc.
  cbn [plug]. rewrite !elem_of_plug, !elem_of_mk. tauto.
Qed.

(** The run from the hole of [k] ends with the tree [t], up to the colour of
    its root, which the code paints black in the end. *)
Definition adds (fuel : nat) (m : store) (root up : option ptr) (x : ptr) (S : list ptr) (t : tree)
    : Prop :=
  ∃ m' root' t', add_fix fuel m x root = Some (m', root') ∧ level m' root' up t' ∧
    (∀ q, q ∉ S → m' !! q = m !! q) ∧ paint false t' = paint false t.

Lemma adds_done fuel m root up k t x S :
  level m root up (plug k t) → top t = Some x → calm k → adds (Datatypes.S fuel) m root up x S (plug k t).
Proof.
  intros H Hx Hc. exists m, root, (plug k t). split_and!; try done. by eapply add_fix_done.
Qed.

(** One round of the loop below a red node. *)
Lemma add_fix_round fuel m root up d p s d' g u k a x b :
  level m root up (plug (Frame d true p s :: Frame d' false g u :: k) (T true a x b)) →
  add_fix (S fuel) m x root =
    if color u then
      q ← top u; m1 ← put_red m p false; m2 ← put_red m1 q false; m3 ← put_red m2 g true;
      add_fix fuel m3 g root
    else if decide (d = d') then
      m1 ← put_red m p false; m2 ← put_red m1 g true;
      '(m3, root) ← rotate (opp d') m2 g root; add_fix fuel m3 x root
    else
      '(m0, root) ← rotate d' m p root;
      n ← m0 !! p; par ← parent n; pn ← m0 !! par; grand ← parent pn;
      m1 ← put_red m0 par false; m2 ← put_red m1 grand true;
      '(m3, root) ← rotate (opp d') m2 grand root; add_fix fuel m3 p root.
Proof.
  intros (Mx & Mp & Mg & Iu & Nr & Ns & Nu)%red_pair. cbn [add_fix].
  rewrite Mx. cbn [mbind option_bind parent]. rewrite bool_decide_true by done.
  cbn [IS_RED mbind option_bind]. rewrite Mp. cbn [mbind option_bind].
  rewrite red_node_of, parent_node_of. cbn [mbind option_bind]. rewrite Mg. cbn [mbind option_bind].
  assert ((if bool_decide (Some p = left (node_of d' (Some p) (top u) (parent_of k up) false (is_top k)))
           then Lft else Rgt) = d') as ->.
  { destruct d'; cbn; [by rewrite bool_decide_true|]. rewrite bool_decide_false; [done|congruence]. }
  rewrite child_opp_node_of, Iu. cbn [mbind option_bind]. destruct (color u) eqn:Cu; [done|].
  destruct (decide (d = d')) as [<-|Hd].
  - rewrite child_opp_node_of, bool_decide_false by congruence. done.
  - assert (child (opp d') (node_of d (Some x) (top s) (Some g) true false) = Some x) as ->
      by by destruct d, d'.
    rewrite bool_decide_true by done. destruct (rotate d' m p root) as [[m0 root0]|]; [|done].
    cbn [mbind option_bind]. destruct (m0 !! p) as [n|]; [|done]. cbn [mbind option_bind].
    destruct (parent n) as [par|]; [|done]. cbn [mbind option_bind].
    destruct (m0 !! par) as [pn|]; [|done]. cbn [mbind option_bind].
    by destruct (parent pn).
Qed.

Lemma adds_next fuel m m' root root' up x x' S S' t :
  add_fix (Datatypes.S fuel) m x root = add_fix fuel m' x' root' →
  (∀ q, q ∉ S → m' !! q = m !! q) → (∀ q, q ∈ S' → q ∈ S) →
  adds fuel m' root' up x' S' t → adds (Datatypes.S fuel) m root up x S t.
Proof.
  intros Heq Hm HS (m2 & r2 & t2 & Hrun & Hl & Hf & Hp). exists m2, r2, t2.
  rewrite Heq. split_and!; try done. intros q Hq. rewrite Hf; auto.
Qed.

#[local] Ltac run_in H P := rewrite P in H; cbn [mbind option_bind] in H.

(** The three cases below a red node: the uncle is red, and the search goes
    on two levels up ... *)
Lemma add_fix_uncle fuel m root up d p s d' g u k a x b l r S t :
  level m root up (plug (Frame d true p s :: Frame d' false g u :: k) (T true a x b)) →
  color u = true → mk d' true (mk d false (T true a x b) p s) g (paint false u) = T true l g r →
  (∀ m', level m' root up (plug k (T true l g r)) →
    adds fuel m' root up g (nodes (plug k (T true l g r))) t) →
  S = nodes (plug (Frame d true p s :: Frame d' false g u :: k) (T true a x b)) →
  adds (Datatypes.S fuel) m root up x S t.
Proof.
  intros H Cu Egt IH ->.
  pose proof (add_fix_round fuel _ _ _ _ _ _ _ _ _ _ _ _ _ H) as Hround. rewrite Cu in Hround.
  destruct (recolour _ _ _ _ _ _ _ _ _ _ _ _ Cu H) as (m1 & m2 & m3 & q & Hq & P1 & P2 & P3 & H3 & F).
  run_in Hround Hq. run_in Hround P1. run_in Hround P2. run_in Hround P3.
  rewrite Egt in H3. eapply adds_next; [exact Hround|exact F| |by apply IH].
  intros q' Hq'. rewrite <- Egt in Hq'. cbn [plug]. revert Hq'.
  by rewrite !elem_of_plug, !elem_of_mk, paint_nodes.
Qed.

(** ... or the node is an outer grandchild ... *)
Lemma add_fix_outer fuel m root up d p s g u k a x b S :
  level m root up (plug (Frame d true p s :: Frame d false g u :: k) (T true a x b)) →
  color u = false →
  S = nodes (plug (Frame d true p s :: Frame d false g u :: k) (T true a x b)) →
  adds (Datatypes.S (Datatypes.S fuel)) m root up x S
    (plug k (mk d false (T true a x b) p (mk d true s g u))).
Proof.
  intros H Cu ->.
  pose proof (add_fix_round (Datatypes.S fuel) _ _ _ _ _ _ _ _ _ _ _ _ _ H) as Hround.
  rewrite Cu, decide_True in Hround by done.
  destruct (last_rotation _ _ _ _ _ _ _ _ _ _ H) as (m1 & m2 & m3 & P1 & P2 & P3 & H3 & F).
  run_in Hround P1. run_in Hround P2. run_in Hround P3.
  eapply adds_next; [exact Hround|exact F| |].
  - intros q Hq. exact Hq.
  - by apply (adds_done _ _ _ _ (Frame d false p (mk d true s g u) :: k) (T true a x b)).
Qed.

(** ... or an inner one. *)
Lemma add_fix_inner fuel m root up d p s g u k a x b near far S :
  level m root up (plug (Frame (opp d) true p s :: Frame d false g u :: k) (T true a x b)) →
  color u = false → T true a x b = mk d true near x far →
  S = nodes (plug (Frame (opp d) true p s :: Frame d false g u :: k) (T true a x b)) →
  adds (Datatypes.S (Datatypes.S fuel)) m root up x S
    (plug k (mk d false (mk d true s p near) x (mk d true far g u))).
Proof.
  intros H Cu Ex ->.
  pose proof (add_fix_round (Datatypes.S fuel) _ _ _ _ _ _ _ _ _ _ _ _ _ H) as Hround.
  rewrite Cu, decide_False in Hround by by destruct d. rewrite Ex in *.
  destruct (first_rotation _ _ _ _ _ _ _ _ _ _ _ _ H) as (m0 & root0 & P0 & H0 & F0).
  destruct (last_rotation _ _ _ _ _ _ _ _ _ _ H0) as (m1 & m2 & m3 & P1 & P2 & P3 & H3 & F).
  destruct (level_hole _ _ _ _ _ H0) as [_ (Mx & _ & _) Mp _ _ _].
  apply tree_at_mk in Mp as (Mp & _).
  run_in Hround P0. run_in Hround Mp. rewrite parent_node_of in Hround.
  cbn [mbind option_bind parent_of f_ptr] in Hround.
  run_in Hround Mx. rewrite parent_node_of in Hround.
  cbn [mbind option_bind parent_of f_ptr] in Hround.
  run_in Hround P1. run_in Hround P2. run_in Hround P3.
  eapply adds_next; [exact Hround| |intros q Hq; exact Hq|].
  2: { apply (adds_done _ _ _ _ (Frame d false x (mk d true far g u) :: k) (mk d true s p near));
         [exact H3|by rewrite top_mk|done]. }
  intros q Hq. rewrite F, F0; [done|done|]. intros Hc. apply Hq. revert Hc.
  cbn [plug]. rewrite !elem_of_plug, !elem_of_mk. tauto.
Qed.

(** The whole loop. *)
Lemma add_fix_level fuel m root up k a x b n :
  level m root up (plug k (T true a x b)) → rbt_path k n → length k < fuel →
  adds fuel m root up x (nodes (plug k (T true a x b))) (add_up k a x b).
Proof.
  revert fuel m a x b n.
  induction k as [|[d c p s]|[d c p s] [d' c' g u] k IH] using path_ind2;
    intros [|fuel] m a x b n H Hk Hf; cbn in Hf; try lia.
  - exists m, root, (T true a x b). split_and!; try done.
    by apply (add_fix_done _ _ _ up [] (T true a x b) x).
  - assert (c = false) as -> by by inversion Hk.
    by apply (adds_done _ _ _ _ [Frame d false p s] (T true a x b)).
  - destruct c.
    2: { by apply (adds_done _ _ _ _ (Frame d false p s :: _) (T true a x b)). }
    assert (c' = false ∧ ∃ n', rbt_path k n') as [-> [n' Hk']].
    { inversion Hk as [|? ? ? ? ? ? ? Hk' Hr|]; subst. cbn in Hr. subst. split; [done|].
      inversion Hk'; subst. by eexists. }
    cbn [add_up]. destruct (color u) eqn:Cu; [|destruct (decide (d = d')) as [<-|Hd]].
    + destruct (mk d' true _ g (paint false u)) as [|c l g' r] eqn:Egt; [by destruct d'|].
      assert (c = true ∧ g' = g) as [-> ->] by by destruct d'; injection Egt.
      eapply add_fix_uncle; [exact H|done|exact Egt| |done].
      intros m' Hm'. apply (IH _ _ _ _ _ n' Hm' Hk'). lia.
    + destruct fuel; [lia|]. by eapply add_fix_outer.
    + destruct (match d with Lft => (b, a) | Rgt => (a, b) end) as [near far] eqn:Enf.
      assert (d = opp d' ∧ T true a x b = mk d' true near x far) as [-> Ex]
        by by destruct d, d'; injection Enf as <- <-.
      destruct fuel; [lia|]. by eapply add_fix_inner.
Qed.

(** ** The new node *)

Lemma node_place t p : p ∈ nodes t → ∃ k c l r, t = plug k (T c l p r).
Proof.
  induction t as [|c l IHl q r IHr]; cbn; [set_solver|].
  rewrite elem_of_app, elem_of_cons. intros [Hp|[->|Hp]].
  - destruct (IHl Hp) as (k & c' & l' & r' & ->). exists (k ++ [Frame Lft c q r]), c', l', r'.
    by rewrite plug_app.
  - by exists [], c, l, r.
  - destruct (IHr Hp) as (k & c' & l' & r' & ->). exists (k ++ [Frame Rgt c q l]), c', l', r'.
    by rewrite plug_app.
Qed.

Lemma rbt_plug_inv k t n : rbt (plug k t) n → color (plug k t) = false →
  ∃ n', rbt t n' ∧ rbt_path k n' ∧ (path_red k = true → color t = false).
Proof.
  revert t. induction k as [|[d c p s] k IH]; intros t Hr Hc; cbn [plug] in *.
  - exists n. split_and!; [done|constructor|done].
  - destruct (IH _ Hr Hc) as (n' & Ht & Hk & Hred). rewrite color_mk in Hred.
    destruct (rbt_mk_inv _ _ _ _ _ _ Ht) as [(-> & Ha & Hb & Ca & Cb)|(-> & n1 & -> & Ha & Hb)].
    + exists n'. split_and!; [done| |done]. constructor; try done.
      destruct (path_red k); [|done]. by discriminate Hred.
    + exists n1. split_and!; [done|by constructor|done].
Qed.

(** A level's nodes are in the store, so [size m] bounds its paths. *)
Lemma tree_at_dom m t par isr p : tree_at m t par isr → p ∈ nodes t → p ∈ dom m.
Proof.
  revert par isr. induction t as [|c l IHl q r IHr]; intros par isr; cbn; [set_solver|].
  intros (Hq & Hl & Hr). rewrite elem_of_app, elem_of_cons. intros [Hp|[->|Hp]]; [by eauto| |by eauto].
  by apply elem_of_dom_2 in Hq.
Qed.

Lemma level_size m root up t : level m root up t → length (nodes t) <= size m.
Proof.
  intros [_ Hat Hd _]. rewrite <- (size_dom m), <- (size_list_to_set (C := gset ptr) _ Hd).
  apply subseteq_size. intros p Hp%elem_of_list_to_set. by eapply tree_at_dom.
Qed.

Lemma path_length k : length k <= length (path_nodes k).
Proof. induction k as [|[d c p s] k IH]; cbn; [lia|]. rewrite length_app. lia. Qed.

Lemma level_path_size m root up k t : level m root up (plug k t) → length k <= size m.
Proof.
  intros H. pose proof (level_size _ _ _ _ H) as Hs.
  rewrite plug_perm, length_app in Hs. pose proof (path_length k). lia.
Qed.

(** Hanging a leaf in an empty place. *)
Lemma hang_leaf m root up d c p s k x c0 :
  let n := Node None None None c0 false in
  level m root up (plug (Frame d c p s :: k) E) →
  m !! x = Some n → x ∉ nodes (plug (Frame d c p s :: k) E) → up ≠ Some x →
  ∃ m1 m2 m3, put_child d m p (Some x) = Some m1 ∧ m1 !! x = Some n ∧
    put_parent m1 x (Some p) = Some m2 ∧ put_red m2 x true = Some m3 ∧
    level m3 root up (plug (Frame d c p s :: k) (T true E x E)) ∧
    (∀ q, q ≠ x → q ∉ nodes (plug (Frame d c p s :: k) E) → m3 !! q = m !! q).
Proof.
  intros n H Hx Hn Hu. destruct (level_hole _ _ _ _ _ H) as [Hr Hk _ _ Dk _].
  rewrite elem_of_plug in Hn. destruct Hk as (Mp & Hs & Hk).
  assert (x ≠ p) as Hxp by (intros ->; apply Hn; cbn; set_solver).
  pose proof (proj1 (put_child_at m p d _ _ _ _ _ (Some x) Mp)) as P1.
  eexists _, _, _. split; [exact P1|]. split; [by rewrite lookup_insert_ne|].
  split; [apply (put_parent_at _ x Lft None None None c0 false); by rewrite lookup_insert_ne|].
  split; [apply (put_red_at _ x Lft None None (Some p) c0 false); by rewrite lookup_insert_eq|].
  rewrite insert_insert_eq.
  set (m3 := <[x := _]> _).
  assert (∀ q, q ≠ x → q ≠ p → m3 !! q = m !! q) as Hag
    by (intros q Qx Qp; unfold m3; by rewrite !lookup_insert_ne).
  split; [|intros q Qx Qn; apply Hag; [done|intros ->; apply Qn; rewrite elem_of_plug; cbn; set_solver]].
  split.
  - rewrite Hr. apply top_plug.
  - apply tree_at_plug. cbn [path_nodes] in Dk. apply NoDup_cons in Dk as [Dp Dk].
    split; [split; [|split]|split; [|done]].
    + unfold m3. rewrite lookup_insert_ne by done. by rewrite lookup_insert_eq.
    + eapply tree_at_agree; [|exact Hs]. intros q Hq. apply Hag; cbn in *; set_solver.
    + eapply path_at_agree; [|exact Hk]. intros q Hq. apply Hag; cbn in *; set_solver.
    + unfold m3. by rewrite lookup_insert_eq.
  - rewrite plug_perm. apply NoDup_app. split_and!; [done| |by apply NoDup_singleton].
    intros q Hq Hc. apply list_elem_of_singleton in Hc as ->. tauto.
  - intros u ->. rewrite elem_of_plug. intros [Hc|Hc].
    + apply (level_up _ _ _ _ H u eq_refl). rewrite elem_of_plug. tauto.
    + apply list_elem_of_singleton in Hc as ->. done.
Qed.

Lemma nodup_split (l1 l2 l1' l2' : list ptr) x :
  NoDup (l1 ++ x :: l2) → l1 ++ x :: l2 = l1' ++ x :: l2' → l1 = l1' ∧ l2 = l2'.
Proof.
  revert l1'. induction l1 as [|y l1 IH]; intros [|z l1'] Hd; cbn in *.
  - by intros [= ->].
  - intros [= -> ->]. apply NoDup_cons in Hd as [Hd _]. set_solver.
  - intros [= -> <-]. apply NoDup_cons in Hd as [Hd _]. set_solver.
  - intros [= -> Heq]. apply NoDup_cons in Hd as [_ Hd]. by destruct (IH _ Hd Heq) as [-> ->].
Qed.

Lemma free_place m root up t current l1 l2 d cn :
  level m root up t → nodes t = l1 ++ current :: l2 → m !! current = Some cn → child d cn = None →
  ∃ c s k, t = plug (Frame d c current s :: k) E ∧
    ∀ new, nodes (plug (Frame d c current s :: k) new) =
      match d with Lft => l1 ++ nodes new ++ current :: l2 | Rgt => l1 ++ current :: nodes new ++ l2 end.
Proof.
  intros H Hn Hc Hch.
  destruct (node_place t current) as (k & c & l & r & ->); [rewrite Hn; set_solver|].
  pose proof (level_nodup _ _ _ _ H) as Hd. rewrite Hn in Hd. rewrite plug_nodes in Hn.
  cbn [nodes] in Hn. rewrite <- !app_assoc in Hn. rewrite app_assoc in Hn. cbn in Hn.
  destruct (nodup_split _ _ _ _ _ Hd (eq_sym Hn)) as [-> ->].
  destruct (level_hole _ _ _ _ _ H) as [_ _ (Mc & _) _ _ _]. rewrite Hc in Mc. injection Mc as ->.
  destruct d; cbn in Hch.
  - destruct l; [|done]. exists c, r, k. split; [done|]. intros new.
    cbn [plug mk]. rewrite plug_nodes. cbn. by rewrite <- !app_assoc.
  - destruct r; [|done]. exists c, l, k. split; [done|]. intros new.
    cbn [plug mk]. rewrite plug_nodes. cbn. by rewrite <- !app_assoc.
Qed.

Lemma level_paint_black m root up t x :
  level m root up t → root = Some x →
  ∃ m', put_red m x false = Some m' ∧ level m' root up (paint false t) ∧
    (∀ n, m' !! x = Some n → is_root n = true) ∧ is_Some (m' !! x) ∧
    (∀ q, q ∉ nodes t → m' !! q = m !! q).
Proof.
  intros H Hr. pose proof (level_root _ _ _ _ H) as Ht. rewrite Hr in Ht.
  destruct (paint_top _ _ _ [] t x false H (eq_sym Ht)) as (m' & P & H' & F).
  exists m'. split_and!; try done; destruct t as [|c l y r]; try done; injection Ht as ->;
    destruct (level_at _ _ _ _ H') as (Mx & _); rewrite Mx; [by intros n [= <-]|done].
Qed.

(** A run of [dns_rbt_addonlevel] that meets no failed assertion. *)
Lemma addonlevel_run m node current order r cn c0 m1 m2 m3 m4 m5 root4 r4 rn :
  let n := Node None None None c0 false in
  let d := if bool_decide (order < 0)%Z then Lft else Rgt in
  m !! node = Some n → m !! current = Some cn → child d cn = None →
  put_child d m current (Some node) = Some m1 → m1 !! node = Some n →
  put_parent m1 node (Some current) = Some m2 → put_red m2 node true = Some m3 →
  add_fix (S (size m3)) m3 node (Some r) = Some (m4, root4) → root4 = Some r4 →
  put_red m4 r4 false = Some m5 → m5 !! r4 = Some rn → is_root rn = true →
  dns_rbt_addonlevel m node current order (Some r) = Some (m5, root4).
Proof.
  intros n d Hx Hc Hch P1 Hx1 P2 P3 Hrun -> P5 Hr Hroot. unfold dns_rbt_addonlevel.
  rewrite Hx. cbn [mbind option_bind left right n]. rewrite bool_decide_true by done.
  fold d. rewrite Hc. cbn [mbind option_bind]. rewrite bool_decide_true by done.
  rewrite P1. cbn [mbind option_bind]. rewrite Hx1. cbn [mbind option_bind parent n].
  rewrite bool_decide_true by done. rewrite P2. cbn [mbind option_bind].
  rewrite P3. cbn [mbind option_bind]. rewrite Hrun. cbn [mbind option_bind].
  rewrite P5. cbn [mbind option_bind]. rewrite Hr. cbn [mbind option_bind]. by rewrite Hroot.
Qed.

Lemma addonlevel_empty m node current order c0 :
  m !! node = Some (Node None None None c0 false) →
  dns_rbt_addonlevel m node current order None =
    Some (<[node := Node None None (Some current) false true]> m, Some node).
Proof.
  intros Hx. unfold dns_rbt_addonlevel, put_red, put_is_root, put_parent. rewrite Hx.
  cbn [mbind option_bind left right]. rewrite bool_decide_true by done.
  rewrite !lookup_insert_eq. cbn [mbind option_bind]. rewrite !lookup_insert_eq.
  cbn [mbind option_bind]. by rewrite !insert_insert_eq.
Qed.

Lemma addonlevel_level m root up t n node current order c0 cn l1 l2 :
  m !! node = Some (Node None None None c0 false) →
  level m root up t → rbt t n → color t = false → up ≠ Some node →
  node ∉ nodes t → nodes t = l1 ++ current :: l2 →
  m !! current = Some cn → child (if bool_decide (order < 0)%Z then Lft else Rgt) cn = None →
  ∃ m' root' t' n', dns_rbt_addonlevel m node current order root = Some (m', root') ∧
    level m' root' up t' ∧ rbt t' n' ∧ color t' = false ∧
    nodes t' = l1 ++ (if bool_decide (order < 0)%Z then [node; current] else [current; node]) ++ l2 ∧
    ∀ q, q ≠ node → q ∉ nodes t → m' !! q = m !! q.
Proof.
  intros Hx H Ht Hc Hup Hn Hnodes Hcn Hch. set (d := if bool_decide _ then Lft else Rgt) in *.
  destruct (free_place _ _ _ _ _ _ _ _ _ H Hnodes Hcn Hch) as (c & s & k & -> & Hpos).
  destruct (hang_leaf _ _ _ _ _ _ _ _ _ _ H Hx Hn Hup)
    as (m1 & m2 & m3 & P1 & Hx1 & P2 & P3 & H3 & F3).
  destruct (rbt_plug_inv _ _ _ Ht Hc) as (n' & Hn' & Hk & _).
  assert (n' = 0) as -> by by inversion Hn'.
  destruct (add_fix_level (S (size m3)) _ _ _ _ _ _ _ _ H3 Hk)
    as (m4 & root4 & t4 & Hrun & H4 & F4 & Hp4).
  { pose proof (level_path_size _ _ _ _ _ H3). lia. }
  destruct (add_up_rbt _ E node E 0 Hk rbt_E rbt_E eq_refl eq_refl) as (n2 & Hr2 & Hc2).
  pose proof (add_up_nodes (Frame d c current s :: k) E node E) as Hn2. rewrite Hpos in Hn2.
  set (t2 := add_up _ _ _ _) in *.
  assert (paint false t4 = t2) as Ht4.
  { rewrite Hp4. destruct t2; [done|]. cbn in Hc2. by subst. }
  assert (is_Some root4) as [r4 Hr4].
  { rewrite (level_root _ _ _ _ H4). rewrite <- Ht4, paint_nodes in Hn2.
    destruct t4; [|done]. by destruct d, l1. }
  assert (is_Some root) as [r ->].
  { rewrite (level_root _ _ _ _ H). destruct (plug _ _); [by destruct l1|done]. }
  destruct (level_paint_black _ _ _ _ _ H4 Hr4) as (m5 & P5 & H5 & Hroot & [rn Hrn] & F5).
  exists m5, root4, t2, n2. rewrite <- Ht4 at 1. split_and!; try done.
  + eapply addonlevel_run; eauto.
  + rewrite Hn2. by destruct d eqn:Hd; subst d; destruct (bool_decide _).
  + intros q Q1 Q2. assert (q ∉ nodes (plug (Frame d c current s :: k) (T true E node E))) as Q3.
    { revert Q2. rewrite !elem_of_plug. intros Q2 [Q3|Q3%list_elem_of_singleton]; tauto. }
    rewrite F5, F4, F3; try done. by rewrite <- (paint_nodes false), Ht4, Hn2, <- Hpos.
Qed.

(** C24: [dns_rbt_addonlevel] puts a fresh node into a level. Into an empty
    level it becomes the root, black, with the given node above the level.
    Otherwise it goes next to [current] in the order of the level, before it
    when [order] is negative and after it when not; the level is again a
    red-black tree with a black root, reached from the root pointer that is
    returned; every node that is neither in the level nor the new one is as it
    was; and no assertion fails, no [NULL] is followed, and the loop ends. *)
Theorem addonlevel_spec (m : store) (root up : option ptr) (t : tree) (n : nat)
    (node current : ptr) (order : Z) (c0 : bool) :
  m !! node = Some (Node None None None c0 false) →
  (∃ m', dns_rbt_addonlevel m node current order None = Some (m', Some node) ∧
     (node ≠ current → level m' (Some node) (Some current) (T false E node E)) ∧
     ∀ q, q ≠ node → m' !! q = m !! q) ∧
  (∀ cn l1 l2,
     level m root up t → rbt t n → color t = false → up ≠ Some node →
     node ∉ nodes t → nodes t = l1 ++ current :: l2 →
     m !! current = Some cn → child (if bool_decide (order < 0)%Z then Lft else Rgt) cn = None →
     ∃ m' root' t' n', dns_rbt_addonlevel m node current order root = Some (m', root') ∧
       level m' root' up t' ∧ rbt t' n' ∧ color t' = false ∧
       nodes t' = l1 ++ (if bool_decide (order < 0)%Z then [node; current] else [current; node]) ++ l2 ∧
       ∀ q, q ≠ node → q ∉ nodes t → m' !! q = m !! q).
Proof.
  intros Hx. split.
  - eexists. split; [by eapply addonlevel_empty|]. split; [|intros; by rewrite lookup_insert_ne].
    intros Hne. split; [done| |by apply NoDup_singleton|].
    + cbn. by rewrite lookup_insert_eq.
    + intros u [= <-] ->%list_elem_of_singleton. done.
  - intros cn l1 l2. by eapply addonlevel_level.
Qed.
