(* ===== verification/RbtFix.v ===== *)
(** * The colour repair of a deletion

    [delete_fix], the loop at the end of [dns_rbt_deletefromlevel], is
    [delete_up] on trees. *)

From stdpp Require Import gmap.
From S2P Require Import Prelude Rbt RbtTree RbtLevel RbtAdd.

#[local] Open Scope nat_scope.

(** One step of a run: the operation [e] succeeds. *)
#[local] Ltac run P := rewrite P; cbn [mbind option_bind].
#[local] Ltac outside := let Hc := fresh in
  intros Hc; match goal with Hq : _ ∉ nodes _ |- _ => apply Hq; revert Hc end;
  cbn [plug]; rewrite ?elem_of_plug, ?elem_of_mk, ?paint_nodes; tauto.

(** What the pointers of a node and its sibling say. *)
Lemma sibling_at m root up k d c t p cs near y far :
  level m root up (plug k (mk d c t p (mk d cs near y far))) →
  m !! p = Some (node_of d (top t) (Some y) (parent_of k up) c (is_top k)) ∧
  m !! y = Some (node_of d (top near) (top far) (Some p) cs false) ∧
  IS_RED m (top near) = Some (color near) ∧ IS_RED m (top far) = Some (color far).
Proof.
  intros H%level_hole. pose proof (hole_tree _ _ _ _ _ H) as Ht.
  apply tree_at_mk in Ht as (Hp & _ & Hs). rewrite top_mk in Hp.
  apply tree_at_mk in Hs as (Hy & Hn & Hf). split_and!; by eauto using IS_RED_at.
Qed.

Lemma lift_sibling_level d m root up c k t p near y far :
  level m root up (plug k (mk d c t p (mk d false near y far))) → color far = true →
  let t' := plug k (mk d c (mk d false t p near) y (paint false far)) in
  ∃ m', lift_sibling d m p y root = Some (m', top t') ∧ level m' (top t') up t' ∧
    (∀ q, q ∉ nodes (plug k (mk d c t p (mk d false near y far))) → m' !! q = m !! q).
Proof.
  intros H Hfar t'. destruct (sibling_at _ _ _ _ _ _ _ _ _ _ _ _ H) as (Mp & _).
  destruct (paint_mk m root up (Frame (opp d) c p t :: k) d false near y far c) as (m1 & P1 & H1 & F1).
  { cbn [plug]. by rewrite mk_opp. }
  cbn [plug] in H1, F1. rewrite mk_opp in H1, F1.
  destruct (paint_mk m1 root up k d c t p _ false H1) as (m2 & P2 & H2 & F2).
  destruct (sibling_at _ _ _ _ _ _ _ _ _ _ _ _ H2) as (_ & My & _).
  assert (is_Some (top far)) as [f Hf] by by destruct far.
  destruct (paint_top m2 root up (Frame (opp d) c y near :: Frame (opp d) false p t :: k) far f false)
    as (m3 & P3 & H3 & F3); [cbn [plug]; by rewrite !mk_opp|done|].
  cbn [plug] in H3, F3. rewrite !mk_opp in H3, F3.
  destruct (rotate_level _ _ _ _ _ _ _ _ _ _ _ _ H3) as (m4 & P4 & H4 & F4).
  exists m4. split_and!; [|done|].
  - unfold lift_sibling. run Mp. rewrite red_node_of. run P1. run P2. run My.
    rewrite child_opp_node_of. run Hf. run P3. done.
  - intros q Hq. rewrite F4, F3, F2, F1; [done|done|outside..].
Qed.

Lemma lift_inner_level d m root up c k t p near' z far' y far :
  let t0 := plug k (mk d c t p (mk d false (mk d true near' z far') y far)) in
  level m root up t0 →
  ∃ m' root', lift_inner d m p y root = Some (m', root', z) ∧
    level m' root' up (plug k (mk d c t p (mk d false near' z (mk d true far' y far)))) ∧
    (∀ q, q ∉ nodes t0 → m' !! q = m !! q).
Proof.
  intros t0 H. destruct (sibling_at _ _ _ _ _ _ _ _ _ _ _ _ H) as (_ & My & _).
  rewrite top_mk in My.
  destruct (paint_mk m root up (Frame d false y far :: Frame (opp d) c p t :: k)
    d true near' z far' false) as (m1 & P1 & H1 & F1).
  { cbn [plug]. by rewrite mk_opp. }
  cbn [plug] in H1, F1. rewrite mk_opp in H1, F1.
  destruct (paint_mk m1 root up (Frame (opp d) c p t :: k) d false (mk d false near' z far') y far true)
    as (m2 & P2 & H2 & F2); [cbn [plug]; by rewrite mk_opp|].
  rewrite <- (mk_opp d true), <- (mk_opp d false near') in H2.
  destruct (rotate_level _ _ _ _ _ _ _ _ _ _ _ _ H2) as (m3 & P3 & H3 & F3).
  cbn [plug] in *. rewrite !mk_opp in *.
  destruct (sibling_at _ _ _ _ _ _ _ _ _ _ _ _ H3) as (Mp & _).
  eexists m3, _. split_and!; [|exact H3|].
  - unfold lift_inner. run My. rewrite child_node_of. cbn [mbind option_bind].
    run P1. run P2. run P3. run Mp. by rewrite child_opp_node_of.
  - intros q Hq. subst t0. rewrite F3, F2, F1; [done|done|outside..].
Qed.

(** A node seen from side [d]. *)
Lemma mk_view d c l p r near far :
  (match d with Lft => (l, r) | Rgt => (r, l) end) = (near, far) → T c l p r = mk d c near p far.
Proof. destruct d; by intros [= <- <-]. Qed.

Lemma black_sibling_level d m root up c k t p s y :
  level m root up (plug k (mk d c t p s)) → top s = Some y → color s = false →
  ∃ m', match balance d c k t p s with
        | inl t' => black_sibling d m p y root = Some (m', top t', top t') ∧ level m' (top t') up t'
        | inr t' => black_sibling d m p y root = Some (m', root, Some p) ∧ level m' root up (plug k t')
        end ∧ (∀ q, q ∉ nodes (plug k (mk d c t p s)) → m' !! q = m !! q).
Proof.
  intros H Hy Cs. destruct s as [|cs l y' r]; [done|]. injection Hy as ->. cbn in Cs. subst cs.
  unfold balance. destruct (match d with Lft => (l, r) | Rgt => (r, l) end) as [near far] eqn:Enf.
  rewrite (mk_view _ _ _ _ _ _ _ Enf) in *. clear Enf l r.
  destruct (sibling_at _ _ _ _ _ _ _ _ _ _ _ _ H) as (_ & My & In & If).
  unfold black_sibling. rewrite My. cbn [mbind option_bind].
  rewrite child_node_of, child_opp_node_of, In, If. cbn [mbind option_bind].
  destruct (color far) eqn:Cf; [|destruct (color near) eqn:Cn].
  - rewrite andb_false_r. cbn [negb mbind option_bind].
    destruct (lift_sibling_level _ _ _ _ _ _ _ _ _ _ _ H Cf) as (m' & P & H' & F).
    exists m'. rewrite P. done.
  - cbn [negb andb mbind option_bind]. destruct near as [|cn l' z r']; [done|]. cbn in Cn. subst cn.
    destruct (match d with Lft => (l', r') | Rgt => (r', l') end) as [near' far'] eqn:Enf'.
    rewrite (mk_view _ _ _ _ _ _ _ Enf') in *.
    destruct (lift_inner_level _ _ _ _ _ _ _ _ _ _ _ _ _ H) as (m1 & root1 & P1 & H1 & F1).
    destruct (lift_sibling_level _ _ _ _ _ _ _ _ _ _ (mk d true far' y far) H1) as (m2 & P2 & H2 & F2);
      [by rewrite color_mk|].
    exists m2. rewrite P1. cbn [mbind option_bind]. rewrite P2. cbn [mbind option_bind].
    assert (paint false (mk d true far' y far) = mk d false far' y far) as Hpm by by destruct d.
    rewrite Hpm in *. split; [done|]. intros q Hq. rewrite F2, F1; [done|done|]. outside.
  - cbn [negb andb].
    destruct (paint_mk m root up (Frame (opp d) c p t :: k) d false near y far true)
      as (m1 & P1 & H1 & F1); [cbn [plug]; by rewrite mk_opp|].
    cbn [plug] in H1, F1. rewrite mk_opp in H1, F1.
    exists m1. rewrite P1. done.
Qed.

(** The red sibling is turned away. *)
Lemma red_sibling_level d m root up k t p near y far :
  let t0 := plug k (mk d false t p (mk d true near y far)) in
  level m root up t0 →
  ∃ m' root', red_sibling d m p y root = Some (m', root', top near) ∧
    level m' root' up (plug k (mk d false (mk d true t p near) y far)) ∧
    (∀ q, q ∉ nodes t0 → m' !! q = m !! q).
Proof.
  intros t0 H.
  destruct (paint_mk m root up (Frame (opp d) false p t :: k) d true near y far false)
    as (m1 & P1 & H1 & F1); [cbn [plug]; by rewrite mk_opp|].
  cbn [plug] in H1, F1. rewrite mk_opp in H1, F1.
  destruct (paint_mk m1 root up k d false t p _ true H1) as (m2 & P2 & H2 & F2).
  destruct (rotate_level _ _ _ _ _ _ _ _ _ _ _ _ H2) as (m3 & P3 & H3 & F3).
  destruct (level_hole _ _ _ (Frame d false y far :: k) (mk d true t p near) H3) as [_ _ Mp _ _ _].
  apply tree_at_mk in Mp as (Mp & _).
  eexists m3, _. split_and!; [|exact H3|].
  - unfold red_sibling. run P1. run P2. run P3. run Mp. by rewrite child_opp_node_of.
  - intros q Hq. subst t0. rewrite F3, F2, F1; [done|done|outside..].
Qed.

(** ** The loop *)

(** The run [r] from the store [m] ends with the level [t] and touches only
    the nodes [S]. *)
Definition ends (r : option (store * option ptr)) (m : store) (up : option ptr) (S : list ptr)
    (t : tree) : Prop :=
  ∃ m' root', r = Some (m', root') ∧ level m' root' up t ∧ (∀ q, q ∉ S → m' !! q = m !! q).

Lemma ends_frame r m m' up S S' t :
  (∀ q, q ∉ S → m' !! q = m !! q) → (∀ q, q ∈ S' → q ∈ S) → ends r m' up S' t → ends r m up S t.
Proof.
  intros Hm HS (m2 & r2 & Hr & Hl & Hf). exists m2, r2. split_and!; try done.
  intros q Hq. rewrite Hf; auto.
Qed.

Lemma paint_black t : color t = false → paint false t = t.
Proof. destruct t; [done|]. cbn. by intros ->. Qed.

(** It stops at the root and at a red node. *)
Lemma delete_fix_done fuel m root up k t par :
  level m root up (plug k t) → k = [] ∨ color t = true →
  ends (delete_fix (S fuel) m (top t) par root) m up (nodes (plug k t)) (plug k (paint false t)).
Proof.
  intros H Hk. pose proof (hole_tree _ _ _ _ _ (level_hole _ _ _ _ _ H)) as Ht.
  cbn [delete_fix]. rewrite (IS_RED_at _ _ _ _ Ht). cbn [mbind option_bind].
  assert (bool_decide (top t ≠ root) && negb (color t) = false) as ->.
  { destruct Hk as [->| ->]; [|by rewrite andb_false_r].
    rewrite bool_decide_false; [done|]. intros Hc. apply Hc. symmetry. apply (level_root _ _ _ _ H). }
  destruct (color t) eqn:Ct.
  - assert (is_Some (top t)) as [x Hx] by by destruct t.
    destruct (paint_top _ _ _ _ _ _ false H Hx) as (m' & P & H' & F).
    exists m', root. rewrite Hx. cbn [mbind option_bind]. by rewrite P.
  - exists m, root. by rewrite paint_black.
Qed.

(** One round. *)
Definition next_round (fuel : nat) (r : option (store * option ptr * option ptr))
    : option (store * option ptr) :=
  '(m, rootp, c) ← r; q ← c; cn ← m !! q; delete_fix fuel m c (parent cn) rootp.

Lemma top_plug_some f k t : is_Some (top (plug (f :: k) t)).
Proof.
  revert f t. induction k as [|g k IH]; intros [d c p s] t; [cbn; by rewrite top_mk|].
  apply (IH g (mk d c t p s)).
Qed.

Lemma delete_fix_round fuel m root up d c p s k t y :
  level m root up (plug (Frame d c p s :: k) t) → color t = false → top s = Some y →
  delete_fix (S fuel) m (top t) (Some p) root =
    '(m, root, s) ← (if color s then red_sibling d m p y root else Some (m, root, top s));
    s ← s; next_round fuel (black_sibling d m p s root).
Proof.
  intros H%level_hole Ct Hy.
  destruct (hole_path _ _ _ _ _ H) as (Mp & Hs & Hk). pose proof (hole_tree _ _ _ _ _ H) as Ht.
  assert (top s ≠ top t) as Hst by (apply (hole_side _ _ _ _ _ _ _ _ _ H); right; by destruct s).
  cbn [delete_fix]. rewrite (IS_RED_at _ _ _ _ Ht), Ct. cbn [mbind option_bind negb].
  rewrite andb_true_r, bool_decide_true.
  2: { destruct (top t) as [x|] eqn:Hx; [by eapply hole_not_root|].
       rewrite (hole_root _ _ _ _ _ H). by destruct (top_plug_some (Frame d c p s) k t) as [? ->]. }
  assert (match top t with None => Some false | Some q => n ← m !! q; Some (is_root n) end = Some false)
    as ->.
  { destruct t as [|ct tl x tr]; [done|]. destruct Ht as (Mx & _). cbn. by rewrite Mx. }
  cbn [mbind option_bind]. rewrite Mp. cbn [mbind option_bind].
  assert ((if bool_decide (left (node_of d (top t) (top s) (parent_of k up) c (is_top k)) = top t)
           then Lft else Rgt) = d) as ->.
  { destruct d; cbn; [by rewrite bool_decide_true|by rewrite bool_decide_false]. }
  rewrite child_opp_node_of, (IS_RED_at _ _ _ _ Hs), Hy. cbn [mbind option_bind].
  destruct (color s); cbn [mbind option_bind]; [|done].
  by destruct (red_sibling d m p y root) as [[[m1 root1] [s1|]]|].
Qed.

Lemma balance_top d c k t p s t' : balance d c k t p s = inr t' → top t' = Some p.
Proof.
  unfold balance. destruct s as [|cs l y r]; [done|].
  destruct (match d with Lft => (l, r) | Rgt => (r, l) end) as [near far].
  destruct (color near), (color far); cbn [negb andb].
  - done.
  - destruct near as [|cn l' z r']; [done|].
    by destruct (match d with Lft => (l', r') | Rgt => (r', l') end).
  - done.
  - intros [= <-]. by rewrite top_mk.
Qed.

Lemma level_parent m root up k t p :
  level m root up (plug k t) → top t = Some p →
  ∃ pn, m !! p = Some pn ∧ parent pn = parent_of k up.
Proof.
  intros H%level_hole Hp. pose proof (hole_tree _ _ _ _ _ H) as Ht.
  destruct t as [|c l x r]; [done|]. injection Hp as ->. destruct Ht as (Mp & _). eauto.
Qed.

(** The rest of a round after the sibling is black. *)
Lemma next_round_level fuel d m root up c k t p s y n T' :
  level m root up (plug k (mk d c t p s)) → top s = Some y →
  rbt t n → color t = false → rbt s (S n) → color s = false →
  rbt_path k (if c then S n else S (S n)) → (c = true → path_red k = false) →
  (∀ m' t', balance d c k t p s = inr t' → level m' root up (plug k t') →
     ends (delete_fix (S fuel) m' (top t') (parent_of k up) root) m' up (nodes (plug k t')) T') →
  ends (next_round (S fuel) (black_sibling d m p y root)) m up (nodes (plug k (mk d c t p s)))
    (match balance d c k t p s with inl t' => t' | inr _ => T' end).
Proof.
  intros H Hy Ht Ct Hs Cs Hk Hc Hnext.
  destruct (black_sibling_level _ _ _ _ _ _ _ _ _ _ H Hy Cs) as (m' & Hrun & F).
  pose proof (balance_rbt d c k t p s n Ht Ct Hs Cs Hk Hc) as Hrbt.
  pose proof (balance_nodes d c k t p s n Hs Cs) as Hn.
  destruct (balance d c k t p s) as [t'|t'] eqn:Eb; destruct Hrun as [Hrun H'].
  - destruct Hrbt as (n' & _ & Ct'). rewrite Hrun. cbn [next_round mbind option_bind].
    assert (is_Some (top t')) as [q Hq].
    { destruct t'; [|done]. rewrite plug_nodes, mk_nodes in Hn. cbn in Hn. symmetry in Hn.
      apply app_nil in Hn as [_ Hn]. apply app_nil in Hn as [Hn _].
      by destruct d; apply app_nil in Hn as [_ ?]. }
    rewrite Hq. cbn [mbind option_bind].
    destruct (level_parent m' _ up [] t' q H' Hq) as (qn & Mq & _). rewrite Mq.
    cbn [mbind option_bind]. rewrite <- Hq.
    apply (ends_frame _ m m' up _ (nodes t')); [exact F|by rewrite Hn|].
    pose proof (delete_fix_done fuel m' (top t') up [] t' (parent qn) H' (or_introl eq_refl)) as Hd.
    cbn [plug] in Hd. by rewrite paint_black in Hd.
  - rewrite Hrun. cbn [next_round mbind option_bind].
    pose proof (balance_top _ _ _ _ _ _ _ Eb) as Hp.
    destruct (level_parent m' _ up k t' p H' Hp) as (pn & Mp & Hpar). rewrite Mp.
    cbn [mbind option_bind]. rewrite Hpar, <- Hp.
    eapply ends_frame; [exact F| |by apply Hnext].
    intros q. rewrite !elem_of_plug, Hn. done.
Qed.

Lemma rbt_black_top s n : rbt s (S n) → ∃ y, top s = Some y.
Proof. inversion 1; cbn; eauto. Qed.

Lemma delete_fix_red fuel m root up d c p s k t n :
  level m root up (plug (Frame d c p s :: k) t) → rbt_path (Frame d c p s :: k) (S n) →
  color t = false → rbt t n → color s = true →
  ends (delete_fix (S (S fuel)) m (top t) (Some p) root) m up (nodes (plug (Frame d c p s :: k) t))
    (delete_up (Frame d c p s :: k) t).
Proof.
  intros H Hk Ct Ht Cs. cbn [delete_up]. rewrite Ct, Cs.
  inversion Hk as [|? ? ? ? ? Hs Cs'|? ? ? ? ? Hs Hk']; subst; [congruence|].
  inversion Hs as [|l y r ? Hl Hr Cl Cr|]; subst; try done.
  destruct (match d with Lft => (l, r) | Rgt => (r, l) end) as [near far] eqn:Enf.
  destruct (rbt_sides d l r near far (S n) Enf Hl Hr) as [Hnear Hfar].
  assert (color near = false) as Cn by (destruct d; by injection Enf as <- <-).
  destruct (rbt_black_top _ _ Hnear) as [z Hz].
  rewrite (delete_fix_round _ _ _ _ _ _ _ _ _ _ y H Ct eq_refl). cbn [color].
  rewrite (mk_view _ _ _ _ _ _ _ Enf) in H.
  destruct (red_sibling_level _ _ _ _ _ _ _ _ _ _ H) as (m1 & root1 & P1 & H1 & F1).
  rewrite P1, Hz. cbn [mbind option_bind].
  apply (ends_frame _ m m1 up _ (nodes (plug (Frame d false y far :: k) (mk d true t p near)))).
  { intros q Hq. apply F1. revert Hq. rewrite (mk_view _ _ _ _ _ _ _ Enf). done. }
  { intros q. rewrite (mk_view _ _ _ _ _ _ _ Enf). cbn [plug].
    rewrite !elem_of_plug, !elem_of_mk. tauto. }
  assert (rbt_path (Frame d false y far :: k) (S n)) as Hk2 by by constructor.
  pose proof (next_round_level fuel d m1 root1 up true (Frame d false y far :: k) t p near z n
    (match balance d true (Frame d false y far :: k) t p near with
     | inl _ => E | inr t' => plug (Frame d false y far :: k) (paint false t') end)
    H1 Hz Ht Ct Hnear Cn Hk2 (λ _, eq_refl)) as Hnext.
  pose proof (balance_rbt d true (Frame d false y far :: k) t p near n Ht Ct Hnear Cn Hk2
    (λ _, eq_refl)) as Hbal.
  destruct (balance d true _ t p near) as [t'|t'] eqn:Eb; [by apply Hnext|].
  apply Hnext. intros m' t2 [= <-] H'. destruct Hbal as (Hct & _ & _).
  apply delete_fix_done; auto.
Qed.

Lemma delete_fix_level fuel m root up k t n :
  level m root up (plug k t) → rbt_path k (S n) → (color t = false → rbt t n) → length k < fuel →
  ends (delete_fix fuel m (top t) (parent_of k up) root) m up (nodes (plug k t)) (delete_up k t).
Proof.
  revert fuel m root t n. induction k as [|[d c p s] k IH]; intros [|fuel] m root t n H Hk Hb Hf;
    cbn [length] in Hf; try lia.
  - assert (delete_up [] t = plug [] (paint false t)) as ->.
    { cbn. destruct (color t) eqn:Ct; [done|]. by rewrite paint_black. }
    apply delete_fix_done; auto.
  - destruct (color t) eqn:Ct.
    { assert (delete_up (Frame d c p s :: k) t = plug (Frame d c p s :: k) (paint false t)) as ->.
      { cbn. by rewrite Ct. }
      apply delete_fix_done; auto. }
    specialize (Hb eq_refl). destruct fuel as [|fuel]; [lia|].
    destruct (color s) eqn:Cs; [by apply (delete_fix_red _ _ _ _ _ _ _ _ _ _ n)|].
    cbn [delete_up]. rewrite Ct, Cs.
    assert (rbt s (S n) ∧ rbt_path k (if c then S n else S (S n)) ∧ (c = true → path_red k = false))
      as (Hs & Hk' & Hc) by (inversion Hk; subst; split_and!; done).
    destruct (rbt_black_top _ _ Hs) as [y Hy].
    rewrite (delete_fix_round _ _ _ _ _ _ _ _ _ _ _ H Ct Hy), Cs, Hy. cbn [mbind option_bind].
    pose proof (balance_rbt d c k t p s n Hb Ct Hs Cs Hk' Hc) as Hbal.
    pose proof (next_round_level fuel d m root up c k t p s y n (match balance d c k t p s with
      inl _ => E | inr t' => delete_up k t' end) H Hy Hb Ct Hs Cs Hk' Hc) as Hnext.
    destruct (balance d c k t p s) as [t'|t'] eqn:Eb; [by apply Hnext|].
    apply Hnext. intros m' t2 [= <-] H'. destruct Hbal as (Hct & Hp & Hbk).
    destruct c; eapply IH; try done; try lia; intros; auto; congruence.
Qed.
