(* ===== verification/RbtSwap.v ===== *)
(** * Swapping a node with its successor

    A node with two children is deleted at the place of its in-order
    successor: [leftmost] finds it, [swap_successor] exchanges the two
    nodes. Afterwards only the [parent] field of the child of the successor
    is out of date; unlinking the node ([RbtDelete.v]) repairs it. *)

From stdpp Require Import gmap.
From S2P Require Import Prelude Rbt RbtTree RbtLevel RbtAdd.

#[local] Open Scope nat_scope.

#[local] Ltac run P := rewrite P; cbn [mbind option_bind].

(** ** Paths inside a level

    [path_in m k hole par]: a path that ends not at the root of the level but
    at a child of [par]. *)
Fixpoint path_in (m : store) (k : path) (hole par : option ptr) : Prop :=
  match k with
  | [] => True
  | Frame d c p s :: k =>
      m !! p = Some (node_of d hole (top s) (parent_of k par) c false) ∧
      tree_at m s (Some p) false ∧ path_in m k (Some p) par
  end.

(** The upper end of a path. *)
Fixpoint through (k : path) (hole : option ptr) : option ptr :=
  match k with [] => hole | f :: k => through k (Some (f_ptr f)) end.

Lemma through_top k t : top (plug k t) = through k (top t).
Proof.
  revert t. induction k as [|[d c p s] k IH]; intros t; [done|]. cbn.
  by rewrite IH, top_mk.
Qed.

Lemma tree_at_plug_in m k t par :
  tree_at m (plug k t) par false ↔ path_in m k (top t) par ∧ tree_at m t (parent_of k par) false.
Proof.
  revert t. induction k as [|[d c p s] k IH]; intros t; cbn [plug path_in parent_of]; [tauto|].
  rewrite IH, tree_at_mk, top_mk. cbn [f_ptr]. tauto.
Qed.

Lemma parent_of_app k1 k2 up : parent_of (k1 ++ k2) up = parent_of k1 (parent_of k2 up).
Proof. by destruct k1. Qed.

Lemma path_at_app m k1 k2 hole up :
  k2 ≠ [] →
  path_at m (k1 ++ k2) hole up ↔
  path_in m k1 hole (parent_of k2 up) ∧ path_at m k2 (through k1 hole) up.
Proof.
  intros Hk2. revert hole. induction k1 as [|[d c p s] k1 IH]; intros hole;
    cbn [app path_at path_in through f_ptr]; [tauto|].
  rewrite IH, parent_of_app.
  assert (is_top (k1 ++ k2) = false) as -> by (destruct k1; [by destruct k2|done]). tauto.
Qed.

Lemma path_nodes_app k1 k2 : path_nodes (k1 ++ k2) = path_nodes k1 ++ path_nodes k2.
Proof.
  induction k1 as [|[d c p s] k1 IH]; [done|]. cbn. by rewrite IH, <- app_assoc.
Qed.

Lemma path_in_agree m m' k hole par :
  (∀ q, q ∈ path_nodes k → m' !! q = m !! q) → path_in m k hole par → path_in m' k hole par.
Proof.
  revert hole. induction k as [|[d c p s] k IH]; intros hole Hag; [done|].
  cbn in *. intros (Hp & Hs & Hk). split; [|split].
  - rewrite Hag; [done|set_solver].
  - eapply tree_at_agree; [|done]. intros. apply Hag. set_solver.
  - apply IH; [|done]. intros. apply Hag. set_solver.
Qed.

Lemma through_elem f k hole : ∃ r, through (f :: k) hole = Some r ∧ r ∈ path_nodes (f :: k).
Proof.
  revert f hole. induction k as [|g k IH]; intros [d c p s] hole.
  - exists p. split; [done|]. cbn. set_solver.
  - destruct (IH g (Some p)) as (r & Hr & He). exists r. split; [done|]. cbn [path_nodes]. set_solver.
Qed.

(** The upper end gets a new parent. *)
Lemma path_in_reparent m f k hole par v r :
  path_in m (f :: k) hole par → NoDup (path_nodes (f :: k)) → through (f :: k) hole = Some r →
  ∃ m', put_parent m r v = Some m' ∧ path_in m' (f :: k) hole v ∧ (∀ q, q ≠ r → m' !! q = m !! q).
Proof.
  revert f hole. induction k as [|g k IH]; intros [d c p s] hole (Hp & Hs & Hk) Hd Hr;
    cbn [path_nodes] in Hd; apply NoDup_cons in Hd as [Hd1 Hd2].
  - injection Hr as ->. eexists. split; [by apply (put_parent_at m r d _ _ _ _ _ v Hp)|].
    split; [|intros q Hq; by rewrite lookup_insert_ne]. cbn. rewrite lookup_insert_eq.
    split_and!; [done| |done]. eapply tree_at_agree; [|exact Hs].
    intros q Hq. rewrite lookup_insert_ne; [done|]. set_solver.
  - apply NoDup_app in Hd2 as (Ds & Dsk & Dk).
    destruct (IH g (Some p) Hk Dk Hr) as (m' & P & Hk' & F). exists m'. split_and!; try done.
    destruct (through_elem g k (Some p)) as (r' & Hr' & He).
    cbn [through f_ptr] in Hr, Hr'. rewrite Hr in Hr'. injection Hr' as <-.
    cbn [path_in]. split_and!; [|eapply tree_at_agree; [|exact Hs]|done].
    + rewrite F; [done|]. intros ->. set_solver.
    + intros q Hq. apply F. intros ->. by apply (Dsk r).
Qed.

(** The lower end gets a new child. *)
Lemma path_in_rehang m d c p s k hole v par :
  path_in m (Frame d c p s :: k) hole par → NoDup (path_nodes (Frame d c p s :: k)) →
  ∃ m', put_child d m p v = Some m' ∧ path_in m' (Frame d c p s :: k) v par ∧
    (∀ q, q ≠ p → m' !! q = m !! q).
Proof.
  intros (Hp & Hs & Hk) Hd. cbn in Hd. apply NoDup_cons in Hd as [Hd _].
  eexists. split; [by apply (put_child_at m p d _ _ _ _ _ v Hp)|].
  split; [|intros q Hq; by rewrite lookup_insert_ne]. cbn [path_in]. split_and!.
  - by rewrite lookup_insert_eq.
  - eapply tree_at_agree; [|exact Hs]. intros q Hq. rewrite lookup_insert_ne; [done|]. set_solver.
  - eapply path_in_agree; [|exact Hk]. intros q Hq. rewrite lookup_insert_ne; [done|]. set_solver.
Qed.

(** ** The successor *)

Definition all_left (k : path) : Prop := Forall (λ f, f_side f = Lft) k.

Lemma leftmost_spec m r p par isr :
  tree_at m r par isr → top r = Some p →
  ∃ ks cs y ry, r = plug ks (T cs E y ry) ∧ all_left ks ∧
    ∀ fuel, length ks < fuel → leftmost fuel m p = Some y.
Proof.
  revert p par isr. induction r as [|c l IHl q r _]; intros p par isr Ht Hp; [done|].
  injection Hp as ->. destruct Ht as (Mp & Hl & _). destruct l as [|c' l' q' r'].
  - exists [], c, p, r. split_and!; [done|by constructor|]. intros [|fuel] Hf; [cbn in Hf; lia|].
    cbn. by rewrite Mp.
  - destruct (IHl q' (Some p) false Hl eq_refl) as (ks & cs & y & ry & Heq & Hks & Hrun).
    exists (ks ++ [Frame Lft c p r]), cs, y, ry. rewrite plug_app, <- Heq.
    split_and!; [done| |].
    + apply Forall_app. split; [done|]. by constructor.
    + intros [|fuel] Hf; rewrite length_app in Hf; cbn in Hf; [lia|]. cbn. rewrite Mp.
      cbn [mbind option_bind left top]. apply Hrun. lia.
Qed.

Lemma all_left_before ks : all_left ks → before_hole ks = [].
Proof. induction 1 as [|[d c p s] ks Hd _ IH]; [done|]. cbn in Hd. subst d. done. Qed.

(** ** The three phases of the swap *)

Lemma set_fields {A} (f : store → option A) m p n a b par c :
  m !! p = Some n →
  (m ← put_parent m p par; m ← put_child Lft m p a; m ← put_child Rgt m p b; m ← put_red m p c; f m) =
    f (<[p := Node a b par c (is_root n)]> m).
Proof.
  intros H. unfold put_child, put_parent, put_red. rewrite H. cbn [mbind option_bind].
  rewrite !lookup_insert_eq. cbn [mbind option_bind]. rewrite !insert_insert_eq, lookup_insert_eq.
  cbn [mbind option_bind]. by rewrite insert_insert_eq, lookup_insert_eq; cbn; rewrite insert_insert_eq.
Qed.

Lemma tree_at_inner m t par p :
  tree_at m t par false → p ∈ nodes t → ∃ n, m !! p = Some n ∧ is_root n = false.
Proof.
  revert par. induction t as [|c l IHl q r IHr]; intros par; cbn; [set_solver|].
  intros (Hq & Hl & Hr). rewrite elem_of_app, elem_of_cons.
  intros [Hp|[->|Hp]]; [by eauto| |by eauto]. by eexists.
Qed.

(** The place of [x] is handed to [y]. *)
Lemma hand_over m root up k c l x r y yn :
  path_at m k (Some x) up → m !! x = Some (Node (top l) (top r) (parent_of k up) c (is_top k)) →
  m !! y = Some yn → is_root yn = false → x ≠ y → NoDup (path_nodes k) →
  (∀ q, q ∈ path_nodes k → q ≠ x ∧ q ≠ y) →
  ∃ m1 yn1, (if is_top k then
       m ← put_is_root m y true; m ← put_is_root m x false; Some (m, Some y)
     else m ← replace_child m (parent_of k up) x (Some y); Some (m, root)) =
      Some (m1, match k with [] => Some y | _ => root end) ∧ path_at m1 k (Some y) up ∧
     m1 !! x = Some (Node (top l) (top r) (parent_of k up) c false) ∧
     m1 !! y = Some yn1 ∧ is_root yn1 = is_top k ∧
     (∀ q, q ≠ x → q ≠ y → q ∉ path_nodes k → m1 !! q = m !! q).
Proof.
  intros Hk Mx My Hy Hxy Dk Kq. destruct k as [|f k]; cbn [is_top] in *.
  - unfold put_is_root. rewrite My. cbn [mbind option_bind].
    rewrite lookup_insert_ne by done. rewrite Mx. cbn [mbind option_bind].
    eexists _, _. split; [done|]. split; [done|]. split; [by rewrite lookup_insert_eq|].
    split; [by rewrite lookup_insert_ne by done; rewrite lookup_insert_eq|]. split; [done|].
    intros q Q1 Q2 _. by rewrite !lookup_insert_ne.
  - rewrite (replace_child_rehang m (f :: k) x (Some y) up); [|done|done|].
    2: { intros Hq. by destruct (Kq x Hq). }
    exists (rehang m (f :: k) (Some y) up), yn. split; [done|].
    split; [by eapply rehang_at|]. rewrite !rehang_ne.
    2, 3: intros Hq; by destruct (Kq _ Hq).
    split_and!; try done. intros q _ _ Hq. by apply rehang_ne.
Qed.

Lemma take_place_run m root up k c l x r y :
  level m root up (plug k (T c l x r)) → y ∈ nodes r →
  ∃ m2, take_place m x y root = Some (m2, match k with [] => Some y | _ => root end) ∧
    path_at m2 k (Some y) up ∧
    m2 !! y = Some (Node (top l) (top r) (parent_of k up) c (is_top k)) ∧
    m2 !! x = Some (Node (top l) (top r) (parent_of k up) c false) ∧
    (∀ q, q ≠ x → q ≠ y → q ∉ path_nodes k → m2 !! q = m !! q).
Proof.
  intros H Hy. destruct (level_hole _ _ _ _ _ H) as [Hr Hk (Mx & Ml & Mr) Hap Dk Dt].
  cbn [top] in Hk.
  destruct (nodup_mk Lft _ _ _ _ Dt) as (_ & _ & _ & Xr & _).
  assert (x ≠ y) as Hxy by (intros ->; done).
  destruct (tree_at_inner _ _ _ _ Mr Hy) as (yn & Myn & Hyr).
  assert (∀ q, q ∈ path_nodes k → q ≠ x ∧ q ≠ y) as Kq.
  { intros q Hq. split; intros ->; apply (Hap _ Hq); cbn; set_solver. }
  destruct (hand_over m root up k c l x r y yn) as (m1 & yn1 & Hrun & Hk1 & Mx1 & My1 & Hy1 & F1);
    try done.
  exists (<[y := Node (top l) (top r) (parent_of k up) c (is_top k)]> m1). split_and!.
  - unfold take_place. run Mx. cbn [is_root parent]. run Hrun. run Mx1. cbn [left right parent red].
    rewrite (set_fields _ _ _ _ _ _ _ _ My1). by rewrite Hy1.
  - eapply path_at_agree; [|exact Hk1]. intros q Hq. rewrite lookup_insert_ne; [done|].
    intros ->. by destruct (Kq q Hq).
  - by rewrite lookup_insert_eq.
  - by rewrite lookup_insert_ne.
  - intros q Q1 Q2 Q3. rewrite lookup_insert_ne by done. by apply F1.
Qed.

Lemma set_last_fields m p n a b par c :
  m !! p = Some n →
  (m ← put_parent m p par; m ← put_child Lft m p a; m ← put_child Rgt m p b; put_red m p c) =
    Some (<[p := Node a b par c (is_root n)]> m).
Proof.
  intros H. rewrite <- (set_fields Some m p n a b par c H). unfold put_parent.
  rewrite H. cbn [mbind option_bind]. destruct (put_child Lft _ p a) as [m1|]; [|done].
  cbn [mbind option_bind]. destruct (put_child Rgt m1 p b) as [m2|]; [|done].
  cbn [mbind option_bind]. by destruct (put_red m2 p c).
Qed.

(** The store after [take_place]. *)
Record placed (m : store) (up : option ptr) (k ks : path) (x y : ptr) (c cs : bool) (l ry : tree)
    : Prop := Placed {
  pl_path : path_at m k (Some y) up;
  pl_y : m !! y = Some (Node (top l) (through ks (Some y)) (parent_of k up) c (is_top k));
  pl_x : m !! x = Some (Node (top l) (through ks (Some y)) (parent_of k up) c false);
  pl_left : tree_at m l (Some x) false;
  pl_right : path_in m ks (Some y) (Some x);
  pl_child : tree_at m ry (Some y) false;
  pl_nodup : NoDup (x :: y :: path_nodes k ++ nodes l ++ path_nodes ks ++ nodes ry);
  pl_lefts : all_left ks }.

(** The store after [relink]. *)
Record swapped (m : store) (up : option ptr) (k ks : path) (x y : ptr) (c cs : bool) (l ry : tree)
    : Prop := Swapped {
  sw_path : path_at m (ks ++ Frame Rgt c y l :: k) (Some x) up;
  sw_x : m !! x = Some (Node None (top ry) (parent_of ks (Some y)) cs false);
  sw_child : tree_at m ry (Some y) false }.

(** What is apart in a placed store. *)
Lemma placed_apart m up k ks x y c cs l ry :
  placed m up k ks x y c cs l ry →
  x ≠ y ∧ NoDup (nodes l) ∧ NoDup (path_nodes ks) ∧
  (∀ q, q ∈ path_nodes k → q ≠ x ∧ q ≠ y ∧ q ∉ nodes l ∧ q ∉ path_nodes ks) ∧
  (∀ q, q ∈ nodes l → q ≠ x ∧ q ≠ y ∧ q ∉ path_nodes ks) ∧
  (∀ q, q ∈ path_nodes ks → q ≠ x ∧ q ≠ y ∧ q ∉ nodes l) ∧
  (∀ q, q ∈ nodes ry → q ≠ x ∧ q ≠ y ∧ q ∉ nodes l ∧ q ∉ path_nodes ks).
Proof.
  intros H. pose proof (pl_nodup _ _ _ _ _ _ _ _ _ _ H) as Hd.
  apply NoDup_cons in Hd as [Hx Hd]. apply NoDup_cons in Hd as [Hy Hd].
  apply NoDup_app in Hd as (_ & Hk & Hd). apply NoDup_app in Hd as (Dl & Hl & Hd).
  apply NoDup_app in Hd as (Dk & Hks & _).
  split_and!; try done; [set_solver|..]; intros q Hq; split_and!;
    (intros ->; set_solver) || set_solver.
Qed.

(** [adopt] when the successor is the right child of the node. *)
Lemma adopt_child m up k x y c cs l ry :
  placed m up k [] x y c cs l ry →
  adopt m y = Some (reparent m l (Some y) false).
Proof.
  intros H. unfold adopt. rewrite (pl_y _ _ _ _ _ _ _ _ _ _ H). cbn [mbind option_bind left right].
  rewrite (put_parent_reparent _ _ _ _ _ (pl_left _ _ _ _ _ _ _ _ _ _ H)).
  cbn [mbind option_bind through]. by rewrite bool_decide_false by auto.
Qed.

Lemma relink_child m up k x y c cs l ry :
  placed m up k [] x y c cs l ry →
  ∃ m', (m ← adopt m y; relink m x y (Node None (top ry) (Some x) cs false)) = Some m' ∧
    swapped m' up k [] x y c cs l ry ∧
    (∀ q, q ≠ x → q ≠ y → q ∉ nodes l → m' !! q = m !! q).
Proof.
  intros H. destruct (placed_apart _ _ _ _ _ _ _ _ _ _ H) as (Hxy & Dl & _ & Kq & Lq & _ & Rq).
  rewrite (adopt_child _ _ _ _ _ _ _ _ _ H). cbn [mbind option_bind].
  set (m3 := reparent m l (Some y) false).
  assert (m3 !! x = m !! x) as M3x by (apply reparent_ne; intros Hc; by destruct (Lq x Hc)).
  assert (m3 !! y = m !! y) as M3y by (apply reparent_ne; intros Hc; by destruct (Lq y Hc) as (_ & ? & _)).
  rewrite (pl_x _ _ _ _ _ _ _ _ _ _ H) in M3x. rewrite (pl_y _ _ _ _ _ _ _ _ _ _ H) in M3y.
  unfold relink. run M3x. cbn [is_root parent]. rewrite bool_decide_true by done.
  cbn [right red]. rewrite (proj1 (put_child_at m3 y Rgt _ _ _ _ _ (Some x) M3y)). cbn [mbind option_bind].
  rewrite (set_last_fields _ x _ _ _ _ _ (eq_trans (lookup_insert_ne _ _ _ _ (not_eq_sym Hxy)) M3x)).
  eexists. split; [done|].
  set (m' := <[x := _]> _).
  assert (∀ q, q ≠ x → q ≠ y → m' !! q = m3 !! q) as F3
    by (intros q Q1 Q2; unfold m'; by rewrite !lookup_insert_ne).
  assert (∀ q, q ≠ x → q ≠ y → q ∉ nodes l → m' !! q = m !! q) as F.
  { intros q Q1 Q2 Q3. rewrite F3 by done. by apply reparent_ne. }
  split; [split|done].
  - cbn. split_and!.
    + unfold m'. rewrite lookup_insert_ne by done. by rewrite lookup_insert_eq.
    + apply (tree_at_agree m3); [|by eapply reparent_at, (pl_left _ _ _ _ _ _ _ _ _ _ H)].
      intros q Hq. by apply F3; destruct (Lq q Hq) as (? & ? & _).
    + eapply path_at_agree; [|exact (pl_path _ _ _ _ _ _ _ _ _ _ H)].
      intros q Hq. destruct (Kq q Hq) as (? & ? & ? & _). by apply F.
  - unfold m'. by rewrite lookup_insert_eq.
  - eapply tree_at_agree; [|exact (pl_child _ _ _ _ _ _ _ _ _ _ H)].
    intros q Hq. destruct (Rq q Hq) as (? & ? & ? & _). by apply F.
Qed.

(** [adopt] when the successor is further down. *)
Lemma adopt_path m up k f ks x y c cs l ry :
  placed m up k (f :: ks) x y c cs l ry →
  ∃ m4, adopt m y = Some m4 ∧ tree_at m4 l (Some y) false ∧
    path_in m4 (f :: ks) (Some y) (Some y) ∧
    (∀ q, q ∉ nodes l → q ∉ path_nodes (f :: ks) → m4 !! q = m !! q).
Proof.
  intros H. destruct (placed_apart _ _ _ _ _ _ _ _ _ _ H) as (Hxy & Dl & Dk & _ & Lq & Sq & _).
  destruct (through_elem f ks (Some y)) as (r & Hr & Hre).
  unfold adopt. rewrite (pl_y _ _ _ _ _ _ _ _ _ _ H), Hr. cbn [mbind option_bind left right].
  rewrite (put_parent_reparent _ _ _ _ _ (pl_left _ _ _ _ _ _ _ _ _ _ H)). cbn [mbind option_bind].
  set (m3 := reparent m l (Some y) false).
  assert (path_in m3 (f :: ks) (Some y) (Some x)) as Hk3.
  { eapply path_in_agree; [|exact (pl_right _ _ _ _ _ _ _ _ _ _ H)].
    intros q Hq. apply reparent_ne. by destruct (Sq q Hq) as (_ & _ & ?). }
  destruct (path_in_reparent m3 f ks (Some y) (Some x) (Some y) r Hk3 Dk Hr) as (m4 & P & Hk4 & F4).
  exists m4. destruct (Sq r Hre) as (_ & Ry & Rl). rewrite bool_decide_true by congruence.
  split_and!; [done| |done|].
  - apply (tree_at_agree m3); [|by eapply reparent_at, (pl_left _ _ _ _ _ _ _ _ _ _ H)].
    intros q Hq. apply F4. by intros ->.
  - intros q Q1 Q2. rewrite F4 by by intros ->. by apply reparent_ne.
Qed.

Lemma relink_path m up k f ks x y c cs l ry :
  placed m up k (f :: ks) x y c cs l ry →
  ∃ m', (m ← adopt m y; relink m x y (Node None (top ry) (Some (f_ptr f)) cs false)) = Some m' ∧
    swapped m' up k (f :: ks) x y c cs l ry ∧
    (∀ q, q ≠ x → q ∉ nodes l → q ∉ path_nodes (f :: ks) → m' !! q = m !! q).
Proof.
  intros H. destruct (placed_apart _ _ _ _ _ _ _ _ _ _ H) as (Hxy & Dl & Dk & Kq & Lq & Sq & Rq).
  destruct (adopt_path _ _ _ _ _ _ _ _ _ _ _ H) as (m4 & P4 & Hl4 & Hk4 & F4).
  pose proof (pl_lefts _ _ _ _ _ _ _ _ _ _ H) as Hlefts. destruct f as [d cf p s].
  apply Forall_cons in Hlefts as [Hd _]. cbn in Hd. subst d.
  assert (p ∈ path_nodes (Frame Lft cf p s :: ks)) as Hp by (cbn; set_solver).
  destruct (path_in_rehang _ _ _ _ _ _ _ (Some x) _ Hk4 Dk) as (m5 & P5 & Hk5 & F5).
  destruct (Sq p Hp) as (Px & _ & Pl).
  assert (m5 !! x = m !! x) as M5x.
  { rewrite F5 by done. apply F4; intros Hc; [by destruct (Lq x Hc)|by destruct (Sq x Hc)]. }
  rewrite (pl_x _ _ _ _ _ _ _ _ _ _ H) in M5x.
  assert (m4 !! x = m5 !! x) as M4x by by rewrite F5.
  rewrite P4. cbn [mbind option_bind f_ptr]. unfold relink. rewrite M4x, M5x.
  cbn [mbind option_bind is_root parent]. rewrite bool_decide_false by congruence.
  cbn [mbind option_bind]. rewrite P5. cbn [mbind option_bind right red].
  rewrite (set_last_fields _ x _ _ _ _ _ M5x). eexists. split; [done|].
  set (m' := <[x := _]> m5).
  assert (∀ q, q ≠ x → m' !! q = m5 !! q) as F6 by (intros q Q1; unfold m'; by rewrite lookup_insert_ne).
  assert (∀ q, q ≠ x → q ∉ nodes l → q ∉ path_nodes (Frame Lft cf p s :: ks) → m' !! q = m !! q) as F.
  { intros q Q1 Q2 Q3. rewrite F6, F5, F4; try done. by intros ->. }
  split; [split|done].
  - apply path_at_app; [done|]. split.
    + eapply path_in_agree; [|exact Hk5]. intros q Hq. apply F6. by destruct (Sq q Hq).
    + cbn [path_at]. split_and!.
      * rewrite F; [exact (pl_y _ _ _ _ _ _ _ _ _ _ H)|done|..]; intros Hc;
          [by destruct (Lq y Hc) as (_ & ? & _)|by destruct (Sq y Hc) as (_ & ? & _)].
      * eapply tree_at_agree; [|exact Hl4]. intros q Hq. destruct (Lq q Hq) as (? & ? & Hqk).
        rewrite F6, F5; try done. by intros ->.
      * eapply path_at_agree; [|exact (pl_path _ _ _ _ _ _ _ _ _ _ H)].
        intros q Hq. destruct (Kq q Hq) as (? & ? & ? & ?). by apply F.
  - unfold m'. by rewrite lookup_insert_eq.
  - eapply tree_at_agree; [|exact (pl_child _ _ _ _ _ _ _ _ _ _ H)].
    intros q Hq. destruct (Rq q Hq) as (? & ? & ? & ?). by apply F.
Qed.
