(* ===== verification/RbtDelete.v ===== *)
(** * Deletion from a level

    [dns_rbt_deletefromlevel]: the node, or its in-order successor's old
    place, is unlinked and the colours are repaired ([RbtFix.v]); the level
    loses exactly that node and is a red-black tree again. *)

From stdpp Require Import gmap.
From S2P Require Import Prelude Rbt RbtTree RbtLevel RbtAdd RbtFix RbtSwap.

#[local] Open Scope nat_scope.

#[local] Ltac run P := rewrite P; cbn [mbind option_bind].

(** ** Unlinking a node with at most one child *)

(** The node [x], in the hole of [k], has the one child [ct], whose [parent]
    field may be out of date. *)
Record one_child (m : store) (root up : option ptr) (k : path) (x : ptr) (cx : bool) (ct : tree)
    : Prop := OneChild {
  oc_root : root = match k with [] => Some x | _ => top (plug k E) end;
  oc_path : path_at m k (Some x) up;
  oc_node : ∃ d, m !! x = Some (node_of d (top ct) None (parent_of k up) cx (is_top k));
  oc_child : ∃ par, tree_at m ct par false;
  oc_nodup : NoDup (path_nodes k ++ x :: nodes ct);
  oc_up : ∀ u, up = Some u → u ∉ path_nodes k ++ x :: nodes ct;
  oc_some : k = [] → ct ≠ E }.

Lemma unlinked_level m root up k x cx ct :
  one_child m root up k x cx ct →
  let m' := reparent (rehang m k (top ct) up) ct (parent_of k up) (is_top k) in
  level m' (top (plug k ct)) up (plug k ct) ∧
  (∀ q, q ∉ nodes (plug k ct) → m' !! q = m !! q).
Proof.
  intros [Hr Hk [d Hx] [par Hc] Hd Hu Hs] m'.
  apply NoDup_app in Hd as (Dk & Dkx & Dx). apply NoDup_cons in Dx as [Dx Dc].
  assert (tree_at (rehang m k (top ct) up) ct par false) as Hc'.
  { eapply tree_at_agree; [|exact Hc]. intros q Hq. apply rehang_ne. intros Hqk.
    apply (Dkx q Hqk). set_solver. }
  split; [split|].
  - done.
  - apply tree_at_plug. split; [|by eapply reparent_at].
    eapply path_at_agree; [|by eapply rehang_at]. intros q Hq. apply reparent_ne.
    intros Hqc. apply (Dkx q Hq). set_solver.
  - rewrite plug_perm. apply NoDup_app. split_and!; [done| |done]. intros q Hq Hqc.
    apply (Dkx q Hq). set_solver.
  - intros u Hup. rewrite elem_of_plug. intros Hq. apply (Hu u Hup). set_solver.
  - intros q Hq. rewrite elem_of_plug in Hq. unfold m'. rewrite reparent_ne by tauto.
    apply rehang_ne. tauto.
Qed.

Lemma unlink_pointers_run m root up k x cx ct dn :
  one_child m root up k x cx ct → m !! x = Some dn →
  unlink_pointers m x dn (top ct) root =
    Some (reparent (rehang m k (top ct) up) ct (parent_of k up) (is_top k), top (plug k ct)).
Proof.
  intros [Hr Hk [d Hx] [par Hc] Hd Hu Hs] Hdn. rewrite Hx in Hdn. injection Hdn as <-.
  apply NoDup_app in Hd as (Dk & Dkx & Dx). apply NoDup_cons in Dx as [Dx Dc].
  unfold unlink_pointers. rewrite is_root_node_of, parent_node_of.
  destruct k as [|f k]; cbn [is_top].
  - destruct ct as [|cc l q r]; [by destruct Hs|]. destruct Hc as (Mq & _).
    cbn [top mbind option_bind]. rewrite (put_is_root_at m q Lft _ _ _ _ _ true Mq).
    cbn [mbind option_bind]. erewrite put_parent_at by apply lookup_insert_eq.
    cbn [mbind option_bind]. by rewrite insert_insert_eq.
  - rewrite (replace_child_rehang m (f :: k) x (top ct) up); [|done|done|].
    2: { intros Hq. apply (Dkx x Hq). set_solver. }
    cbn [mbind option_bind].
    assert (tree_at (rehang m (f :: k) (top ct) up) ct par false) as Hc'.
    { eapply tree_at_agree; [|exact Hc]. intros q Hq. apply rehang_ne. intros Hqk.
      apply (Dkx q Hqk). set_solver. }
    rewrite (put_parent_reparent _ _ _ _ _ Hc'). cbn [mbind option_bind].
    rewrite Hr. f_equal. f_equal. apply top_plug.
Qed.

Lemma unlink_level m root up k x cx ct n :
  one_child m root up k x cx ct →
  rbt_path k n → (path_red k = true → cx = false) →
  (if cx then n = 0 ∧ ct = E else n = 1 ∧ rbt ct 0) →
  ∃ m' root' t' n', unlink m x (top ct) root = Some (m', root') ∧ level m' root' up t' ∧
    rbt t' n' ∧ color t' = false ∧ nodes t' = nodes (plug k ct) ∧
    (∀ q, q ∉ nodes (plug k ct) → m' !! q = m !! q).
Proof.
  intros H Hk Hred Hcx. destruct (oc_node _ _ _ _ _ _ _ H) as [d Hx].
  destruct (unlinked_level _ _ _ _ _ _ _ H) as [H1 F1].
  pose proof (unlink_pointers_run _ _ _ _ _ _ _ _ H Hx) as Hrun.
  set (m1 := reparent _ _ _ _) in *.
  assert (m1 !! x = m !! x) as Hx1.
  { apply F1. rewrite elem_of_plug. pose proof (oc_nodup _ _ _ _ _ _ _ H) as Hd.
    apply NoDup_app in Hd as (_ & Hd & Hd2). apply NoDup_cons in Hd2 as [Hd2 _].
    intros [Hc|Hc]; [|done]. apply (Hd x Hc). set_solver. }
  unfold unlink. rewrite Hx. cbn [mbind option_bind]. rewrite Hrun. cbn [mbind option_bind].
  rewrite Hx1, Hx. cbn [mbind option_bind]. rewrite red_node_of, parent_node_of. destruct cx.
  - destruct Hcx as [-> ->]. destruct (rbt_plug k E 0 Hk rbt_E ltac:(done)) as (n' & Hr' & Hc').
    by exists m1, (top (plug k E)), (plug k E), n'.
  - destruct Hcx as [-> Hct].
    assert (color ct = true → rbt (paint false ct) 1) as Hpaint.
    { inversion Hct; subst; [done|]. intros _. cbn. by constructor. }
    destruct (delete_up_rbt k ct 0 Hk Hpaint (λ _, Hct)) as (n' & Hr' & Hc').
    destruct (delete_fix_level (S (size m1)) m1 (top (plug k ct)) up k ct 0 H1 Hk (λ _, Hct))
      as (m2 & root2 & Hrun2 & H2 & F2).
    { pose proof (level_path_size _ _ _ _ _ H1). lia. }
    exists m2, root2, (delete_up k ct), n'. split_and!; try done.
    + by apply (delete_up_nodes k ct 0).
    + intros q Hq. by rewrite F2, F1.
Qed.

(** ** A node with two children *)

Lemma two_children_placed m root up k c l x ks cs y ry :
  level m root up (plug k (T c l x (plug ks (T cs E y ry)))) → all_left ks →
  ∃ m2, take_place m x y root = Some (m2, match k with [] => Some y | _ => root end) ∧
    m !! y = Some (Node None (top ry) (parent_of ks (Some x)) cs false) ∧
    placed m2 up k ks x y c cs l ry ∧
    (∀ q, q ∉ nodes (plug k (T c l x (plug ks (T cs E y ry)))) → m2 !! q = m !! q).
Proof.
  intros H Hks. set (r := plug ks (T cs E y ry)) in *.
  assert (∀ q, q ∈ nodes r ↔ q ∈ path_nodes ks ∨ q = y ∨ q ∈ nodes ry) as Er.
  { intros q. unfold r. rewrite elem_of_plug. cbn. set_solver. }
  destruct (take_place_run _ _ _ _ _ _ _ _ y H) as (m2 & Hrun & Hk & My & Mx & F).
  { apply Er. auto. }
  exists m2. split; [done|].
  destruct (level_hole _ _ _ _ _ H) as [_ _ (_ & Ml & Mr) Hap Dk Dt].
  destruct (nodup_mk Lft _ _ _ _ Dt) as (Dl & Dr & Xl & Xr & Dlr).
  pose proof Dr as Dr'. unfold r in Dr'. rewrite plug_perm in Dr'. cbn in Dr'.
  apply NoDup_app in Dr' as (Dks & Dksy & Dy). apply NoDup_cons in Dy as [Dy Dry].
  unfold r in Mr. apply tree_at_plug_in in Mr as (Mks & My0 & _ & Mry).
  assert (∀ q, q ∈ path_nodes k → q ≠ x ∧ q ∉ nodes l ∧ q ∉ nodes r) as Kq.
  { intros q Hq. specialize (Hap q Hq). cbn in Hap. set_solver. }
  assert (∀ q, q ≠ x → q ≠ y → q ∈ nodes l ∨ q ∈ nodes r → m2 !! q = m !! q) as F'.
  { intros q Q1 Q2 Q3. apply F; [done|done|]. intros Hq. destruct (Kq q Hq) as (_ & ? & ?). tauto. }
  unfold r in My, Mx. rewrite through_top in My, Mx. split; [exact My0|]. split; [split|].
  - done.
  - done.
  - done.
  - eapply tree_at_agree; [|exact Ml]. intros q Hq. apply F'; [by intros ->| |auto].
    intros ->. apply (Dlr y Hq), Er. auto.
  - eapply path_in_agree; [|exact Mks]. intros q Hq. apply F'.
    + intros ->. apply Xr, Er. auto.
    + intros ->. apply (Dksy y Hq). set_solver.
    + right. apply Er. auto.
  - eapply tree_at_agree; [|exact Mry]. intros q Hq. apply F'.
    + intros ->. apply Xr, Er. auto.
    + by intros ->.
    + right. apply Er. auto.
  - eapply NoDup_Permutation_proper; [|exact (level_nodup _ _ _ _ H)].
    rewrite plug_perm. cbn [nodes]. unfold r. rewrite (plug_perm ks). cbn. solve_Permutation.
  - done.
  - intros q Hq. rewrite elem_of_plug in Hq. cbn in Hq. rewrite elem_of_app, elem_of_cons, Er in Hq.
    apply F; tauto.
Qed.

Lemma swap_level m root up k c l x ks cs y ry :
  level m root up (plug k (T c l x (plug ks (T cs E y ry)))) → all_left ks →
  ∃ m' root', swap_successor m x y root = Some (m', root') ∧
    one_child m' root' up (ks ++ Frame Rgt c y l :: k) x cs ry ∧
    (∀ q, q ∉ nodes (plug k (T c l x (plug ks (T cs E y ry)))) → m' !! q = m !! q).
Proof.
  intros H Hks. destruct (two_children_placed _ _ _ _ _ _ _ _ _ _ _ H Hks) as (m2 & P2 & My & Hpl & F2).
  assert (∃ m', (m ← adopt m2 y; relink m x y (Node None (top ry) (parent_of ks (Some x)) cs false)) =
      Some m' ∧ swapped m' up k ks x y c cs l ry ∧
      (∀ q, q ≠ x → q ≠ y → q ∉ nodes l → q ∉ path_nodes ks → m' !! q = m2 !! q))
    as (m' & P & [Hpath Hx Hchild] & F).
  { destruct ks as [|f ks].
    - destruct (relink_child _ _ _ _ _ _ _ _ _ Hpl) as (m' & ? & ? & ?). exists m'. auto.
    - destruct (relink_path _ _ _ _ _ _ _ _ _ _ _ Hpl) as (m' & ? & ? & F). exists m'. auto. }
  assert (nodes (plug k (T c l x (plug ks (T cs E y ry)))) ≡ₚ
    path_nodes (ks ++ Frame Rgt c y l :: k) ++ x :: nodes ry) as Hperm.
  { rewrite plug_perm. cbn [nodes]. rewrite (plug_perm ks), path_nodes_app. cbn. solve_Permutation. }
  exists m', (match k with [] => Some y | _ => root end). split_and!.
  - unfold swap_successor. run My. run P2. destruct (adopt m2 y) as [m3|]; [|done].
    cbn [mbind option_bind] in *. by rewrite P.
  - split.
    + assert (top (plug (ks ++ Frame Rgt c y l :: k) E) = match k with [] => Some y | _ => root end) as <-.
      { rewrite plug_app. destruct k as [|g k]; [done|]. rewrite (level_root _ _ _ _ H).
        exact (top_plug g k (T c l y (plug ks E)) _). }
      by destruct ks.
    + done.
    + exists Rgt. rewrite Hx, parent_of_app. cbn.
      by assert (is_top (ks ++ Frame Rgt c y l :: k) = false) as -> by by destruct ks.
    + by exists (Some y).
    + rewrite <- Hperm. exact (level_nodup _ _ _ _ H).
    + intros u Hu. rewrite <- Hperm. by apply (level_up _ _ _ _ H).
    + by destruct ks.
  - intros q Hq. rewrite <- (F2 q Hq). rewrite Hperm in Hq.
    rewrite path_nodes_app in Hq. cbn in Hq. apply F; set_solver.
Qed.

(** ** The whole operation *)

Lemma one_child_direct m root up k d c ct x :
  level m root up (plug k (mk d c ct x E)) → (k = [] → ct ≠ E) → one_child m root up k x c ct.
Proof.
  intros H Hk. pose proof (level_hole _ _ _ _ _ H) as [Hr Hp Ht _ _ _].
  apply tree_at_mk in Ht as (Hx & Hct & _). rewrite top_mk in Hp.
  assert (nodes (plug k (mk d c ct x E)) ≡ₚ path_nodes k ++ x :: nodes ct) as Hperm.
  { rewrite plug_perm, mk_nodes. destruct d; cbn; solve_Permutation. }
  split; try done.
  - rewrite Hr. destruct k as [|f k]; [by rewrite <- (top_mk d c ct x E)|]. apply top_plug.
  - eauto.
  - eauto.
  - rewrite <- Hperm. exact (level_nodup _ _ _ _ H).
  - intros u Hu. rewrite <- Hperm. by apply (level_up _ _ _ _ H).
Qed.

Lemma rbt_one_child d c ct x n :
  rbt (mk d c ct x E) n → if c then n = 0 ∧ ct = E else n = 1 ∧ rbt ct 0.
Proof.
  intros H. destruct (rbt_mk_inv _ _ _ _ _ _ H) as [(-> & Ha & Hb & Ca & _)|(-> & n' & -> & Ha & Hb)].
  - inversion Hb; subst. split; [done|]. inversion Ha; subst; done.
  - inversion Hb; subst. done.
Qed.

Lemma rbt_path_rename ks d c x y l k n :
  rbt_path (ks ++ Frame d c x l :: k) n → rbt_path (ks ++ Frame d c y l :: k) n.
Proof.
  revert n. induction ks as [|[d' c' p s] ks IH]; intros n H; cbn in *.
  - inversion H; subst; by constructor.
  - inversion H as [|? ? ? ? ? Hs Cs Hk Hr|]; subst; constructor; auto.
    by destruct ks as [|g ks].
Qed.

Lemma linked_check m root up k c l x r :
  level m root up (plug k (T c l x r)) →
  m !! x = Some (Node (top l) (top r) (parent_of k up) c (is_top k)) ∧
  (if is_top k then Some (bool_decide (root = Some x))
   else up ← parent_of k up; un ← m !! up;
        Some (bool_decide (left un = Some x ∨ right un = Some x))) = Some true.
Proof.
  intros H%level_hole. destruct H as [Hr Hk (Mx & _) _ _ _]. split; [done|].
  destruct k as [|[d cf p s] k]; cbn.
  - by rewrite bool_decide_true.
  - destruct Hk as (Mp & _). rewrite Mp. cbn. rewrite bool_decide_true; [done|]. destruct d; cbn; auto.
Qed.

(** The level after a deletion: [x] is gone from the order [l1 ++ x :: l2]. *)
Definition deleted (r : option (store * option ptr)) (m : store) (up : option ptr) (S l1 l2 : list ptr)
    : Prop :=
  ∃ m' root' t' n', r = Some (m', root') ∧ level m' root' up t' ∧ rbt t' n' ∧ color t' = false ∧
    nodes t' = l1 ++ l2 ∧ (∀ q, q ∉ S → m' !! q = m !! q).

Lemma unlink_deleted m root up k d c ct x n :
  level m root up (plug k (mk d c ct x E)) → rbt (plug k (mk d c ct x E)) n →
  color (plug k (mk d c ct x E)) = false → (k = [] → ct ≠ E) →
  deleted (unlink m x (top ct) root) m up (nodes (plug k (mk d c ct x E)))
    (before_hole k) (nodes ct ++ after_hole k).
Proof.
  intros H Hr Hc Hk. destruct (rbt_plug_inv _ _ _ Hr Hc) as (n0 & Ht & Hkr & Hred).
  rewrite color_mk in Hred. pose proof (rbt_one_child _ _ _ _ _ Ht) as Hone.
  destruct (unlink_level _ _ _ _ _ _ _ _ (one_child_direct _ _ _ _ _ _ _ _ H Hk) Hkr Hred Hone)
    as (m' & root' & t' & n' & Hrun & H' & Hr' & Hc' & Hn' & F).
  exists m', root', t', n'. split_and!; try done.
  - by rewrite Hn', plug_nodes.
  - intros q Hq. apply F. revert Hq. rewrite !elem_of_plug, elem_of_mk. tauto.
Qed.

Lemma swap_deleted m root up k c l x ks cs y ry n :
  let t := plug k (T c l x (plug ks (T cs E y ry))) in
  level m root up t → rbt t n → color t = false → all_left ks →
  deleted ('(m, root) ← swap_successor m x y root; unlink m x (top ry) root) m up (nodes t)
    (before_hole k ++ nodes l) (nodes (plug ks (T cs E y ry)) ++ after_hole k).
Proof.
  intros t H Hr Hc Hks.
  destruct (swap_level _ _ _ _ _ _ _ _ _ _ _ H Hks) as (m1 & root1 & P & Hone & F1).
  assert (t = plug (ks ++ Frame Rgt c x l :: k) (T cs E y ry)) as Et by by rewrite plug_app.
  rewrite Et in Hr, Hc. destruct (rbt_plug_inv _ _ _ Hr Hc) as (n0 & Ht & Hkr & Hred).
  pose proof (rbt_one_child Rgt cs ry y _ Ht) as Hoc.
  assert (path_red (ks ++ Frame Rgt c y l :: k) = path_red (ks ++ Frame Rgt c x l :: k)) as Hpr
    by by destruct ks.
  destruct (unlink_level _ _ _ _ _ _ _ _ Hone (rbt_path_rename _ _ _ _ y _ _ _ Hkr)
    ltac:(by rewrite Hpr) Hoc) as (m' & root' & t' & n' & Hrun & H' & Hr' & Hc' & Hn' & F).
  exists m', root', t', n'. rewrite P. cbn [mbind option_bind]. split_and!; try done.
  - rewrite Hn', plug_app, !plug_nodes, (all_left_before ks Hks). cbn. by rewrite <- !app_assoc.
  - intros q Hq. rewrite F; [by apply F1|]. intros Hc2. apply Hq. unfold t. revert Hc2.
    rewrite !elem_of_plug, path_nodes_app, elem_of_app. cbn.
    rewrite !elem_of_app, !elem_of_cons, elem_of_plug, elem_of_app. cbn.
    rewrite elem_of_cons. tauto.
Qed.

Lemma deletefromlevel_level (m : store) (root up : option ptr) (t : tree) (n : nat) (x : ptr)
    (l1 l2 : list ptr) :
  level m root up t → rbt t n → color t = false → nodes t = l1 ++ x :: l2 →
  ∃ m' root' t' n', dns_rbt_deletefromlevel m x root = Some (m', root') ∧
    level m' root' up t' ∧ rbt t' n' ∧ color t' = false ∧ nodes t' = l1 ++ l2 ∧
    (∀ q, q ∉ nodes t → m' !! q = m !! q).
Proof.
  intros H Hr Hc Hn.
  destruct (node_place t x) as (k & c & l & r & ->); [rewrite Hn; set_solver|].
  pose proof (level_nodup _ _ _ _ H) as Hd. rewrite Hn in Hd. rewrite plug_nodes in Hn.
  cbn [nodes] in Hn. rewrite <- !app_assoc, (app_assoc (before_hole k)) in Hn. cbn in Hn.
  destruct (nodup_split _ _ _ _ _ Hd (eq_sym Hn)) as [-> ->]. clear Hn Hd.
  destruct (linked_check _ _ _ _ _ _ _ _ H) as [Mx Hlink].
  unfold dns_rbt_deletefromlevel. rewrite Mx. cbn [mbind option_bind is_root parent left right].
  rewrite Hlink. cbn [mbind option_bind].
  destruct l as [|cl ll yl rl], r as [|cr lr yr rr]; cbn [top].
  - destruct k as [|f k]; cbn [is_top].
    + exists m, None, E, 0. split_and!; try done; [|constructor].
      split; [done|done|by apply NoDup_nil|]. intros u _. set_solver.
    + rewrite app_nil_r. by apply (unlink_deleted _ _ _ (f :: k) Lft c E x n).
  - rewrite app_nil_r. by apply (unlink_deleted _ _ _ k Rgt c (T cr lr yr rr) x n).
  - rewrite <- app_assoc. by apply (unlink_deleted _ _ _ k Lft c (T cl ll yl rl) x n).
  - destruct (level_hole _ _ _ _ _ H) as [_ _ (_ & _ & Mr) _ _ _].
    destruct (leftmost_spec _ _ yr _ _ Mr eq_refl) as (ks & cs & y & ry & Er & Hks & Hleft).
    rewrite Er in *. rewrite Hleft.
    2: { pose proof (level_size _ _ _ _ H) as Hs. rewrite plug_perm in Hs. cbn in Hs.
         rewrite !length_app in Hs. cbn in Hs. rewrite (plug_perm ks), length_app in Hs.
         pose proof (path_length ks). lia. }
    cbn [mbind option_bind]. apply tree_at_plug_in in Mr as (_ & My & _).
    rewrite My. cbn [mbind option_bind right]. by eapply swap_deleted.
Qed.

(** [dns_rbt_deletefromlevel] takes a node out of a level. The level loses
    exactly that node and keeps the order of the others; it is again a
    red-black tree with a black root, reached from the root pointer that is
    returned ([NULL] when the node was the last one); every node outside the
    level is as it was; and no assertion fails, no [NULL] is followed, and
    every loop ends. *)
Theorem deletefromlevel_spec (m : store) (root up : option ptr) (t : tree) (n : nat) (x : ptr)
    (l1 l2 : list ptr) :
  level m root up t → rbt t n → color t = false → nodes t = l1 ++ x :: l2 →
  ∃ m' root' t' n', dns_rbt_deletefromlevel m x root = Some (m', root') ∧
    level m' root' up t' ∧ rbt t' n' ∧ color t' = false ∧ nodes t' = l1 ++ l2 ∧
    (∀ q, q ∉ nodes t → m' !! q = m !! q).
Proof. apply deletefromlevel_level. Qed.
