(* ===== verification/NameTree.v ===== *)
(** * The name tree

    [lib/dns/rbt.c]: the tree of trees that holds the names of a database. A
    node of a level carries the labels of its name below the node above the
    level; [down] leads to the level of the names below it. A hash table
    ([DNS_RBT_USEHASH], the default) finds a name's node in a level without a
    search.

    A node has two parts: the fields of its level ([Rbt.v], the map [links])
    and the others ([outer], the map [outers]). Memory is a parameter:
    [isc_mem_get] chooses the address of a new node, or has none;
    [get_table] says whether the memory for a hash table of some size is to be
    had; [rndvector] is the random vector of [lib/isc/hash.c]. [None] is a
    failed assertion, an access through a [NULL] pointer or out of an array. *)

From stdpp Require Import gmap.
From S2P Require Import Prelude Rdata Name Rbt.

#[local] Open Scope nat_scope.

(** ** Data *)

(** The fields of [struct dns_rbtnode] outside the level. [name_data] is what
    follows the node in memory, of which the first [namelen] bytes are the
    name now; the offsets are computed from it ([Name.v]). *)
Record outer := Outer {
  name_data : list Z; namelen : nat; offsetlen : nat; attr_absolute : bool;
  down : option ptr; data : option nat; find_callback : bool; nsec : Z;
  hashval : Z; hashnext : option ptr }.

(** [struct dns_rbt], with the memory of its nodes. *)
Record dns_rbt := DnsRbt {
  links : store; outers : gmap ptr outer;
  rbt_root : option ptr; nodecount : Z;
  hashtable : list (option ptr); hashsize : Z }.

Definition NODENAME (o : outer) : name :=
  Name (take (namelen o) (name_data o)) (offsetlen o) (attr_absolute o).

Definition set_links (s : dns_rbt) (m : store) : dns_rbt :=
  DnsRbt m (outers s) (rbt_root s) (nodecount s) (hashtable s) (hashsize s).
Definition set_outers (s : dns_rbt) (m : gmap ptr outer) : dns_rbt :=
  DnsRbt (links s) m (rbt_root s) (nodecount s) (hashtable s) (hashsize s).
Definition set_root (s : dns_rbt) (r : option ptr) : dns_rbt :=
  DnsRbt (links s) (outers s) r (nodecount s) (hashtable s) (hashsize s).
Definition set_nodecount (s : dns_rbt) (n : Z) : dns_rbt :=
  DnsRbt (links s) (outers s) (rbt_root s) n (hashtable s) (hashsize s).
Definition set_hash (s : dns_rbt) (m : gmap ptr outer) (t : list (option ptr)) (size : Z) : dns_rbt :=
  DnsRbt (links s) m (rbt_root s) (nodecount s) t size.

Definition with_down (o : outer) (v : option ptr) : outer :=
  Outer (name_data o) (namelen o) (offsetlen o) (attr_absolute o) v (data o) (find_callback o)
        (nsec o) (hashval o) (hashnext o).
Definition with_data (o : outer) (v : option nat) : outer :=
  Outer (name_data o) (namelen o) (offsetlen o) (attr_absolute o) (down o) v (find_callback o)
        (nsec o) (hashval o) (hashnext o).
Definition with_nsec (o : outer) (v : Z) : outer :=
  Outer (name_data o) (namelen o) (offsetlen o) (attr_absolute o) (down o) (data o)
        (find_callback o) v (hashval o) (hashnext o).
Definition with_hash (o : outer) (v : Z) (next : option ptr) : outer :=
  Outer (name_data o) (namelen o) (offsetlen o) (attr_absolute o) (down o) (data o)
        (find_callback o) (nsec o) v next.
(** [NAMELEN(node) = prefix->length; OFFSETLEN(node) = prefix->labels;
    ATTRS(node) &= ~DNS_NAMEATTR_ABSOLUTE] *)
Definition with_prefix (o : outer) (prefix : name) : outer :=
  Outer (name_data o) (length (ndata prefix)) (labels prefix) false (down o) (data o)
        (find_callback o) (nsec o) (hashval o) (hashnext o).

Definition upd_outer (s : dns_rbt) (p : ptr) (f : outer → outer) : option dns_rbt :=
  o ← outers s !! p; Some (set_outers s (<[p := f o]> (outers s))).

(** A [dns_rbtnode_t **]: the root of the tree or the [down] field of a node. *)
Inductive slot := TOP | DOWN (p : ptr).

Definition read_slot (s : dns_rbt) (x : slot) : option (option ptr) :=
  match x with TOP => Some (rbt_root s) | DOWN p => o ← outers s !! p; Some (down o) end.
Definition write_slot (s : dns_rbt) (x : slot) (v : option ptr) : option dns_rbt :=
  match x with TOP => Some (set_root s v) | DOWN p => upd_outer s p (λ o, with_down o v) end.

(** [dns_name_split]; the code asks for one part or for both. *)
Definition split_prefix (n : name) (suffixlabels : nat) : option name :=
  if bool_decide (0 < suffixlabels < labels n)
  then dns_name_getlabelsequence n 0 (labels n - suffixlabels) else None.
Definition split_suffix (n : name) (suffixlabels : nat) : option name :=
  if bool_decide (0 < suffixlabels < labels n)
  then dns_name_getlabelsequence n (labels n - suffixlabels) suffixlabels else None.

Section Tree.
Context (isc_mem_get : store → option ptr) (get_table : Z → bool) (rndvector : list Z).

(** ** Hashing names *)

Definition PRIME32 : Z := 0xFFFFFFFB.

(** [hash_calc] of [lib/isc/hash.c], not case-sensitive. *)
Fixpoint hash_sum (key p : list Z) (partial_sum : Z) : option Z :=
  match key, p with
  | c :: key, r :: p => hash_sum key p (u32 (partial_sum + u32 (maptolower c * r)))
  | [], r :: _ => Some (u32 (partial_sum + r) mod PRIME32)%Z
  | _, [] => None
  end.

Definition dns_name_fullhash (n : name) : option Z :=
  if bool_decide (labels n = 0) then Some 0%Z else hash_sum (ndata n) rndvector 0.

Definition RBT_HASH_SIZE : Z := 64.

(** Node [p] goes in front of a bucket. *)
Definition push_bucket (m : gmap ptr outer) (t : list (option ptr)) (p : ptr) (h sz : Z)
    : option (gmap ptr outer * list (option ptr)) :=
  let bucket := Z.to_nat (h mod sz) in
  o ← m !! p; head ← t !! bucket;
  Some (<[p := with_hash o h head]> m, <[bucket := Some p]> t).

Definition hash_add_node (s : dns_rbt) (p : ptr) (n : name) : option dns_rbt :=
  h ← dns_name_fullhash n;
  '(m, t) ← push_bucket (outers s) (hashtable s) p h (hashsize s);
  Some (set_hash s m t (hashsize s)).

(** The inner loop of [rehash]. *)
Fixpoint rehash_bucket (fuel : nat) (m : gmap ptr outer) (t : list (option ptr)) (sz : Z)
    (p : option ptr) : option (gmap ptr outer * list (option ptr)) :=
  match p, fuel with
  | None, _ => Some (m, t)
  | Some _, O => None
  | Some p, S fuel =>
      o ← m !! p;
      '(m, t) ← push_bucket m t p (hashval o) sz;
      rehash_bucket fuel m t sz (hashnext o)
  end.

Fixpoint rehash_loop (fuel : nat) (m : gmap ptr outer) (t : list (option ptr)) (sz : Z)
    (old : list (option ptr)) : option (gmap ptr outer * list (option ptr)) :=
  match old with
  | [] => Some (m, t)
  | p :: old => '(m, t) ← rehash_bucket fuel m t sz p; rehash_loop fuel m t sz old
  end.

Definition rehash (s : dns_rbt) : option dns_rbt :=
  let sz := u32 (hashsize s * 2 + 1) in
  if get_table sz then
    '(m, t) ← rehash_loop (size (outers s)) (outers s) (replicate (Z.to_nat sz) None) sz
                (hashtable s);
    Some (set_hash s m t sz)
  else Some s.

(** [hash_node]; [nodecount] and [hashsize * 3] are [unsigned int]s. *)
Definition hash_node (s : dns_rbt) (p : ptr) (n : name) : option dns_rbt :=
  s ← (if bool_decide (nodecount s >= u32 (hashsize s * 3))%Z then rehash s else Some s);
  hash_add_node s p n.

(** The search of [unhash_node] for the node before [p] in its bucket. *)
Fixpoint unhash_loop (fuel : nat) (m : gmap ptr outer) (b p : ptr) (next : option ptr)
    : option (gmap ptr outer) :=
  match fuel with
  | O => None
  | S fuel =>
      o ← m !! b;
      if bool_decide (hashnext o = Some p) then Some (<[b := with_hash o (hashval o) next]> m)
      else b ← hashnext o; unhash_loop fuel m b p next
  end.

Definition unhash_node (s : dns_rbt) (p : ptr) : option dns_rbt :=
  o ← outers s !! p;
  let bucket := Z.to_nat (hashval o mod hashsize s) in
  b ← hashtable s !! bucket;
  if bool_decide (b = Some p) then
    Some (set_hash s (outers s) (<[bucket := hashnext o]> (hashtable s)) (hashsize s))
  else
    b ← b;
    m ← unhash_loop (size (outers s)) (outers s) b p (hashnext o);
    Some (set_hash s m (hashtable s) (hashsize s)).

(** [inithash] *)
Definition inithash (s : dns_rbt) : isc_result * dns_rbt :=
  if get_table RBT_HASH_SIZE
  then (ISC_R_SUCCESS,
        set_hash s (outers s) (replicate (Z.to_nat RBT_HASH_SIZE) None) RBT_HASH_SIZE)
  else (ISC_R_NOMEMORY, set_hash s (outers s) (hashtable s) RBT_HASH_SIZE).

(** [dns_rbt_create]; [got] says whether there is memory for the structure. *)
Definition dns_rbt_create (got : bool) : isc_result * option dns_rbt :=
  if got then
    let '(result, s) := inithash (DnsRbt ∅ ∅ None 0 [] 0) in
    if bool_decide (result ≠ ISC_R_SUCCESS) then (result, None) else (ISC_R_SUCCESS, Some s)
  else (ISC_R_NOMEMORY, None).

(** ** Adding a name *)

Definition inc_nodecount (s : dns_rbt) : dns_rbt := set_nodecount s (u32 (nodecount s + 1)).

Definition create_node (s : dns_rbt) (n : name) : option (dns_rbt * option ptr) :=
  if bool_decide (0 < labels n) then
    match isc_mem_get (links s) with
    | None => Some (s, None)
    | Some p =>
        let o := Outer (ndata n) (length (ndata n)) (labels n) (absolute n) None None false 0 0 None in
        Some (set_outers (set_links s (<[p := Node None None None false false]> (links s)))
                         (<[p := o]> (outers s)), Some p)
    end
  else None.

(** [if (LEFT(parent) == current) LEFT(parent) = new_current; else RIGHT(...) = new_current;]
    for the parent inside the level, which may be [NULL]. *)
Definition fix_parent (m : store) (parent : option ptr) (current new : ptr) : option store :=
  match parent with
  | None => Some m
  | Some _ => replace_child m parent current (Some new)
  end.
Definition fix_child (m : store) (c : option ptr) (new : ptr) : option store :=
  match c with None => Some m | Some c => put_parent m c (Some new) end.

(** The new node takes the place of [current] in its level ... *)
Definition replace_in_level (m : store) (parent : option ptr) (current new : ptr) : option store :=
  n ← m !! current;
  m ← put_is_root m new (is_root n);
  m ← put_parent m new (Rbt.parent n);
  m ← put_child Lft m new (left n);
  m ← put_child Rgt m new (right n);
  m ← put_red m new (red n);
  m ← fix_parent m parent current new;
  nn ← m !! new;
  m ← fix_child m (left nn) new;
  fix_child m (right nn) new.

(** ... and [current] becomes the root of the level below it. *)
Definition lone_root (m : store) (p new : ptr) : option store :=
  m ← put_is_root m p true;
  m ← put_parent m p (Some new);
  m ← put_child Lft m p None;
  m ← put_child Rgt m p None;
  put_red m p false.

Definition DNS_RBT_NSEC_NORMAL : Z := 0.
Definition DNS_RBT_NSEC_HAS_NSEC : Z := 1.

(** The split of [current], between the creation of [new] and the hashing of
    it; [prefix] is what remains of the name of [current]. *)
Definition split_current (s : dns_rbt) (parent : option ptr) (rootp : slot) (current new : ptr)
    (prefix : name) : option dns_rbt :=
  o ← outers s !! current;
  s ← upd_outer s new (λ n, with_nsec n
        (if bool_decide (nsec o = DNS_RBT_NSEC_HAS_NSEC) then DNS_RBT_NSEC_NORMAL else nsec o));
  m ← replace_in_level (links s) parent current new;
  let s := set_links s m in
  r ← read_slot s rootp;
  s ← (if bool_decide (r = Some current) then write_slot s rootp (Some new) else Some s);
  s ← upd_outer s current (λ o, with_prefix o prefix);
  s ← upd_outer s new (λ n, with_down n (Some current));
  m ← lone_root (links s) current new;
  Some (inc_nodecount (set_links s m)).

(** How the loop of [dns_rbt_addnode] ends: with a result, or where a new
    node is to be linked. *)
Inductive add_exit :=
  | AddDone (s : dns_rbt) (result : isc_result) (node : option ptr)
  | AddLink (s : dns_rbt) (current : ptr) (add_name : name) (order : Z) (rootp : slot).

Definition DNS_RBT_LEVELBLOCK : nat := 254.

(** The branch for a common suffix that is not the whole name of [current]. *)
Definition add_split (s : dns_rbt) (name add_name : name) (rootp : slot) (parent : option ptr)
    (current : ptr) (hlabels level_count common_labels : nat) (order : Z) : option add_exit :=
  if bool_decide (level_count = DNS_RBT_LEVELBLOCK) then Some (AddDone s ISC_R_NOSPACE None)
  else
    o ← outers s !! current;
    prefix ← split_prefix (NODENAME o) common_labels;
    suffix ← split_suffix (NODENAME o) common_labels;
    '(s, new) ← create_node s suffix;
    match new with
    | None => Some (AddDone s ISC_R_NOMEMORY None)
    | Some new =>
        s ← split_current s parent rootp current new prefix;
        new_name ← dns_name_getlabelsequence name (labels name - hlabels) hlabels;
        s ← hash_node s new new_name;
        if bool_decide (common_labels = labels add_name)
        then Some (AddDone s ISC_R_SUCCESS (Some new))
        else
          add_name ← split_prefix add_name common_labels;
          Some (AddLink s current add_name order (DOWN new))
    end.

(** The loop; [fuel] bounds the nodes compared. *)
Fixpoint add_loop (fuel : nat) (s : dns_rbt) (name add_name : name) (rootp : slot)
    (parent : option ptr) (current : ptr) (hlabels level_count : nat) : option add_exit :=
  match fuel with
  | O => None
  | S fuel =>
      o ← outers s !! current;
      '(compared, order, common_labels) ← dns_name_fullcompare add_name (NODENAME o);
      match compared with
      | dns_namereln_equal => Some (AddDone s ISC_R_EXISTS (Some current))
      | dns_namereln_none =>
          n ← links s !! current;
          let '(parent, child) :=
            if bool_decide (order < 0)%Z then (Some current, left n)
            else if bool_decide (order > 0)%Z then (Some current, right n)
            else (parent, Some current) in
          match child with
          | None => Some (AddLink s current add_name order rootp)
          | Some child => add_loop fuel s name add_name rootp parent child hlabels level_count
          end
      | dns_namereln_subdomain =>
          add_name ← split_prefix add_name common_labels;
          if bool_decide (level_count < DNS_RBT_LEVELBLOCK) then
            match down o with
            | None => Some (AddLink s current add_name order (DOWN current))
            | Some child =>
                n ← links s !! child;
                if bool_decide (is_root n = true ∧ Rbt.parent n = Some current) then
                  add_loop fuel s name add_name (DOWN current) None child
                           (hlabels + common_labels) (S level_count)
                else None
            end
          else None
      | _ => add_split s name add_name rootp parent current (hlabels + common_labels) level_count
                       common_labels order
      end
  end.

(** Enough for all nodes of a level, once for each label. *)
Definition add_fuel (s : dns_rbt) (n : name) : nat := S (labels n) * S (size (links s)).

Definition dns_rbt_addnode (s : dns_rbt) (name : name) : option (dns_rbt * isc_result * option ptr) :=
  if absolute name then
    match rbt_root s with
    | None =>
        '(s, new) ← create_node s name;
        match new with
        | None => Some (s, ISC_R_NOMEMORY, None)
        | Some p =>
            let s := inc_nodecount s in
            m ← put_is_root (links s) p true;
            let s := set_root (set_links s m) (Some p) in
            s ← hash_node s p name;
            Some (s, ISC_R_SUCCESS, Some p)
        end
    | Some r =>
        rn ← links s !! r;
        if is_root rn then
          exit ← add_loop (add_fuel s name) s name name TOP None r 0 0;
          match exit with
          | AddDone s result node => Some (s, result, node)
          | AddLink s current add_name order rootp =>
              '(s, new) ← create_node s add_name;
              match new with
              | None => Some (s, ISC_R_NOMEMORY, None)
              | Some p =>
                  root ← read_slot s rootp;
                  '(m, root) ← dns_rbt_addonlevel (links s) p current order root;
                  s ← write_slot (set_links s m) rootp root;
                  let s := inc_nodecount s in
                  s ← hash_node s p name;
                  Some (s, ISC_R_SUCCESS, Some p)
              end
          end
        else None
    end
  else None.

(** [dns_rbt_addname] with some data. *)
Definition dns_rbt_addname (s : dns_rbt) (name : name) (v : nat) : option (dns_rbt * isc_result) :=
  '(s, result, node) ← dns_rbt_addnode s name;
  match result with
  | ISC_R_SUCCESS => p ← node; s ← upd_outer s p (λ o, with_data o (Some v)); Some (s, ISC_R_SUCCESS)
  | ISC_R_EXISTS =>
      p ← node; o ← outers s !! p;
      if bool_decide (data o = None) then
        s ← upd_outer s p (λ o, with_data o (Some v)); Some (s, ISC_R_SUCCESS)
      else Some (s, ISC_R_EXISTS)
  | r => Some (s, r)
  end.

End Tree.
