(* ===== verification/NameChain.v ===== *)
(** * Chains: places in the name tree

    [dns_rbtnodechain_t] of [lib/dns/rbt.c]: a node and the nodes above its
    level, from the top. Chains walk the tree in the DNSSEC order of the
    names. [levels] holds the first [level_count] entries of the array of
    that name; the entries after them are never read. *)

From stdpp Require Import gmap.
From S2P Require Import Prelude Rdata Name Rbt NameTree.

#[local] Open Scope nat_scope.

Record chain := Chain { chain_end : option ptr; levels : list ptr; level_matches : nat }.

Abbreviation level_count c := (length (levels c)).

(** [dns_rbtnodechain_reset] *)
Definition chain_reset : chain := Chain None [] 0.
Definition with_end (c : chain) (p : option ptr) : chain := Chain p (levels c) (level_matches c).

(** [ADD_LEVEL] *)
Definition ADD_LEVEL (c : chain) (p : ptr) : option chain :=
  if bool_decide (level_count c < DNS_RBT_LEVELBLOCK)
  then Some (Chain (chain_end c) (levels c ++ [p]) (level_matches c)) else None.

(** [chain->levels[--chain->level_count]] *)
Definition drop_level (c : chain) : option (ptr * chain) :=
  p ← last (levels c); Some (p, Chain (chain_end c) (removelast (levels c)) (level_matches c)).

(** ** Names *)

(** [dns_name_concatenate] of [lib/dns/name.c] into the buffer of the result,
    which has room for the longest name. *)
Definition dns_name_concatenate (prefix suffix : name) : option (isc_result * name) :=
  let copy_prefix := bool_decide (labels prefix ≠ 0) in
  let copy_suffix := bool_decide (labels suffix ≠ 0) in
  if copy_prefix && absolute prefix && copy_suffix then None
  else
    let d := (if copy_prefix then ndata prefix else []) ++ (if copy_suffix then ndata suffix else []) in
    if bool_decide (DNS_NAME_MAXWIRE < length d) then Some (DNS_R_NAMETOOLONG, Name [] 0 false)
    else Some (ISC_R_SUCCESS,
               Name d ((if copy_prefix then labels prefix else 0) + (if copy_suffix then labels suffix else 0))
                    (copy_prefix && absolute prefix || copy_suffix && absolute suffix)).

(** The loop of [chain_name], from the last level up. *)
Fixpoint chain_name_loop (s : dns_rbt) (up : list ptr) (n : name) : option (isc_result * name) :=
  match up with
  | [] => Some (ISC_R_SUCCESS, n)
  | p :: up =>
      o ← outers s !! p;
      '(result, n) ← dns_name_concatenate n (NODENAME o);
      if bool_decide (result = ISC_R_SUCCESS) then chain_name_loop s up n else Some (result, n)
  end.

Definition chain_name (s : dns_rbt) (c : chain) (include_chain_end : bool) : option (isc_result * name) :=
  n ← match chain_end c with
      | Some p => if include_chain_end then o ← outers s !! p; Some (NODENAME o)
                  else Some (Name [] 0 false)
      | None => Some (Name [] 0 false)
      end;
  chain_name_loop s (reverse (levels c)) n.

(** [dns_rbtnodechain_current]: the name, relative, and the origin, each if
    it is asked for. *)
Definition dns_rbtnodechain_current (s : dns_rbt) (c : chain) (name origin : bool)
    : option (isc_result * option Name.name * option Name.name) :=
  match chain_end c with
  | None => Some (ISC_R_NOTFOUND, None, None)
  | Some p =>
      name ← (if name : bool then
                o ← outers s !! p;
                let n := NODENAME o in
                if bool_decide (level_count c = 0) then
                  if absolute n then
                    Some (Some (Name (take (length (ndata n) - 1) (ndata n)) (labels n - 1) false))
                  else None
                else Some (Some n)
              else Some None);
      '(result, origin) ←
        (if origin : bool then
           if bool_decide (0 < level_count c) then
             '(r, n) ← chain_name s c false; Some (r, Some n)
           else Some (ISC_R_SUCCESS, Some (Name [0%Z] 1 true))
         else Some (ISC_R_SUCCESS, None));
      Some (result, name, origin)
  end.

(** ** Moving *)

(** [while (LEFT(node) != NULL) node = LEFT(node);] and the mirror image *)
Fixpoint farthest (fuel : nat) (d : side) (m : store) (p : ptr) : option ptr :=
  match fuel with
  | O => None
  | S fuel =>
      n ← m !! p;
      match child d n with None => Some p | Some q => farthest fuel d m q end
  end.

(** [move_chain_to_last]; each round goes down a level. *)
Fixpoint move_chain_to_last (fuel : nat) (s : dns_rbt) (c : chain) (p : ptr) : option chain :=
  match fuel with
  | O => None
  | S fuel =>
      p ← farthest (S (size (links s))) Rgt (links s) p;
      o ← outers s !! p;
      match down o with
      | None => Some (with_end c (Some p))
      | Some q => c ← ADD_LEVEL c p; move_chain_to_last fuel s c q
      end
  end.

(** [while (! IS_ROOT(current)) ...]: up the level to the first node that has
    the place on its side [d]; the second component is where the walk ends. *)
Fixpoint climb (fuel : nat) (d : side) (m : store) (p : ptr) : option (option ptr * ptr) :=
  match fuel with
  | O => None
  | S fuel =>
      n ← m !! p;
      if is_root n then Some (None, p)
      else
        q ← parent n; qn ← m !! q;
        if bool_decide (child d qn = Some p) then Some (Some q, q) else climb fuel d m q
  end.

(** The node before a node in its level, if any, for [dns_rbtnodechain_prev];
    with [Lft] the node after it. *)
Definition neighbour (d : side) (s : dns_rbt) (p : ptr) : option (option ptr * ptr) :=
  n ← links s !! p;
  match child (opp d) n with
  | Some q => q ← farthest (S (size (links s))) d (links s) q; Some (Some q, q)
  | None => climb (S (size (links s))) d (links s) p
  end.

(** [dns_rbtnodechain_prev]. Its [do] loop below a predecessor with a level
    of its own is that of [move_chain_to_last]. *)
Definition dns_rbtnodechain_prev (s : dns_rbt) (c : chain) (name origin : bool)
    : option (isc_result * chain * option Name.name * option Name.name) :=
  p ← chain_end c;
  '(predecessor, current) ← neighbour Rgt s p;
  '(predecessor, c, new_origin) ←
    (match predecessor with
     | Some q =>
         o ← outers s !! q;
         match down o with
         | Some r =>
             c ← ADD_LEVEL c q;
             c ← move_chain_to_last (S DNS_RBT_LEVELBLOCK) s c r;
             Some (chain_end c, c, origin)
         | None => Some (Some q, c, false)
         end
     | None =>
         if bool_decide (0 < level_count c) then
           n ← links s !! current;
           if is_root n then
             '(q, c) ← drop_level c;
             o ← outers s !! q;
             Some (Some q, c, origin && bool_decide (0 < level_count c ∨ 1 < offsetlen o))
           else None
         else Some (None, c, false)
     end);
  match predecessor with
  | None => Some (ISC_R_NOMORE, c, None, None)
  | Some q =>
      let c := with_end c (Some q) in
      '(result, n, o) ← dns_rbtnodechain_current s c name new_origin;
      Some (if new_origin && bool_decide (result = ISC_R_SUCCESS) then DNS_R_NEWORIGIN else result,
            c, n, o)
  end.

(** The ascent of [dns_rbtnodechain_next]: the successor, if the ascent finds
    one itself, the node where it ends, and whether the origin has changed. *)
Fixpoint next_up (fuel : nat) (s : dns_rbt) (c : chain) (current : ptr) (new_origin : bool)
    : option (option ptr * ptr * chain * bool) :=
  match fuel with
  | O => None
  | S fuel =>
      '(successor, current) ← climb (S (size (links s))) Lft (links s) current;
      match successor with
      | Some q => Some (Some q, current, c, new_origin)
      | None =>
          if bool_decide (level_count c = 0) then Some (None, current, c, new_origin)
          else
            '(current, c) ← drop_level c;
            n ← links s !! current;
            if bool_decide (right n ≠ None) then Some (None, current, c, true)
            else next_up fuel s c current true
      end
  end.

Definition dns_rbtnodechain_next (s : dns_rbt) (c : chain) (name origin : bool)
    : option (isc_result * chain * option Name.name * option Name.name) :=
  p ← chain_end c;
  o ← outers s !! p; n ← links s !! p;
  '(successor, current, c, new_origin) ←
    (match down o with
     | Some q =>
         let new_origin := bool_decide (0 < level_count c ∨ 1 < offsetlen o) in
         c ← ADD_LEVEL c p;
         q ← farthest (S (size (links s))) Lft (links s) q;
         Some (Some q, q, c, new_origin)
     | None =>
         if bool_decide (right n = None) then next_up (S (level_count c)) s c p false
         else Some (None, p, c, false)
     end);
  n ← links s !! current;
  successor ← (match successor, right n with
               | None, Some q => q ← farthest (S (size (links s))) Lft (links s) q; Some (Some q)
               | successor, _ => Some successor
               end);
  match successor with
  | None => Some (ISC_R_NOMORE, c, None, None)
  | Some q =>
      let c := with_end c (Some q) in
      name ← (if name : bool then o ← outers s !! q; Some (Some (NODENAME o)) else Some None);
      '(result, origin) ← (if new_origin && origin
                           then '(r, n) ← chain_name s c false; Some (r, Some n)
                           else Some (ISC_R_SUCCESS, None));
      Some (if new_origin && bool_decide (result = ISC_R_SUCCESS) then DNS_R_NEWORIGIN else result,
            c, name, origin)
  end.

(** [dns_rbtnodechain_first] and [dns_rbtnodechain_last]. *)
Definition dns_rbtnodechain_first (s : dns_rbt) (name origin : bool)
    : option (isc_result * chain * option Name.name * option Name.name) :=
  let c := with_end chain_reset (rbt_root s) in
  '(result, n, o) ← dns_rbtnodechain_current s c name origin;
  Some (if bool_decide (result = ISC_R_SUCCESS) then DNS_R_NEWORIGIN else result, c, n, o).

Definition dns_rbtnodechain_last (s : dns_rbt) (name origin : bool)
    : option (isc_result * chain * option Name.name * option Name.name) :=
  r ← rbt_root s;
  c ← move_chain_to_last (S DNS_RBT_LEVELBLOCK) s chain_reset r;
  '(result, n, o) ← dns_rbtnodechain_current s c name origin;
  Some (if bool_decide (result = ISC_R_SUCCESS) then DNS_R_NEWORIGIN else result, c, n, o).

(** [dns_rbtnodechain_nextflat]: the next node of the level. *)
Definition dns_rbtnodechain_nextflat (s : dns_rbt) (c : chain) : option (isc_result * chain) :=
  p ← chain_end c;
  '(successor, _) ← neighbour Lft s p;
  match successor with
  | Some q => Some (ISC_R_SUCCESS, with_end c (Some q))
  | None => Some (ISC_R_NOMORE, c)
  end.

(** [dns_rbtnodechain_down]: to the first node of the level below. *)
Definition dns_rbtnodechain_down (s : dns_rbt) (c : chain) (name origin : bool)
    : option (isc_result * chain * option Name.name * option Name.name) :=
  p ← chain_end c;
  o ← outers s !! p;
  match down o with
  | None => Some (ISC_R_NOMORE, c, None, None)
  | Some q =>
      let new_origin := bool_decide (0 < level_count c ∨ 1 < offsetlen o) in
      c ← ADD_LEVEL c p;
      q ← farthest (S (size (links s))) Lft (links s) q;
      let c := with_end c (Some q) in
      name ← (if name : bool then o ← outers s !! q; Some (Some (NODENAME o)) else Some None);
      '(result, origin) ← (if new_origin && origin
                           then '(r, n) ← chain_name s c false; Some (r, Some n)
                           else Some (ISC_R_SUCCESS, None));
      Some (if new_origin && bool_decide (result = ISC_R_SUCCESS) then DNS_R_NEWORIGIN else result,
            c, name, origin)
  end.
