(* ===== verification/NameFind.v ===== *)
(** * Finding a name

    [dns_rbt_findnode] of [lib/dns/rbt.c]: the node of a name, or of the
    closest name above it, and the place of the name's DNSSEC predecessor.
    Within a level a node is found through the hash table. *)

From stdpp Require Import gmap.
From S2P Require Import Prelude Rdata Name Rbt NameTree NameChain.

#[local] Open Scope nat_scope.

(** [options]: [DNS_RBTFIND_NOEXACT], [DNS_RBTFIND_EMPTYDATA],
    [DNS_RBTFIND_NOPREDECESSOR]. *)
Record find_options := FindOptions { NOEXACT : bool; EMPTYDATA : bool; NOPREDECESSOR : bool }.

(** [find_up]: the node above the level of [p]. *)
Fixpoint find_up (fuel : nat) (m : store) (p : ptr) : option (option ptr) :=
  match fuel with
  | O => None
  | S fuel =>
      n ← m !! p;
      if is_root n then Some (parent n) else q ← parent n; find_up fuel m q
  end.

Section Find.
Context (rndvector : list Z).

(** The loop over a bucket: the node with this hash in the level below [up]
    whose name is [n]. *)
Fixpoint bucket_search (fuel : nat) (s : dns_rbt) (hash : Z) (up : option ptr) (n : name)
    (hnode : option ptr) : option (option ptr) :=
  match hnode, fuel with
  | None, _ => Some None
  | Some _, O => None
  | Some h, S fuel =>
      o ← outers s !! h;
      if bool_decide (hash ≠ hashval o) then bucket_search fuel s hash up n (hashnext o)
      else
        u ← find_up (S (size (links s))) (links s) h;
        if bool_decide (u ≠ up) then bucket_search fuel s hash up n (hashnext o)
        else
          same ← dns_name_equal (NODENAME o) n;
          if same : bool then Some (Some h) else bucket_search fuel s hash up n (hashnext o)
  end.

(** [hashagain]: the node of the level below [up] with the last [tlabels]
    labels of the name sought. *)
Definition hash_again (s : dns_rbt) (name search_name : name) (hlabels tlabels : nat)
    (up : option ptr) : option (option ptr) :=
  let nlabels := labels search_name in
  full ← dns_name_getlabelsequence name (nlabels - tlabels) (hlabels + tlabels);
  hash ← dns_name_fullhash rndvector full;
  hash_name ← dns_name_getlabelsequence search_name (nlabels - tlabels) tlabels;
  hnode ← hashtable s !! Z.to_nat (hash mod hashsize s);
  bucket_search (S (size (outers s))) s hash up hash_name hnode.

(** [tlabels++ < nlabels]; [rest] is how many are left. *)
Fixpoint hash_search (rest : nat) (s : dns_rbt) (name search_name : name) (hlabels tlabels : nat)
    (up : option ptr) : option (option (ptr * nat)) :=
  found ← hash_again s name search_name hlabels tlabels up;
  match found with
  | Some h => Some (Some (h, tlabels))
  | None =>
      match rest with
      | O => Some None
      | S rest => hash_search rest s name search_name hlabels (S tlabels) up
      end
  end.

(** What the main loop carries along. *)
Record find_state := FindState {
  f_current : option ptr; f_search : name; f_hlabels : nat;
  f_chain : chain; f_node : option ptr;
  f_compared : dns_namereln; f_order : Z; f_last : option ptr; f_result : isc_result }.

(** How a round of it ends: the loop is left (with the state), goes on below
    a node, or the function returns. *)
Inductive find_step :=
  | FindLeave (f : find_state) | FindGo (f : find_state) | FindReturn (result : isc_result) (node : option ptr).

Context (opts : find_options) (callback : option (ptr → name → isc_result)).

(** [DATA(node) != NULL || (options & DNS_RBTFIND_EMPTYDATA) != 0] *)
Definition wanted (o : outer) : bool := bool_decide (data o ≠ None) || EMPTYDATA opts.

(** From the label [subdomain] on. *)
Definition go_below (s : dns_rbt) (f : find_state) (current : ptr) (common_labels : nat)
    : option find_step :=
  search ← split_prefix (f_search f) common_labels;
  o ← outers s !! current;
  let node := if wanted o then Some current else f_node f in
  c ← ADD_LEVEL (f_chain f) current;
  let f cur result := FindState cur search (f_hlabels f + common_labels) c node
                                dns_namereln_subdomain (f_order f) (f_last f) result in
  match callback with
  | Some call =>
      if find_callback o then
        '(result, callback_name) ← chain_name s c false;
        if bool_decide (result ≠ ISC_R_SUCCESS) then Some (FindReturn result node)
        else
          let result := call current callback_name in
          if bool_decide (result ≠ DNS_R_CONTINUE) then Some (FindLeave (f None result))
          else Some (FindGo (f (down o) ISC_R_SUCCESS))
      else Some (FindGo (f (down o) ISC_R_SUCCESS))
  | None => Some (FindGo (f (down o) ISC_R_SUCCESS))
  end.

(** One round at the root [current] of a level. *)
Definition find_round (s : dns_rbt) (name : name) (f : find_state) (current : ptr)
    : option find_step :=
  o ← outers s !! current;
  '(compared, order, common_labels) ← dns_name_fullcompare (f_search f) (NODENAME o);
  let f' cur compared := FindState cur (f_search f) (f_hlabels f) (f_chain f) (f_node f)
                                   compared order (Some current) (f_result f) in
  match compared with
  | dns_namereln_equal => Some (FindLeave (f' (Some current) dns_namereln_equal))
  | dns_namereln_none =>
      n ← links s !! current;
      found ← hash_search (labels (f_search f) - 1) s name (f_search f) (f_hlabels f) 1 (parent n);
      match found with
      | None => Some (FindLeave (f' None dns_namereln_none))
      | Some (h, tlabels) =>
          if bool_decide (tlabels = labels (f_search f))
          then Some (FindLeave (f' (Some h) dns_namereln_equal))
          else go_below s (f' (Some h) dns_namereln_subdomain) h tlabels
      end
  | dns_namereln_subdomain => go_below s (f' (Some current) dns_namereln_subdomain) current common_labels
  | _ => Some (FindLeave (f' None compared))
  end.

(** The main loop: one round for each level. *)
Fixpoint find_loop (fuel : nat) (s : dns_rbt) (name : name) (f : find_state)
    : option (find_state + isc_result * option ptr) :=
  match f_current f, fuel with
  | None, _ => Some (inl f)
  | Some _, O => None
  | Some current, S fuel =>
      step ← find_round s name f current;
      match step with
      | FindLeave f => Some (inl f)
      | FindReturn result node => Some (inr (result, node))
      | FindGo f => find_loop fuel s name f
      end
  end.

(** [while (chain->levels[chain->level_matches] != *node)] *)
Fixpoint match_level (levels : list ptr) (i : nat) (node : ptr) : option nat :=
  p ← levels !! i;
  if bool_decide (p = node) then Some i
  else match i with O => None | S i => match_level levels i node end.

(** The binary search for the place where the name would be. *)
Fixpoint stop_node (fuel : nat) (s : dns_rbt) (search : name) (current : ptr) : option (ptr * Z) :=
  match fuel with
  | O => None
  | S fuel =>
      o ← outers s !! current; n ← links s !! current;
      '(_, order, _) ← dns_name_fullcompare search (NODENAME o);
      match (if bool_decide (order < 0)%Z then left n else right n) with
      | None => Some (current, order)
      | Some q => stop_node fuel s search q
      end
  end.

(** The chain to the predecessor of a name that was not found. *)
Definition find_predecessor (s : dns_rbt) (f : find_state) (c : chain) (result : isc_result)
    : option (isc_result * chain) :=
  if bool_decide (f_compared f = dns_namereln_subdomain) then
    if bool_decide (level_matches c < level_count c) then
      '(p, c) ← drop_level c; Some (result, with_end c (Some p))
    else None
  else
    last ← f_last f;
    '(current, order) ← (if bool_decide (f_compared f = dns_namereln_none)
                         then stop_node (S (size (links s))) s (f_search f) last
                         else Some (last, f_order f));
    if bool_decide (order > 0)%Z then
      o ← outers s !! current;
      match down o with
      | Some q =>
          c ← ADD_LEVEL c current;
          c ← move_chain_to_last (S DNS_RBT_LEVELBLOCK) s c q; Some (result, c)
      | None => Some (result, with_end c (Some current))
      end
    else if bool_decide (order < 0)%Z then
      '(result2, c, _, _) ← dns_rbtnodechain_prev s (with_end c (Some current)) false false;
      Some (match result2 with
            | ISC_R_SUCCESS | DNS_R_NEWORIGIN => (result, c)
            | ISC_R_NOMORE => (result, chain_reset)
            | _ => (result2, c)
            end)
    else None.

(** After the loop, when the name was not found or was not wanted. *)
Definition find_partial (s : dns_rbt) (f : find_state) (nopredecessor foundname : bool)
    : option (isc_result * option name * chain) :=
  let c := f_chain f in
  '(result, fname, c) ←
    (match f_node f with
     | Some node =>
         i ← match_level (levels c) (level_count c - 1) node;
         let c := Chain (chain_end c) (levels c) i in
         '(result, fname) ←
           (if foundname then
              '(r, n) ← chain_name s (Chain (chain_end c) (take (S i) (levels c)) i) false;
              Some (r, Some n)
            else Some (ISC_R_SUCCESS, None));
         Some (if bool_decide (result = ISC_R_SUCCESS) then DNS_R_PARTIALMATCH else result, fname, c)
     | None => Some (ISC_R_NOTFOUND, None, c)
     end);
  match f_current f with
  | Some current =>
      o ← outers s !! current;
      if NOEXACT opts || negb (EMPTYDATA opts) && bool_decide (data o = None)
      then Some (result, fname, with_end c (Some current)) else None
  | None =>
      if nopredecessor then Some (result, fname, with_end c None)
      else '(result, c) ← find_predecessor s f c result; Some (result, fname, c)
  end.

(** [dns_rbt_findnode]. Without a chain from the caller ([with_chain]) it
    uses its own and leaves out the predecessor. *)
Definition dns_rbt_findnode (s : dns_rbt) (name : name) (foundname with_chain : bool)
    : option (isc_result * option ptr * option Name.name * chain) :=
  if absolute name && negb (NOEXACT opts && NOPREDECESSOR opts) then
    match rbt_root s with
    | None => Some (ISC_R_NOTFOUND, None, None, chain_reset)
    | Some r =>
        exit ← find_loop (S (labels name)) s name
                 (FindState (Some r) name 0 chain_reset None dns_namereln_none 0 None ISC_R_SUCCESS);
        match exit with
        | inr (result, node) => Some (result, node, None, chain_reset)
        | inl f =>
            exact ← match f_current f with
                    | Some p => o ← outers s !! p;
                                Some (if negb (NOEXACT opts) && wanted o then Some p else None)
                    | None => Some None
                    end;
            match exact with
            | Some p =>
                let c := Chain (Some p) (levels (f_chain f)) (level_count (f_chain f)) in
                if foundname then
                  '(r, n) ← chain_name s c true;
                  Some (if bool_decide (r = ISC_R_SUCCESS) then (f_result f, Some p, Some n, c)
                        else (r, None, Some n, c))
                else Some (f_result f, Some p, None, c)
            | None =>
                '(result, fname, c) ← find_partial s f (negb with_chain || NOPREDECESSOR opts) foundname;
                Some (result, f_node f, fname, c)
            end
        end
    end
  else None.

End Find.

(** [dns_rbt_findname] *)
Definition dns_rbt_findname (rndvector : list Z) (s : dns_rbt) (name : name) (opts : find_options)
    : option (isc_result * option nat) :=
  '(result, node, _, _) ← dns_rbt_findnode rndvector opts None s name false false;
  match node with
  | Some p =>
      o ← outers s !! p;
      Some (if wanted opts o then (result, data o) else (ISC_R_NOTFOUND, None))
  | None => Some (ISC_R_NOTFOUND, None)
  end.
