(* ===== verification/NameDelete.v ===== *)
(** * Deleting names

    [dns_rbt_deletenode], [dns_rbt_deletename], [dns_rbt_deletetree] and the
    destruction of a tree, [dns_rbt_destroy2] with [dns_rbt_deletetreeflat],
    of [lib/dns/rbt.c]; and [dns_rbt_fullnamefromnode].

    [has_deleter] says whether the tree has a [data_deleter]; the functions
    return the data they call it with, in order. A node that is freed is no
    longer in memory: an access to it is an error. *)

From stdpp Require Import gmap.
From S2P Require Import Prelude Rdata Name Rbt NameTree NameChain NameFind.

#[local] Open Scope nat_scope.

Definition dec_nodecount (s : dns_rbt) : dns_rbt := set_nodecount s (u32 (nodecount s - 1)).

(** [isc_mem_put] of a node *)
Definition free_node (s : dns_rbt) (p : ptr) : dns_rbt :=
  set_outers (set_links s (delete p (links s))) (delete p (outers s)).

Section Delete.
Context (has_deleter : bool).

Definition delete_data (o : outer) : list nat :=
  match data o with Some d => if has_deleter then [d] else [] | None => [] end.

(** [dns_rbt_deletetree]; it always returns [ISC_R_SUCCESS]. [fuel] bounds
    the depth. *)
Fixpoint dns_rbt_deletetree (fuel : nat) (s : dns_rbt) (p : option ptr) : option (dns_rbt * list nat) :=
  match p, fuel with
  | None, _ => Some (s, [])
  | Some _, O => None
  | Some p, S fuel =>
      n ← links s !! p;
      '(s, d1) ← (if bool_decide (left n = None) then Some (s, []) else
                   '(s, d) ← dns_rbt_deletetree fuel s (left n);
                   m ← put_child Lft (links s) p None; Some (set_links s m, d));
      n ← links s !! p;
      '(s, d2) ← (if bool_decide (right n = None) then Some (s, []) else
                   '(s, d) ← dns_rbt_deletetree fuel s (right n);
                   m ← put_child Rgt (links s) p None; Some (set_links s m, d));
      o ← outers s !! p;
      '(s, d3) ← (if bool_decide (down o = None) then Some (s, []) else
                   '(s, d) ← dns_rbt_deletetree fuel s (down o);
                   s ← upd_outer s p (λ o, with_down o None); Some (s, d));
      o ← outers s !! p;
      s ← unhash_node s p;
      Some (dec_nodecount (free_node s p), d1 ++ d2 ++ d3 ++ delete_data o)
  end.

(** [dns_rbt_deletenode]; it always returns [ISC_R_SUCCESS]. *)
Definition dns_rbt_deletenode (s : dns_rbt) (p : ptr) (recurse : bool) : option (dns_rbt * list nat) :=
  o ← outers s !! p;
  if negb (bool_decide (down o = None)) && negb recurse then
    s ← upd_outer s p (λ o, with_data o None); Some (s, delete_data o)
  else
    '(s, d1) ← (if bool_decide (down o = None) then Some (s, [])
                else dns_rbt_deletetree (S (size (links s))) s (down o));
    up ← find_up (S (size (links s))) (links s) p;
    let x := match up with None => TOP | Some u => DOWN u end in
    root ← read_slot s x;
    '(m, root) ← dns_rbt_deletefromlevel (links s) p root;
    s ← write_slot (set_links s m) x root;
    o ← outers s !! p;
    s ← unhash_node s p;
    Some (dec_nodecount (free_node s p), d1 ++ delete_data o).

(** [dns_rbt_deletename] *)
Definition dns_rbt_deletename (rndvector : list Z) (s : dns_rbt) (name : name) (recurse : bool)
    : option (dns_rbt * isc_result * list nat) :=
  '(result, node, _, _) ← dns_rbt_findnode rndvector (FindOptions false false false) None s name false false;
  match result with
  | ISC_R_SUCCESS =>
      p ← node; o ← outers s !! p;
      if bool_decide (data o ≠ None)
      then '(s, d) ← dns_rbt_deletenode s p recurse; Some (s, ISC_R_SUCCESS, d)
      else Some (s, ISC_R_NOTFOUND, [])
  | DNS_R_PARTIALMATCH => Some (s, ISC_R_NOTFOUND, [])
  | r => Some (s, r, [])
  end.

(** ** Destroying a tree *)

(** [traverse]: left or down, as long as there is a way. *)
Fixpoint traverse (fuel : nat) (s : dns_rbt) (p : ptr) : option ptr :=
  match fuel with
  | O => None
  | S fuel =>
      n ← links s !! p;
      match left n with
      | Some q => traverse fuel s q
      | None => o ← outers s !! p;
                match down o with Some q => traverse fuel s q | None => Some p end
      end
  end.

(** One round of [dns_rbt_deletetreeflat]: the node deleted makes way for its
    right child; the result is where to go on. *)
Definition delete_leaf (s : dns_rbt) (p : ptr) : option (dns_rbt * option ptr * list nat) :=
  n ← links s !! p; o ← outers s !! p;
  let parent := Rbt.parent n in
  m ← (match right n with Some r => put_parent (links s) r parent | None => Some (links s) end);
  let s := set_links s m in
  '(s, node) ←
    (match parent with
     | Some q =>
         qn ← links s !! q;
         if bool_decide (left qn = Some p) then
           m ← put_child Lft (links s) q (right n); Some (set_links s m, parent)
         else
           qo ← outers s !! q;
           if bool_decide (down qo = Some p) then
             s ← upd_outer s q (λ o, with_down o (right n)); Some (s, parent)
           else Some (s, parent)
     | None => Some (s, right n)
     end);
  Some (dec_nodecount (free_node s p), node, delete_data o).

(** [dns_rbt_deletetreeflat]; the [node] returned is what [*nodep] becomes. *)
Fixpoint dns_rbt_deletetreeflat (fuel : nat) (s : dns_rbt) (quantum : nat) (node : option ptr)
    : option (dns_rbt * option ptr * list nat) :=
  match node, fuel with
  | None, _ => Some (s, None, [])
  | Some _, O => None
  | Some p, S fuel =>
      p ← traverse (S (size (links s))) s p;
      '(s, node, d) ← delete_leaf s p;
      if bool_decide (quantum = 1) then Some (s, node, d)
      else '(s, node, d') ← dns_rbt_deletetreeflat fuel s (quantum - 1) node; Some (s, node, d ++ d')
  end.

(** [dns_rbt_destroy2]; with [ISC_R_SUCCESS] the tree is gone. *)
Definition dns_rbt_destroy2 (s : dns_rbt) (quantum : nat) : option (dns_rbt * isc_result * list nat) :=
  '(s, root, d) ← dns_rbt_deletetreeflat (S (size (links s))) s quantum (rbt_root s);
  let s := set_root s root in
  if bool_decide (root ≠ None) then Some (s, ISC_R_QUOTA, d)
  else if bool_decide (nodecount s = 0%Z) then Some (s, ISC_R_SUCCESS, d) else None.

End Delete.

(** ** The full name of a node *)

Fixpoint fullname_loop (fuel : nat) (s : dns_rbt) (p : ptr) (n : name) : option (isc_result * name) :=
  match fuel with
  | O => None
  | S fuel =>
      o ← outers s !! p;
      '(result, n) ← dns_name_concatenate n (NODENAME o);
      if bool_decide (result ≠ ISC_R_SUCCESS) then Some (result, n)
      else
        up ← find_up (S (size (links s))) (links s) p;
        if absolute n then Some (ISC_R_SUCCESS, n)
        else q ← up; fullname_loop fuel s q n
  end.

(** [dns_rbt_fullnamefromnode] *)
Definition dns_rbt_fullnamefromnode (s : dns_rbt) (p : ptr) : option (isc_result * name) :=
  fullname_loop DNS_RBT_LEVELBLOCK s p (Name [] 0 false).
