(* ===== verification/NameForest.v ===== *)
(** * What a name tree holds

    [forest s lv own]: in the state [s] the level below the node [u] (the top
    level for [None]) is the red-black tree [lv u], and the node [p] carries
    the labels [own p]. No two names of a level share their last label, and a
    level is ordered by these, so a name has one place at most. [named p N]:
    the full name of the node [p] is [N]. *)

From stdpp Require Import gmap.
From S2P Require Import Prelude Rdata Name Rbt RbtTree RbtLevel RbtAdd NameTree.

#[local] Open Scope nat_scope.

(** ** Last labels *)

Definition toplabel (ls : list label) : label := lower (default [] (last ls)).

Lemma key_top ls : ls ≠ [] → key ls !! 0 = Some (toplabel ls).
Proof.
  intros Hne. destruct ls as [|l ls _] using rev_ind; [done|].
  unfold key, toplabel. by rewrite reverse_snoc, last_snoc.
Qed.

Lemma key_length ls : length (key ls) = length ls.
Proof. unfold key. by rewrite length_fmap, length_reverse. Qed.

Lemma key_app ls1 ls2 : key (ls1 ++ ls2) = key ls2 ++ key ls1.
Proof. unfold key. by rewrite reverse_app, fmap_app. Qed.

Lemma key_same ls1 ls2 : key ls1 = key ls2 ↔ same_labels ls1 ls2.
Proof.
  unfold key, same_labels. rewrite !fmap_reverse. split; [apply (inj reverse)|by intros ->].
Qed.

Lemma toplabel_app ls1 ls2 : ls2 ≠ [] → toplabel (ls1 ++ ls2) = toplabel ls2.
Proof.
  intros Hne. destruct ls2 as [|l ls2 _] using rev_ind; [done|].
  unfold toplabel. by rewrite app_assoc, !last_snoc.
Qed.

Lemma toplabel_same ls1 ls2 : same_labels ls1 ls2 → toplabel ls1 = toplabel ls2.
Proof.
  unfold same_labels, toplabel. intros H. apply (f_equal last) in H. rewrite !fmap_last in H.
  destruct (last ls1), (last ls2); try done; cbn in *. by injection H.
Qed.

Lemma keycmp_top ls1 ls2 :
  ls1 ≠ [] → ls2 ≠ [] → toplabel ls1 ≠ toplabel ls2 →
  keycmp (key ls1) (key ls2) = lexcmp (toplabel ls1) (toplabel ls2).
Proof.
  intros H1 H2 Hne. pose proof (key_top ls1 H1) as K1. pose proof (key_top ls2 H2) as K2.
  destruct (key ls1) as [|a k1], (key ls2) as [|b k2]; try done. injection K1 as ->. injection K2 as ->.
  cbn. rewrite bool_decide_false; [done|]. intros Hc. by apply lexcmp_eq in Hc.
Qed.

Lemma keycmp_app k k1 k2 : keycmp (k ++ k1) (k ++ k2) = keycmp k1 k2.
Proof. induction k as [|a k IH]; [done|]. cbn. by rewrite lexcmp_refl, bool_decide_true. Qed.

(** *** Comparing two names in a level *)

Lemma labels_compare_count ls1 ls2 :
  let '(_, _, k) := labels_compare ls1 ls2 in k <= length ls1 ∧ k <= length ls2.
Proof.
  unfold labels_compare. pose proof (labels_diff_spec (reverse ls1) (reverse ls2) 0) as H.
  cbn zeta in H. rewrite !length_reverse in H. destruct (labels_diff _ _ _) as [[d|[]] k].
  - destruct H as (j & -> & _ & Hj1 & Hj2 & _). lia.
  - destruct H as [-> _]. lia.
Qed.

Lemma compare_top ls1 ls2 r o k :
  labels_compare ls1 ls2 = (r, o, k) → ls1 ≠ [] → ls2 ≠ [] →
  (r = dns_namereln_none ↔ toplabel ls1 ≠ toplabel ls2) ∧
  (r = dns_namereln_none → Z.sgn o = lexcmp (toplabel ls1) (toplabel ls2)).
Proof.
  intros E H1 H2. pose proof (labels_compare_order ls1 ls2) as Ho.
  pose proof (labels_compare_relation ls1 ls2) as Hr. rewrite E in Ho, Hr. cbn in Ho.
  destruct Hr as (He & Hs & Hc & Hn & Ha & Ht & Hd).
  assert (r = dns_namereln_none ↔ toplabel ls1 ≠ toplabel ls2) as Hiff.
  { split.
    - intros ->. rewrite (Hn eq_refl), !key_top in Hd by done. intros Hc0. destruct Hd as [?|[?|Hd]]; congruence.
    - intros Hne. destruct r; [done|exfalso..].
      + destruct (proj1 Hc eq_refl) as (p & q & -> & _ & Hq). apply Hne.
        assert (q ≠ []) as Hqn by (intros ->; by destruct ls1).
        rewrite toplabel_app by done. symmetry. by apply toplabel_same.
      + destruct (proj1 Hs eq_refl) as (p & q & -> & _ & Hq). apply Hne.
        assert (q ≠ []) as Hqn by (intros ->; by destruct ls2).
        rewrite toplabel_app by done. by apply toplabel_same.
      + by apply Hne, toplabel_same, He.
      + specialize (Ha eq_refl). destruct k; [lia|]. apply Hne.
        pose proof (key_top ls1 H1) as K1. pose proof (key_top ls2 H2) as K2.
        destruct (key ls1), (key ls2); try done. cbn in *. congruence. }
  split; [done|]. intros Hrn. rewrite Ho. apply keycmp_top; try done. by apply Hiff.
Qed.

(** Splitting a name before its last [k] labels. *)
Lemma key_take k ls : k <= length ls → take k (key ls) = key (drop (length ls - k) ls).
Proof.
  intros Hk. rewrite <- (take_drop (length ls - k) ls) at 1. rewrite key_app.
  rewrite take_app_le by (rewrite key_length, length_drop; lia).
  apply take_ge. rewrite key_length, length_drop. lia.
Qed.

(** The names share [k] labels; what is in front of them differs. *)
Lemma compare_common ls1 ls2 r o k :
  labels_compare ls1 ls2 = (r, o, k) → ls1 ≠ [] → ls2 ≠ [] → r ≠ dns_namereln_none →
  ∃ s1 s2 t1 t2, ls1 = s1 ++ t1 ∧ ls2 = s2 ++ t2 ∧ same_labels t1 t2 ∧
    0 < k ∧ length t1 = k ∧ length t2 = k ∧
    (r = dns_namereln_equal ↔ s1 = [] ∧ s2 = []) ∧ (r = dns_namereln_subdomain ↔ s1 ≠ [] ∧ s2 = []) ∧
    (s1 ≠ [] → s2 ≠ [] → toplabel s1 ≠ toplabel s2 ∧ Z.sgn o = lexcmp (toplabel s1) (toplabel s2)).
Proof.
  intros E H1 H2 Hrn. pose proof (compare_top _ _ _ _ _ E H1 H2) as [Htop _].
  pose proof (labels_compare_order ls1 ls2) as Ho. pose proof (labels_compare_count ls1 ls2) as Hk.
  pose proof (labels_compare_relation ls1 ls2) as Hr. rewrite E in Ho, Hr, Hk. cbn in Ho.
  destruct Hr as (He & Hs & Hc & Hn & Ha & Ht & Hd). destruct Hk as [Hk1 Hk2].
  exists (take (length ls1 - k) ls1), (take (length ls2 - k) ls2),
    (drop (length ls1 - k) ls1), (drop (length ls2 - k) ls2).
  rewrite !take_drop, !length_drop. rewrite !key_take in Ht by done. pose proof (proj1 (key_same _ _) Ht) as Hsame.
  assert (take (length ls1 - k) ls1 = [] ↔ k = length ls1) as T1.
  { rewrite <- length_zero_iff_nil, length_take. lia. }
  assert (take (length ls2 - k) ls2 = [] ↔ k = length ls2) as T2.
  { rewrite <- length_zero_iff_nil, length_take. lia. }
  assert (0 < k) as Hk0.
  { destruct k; [|lia]. exfalso. rewrite !key_top in Hd by done.
    apply Hrn, Htop. intros Hc0. destruct Hd as [?|[?|Hd]]; congruence. }
  assert (∀ i, key ls1 !! i = key ls2 !! i → i < length ls2 → i ≠ k) as Hmax.
  { intros i Hi Hl ->. rewrite Hi in Hd.
    destruct (lookup_lt_is_Some_2 (key ls2) k) as [a Hka]; [by rewrite key_length|].
    rewrite Hka in Hd. destruct Hd as [?|[?|Hd]]; congruence. }
  assert (∀ i, key ls2 `prefix_of` key ls1 → i < length ls2 → key ls1 !! i = key ls2 !! i) as Hpre.
  { intros i [z Hz] Hi. rewrite Hz, lookup_app_l; [done|]. by rewrite key_length. }
  do 3 (split; [done|]). do 3 (split; [lia|]). split; [|split].
  - rewrite He, T1, T2. split.
    + intros Hsl. pose proof (same_labels_length _ _ Hsl) as [Hl _]. apply (proj2 (key_same _ _)) in Hsl.
      destruct (decide (k = length ls2)); [lia|]. exfalso. apply (Hmax k); [by rewrite Hsl|lia|done].
    + intros [E1 E2]. rewrite E1 in Hsame at 1. rewrite E2 in Hsame.
      rewrite !Nat.sub_diag in Hsame. done.
  - rewrite Hs, T1, T2. split.
    + intros Hb. pose proof (below_length _ _ Hb).
      assert (key ls2 `prefix_of` key ls1) as Hp by (apply key_suffix; by right).
      destruct (decide (k = length ls2)); [lia|]. exfalso.
      apply (Hmax k); [apply Hpre; [done|lia]|lia|done].
    + intros [N1 ->]. rewrite Nat.sub_diag in Hsame. cbn in Hsame.
      exists (take (length ls1 - length ls2) ls1), (drop (length ls1 - length ls2) ls1).
      rewrite take_drop. split_and!; try done. rewrite <- length_zero_iff_nil, length_take. lia.
  - intros N1 N2. rewrite Ho.
    assert (∀ ls, key ls = key (drop (length ls - k) ls) ++ key (take (length ls - k) ls)) as Ek
      by (intros ls; by rewrite <- key_app, take_drop).
    rewrite (Ek ls1), (Ek ls2), Ht, keycmp_app.
    set (s1 := take _ ls1) in *. set (s2 := take _ ls2) in *.
    assert (toplabel s1 ≠ toplabel s2) as Hne; [|split; [done|by apply keycmp_top]].
    assert (∀ ls, k <= length ls → take (length ls - k) ls ≠ [] →
      key ls !! k = Some (toplabel (take (length ls - k) ls))) as Hkey.
    { intros ls Hl Hn0. rewrite <- (take_drop (length ls - k) ls) at 1.
      rewrite key_app, lookup_app_r; rewrite key_length, length_drop; [|lia].
      replace (k - _) with 0 by lia. by apply key_top. }
    intros Hc0. subst s1 s2. rewrite (Hkey ls1), (Hkey ls2) in Hd by done.
    destruct Hd as [?|[?|Hd]]; congruence.
Qed.

(** ** The invariant *)

Section Forest.
Context (lv : option ptr → tree) (own : ptr → list label).

Definition live (p : ptr) : Prop := ∃ u, p ∈ nodes (lv u).

Inductive named : ptr → list label → Prop :=
  | named_top p : p ∈ nodes (lv None) → named p (own p)
  | named_below p a N : p ∈ nodes (lv (Some a)) → named a N → named p (own p ++ N).

Definition earlier (p q : ptr) : Prop := (lexcmp (toplabel (own p)) (toplabel (own q)) < 0)%Z.

(** The name of a place, the node above a level. *)
Definition place (u : option ptr) (U : list label) : Prop :=
  match u with None => U = [] | Some a => named a U end.

Definition slot_of (u : option ptr) : slot := match u with None => TOP | Some p => DOWN p end.

Definition level_root (s : dns_rbt) (u : option ptr) : option ptr :=
  match u with None => rbt_root s | Some p => outers s !! p ≫= down end.

Record forest (s : dns_rbt) : Prop := Forest {
  fo_level u : (∀ p, u = Some p → live p) →
    level (links s) (level_root s u) u (lv u) ∧ ∃ n, rbt (lv u) n ∧ color (lv u) = false;
  fo_dom p : live p ↔ is_Some (outers s !! p);
  fo_links p : is_Some (links s !! p) ↔ is_Some (outers s !! p);
  fo_dead p : outers s !! p = None → lv (Some p) = E;
  fo_disjoint u v p : p ∈ nodes (lv u) → p ∈ nodes (lv v) → u = v;
  fo_name p o : outers s !! p = Some o → name_repr (NODENAME o) (own p) ∧ own p ≠ [];
  fo_abs u p : p ∈ nodes (lv u) → is_root_last (own p) = bool_decide (u = None);
  fo_order u : StronglySorted earlier (nodes (lv u));
  fo_named p : live p → ∃ N, named p N ∧ labels_ok N }.

(** ** Names of nodes *)

Lemma named_live p N : named p N → live p.
Proof. inversion 1; by eexists. Qed.

Lemma place_live u U p : place u U → u = Some p → live p.
Proof. intros H ->. by eapply named_live. Qed.

Lemma named_place p u U : p ∈ nodes (lv u) → place u U → named p (own p ++ U).
Proof.
  destruct u as [a|]; intros Hp HU.
  - by eapply named_below.
  - cbn in HU. subst U. rewrite app_nil_r. by apply named_top.
Qed.

(** The same from the top: [q] is below [u] and has the name [X] there. *)
Inductive under : option ptr → list label → ptr → Prop :=
  | under_here u q : q ∈ nodes (lv u) → under u (own q) q
  | under_down u a X q : a ∈ nodes (lv u) → under (Some a) X q → under u (X ++ own a) q.

Lemma under_snoc u X a q : under u X a → q ∈ nodes (lv (Some a)) → under u (own q ++ X) q.
Proof.
  induction 1 as [u a Ha|u b X a Hb Ha IH]; intros Hq.
  - apply under_down; [done|]. by apply under_here.
  - rewrite app_assoc. apply under_down; auto.
Qed.

Lemma named_under q N : named q N → under None N q.
Proof. induction 1 as [p Hp|p a N Hp Ha IH]; [by apply under_here|]. by eapply under_snoc. Qed.

Lemma under_named u U X q : under u X q → place u U → named q (X ++ U).
Proof.
  intros H. revert U. induction H as [u q Hq|u a X q Ha Hq IH]; intros U HU.
  - by eapply named_place.
  - rewrite <- app_assoc. apply IH. cbn. by eapply named_place.
Qed.

Section Facts.
Context (s : dns_rbt) (F : forest s).

Lemma own_nonempty p u : p ∈ nodes (lv u) → own p ≠ [].
Proof.
  intros Hp. destruct (proj1 (fo_dom s F p)) as [o Ho]; [by exists u|].
  by destruct (fo_name s F p o Ho).
Qed.

Lemma under_nonempty u X q : under u X q → X ≠ [].
Proof.
  destruct 1 as [u q Hq|u a X q Ha Hq]; [by eapply own_nonempty|].
  intros Hc. apply app_nil in Hc as [_ Hc]. by eapply own_nonempty.
Qed.

(** The last labels tell the nodes of a level apart. *)
Lemma top_unique u p q :
  p ∈ nodes (lv u) → q ∈ nodes (lv u) → toplabel (own p) = toplabel (own q) → p = q.
Proof.
  intros Hp Hq Heq. apply list_elem_of_lookup in Hp as [i Hi], Hq as [j Hj].
  pose proof (fo_order s F u) as Hs. destruct (decide (i = j)) as [->|Hij]; [congruence|].
  exfalso. assert (∀ a b, earlier a b → toplabel (own a) ≠ toplabel (own b)) as Hne.
  { intros a b Hab Hc. unfold earlier in Hab. rewrite Hc, lexcmp_refl in Hab. lia. }
  destruct (decide (i < j)).
  - apply (Hne p q); [|done]. by eapply (StronglySorted_lookup earlier _ i j).
  - apply (Hne q p); [|done]. eapply (StronglySorted_lookup earlier _ j i); try done. lia.
Qed.

Lemma same_labels_app_inv a1 a2 b1 b2 :
  same_labels (a1 ++ a2) (b1 ++ b2) → length a2 = length b2 → same_labels a1 b1 ∧ same_labels a2 b2.
Proof.
  unfold same_labels. rewrite !fmap_app. intros H Hl. apply app_inj_2 in H; [done|].
  by rewrite !length_fmap.
Qed.

Lemma same_labels_app a1 a2 b1 b2 :
  same_labels a1 b1 → same_labels a2 b2 → same_labels (a1 ++ a2) (b1 ++ b2).
Proof. unfold same_labels. rewrite !fmap_app. by intros -> ->. Qed.

(** A node below [u] whose name there is [S]: the node of its level. *)
Lemma under_top u X q S :
  under u X q → same_labels X S →
  ∃ a, a ∈ nodes (lv u) ∧ toplabel (own a) = toplabel S ∧
    ((q = a ∧ same_labels (own a) S) ∨
     ∃ Y S1 S2, under (Some a) Y q ∧ S = S1 ++ S2 ∧ same_labels S1 Y ∧ same_labels S2 (own a)).
Proof.
  destruct 1 as [u q Hq|u a X q Ha Hq]; intros Hs.
  - exists q. split_and!; [done|by apply toplabel_same|by left].
  - exists a. pose proof (own_nonempty _ _ Ha) as Hne. split_and!; [done| |].
    { rewrite <- (toplabel_same _ _ Hs). by rewrite toplabel_app. }
    right. pose proof (same_labels_length _ _ Hs) as [Hl _]. rewrite length_app in Hl.
    exists X, (take (length X) S), (drop (length X) S). rewrite take_drop.
    rewrite <- (take_drop (length X) S) in Hs.
    apply same_labels_app_inv in Hs as [Hs1 Hs2]; [|rewrite length_drop; lia].
    split_and!; [done|done|by symmetry|by symmetry].
Qed.

(** A node whose name ends with that of a place is below it. *)
Lemma named_under_place q N u U S :
  named q N → place u U → same_labels N (S ++ U) → S ≠ [] → ∃ X, under u X q ∧ same_labels X S.
Proof.
  intros Hq. destruct u as [a|]; cbn [place].
  2: { intros ->. rewrite app_nil_r. intros Hs _. exists N. split; [by apply named_under|done]. }
  intros Ha. revert S. induction Ha as [a Ha|a b U Ha Hb IH]; intros S Hs HS.
  - destruct (under_top _ _ _ _ (named_under _ _ Hq) Hs) as (c & Hc & Ht & Hcase).
    rewrite toplabel_app in Ht by by eapply own_nonempty.
    assert (c = a) as -> by by eapply top_unique.
    destruct Hcase as [[_ Hsame]|(Y & S1 & S2 & HY & Heq & H1 & H2)].
    + pose proof (same_labels_length _ _ Hsame) as [Hl _]. rewrite length_app in Hl.
      destruct S; [done|cbn in Hl; lia].
    + exists Y. split; [done|]. pose proof (same_labels_length _ _ H2) as [Hl _].
      apply app_inj_2 in Heq as [-> _]; [by symmetry|done].
  - rewrite app_assoc in Hs. destruct (IH _ Hs) as (X & HX & HXS).
    { intros Hc. apply app_nil in Hc as [? _]. done. }
    destruct (under_top _ _ _ _ HX HXS) as (c & Hc & Ht & Hcase).
    rewrite toplabel_app in Ht by by eapply own_nonempty.
    assert (c = a) as -> by by eapply top_unique.
    destruct Hcase as [[_ Hsame]|(Y & S1 & S2 & HY & Heq & H1 & H2)].
    + pose proof (same_labels_length _ _ Hsame) as [Hl _]. rewrite length_app in Hl.
      destruct S; [done|cbn in Hl; lia].
    + exists Y. split; [done|]. pose proof (same_labels_length _ _ H2) as [Hl _].
      apply app_inj_2 in Heq as [-> _]; [by symmetry|done].
Qed.

(** A node has one name, and a name one node. *)
Lemma named_fun p N1 N2 : named p N1 → named p N2 → N1 = N2.
Proof.
  intros H1. revert N2. induction H1 as [p Hp|p a N Hp Ha IH]; intros N2 H2;
    inversion H2 as [? Hp'|? b N' Hp' Hb]; subst.
  - done.
  - by pose proof (fo_disjoint s F _ _ _ Hp Hp').
  - by pose proof (fo_disjoint s F _ _ _ Hp Hp').
  - pose proof (fo_disjoint s F _ _ _ Hp Hp') as [= ->]. by rewrite (IH N').
Qed.

Lemma under_inj u X1 X2 p q : under u X1 p → under u X2 q → same_labels X1 X2 → p = q.
Proof.
  intros H1. revert X2. induction H1 as [u p Hp|u a X p Ha Hp IH]; intros X2 H2 Hs.
  - assert (same_labels X2 (own p)) as Hs' by by symmetry.
    destruct (under_top _ _ _ _ H2 Hs') as (c & Hc & Ht & [[-> _]|(Y & S1 & S2 & HY & Heq & H3 & H4)]).
    + symmetry. by eapply top_unique.
    + assert (c = p) as -> by by eapply top_unique.
      pose proof (same_labels_length _ _ H4) as [Hl _]. rewrite Heq, length_app in Hl.
      pose proof (same_labels_length _ _ H3) as [Hl3 _]. destruct S1; [|cbn in Hl; lia].
      destruct Y; [|done]. by apply under_nonempty in HY.
  - assert (same_labels X2 (X ++ own a)) as Hs' by by symmetry.
    pose proof (own_nonempty _ _ Ha) as Hna.
    destruct (under_top _ _ _ _ H2 Hs') as (c & Hc & Ht & Hcase).
    rewrite toplabel_app in Ht by done. assert (c = a) as -> by by eapply top_unique.
    destruct Hcase as [[-> Hsame]|(Y & S1 & S2 & HY & Heq & H3 & H4)].
    + pose proof (same_labels_length _ _ Hsame) as [Hl _]. rewrite length_app in Hl.
      destruct X; [|cbn in Hl; lia]. by apply under_nonempty in Hp.
    + pose proof (same_labels_length _ _ H4) as [Hl _].
      apply app_inj_2 in Heq as [-> _]; [|done]. by apply (IH Y).
Qed.

Lemma named_inj p q N1 N2 : named p N1 → named q N2 → same_labels N1 N2 → p = q.
Proof. intros H1 H2. by apply (under_inj None); apply named_under. Qed.

End Facts.
End Forest.
