(* ===== verification/NameHash.v ===== *)
(** * The hash table of a name tree

    [table_at m t sz bs]: the buckets of the table [t], which has [sz] of
    them, are the lists of nodes [bs], linked by [hashnext], and every node
    is in the bucket of its [hashval]. Names that are equal up to case have
    the same hash; adding a node keeps the table, also when it grows. *)

From stdpp Require Import gmap.
From S2P Require Import Prelude Rdata Name Rbt NameTree.

#[local] Open Scope nat_scope.

(** ** Hashes of names *)

Lemma hash_sum_total key p acc : length key < length p → ∃ h, hash_sum key p acc = Some h ∧ (0 <= h)%Z.
Proof.
  revert p acc. induction key as [|c key IH]; intros [|r p] acc Hl; cbn in Hl; try lia.
  - eexists. split; [done|]. apply Z.mod_pos_bound. done.
  - apply (IH p). lia.
Qed.

Lemma hash_sum_lower key1 key2 p acc :
  maptolower <$> key1 = maptolower <$> key2 → hash_sum key1 p acc = hash_sum key2 p acc.
Proof.
  revert key2 p acc. induction key1 as [|c key1 IH]; intros [|c2 key2] p acc H; try done.
  injection H as Hc H. destruct p as [|r p]; [done|]. cbn. rewrite Hc. by apply IH.
Qed.

Section Hash.
Context (rndvector : list Z) (Hrnd : DNS_NAME_MAXWIRE < length rndvector).

Lemma fullhash_total n ls :
  name_repr n ls → ∃ h, dns_name_fullhash rndvector n = Some h ∧ (0 <= h)%Z.
Proof.
  intros Hn. unfold dns_name_fullhash. case_bool_decide; [by exists 0%Z|].
  apply hash_sum_total. rewrite (nr_data _ _ Hn). pose proof (lo_max _ (nr_ok _ _ Hn)). lia.
Qed.

Lemma fullhash_same n1 n2 ls1 ls2 :
  name_repr n1 ls1 → name_repr n2 ls2 → same_labels ls1 ls2 →
  dns_name_fullhash rndvector n1 = dns_name_fullhash rndvector n2.
Proof.
  intros H1 H2 Hs. unfold dns_name_fullhash. rewrite (nr_labels _ _ H1), (nr_labels _ _ H2).
  pose proof (same_labels_length _ _ Hs) as [-> _]. case_bool_decide; [done|].
  apply hash_sum_lower. rewrite (nr_data _ _ H1), (nr_data _ _ H2).
  rewrite !lower_enc_labels by (apply lo_short; by eapply nr_ok).
  unfold same_labels in Hs. by rewrite Hs.
Qed.

End Hash.

(** ** Buckets *)

Fixpoint bucket_at (m : gmap ptr outer) (start : option ptr) (l : list ptr) : Prop :=
  match l with
  | [] => start = None
  | p :: l => start = Some p ∧ ∃ o, m !! p = Some o ∧ bucket_at m (hashnext o) l
  end.

Lemma bucket_at_agree m m' start l :
  (∀ p, p ∈ l → m' !! p = m !! p) → bucket_at m start l → bucket_at m' start l.
Proof.
  revert start. induction l as [|p l IH]; intros start Hag; [done|].
  intros (-> & o & Ho & Hl). split; [done|]. exists o. rewrite Hag by set_solver.
  split; [done|]. apply IH; [|done]. intros. apply Hag. set_solver.
Qed.

Record table_at (m : gmap ptr outer) (t : list (option ptr)) (sz : Z) (bs : list (list ptr)) : Prop :=
  TableAt {
    ta_size : length t = Z.to_nat sz;
    ta_buckets : Forall2 (bucket_at m) t bs;
    ta_nodup : NoDup (mjoin bs);
    ta_place i l p : bs !! i = Some l → p ∈ l →
      ∃ o, m !! p = Some o ∧ i = Z.to_nat (hashval o mod sz) }.

Lemma table_dom m t sz bs p : table_at m t sz bs → p ∈ mjoin bs → is_Some (m !! p).
Proof.
  intros H. rewrite list_elem_of_join. intros (l & Hp & [i Hi]%list_elem_of_lookup).
  destruct (ta_place _ _ _ _ H i l p Hi Hp) as (o & -> & _). done.
Qed.

Lemma table_agree m m' t sz bs :
  (∀ p, p ∈ mjoin bs → m' !! p = m !! p) → table_at m t sz bs → table_at m' t sz bs.
Proof.
  intros Hag [Hs Hb Hd Hp].
  assert (∀ i l p, bs !! i = Some l → p ∈ l → m' !! p = m !! p) as Hag'.
  { intros i l p Hi Hl. apply Hag, list_elem_of_join. exists l.
    split; [done|]. by eapply list_elem_of_lookup_2. }
  split; try done.
  - apply Forall2_same_length_lookup. apply Forall2_same_length_lookup in Hb as [Hl Hb].
    split; [done|]. intros i x y Hx Hy. eapply bucket_at_agree; [|by eapply Hb].
    intros p Hpy. by eapply Hag'.
  - intros i l p Hi Hl. rewrite (Hag' i l p Hi Hl). by eapply Hp.
Qed.

(** Whether two memories differ only in [hashnext]. *)
Definition unchained (o : outer) : outer := with_hash o (hashval o) None.
Definition same_but_next (m m' : gmap ptr outer) : Prop := unchained <$> m = unchained <$> m'.

Lemma same_but_next_lookup m m' p o :
  same_but_next m m' → m !! p = Some o → ∃ nx, m' !! p = Some (with_hash o (hashval o) nx).
Proof.
  intros H Ho. apply (f_equal (.!! p)) in H. rewrite !lookup_fmap, Ho in H.
  destruct (m' !! p) as [o'|]; [|done]. cbn in H. injection H. unfold with_hash. destruct o, o'; cbn.
  intros; subst. by eexists.
Qed.

Lemma same_but_next_insert m p o h nx :
  m !! p = Some o → h = hashval o → same_but_next m (<[p := with_hash o h nx]> m).
Proof.
  intros Ho ->. unfold same_but_next. rewrite fmap_insert.
  rewrite insert_id; [done|]. by rewrite lookup_fmap, Ho.
Qed.

Lemma mjoin_insert (bs : list (list ptr)) i l p :
  bs !! i = Some l → mjoin (<[i := p :: l]> bs) ≡ₚ p :: mjoin bs.
Proof.
  intros Hi. rewrite <- (take_drop_middle bs i l Hi) at 2.
  rewrite insert_take_drop by by eapply lookup_lt_Some.
  rewrite !join_app. cbn. solve_Permutation.
Qed.

(** One node more. *)
Lemma push_bucket_spec m t sz bs p o h :
  table_at m t sz bs → (0 < sz)%Z → (0 <= h)%Z → m !! p = Some o → p ∉ mjoin bs →
  ∃ m' t' bs' nx, push_bucket m t p h sz = Some (m', t') ∧ table_at m' t' sz bs' ∧
    mjoin bs' ≡ₚ p :: mjoin bs ∧ m' = <[p := with_hash o h nx]> m.
Proof.
  intros H Hsz Hh Ho Hp. pose proof H as [Hs Hb Hd Hpl]. set (i := Z.to_nat (h mod sz)).
  pose proof (Z.mod_pos_bound h sz Hsz) as Hm.
  destruct (lookup_lt_is_Some_2 t i) as [head Hhead]; [unfold i; lia|].
  destruct (Forall2_lookup_l _ _ _ _ _ Hb Hhead) as (l & Hl & Hch).
  exists (<[p := with_hash o h head]> m), (<[i := Some p]> t), (<[i := p :: l]> bs), head.
  assert (mjoin (<[i:=p :: l]> bs) ≡ₚ p :: mjoin bs) as Hperm by by apply mjoin_insert.
  split; [unfold push_bucket; fold i; by rewrite Ho; cbn; rewrite Hhead|]. split; [|done].
  assert (∀ j l' q, bs !! j = Some l' → q ∈ l' → q ≠ p) as Hne.
  { intros j l' q Hj Hq ->. apply Hp, list_elem_of_join. exists l'.
    split; [done|]. by eapply list_elem_of_lookup_2. }
  split.
  - by rewrite length_insert.
  - apply Forall2_insert.
    + apply Forall2_same_length_lookup. apply Forall2_same_length_lookup in Hb as [Hlen Hb].
      split; [done|]. intros j x y Hx Hy. eapply bucket_at_agree; [|by eapply Hb].
      intros q Hq. rewrite lookup_insert_ne; [done|]. intros ->. by apply (Hne j y q).
    + split; [done|]. eexists. rewrite lookup_insert_eq. split; [done|]. cbn.
      eapply bucket_at_agree; [|exact Hch]. intros q Hq. rewrite lookup_insert_ne; [done|].
      intros ->. by apply (Hne i l q).
  - rewrite Hperm. by apply NoDup_cons.
  - intros j l' q Hj Hq. destruct (decide (q = p)) as [->|Hqp].
    + rewrite lookup_insert_eq. eexists. split; [done|]. cbn. fold i.
      destruct (decide (j = i)) as [|Hji]; [done|]. rewrite list_lookup_insert_ne in Hj by done.
      exfalso. by apply (Hne j l' p).
    + rewrite lookup_insert_ne by done. destruct (decide (j = i)) as [->|Hji].
      * rewrite list_lookup_insert_eq in Hj by by eapply lookup_lt_Some. injection Hj as <-.
        apply elem_of_cons in Hq as [?|Hq]; [done|]. by apply (Hpl i l).
      * rewrite list_lookup_insert_ne in Hj by done. by apply (Hpl j l').
Qed.

(** ** Growing the table *)

Lemma rehash_bucket_spec fuel m t sz bs start l :
  table_at m t sz bs → (0 < sz)%Z → bucket_at m start l → NoDup l → length l <= fuel →
  (∀ p, p ∈ l → p ∉ mjoin bs) → (∀ p o, p ∈ l → m !! p = Some o → (0 <= hashval o)%Z) →
  ∃ m' t' bs', rehash_bucket fuel m t sz start = Some (m', t') ∧ table_at m' t' sz bs' ∧
    mjoin bs' ≡ₚ l ++ mjoin bs ∧ same_but_next m m' ∧ (∀ q, q ∉ l → m' !! q = m !! q).
Proof.
  revert fuel m t bs start. induction l as [|p l IH]; intros fuel m t bs start H Hsz Hl Hd Hf Hnew Hpos.
  - cbn in Hl. subst start. exists m, t, bs. destruct fuel; split_and!; done.
  - destruct Hl as (-> & o & Ho & Hl). destruct fuel as [|fuel]; [cbn in Hf; lia|].
    apply NoDup_cons in Hd as [Hpl Hd].
    destruct (push_bucket_spec m t sz bs p o (hashval o) H Hsz) as (m1 & t1 & bs1 & nx & P1 & H1 & Hp1 & E1);
      [apply (Hpos p); [set_solver|done]|done|apply Hnew; set_solver|].
    assert (∀ q, q ∈ l → m1 !! q = m !! q) as Hag.
    { intros q Hq. rewrite E1, lookup_insert_ne; [done|]. by intros ->. }
    destruct (IH fuel m1 t1 bs1 (hashnext o) H1 Hsz) as (m2 & t2 & bs2 & P2 & H2 & Hp2 & Hs2 & F2).
    + by eapply bucket_at_agree.
    + done.
    + cbn in Hf. lia.
    + intros q Hq. rewrite Hp1. apply not_elem_of_cons. split; [by intros ->|]. apply Hnew. set_solver.
    + intros q o' Hq. rewrite Hag by done. apply Hpos. set_solver.
    + exists m2, t2, bs2. cbn [rehash_bucket]. rewrite Ho. cbn [mbind option_bind]. rewrite P1.
      cbn [mbind option_bind]. split_and!; [done|done| | |].
      * rewrite Hp2, Hp1. cbn. solve_Permutation.
      * unfold same_but_next in *. rewrite <- Hs2, E1. by apply same_but_next_insert.
      * intros q Hq. rewrite F2 by set_solver. rewrite E1, lookup_insert_ne; [done|set_solver].
Qed.

Lemma rehash_loop_spec fuel m t sz bs old obs :
  table_at m t sz bs → (0 < sz)%Z → Forall2 (bucket_at m) old obs → NoDup (mjoin obs) →
  length (mjoin obs) <= fuel → (∀ p, p ∈ mjoin obs → p ∉ mjoin bs) →
  (∀ p o, m !! p = Some o → (0 <= hashval o)%Z) →
  ∃ m' t' bs', rehash_loop fuel m t sz old = Some (m', t') ∧ table_at m' t' sz bs' ∧
    mjoin bs' ≡ₚ mjoin obs ++ mjoin bs ∧ same_but_next m m' ∧ (∀ q, q ∉ mjoin obs → m' !! q = m !! q).
Proof.
  intros H Hsz Hold. revert m t bs obs H Hold.
  induction old as [|start old IH]; intros m t bs obs H Hold Hd Hf Hnew Hpos;
    inversion Hold as [|? l ? obs' Hl Hold']; subst.
  - exists m, t, bs. split_and!; done.
  - change (mjoin (l :: obs')) with (l ++ mjoin obs') in *. rewrite length_app in Hf. apply NoDup_app in Hd as (Hdl & Hdis & Hd).
    destruct (rehash_bucket_spec fuel m t sz bs start l H Hsz Hl Hdl) as (m1 & t1 & bs1 & P1 & H1 & Hp1 & S1 & F1);
      [lia|intros p Hp; apply Hnew; set_solver|intros p o _; apply Hpos|].
    destruct (IH m1 t1 bs1 obs' H1) as (m2 & t2 & bs2 & P2 & H2 & Hp2 & S2 & F2).
    + apply Forall2_same_length_lookup. apply Forall2_same_length_lookup in Hold' as [Hlen Hb].
      split; [done|]. intros i x y Hx Hy. eapply bucket_at_agree; [|by eapply Hb].
      intros p Hp. apply F1. intros Hpl. apply (Hdis p Hpl), list_elem_of_join.
      exists y. split; [done|]. by eapply list_elem_of_lookup_2.
    + done.
    + lia.
    + intros p Hp. rewrite Hp1, elem_of_app. intros [Hc|Hc]; [by apply (Hdis p)|].
      revert Hc. apply Hnew. set_solver.
    + intros p o Ho. destruct (m !! p) as [o0|] eqn:Ho0.
      * destruct (same_but_next_lookup _ _ _ _ S1 Ho0) as [nx Hnx]. rewrite Ho in Hnx. injection Hnx as ->.
        by apply (Hpos p o0).
      * assert (same_but_next m1 m) as S1' by done.
        destruct (same_but_next_lookup _ _ _ _ S1' Ho) as [nx Hnx]. congruence.
    + exists m2, t2, bs2. cbn [rehash_loop]. rewrite P1. cbn [mbind option_bind].
      split_and!; [done|done| | |].
      * rewrite Hp2, Hp1. solve_Permutation.
      * unfold same_but_next in *. congruence.
      * intros q Hq. rewrite F2, F1; [done|set_solver..].
Qed.

Lemma empty_table m sz : table_at m (replicate (Z.to_nat sz) None) sz (replicate (Z.to_nat sz) []).
Proof.
  assert (∀ n, mjoin (replicate n ([] : list ptr)) = []) as Hj.
  { induction n as [|n IH]; [done|]. cbn. done. }
  split.
  - apply length_replicate.
  - apply Forall2_same_length_lookup. rewrite !length_replicate. split; [done|].
    intros i x y [-> _]%lookup_replicate [-> _]%lookup_replicate. done.
  - rewrite Hj. apply NoDup_nil_2.
  - intros i l p [-> _]%lookup_replicate Hp. by apply elem_of_nil in Hp.
Qed.

(** The table of a tree: the nodes [ps]. *)
Record table (s : dns_rbt) (ps : list ptr) : Prop := Table {
  tb_pos : (0 < hashsize s)%Z;
  tb_at : ∃ bs, table_at (outers s) (hashtable s) (hashsize s) bs ∧ mjoin bs ≡ₚ ps;
  tb_hash p o : outers s !! p = Some o → (0 <= hashval o)%Z }.

Lemma table_length s ps : table s ps → length ps <= size (outers s).
Proof.
  intros [_ (bs & H & Hp) _]. rewrite <- Hp. pose proof (ta_nodup _ _ _ _ H) as Hd.
  rewrite <- size_dom, <- (size_list_to_set (C := gset ptr) _ Hd). apply subseteq_size.
  intros p Hpb%elem_of_list_to_set. apply elem_of_dom. by eapply table_dom.
Qed.

Lemma rehash_spec get_table s ps :
  table s ps → ∃ s', rehash get_table s = Some s' ∧ table s' ps ∧ links s' = links s ∧
    rbt_root s' = rbt_root s ∧ nodecount s' = nodecount s ∧ same_but_next (outers s) (outers s').
Proof.
  intros H. pose proof (table_length _ _ H) as Hlen. destruct H as [Hsz (bs & Hb & Hp) Hh].
  unfold rehash. set (sz := u32 (hashsize s * 2 + 1)).
  destruct (get_table sz); [|exists s; split_and!; try done; split; eauto].
  assert (0 < sz)%Z as Hsz'. { unfold sz, u32. dlia. }
  assert (∀ n, mjoin (replicate n ([] : list ptr)) = []) as Hj.
  { induction n as [|n IH]; [done|]. cbn. done. }
  destruct (rehash_loop_spec (size (outers s)) (outers s) _ sz _ (hashtable s) bs
    (empty_table (outers s) sz) Hsz' (ta_buckets _ _ _ _ Hb) (ta_nodup _ _ _ _ Hb))
    as (m' & t' & bs' & P & H' & Hp' & S' & F').
  - by rewrite Hp.
  - intros p _. rewrite Hj. apply not_elem_of_nil.
  - done.
  - rewrite P. cbn [mbind option_bind]. eexists. split; [done|]. split_and!; try done.
    split; cbn; [done| |].
    + exists bs'. split; [done|]. by rewrite Hp', Hj, app_nil_r.
    + intros p o Ho. assert (same_but_next m' (outers s)) as S'' by done.
      destruct (same_but_next_lookup _ _ _ _ S'' Ho) as [nx Hnx]. by apply (Hh _ _ Hnx).
Qed.

(** A new node gets into the table. *)
Lemma hash_node_spec get_table rnd s ps p o n h :
  table s ps → p ∉ ps → outers s !! p = Some o → dns_name_fullhash rnd n = Some h → (0 <= h)%Z →
  ∃ s' nx, hash_node get_table rnd s p n = Some s' ∧ table s' (p :: ps) ∧ links s' = links s ∧
    rbt_root s' = rbt_root s ∧ nodecount s' = nodecount s ∧
    same_but_next (<[p := with_hash o h nx]> (outers s)) (outers s').
Proof.
  intros H Hp Ho Hn Hh.
  assert (∃ s1, (if bool_decide (nodecount s >= u32 (hashsize s * 3))%Z then rehash get_table s else Some s)
      = Some s1 ∧ table s1 ps ∧ links s1 = links s ∧ rbt_root s1 = rbt_root s ∧
      nodecount s1 = nodecount s ∧ same_but_next (outers s) (outers s1))
    as (s1 & P1 & H1 & L1 & R1 & N1 & S1).
  { case_bool_decide; [by apply rehash_spec|]. by exists s. }
  unfold hash_node. rewrite P1. cbn [mbind option_bind]. unfold hash_add_node. rewrite Hn.
  cbn [mbind option_bind]. destruct H1 as [Hsz (bs & Hb & Hperm) Hpos].
  destruct (same_but_next_lookup _ _ _ _ S1 Ho) as [nx0 Ho1].
  destruct (push_bucket_spec _ _ _ _ p _ h Hb Hsz Hh Ho1) as (m' & t' & bs' & nx & P & H' & Hp' & E').
  { by rewrite Hperm. }
  rewrite P. cbn [mbind option_bind]. eexists _, nx. split; [done|]. split_and!; try done.
  - split; cbn; [done| |].
    + exists bs'. split; [done|]. by rewrite Hp', Hperm.
    + intros q oq. rewrite E', lookup_insert. destruct (decide (p = q)); [|by apply Hpos]. intros E0. injection E0 as <-. done.
  - cbn. unfold same_but_next in *. rewrite E', !fmap_insert, S1. done.
Qed.
