(* ===== verification/NameLink.v ===== *)
(** * Changes to a name tree

    What the invariant of [NameForest.v] becomes when a node is linked into a
    level, and when a new node takes the place of another, which moves to a
    level of its own below it. *)

From stdpp Require Import gmap.
From S2P Require Import Prelude Rdata Name Rbt RbtTree RbtLevel RbtAdd NameTree NameForest.

#[local] Open Scope nat_scope.

(** ** What the invariant looks at *)

Definition node_name (s : dns_rbt) (p : ptr) : option name := NODENAME <$> outers s !! p.

Lemma node_name_dom s s' p :
  node_name s' p = node_name s p → is_Some (outers s' !! p) ↔ is_Some (outers s !! p).
Proof.
  unfold node_name. intros H. rewrite <- !(fmap_is_Some NODENAME). by rewrite H.
Qed.

Lemma level_agree m m' root up t :
  (∀ q, q ∈ nodes t → m' !! q = m !! q) → level m root up t → level m' root up t.
Proof. intros Hag [Hr Hat Hd Hu]. split; try done. by eapply tree_at_agree. Qed.

Lemma forest_ext lv own s s' :
  links s' = links s → (∀ v, level_root s' v = level_root s v) →
  (∀ q, node_name s' q = node_name s q) → forest lv own s → forest lv own s'.
Proof.
  intros Hl Hr Hn F. pose proof (λ p, node_name_dom s s' p (Hn p)) as Hdom. split.
  - intros v Hv. rewrite Hl, Hr. by apply (fo_level _ _ _ F).
  - intros p. rewrite Hdom. apply (fo_dom _ _ _ F).
  - intros p. rewrite Hl, Hdom. apply (fo_links _ _ _ F).
  - intros p Hp. apply (fo_dead _ _ _ F). apply eq_None_not_Some. rewrite <- Hdom, Hp. apply is_Some_None.
  - apply (fo_disjoint _ _ _ F).
  - intros p o Ho. specialize (Hn p). unfold node_name in Hn. rewrite Ho in Hn. cbn in Hn.
    destruct (outers s !! p) as [o'|] eqn:Ho'; [|done]. apply (inj Some) in Hn. rewrite Hn. by apply (fo_name _ _ _ F).
  - apply (fo_abs _ _ _ F).
  - apply (fo_order _ _ _ F).
  - apply (fo_named _ _ _ F).
Qed.

(** The hash table and the data are not the tree. *)
Definition shape (o : outer) : name * option ptr := (NODENAME o, down o).

Lemma forest_shape lv own s s' :
  links s' = links s → rbt_root s' = rbt_root s →
  (∀ q, shape <$> outers s' !! q = shape <$> outers s !! q) → forest lv own s → forest lv own s'.
Proof.
  intros Hl Hr Hs. apply forest_ext; [done| |].
  - intros [v|]; [|done]. cbn. specialize (Hs v). destruct (outers s' !! v), (outers s !! v); try done.
    cbn in Hs. apply (inj Some) in Hs. unfold shape in Hs. apply (f_equal snd) in Hs. done.
  - intros q. specialize (Hs q). unfold node_name. destruct (outers s' !! q), (outers s !! q); try done.
    apply (inj Some) in Hs. apply (f_equal fst) in Hs. cbn in *. by rewrite Hs.
Qed.

(** ** A node more *)

Section Link.
Context (lv : option ptr → tree) (own : ptr → list label) (s : dns_rbt) (F : forest lv own s).
Context (u : option ptr) (U : list label) (HU : place lv own u U).
Context (p : ptr) (Hp : outers s !! p = None) (A : list label).

Definition link_own : ptr → list label := λ q, if decide (q = p) then A else own q.
Definition link_lv (t : tree) : option ptr → tree := λ v, if decide (v = u) then t else lv v.

(** The new node goes between [l1] and [l2] in its level. *)
Record fits (l1 l2 : list ptr) : Prop := Fits {
  ft_level : nodes (lv u) = l1 ++ l2;
  ft_before q : q ∈ l1 → (lexcmp (toplabel (own q)) (toplabel A) < 0)%Z;
  ft_after q : q ∈ l2 → (lexcmp (toplabel A) (toplabel (own q)) < 0)%Z }.

Lemma not_live_new : ¬ live lv p.
Proof. intros H. apply (fo_dom _ _ _ F) in H. rewrite Hp in H. by destruct H. Qed.

Lemma link_own_old q : live lv q → link_own q = own q.
Proof. unfold link_own. intros Hq. destruct (decide (q = p)) as [->|]; [|done]. by apply not_live_new in Hq. Qed.

Lemma link_own_new : link_own p = A.
Proof. unfold link_own. by rewrite decide_True. Qed.

Lemma new_not_above : u ≠ Some p.
Proof. intros ->. apply not_live_new. by eapply named_live. Qed.

Context (t : tree) (l1 l2 : list ptr) (Ht : nodes t = l1 ++ p :: l2) (Hfit : fits l1 l2).

Lemma link_nodes v q : q ∈ nodes (link_lv t v) ↔ q ∈ nodes (lv v) ∨ (q = p ∧ v = u).
Proof.
  unfold link_lv. destruct (decide (v = u)) as [->|Hv].
  - rewrite Ht, (ft_level _ _ Hfit), !elem_of_app, elem_of_cons. tauto.
  - split; [tauto|]. intros [?|[_ ?]]; done.
Qed.

Lemma link_live q : live (link_lv t) q ↔ live lv q ∨ q = p.
Proof.
  unfold live. split.
  - intros [v Hv]. apply link_nodes in Hv as [Hv|[-> _]]; [left; by exists v|by right].
  - intros [[v Hv]| ->]; [exists v; apply link_nodes; by left|exists u; apply link_nodes; by right].
Qed.

Lemma link_keeps_named q N : named lv own q N → named (link_lv t) link_own q N.
Proof.
  induction 1 as [q Hq|q a N Hq Ha IH].
  - rewrite <- (link_own_old q) by by eexists. apply named_top, link_nodes. by left.
  - rewrite <- (link_own_old q) by by eexists. eapply named_below; [|done]. apply link_nodes. by left.
Qed.

Lemma link_named q N :
  named (link_lv t) link_own q N ↔ named lv own q N ∨ (q = p ∧ N = A ++ U).
Proof.
  split.
  - induction 1 as [q Hq|q a N Hq Ha IH].
    + apply link_nodes in Hq as [Hq|[-> <-]].
      * left. rewrite link_own_old by by eexists. by apply named_top.
      * right. cbn in HU. subst U. by rewrite link_own_new, app_nil_r.
    + destruct IH as [IH|[-> ->]].
      * apply link_nodes in Hq as [Hq|[-> <-]].
        -- left. rewrite link_own_old by by eexists. by eapply named_below.
        -- right. rewrite link_own_new. split; [done|]. f_equal. cbn in HU.
           by eapply named_fun.
      * exfalso. apply link_nodes in Hq as [Hq|[_ Hq]].
        -- rewrite (fo_dead _ _ _ F p Hp) in Hq. by apply elem_of_nil in Hq.
        -- by apply new_not_above.
  - intros [H|[-> ->]]; [by apply link_keeps_named|].
    rewrite <- link_own_new. eapply named_place; [apply link_nodes; by right|].
    destruct u as [a|]; [|done]. by apply link_keeps_named.
Qed.

Lemma link_order v : StronglySorted (earlier link_own) (nodes (link_lv t v)).
Proof.
  pose proof (fo_order _ _ _ F) as Ho.
  assert (∀ w, StronglySorted (earlier link_own) (nodes (lv w))) as Ho'.
  { intros w. specialize (Ho w). assert (∀ q, q ∈ nodes (lv w) → link_own q = own q) as Hq.
    { intros q Hq. apply link_own_old. by eexists. }
    induction Ho as [|x l Hs IH Hx]; constructor.
    - apply IH. intros. apply Hq. set_solver.
    - rewrite Forall_forall in *. intros y Hy. specialize (Hx y Hy). unfold earlier in *.
      rewrite !Hq by set_solver. done. }
  unfold link_lv. destruct (decide (v = u)) as [->|]; [|done]. specialize (Ho' u).
  rewrite Ht. rewrite (ft_level _ _ Hfit) in Ho'.
  apply StronglySorted_app in Ho' as (H12 & H1 & H2).
  assert (∀ q, q ∈ l1 ++ l2 → link_own q = own q) as Hq.
  { intros q Hq. apply link_own_old. exists u. by rewrite (ft_level _ _ Hfit). }
  apply StronglySorted_app. split_and!; [|done|].
  - intros x y Hx [->|Hy]%elem_of_cons; [|by apply H12]. unfold earlier.
    rewrite link_own_new, Hq by set_solver. by apply (ft_before _ _ Hfit).
  - constructor; [done|]. apply Forall_forall. intros y Hy. unfold earlier.
    rewrite link_own_new, Hq by set_solver. by apply (ft_after _ _ Hfit).
Qed.

Lemma forest_link s' n :
  level (links s') (level_root s' u) u t → rbt t n → color t = false →
  (∀ q, q ≠ p → q ∉ nodes (lv u) → links s' !! q = links s !! q) →
  (∀ q, q ≠ p → node_name s' q = node_name s q) →
  (∃ nm, node_name s' p = Some nm ∧ name_repr nm A) → A ≠ [] →
  (∀ v, v ≠ u → level_root s' v = if decide (v = Some p) then None else level_root s v) →
  is_root_last A = bool_decide (u = None) → labels_ok (A ++ U) →
  forest (link_lv t) link_own s'.
Proof.
  intros Hlv Hrb Hbl Hlinks Hnm (nm & Hpn & Hrep) HA Hroot Habs Hok.
  assert (is_Some (outers s' !! p)) as Hps.
  { unfold node_name in Hpn. destruct (outers s' !! p); [done|discriminate]. }
  assert (∀ q, is_Some (outers s' !! q) ↔ is_Some (outers s !! q) ∨ q = p) as Hdom.
  { intros q. destruct (decide (q = p)) as [->|Hq]; [tauto|].
    rewrite (node_name_dom s s' q) by by apply Hnm. tauto. }
  assert (∀ q, q ∈ nodes t ↔ q ∈ nodes (lv u) ∨ q = p) as Hnt.
  { intros q. rewrite Ht, (ft_level _ _ Hfit), !elem_of_app, elem_of_cons. tauto. }
  split.
  - intros v Hv. unfold link_lv. destruct (decide (v = u)) as [->|Hvu]; [split; [done|by exists n]|].
    rewrite Hroot by done. destruct (decide (v = Some p)) as [->|Hvp].
    + rewrite (fo_dead _ _ _ F p Hp). split; [|exists 0; split; [constructor|done]].
      split; try done; [apply NoDup_nil_2|]. intros ? _. apply not_elem_of_nil.
    + destruct (fo_level _ _ _ F v) as [H H'].
      { intros q Hvq. rewrite Hvq in *. destruct (proj1 (link_live q) (Hv q eq_refl)) as [?|Heq]; [done|congruence]. }
      split; [|done]. eapply level_agree; [|exact H]. intros q Hq. apply Hlinks.
      * intros ->. apply not_live_new. by exists v.
      * intros Hqu. apply Hvu. by eapply (fo_disjoint _ _ _ F).
  - intros q. rewrite link_live, Hdom, (fo_dom _ _ _ F). done.
  - intros q. rewrite Hdom. destruct (decide (q ∈ nodes t)) as [Hq|Hq].
    + split; intros _.
      * apply Hnt in Hq as [Hq|Hq]; [|by right]. left. apply (fo_dom _ _ _ F). by exists u.
      * apply elem_of_dom. eapply tree_at_dom; [|done]. eapply level_at; done.
    + rewrite Hnt in Hq. rewrite Hlinks by tauto. rewrite (fo_links _ _ _ F). tauto.
  - intros q Hq. unfold link_lv. destruct (decide (Some q = u)) as [Hu|Hu].
    + exfalso. assert (live lv q) as Hlq by (eapply place_live; done).
      apply (fo_dom _ _ _ F) in Hlq. assert (is_Some (outers s' !! q)) as [? ?]; [|congruence].
      apply Hdom. by left.
    + apply (fo_dead _ _ _ F). apply eq_None_not_Some. intros Hc. assert (is_Some (outers s' !! q)) as [? ?]; [|congruence].
      apply Hdom. by left.
  - intros v w q Hv Hw. apply link_nodes in Hv as [Hv|[Ev ->]], Hw as [Hw|[Ew ->]]; try done; subst.
    + by eapply (fo_disjoint _ _ _ F).
    + exfalso. apply not_live_new. by exists v.
    + exfalso. apply not_live_new. by exists w.
  - intros q o Ho. unfold link_own. destruct (decide (q = p)) as [->|Hq].
    + unfold node_name in Hpn. rewrite Ho in Hpn. apply (inj Some) in Hpn. rewrite Hpn. done.
    + specialize (Hnm q Hq). unfold node_name in Hnm. rewrite Ho in Hnm.
      destruct (outers s !! q) as [o'|] eqn:Ho'; [|done]. cbn in Hnm. apply (inj Some) in Hnm. rewrite Hnm.
      by apply (fo_name _ _ _ F).
  - intros v q Hv. apply link_nodes in Hv as [Hv|[-> ->]].
    + rewrite link_own_old by by eexists. by apply (fo_abs _ _ _ F).
    + by rewrite link_own_new.
  - apply link_order.
  - intros q [Hq| ->]%link_live.
    + destruct (fo_named _ _ _ F q Hq) as (N & HN & HokN). exists N. split; [|done].
      apply link_named. by left.
    + exists (A ++ U). split; [|done]. apply link_named. by right.
Qed.

End Link.
