(* ===== verification/NameSplit.v ===== *)
(** * A new node between a node and its level

    When a name to be added shares only some of the labels of a node, a new
    node with these takes its place, and the node, with the others, gets a
    level of its own below it. The names in the tree stay; there is one
    more. *)

From stdpp Require Import gmap.
From S2P Require Import Prelude Rdata Name Rbt RbtTree RbtLevel RbtAdd NameTree NameForest NameLink.

#[local] Open Scope nat_scope.

Lemma sorted_tops own l :
  StronglySorted (earlier own) l ↔
  StronglySorted (λ a b, (lexcmp a b < 0)%Z) ((λ p, toplabel (own p)) <$> l).
Proof.
  induction l as [|x l IH]; cbn; [split; constructor|]. rewrite !StronglySorted_cons, IH.
  rewrite Forall_fmap. done.
Qed.

Section Split.
Context (lv : option ptr → tree) (own : ptr → list label) (s : dns_rbt) (F : forest lv own s).
Context (u : option ptr) (U : list label) (HU : place lv own u U).
Context (k : path) (c : bool) (l r : tree) (cur : ptr) (Hu : lv u = plug k (T c l cur r)).
Context (P Q : list label) (Hcur : own cur = P ++ Q) (HP : P ≠ []) (HQ : Q ≠ []).
Context (new : ptr) (Hnew : outers s !! new = None).

Definition split_lv : option ptr → tree := λ v,
  if decide (v = u) then plug k (T c l new r)
  else if decide (v = Some new) then T false E cur E else lv v.
Definition split_own : ptr → list label := λ q,
  if decide (q = cur) then P else if decide (q = new) then Q else own q.

Lemma split_not_live : ¬ live lv new.
Proof. by eapply not_live_new. Qed.

Lemma split_not_above : u ≠ Some new.
Proof. by eapply new_not_above. Qed.

Lemma cur_in_level : cur ∈ nodes (lv u).
Proof. rewrite Hu. apply elem_of_plug. right. cbn. set_solver. Qed.

Lemma cur_not_new : cur ≠ new.
Proof. intros Hc. apply split_not_live. exists u. rewrite <- Hc. apply cur_in_level. Qed.

Lemma split_level_nodes :
  nodes (lv u) = (before_hole k ++ nodes l) ++ cur :: (nodes r ++ after_hole k) ∧
  nodes (split_lv u) = (before_hole k ++ nodes l) ++ new :: (nodes r ++ after_hole k).
Proof.
  unfold split_lv. rewrite decide_True by done. rewrite Hu, !plug_nodes. cbn [nodes].
  split; by rewrite <- !app_assoc.
Qed.

Lemma level_nodup_parts : NoDup ((before_hole k ++ nodes l) ++ cur :: (nodes r ++ after_hole k)).
Proof.
  rewrite <- (proj1 split_level_nodes). destruct (fo_level _ _ _ F u) as [H _].
  - intros q Hq. by eapply place_live.
  - by eapply level_nodup.
Qed.

Lemma split_nodes v q :
  q ∈ nodes (split_lv v) ↔
    (q ∈ nodes (lv v) ∧ q ≠ cur) ∨ (q = new ∧ v = u) ∨ (q = cur ∧ v = Some new).
Proof.
  pose proof level_nodup_parts as Hd. apply NoDup_app in Hd as (_ & D1 & D2).
  apply NoDup_cons in D2 as [D2 _].
  destruct (decide (v = u)) as [->|Hv].
  - destruct split_level_nodes as [-> ->]. pose proof split_not_above. pose proof cur_not_new.
    rewrite !(elem_of_app _ (_ :: _)), !elem_of_cons. split.
    + intros [Hq|[->|Hq]].
      * left. split; [by left|]. intros ->. apply (D1 cur Hq). set_solver.
      * right. by left.
      * left. split; [by right; right|]. by intros ->.
    + intros [[[Hq|[Hq|Hq]] Hqc]|[[Hq _]|[_ Hq]]]; try done; auto.
  - unfold split_lv. rewrite decide_False by done. destruct (decide (v = Some new)) as [->|Hvn].
    + cbn. rewrite list_elem_of_singleton, (fo_dead _ _ _ F new Hnew). cbn.
      rewrite elem_of_nil. split; [auto|]. intros [[[] _]|[[_ ?]|[? _]]]; done.
    + split; [|intros [[? _]|[[_ ?]|[_ ?]]]; done]. intros Hq. left. split; [done|]. intros ->.
      apply Hv. eapply (fo_disjoint _ _ _ F); [exact Hq|apply cur_in_level].
Qed.

Lemma split_live q : live split_lv q ↔ live lv q ∨ q = new.
Proof.
  unfold live. split.
  - intros [v Hv]. apply split_nodes in Hv as [[Hv _]|[[-> _]|[-> _]]].
    + left. by exists v.
    + by right.
    + left. exists u. apply cur_in_level.
  - intros [[v Hv]| ->].
    + destruct (decide (q = cur)) as [->|Hq].
      * exists (Some new). apply split_nodes. auto.
      * exists v. apply split_nodes. auto.
    + exists u. apply split_nodes. auto.
Qed.

Lemma split_own_old q : live lv q → q ≠ cur → split_own q = own q.
Proof.
  unfold split_own. intros Hq Hc. rewrite decide_False by done.
  destruct (decide (q = new)) as [->|]; [|done]. by apply split_not_live in Hq.
Qed.

Lemma split_own_cur : split_own cur = P.
Proof. unfold split_own. by rewrite decide_True. Qed.

Lemma split_own_new : split_own new = Q.
Proof.
  unfold split_own. rewrite decide_False, decide_True; [done..|]. intros Hc. by apply cur_not_new.
Qed.

(** The name of the new node. *)
Lemma split_named_new : (∀ a N, u = Some a → named lv own a N → named split_lv split_own a N) →
  named split_lv split_own new (Q ++ U).
Proof.
  intros Hkeep. rewrite <- split_own_new. eapply named_place; [apply split_nodes; auto|].
  destruct u as [a|]; [|done]. by apply Hkeep.
Qed.

Lemma split_named_cur : (∀ a N, u = Some a → named lv own a N → named split_lv split_own a N) →
  named split_lv split_own cur (own cur ++ U).
Proof.
  intros Hkeep. rewrite Hcur, <- app_assoc, <- split_own_cur at 1.
  eapply named_below; [apply split_nodes; auto|]. by apply split_named_new.
Qed.

Lemma split_keeps_named q N : named lv own q N → named split_lv split_own q N.
Proof.
  induction 1 as [q Hq|q a N Hq Ha IH].
  - destruct (decide (q = cur)) as [->|Hqc].
    + assert (u = None) as Eu by (eapply (fo_disjoint _ _ _ F); [apply cur_in_level|done]).
      assert (place lv own None U) as EU by (rewrite <- Eu; exact HU). cbn in EU.
      rewrite <- (app_nil_r (own cur)), <- EU. apply split_named_cur. intros a N' ?. congruence.
    + rewrite <- (split_own_old q) by (first [done|by eexists]). apply named_top, split_nodes. by left.
  - destruct (decide (q = cur)) as [->|Hqc].
    + assert (u = Some a) as Eu by (eapply (fo_disjoint _ _ _ F); [apply cur_in_level|done]).
      assert (place lv own (Some a) U) as EU by (rewrite <- Eu; exact HU).
      assert (N = U) as -> by by eapply named_fun.
      apply split_named_cur. intros a' N' Ea HN'. assert (a' = a) as -> by congruence.
      by rewrite (named_fun _ _ _ F _ _ _ HN' Ha).
    + rewrite <- (split_own_old q) by (first [done|by eexists]).
      eapply named_below; [apply split_nodes; by left|done].
Qed.

Lemma split_named q N :
  named split_lv split_own q N ↔ named lv own q N ∨ (q = new ∧ N = Q ++ U).
Proof.
  split.
  - induction 1 as [q Hq|q a N Hq Ha IH].
    + apply split_nodes in Hq as [[Hq Hqc]|[[-> Eu]|[-> [=]]]].
      * left. rewrite split_own_old by (first [done|by eexists]). by apply named_top.
      * right. rewrite split_own_new. split; [done|].
        assert (place lv own None U) as EU by (rewrite Eu; exact HU). cbn in EU. by rewrite EU, app_nil_r.
    + apply split_nodes in Hq as [[Hq Hqc]|[[-> Eu]|[-> [= ->]]]].
      * left. rewrite split_own_old by (first [done|by eexists]). destruct IH as [IH|[-> _]]; [by eapply named_below|].
        rewrite (fo_dead _ _ _ F new Hnew) in Hq. by apply elem_of_nil in Hq.
      * right. rewrite split_own_new. split; [done|]. f_equal.
        assert (place lv own (Some a) U) as EU by (rewrite Eu; exact HU).
        destruct IH as [IH|[-> _]]; [by eapply named_fun|]. by pose proof split_not_above.
      * left. rewrite split_own_cur. destruct IH as [IH|[_ ->]].
        -- exfalso. apply split_not_live. by eapply named_live.
        -- rewrite app_assoc, <- Hcur. eapply named_place; [apply cur_in_level|done].
  - intros [H|[-> ->]]; [by apply split_keeps_named|]. apply split_named_new.
    intros a N _. apply split_keeps_named.
Qed.

Lemma split_order v : StronglySorted (earlier split_own) (nodes (split_lv v)).
Proof.
  destruct (decide (v = Some new)) as [->|Hvn].
  { unfold split_lv. pose proof split_not_above. rewrite decide_False, decide_True by congruence.
    cbn. repeat constructor. }
  pose proof (fo_order _ _ _ F v) as Ho. apply sorted_tops. apply sorted_tops in Ho.
  enough (((λ p, toplabel (split_own p)) <$> nodes (split_lv v)) =
          ((λ p, toplabel (own p)) <$> nodes (lv v))) as -> by done.
  destruct (decide (v = u)) as [->|Hv].
  - pose proof level_nodup_parts as Hd. apply NoDup_app in Hd as (_ & D1 & D2).
    apply NoDup_cons in D2 as [D2 _]. pose proof (proj1 split_level_nodes) as Hn.
    rewrite (proj2 split_level_nodes), Hn, !(fmap_app _ _ (_ :: _)), !fmap_cons.
    rewrite split_own_new, Hcur, toplabel_app by done. f_equal; [|f_equal].
    + apply list_fmap_ext. intros i q Hi%list_elem_of_lookup_2. rewrite split_own_old; [done| |].
      * exists u. rewrite Hn. set_solver.
      * intros ->. apply (D1 cur Hi). set_solver.
    + apply list_fmap_ext. intros i q Hi%list_elem_of_lookup_2. rewrite split_own_old; [done| |].
      * exists u. rewrite Hn. set_solver.
      * by intros ->.
  - unfold split_lv. rewrite !decide_False by done. apply list_fmap_ext.
    intros i q Hi%list_elem_of_lookup_2. rewrite split_own_old; [done|by exists v|]. intros ->.
    apply Hv. eapply (fo_disjoint _ _ _ F); [exact Hi|apply cur_in_level].
Qed.

(** The level of the new node, and the one below it. *)
Record split_state (s' : dns_rbt) : Prop := SplitState {
  sp_level : level (links s') (level_root s' u) u (plug k (T c l new r));
  sp_below : level (links s') (Some cur) (Some new) (T false E cur E);
  sp_links q : q ∉ nodes (lv u) → q ≠ new → links s' !! q = links s !! q;
  sp_name q : q ≠ cur → q ≠ new → node_name s' q = node_name s q;
  sp_cur : ∃ nm, node_name s' cur = Some nm ∧ name_repr nm P;
  sp_new : ∃ nm, node_name s' new = Some nm ∧ name_repr nm Q;
  sp_root v : v ≠ u → level_root s' v = if decide (v = Some new) then Some cur else level_root s v }.

Lemma cur_name_ok : ∃ N, labels_ok (P ++ Q ++ N).
Proof.
  destruct (fo_named _ _ _ F cur) as (N & HN & Hok); [exists u; apply cur_in_level|].
  exists U. assert (N = own cur ++ U) as ->.
  { eapply named_fun; [done..|]. eapply named_place; [apply cur_in_level|done]. }
  by rewrite app_assoc, <- Hcur.
Qed.

Lemma rbt_replace n : rbt (plug k (T c l cur r)) n → color (plug k (T c l cur r)) = false →
  ∃ n, rbt (plug k (T c l new r)) n ∧ color (plug k (T c l new r)) = false.
Proof.
  intros Hr Hc. destruct (rbt_plug_inv _ _ _ Hr Hc) as (n' & Hn' & Hk & Hk2).
  apply (rbt_plug k _ n'); [done| |by intros ?%Hk2].
  inversion Hn'; subst; by constructor.
Qed.

Lemma forest_split s' : split_state s' → forest split_lv split_own s'.
Proof.
  intros [Hlv Hbelow Hlinks Hnm (nmc & Hnc & Rc) (nmn & Hnn & Rn) Hroot].
  assert (is_Some (outers s' !! cur) ∧ is_Some (outers s' !! new)) as [Hcs Hns].
  { unfold node_name in *. destruct (outers s' !! cur), (outers s' !! new); done. }
  assert (is_Some (outers s !! cur)) as Hcs0.
  { apply (fo_dom _ _ _ F). exists u. apply cur_in_level. }
  assert (∀ q, is_Some (outers s' !! q) ↔ is_Some (outers s !! q) ∨ q = new) as Hdom.
  { intros q. destruct (decide (q = new)) as [->|Hq]; [tauto|].
    destruct (decide (q = cur)) as [->|Hq']; [tauto|].
    rewrite (node_name_dom s s' q) by by apply Hnm. tauto. }
  pose proof split_not_above as Hun. pose proof cur_not_new as Hcn. split.
  - intros v Hv. unfold split_lv. destruct (decide (v = u)) as [->|Hvu].
    { split; [done|]. destruct (fo_level _ _ _ F u) as [_ (n & Hr & Hc)].
      - intros q Hq. by eapply place_live.
      - rewrite Hu in Hr, Hc. by eapply rbt_replace. }
    rewrite Hroot by done. destruct (decide (v = Some new)) as [->|Hvp].
    { split; [done|]. exists 1. split; [by repeat constructor|done]. }
    destruct (fo_level _ _ _ F v) as [H H'].
    { intros q Hvq. destruct (proj1 (split_live q) (Hv q Hvq)) as [?|Heq]; [done|congruence]. }
    split; [|done]. eapply level_agree; [|exact H]. intros q Hq. apply Hlinks.
    + intros Hqu. apply Hvu. by eapply (fo_disjoint _ _ _ F).
    + intros ->. apply split_not_live. by exists v.
  - intros q. rewrite split_live, Hdom, (fo_dom _ _ _ F). done.
  - intros q. rewrite Hdom. destruct (decide (q ∈ nodes (lv u))) as [Hq|Hq].
    + split; intros _; [left; apply (fo_dom _ _ _ F); by exists u|]. apply elem_of_dom.
      destruct (decide (q = cur)) as [->|Hqc].
      * eapply (tree_at_dom _ (T false E cur E)); [by eapply level_at|]. cbn. set_solver.
      * eapply tree_at_dom; [by eapply (level_at _ _ _ _ Hlv)|]. pose proof (proj2 split_level_nodes) as Hn.
        assert (q ∈ nodes (split_lv u)) as Hq' by (apply split_nodes; auto).
        unfold split_lv in Hq'. rewrite decide_True in Hq' by done. exact Hq'.
    + destruct (decide (q = new)) as [->|Hqn].
      * split; [by right|]. intros _. apply elem_of_dom. eapply tree_at_dom; [by eapply (level_at _ _ _ _ Hlv)|].
        rewrite plug_nodes. cbn. set_solver.
      * rewrite Hlinks by done. rewrite (fo_links _ _ _ F). tauto.
  - intros q Hq. assert (q ≠ new) as Hqn by (intros ->; rewrite Hq in Hns; by destruct Hns).
    assert (outers s !! q = None) as Hq0.
    { apply eq_None_not_Some. intros Hc. apply (is_Some_None (A := outer)). rewrite <- Hq. apply Hdom. by left. }
    unfold split_lv. rewrite decide_False, decide_False; [by apply (fo_dead _ _ _ F)|congruence|].
    intros Hc. assert (live lv q) as Hl by (eapply place_live; [exact HU|done]).
    apply (fo_dom _ _ _ F) in Hl. rewrite Hq0 in Hl. by destruct Hl.
  - assert (∀ v q, q ∈ nodes (lv v) → q ≠ new) as Hold.
    { intros v q Hv ->. apply split_not_live. by exists v. }
    intros v w q Hv Hw. apply split_nodes in Hv as [[Hv Hvc]|[[Ev ->]|[Ev ->]]],
      Hw as [[Hw Hwc]|[[Ew ->]|[Ew ->]]]; subst; try done.
    + by eapply (fo_disjoint _ _ _ F).
    + by apply Hold in Hv.
    + by apply Hold in Hw.
  - intros q o Ho. unfold split_own. destruct (decide (q = cur)) as [->|Hqc].
    { unfold node_name in Hnc. rewrite Ho in Hnc. apply (inj Some) in Hnc. by rewrite Hnc. }
    destruct (decide (q = new)) as [->|Hqn].
    { unfold node_name in Hnn. rewrite Ho in Hnn. apply (inj Some) in Hnn. by rewrite Hnn. }
    specialize (Hnm q Hqc Hqn). unfold node_name in Hnm. rewrite Ho in Hnm.
    destruct (outers s !! q) as [o'|] eqn:Ho'; [|done]. cbn in Hnm. apply (inj Some) in Hnm.
    rewrite Hnm. by apply (fo_name _ _ _ F).
  - destruct cur_name_ok as [N HN].
    assert (is_root_last P = false) as RP.
    { rewrite (is_root_last_part [] P (Q ++ N)) by done. rewrite bool_decide_false; [done|].
      intros [Hc _]. by apply app_nil in Hc as [? _]. }
    assert (is_root_last Q = is_root_last (own cur)) as RQ.
    { rewrite Hcur. unfold is_root_last. f_equal. destruct Q as [|x Q' _] using rev_ind; [done|].
      by rewrite app_assoc, !last_snoc. }
    intros v q Hv. apply split_nodes in Hv as [[Hv Hvc]|[[-> ->]|[-> ->]]].
    + rewrite split_own_old by (first [done|by eexists]). by apply (fo_abs _ _ _ F).
    + rewrite split_own_new, RQ. apply (fo_abs _ _ _ F). apply cur_in_level.
    + by rewrite split_own_cur, RP.
  - apply split_order.
  - intros q [Hq| ->]%split_live.
    + destruct (fo_named _ _ _ F q Hq) as (N & HN & Hok). exists N. split; [|done].
      apply split_named. by left.
    + exists (Q ++ U). split; [apply split_named; by right|].
      destruct (fo_named _ _ _ F cur) as (N & HN & Hok); [exists u; apply cur_in_level|].
      assert (N = own cur ++ U) as ->.
      { eapply named_fun; [done..|]. eapply named_place; [apply cur_in_level|done]. }
      rewrite Hcur, <- app_assoc in Hok. by apply labels_ok_app in Hok as [_ ?].
Qed.

End Split.
