(* ===== verification/NameReplace.v ===== *)
(** * The pointers of a split

    [dns_rbt_addnode] puts the new node of a split in the place of the old
    one in its level ([replace_in_level]), and makes the old one the only
    node of the level below ([lone_root]). With [NameSplit.v]:
    [split_current] keeps the invariant of the tree. *)

From stdpp Require Import gmap.
From S2P Require Import Prelude Rdata Name Rbt RbtTree RbtLevel RbtAdd RbtSwap NameTree NameForest NameLink NameSplit.

#[local] Open Scope nat_scope.

(** The node above the hole, inside the level. *)
Definition inner_parent (k : path) : option ptr := parent_of k None.

Lemma fix_parent_rehang m k x v up :
  path_at m k (Some x) up → x ∉ path_nodes k →
  fix_parent m (inner_parent k) x v = Some (rehang m k (Some v) up).
Proof.
  intros Hk Hx. destruct k as [|[d c p s] k]; [done|].
  exact (replace_child_rehang m (Frame d c p s :: k) x (Some v) up ltac:(done) Hk Hx).
Qed.

Lemma fix_child_reparent m t par isr new :
  tree_at m t par isr → fix_child m (top t) new = Some (reparent m t (Some new) isr).
Proof. apply put_parent_reparent. Qed.

(** All fields of the new node are set. *)
Lemma copy_fields {A} (f : store → option A) m p n a b par c isr :
  m !! p = Some n →
  (m ← put_is_root m p isr; m ← put_parent m p par; m ← put_child Lft m p a;
   m ← put_child Rgt m p b; m ← put_red m p c; f m) = f (<[p := Node a b par c isr]> m).
Proof.
  intros H. unfold put_is_root. rewrite H. cbn [mbind option_bind].
  erewrite set_fields by apply lookup_insert_eq. by rewrite insert_insert_eq.
Qed.

Lemma replace_in_level_run m root up k c l cur r new n0 :
  level m root up (plug k (T c l cur r)) → m !! new = Some n0 →
  new ∉ nodes (plug k (T c l cur r)) →
  ∃ m', replace_in_level m (inner_parent k) cur new = Some m' ∧
    path_at m' k (Some new) up ∧ tree_at m' (T c l new r) (parent_of k up) (is_top k) ∧
    (∀ q, q ∉ path_nodes k → q ∉ nodes l → q ∉ nodes r → q ≠ new → m' !! q = m !! q).
Proof.
  intros H Hn Hnew. destruct (level_hole _ _ _ _ _ H) as [_ Hk (Mc & Ml & Mr) Hap Dk Dt].
  destruct (nodup_mk Lft _ _ _ _ Dt) as (Dl & Dr & Xl & Xr & Hlr).
  rewrite elem_of_plug in Hnew. cbn [nodes] in Hnew, Hap. rewrite elem_of_app, elem_of_cons in Hnew.
  assert (cur ∉ path_nodes k) as Hcur.
  { intros Hc. apply (Hap _ Hc). set_solver. }
  set (n1 := Node (top l) (top r) (parent_of k up) c (is_top k)).
  set (m1 := <[new := n1]> m). set (m2 := rehang m1 k (Some new) up).
  set (m3 := reparent m2 l (Some new) false). set (m4 := reparent m3 r (Some new) false).
  assert (∀ q, q ≠ new → m1 !! q = m !! q) as A1 by (intros; unfold m1; by rewrite lookup_insert_ne).
  assert (∀ q, q ∉ path_nodes k → m2 !! q = m1 !! q) as A2 by (intros; by apply rehang_ne).
  assert (∀ q, q ∉ nodes l → m3 !! q = m2 !! q) as A3 by (intros; by apply reparent_ne).
  assert (∀ q, q ∉ nodes r → m4 !! q = m3 !! q) as A4 by (intros; by apply reparent_ne).
  assert (∀ q, q ∈ path_nodes k → q ∉ nodes l ∧ q ∉ nodes r ∧ q ≠ new) as Kq.
  { intros q Hq. specialize (Hap q Hq). set_solver. }
  assert (path_at m1 k (Some cur) up) as K1.
  { eapply path_at_agree; [|exact Hk]. intros q Hq. apply A1. by apply Kq. }
  assert (m2 !! new = Some n1) as N2.
  { rewrite A2 by tauto. unfold m1. by rewrite lookup_insert_eq. }
  assert (tree_at m2 l (Some cur) false) as L2.
  { eapply tree_at_agree; [|exact Ml]. intros q Hq. rewrite A2, A1; [done|by intros ->; tauto|].
    intros Hqk. by destruct (Kq q Hqk). }
  assert (tree_at m3 r (Some cur) false) as R3.
  { eapply tree_at_agree; [|exact Mr]. intros q Hq. rewrite A3, A2, A1; [done|by intros ->; tauto| |].
    - intros Hqk. by destruct (Kq q Hqk) as (_ & ? & _).
    - intros Hql. by apply (Hlr q). }
  exists m4. split_and!.
  - unfold replace_in_level. rewrite Mc. cbn [mbind option_bind is_root Rbt.parent left right red].
    erewrite copy_fields by done. fold n1. fold m1.
    rewrite (fix_parent_rehang _ _ _ new up K1 Hcur). cbn [mbind option_bind]. fold m2.
    rewrite N2. cbn [mbind option_bind left right n1].
    rewrite (fix_child_reparent _ _ _ _ new L2). cbn [mbind option_bind]. fold m3.
    by rewrite (fix_child_reparent _ _ _ _ new R3).
  - apply (path_at_agree m2); [|by eapply rehang_at].
    intros q Hq. destruct (Kq q Hq) as (? & ? & _). by rewrite A4, A3.
  - cbn. split; [by rewrite A4, A3 by tauto|]. split; [|by eapply reparent_at].
    apply (tree_at_agree m3); [|by eapply reparent_at].
    intros q Hq. apply A4. by apply Hlr.
  - intros q Q1 Q2 Q3 Q4. by rewrite A4, A3, A2, A1.
Qed.

Lemma replace_in_level_spec m root up k c l cur r new n0 :
  level m root up (plug k (T c l cur r)) → m !! new = Some n0 →
  new ∉ nodes (plug k (T c l cur r)) → up ≠ Some new →
  ∃ m', replace_in_level m (inner_parent k) cur new = Some m' ∧
    level m' (top (plug k (T c l new r))) up (plug k (T c l new r)) ∧ m' !! cur = m !! cur ∧
    (∀ q, q ∉ nodes (plug k (T c l cur r)) → q ≠ new → m' !! q = m !! q).
Proof.
  intros H Hn Hnew Hup. destruct (replace_in_level_run _ _ _ _ _ _ _ _ _ _ H Hn Hnew)
    as (m' & Hrun & Hk & Ht & Hag).
  pose proof (level_nodup _ _ _ _ H) as Hd. pose proof Hd as Hd'.
  rewrite plug_perm in Hd'. cbn [nodes] in Hd'.
  assert (∀ x, path_nodes k ++ nodes l ++ x :: nodes r ≡ₚ x :: path_nodes k ++ nodes l ++ nodes r)
    as Hp by (intros x; solve_Permutation).
  rewrite Hp in Hd'.
  rewrite elem_of_plug in Hnew. cbn [nodes] in Hnew. rewrite elem_of_app, elem_of_cons in Hnew.
  apply NoDup_cons in Hd' as [Hc0 Hd0]. rewrite !elem_of_app in Hc0.
  exists m'. split; [done|]. split; [split|split].
  - done.
  - by apply tree_at_plug.
  - rewrite plug_perm. cbn [nodes]. rewrite Hp. apply NoDup_cons. split; [rewrite !elem_of_app; tauto|]. done.
  - intros a Ha. pose proof (level_up _ _ _ _ H a Ha) as Hua. revert Hua.
    rewrite !elem_of_plug. cbn [nodes]. rewrite !elem_of_app, !elem_of_cons.
    assert (a ≠ new) by congruence. tauto.
  - apply Hag; try tauto. intros ->. tauto.
  - intros q Hq Hqn. revert Hq. rewrite elem_of_plug. cbn [nodes]. rewrite elem_of_app, elem_of_cons.
    intros Hq. apply Hag; tauto.
Qed.

(** ** Slots, and what lies outside the tree *)

(** The fields of a node that the tree does not use. *)
Definition rest (o : outer) : option nat * bool * Z * option ptr :=
  (data o, find_callback o, hashval o, hashnext o).

Record same_rest (s s' : dns_rbt) : Prop := SameRest {
  sr_outers q : rest <$> outers s' !! q = rest <$> outers s !! q;
  sr_table : hashtable s' = hashtable s;
  sr_size : hashsize s' = hashsize s }.

#[export] Instance same_rest_preorder : PreOrder same_rest.
Proof.
  split; [done|]. intros s1 s2 s3 [O1 T1 S1] [O2 T2 S2]. split; congruence.
Qed.

Lemma upd_outer_spec s p f o :
  outers s !! p = Some o → rest (f o) = rest o →
  upd_outer s p f = Some (set_outers s (<[p := f o]> (outers s))) ∧
  same_rest s (set_outers s (<[p := f o]> (outers s))).
Proof.
  intros Ho Hr. unfold upd_outer. rewrite Ho. split; [done|]. split; try done.
  intros q. cbn. rewrite lookup_insert. destruct (decide (p = q)) as [<-|]; [|done].
  rewrite Ho. cbn. by rewrite Hr.
Qed.

Lemma level_root_insert s p o w :
  level_root (set_outers s (<[p := o]> (outers s))) w =
    if decide (w = Some p) then down o else level_root s w.
Proof.
  destruct w as [w|]; [|done]. cbn. rewrite lookup_insert.
  destruct (decide (p = w)) as [<-|]; [by rewrite decide_True|].
  by rewrite decide_False by congruence.
Qed.

Lemma node_name_insert s p o q :
  node_name (set_outers s (<[p := o]> (outers s))) q =
    if decide (q = p) then Some (NODENAME o) else node_name s q.
Proof.
  unfold node_name. cbn. rewrite lookup_insert.
  destruct (decide (p = q)) as [<-|]; [by rewrite decide_True|]. by rewrite decide_False by congruence.
Qed.

Lemma read_slot_root s u :
  (∀ p, u = Some p → is_Some (outers s !! p)) → read_slot s (slot_of u) = Some (level_root s u).
Proof.
  destruct u as [p|]; [|done]. intros H. destruct (H p eq_refl) as [o Ho].
  cbn. by rewrite Ho.
Qed.

Lemma write_slot_root s u v :
  (∀ p, u = Some p → is_Some (outers s !! p)) →
  ∃ s', write_slot s (slot_of u) v = Some s' ∧ same_rest s s' ∧
    links s' = links s ∧ nodecount s' = nodecount s ∧
    (∀ w, level_root s' w = if decide (w = u) then v else level_root s w) ∧
    (∀ q, node_name s' q = node_name s q).
Proof.
  destruct u as [p|]; intros H; cbn.
  - destruct (H p eq_refl) as [o Ho].
    destruct (upd_outer_spec s p (λ o, with_down o v) o Ho eq_refl) as [-> Hr].
    eexists. split; [done|]. split_and!; try done.
    + intros [w|]; [|done]. cbn. rewrite lookup_insert.
      destruct (decide (p = w)) as [<-|Hw]; [by rewrite decide_True|].
      rewrite decide_False by congruence. done.
    + intros q. unfold node_name. cbn. rewrite lookup_insert.
      destruct (decide (p = q)) as [<-|]; [by rewrite Ho|done].
  - eexists. split; [done|]. split_and!; try done. by intros [w|].
Qed.

Lemma lone_root_run m p new n :
  m !! p = Some n →
  lone_root m p new = Some (<[p := Node None None (Some new) false true]> m).
Proof.
  intros H. unfold lone_root, put_is_root. rewrite H. cbn [mbind option_bind].
  erewrite set_last_fields by apply lookup_insert_eq. by rewrite insert_insert_eq.
Qed.

(** ** The split *)

Section SplitRun.
Context (lv : option ptr → tree) (own : ptr → list label) (s : dns_rbt) (F : forest lv own s).
Context (u : option ptr) (U : list label) (HU : place lv own u U).
Context (k : path) (c : bool) (l r : tree) (cur : ptr) (Hu : lv u = plug k (T c l cur r)).
Context (P Q : list label) (Hcur : own cur = P ++ Q) (HP : P ≠ []) (HQ : Q ≠ []).
Context (new : ptr) (Hnew : outers s !! new = None).

(** The state in which the new node has been created. *)
Context (s1 : dns_rbt) (on : outer) (prefix : name).
Context (Hl1 : links s1 = <[new := Node None None None false false]> (links s)).
Context (Ho1 : outers s1 = <[new := on]> (outers s)) (Hr1 : rbt_root s1 = rbt_root s).
Context (Hon : name_repr (NODENAME on) Q) (Hprefix : name_repr prefix P).

Lemma name_start oc : name_repr (NODENAME oc) (P ++ Q) →
  NODENAME (with_prefix oc prefix) = prefix.
Proof.
  intros Hrep.
  destruct (cur_name_ok lv own s F u U HU k c l r cur Hu P Q Hcur HP HQ new Hnew) as [N HN].
  unfold NODENAME, with_prefix. cbn. destruct prefix as [d n a]. cbn in *.
  destruct Hprefix as [Hd Hn Ha Hok]. cbn in *. f_equal.
  - subst d. pose proof (nr_data _ _ Hrep) as Hd. unfold NODENAME in Hd. cbn in Hd.
    rewrite enc_labels_app in Hd.
    transitivity (take (length (enc_labels P)) (take (namelen oc) (name_data oc))).
    + rewrite take_take. f_equal. apply (f_equal length) in Hd. rewrite length_take, length_app in Hd. lia.
    + rewrite Hd. apply take_app_length.
  - rewrite Ha, (is_root_last_part [] P (Q ++ N)) by done. rewrite bool_decide_false; [done|].
    intros [Hc _]. by apply app_nil in Hc as [? _].
Qed.

Lemma split_dom q : u = Some q → is_Some (outers s1 !! q) ∧ q ≠ new.
Proof.
  intros Hq. assert (live lv q) as Hl by (eapply place_live; [exact HU|done]).
  assert (q ≠ new) as Hqn.
  { intros ->. by apply (split_not_live lv own s F new Hnew). }
  split; [|done]. rewrite Ho1, lookup_insert_ne by done. by apply (fo_dom _ _ _ F).
Qed.

Lemma split_level_before :
  level (links s1) (level_root s1 u) u (plug k (T c l cur r)) ∧ level_root s1 u = level_root s u ∧
  new ∉ nodes (plug k (T c l cur r)).
Proof.
  destruct (fo_level _ _ _ F u) as [H _]; [intros q Hq; by eapply place_live|].
  assert (new ∉ nodes (lv u)) as Hn.
  { intros Hc. apply (split_not_live lv own s F new Hnew). by exists u. }
  assert (level_root s1 u = level_root s u) as Hr.
  { pose proof split_dom as Hd. destruct u as [a|]; [|done]. cbn. rewrite Ho1.
    destruct (Hd a eq_refl) as [_ ?]. by rewrite lookup_insert_ne. }
  rewrite Hr, <- Hu. split_and!; [|done..]. eapply level_agree; [|done].
  intros q Hq. rewrite Hl1, lookup_insert_ne; [done|]. by intros ->.
Qed.

(** [if ( *rootp == current) *rootp = new_current;] *)
Lemma write_new_root sa :
  (∀ w, level_root sa w = level_root s1 w) → (∀ q, is_Some (outers sa !! q) ↔ is_Some (outers s1 !! q)) →
  ∃ sb, (if bool_decide (level_root sa u = Some cur) then write_slot sa (slot_of u) (Some new)
         else Some sa) = Some sb ∧ same_rest sa sb ∧ links sb = links sa ∧ nodecount sb = nodecount sa ∧
    level_root sb u = top (plug k (T c l new r)) ∧ (∀ w, w ≠ u → level_root sb w = level_root s1 w) ∧
    (∀ q, node_name sb q = node_name sa q).
Proof.
  intros Hr Hd. destruct split_level_before as (H & _ & _).
  pose proof (RbtLevel.level_root _ _ _ _ H) as Hroot. rewrite Hr. case_bool_decide as Hc.
  - destruct (write_slot_root sa u (Some new)) as (sb & -> & R & L & N & Hlr & Hn).
    { intros q Hq. apply Hd. by apply split_dom. }
    exists sb. split_and!; try done.
    + rewrite Hlr, decide_True by done. destruct k as [|f k']; [done|]. exfalso.
      rewrite Hc in Hroot. symmetry in Hroot. apply top_plug_elem in Hroot.
      destruct (level_hole _ _ _ _ _ H) as [_ _ _ Hap _ _]. apply (Hap cur Hroot). cbn. set_solver.
    + intros w Hw. by rewrite Hlr, decide_False.
  - exists sa. split_and!; try done. rewrite Hr, Hroot. destruct k as [|f k']; [done|]. apply top_plug.
Qed.

Lemma split_current_run : ∃ s2,
  split_current s1 (inner_parent k) (slot_of u) cur new prefix = Some s2 ∧
  split_state lv s u k c l r cur P Q new s2 ∧ same_rest s1 s2 ∧ nodecount s2 = u32 (nodecount s1 + 1).
Proof.
  assert (cur ∈ nodes (lv u)) as Hin by (rewrite Hu, plug_nodes; cbn; set_solver).
  assert (cur ≠ new) as Hcn by by eapply cur_not_new.
  destruct (proj1 (fo_dom _ _ _ F cur) ltac:(by exists u)) as [oc Hoc].
  assert (outers s1 !! cur = Some oc) as Hoc1 by (rewrite Ho1; by rewrite lookup_insert_ne).
  assert (outers s1 !! new = Some on) as Hon1 by (rewrite Ho1; by rewrite lookup_insert_eq).
  destruct split_level_before as (H & _ & Hnn).
  unfold split_current. rewrite Hoc1. cbn [mbind option_bind].
  set (v := if bool_decide _ then _ else _).
  destruct (upd_outer_spec s1 new (λ n, with_nsec n v) on Hon1 eq_refl) as [-> R1].
  cbn [mbind option_bind]. set (sa := set_outers s1 _) in *.
  destruct (replace_in_level_spec _ _ _ _ _ _ _ _ new (Node None None None false false) H) as (m' & Hm & Hl' & Hcc & Hag).
  { rewrite Hl1. by rewrite lookup_insert_eq. }
  { done. }
  { intros Hc. by apply split_dom in Hc as [_ ?]. }
  change (links sa) with (links s1). rewrite Hm. cbn [mbind option_bind].
  set (sb := set_links sa m').
  assert (∀ w, level_root sb w = level_root s1 w) as Lb.
  { intros w. etransitivity; [apply (level_root_insert s1 new)|].
    destruct (decide (w = Some new)) as [->|]; [|done]. cbn. by rewrite Hon1. }
  assert (∀ q, node_name sb q = node_name s1 q) as Nb.
  { intros q. etransitivity; [apply (node_name_insert s1 new)|].
    destruct (decide (q = new)) as [->|]; [|done]. unfold node_name. by rewrite Hon1. }
  rewrite read_slot_root.
  2: { intros q Hq. apply (node_name_dom s1 sb q (Nb q)). by apply split_dom. }
  cbn [mbind option_bind].
  destruct (write_new_root sb Lb (λ q, node_name_dom s1 sb q (Nb q))) as (sc & -> & Rc & Lc & Cc & Tc & Wc & Nc).
  cbn [mbind option_bind].
  assert (∀ q o, outers s1 !! q = Some o → ∃ o', outers sc !! q = Some o' ∧ NODENAME o' = NODENAME o) as Hq.
  { intros q o Ho. pose proof (Nc q) as E. rewrite Nb in E. unfold node_name in E. rewrite Ho in E.
    destruct (outers sc !! q) as [o'|]; [|done]. apply (inj Some) in E. by exists o'. }
  destruct (Hq _ _ Hoc1) as (oc' & Hoc' & Ec). destruct (Hq _ _ Hon1) as (on' & Hon' & En).
  destruct (upd_outer_spec sc cur (λ o, with_prefix o prefix) oc' Hoc' eq_refl) as [-> Rd].
  cbn [mbind option_bind]. set (sd := set_outers sc _) in *.
  assert (outers sd !! new = Some on') as Hond by (cbn; by rewrite lookup_insert_ne).
  destruct (upd_outer_spec sd new (λ n, with_down n (Some cur)) on' Hond eq_refl) as [-> Re].
  cbn [mbind option_bind]. set (se := set_outers sd _) in *.
  destruct (fo_level _ _ _ F u) as [Hlev _]; [intros q Hq'; by eapply place_live|].
  assert (links se = m') as El by exact Lc. rewrite El.
  assert (is_Some (m' !! cur)) as [nc Hnc].
  { rewrite Hcc. apply elem_of_dom. eapply tree_at_dom; [by eapply (level_at _ _ _ _ H)|]. by rewrite <- Hu. }
  rewrite (lone_root_run _ _ _ _ Hnc). cbn [mbind option_bind].
  set (m2 := <[cur := _]> m'). set (sf := set_links se m2).
  eexists. split; [done|].
  assert (∀ w, level_root sf w = if decide (w = Some new) then Some cur else level_root sc w) as Lf.
  { intros w. etransitivity; [apply (level_root_insert sd new)|].
    destruct (decide (w = Some new)); [done|]. etransitivity; [apply (level_root_insert sc cur)|].
    destruct (decide (w = Some cur)) as [->|]; [|done]. cbn. by rewrite Hoc'. }
  assert (∀ q, node_name sf q = if decide (q = cur) then Some prefix else node_name sc q) as Nf.
  { intros q. etransitivity; [apply (node_name_insert sd new)|].
    destruct (decide (q = new)) as [->|].
    - rewrite decide_False by done. unfold node_name. rewrite Hon'. done.
    - etransitivity; [apply (node_name_insert sc cur)|]. destruct (decide (q = cur)); [|done].
      rewrite name_start; [done|]. rewrite Ec, <- Hcur. by apply (fo_name _ _ _ F). }
  assert (∀ q, q ≠ cur → m2 !! q = m' !! q) as A2 by (intros; unfold m2; by rewrite lookup_insert_ne).
  assert (cur ∉ nodes (plug k (T c l new r))) as Hcn'.
  { pose proof (level_nodup _ _ _ _ H) as Hd. rewrite plug_perm in Hd. cbn in Hd.
    rewrite elem_of_plug. cbn. rewrite elem_of_app, elem_of_cons.
    rewrite NoDup_app, NoDup_app, NoDup_cons in Hd. set_solver. }
  assert (u ≠ Some new) as Hun by (intros Hc; by apply split_dom in Hc as [_ ?]).
  split; [split|].
  - change (level_root (inc_nodecount sf) u) with (level_root sf u).
    rewrite Lf, decide_False, Tc by done. eapply level_agree; [|exact Hl'].
    intros q Hq'. apply A2. by intros ->.
  - split; [done| |apply NoDup_singleton|].
    + cbn. unfold m2. by rewrite lookup_insert_eq.
    + intros a [= <-] Hc%list_elem_of_singleton. done.
  - intros q Q1 Q2. cbn. rewrite A2 by by intros ->. rewrite Hag, Hl1, lookup_insert_ne; try done.
    by rewrite <- Hu.
  - intros q Q1 Q2. change (node_name (inc_nodecount sf) q) with (node_name sf q).
    rewrite Nf, decide_False, Nc, Nb by done. unfold node_name. by rewrite Ho1, lookup_insert_ne.
  - exists prefix. change (node_name (inc_nodecount sf) cur) with (node_name sf cur).
    by rewrite Nf, decide_True.
  - exists (NODENAME on). change (node_name (inc_nodecount sf) new) with (node_name sf new).
    rewrite Nf, decide_False, Nc, Nb by done. unfold node_name. by rewrite Hon1.
  - intros w Hw. change (level_root (inc_nodecount sf) w) with (level_root sf w). rewrite Lf.
    destruct (decide (w = Some new)); [done|]. rewrite Wc by done.
    destruct w as [w|]; [|done]. cbn. rewrite Ho1, lookup_insert_ne by congruence. done.
  - split; [|cbn; by rewrite Cc].
    transitivity sa; [exact R1|]. transitivity sc; [by destruct Rc|].
    transitivity sd; [exact Rd|]. transitivity se; [exact Re|]. done.
Qed.

End SplitRun.
