(* ===== verification/NameGrow.v ===== *)
(** * Trees that grow

    [name_tree s lv own]: the invariant of the tree, its hash table and its
    node count. [extends]: a tree to which nodes with names, without data,
    have been added. Linking a new node ([link_node]) and splitting a node
    ([split_node]), as [dns_rbt_addnode] does them, hash table included,
    extend the tree. *)

From stdpp Require Import gmap.
From S2P Require Import Prelude Rdata Name Rbt RbtTree RbtLevel RbtAdd NameTree NameForest NameHash NameLink NameSplit NameReplace.

#[local] Open Scope nat_scope.

(** ** Names up to case *)

Lemma labels_ok_same ls1 ls2 : same_labels ls1 ls2 → labels_ok ls1 → labels_ok ls2.
Proof.
  intros Hs [Hsh Hr Hm]. pose proof (same_labels_length _ _ Hs) as [Hl He].
  assert (∀ i l2, ls2 !! i = Some l2 → ∃ l1, ls1 !! i = Some l1 ∧ length l1 = length l2) as Hi.
  { intros i l2 Hi. unfold same_labels in Hs. apply (f_equal (.!! i)) in Hs.
    rewrite !list_lookup_fmap, Hi in Hs. destruct (ls1 !! i) as [l1|]; [|done]. exists l1.
    split; [done|]. apply (inj Some) in Hs. by rewrite <- (lower_length l1), Hs, lower_length. }
  split.
  - apply Forall_lookup. intros i l2 (l1 & Hi1 & Hl1)%Hi. rewrite Forall_lookup in Hsh.
    rewrite <- Hl1. by eapply Hsh.
  - intros i (l1 & Hi1 & Hl1)%Hi. apply nil_length_inv in Hl1 as ->. rewrite <- Hl. by apply Hr.
  - by rewrite <- He.
Qed.

Lemma is_root_last_same ls1 ls2 : same_labels ls1 ls2 → is_root_last ls1 = is_root_last ls2.
Proof.
  unfold same_labels, is_root_last. intros H. apply (f_equal last) in H. rewrite !fmap_last in H.
  apply bool_decide_ext. destruct (last ls1) as [a|], (last ls2) as [b|]; try done.
  cbn in H. apply (inj Some) in H. apply (f_equal length) in H. rewrite !lower_length in H.
  destruct a, b; done.
Qed.

(** ** The table of a tree that changes *)

Lemma bucket_at_rest m m' start l :
  (∀ q, rest <$> m' !! q = rest <$> m !! q) → bucket_at m start l → bucket_at m' start l.
Proof.
  intros Hr. revert start. induction l as [|p l IH]; intros start; [done|].
  intros (-> & o & Ho & Hl). split; [done|]. specialize (Hr p). rewrite Ho in Hr.
  destruct (m' !! p) as [o'|]; [|done]. exists o'. split; [done|].
  apply (inj Some) in Hr. apply (f_equal snd) in Hr. cbn in Hr. rewrite Hr. by apply IH.
Qed.

Lemma table_rest s s' ps : same_rest s s' → table s ps → table s' ps.
Proof.
  intros [Hr Ht Hz] [Hp (bs & [Hs Hb Hd Hpl] & Hperm) Hh].
  assert (∀ q o', outers s' !! q = Some o' → ∃ o, outers s !! q = Some o ∧ hashval o = hashval o') as Hq.
  { intros q o' Ho'. specialize (Hr q). rewrite Ho' in Hr. destruct (outers s !! q) as [o|]; [|done].
    exists o. split; [done|]. apply (inj Some) in Hr. apply (f_equal (snd ∘ fst)) in Hr. by cbn in Hr. }
  split; rewrite ?Hz; [done| |].
  - exists bs. split; [|done]. rewrite Ht. split; [done| |done|].
    + eapply Forall2_impl; [exact Hb|]. intros a b. by apply bucket_at_rest.
    + intros i l p Hi Hl. destruct (Hpl i l p Hi Hl) as (o & Ho & Hi'). specialize (Hr p).
      rewrite Ho in Hr. destruct (outers s' !! p) as [o'|] eqn:Ho'; [|done].
      destruct (Hq _ _ Ho') as (o2 & E2 & Hv). exists o'. split; [done|]. rewrite <- Hv. congruence.
  - intros q o' (o & Ho & <-)%Hq. by eapply Hh.
Qed.

(** A node that is not in the table. *)
Lemma table_new s s' ps p o :
  table s ps → outers s' = <[p := o]> (outers s) → outers s !! p = None → (0 <= hashval o)%Z →
  hashtable s' = hashtable s → hashsize s' = hashsize s → table s' ps.
Proof.
  intros [Hp (bs & Hb & Hperm) Hh] Ho Hn Hv Ht Hz. split; rewrite ?Hz; [done| |].
  - exists bs. split; [|done]. rewrite Ht, Ho. eapply table_agree; [|done].
    intros q Hq. rewrite lookup_insert_ne; [done|]. intros ->.
    destruct (table_dom _ _ _ _ _ Hb Hq). congruence.
  - intros q o'. rewrite Ho, lookup_insert. destruct (decide (p = q)) as [<-|]; [|by apply Hh].
    intros E. apply (inj Some) in E. by subst.
Qed.

Lemma same_but_next_fmap {A} (f : outer → A) m m' q :
  (∀ o nx, f (with_hash o (hashval o) nx) = f o) → same_but_next m m' → f <$> m !! q = f <$> m' !! q.
Proof.
  intros Hf H. apply (f_equal (.!! q)) in H. rewrite !lookup_fmap in H. apply (f_equal (fmap f)) in H.
  rewrite <- !option_fmap_compose in H.
  assert (∀ o, (f ∘ unchained) o = f o) as E by (intros o; cbn; apply Hf).
  by rewrite !(option_fmap_ext (f ∘ unchained) f) in H.
Qed.

Lemma size_same {A} (f : outer → A) (m m' : gmap ptr outer) :
  (∀ q, f <$> m' !! q = f <$> m !! q) → size m' = size m.
Proof.
  intros Hr. rewrite <- !size_dom. f_equal. apply set_eq. intros q. rewrite !elem_of_dom.
  specialize (Hr q). destruct (m' !! q), (m !! q); done.
Qed.

(** What is in a node for the users of the tree. *)
Definition info (o : outer) : option nat * bool := (data o, find_callback o).

Lemma hash_node_keeps get_table rnd s ps p o n h :
  table s ps → p ∉ ps → outers s !! p = Some o → dns_name_fullhash rnd n = Some h → (0 <= h)%Z →
  ∃ s', hash_node get_table rnd s p n = Some s' ∧ table s' (p :: ps) ∧ links s' = links s ∧
    rbt_root s' = rbt_root s ∧ nodecount s' = nodecount s ∧
    (∀ q, shape <$> outers s' !! q = shape <$> outers s !! q) ∧
    (∀ q, info <$> outers s' !! q = info <$> outers s !! q) ∧
    (∀ q, hashval <$> outers s' !! q = if decide (q = p) then Some h else hashval <$> outers s !! q).
Proof.
  intros H Hp Ho Hn Hh.
  destruct (hash_node_spec get_table rnd s ps p o n h H Hp Ho Hn Hh) as (s' & nx & P & H' & L & R & C & S).
  assert (∀ A (f : outer → A), (∀ o nx, f (with_hash o (hashval o) nx) = f o) → ∀ q,
    f <$> outers s' !! q = if decide (q = p) then Some (f (with_hash o h nx)) else f <$> outers s !! q) as Hf.
  { intros A f E q. rewrite <- (same_but_next_fmap f _ _ q E S), lookup_insert.
    destruct (decide (p = q)) as [<-|]; [by rewrite decide_True|]. by rewrite decide_False by congruence. }
  exists s'. split_and!; try done.
  - intros q. rewrite Hf by done. destruct (decide (q = p)) as [->|]; [by rewrite Ho|done].
  - intros q. rewrite Hf by done. destruct (decide (q = p)) as [->|]; [by rewrite Ho|done].
  - by apply Hf.
Qed.

(** ** The invariant *)

Section Grow.
Context (isc_mem_get : store → option ptr) (Hfresh : ∀ m p, isc_mem_get m = Some p → m !! p = None).
Context (get_table : Z → bool) (rnd : list Z) (Hrnd : DNS_NAME_MAXWIRE < length rnd).

Record name_tree (s : dns_rbt) (lv : option ptr → tree) (own : ptr → list label) : Prop := NameTree {
  nt_forest : forest lv own s;
  nt_table : ∃ ps, table s ps ∧ ∀ p, p ∈ ps ↔ live lv p;
  nt_hash p M o : named lv own p M → outers s !! p = Some o →
    dns_name_fullhash rnd (name_of M) = Some (hashval o);
  nt_count : nodecount s = u32 (Z.of_nat (size (outers s))) }.

(** The nodes [X], with their names, are new. *)
Record extends (s : dns_rbt) (lv : option ptr → tree) (own : ptr → list label)
    (s' : dns_rbt) (lv' : option ptr → tree) (own' : ptr → list label)
    (X : list (ptr * list label)) : Prop := Extends {
  ex_named q M : named lv' own' q M ↔ named lv own q M ∨ (q, M) ∈ X;
  ex_new q M : (q, M) ∈ X → ¬ live lv q ∧ info <$> outers s' !! q = Some (None, false);
  ex_old q : live lv q → info <$> outers s' !! q = info <$> outers s !! q }.

Lemma extends_refl s lv own : extends s lv own s lv own [].
Proof.
  split; [|by intros q M ?%elem_of_nil|done]. intros q M. rewrite elem_of_nil. tauto.
Qed.

Lemma live_named s lv own q : forest lv own s → live lv q → ∃ M, named lv own q M.
Proof. intros F Hq. destruct (fo_named _ _ _ F q Hq) as (M & HM & _). by exists M. Qed.

Lemma extends_trans s lv own s1 lv1 own1 X1 s2 lv2 own2 X2 :
  forest lv own s → extends s lv own s1 lv1 own1 X1 → extends s1 lv1 own1 s2 lv2 own2 X2 →
  extends s lv own s2 lv2 own2 (X1 ++ X2).
Proof.
  intros F [N1 W1 O1] [N2 W2 O2].
  assert (∀ q, live lv q → live lv1 q) as Hl.
  { intros q (M & HM)%(live_named _ _ _ _ F). eapply named_live. apply N1. by left. }
  split.
  - intros q M. rewrite N2, N1, elem_of_app. tauto.
  - intros q M [Hq|Hq]%elem_of_app.
    + destruct (W1 q M Hq) as [Hn Hi]. split; [done|]. rewrite O2; [done|].
      eapply named_live. apply N1. by right.
    + destruct (W2 q M Hq) as [Hn Hi]. split; [|done]. intros Hc. by apply Hn, Hl.
  - intros q Hq. rewrite O2, O1; auto.
Qed.

(** *** Creating a node *)

Definition new_node (n : name) : outer :=
  Outer (ndata n) (length (ndata n)) (labels n) (absolute n) None None false 0 0 None.

Definition created (s : dns_rbt) (p : ptr) (n : name) : dns_rbt :=
  set_outers (set_links s (<[p := Node None None None false false]> (links s)))
             (<[p := new_node n]> (outers s)).

Lemma new_node_name n : NODENAME (new_node n) = n.
Proof. destruct n as [d k a]. unfold NODENAME. cbn. by rewrite firstn_all. Qed.

Lemma create_node_spec s n A :
  name_repr n A → A ≠ [] →
  create_node isc_mem_get s n =
    Some (match isc_mem_get (links s) with None => (s, None) | Some p => (created s p n, Some p) end).
Proof.
  intros Hn HA. unfold create_node. rewrite bool_decide_true.
  - by destruct (isc_mem_get (links s)).
  - rewrite (nr_labels _ _ Hn). destruct A; [done|cbn; apply Nat.lt_0_succ].
Qed.

Lemma fresh_node s lv own p : forest lv own s → isc_mem_get (links s) = Some p → outers s !! p = None.
Proof.
  intros F Hp. apply eq_None_not_Some. rewrite <- (fo_links _ _ _ F p), (Hfresh _ _ Hp).
  apply is_Some_None.
Qed.

(** *** Hashing the new node *)

Lemma same_rest_size s s' : same_rest s s' → size (outers s') = size (outers s).
Proof. intros [Hr _ _]. by apply (size_same rest). Qed.

Lemma same_rest_info s s' q : same_rest s s' → info <$> outers s' !! q = info <$> outers s !! q.
Proof.
  intros [Hr _ _]. specialize (Hr q). destruct (outers s' !! q) as [o'|], (outers s !! q) as [o|]; try done.
  apply (inj Some) in Hr. unfold rest in Hr. cbn. unfold info. by injection Hr as -> -> _ _.
Qed.

Lemma same_rest_hash s s' q : same_rest s s' → hashval <$> outers s' !! q = hashval <$> outers s !! q.
Proof.
  intros [Hr _ _]. specialize (Hr q). destruct (outers s' !! q) as [o'|], (outers s !! q) as [o|]; try done.
  apply (inj Some) in Hr. unfold rest in Hr. cbn. by injection Hr as _ _ -> _.
Qed.

Lemma hash_new s lv own p n0 s0 lv' own' M0 n N :
  name_tree s lv own → outers s !! p = None → same_rest (created s p n0) s0 →
  nodecount s0 = u32 (nodecount s + 1) → forest lv' own' s0 →
  (∀ q M, named lv' own' q M ↔ named lv own q M ∨ (q = p ∧ M = M0)) →
  name_repr n N → same_labels N M0 →
  ∃ s', hash_node get_table rnd s0 p n = Some s' ∧ name_tree s' lv' own' ∧
    extends s lv own s' lv' own' [(p, M0)].
Proof.
  intros [F (ps & Htab & Hps) Hhash Hcount] Hp Hsr Hc0 F0 Hnamed Hn Hsame.
  assert (¬ live lv p) as Hlp by (intros Hc; apply (fo_dom _ _ _ F) in Hc; rewrite Hp in Hc; by destruct Hc).
  assert (table s0 ps) as Htab0.
  { eapply table_rest; [done|]. by eapply (table_new s _ ps p (new_node n0)). }
  assert (is_Some (outers s0 !! p)) as [o0 Ho0].
  { destruct Hsr as [Hr _ _]. specialize (Hr p). cbn in Hr. rewrite lookup_insert_eq in Hr.
    by destruct (outers s0 !! p). }
  destruct (fullhash_total rnd Hrnd n N Hn) as (h & Hh & Hh0).
  destruct (hash_node_keeps get_table rnd s0 ps p o0 n h Htab0) as (s' & P & T' & L' & R' & C' & S' & I' & H');
    try done; [by rewrite Hps|].
  assert (∀ q, live lv' q ↔ live lv q ∨ q = p) as Hlive.
  { intros q. split.
    - intros (M & HM)%(live_named _ _ _ _ F0). apply Hnamed in HM as [HM|[-> _]]; [|by right].
      left. by eapply named_live.
    - intros [(M & HM)%(live_named _ _ _ _ F)| ->]; eapply named_live; apply Hnamed; [by left|by right]. }
  assert (labels_ok M0) as HokM by (eapply labels_ok_same; [done|by eapply nr_ok]).
  assert (∀ q, info <$> outers s' !! q = if decide (q = p) then Some (None, false) else info <$> outers s !! q) as Hinfo.
  { intros q. rewrite I', (same_rest_info _ _ q Hsr). cbn. rewrite lookup_insert.
    destruct (decide (p = q)) as [<-|]; [by rewrite decide_True|]. by rewrite decide_False by congruence. }
  exists s'. split; [done|]. split; split.
  - by eapply forest_shape.
  - exists (p :: ps). split; [done|]. intros q. rewrite elem_of_cons, Hlive, Hps. tauto.
  - intros q M o HM Ho. specialize (H' q). rewrite Ho in H'. destruct (decide (q = p)) as [->|Hq].
    + apply Hnamed in HM as [HM|[_ ->]]; [by apply named_live in HM|]. apply (inj Some) in H'. rewrite H'.
      rewrite <- Hh. symmetry. eapply fullhash_same; [done|by apply name_of_repr|done].
    + apply Hnamed in HM as [HM|[? _]]; [|done]. rewrite (same_rest_hash _ _ q Hsr) in H'. cbn in H'.
      rewrite lookup_insert_ne in H' by done. destruct (outers s !! q) as [o1|] eqn:Ho1; [|done].
      apply (inj Some) in H'. rewrite H'. by eapply Hhash.
  - rewrite C', Hc0, Hcount. assert (size (outers s') = S (size (outers s))) as ->.
    { rewrite (size_same shape _ _ S'), (same_rest_size _ _ Hsr). by apply map_size_insert_None. }
    unfold u32. rewrite Nat2Z.inj_succ. rewrite <- Zplus_mod_idemp_l at 1. rewrite Z.add_1_r at 1.
    rewrite Zmod_mod. dlia.
  - intros q M. rewrite Hnamed, list_elem_of_singleton. split; intros [?|E]; auto.
    + destruct E as [-> ->]. by right.
    + right. by simplify_eq.
  - intros q M E%list_elem_of_singleton. simplify_eq. split; [done|]. by rewrite Hinfo, decide_True.
  - intros q Hq. rewrite Hinfo, decide_False; [done|]. by intros ->.
Qed.

(** *** Linking a node *)

Definition side_of (order : Z) : side := if bool_decide (order < 0)%Z then Lft else Rgt.

(** Where the loop of [dns_rbt_addnode] may link a node for the labels [A]:
    below [cur], or next to it in its level. *)
Record link_place (s : dns_rbt) lv own (cur : ptr) (A : list label) (order : Z) (u : option ptr)
    (U : list label) : Prop := LinkPlace {
  lp_place : place lv own u U;
  lp_some : A ≠ [];
  lp_abs : is_root_last A = bool_decide (u = None);
  lp_ok : labels_ok (A ++ U);
  lp_spot : (u = Some cur ∧ lv u = E) ∨
    ∃ l1 l2 cn, nodes (lv u) = l1 ++ cur :: l2 ∧ links s !! cur = Some cn ∧
      child (side_of order) cn = None ∧
      fits lv own u A (if bool_decide (order < 0)%Z then l1 else l1 ++ [cur])
                      (if bool_decide (order < 0)%Z then cur :: l2 else l2) }.

Definition link_run (s : dns_rbt) (p cur : ptr) (order : Z) (x : slot) (n : name) : option dns_rbt :=
  root ← read_slot s x;
  '(m, root) ← dns_rbt_addonlevel (links s) p cur order root;
  s ← write_slot (set_links s m) x root;
  hash_node get_table rnd (inc_nodecount s) p n.

(** The level with the new node. *)
Lemma link_level s lv own cur A order u U p n0 :
  forest lv own s → link_place s lv own cur A order u U → outers s !! p = None →
  ∃ m t l1 l2 k, dns_rbt_addonlevel (links (created s p n0)) p cur order (level_root s u) = Some (m, top t) ∧
    level m (top t) u t ∧ rbt t k ∧ color t = false ∧ nodes t = l1 ++ p :: l2 ∧ fits lv own u A l1 l2 ∧
    ∀ q, q ≠ p → q ∉ nodes (lv u) → m !! q = links s !! q.
Proof.
  intros F [HU HA Habs Hok Hspot] Hp.
  assert (∀ v, p ∉ nodes (lv v)) as Hpn.
  { intros v Hc. assert (live lv p) as Hl by by exists v. apply (fo_dom _ _ _ F) in Hl.
    rewrite Hp in Hl. by destruct Hl. }
  assert (∀ q, u = Some q → live lv q) as Hu by (intros; by eapply place_live).
  assert (u ≠ Some p) as Hup by (intros Hc; destruct (Hu p Hc) as [v Hv]; by apply (Hpn v)).
  destruct (fo_level _ _ _ F u Hu) as [Hlev (k & Hr & Hc)].
  assert (links (created s p n0) !! p = Some (Node None None None false false)) as Hnew
    by (cbn; by rewrite lookup_insert_eq).
  assert (∀ q, q ≠ p → links (created s p n0) !! q = links s !! q) as Hag
    by (intros; cbn; by rewrite lookup_insert_ne).
  destruct Hspot as [[Eu HE]|(l1 & l2 & cn & Hn & Hcn & Hch & Hfit)].
  - pose proof (RbtLevel.level_root _ _ _ _ Hlev) as Hroot. rewrite HE in Hroot. cbn in Hroot.
    rewrite Hroot, (addonlevel_empty _ _ _ _ _ Hnew). eexists _, (T false E p E), [], [], 1.
    split_and!; try done.
    + split; [done| |apply NoDup_singleton|].
      * cbn. rewrite lookup_insert_eq, Eu. done.
      * intros q Hq Hc'%list_elem_of_singleton. congruence.
    + by repeat constructor.
    + split; [by rewrite HE|intros q Hq; by apply elem_of_nil in Hq..].
    + intros q Hq _. rewrite lookup_insert_ne by done. by apply Hag.
  - assert (cur ≠ p) as Hcp.
    { intros ->. apply (Hpn u). rewrite Hn. set_solver. }
    destruct (addonlevel_level (links (created s p n0)) (level_root s u) u (lv u) k p cur order false cn l1 l2)
      as (m & root & t & k' & P & Hl & Hr' & Hc' & Hn' & Hf); try done.
    + eapply level_agree; [|done]. intros q Hq. apply Hag. intros ->. by apply (Hpn u).
    + by rewrite Hag.
    + pose proof (RbtLevel.level_root _ _ _ _ Hl) as ->.
      exists m, t, (if bool_decide (order < 0)%Z then l1 else l1 ++ [cur]),
        (if bool_decide (order < 0)%Z then cur :: l2 else l2), k'.
      split_and!; try done.
      * rewrite Hn'. case_bool_decide; [done|]. by rewrite <- app_assoc.
      * intros q Q1 Q2. rewrite Hf by done. by apply Hag.
Qed.

Lemma link_node s lv own cur A order u U p an n N :
  name_tree s lv own → link_place s lv own cur A order u U → isc_mem_get (links s) = Some p →
  name_repr an A → name_repr n N → same_labels N (A ++ U) →
  ∃ s' lv' own', link_run (created s p an) p cur order (slot_of u) n = Some s' ∧
    name_tree s' lv' own' ∧ extends s lv own s' lv' own' [(p, A ++ U)].
Proof.
  intros HT Hlp Hmem Han Hn Hsame. pose proof (nt_forest _ _ _ HT) as F.
  pose proof (fresh_node _ _ _ _ F Hmem) as Hp.
  destruct (link_level _ _ _ _ _ _ _ _ _ an F Hlp Hp) as (m & t & l1 & l2 & k & P & Hl & Hr & Hc & Ht & Hfit & Hf).
  destruct Hlp as [HU HA Habs Hok _].
  assert (∀ q, u = Some q → is_Some (outers (created s p an) !! q) ∧ q ≠ p) as Hu.
  { intros q Hq. assert (live lv q) as Hl' by by eapply place_live. apply (fo_dom _ _ _ F) in Hl'.
    assert (q ≠ p) by (intros ->; rewrite Hp in Hl'; by destruct Hl'). split; [|done].
    cbn. by rewrite lookup_insert_ne. }
  assert (∀ v, level_root (created s p an) v = if decide (v = Some p) then None else level_root s v) as Hlr.
  { intros v. etransitivity; [apply (level_root_insert (set_links s _) p)|]. done. }
  assert (level_root (created s p an) u = level_root s u) as Hru.
  { rewrite Hlr, decide_False; [done|]. intros E. by apply Hu in E as [_ ?]. }
  unfold link_run. rewrite read_slot_root by (intros q Hq; by apply Hu). cbn [mbind option_bind].
  rewrite Hru, P. cbn [mbind option_bind].
  destruct (write_slot_root (set_links (created s p an) m) u (top t)) as (s1 & -> & R1 & L1 & C1 & Hlr1 & Hn1).
  { intros q Hq. by apply Hu. }
  cbn [mbind option_bind].
  assert (same_rest (created s p an) (inc_nodecount s1)) as Hsr by (destruct R1; by split).
  assert (∀ q, node_name (inc_nodecount s1) q = if decide (q = p) then Some an else node_name s q) as Hnames.
  { intros q. etransitivity; [apply Hn1|]. etransitivity; [apply (node_name_insert (set_links s _) p)|].
    destruct (decide (q = p)); [|done]. by rewrite new_node_name. }
  destruct (hash_new s lv own p an (inc_nodecount s1) (link_lv lv u t) (link_own own p A) (A ++ U) n N)
    as (s' & P' & HT' & HX); try done.
  - cbn. by rewrite C1.
  - eapply (forest_link lv own s F u U HU p Hp A t l1 l2 Ht Hfit _ k); try done.
    + change (level_root (inc_nodecount s1) u) with (level_root s1 u). cbn [links inc_nodecount set_nodecount].
      by rewrite L1, Hlr1, decide_True.
    + cbn [links inc_nodecount set_nodecount]. rewrite L1. done.
    + intros q Hq. by rewrite Hnames, decide_False.
    + exists an. by rewrite Hnames, decide_True.
    + intros v Hv. etransitivity; [apply Hlr1|]. rewrite decide_False by done. apply Hlr.
  - intros q M. by apply (link_named lv own s F u U HU p Hp A t l1 l2 Ht Hfit).
  - by exists s', (link_lv lv u t), (link_own own p A).
Qed.

(** *** Splitting a node *)

Lemma split_node s lv own u U k c l r cur P Q new sx prefix n N :
  name_tree s lv own → place lv own u U → lv u = plug k (T c l cur r) →
  own cur = P ++ Q → P ≠ [] → Q ≠ [] → isc_mem_get (links s) = Some new →
  name_repr sx Q → name_repr prefix P → name_repr n N → same_labels N (Q ++ U) →
  ∃ s2 s', split_current (created s new sx) (inner_parent k) (slot_of u) cur new prefix = Some s2 ∧
    hash_node get_table rnd s2 new n = Some s' ∧
    name_tree s' (split_lv lv u k c l r cur new) (split_own own cur P Q new) ∧
    extends s lv own s' (split_lv lv u k c l r cur new) (split_own own cur P Q new) [(new, Q ++ U)].
Proof.
  intros HT HU Hu Hcur HP HQ Hmem Hsx Hpre Hn Hsame. pose proof (nt_forest _ _ _ HT) as F.
  pose proof (fresh_node _ _ _ _ F Hmem) as Hnew.
  destruct (split_current_run lv own s F u U HU k c l r cur Hu P Q Hcur HP HQ new Hnew
    (created s new sx) (new_node sx) prefix) as (s2 & Hrun & Hst & Hsr & Hcount); try done.
  { by rewrite new_node_name. }
  pose proof (forest_split lv own s F u U HU k c l r cur Hu P Q Hcur HP HQ new Hnew s2 Hst) as F2.
  destruct (hash_new s lv own new sx s2 _ _ (Q ++ U) n N HT Hnew Hsr Hcount F2) as (s' & Hh & HT' & HX).
  - intros q M. by apply (split_named lv own s F u U HU k c l r cur Hu P Q Hcur HP HQ new Hnew).
  - done.
  - done.
  - by exists s2, s'.
Qed.

End Grow.
