(* ===== verification/NameAdd.v ===== *)
(** * Adding a name

    [dns_rbt_addnode] of [lib/dns/rbt.c]: the search through the levels ends
    at the node of the name, or where a node is to be linked, or where a node
    must be split; afterwards the tree holds the names it held before and the
    new name, and at most one name above it that it was split at. *)

From stdpp Require Import gmap.
From S2P Require Import Prelude Rdata Name Rbt RbtTree RbtLevel RbtAdd NameTree NameForest NameHash NameLink NameSplit NameReplace NameGrow.

#[local] Open Scope nat_scope.

(** ** Parts of names *)

Lemma lexcmp_lt_trans a b c : (lexcmp a b < 0 → lexcmp b c < 0 → lexcmp a c < 0)%Z.
Proof.
  intros H1 H2. pose proof (lexcmp_trans a b c ltac:(lia) ltac:(lia)) as H3.
  destruct (decide (lexcmp a c = 0%Z)) as [E|]; [|lia]. apply lexcmp_eq in E as ->.
  rewrite lexcmp_opp in H2. lia.
Qed.

Lemma split_prefix_repr n S T :
  name_repr n (S ++ T) → S ≠ [] → T ≠ [] →
  ∃ p, split_prefix n (length T) = Some p ∧ name_repr p S.
Proof.
  intros Hn HS HT. assert (0 < length S ∧ 0 < length T) as [LS LT] by (destruct S, T; cbn; try done; lia).
  unfold split_prefix. rewrite (nr_labels _ _ Hn), length_app, bool_decide_true by lia.
  destruct (getlabelsequence_repr n _ 0 (length S + length T - length T) Hn) as [-> Hok].
  { rewrite length_app. lia. }
  rewrite drop_0 in *. replace (length S + length T - length T) with (length S) in * by lia.
  rewrite take_app_length in *. eexists. split; [done|]. by apply name_of_repr.
Qed.

Lemma split_suffix_repr n S T :
  name_repr n (S ++ T) → S ≠ [] → T ≠ [] →
  ∃ p, split_suffix n (length T) = Some p ∧ name_repr p T.
Proof.
  intros Hn HS HT. assert (0 < length S ∧ 0 < length T) as [LS LT] by (destruct S, T; cbn; try done; lia).
  unfold split_suffix. rewrite (nr_labels _ _ Hn), length_app, bool_decide_true by lia.
  destruct (getlabelsequence_repr n _ (length S + length T - length T) (length T) Hn) as [-> Hok].
  { rewrite length_app. lia. }
  replace (length S + length T - length T) with (length S) in * by lia.
  rewrite drop_app_length, take_ge in * by done. eexists. split; [done|]. by apply name_of_repr.
Qed.

Lemma last_labels_repr n S T :
  name_repr n (S ++ T) →
  ∃ p, dns_name_getlabelsequence n (labels n - length T) (length T) = Some p ∧ name_repr p T.
Proof.
  intros Hn. rewrite (nr_labels _ _ Hn), length_app.
  destruct (getlabelsequence_repr n _ (length S + length T - length T) (length T) Hn) as [-> Hok].
  { rewrite length_app. lia. }
  replace (length S + length T - length T) with (length S) in * by lia.
  rewrite drop_app_length, take_ge in * by done. eexists. split; [done|]. by apply name_of_repr.
Qed.

Lemma labels_ok_length ls : labels_ok ls → length ls <= 128.
Proof.
  intros Hok. pose proof (enc_labels_length ls (lo_root _ Hok)). pose proof (lo_max _ Hok).
  unfold DNS_NAME_MAXWIRE in *. lia.
Qed.

Section Add.
Context (isc_mem_get : store → option ptr) (Hfresh : ∀ m p, isc_mem_get m = Some p → m !! p = None).
Context (get_table : Z → bool) (rnd : list Z) (Hrnd : DNS_NAME_MAXWIRE < length rnd).

#[local] Abbreviation name_tree := (name_tree rnd).

(** ** Where the search is *)

Section Level.
Context (s : dns_rbt) (lv : option ptr → tree) (own : ptr → list label) (F : forest lv own s).

(** The name fits in the hole of the path. *)
Record around (k : path) (A : list label) : Prop := Around {
  ar_before q : q ∈ before_hole k → (lexcmp (toplabel (own q)) (toplabel A) < 0)%Z;
  ar_after q : q ∈ after_hole k → (lexcmp (toplabel A) (toplabel (own q)) < 0)%Z }.

Lemma around_left u k c l cur r A :
  lv u = plug k (T c l cur r) → around k A → (lexcmp (toplabel A) (toplabel (own cur)) < 0)%Z →
  around (Frame Lft c cur r :: k) A.
Proof.
  intros Hu [Hb Ha] Hlt. split; [done|]. cbn. intros q.
  rewrite elem_of_cons, elem_of_app. intros [->|[Hq|Hq]]; [done| |by apply Ha].
  pose proof (fo_order _ _ _ F u) as Ho. rewrite Hu, plug_nodes in Ho. cbn in Ho.
  apply StronglySorted_app in Ho as (_ & _ & Ho). apply StronglySorted_app in Ho as (_ & Ho & _).
  apply StronglySorted_app in Ho as (_ & _ & Ho). apply StronglySorted_cons in Ho as [Ho _].
  rewrite Forall_forall in Ho. eapply lexcmp_lt_trans; [exact Hlt|]. by apply Ho.
Qed.

Lemma around_right u k c l cur r A :
  lv u = plug k (T c l cur r) → around k A → (lexcmp (toplabel (own cur)) (toplabel A) < 0)%Z →
  around (Frame Rgt c cur l :: k) A.
Proof.
  intros Hu [Hb Ha] Hlt. split; [|done]. cbn. intros q.
  rewrite !elem_of_app, list_elem_of_singleton. intros [Hq|[Hq| ->]]; [by apply Hb| |done].
  pose proof (fo_order _ _ _ F u) as Ho. rewrite Hu, plug_nodes in Ho. cbn in Ho.
  apply StronglySorted_app in Ho as (_ & _ & Ho). apply StronglySorted_app in Ho as (_ & Ho & _).
  apply StronglySorted_app in Ho as (Ho & _ & _).
  eapply lexcmp_lt_trans; [|exact Hlt]. apply (Ho q cur Hq). set_solver.
Qed.

Lemma fits_left u k c cur r A :
  lv u = plug k (T c E cur r) → around (Frame Lft c cur r :: k) A →
  nodes (lv u) = before_hole k ++ cur :: nodes r ++ after_hole k ∧
  fits lv own u A (before_hole k) (cur :: nodes r ++ after_hole k).
Proof.
  intros Hu [Hb Ha]. assert (nodes (lv u) = before_hole k ++ cur :: nodes r ++ after_hole k) as Hn.
  { rewrite Hu, plug_nodes. cbn. done. }
  split; [done|]. by split.
Qed.

Lemma fits_right u k c cur l A :
  lv u = plug k (T c l cur E) → around (Frame Rgt c cur l :: k) A →
  nodes (lv u) = (before_hole k ++ nodes l) ++ cur :: after_hole k ∧
  fits lv own u A ((before_hole k ++ nodes l) ++ [cur]) (after_hole k).
Proof.
  intros Hu [Hb Ha]. assert (nodes (lv u) = (before_hole k ++ nodes l) ++ cur :: after_hole k) as Hn.
  { rewrite Hu, plug_nodes. cbn. by rewrite <- !app_assoc. }
  split; [done|]. cbn in Hb. rewrite app_assoc in Hb. split; [|done..]. rewrite Hn. by rewrite <- !app_assoc.
Qed.

(** No node has the name, up to case. *)
Definition absent (N : list label) : Prop := ∀ q M, named lv own q M → ¬ same_labels M N.

Lemma link_absent cur A order u U N :
  link_place s lv own cur A order u U → same_labels N (A ++ U) → absent N.
Proof.
  intros [HU HA _ _ Hspot] Hs q M HM Hc. rewrite Hs in Hc.
  destruct (named_under_place lv own s F q M u U A HM HU Hc HA) as (X & HX & HXA).
  destruct (under_top lv own s F u X q A HX HXA) as (a & Ha & Ht & _).
  destruct Hspot as [[_ HE]|(l1 & l2 & cn & _ & _ & _ & [Hl Hb Haf])].
  - rewrite HE in Ha. by apply elem_of_nil in Ha.
  - rewrite Hl in Ha. apply elem_of_app in Ha as [Ha|Ha].
    + apply Hb in Ha. rewrite Ht, lexcmp_refl in Ha. lia.
    + apply Haf in Ha. rewrite Ht, lexcmp_refl in Ha. lia.
Qed.

Lemma split_absent cur u U S1 T1 S2 T2 N :
  place lv own u U → cur ∈ nodes (lv u) → own cur = S2 ++ T2 → same_labels T1 T2 →
  S2 ≠ [] → T2 ≠ [] → (S1 ≠ [] → toplabel S1 ≠ toplabel S2) →
  same_labels N ((S1 ++ T1) ++ U) → absent N.
Proof.
  intros HU Hcur Ho Hs HS2 HT2 Htop HN q M HM Hc. rewrite HN in Hc.
  pose proof (same_labels_length _ _ Hs) as [Hl _].
  assert (T1 ≠ []) as HT1 by (destruct T1, T2; done).
  destruct (named_under_place lv own s F q M u U (S1 ++ T1) HM HU Hc) as (X & HX & HXA).
  { intros Hn. by apply app_nil in Hn as [_ ?]. }
  destruct (under_top lv own s F u X q _ HX HXA) as (a & Ha & Ht & Hcase).
  assert (a = cur) as ->.
  { eapply top_unique; [done..|]. rewrite Ht, Ho, !toplabel_app by done. by apply toplabel_same. }
  rewrite Ho in Hcase.
  assert (∀ B, same_labels (S2 ++ T2) (B ++ T1) → same_labels S2 B) as Hcut.
  { intros B HB. by apply same_labels_app_inv in HB as [? _]. }
  destruct Hcase as [[_ Hsame]|(Y & B1 & B2 & _ & Heq & _ & H2)].
  - apply Hcut in Hsame. apply Htop; [|symmetry; by apply toplabel_same].
    apply same_labels_length in Hsame as [Hlen _]. by destruct S1, S2.
  - pose proof (same_labels_length _ _ H2) as [Hlen _]. rewrite length_app in Hlen.
    assert (∃ B, S1 = B1 ++ B ∧ B2 = B ++ T1) as (B & -> & ->).
    { exists (drop (length B1) S1).
      assert (length B1 <= length S1).
      { apply (f_equal length) in Heq. rewrite !length_app in Heq. lia. }
      apply (f_equal (λ l, (take (length B1) l, drop (length B1) l))) in Heq.
      rewrite take_app_length, drop_app_length in Heq. injection Heq as E1 E2.
      rewrite take_app_le in E1 by done. rewrite drop_app_le in E2 by done.
      rewrite <- E1 at 1. by rewrite take_drop, E2. }
    symmetry in H2. apply Hcut in H2.
    assert (B ≠ []) as HB.
    { apply same_labels_length in H2 as [Hlen2 _]. by destruct B, S2. }
    apply Htop.
    + intros Hc0. apply app_nil in Hc0 as [_ ?]. done.
    + rewrite toplabel_app by done. symmetry. by apply toplabel_same.
Qed.

End Level.

(** ** The loop *)

(** The labels [A] are sought at [cur], the root of the subtree [t] in the
    level below [u]. *)
Record searching (s : dns_rbt) lv own (N : list label) (an : name) (A : list label)
    (u : option ptr) (U : list label) (k : path) (t : tree) (cur : ptr) (hlabels level_count : nat) : Prop :=
  Searching {
    se_place : place lv own u U;
    se_level : lv u = plug k t;
    se_cur : top t = Some cur;
    se_name : name_repr an A;
    se_some : A ≠ [];
    se_abs : is_root_last A = bool_decide (u = None);
    se_all : ∃ V, N = A ++ V ∧ same_labels V U;
    se_hlabels : hlabels = length U;
    se_count : level_count <= length U;
    se_around : around own k A }.

(** What the loop may end with. *)
Definition exits (s : dns_rbt) lv own (N : list label) (e : add_exit) : Prop :=
  match e with
  | AddDone s' ISC_R_EXISTS (Some p) => s' = s ∧ ∃ M, named lv own p M ∧ same_labels M N
  | AddDone s' ISC_R_NOMEMORY None => s' = s ∧ absent lv own N
  | AddDone s' ISC_R_SUCCESS (Some p) =>
      ∃ lv' own' M, name_tree s' lv' own' ∧ extends s lv own s' lv' own' [(p, M)] ∧
        same_labels M N ∧ absent lv own N
  | AddLink s' cur an order x =>
      ∃ lv' own' X u U A, name_tree s' lv' own' ∧ extends s lv own s' lv' own' X ∧ x = slot_of u ∧
        link_place s' lv' own' cur A order u U ∧ name_repr an A ∧ same_labels N (A ++ U) ∧
        (X = [] ∨ ∃ q M, X = [(q, M)] ∧ below N M)
  | _ => False
  end.

Section Round.
Context (s : dns_rbt) (lv : option ptr → tree) (own : ptr → list label) (HT : name_tree s lv own).
Context (n : name) (N : list label) (Hn : name_repr n N).

Let F : forest lv own s := nt_forest _ _ _ _ HT.

Lemma search_node an A u U k t cur h lc :
  searching s lv own N an A u U k t cur h lc →
  ∃ c l r o, t = T c l cur r ∧ outers s !! cur = Some o ∧
    links s !! cur = Some (Node (top l) (top r) (parent_of k u) c (is_top k)) ∧
    cur ∈ nodes (lv u) ∧ name_repr (NODENAME o) (own cur) ∧ own cur ≠ [] ∧
    dns_name_fullcompare an (NODENAME o) = Some (labels_compare A (own cur)).
Proof.
  intros [HU Hlv Htop Han HA Habs _ _ _ _]. destruct t as [|c l x r]; [done|]. injection Htop as ->.
  destruct (fo_level _ _ _ F u) as [H _]; [intros; by eapply place_live|].
  rewrite Hlv in H. destruct (level_hole _ _ _ _ _ H) as [_ _ (Mc & _) _ _ _].
  assert (cur ∈ nodes (lv u)) as Hin by (rewrite Hlv, plug_nodes; cbn; set_solver).
  destruct (proj1 (fo_dom _ _ _ F cur) ltac:(by exists u)) as [o Ho].
  destruct (fo_name _ _ _ F _ _ Ho) as [Hrep Hne].
  exists c, l, r, o. split_and!; try done. apply fullcompare_labels; [done..|].
  rewrite Habs. symmetry. by apply (fo_abs _ _ _ F).
Qed.

Lemma search_absent_names an A u U k t cur h lc :
  searching s lv own N an A u U k t cur h lc → same_labels N (A ++ U) ∧ labels_ok (A ++ U).
Proof.
  intros H. destruct (se_all _ _ _ _ _ _ _ _ _ _ _ _ _ H) as (V & HN & HV).
  assert (same_labels N (A ++ U)) as Hs by (rewrite HN; by apply same_labels_app).
  split; [done|]. eapply labels_ok_same; [done|]. by apply (nr_ok _ _ Hn).
Qed.

(** No common label: the search goes on in the level, or a node is linked. *)
Lemma round_none an A u U k c l r cur h lc order :
  searching s lv own N an A u U k (T c l cur r) cur h lc →
  Z.sgn order = lexcmp (toplabel A) (toplabel (own cur)) → toplabel A ≠ toplabel (own cur) →
  let d := side_of order in
  let ch := match d with Lft => l | Rgt => r end in
  let k' := Frame d c cur (match d with Lft => r | Rgt => l end) :: k in
  (order < 0 ∨ order > 0)%Z ∧
  match top ch with
  | None => exits s lv own N (AddLink s cur an order (slot_of u))
  | Some x => searching s lv own N an A u U k' ch x h lc
  end.
Proof.
  intros H Hsgn Hne d ch k'.
  assert (lexcmp (toplabel A) (toplabel (own cur)) ≠ 0)%Z as Hnz by (intros E; by apply lexcmp_eq in E).
  destruct (search_absent_names _ _ _ _ _ _ _ _ _ H) as [Hsame Hok].
  destruct H as [HU Hlv Htop Han HA Habs Hall Hh Hlc Har].
  assert (plug k' ch = plug k (T c l cur r)) as Hplug by (subst d ch k'; by destruct (side_of order)).
  assert (around own k' A) as Har'.
  { subst d ch k'. unfold side_of.
    destruct (decide (order < 0)%Z); [rewrite bool_decide_true by done|rewrite bool_decide_false by done].
    - eapply around_left; [done|done|done|lia].
    - eapply around_right; [done..|]. rewrite lexcmp_opp. lia. }
  split; [lia|]. destruct (top ch) as [x|] eqn:Hx.
  { split; try done. by rewrite Hplug. }
  assert (ch = E) as Hch by by destruct ch.
  exists lv, own, [], u, U, A. split_and!; try done; [apply extends_refl| |by left].
  split; try done. right.
  destruct (fo_level _ _ _ F u) as [Hl _]; [intros; by eapply place_live|].
  rewrite Hlv in Hl. destruct (level_hole _ _ _ _ _ Hl) as [_ _ (Mc & _) _ _ _].
  subst ch k' d. unfold side_of in *. destruct (bool_decide (order < 0)%Z) eqn:Hd; subst.
  - destruct (fits_left _ _ _ _ _ _ _ _ Hlv Har') as [Hnodes Hfit].
    eexists _, _, _. split_and!; [exact Hnodes|exact Mc|done|exact Hfit].
  - destruct (fits_right _ _ _ _ _ _ _ _ Hlv Har') as [Hnodes Hfit].
    eexists _, _, _. split_and!; [exact Hnodes|exact Mc|done|exact Hfit].
Qed.

(** The whole name of the node: down a level. *)
Lemma round_down an A u U k c l r cur h lc S1 T1 T2 :
  searching s lv own N an A u U k (T c l cur r) cur h lc →
  A = S1 ++ T1 → own cur = T2 → same_labels T1 T2 → S1 ≠ [] → T2 ≠ [] →
  ∃ an', split_prefix an (length T1) = Some an' ∧ lc < DNS_RBT_LEVELBLOCK ∧
    (∀ order, lv (Some cur) = E → exits s lv own N (AddLink s cur an' order (DOWN cur))) ∧
    (∀ x, top (lv (Some cur)) = Some x →
       searching s lv own N an' S1 (Some cur) (own cur ++ U) [] (lv (Some cur)) x (h + length T1) (S lc)).
Proof.
  intros H -> Ho Hs HS1 HT2. destruct (search_absent_names _ _ _ _ _ _ _ _ _ H) as [Hsame Hok].
  pose proof (search_node _ _ _ _ _ _ _ _ _ H) as (? & ? & ? & o & [= <- <- <-] & _ & _ & Hin & _).
  destruct H as [HU Hlv Htop Han HA Habs (V & HN & HV) Hh Hlc Har].
  pose proof (same_labels_length _ _ Hs) as [Hl _].
  assert (T1 ≠ []) as HT1 by (destruct T1, T2; done).
  destruct (split_prefix_repr an S1 T1 Han HS1 HT1) as (an' & P & Hrep).
  exists an'. split; [done|].
  assert (place lv own (Some cur) (own cur ++ U)) as HU' by by eapply named_place.
  assert (is_root_last S1 = false) as Hroot.
  { rewrite (is_root_last_part [] S1 (T1 ++ V)); [|rewrite HN, <- app_assoc in Hn; apply (nr_ok _ _ Hn)].
    rewrite bool_decide_false; [done|]. intros [Hc _]. by apply app_nil in Hc as [? _]. }
  assert (same_labels N (S1 ++ own cur ++ U)) as Hsame'.
  { rewrite HN, <- app_assoc. apply same_labels_app; [done|]. apply same_labels_app; [by rewrite Ho|done]. }
  assert (length (own cur) = length T1) as Hlen by by rewrite Ho.
  assert (length U < 128) as HlU.
  { apply labels_ok_length in Hok. rewrite length_app in Hok. destruct (S1 ++ T1); [done|cbn in Hok; lia]. }
  split; [unfold DNS_RBT_LEVELBLOCK; lia|]. split.
  - intros order HE. exists lv, own, [], (Some cur), (own cur ++ U), S1.
    split_and!; try done; [apply extends_refl| |by left].
    split; [done..| |by left]. eapply labels_ok_same; [exact Hsame'|apply (nr_ok _ _ Hn)].
  - intros x Hx. split; try done.
    + exists (T1 ++ V). split; [by rewrite HN, <- app_assoc|]. apply same_labels_app; [by rewrite Ho|done].
    + rewrite length_app. lia.
    + rewrite length_app. destruct (own cur); [by subst|cbn; lia].
    + split; intros q Hq; by apply elem_of_nil in Hq.
Qed.

(** After a split the node is alone in the level below the new one. *)
Lemma split_link s' u k c l r cur S1 S2 T2 new U order :
  name_tree s' (split_lv lv u k c l r cur new) (split_own own cur S2 T2 new) →
  named (split_lv lv u k c l r cur new) (split_own own cur S2 T2 new) new (T2 ++ U) → u ≠ Some new →
  S1 ≠ [] → is_root_last S1 = false → labels_ok (S1 ++ T2 ++ U) →
  toplabel S1 ≠ toplabel S2 → Z.sgn order = lexcmp (toplabel S1) (toplabel S2) →
  link_place s' (split_lv lv u k c l r cur new) (split_own own cur S2 T2 new) cur S1 order
    (Some new) (T2 ++ U).
Proof.
  intros HT' Hnew Hu HS1 Hroot Hok Hne Hsgn.
  assert (lexcmp (toplabel S1) (toplabel S2) ≠ 0)%Z as Hnz by (intros E; by apply lexcmp_eq in E).
  assert (split_lv lv u k c l r cur new (Some new) = T false E cur E) as Hlv.
  { unfold split_lv. by rewrite decide_False, decide_True. }
  assert (split_own own cur S2 T2 new cur = S2) as Hown by (unfold split_own; by rewrite decide_True).
  destruct (fo_level _ _ _ (nt_forest _ _ _ _ HT') (Some new)) as [Hl _].
  { intros q [= <-]. by eapply named_live. }
  pose proof (level_at _ _ _ _ Hl) as Hat. rewrite Hlv in Hat. cbn in Hat. destruct Hat as (Mc & _).
  split; try done. right. eexists [], [], _. rewrite Hlv. cbn. split_and!; [done|exact Mc|by destruct (side_of order)|].
  destruct (decide (order < 0)%Z); [rewrite !bool_decide_true by done|rewrite !bool_decide_false by done].
  - split; [by rewrite Hlv|by intros q ?%elem_of_nil|]. intros q ->%list_elem_of_singleton. rewrite Hown. lia.
  - split; [by rewrite Hlv| |by intros q ?%elem_of_nil]. intros q ->%list_elem_of_singleton. rewrite Hown, lexcmp_opp. lia.
Qed.

(** Some of the labels: the node is split. *)
Lemma round_split an A u U k c l r cur h lc S1 T1 S2 T2 order :
  searching s lv own N an A u U k (T c l cur r) cur h lc →
  A = S1 ++ T1 → own cur = S2 ++ T2 → same_labels T1 T2 → S2 ≠ [] → T1 ≠ [] →
  (S1 ≠ [] → toplabel S1 ≠ toplabel S2 ∧ Z.sgn order = lexcmp (toplabel S1) (toplabel S2)) →
  ∃ e, add_split isc_mem_get get_table rnd s n an (slot_of u) (inner_parent k) cur (h + length T1) lc
         (length T1) order = Some e ∧ exits s lv own N e.
Proof.
  intros H -> Ho Hs HS2 HT1 Hord. destruct (search_absent_names _ _ _ _ _ _ _ _ _ H) as [Hsame Hok].
  pose proof (search_node _ _ _ _ _ _ _ _ _ H) as (? & ? & ? & o & [= <- <- <-] & Hcur & _ & Hin & Hrep & _ & _).
  destruct H as [HU Hlv Htop Han HA Habs (V & HN & HV) Hh Hlc Har].
  pose proof (same_labels_length _ _ Hs) as [Hl _]. pose proof (same_labels_length _ _ HV) as [HlV _].
  assert (T2 ≠ []) as HT2 by (destruct T1, T2; done).
  assert (absent lv own N) as Habsent.
  { eapply (split_absent s lv own F cur u U S1 T1 S2 T2); try done. intros HS1. by apply Hord. }
  assert (length U < 128) as HlU.
  { apply labels_ok_length in Hok. rewrite !length_app in Hok. destruct T1; [done|cbn in Hok; lia]. }
  unfold add_split. rewrite bool_decide_false by (unfold DNS_RBT_LEVELBLOCK; lia).
  rewrite Hcur. cbn [mbind option_bind]. rewrite Ho in Hrep. rewrite Hl.
  destruct (split_prefix_repr _ S2 T2 Hrep HS2 HT2) as (prefix & -> & Hpre). cbn [mbind option_bind].
  destruct (split_suffix_repr _ S2 T2 Hrep HS2 HT2) as (sx & -> & Hsx). cbn [mbind option_bind].
  rewrite (create_node_spec isc_mem_get s sx T2 Hsx HT2). cbn [mbind option_bind].
  destruct (isc_mem_get (links s)) as [new|] eqn:Hmem; [|by eexists].
  pose proof (fresh_node isc_mem_get Hfresh _ _ _ _ F Hmem) as Hnew.
  assert (labels n - (h + length T2) = labels n - length (T1 ++ V)) as Efirst.
  { rewrite length_app. lia. }
  assert (h + length T2 = length (T1 ++ V)) as Elen by (rewrite length_app; lia).
  assert (N = S1 ++ T1 ++ V) as HN' by by rewrite HN, <- app_assoc.
  rewrite HN' in Hn. destruct (last_labels_repr n S1 (T1 ++ V) Hn) as (n1 & P1 & Hrep1).
  destruct (split_node isc_mem_get Hfresh get_table rnd Hrnd s lv own u U k c l r cur S2 T2 new sx prefix n1 (T1 ++ V))
    as (s2 & s' & -> & P2 & HT' & HX); try done.
  { by apply same_labels_app. }
  cbn [mbind option_bind]. rewrite Efirst, Elen, P1. cbn [mbind option_bind]. rewrite P2. cbn [mbind option_bind].
  rewrite (nr_labels _ _ Han), length_app.
  destruct (decide (S1 = [])) as [->|HS1].
  - rewrite bool_decide_true by (cbn; lia). eexists. split; [done|].
    eexists _, _, (T2 ++ U). split_and!; [done|done| |done].
    rewrite HN'. cbn. symmetry. by apply same_labels_app.
  - rewrite bool_decide_false by (destruct S1; [done|cbn; lia]).
    rewrite <- Hl. destruct (split_prefix_repr an S1 T1 Han HS1 HT1) as (an' & -> & Hrep').
    cbn [mbind option_bind]. eexists. split; [done|].
    destruct (Hord HS1) as [Hne Hsgn].
    eexists _, _, [(new, T2 ++ U)], (Some new), (T2 ++ U), S1.
    split_and!; [exact HT'|exact HX|done| |exact Hrep'| |].
    + eapply split_link; try done.
      * apply (ex_named _ _ _ _ _ _ _ HX). right. by apply list_elem_of_singleton.
      * intros Hc. apply (new_not_above lv own s F u U HU new Hnew Hc).
      * rewrite (is_root_last_part [] S1 (T1 ++ V)) by apply (nr_ok _ _ Hn).
        rewrite bool_decide_false; [done|]. intros [Hc _]. by apply app_nil in Hc as [? _].
      * eapply labels_ok_same; [|apply (nr_ok _ _ Hn)]. apply same_labels_app; [done|]. by apply same_labels_app.
    + rewrite HN'. apply same_labels_app; [done|]. by apply same_labels_app.
    + right. exists new, (T2 ++ U). split; [done|]. exists S1, (T1 ++ V). split_and!; try done.
      by apply same_labels_app.
Qed.

Lemma search_down an A u U k t cur h lc o :
  searching s lv own N an A u U k t cur h lc → outers s !! cur = Some o →
  down o = top (lv (Some cur)) ∧
  (∀ x, top (lv (Some cur)) = Some x → ∃ nx, links s !! x = Some nx ∧ is_root nx = true ∧ Rbt.parent nx = Some cur) ∧
  length (nodes (lv (Some cur))) <= size (links s).
Proof.
  intros H Ho. pose proof (search_node _ _ _ _ _ _ _ _ _ H) as (c0 & l0 & r0 & o0 & _ & _ & _ & Hin & _).
  destruct (fo_level _ _ _ F (Some cur)) as [Hl _]; [intros q [= <-]; by exists u|].
  pose proof (RbtLevel.level_root _ _ _ _ Hl) as Hr. cbn in Hr. rewrite Ho in Hr. cbn in Hr.
  split; [done|]. split; [|by eapply level_size].
  intros x Hx. pose proof (level_at _ _ _ _ Hl) as Hat.
  destruct (lv (Some cur)) as [|c l y r]; [done|]. injection Hx as ->. destruct Hat as (Mx & _).
  by eexists.
Qed.

Lemma addnode_loop_spec fuel an A u U k t cur h lc :
  searching s lv own N an A u U k t cur h lc →
  length (nodes t) + (length A - 1) * S (size (links s)) < fuel →
  ∃ e, add_loop isc_mem_get get_table rnd fuel s n an (slot_of u) (inner_parent k) cur h lc = Some e ∧
    exits s lv own N e.
Proof.
  revert an A u U k t cur h lc. induction fuel as [|fuel IH]; intros an A u U k t cur h lc H Hf; [by apply Nat.nlt_0_r in Hf|].
  pose proof (search_node _ _ _ _ _ _ _ _ _ H) as (c & l & r & o & -> & Ho & Hlk & Hin & Hrep & Hne & Hcmp).
  pose proof (se_some _ _ _ _ _ _ _ _ _ _ _ _ _ H) as HA.
  cbn [add_loop]. rewrite Ho. cbn [mbind option_bind]. rewrite Hcmp. cbn [mbind option_bind].
  destruct (labels_compare A (own cur)) as [[rel order] common] eqn:Ecmp.
  destruct (decide (rel = dns_namereln_none)) as [->|Hrel].
  { destruct (compare_top _ _ _ _ _ Ecmp HA Hne) as [Htop Hsgn]. specialize (Hsgn eq_refl).
    pose proof (proj1 Htop eq_refl) as Htn.
    pose proof (round_none _ _ _ _ _ _ _ _ _ _ _ _ H Hsgn Htn) as [Ho0 Hnext].
    rewrite Hlk. cbn [mbind option_bind left right]. unfold side_of in Hnext. cbn [nodes] in Hf.
    rewrite length_app in Hf. cbn in Hf.
    destruct (decide (order < 0)%Z) as [Hd|Hd].
    - rewrite bool_decide_true in * by done. destruct (top l) as [x|]; [|by eexists].
      apply (IH _ _ _ _ _ _ _ _ _ Hnext). lia.
    - rewrite bool_decide_false in * by done. rewrite bool_decide_true by lia.
      destruct (top r) as [x|]; [|by eexists]. apply (IH _ _ _ _ _ _ _ _ _ Hnext). lia. }
  destruct (compare_common _ _ _ _ _ Ecmp HA Hne Hrel)
    as (S1 & S2 & T1 & T2 & EA & Eo & Hs & Hk & L1 & L2 & Heq & Hsub & Hord).
  assert (T1 ≠ [] ∧ T2 ≠ []) as [HT1 HT2] by (destruct T1, T2; cbn in *; split; try done; lia).
  assert (add_split isc_mem_get get_table rnd s n an (slot_of u) (inner_parent k) cur (h + common) lc common order =
          add_split isc_mem_get get_table rnd s n an (slot_of u) (inner_parent k) cur (h + length T1) lc (length T1) order)
    as Esplit by by rewrite L1.
  assert (S2 ≠ [] → ∃ e, add_split isc_mem_get get_table rnd s n an (slot_of u) (inner_parent k) cur
    (h + common) lc common order = Some e ∧ exits s lv own N e) as Hsplit.
  { intros HS2. rewrite Esplit. eapply round_split; try done. intros HS1. by apply Hord. }
  destruct rel; try done.
  - apply Hsplit. intros ->. destruct (decide (S1 = [])) as [->|HS1].
    + discriminate (proj2 Heq (conj eq_refl eq_refl)).
    + discriminate (proj2 Hsub (conj HS1 eq_refl)).
  - destruct (proj1 Hsub eq_refl) as [HS1 ->]. cbn in Eo.
    destruct (round_down _ _ _ _ _ _ _ _ _ _ _ S1 T1 T2 H EA Eo Hs HS1 HT2) as (an' & P & Hlc & Hlink & Hdown).
    destruct (search_down _ _ _ _ _ _ _ _ _ _ H Ho) as (Hdn & Hroot & Hsize).
    rewrite <- L1, P. cbn [mbind option_bind]. rewrite bool_decide_true by done. rewrite Hdn.
    destruct (top (lv (Some cur))) as [x|] eqn:Hx.
    + destruct (Hroot x eq_refl) as (nx & -> & R1 & R2). cbn [mbind option_bind].
      rewrite bool_decide_true by done. apply (IH _ _ _ _ _ _ _ _ _ (Hdown x eq_refl)).
      rewrite EA, length_app in Hf. cbn [nodes] in Hf. rewrite length_app in Hf. cbn [length] in Hf.
      destruct S1 as [|y S1]; [done|]. cbn [length] in *. nia.
    + eexists. split; [done|]. apply Hlink. by destruct (lv (Some cur)).
  - destruct (proj1 Heq eq_refl) as [-> ->]. eexists. split; [done|]. split; [done|].
    exists (own cur ++ U). split; [eapply named_place; [done|apply H]|].
    destruct (search_absent_names _ _ _ _ _ _ _ _ _ H) as [Hsame _]. rewrite Hsame, EA, Eo. cbn.
    apply same_labels_app; [by symmetry|done].
  - apply Hsplit. intros ->. destruct (decide (S1 = [])) as [->|HS1].
    + discriminate (proj2 Heq (conj eq_refl eq_refl)).
    + discriminate (proj2 Hsub (conj HS1 eq_refl)).
Qed.

End Round.

(** ** [dns_rbt_addnode] *)

(** The first name of a tree. *)
Lemma first_node s lv own n N p :
  name_tree s lv own → lv None = E → name_repr n N → N ≠ [] → is_root_last N = true →
  isc_mem_get (links s) = Some p →
  ∃ m s' lv' own', put_is_root (links (created s p n)) p true = Some m ∧
    hash_node get_table rnd (set_root (set_links (inc_nodecount (created s p n)) m) (Some p)) p n = Some s' ∧
    name_tree s' lv' own' ∧ extends s lv own s' lv' own' [(p, N)].
Proof.
  intros HT HE Hn HN Habs Hmem. pose proof (nt_forest _ _ _ _ HT) as F.
  pose proof (fresh_node isc_mem_get Hfresh _ _ _ _ F Hmem) as Hp.
  set (m := <[p := Node None None None false true]> (links s)). exists m.
  set (s1 := set_root _ _).
  assert (∀ q, node_name s1 q = if decide (q = p) then Some n else node_name s q) as Hnames.
  { intros q. etransitivity; [apply (node_name_insert s p)|]. destruct (decide (q = p)); [|done].
    by rewrite new_node_name. }
  assert (fits lv own None N [] []) as Hfit by (split; [by rewrite HE|by intros q ?%elem_of_nil..]).
  assert (labels_ok (N ++ [])) as Hok by (rewrite app_nil_r; by eapply nr_ok).
  destruct (hash_new get_table rnd Hrnd s lv own p n s1 (link_lv lv None (T false E p E)) (link_own own p N) N n N)
    as (s' & P' & HT' & HX); try done.
  - eapply (forest_link lv own s F None [] eq_refl p Hp N (T false E p E) [] [] eq_refl Hfit s1 1); try done.
    + split; [done| |apply NoDup_singleton|done].
      split; [exact (lookup_insert_eq _ p _)|done].
    + by repeat constructor.
    + intros q Hq _. by apply lookup_insert_ne.
    + intros q Hq. by rewrite Hnames, decide_False.
    + exists n. by rewrite Hnames, decide_True.
    + intros [v|] Hv; [|done].
      exact (level_root_insert s p (new_node n) (Some v)).
  - intros q M. rewrite (link_named lv own s F None [] eq_refl p Hp N (T false E p E) [] [] eq_refl Hfit).
    by rewrite app_nil_r.
  - exists s', (link_lv lv None (T false E p E)), (link_own own p N). split_and!; try done.
    unfold put_is_root, created. cbn [links set_outers set_links]. rewrite lookup_insert_eq.
    cbn [mbind option_bind]. by rewrite insert_insert_eq.
Qed.

(** The result of adding the name [N]: in which tree, with which nodes [X]. *)
Definition added s lv own (N : list label) (s' : dns_rbt) (result : isc_result) (node : option ptr) : Prop :=
  ∃ lv' own' X, name_tree s' lv' own' ∧ extends s lv own s' lv' own' X ∧ length X <= 2 ∧
    match result with
    | ISC_R_EXISTS => s' = s ∧ X = [] ∧ ∃ p M, node = Some p ∧ named lv own p M ∧ same_labels M N
    | ISC_R_SUCCESS => absent lv own N ∧ ∃ p M X', node = Some p ∧ X ≡ₚ (p, M) :: X' ∧ same_labels M N ∧
        ∀ q M', (q, M') ∈ X' → below N M'
    | ISC_R_NOMEMORY => absent lv own N ∧ node = None ∧ ∀ q M', (q, M') ∈ X → below N M'
    | _ => False
    end.

Lemma add_exit_added s lv own n N e :
  name_tree s lv own → name_repr n N → exits s lv own N e →
  ∃ s' result node,
    match e with
    | AddDone s result node => Some (s, result, node)
    | AddLink s current add_name order rootp =>
        '(s, new) ← create_node isc_mem_get s add_name;
        match new with
        | None => Some (s, ISC_R_NOMEMORY, None)
        | Some p =>
            root ← read_slot s rootp;
            '(m, root) ← dns_rbt_addonlevel (links s) p current order root;
            s ← write_slot (set_links s m) rootp root;
            let s := inc_nodecount s in
            s ← hash_node get_table rnd s p n;
            Some (s, ISC_R_SUCCESS, Some p)
        end
    end = Some (s', result, node) ∧ added s lv own N s' result node.
Proof.
  intros HT Hn. pose proof (nt_forest _ _ _ _ HT) as F. destruct e as [s' result node|s' cur an order x]; cbn.
  - intros H. eexists _, _, _. split; [done|]. unfold added. destruct result; try done; destruct node as [p|]; try done.
    + destruct H as (lv' & own' & M & HT' & HX & Hs & Ha). exists lv', own', [(p, M)].
      split_and!; try done; [cbn; lia|]. exists p, M, []. split_and!; try done. intros q M' Hq. by apply elem_of_nil in Hq.
    + destruct H as [-> Ha]. exists lv, own, []. split_and!; try done; [apply extends_refl|cbn; lia|].
      intros q M' Hq. by apply elem_of_nil in Hq.
    + destruct H as [-> (M & HM & Hs)]. exists lv, own, []. split_and!; try done; [apply extends_refl|cbn; lia|].
      by exists p, M.
  - intros (lv' & own' & X & u & U & A & HT' & HX & -> & Hlp & Hrep & Hs & Hbelow).
    pose proof (nt_forest _ _ _ _ HT') as F'.
    assert (absent lv own N) as Habs.
    { intros q M HM Hc. eapply (link_absent s' lv' own' F' cur A order u U N); try done.
      apply (ex_named _ _ _ _ _ _ _ HX). left. exact HM. }
    assert (∀ q M', (q, M') ∈ X → below N M') as HXb.
    { intros q M' Hq. destruct Hbelow as [->|(q0 & M0 & -> & Hb)]; [by apply elem_of_nil in Hq|].
      apply list_elem_of_singleton in Hq. by simplify_eq. }
    assert (length X <= 1) as HlX by (destruct Hbelow as [->|(q0 & M0 & -> & _)]; cbn; lia).
    rewrite (create_node_spec isc_mem_get s' an A Hrep (lp_some _ _ _ _ _ _ _ _ Hlp)). cbn [mbind option_bind].
    destruct (isc_mem_get (links s')) as [p|] eqn:Hmem.
    + destruct (link_node isc_mem_get Hfresh get_table rnd Hrnd s' lv' own' cur A order u U p an n N)
        as (s2 & lv2 & own2 & Hrun & HT2 & HX2); try done.
      unfold link_run in Hrun. exists s2, ISC_R_SUCCESS, (Some p). split.
      * destruct (read_slot _ _) as [root|]; [|done]. cbn [mbind option_bind] in *.
        destruct (dns_rbt_addonlevel _ _ _ _ _) as [[m root']|]; [|done]. cbn [mbind option_bind] in *.
        destruct (write_slot _ _ _) as [s3|]; [|done]. cbn [mbind option_bind] in *. by rewrite Hrun.
      * exists lv2, own2, (X ++ [(p, A ++ U)]). split; [done|]. split; [by eapply extends_trans|].
        split; [rewrite length_app; cbn; lia|]. split; [done|]. exists p, (A ++ U), X.
        split_and!; try done. by rewrite Permutation_app_comm.
    + eexists _, _, _. split; [done|]. exists lv', own', X. split_and!; try done. lia.
Qed.

(** The whole function. *)
Lemma addnode_added (s : dns_rbt) (lv : option ptr → tree) (own : ptr → list label)
    (n : name) (N : list label) :
  name_tree s lv own → name_repr n N → is_root_last N = true →
  ∃ s' result node, dns_rbt_addnode isc_mem_get get_table rnd s n = Some (s', result, node) ∧
    added s lv own N s' result node.
Proof.
  intros HT Hn Habs. pose proof (nt_forest _ _ _ _ HT) as F.
  assert (N ≠ []) as HN by by intros ->.
  destruct (fo_level _ _ _ F None) as [Hl _]; [done|].
  pose proof (RbtLevel.level_root _ _ _ _ Hl) as Hr. cbn in Hr.
  unfold dns_rbt_addnode. rewrite (nr_absolute _ _ Hn), Habs. destruct (rbt_root s) as [r|] eqn:Er.
  - destruct (lv None) as [|c l r' rt] eqn:Elv; [done|]. injection Hr as <-.
    pose proof (level_at _ _ _ _ Hl) as (Mr & _). rewrite Mr. cbn [mbind option_bind is_root].
    destruct (addnode_loop_spec s lv own HT n N Hn (add_fuel s n) n N None [] [] (T c l r rt) r 0 0)
      as (e & P & He).
    + split; try done.
      * exists []. by rewrite app_nil_r.
      * split; intros q Hq; by apply elem_of_nil in Hq.
    + unfold add_fuel. rewrite (nr_labels _ _ Hn). pose proof (level_size _ _ _ _ Hl). nia.
    + change (inner_parent []) with (@None ptr) in P. change (slot_of None) with TOP in P. rewrite P.
      cbn [mbind option_bind]. by apply (add_exit_added s lv own n N e).
  - assert (lv None = E) as HE by by destruct (lv None).
    rewrite (create_node_spec isc_mem_get s n N Hn HN). cbn [mbind option_bind].
    assert (absent lv own N) as Hab.
    { intros q M HM _. pose proof (named_under _ _ _ _ HM) as Hun. inversion Hun as [? ? Hq|? ? ? ? Hq]; subst;
        rewrite HE in Hq; by apply elem_of_nil in Hq. }
    destruct (isc_mem_get (links s)) as [p|] eqn:Hmem.
    + destruct (first_node s lv own n N p HT HE Hn HN Habs Hmem) as (m & s' & lv' & own' & P1 & P2 & HT' & HX).
      change (links (inc_nodecount (created s p n))) with (links (created s p n)). rewrite P1.
      cbn [mbind option_bind]. rewrite P2. cbn [mbind option_bind]. eexists _, _, _. split; [done|].
      exists lv', own', [(p, N)]. split_and!; try done; [cbn; lia|]. exists p, N, []. split_and!; try done.
      intros q M' Hq. by apply elem_of_nil in Hq.
    + eexists _, _, _. split; [done|]. exists lv, own, []. split_and!; try done; [apply extends_refl|cbn; lia|].
      intros q M' Hq. by apply elem_of_nil in Hq.
Qed.

End Add.
