(* ===== verification/NameSearch.v ===== *)
(** * Finding a node in its level

    The hash table of the tree leads to the node of a level whose name is the
    end of the name sought ([hash_search] of [dns_rbt_findnode]). No two nodes
    of a level share their last label, so there is one at most, and it is
    found. *)

From stdpp Require Import gmap.
From S2P Require Import Prelude Rdata Name Rbt RbtTree RbtLevel RbtAdd NameTree NameChain NameFind NameForest NameHash NameLink NameSplit NameReplace NameGrow NameAdd.

#[local] Open Scope nat_scope.

(** Deciding one condition. *)
#[local] Ltac bdecide P :=
  destruct (decide P); [rewrite (bool_decide_true P) by done|rewrite (bool_decide_false P) by done].

(** ** The level of a node *)

Lemma find_up_spec fuel m root u k t x :
  level m root u (plug k t) → top t = Some x → length k < fuel → find_up fuel m x = Some u.
Proof.
  revert fuel t x. induction k as [|[d c p sib] k IH]; intros [|fuel] t x H Hx Hf; cbn in Hf; try lia.
  - destruct (level_hole _ _ _ _ _ H) as [_ _ Hat _ _ _]. destruct t as [|c l y r]; [done|].
    injection Hx as ->. destruct Hat as (Mx & _). cbn. by rewrite Mx.
  - destruct (level_hole _ _ _ _ _ H) as [_ _ Hat _ _ _]. destruct t as [|ct l y r]; [done|].
    injection Hx as ->. destruct Hat as (Mx & _). cbn [find_up]. rewrite Mx. cbn [mbind option_bind is_root is_top Rbt.parent parent_of].
    apply (IH fuel (mk d c (T ct l x r) p sib)); [done|by rewrite top_mk|lia].
Qed.

Lemma find_up_live s lv own u p :
  forest lv own s → p ∈ nodes (lv u) → find_up (S (size (links s))) (links s) p = Some u.
Proof.
  intros F Hp. destruct (node_place _ _ Hp) as (k & c & l & r & Ht).
  destruct (fo_level _ _ _ F u) as [H _].
  { intros q ->. destruct (fo_named _ _ _ F p) as (N & HN & _); [by eexists|].
    inversion HN as [? Hq|? a N' Hq Ha]; subst.
    - by pose proof (fo_disjoint _ _ _ F _ _ _ Hp Hq).
    - pose proof (fo_disjoint _ _ _ F _ _ _ Hp Hq) as [= ->]. by eapply named_live. }
  rewrite Ht in H. eapply find_up_spec; [exact H|done|].
  pose proof (level_path_size _ _ _ _ _ H). lia.
Qed.

(** ** The bucket *)

Section Search.
Context (rnd : list Z) (Hrnd : DNS_NAME_MAXWIRE < length rnd).
Context (s : dns_rbt) (lv : option ptr → tree) (own : ptr → list label) (HT : name_tree rnd s lv own).

Let F : forest lv own s := nt_forest _ _ _ _ HT.

Lemma bucket_search_spec fuel start l hash u S nm :
  bucket_at (outers s) start l → length l <= fuel → (∀ p, p ∈ l → live lv p) →
  name_repr nm S → is_root_last S = bool_decide (u = None) →
  ∃ res, bucket_search fuel s hash u nm start = Some res ∧
    match res with
    | Some p => p ∈ nodes (lv u) ∧ same_labels (own p) S
    | None => ∀ p o, p ∈ l → p ∈ nodes (lv u) → outers s !! p = Some o → hashval o = hash →
                ¬ same_labels (own p) S
    end.
Proof.
  intros Hb Hf Hlive Hnm Habs. revert fuel start Hb Hf.
  induction l as [|p l IH]; intros fuel start Hb Hf.
  - cbn in Hb. subst start. exists None. destruct fuel; (split; [done|]); intros ? ? ?%elem_of_nil; done.
  - destruct Hb as (-> & o & Ho & Hb). destruct fuel as [|fuel]; [cbn in Hf; lia|].
    cbn [bucket_search]. rewrite Ho. cbn [mbind option_bind].
    destruct (IH ltac:(set_solver) fuel (hashnext o) Hb ltac:(cbn in Hf; lia)) as (res & Hrun & Hres).
    assert ((p ∈ nodes (lv u) → hashval o = hash → ¬ same_labels (own p) S) →
      ∃ res, bucket_search fuel s hash u nm (hashnext o) = Some res ∧
      match res with
      | Some p => p ∈ nodes (lv u) ∧ same_labels (own p) S
      | None => ∀ p' o', p' ∈ p :: l → p' ∈ nodes (lv u) → outers s !! p' = Some o' → hashval o' = hash →
                  ¬ same_labels (own p') S
      end) as Hskip.
    { intros Hno. exists res. split; [done|]. destruct res as [q|]; [done|].
      intros q o' [->|Hq]%elem_of_cons Hin Hq' Hh; [|by eapply Hres].
      apply Hno; [done|]. congruence. }
    bdecide (hash ≠ hashval o); [apply Hskip; intros _ E; by rewrite E in *|].
    destruct (Hlive p ltac:(set_solver)) as [v Hv].
    rewrite (find_up_live _ _ _ _ _ F Hv). cbn [mbind option_bind].
    bdecide (v ≠ u).
    { apply Hskip. intros Hin _. by pose proof (fo_disjoint _ _ _ F _ _ _ Hv Hin). }
    assert (v = u) as -> by (destruct (decide (v = u)); tauto).
    destruct (fo_name _ _ _ F _ _ Ho) as [Hrep _].
    rewrite (name_equal_labels _ _ _ _ Hrep Hnm).
    2: { rewrite Habs. by apply (fo_abs _ _ _ F). }
    cbn [mbind option_bind]. bdecide (same_labels (own p) S); [by eexists|]. by apply Hskip.
Qed.

(** The node of a name is in the bucket of its hash. *)
Lemma in_bucket u U p S nm hash :
  place lv own u U → p ∈ nodes (lv u) → name_repr nm (S) → same_labels (own p ++ U) S →
  dns_name_fullhash rnd nm = Some hash →
  ∃ o, outers s !! p = Some o ∧ hashval o = hash.
Proof.
  intros HU Hp Hnm Hs Hhash. destruct (proj1 (fo_dom _ _ _ F p) ltac:(by exists u)) as [o Ho].
  exists o. split; [done|]. pose proof (named_place _ _ _ _ _ Hp HU) as Hnamed.
  pose proof (nt_hash _ _ _ _ HT _ _ _ Hnamed Ho) as Hh.
  assert (labels_ok (own p ++ U)) as Hok.
  { eapply labels_ok_same; [symmetry; exact Hs|]. by eapply nr_ok. }
  rewrite (fullhash_same rnd _ nm _ _ (name_of_repr _ Hok) Hnm Hs) in Hh. congruence.
Qed.

Lemma bucket_of hash :
  (0 <= hash)%Z →
  ∃ start l, hashtable s !! Z.to_nat (hash mod hashsize s) = Some start ∧
    bucket_at (outers s) start l ∧ length l <= size (outers s) ∧ (∀ p, p ∈ l → live lv p) ∧
    (∀ p o, live lv p → outers s !! p = Some o → hashval o = hash → p ∈ l).
Proof.
  intros Hh. destruct (nt_table _ _ _ _ HT) as (ps & Htab & Hps).
  pose proof (table_length _ _ Htab) as Hlen. destruct Htab as [Hz (bs & Hat & Hperm) _].
  pose proof Hat as [Hs Hb Hd Hpl]. pose proof (Z.mod_pos_bound hash _ Hz) as Hm.
  destruct (lookup_lt_is_Some_2 (hashtable s) (Z.to_nat (hash mod hashsize s))) as [start Hst]; [lia|].
  destruct (Forall2_lookup_l _ _ _ _ _ Hb Hst) as (l & Hl & Hch).
  assert (∀ p, p ∈ l → p ∈ ps) as Hin.
  { intros p Hp. rewrite <- Hperm. apply list_elem_of_join. exists l. split; [done|]. by eapply list_elem_of_lookup_2. }
  exists start, l. split_and!; try done.
  - rewrite <- Hperm in Hlen. rewrite <- (take_drop_middle bs _ l Hl), join_app, length_app in Hlen.
    cbn in Hlen. rewrite length_app in Hlen. lia.
  - intros p Hp. by apply Hps, Hin.
  - intros p o Hp Ho Hhash. apply Hps in Hp. rewrite <- Hperm in Hp. apply list_elem_of_join in Hp as (l' & Hpl' & Hl').
    apply list_elem_of_lookup in Hl' as [i Hi]. destruct (Hpl i l' p Hi Hpl') as (o' & Ho' & Hi').
    assert (o' = o) as -> by congruence. rewrite Hhash in Hi'. subst i. congruence.
Qed.

(** ** All endings of the name *)

Lemma hash_again_spec n sname S1 S2 V u U :
  name_repr n (S1 ++ S2 ++ V) → same_labels V U → place lv own u U → name_repr sname (S1 ++ S2) →
  is_root_last S2 = bool_decide (u = None) → S2 ≠ [] →
  ∃ res, hash_again rnd s n sname (length U) (length S2) u = Some res ∧
    match res with
    | Some p => p ∈ nodes (lv u) ∧ same_labels (own p) S2
    | None => ∀ p, p ∈ nodes (lv u) → ¬ same_labels (own p) S2
    end.
Proof.
  intros Hn HV HU Hsn Habs HS2. pose proof (same_labels_length _ _ HV) as [HlV _].
  unfold hash_again. destruct (last_labels_repr n S1 (S2 ++ V) Hn) as (full & Pfull & Hfull).
  assert (labels n - length (S2 ++ V) = labels sname - length S2 ∧ length (S2 ++ V) = length U + length S2) as [E1 E2].
  { rewrite (nr_labels _ _ Hn), (nr_labels _ _ Hsn), !length_app. lia. }
  rewrite E1, E2 in Pfull. rewrite Pfull. cbn [mbind option_bind].
  destruct (fullhash_total rnd Hrnd full _ Hfull) as (hash & Hhash & Hh0). rewrite Hhash. cbn [mbind option_bind].
  destruct (last_labels_repr sname S1 S2 Hsn) as (nm & -> & Hnm). cbn [mbind option_bind].
  destruct (bucket_of hash Hh0) as (start & l & -> & Hb & Hlb & Hlive & Hcomplete). cbn [mbind option_bind].
  destruct (bucket_search_spec (S (size (outers s))) start l hash u S2 nm Hb) as (res & Hrun & Hres);
    [lia|done..|].
  exists res. split; [done|]. destruct res as [p|]; [done|]. intros p Hp Hs.
  destruct (in_bucket u U p (S2 ++ V) full hash HU Hp Hfull) as (o & Ho & Hv); [by apply same_labels_app|done|].
  eapply Hres; [|done..]. by eapply Hcomplete; [exists u|..].
Qed.

Lemma hash_search_spec rest n sname A V u U tl :
  name_repr n (A ++ V) → same_labels V U → place lv own u U → name_repr sname A →
  is_root_last A = bool_decide (u = None) → 0 < tl → rest + tl = length A →
  ∃ res, hash_search rnd rest s n sname (length U) tl u = Some res ∧
    match res with
    | Some (p, t) => p ∈ nodes (lv u) ∧ ∃ B1 B2, A = B1 ++ B2 ∧ length B2 = t ∧ same_labels (own p) B2
    | None => ∀ p B1 B2, p ∈ nodes (lv u) → A = B1 ++ B2 → tl <= length B2 → ¬ same_labels (own p) B2
    end.
Proof.
  intros Hn HV HU Hsn Habs. revert tl. induction rest as [|rest IH]; intros tl Htl Hlen.
  all: assert (∃ B1 B2, A = B1 ++ B2 ∧ length B2 = tl) as (B1 & B2 & EA & El)
    by (exists (take (length A - tl) A), (drop (length A - tl) A); rewrite take_drop, length_drop; split; [done|lia]).
  all: assert (B2 ≠ []) as HS2 by (destruct B2; [cbn in El; lia|done]).
  all: assert (is_root_last B2 = bool_decide (u = None)) as Habs2
    by (rewrite <- Habs, EA; unfold is_root_last; destruct B2 as [|x B2' _] using rev_ind; [done|];
        by rewrite app_assoc, !last_snoc).
  all: destruct (hash_again_spec n sname B1 B2 V u U) as (found & Hrun & Hfound);
    [by rewrite app_assoc, <- EA|done|done|by rewrite <- EA|done|done|].
  all: cbn [hash_search]; rewrite El in Hrun; rewrite Hrun; cbn [mbind option_bind].
  all: destruct found as [p|]; [eexists; split; [done|]; destruct Hfound; split; [done|by exists B1, B2]|].
  all: assert (∀ p B1' B2', p ∈ nodes (lv u) → A = B1' ++ B2' → length B2' = tl → ¬ same_labels (own p) B2') as Hmiss
    by (intros p B1' B2' Hp E El'; assert (B2' = B2) as -> by (eapply app_inj_2; [by rewrite El'|by rewrite <- E, <- EA]);
        by apply Hfound).
  - eexists. split; [done|]. intros p B1' B2' Hp E Hl. eapply Hmiss; [done..|].
    rewrite E, length_app in Hlen. lia.
  - destruct (IH (S tl) ltac:(lia) ltac:(lia)) as (res & Hrun2 & Hres2).
    exists res. split; [done|]. destruct res as [[p t]|]; [done|]. intros p B1' B2' Hp E Hl.
    destruct (decide (length B2' = tl)) as [El'|]; [by eapply Hmiss|]. eapply Hres2; [done..|lia].
Qed.

End Search.
