(* ===== verification/NameFree.v ===== *)
(** * Freeing nodes

    [unhash_node] takes a node out of the hash table; [dns_rbt_deletetree]
    frees the nodes below a pointer. [subtree s r l]: the nodes that hang from
    [r], left, right and down, in the order in which they are freed, are
    [l]. *)

From stdpp Require Import gmap.
From S2P Require Import Prelude Rdata Name Rbt RbtTree RbtLevel RbtAdd NameTree NameChain NameFind NameDelete NameForest NameHash NameLink NameSplit NameReplace NameGrow.

#[local] Open Scope nat_scope.

(** ** Out of the table *)

Lemma filter_other (p : ptr) (l : list ptr) : p ∉ l → filter (λ q, q ≠ p) l = l.
Proof.
  intros Hp. induction l as [|q l IH]; [done|]. apply not_elem_of_cons in Hp as [Hq Hp].
  rewrite filter_cons_True by done. by rewrite IH.
Qed.

Lemma filter_remove (p : ptr) (l : list ptr) : NoDup l → p ∈ l → l ≡ₚ p :: filter (λ q, q ≠ p) l.
Proof.
  intros Hd Hp. apply list_elem_of_split in Hp as (l1 & l2 & ->).
  apply NoDup_app in Hd as (_ & Hd1 & [Hp2 _]%NoDup_cons).
  rewrite filter_app, filter_cons_False by (intros Hc; by apply Hc).
  rewrite !filter_other; [solve_Permutation|done|]. intros Hc. apply (Hd1 p Hc). apply elem_of_cons. by left.
Qed.

Lemma unhash_loop_spec fuel m b l p o :
  bucket_at m (Some b) (b :: l) → NoDup (b :: l) → p ∈ l → m !! p = Some o → length l <= fuel →
  ∃ y oy, y ≠ p ∧ m !! y = Some oy ∧
    unhash_loop fuel m b p (hashnext o) = Some (<[y := with_hash oy (hashval oy) (hashnext o)]> m) ∧
    y ∈ b :: l ∧
    bucket_at (<[y := with_hash oy (hashval oy) (hashnext o)]> m) (Some b) (filter (λ q, q ≠ p) (b :: l)).
Proof.
  revert b fuel. induction l as [|c l IH]; intros b fuel; [by intros _ _ ?%elem_of_nil|].
  intros (_ & ob & Hb & Hc & oc & Hoc & Hl) Hd Hp Ho Hf.
  destruct fuel as [|fuel]; [cbn in Hf; lia|]. cbn [unhash_loop]. rewrite Hb. cbn [mbind option_bind].
  apply NoDup_cons in Hd as [Hbl Hd]. assert (b ≠ p) as Hbp by (intros ->; done).
  rewrite (filter_cons_True _ b) by done. case_bool_decide as Hn.
  - rewrite Hc in Hn. apply (inj Some) in Hn as ->. exists b, ob.
    apply NoDup_cons in Hd as [Hpl Hd]. assert (oc = o) as -> by congruence.
    split_and!; [done|done|done|by apply elem_of_cons; left|].
    rewrite filter_cons_False by (intros Hc'; by apply Hc'). rewrite filter_other by done.
    split; [done|]. exists (with_hash ob (hashval ob) (hashnext o)). rewrite lookup_insert_eq. split; [done|].
    cbn [hashnext with_hash]. eapply bucket_at_agree; [|exact Hl]. intros q Hq. rewrite lookup_insert_ne; [done|].
    intros ->. apply Hbl, elem_of_cons. by right.
  - rewrite Hc. cbn [mbind option_bind].
    assert (c ≠ p) as Hcp by (intros ->; by rewrite Hc in Hn).
    assert (p ∈ l) as Hpl by (apply elem_of_cons in Hp as [->|?]; done).
    destruct (IH c fuel) as (y & oy & Hy & Hoy & Hrun & Hin & Hres); try done.
    + split; [done|]. by exists oc.
    + cbn in Hf. lia.
    + exists y, oy. split_and!; [done..|apply elem_of_cons; by right|].
      split; [done|]. exists ob. rewrite lookup_insert_ne; [|intros ->; done]. split; [done|]. by rewrite Hc.
Qed.

Lemma mjoin_filter (bs : list (list ptr)) i l p :
  bs !! i = Some l → NoDup l → p ∈ l → mjoin bs ≡ₚ p :: mjoin (<[i := filter (λ q, q ≠ p) l]> bs).
Proof.
  intros Hi Hd Hp. rewrite <- (take_drop_middle bs i l Hi) at 1.
  rewrite insert_take_drop by by eapply lookup_lt_Some.
  rewrite !join_app. cbn. rewrite (filter_remove p l) at 1 by done. solve_Permutation.
Qed.

Lemma mjoin_nodup (bs : list (list ptr)) i l : bs !! i = Some l → NoDup (mjoin bs) → NoDup l.
Proof.
  intros Hi. rewrite <- (take_drop_middle bs i l Hi). rewrite join_app. cbn.
  intros (_ & _ & H)%NoDup_app. by apply NoDup_app in H as (? & _).
Qed.

Lemma mjoin_apart (bs : list (list ptr)) i j l l' q :
  NoDup (mjoin bs) → bs !! i = Some l → bs !! j = Some l' → q ∈ l → q ∈ l' → i = j.
Proof.
  revert i j. induction bs as [|b bs IH]; intros i j Hd Hi Hj Hq Hq'; [done|].
  cbn in Hd. apply NoDup_app in Hd as (_ & Hdis & Hd).
  assert (∀ k x, bs !! k = Some x → q ∈ x → q ∈ mjoin bs) as Hin.
  { intros k x Hk Hx. apply list_elem_of_join. exists x. split; [done|]. by eapply list_elem_of_lookup_2. }
  destruct i as [|i], j as [|j]; cbn in Hi, Hj; simplify_eq; [done| | |].
  - exfalso. by apply (Hdis q), (Hin j l').
  - exfalso. by apply (Hdis q), (Hin i l).
  - f_equal. by eapply IH.
Qed.

(** What taking [p] out of its bucket, the [i]th, does. *)
Lemma unhash_bucket s i start l p o :
  hashtable s !! i = Some start → bucket_at (outers s) start l → NoDup l → p ∈ l →
  outers s !! p = Some o → length l <= size (outers s) →
  ∃ m t', (if bool_decide (start = Some p) then
      Some (set_hash s (outers s) (<[i := hashnext o]> (hashtable s)) (hashsize s))
    else b ← start; m ← unhash_loop (size (outers s)) (outers s) b p (hashnext o);
         Some (set_hash s m (hashtable s) (hashsize s))) = Some (set_hash s m t' (hashsize s)) ∧
    same_but_next (outers s) m ∧ (∀ q, q ∉ l → m !! q = outers s !! q) ∧ length t' = length (hashtable s) ∧
    (∃ st, t' !! i = Some st ∧ bucket_at m st (filter (λ q, q ≠ p) l)) ∧
    (∀ j, j ≠ i → t' !! j = hashtable s !! j).
Proof.
  intros Hstart Hch Hdl Hpl Ho Hll.
  destruct l as [|c l]; [by apply elem_of_nil in Hpl|]. destruct Hch as (-> & oc & Hoc & Hl).
  case_bool_decide as Hc.
  - apply (inj Some) in Hc as ->. assert (oc = o) as -> by congruence.
    eexists _, _. split; [done|]. split_and!; [done|done|by rewrite length_insert| |].
    + exists (hashnext o). rewrite list_lookup_insert_eq by by eapply lookup_lt_Some. split; [done|].
      apply NoDup_cons in Hdl as [? _].
      rewrite filter_cons_False by (intros Hc'; by apply Hc'). by rewrite filter_other.
    + intros j Hj. by rewrite list_lookup_insert_ne.
  - destruct (unhash_loop_spec (size (outers s)) (outers s) c l p o) as (y & oy & Hy & Hoy & Hr & Hin & Hres); try done.
    + split; [done|]. by exists oc.
    + apply elem_of_cons in Hpl as [->|?]; done.
    + cbn in Hll. lia.
    + cbn [mbind option_bind]. rewrite Hr. cbn [mbind option_bind]. eexists _, _. split; [done|]. split_and!; try done.
      * by apply same_but_next_insert.
      * intros q Hq. rewrite lookup_insert_ne; [done|]. by intros ->.
      * by exists (Some c).
Qed.

Lemma unhash_node_spec s ps p o :
  table s (p :: ps) → outers s !! p = Some o →
  ∃ s', unhash_node s p = Some s' ∧ table s' ps ∧ links s' = links s ∧ rbt_root s' = rbt_root s ∧
    nodecount s' = nodecount s ∧ same_but_next (outers s) (outers s').
Proof.
  intros HT Ho. pose proof (table_length _ _ HT) as Hlen. destruct HT as [Hsz (bs & Hb & Hperm) Hh].
  pose proof Hb as [Hs Hbk Hd Hpl].
  assert (p ∈ mjoin bs) as (l & Hpl' & [i Hi]%list_elem_of_lookup)%list_elem_of_join
    by (rewrite Hperm; apply elem_of_cons; by left).
  destruct (Hpl i l p Hi Hpl') as (o' & Ho' & Ei). rewrite Ho in Ho'. apply (inj Some) in Ho' as <-.
  destruct (Forall2_lookup_r _ _ _ _ _ Hbk Hi) as (start & Hstart & Hch).
  pose proof (mjoin_nodup _ _ _ Hi Hd) as Hdl.
  pose proof (mjoin_filter _ _ _ _ Hi Hdl Hpl') as Hp'. rewrite Hperm in Hp'. apply Permutation.Permutation_cons_inv in Hp'.
  assert (∀ j x q, bs !! j = Some x → q ∈ x → q ∈ l → j = i) as Hapart.
  { intros j x q Hj Hq Hql. by apply (mjoin_apart bs j i x l q). }
  assert (length l <= size (outers s)) as Hll.
  { etransitivity; [|exact Hlen]. rewrite <- Hperm, <- (take_drop_middle bs i _ Hi), join_app. cbn.
    rewrite !length_app. lia. }
  destruct (unhash_bucket s i start l p o Hstart Hch Hdl Hpl' Ho Hll)
    as (m & t' & Hrun & Hsame & Hout & Hl' & (st & Hst & Hch') & Hoth).
  exists (set_hash s m t' (hashsize s)). split.
  { unfold unhash_node. rewrite Ho. cbn [mbind option_bind]. rewrite <- Ei, Hstart. exact Hrun. }
  split_and!; try done. split; cbn; [done| |].
  - exists (<[i := filter (λ q, q ≠ p) l]> bs). split; [|by symmetry]. split.
    + by rewrite Hl'.
    + apply Forall2_same_length_lookup. apply Forall2_same_length_lookup in Hbk as [Hlb Hbk].
      rewrite length_insert, Hl'. split; [done|]. intros j x y Hx Hy. destruct (decide (j = i)) as [->|Hj].
      * rewrite list_lookup_insert_eq in Hy by by eapply lookup_lt_Some. apply (inj Some) in Hy as <-.
        rewrite Hst in Hx. by apply (inj Some) in Hx as <-.
      * rewrite Hoth in Hx by done. rewrite list_lookup_insert_ne in Hy by done.
        eapply bucket_at_agree; [|by eapply Hbk]. intros q Hq. apply Hout. intros Hql. by apply Hj, (Hapart j y q).
    + eapply NoDup_cons. rewrite <- (mjoin_filter _ _ _ _ Hi Hdl Hpl'). done.
    + assert (∀ q oq, outers s !! q = Some oq → ∃ oq', m !! q = Some oq' ∧ hashval oq' = hashval oq) as Hv.
      { intros q oq Hq. destruct (same_but_next_lookup _ _ _ _ Hsame Hq) as [nx ->]. by eexists. }
      intros j x q Hj Hq.
      assert (∃ y, bs !! j = Some y ∧ q ∈ y) as (y & Hy & Hqy).
      { destruct (decide (j = i)) as [->|Hji].
        - rewrite list_lookup_insert_eq in Hj by by eapply lookup_lt_Some. apply (inj Some) in Hj as <-.
          exists l. split; [done|]. by apply list_elem_of_filter in Hq as [_ ?].
        - rewrite list_lookup_insert_ne in Hj by done. by exists x. }
      destruct (Hpl j y q Hy Hqy) as (oq & Hoq & ->). destruct (Hv q oq Hoq) as (oq' & ? & E).
      exists oq'. by rewrite E.
  - intros q oq Hq. assert (same_but_next m (outers s)) as Hsame' by done.
    destruct (same_but_next_lookup _ _ _ _ Hsame' Hq) as [nx Hnx]. by apply (Hh _ _ Hnx).
Qed.

(** ** Freeing what hangs from a pointer *)

Inductive subtree (s : dns_rbt) : option ptr → list ptr → Prop :=
  | subtree_none : subtree s None []
  | subtree_node p n o l1 l2 l3 :
      links s !! p = Some n → outers s !! p = Some o →
      subtree s (left n) l1 → subtree s (right n) l2 → subtree s (down o) l3 →
      subtree s (Some p) (l1 ++ l2 ++ l3 ++ [p]).

Lemma subtree_agree s s' r l :
  (∀ q, q ∈ l → links s' !! q = links s !! q ∧ unchained <$> outers s' !! q = unchained <$> outers s !! q) →
  subtree s r l → subtree s' r l.
Proof.
  intros Hag H. induction H as [|p n o l1 l2 l3 Hn Ho _ IH1 _ IH2 _ IH3]; [constructor|].
  destruct (Hag p) as [El Eo]; [rewrite !elem_of_app, list_elem_of_singleton; tauto|].
  rewrite Hn in El. rewrite Ho in Eo. destruct (outers s' !! p) as [o'|] eqn:Ho'; [|done].
  assert (down o' = down o) as Ed by (apply (inj Some) in Eo; by apply (f_equal down) in Eo).
  eapply subtree_node; [done..| | |rewrite Ed].
  - apply IH1. intros q Hq. apply Hag. rewrite !elem_of_app. tauto.
  - apply IH2. intros q Hq. apply Hag. rewrite !elem_of_app. tauto.
  - apply IH3. intros q Hq. apply Hag. rewrite !elem_of_app. tauto.
Qed.

(** From [s] to [s'] the nodes [l] are freed; those of [X] may have changed. *)
Record freed (X : list ptr) (s : dns_rbt) (l : list ptr) (s' : dns_rbt) : Prop := Freed {
  fr_links q : q ∉ X → q ∉ l → links s' !! q = links s !! q;
  fr_outers q : q ∉ X → q ∉ l → unchained <$> outers s' !! q = unchained <$> outers s !! q;
  fr_gone q : q ∈ l → links s' !! q = None ∧ outers s' !! q = None;
  fr_root : rbt_root s' = rbt_root s;
  fr_count : u32 (nodecount s') = u32 (nodecount s - Z.of_nat (length l)) }.

Lemma freed_weaken X s l s' : freed [] s l s' → freed X s l s'.
Proof. intros [L O G R C]. split; try done; intros q _; [apply L|apply O]; apply not_elem_of_nil. Qed.

Lemma u32_sub a b n : u32 a = u32 b → u32 (a - n) = u32 (b - n).
Proof. unfold u32. intros E. by rewrite <- Zminus_mod_idemp_l, E, Zminus_mod_idemp_l. Qed.

Lemma freed_trans X s l1 s1 l2 s2 :
  (∀ q, q ∈ X → q ∉ l1) → freed X s l1 s1 → freed X s1 l2 s2 → freed X s (l1 ++ l2) s2.
Proof.
  intros Hd [L1 O1 G1 R1 C1] [L2 O2 G2 R2 C2]. split.
  - intros q HX [H1 H2]%not_elem_of_app. by rewrite L2, L1.
  - intros q HX [H1 H2]%not_elem_of_app. by rewrite O2, O1.
  - intros q Hq. destruct (decide (q ∈ l2)) as [H2|H2]; [by apply G2|].
    apply elem_of_app in Hq as [Hq|]; [|done]. assert (q ∉ X) as HX by (intros HX; by apply (Hd q)).
    destruct (G1 q Hq) as [EL EO]. rewrite L2, EL by done. split; [done|].
    specialize (O2 q HX H2). rewrite EO in O2. by destruct (outers s2 !! q).
  - by rewrite R2.
  - rewrite C2, length_app. rewrite (u32_sub _ _ _ C1). f_equal. lia.
Qed.

(** Changing one node, and forgetting it. *)
Lemma freed_change p s s' :
  (∀ q, q ≠ p → links s' !! q = links s !! q) →
  (∀ q, q ≠ p → unchained <$> outers s' !! q = unchained <$> outers s !! q) →
  rbt_root s' = rbt_root s → nodecount s' = nodecount s → freed [p] s [] s'.
Proof.
  intros HL HO HR HC. split; try done.
  - intros q Hq _. apply HL. intros ->. apply Hq. by apply list_elem_of_singleton.
  - intros q Hq _. apply HO. intros ->. apply Hq. by apply list_elem_of_singleton.
  - intros q Hq. by apply elem_of_nil in Hq.
  - rewrite HC. f_equal. cbn. lia.
Qed.

Lemma freed_last p s l s' : p ∉ l → freed [p] s l s' → freed [] s (l ++ [p]) (dec_nodecount (free_node s' p)).
Proof.
  intros Hp [L O G R C].
  assert (∀ q, q ∉ l ++ [p] → q ∉ [p] ∧ q ∉ l ∧ p ≠ q) as Hq.
  { intros q [H1 H2]%not_elem_of_app. split_and!; [done|done|]. intros ->. apply H2. by apply list_elem_of_singleton. }
  split; cbn.
  - intros q _ (H1 & H2 & H3)%Hq. rewrite lookup_delete_ne by done. by apply L.
  - intros q _ (H1 & H2 & H3)%Hq. rewrite lookup_delete_ne by done. by apply O.
  - intros q Hin. destruct (decide (p = q)) as [->|Hne]; [by rewrite !lookup_delete_eq|].
    rewrite !lookup_delete_ne by done. apply G. apply elem_of_app in Hin as [?|Hin]; [done|].
    by apply list_elem_of_singleton in Hin.
  - done.
  - rewrite length_app. cbn. unfold u32. rewrite Zmod_mod. fold (u32 (nodecount s' - 1)).
    rewrite (u32_sub _ _ _ C). unfold u32. f_equal. lia.
Qed.

(** What the deleter is called with. *)
Definition freed_data (has_deleter : bool) (s : dns_rbt) (l : list ptr) : list nat :=
  l ≫= λ q, match outers s !! q with Some o => delete_data has_deleter o | None => [] end.

Lemma freed_data_agree b s s' l :
  (∀ q, q ∈ l → unchained <$> outers s' !! q = unchained <$> outers s !! q) →
  freed_data b s' l = freed_data b s l.
Proof.
  unfold freed_data. induction l as [|q l IH]; intros Hag; [done|]. cbn. f_equal.
  - specialize (Hag q ltac:(apply elem_of_cons; by left)).
    destruct (outers s' !! q) as [o'|], (outers s !! q) as [o|]; try done. apply (inj Some) in Hag.
    unfold delete_data. apply (f_equal data) in Hag. cbn in Hag. by rewrite Hag.
  - apply IH. intros. apply Hag. apply elem_of_cons. by right.
Qed.

Lemma table_perm s ps ps' : ps ≡ₚ ps' → table s ps → table s ps'.
Proof. intros Hp [Hz (bs & Hb & Hperm) Hh]. split; [done| |done]. exists bs. by rewrite Hperm. Qed.

Lemma table_same s s' ps :
  outers s' = outers s → hashtable s' = hashtable s → hashsize s' = hashsize s → table s ps → table s' ps.
Proof. intros Ho Ht Hz [? ? ?]. split; by rewrite ?Ho, ?Ht, ?Hz. Qed.

Section Deletetree.
Context (has_deleter : bool).

(** What the recursive calls do. *)
Definition deletes (fuel : nat) : Prop := ∀ s r l ps,
  subtree s r l → NoDup l → table s (l ++ ps) → length l <= fuel →
  ∃ s', dns_rbt_deletetree has_deleter fuel s r = Some (s', freed_data has_deleter s l) ∧
    table s' ps ∧ freed [] s l s'.

Lemma subtree_nil s r l : subtree s r l → r = None → l = [].
Proof. by destruct 1. Qed.

Lemma delete_side fuel s d p n l ps :
  deletes fuel → links s !! p = Some n → p ∉ l → subtree s (child d n) l → NoDup l →
  table s (l ++ ps) → length l <= fuel →
  ∃ s' n', (if bool_decide (child d n = None) then Some (s, []) else
      '(s, dd) ← dns_rbt_deletetree has_deleter fuel s (child d n);
      m ← put_child d (links s) p None; Some (set_links s m, dd))
    = Some (s', freed_data has_deleter s l) ∧ table s' ps ∧ freed [p] s l s' ∧
    links s' !! p = Some n' ∧ child (opp d) n' = child (opp d) n ∧
    unchained <$> outers s' !! p = unchained <$> outers s !! p.
Proof.
  intros IH Hn Hp Hsub Hd Ht Hf. case_bool_decide as Hc.
  - rewrite (subtree_nil _ _ _ Hsub Hc) in *. exists s, n. split_and!; try done. by apply freed_change.
  - destruct (IH s _ l ps Hsub Hd Ht Hf) as (s1 & Hrun & Ht1 & H1). rewrite Hrun. cbn [mbind option_bind].
    pose proof (fr_links _ _ _ _ H1 p (not_elem_of_nil p) Hp) as Hn1. rewrite Hn in Hn1.
    pose proof (fr_outers _ _ _ _ H1 p (not_elem_of_nil p) Hp) as Ho1.
    unfold put_child. rewrite Hn1. cbn [mbind option_bind].
    eexists _, _. split; [done|]. split; [by apply (table_same s1)|]. split.
    + rewrite <- (app_nil_r l). eapply freed_trans; [|by apply freed_weaken|].
      * intros q ->%list_elem_of_singleton. done.
      * apply freed_change; try done. intros q Hq. cbn. by rewrite lookup_insert_ne.
    + cbn. rewrite lookup_insert_eq. split; [done|]. split; [by destruct d|done].
Qed.

(** The level below [p], and [p] itself. *)
Lemma delete_down fuel s p o l ps :
  deletes fuel → outers s !! p = Some o → p ∉ l → subtree s (down o) l → NoDup l →
  table s (l ++ ps) → length l <= fuel →
  ∃ s' o', (if bool_decide (down o = None) then Some (s, []) else
      '(s, dd) ← dns_rbt_deletetree has_deleter fuel s (down o);
      s ← upd_outer s p (λ o, with_down o None); Some (s, dd))
    = Some (s', freed_data has_deleter s l) ∧ table s' ps ∧ freed [p] s l s' ∧
    outers s' !! p = Some o' ∧ data o' = data o.
Proof.
  intros IH Ho Hp Hsub Hd Ht Hf. case_bool_decide as Hc.
  - rewrite (subtree_nil _ _ _ Hsub Hc) in *. exists s, o. split_and!; try done. by apply freed_change.
  - destruct (IH s _ l ps Hsub Hd Ht Hf) as (s1 & Hrun & Ht1 & H1). rewrite Hrun. cbn [mbind option_bind].
    pose proof (fr_outers _ _ _ _ H1 p (not_elem_of_nil p) Hp) as Ho1. rewrite Ho in Ho1.
    destruct (outers s1 !! p) as [o1|] eqn:Eo1; [|done].
    destruct (upd_outer_spec s1 p (λ o, with_down o None) o1 Eo1 eq_refl) as [Hupd Hsr]. rewrite Hupd.
    cbn [mbind option_bind].
    eexists _, _. split; [done|]. split; [by eapply table_rest|]. split.
    + rewrite <- (app_nil_r l). eapply freed_trans; [|by apply freed_weaken|].
      * intros q ->%list_elem_of_singleton. done.
      * apply freed_change; try done. intros q Hq. cbn. by rewrite lookup_insert_ne.
    + cbn. rewrite lookup_insert_eq. split; [done|]. apply (inj Some) in Ho1. by apply (f_equal data) in Ho1.
Qed.

Lemma delete_self s p o ps :
  outers s !! p = Some o → table s (p :: ps) →
  ∃ s1, unhash_node s p = Some s1 ∧ table (dec_nodecount (free_node s1 p)) ps ∧ freed [p] s [] s1.
Proof.
  intros Ho Ht. destruct (unhash_node_spec s ps p o Ht Ho) as (s1 & Hrun & Ht1 & HL & HR & HC & HS).
  exists s1. split; [done|]. split.
  - assert (NoDup (p :: ps)) as [Hp _]%NoDup_cons.
    { destruct Ht as [_ (bs & Hb & Hperm) _]. rewrite <- Hperm. by eapply ta_nodup. }
    destruct Ht1 as [Hz (bs & Hb & Hperm) Hh]. split; cbn; [done| |].
    + exists bs. split; [|done]. eapply table_agree; [|done]. intros q. rewrite Hperm. intros Hq.
      rewrite lookup_delete_ne; [done|]. by intros ->.
    + intros q oq. rewrite lookup_delete_Some. intros [_ Hq]. by eapply Hh.
  - apply freed_change; try done; [by rewrite HL|]. intros q _. unfold same_but_next in HS.
    apply (f_equal (.!! q)) in HS. rewrite !lookup_fmap in HS. done.
Qed.

Lemma freed_subtree X s l s' r l' :
  freed X s l s' → (∀ q, q ∈ l' → q ∉ X ∧ q ∉ l) → subtree s r l' → subtree s' r l'.
Proof.
  intros H Hd. apply subtree_agree. intros q [HX Hl]%Hd. by rewrite (fr_links _ _ _ _ H), (fr_outers _ _ _ _ H).
Qed.

Lemma freed_keeps_data X s l s' l' :
  freed X s l s' → (∀ q, q ∈ l' → q ∉ X ∧ q ∉ l) →
  freed_data has_deleter s' l' = freed_data has_deleter s l'.
Proof. intros H Hd. apply freed_data_agree. intros q [HX Hl]%Hd. by rewrite (fr_outers _ _ _ _ H). Qed.

Lemma freed_data_app s l1 l2 :
  freed_data has_deleter s (l1 ++ l2) = freed_data has_deleter s l1 ++ freed_data has_deleter s l2.
Proof. unfold freed_data. apply bind_app. Qed.

Lemma parts_apart (l1 l2 l3 : list ptr) p :
  NoDup (l1 ++ l2 ++ l3 ++ [p]) → NoDup l1 ∧ NoDup l2 ∧ NoDup l3 ∧ p ∉ l1 ∧ p ∉ l2 ∧ p ∉ l3 ∧
  (∀ q, q ∈ l2 → q ∉ [p] ∧ q ∉ l1) ∧ (∀ q, q ∈ l3 → q ∉ [p] ∧ q ∉ l1 ++ l2).
Proof.
  intros (D1 & A1 & (D2 & A2 & (D3 & A3 & _)%NoDup_app)%NoDup_app)%NoDup_app.
  assert (∀ q, q ∈ l1 → q ∉ l2 ∧ q ∉ l3 ∧ q ≠ p) as B1.
  { intros q Hq%A1. rewrite !not_elem_of_app, list_elem_of_singleton in Hq. tauto. }
  assert (∀ q, q ∈ l2 → q ∉ l3 ∧ q ≠ p) as B2.
  { intros q Hq%A2. rewrite not_elem_of_app, list_elem_of_singleton in Hq. tauto. }
  assert (p ∉ l3) by (intros Hq%A3; by rewrite list_elem_of_singleton in Hq).
  split_and!; try done.
  - intros Hp. by destruct (B1 p Hp) as (_ & _ & ?).
  - intros Hp. by destruct (B2 p Hp) as [_ ?].
  - intros q Hq. rewrite list_elem_of_singleton. destruct (B2 q Hq) as [_ ?]. split; [done|].
    intros Hq1. by destruct (B1 q Hq1).
  - intros q Hq. rewrite list_elem_of_singleton, not_elem_of_app. split; [by intros ->|].
    split; intros Hc; [by destruct (B1 q Hc) as (_ & ? & _)|by destruct (B2 q Hc)].
Qed.

Lemma deletetree_spec fuel : deletes fuel.
Proof.
  induction fuel as [|fuel IH]; intros s r l ps Hsub Hd Ht Hf.
  - destruct Hsub; [|rewrite !length_app in Hf; cbn in Hf; lia]. exists s. split_and!; try done.
    split; try done; [by intros q ?%elem_of_nil|]. f_equal. cbn. lia.
  - destruct Hsub as [|p n o l1 l2 l3 Hn Ho S1 S2 S3].
    { exists s. split_and!; try done. split; try done; [by intros q ?%elem_of_nil|]. f_equal. cbn. lia. }
    rewrite !length_app in Hf. cbn in Hf.
    destruct (parts_apart _ _ _ _ Hd) as (D1 & D2 & D3 & N1' & N2' & N3' & X2 & X3).
    rewrite <- !app_assoc in Ht. cbn [dns_rbt_deletetree]. rewrite Hn. cbn [mbind option_bind].
    destruct (delete_side fuel s Lft p n l1 (l2 ++ l3 ++ [p] ++ ps) IH Hn) as (s1 & n1 & P1 & T1 & F1 & N1 & C1 & O1);
      [done|done|done|exact Ht|lia|].
    cbn [child opp] in P1, C1. rewrite P1. cbn [mbind option_bind]. rewrite N1. cbn [mbind option_bind].
    destruct (delete_side fuel s1 Rgt p n1 l2 (l3 ++ [p] ++ ps) IH N1) as (s2 & n2 & P2 & T2 & F2 & N2 & C2 & O2);
      [done|cbn [child]; rewrite C1; by eapply freed_subtree|done|exact T1|lia|].
    cbn [child] in P2. rewrite P2. cbn [mbind option_bind].
    pose proof (freed_trans [p] s l1 s1 l2 s2 ltac:(by intros q ->%list_elem_of_singleton) F1 F2) as F12.
    rewrite O1, Ho in O2. destruct (outers s2 !! p) as [o2|] eqn:Ho2; [|done]. cbn [mbind option_bind].
    apply (inj Some) in O2. pose proof (f_equal down O2) as Ed. pose proof (f_equal data O2) as Edd. cbn in Ed, Edd.
    destruct (delete_down fuel s2 p o2 l3 (p :: ps) IH Ho2) as (s3 & o3 & P3 & T3 & F3 & Ho3 & Ed3);
      [done|rewrite Ed; by eapply freed_subtree|done|exact T2|lia|].
    rewrite P3. cbn [mbind option_bind]. rewrite Ho3. cbn [mbind option_bind].
    destruct (delete_self s3 p o3 ps Ho3 T3) as (s4 & P4 & T4 & F4). rewrite P4. cbn [mbind option_bind].
    assert (p ∉ l1 ++ l2 ++ l3) as Hp by by rewrite !not_elem_of_app.
    eexists. split; [|split; [exact T4|]].
    + f_equal. f_equal. rewrite (freed_keeps_data _ _ _ _ _ F1 X2), (freed_keeps_data _ _ _ _ _ F12 X3).
      rewrite !freed_data_app. do 3 f_equal. unfold freed_data. cbn. rewrite app_nil_r, Ho.
      unfold delete_data. by rewrite Ed3, Edd.
    + rewrite (app_assoc l2), (app_assoc l1). apply freed_last; [done|]. rewrite <- (app_nil_r (l1 ++ l2 ++ l3)).
      eapply freed_trans; [|rewrite app_assoc; eapply freed_trans; [|exact F12|exact F3]|exact F4].
      * by intros q ->%list_elem_of_singleton.
      * intros q ->%list_elem_of_singleton. by rewrite not_elem_of_app.
Qed.

End Deletetree.
