(* ===== verification/NameRemove.v ===== *)
(** * A name tree from which nodes are removed

    What is below a node in the tree is what hangs from its [down] pointer;
    the tree without a node and what is below it satisfies the invariant of
    [NameForest.v] again. *)

From stdpp Require Import gmap.
From S2P Require Import Prelude Rdata Name Rbt RbtTree RbtLevel RbtAdd NameTree NameChain NameFind NameDelete NameForest NameHash NameLink NameSplit NameReplace NameGrow NameAdd NameFree.

#[local] Open Scope nat_scope.

Section Below.
Context (lv : option ptr → tree) (own : ptr → list label) (s : dns_rbt) (F : forest lv own s).

(** ** The nodes below a node *)

Definition below_node (a q : ptr) : Prop := ∃ X, under lv own (Some a) X q.
Definition in_tree (t : tree) (q : ptr) : Prop := ∃ a, a ∈ nodes t ∧ (q = a ∨ below_node a q).

Lemma first_unique u U a b q :
  place lv own u U → a ∈ nodes (lv u) → b ∈ nodes (lv u) →
  q = a ∨ below_node a q → q = b ∨ below_node b q → a = b.
Proof.
  intros HU Ha Hb Hqa Hqb.
  assert (∀ c, c ∈ nodes (lv u) → q = c ∨ below_node c q →
    ∃ X, under lv own u X q ∧ toplabel X = toplabel (own c)) as Htop.
  { intros c Hc [->|[X HX]].
    - exists (own c). split; [by apply under_here|done].
    - exists (X ++ own c). split; [by apply under_down|]. apply toplabel_app. by eapply own_nonempty. }
  destruct (Htop a Ha Hqa) as (Xa & HXa & Ta). destruct (Htop b Hb Hqb) as (Xb & HXb & Tb).
  assert (Xa ++ U = Xb ++ U) as E.
  { eapply named_fun; [done|by eapply under_named|by eapply under_named]. }
  apply app_inv_tail in E as ->. eapply top_unique; [done..|]. by rewrite <- Ta, <- Tb.
Qed.

Lemma not_below_self a A : named lv own a A → ¬ below_node a a.
Proof.
  intros HA [X HX]. assert (X ++ A = A) as E.
  { eapply named_fun; [done| |done]. by eapply under_named. }
  apply (f_equal length) in E. rewrite length_app in E.
  assert (X ≠ []) by by eapply under_nonempty. destruct X; [done|cbn in E; lia].
Qed.

Lemma below_live a q : below_node a q → live lv q.
Proof. intros [X HX]. induction HX as [u q Hq|]; [by exists u|done]. Qed.

(** ** The nodes below a pointer *)

Lemma subtree_of_tree u U t par isr :
  place lv own u U → (∀ a, a ∈ nodes t → a ∈ nodes (lv u)) → NoDup (nodes t) → tree_at (links s) t par isr →
  (∀ a, a ∈ nodes t → ∃ l, subtree s (level_root s (Some a)) l ∧ NoDup l ∧ ∀ q, q ∈ l ↔ below_node a q) →
  ∃ l, subtree s (top t) l ∧ NoDup l ∧ ∀ q, q ∈ l ↔ in_tree t q.
Proof.
  intros HU. revert par isr. induction t as [|c l IHl p r IHr]; intros par isr Hin Hd Hat Hdown.
  { exists []. split_and!; [constructor|constructor|]. intros q. split; [by intros ?%elem_of_nil|].
    by intros (a & ?%elem_of_nil & _). }
  cbn [nodes] in *. destruct Hat as (Mp & Hl & Hr).
  apply NoDup_app in Hd as (Dl & Al & (Hpr & Dr)%NoDup_cons).
  destruct (IHl _ _ ltac:(intros a Ha; apply Hin, elem_of_app; by left) Dl Hl) as (ll & Sl & Nl & El).
  { intros a Ha. apply Hdown, elem_of_app. by left. }
  destruct (IHr _ _ ltac:(intros a Ha; apply Hin, elem_of_app; right; apply elem_of_cons; by right) Dr Hr)
    as (lr & Sr & Nr & Er).
  { intros a Ha. apply Hdown, elem_of_app. right. apply elem_of_cons. by right. }
  assert (p ∈ nodes l ++ p :: nodes r) as Hp by (apply elem_of_app; right; apply elem_of_cons; by left).
  destruct (Hdown p Hp) as (ld & Sd & Nd & Ed). pose proof (Hin p Hp) as Hpu.
  destruct (proj1 (fo_dom _ _ _ F p) ltac:(by exists u)) as [o Ho]. cbn in Sd. rewrite Ho in Sd. cbn in Sd.
  assert (∀ a b q, a ∈ nodes l ++ p :: nodes r → b ∈ nodes l ++ p :: nodes r →
    q = a ∨ below_node a q → q = b ∨ below_node b q → a = b) as Hone.
  { intros a b q Ha Hb. eapply first_unique; [done|by apply Hin..]. }
  assert (∀ q, q ∈ ll → q ∉ lr) as A1.
  { intros q (a & Ha & Hqa)%El (b & Hb & Hqb)%Er.
    assert (a = b) as -> by (eapply Hone; [set_solver|set_solver|done|done]).
    apply (Al b Ha). set_solver +Hb. }
  assert (∀ q, q ∈ ll → q ≠ p ∧ q ∉ ld) as A2.
  { intros q (a & Ha & Hqa)%El. assert (q = p ∨ below_node p q → False) as Hno; [|split].
    - intros Hqp. assert (a = p) as -> by (eapply Hone; [set_solver|done|done|done]).
      apply (Al p Ha). set_solver +.
    - intros ->. apply Hno. by left.
    - intros Hq%Ed. apply Hno. by right. }
  assert (∀ q, q ∈ lr → q ≠ p ∧ q ∉ ld) as A3.
  { intros q (a & Ha & Hqa)%Er. assert (q = p ∨ below_node p q → False) as Hno; [|split].
    - intros Hqp. assert (a = p) as -> by (eapply Hone; [set_solver|done|done|done]). done.
    - intros ->. apply Hno. by left.
    - intros Hq%Ed. apply Hno. by right. }
  assert (p ∉ ld) as A4.
  { intros Hpd%Ed. eapply not_below_self; [|done]. by eapply named_place. }
  exists (ll ++ lr ++ ld ++ [p]). split; [by eapply subtree_node|]. split.
  - rewrite !NoDup_app. split_and!; try done; [| | |apply NoDup_singleton].
    + intros q Hq. rewrite !not_elem_of_app, list_elem_of_singleton. split_and!; [by apply A1|by apply A2..].
    + intros q Hq. rewrite !not_elem_of_app, list_elem_of_singleton. split_and!; by apply A3.
    + intros q Hq. rewrite list_elem_of_singleton. by intros ->.
  - intros q. rewrite !elem_of_app, list_elem_of_singleton, El, Er, Ed. unfold in_tree.
    setoid_rewrite elem_of_app. setoid_rewrite elem_of_cons. naive_solver.
Qed.

Lemma subtree_place k u U :
  place lv own u U → 129 <= length U + k →
  ∃ l, subtree s (level_root s u) l ∧ NoDup l ∧ ∀ q, q ∈ l ↔ ∃ X, under lv own u X q.
Proof.
  revert u U. induction k as [|k IH]; intros u U HU Hk.
  - exfalso. destruct u as [a|]; cbn in HU; [|subst U; cbn in Hk; lia].
    destruct (fo_named _ _ _ F a ltac:(by eapply named_live)) as (A & HA & Hok).
    rewrite (named_fun lv own s F _ _ _ HU HA) in Hk. pose proof (labels_ok_length _ Hok). lia.
  - destruct (fo_level _ _ _ F u) as [Hlev _]; [intros p Hp; by eapply place_live|].
    rewrite (RbtLevel.level_root _ _ _ _ Hlev).
    destruct (subtree_of_tree u U (lv u) u true) as (l & Hl & Hd & El); try done.
    + by eapply level_nodup.
    + by eapply level_at.
    + intros b Hb. apply (IH (Some b) (own b ++ U)); [by eapply named_place|]. rewrite length_app.
      assert (own b ≠ []) by by eapply own_nonempty. destruct (own b); [done|cbn; lia].
    + exists l. split_and!; try done. intros q. rewrite El. unfold in_tree, below_node. split.
      * intros (b & Hb & [->|[X HX]]); [by exists (own b); apply under_here|].
        exists (X ++ own b). by apply under_down.
      * intros [X HX]. inversion HX as [? ? Hq|? b Y ? Hb HY]; subst; [exists q; auto|].
        exists b. split; [done|]. right. by exists Y.
Qed.

Lemma subtree_below k a A :
  named lv own a A → 129 <= length A + k →
  ∃ l, subtree s (level_root s (Some a)) l ∧ NoDup l ∧ ∀ q, q ∈ l ↔ below_node a q.
Proof. intros HA. by apply (subtree_place k (Some a)). Qed.

End Below.

(** ** Removing a node with what is below it *)

Section Remove.
Context (lv : option ptr → tree) (own : ptr → list label) (s : dns_rbt) (F : forest lv own s).
Context (u : option ptr) (U : list label) (HU : place lv own u U).
Context (p : ptr) (l1 l2 : list ptr) (Hu : nodes (lv u) = l1 ++ p :: l2).
Context (l : list ptr) (Hl : ∀ q, q ∈ l ↔ below_node lv own p q).
Context (t : tree) (Ht : nodes t = l1 ++ l2).

Definition remains (q : ptr) : Prop := q ≠ p ∧ q ∉ l.

#[local] Instance remains_dec q : Decision (remains q) := _.

Definition remove_lv : option ptr → tree := λ v,
  if decide (v = u) then t
  else match v with Some a => if decide (remains a) then lv v else E | None => lv None end.

Lemma removed_in_level : p ∈ nodes (lv u).
Proof. rewrite Hu. apply elem_of_app. right. apply elem_of_cons. by left. Qed.

Lemma removed_named : named lv own p (own p ++ U).
Proof. eapply named_place; [apply removed_in_level|done]. Qed.

Lemma below_step q a : below_node lv own p a → q ∈ nodes (lv (Some a)) → below_node lv own p q.
Proof. intros [X HX] Hq. exists (own q ++ X). by eapply under_snoc. Qed.

Lemma below_parent q v :
  below_node lv own p q → q ∈ nodes (lv v) → ∃ a, v = Some a ∧ ¬ remains a.
Proof.
  intros [X HX] Hq.
  assert (∀ w X q, under lv own w X q → ∀ v, q ∈ nodes (lv v) → v = w ∨ ∃ a Y, v = Some a ∧ under lv own w Y a) as Hgen.
  { clear -F. induction 1 as [w q Hw|w a X q Ha Hq IH]; intros v Hv.
    - left. by eapply fo_disjoint.
    - destruct (IH v Hv) as [->|(b & Y & -> & Hb)].
      + right. exists a, (own a). split; [done|]. by apply under_here.
      + right. exists b, (Y ++ own a). split; [done|]. by apply under_down. }
  destruct (Hgen _ _ _ HX v Hq) as [->|(a & Y & -> & Ha)].
  - exists p. split; [done|]. intros [? _]. done.
  - exists a. split; [done|]. intros [_ Hc]. apply Hc, Hl. by exists Y.
Qed.

Lemma removed_below a q : ¬ remains a → q ∈ nodes (lv (Some a)) → q ∈ l.
Proof.
  intros Ha Hq. apply Hl. destruct (decide (a = p)) as [->|Hap].
  - exists (own q). by apply under_here.
  - destruct (decide (a ∈ l)) as [Hal%Hl|Hal]; [by eapply below_step|]. by destruct Ha.
Qed.

Lemma place_remains a : u = Some a → remains a.
Proof.
  intros Hua. destruct (decide (remains a)) as [?|Ha]; [done|]. exfalso.
  assert (p ∈ l) as Hp%Hl by (eapply removed_below; [done|rewrite <- Hua; apply removed_in_level]).
  eapply not_below_self; [done|apply removed_named|done].
Qed.

Lemma level_remains q : q ∈ nodes (lv u) → q ≠ p → remains q.
Proof.
  intros Hq Hqp. split; [done|]. intros Hql%Hl.
  destruct (below_parent q u Hql Hq) as (a & Hua & Ha). by apply Ha, place_remains.
Qed.

Lemma level_nodes_nodup : NoDup (l1 ++ p :: l2).
Proof.
  destruct (fo_level _ _ _ F u) as [H _]; [intros a Ha; by eapply place_live|].
  rewrite <- Hu. by eapply level_nodup.
Qed.

Lemma remove_nodes v q : q ∈ nodes (remove_lv v) ↔ q ∈ nodes (lv v) ∧ remains q.
Proof.
  unfold remove_lv. destruct (decide (v = u)) as [->|Hv].
  - rewrite Ht. split.
    + intros Hq. assert (q ∈ nodes (lv u)) as Hqu by (rewrite Hu; set_solver +Hq). split; [done|].
      apply level_remains; [done|]. intros Hqp. rewrite Hqp in Hq. pose proof level_nodes_nodup as Hd.
      apply NoDup_app in Hd as (_ & Hd1 & [Hd2 _]%NoDup_cons).
      apply elem_of_app in Hq as [Hq|Hq]; [|done]. apply (Hd1 p Hq). apply elem_of_cons. by left.
    + rewrite Hu. intros [Hq [Hqp _]]. set_solver +Hq Hqp.
  - assert (∀ a, v = Some a → remains a → q ∈ nodes (lv v) → remains q) as Hkeep.
    { intros a -> Ha Hq. split.
      - intros Hqp. apply Hv. eapply fo_disjoint; [done|exact Hq|]. rewrite Hqp. apply removed_in_level.
      - intros Hql%Hl. destruct (below_parent q _ Hql Hq) as (b & [= <-] & Hb). done. }
    destruct v as [a|].
    + destruct (decide (remains a)) as [Ha|Ha]; [split; [|tauto]; intros Hq; split; [done|by eapply Hkeep]|].
      split; [by intros ?%elem_of_nil|]. intros [Hq [_ Hr]]. exfalso. apply Hr. by eapply removed_below.
    + split; [|tauto]. intros Hq. split; [done|]. split.
      * intros Hqp. apply Hv. eapply fo_disjoint; [done|exact Hq|]. rewrite Hqp. apply removed_in_level.
      * intros Hql%Hl. by destruct (below_parent q _ Hql Hq) as (b & ? & Hb).
Qed.

Lemma remove_live q : live remove_lv q ↔ live lv q ∧ remains q.
Proof. unfold live. setoid_rewrite remove_nodes. naive_solver. Qed.

Lemma remove_named q N : named remove_lv own q N ↔ named lv own q N ∧ remains q.
Proof.
  split.
  - intros H. induction H as [q Hq|q a N Hq Ha [IH _]]; apply remove_nodes in Hq as [Hq Hr]; (split; [|done]).
    + by apply named_top.
    + by eapply named_below.
  - intros [H Hr]. induction H as [q Hq|q a N Hq Ha IH].
    + apply named_top, remove_nodes. done.
    + eapply named_below; [by apply remove_nodes|]. apply IH.
      destruct (decide (remains a)) as [?|Hna]; [done|]. exfalso. destruct Hr as [_ Hr]. apply Hr.
      by eapply removed_below.
Qed.

Lemma remove_order v : StronglySorted (earlier own) (nodes (remove_lv v)).
Proof.
  unfold remove_lv. pose proof (fo_order _ _ _ F) as Ho. destruct (decide (v = u)) as [->|].
  - specialize (Ho u). rewrite Hu in Ho. rewrite Ht. apply StronglySorted_app in Ho as (H12 & H1 & H2).
    apply StronglySorted_cons in H2 as [_ H2]. apply StronglySorted_app. split_and!; [|done|done].
    intros x y Hx Hy. apply H12; [done|]. apply elem_of_cons. by right.
  - destruct v as [a|]; [|apply Ho]. destruct (decide (remains a)); [apply Ho|constructor].
Qed.

(** What a state without the nodes is like. *)
Record removed (s' : dns_rbt) : Prop := Removed {
  rm_level : level (links s') (level_root s' u) u t;
  rm_links q : remains q → q ∉ nodes (lv u) → links s' !! q = links s !! q;
  rm_names q : remains q → node_name s' q = node_name s q;
  rm_roots v : v ≠ u → (∀ a, v = Some a → remains a) → level_root s' v = level_root s v;
  rm_gone q : ¬ remains q → links s' !! q = None ∧ outers s' !! q = None }.

Lemma forest_remove s' n :
  removed s' → rbt t n → color t = false → forest remove_lv own s'.
Proof.
  intros [Hlv HL HN HR HG] Hrb Hc.
  assert (∀ q, is_Some (outers s' !! q) ↔ is_Some (outers s !! q) ∧ remains q) as Hdom.
  { intros q. destruct (decide (remains q)) as [Hq|Hq].
    - rewrite (node_name_dom s s' q) by by apply HN. tauto.
    - destruct (HG q Hq) as [_ ->]. split; [by intros [? ?]|]. by intros [_ ?]. }
  split.
  - intros v Hv. unfold remove_lv. destruct (decide (v = u)) as [->|Hvu]; [split; [done|by exists n]|].
    assert (∀ a, v = Some a → remains a ∧ live lv a) as Hva by (intros a Ha; apply Hv, remove_live in Ha; tauto).
    rewrite HR; [|done|intros a Ha; by apply Hva]. destruct (fo_level _ _ _ F v) as [H H'].
    { intros a Ha. by apply Hva. }
    replace (match v with Some a => if decide (remains a) then lv v else E | None => lv None end) with (lv v).
    2: { destruct v as [a|]; [|done]. rewrite decide_True; [done|by apply Hva]. }
    split; [|done]. eapply level_agree; [|exact H]. intros q Hq.
    assert (q ∈ nodes (remove_lv v)) as Hqr.
    { unfold remove_lv. rewrite decide_False by done. destruct v as [a|]; [|done].
      rewrite decide_True; [done|by apply Hva]. }
    apply remove_nodes in Hqr as [_ Hqr]. apply HL; [done|]. intros Hqu. apply Hvu. by eapply fo_disjoint.
  - intros q. rewrite remove_live, Hdom, (fo_dom _ _ _ F). done.
  - intros q. rewrite Hdom. destruct (decide (remains q)) as [Hq|Hq].
    + destruct (decide (q ∈ nodes (lv u))) as [Hqu|Hqu].
      * split; intros _; [split; [|done]; apply (fo_dom _ _ _ F); by exists u|].
        apply elem_of_dom. eapply tree_at_dom; [by eapply level_at|]. rewrite Ht. rewrite Hu in Hqu.
        destruct Hq as [Hqp _]. set_solver +Hqu Hqp.
      * rewrite HL by done. rewrite (fo_links _ _ _ F). tauto.
    + destruct (HG q Hq) as [-> _]. split; [by intros [? ?]|]. by intros [_ ?].
  - intros q Hq. unfold remove_lv. destruct (decide (Some q = u)) as [Hqu|Hqu].
    + exfalso. assert (is_Some (outers s' !! q)) as [? ?]; [|congruence]. apply Hdom. split.
      * apply (fo_dom _ _ _ F). by eapply place_live.
      * by apply place_remains.
    + destruct (decide (remains q)) as [Hr|Hr]; [|done]. apply (fo_dead _ _ _ F).
      apply eq_None_not_Some. intros Hs. assert (is_Some (outers s' !! q)) as [? ?]; [|congruence]. by apply Hdom.
  - intros v w q [Hv _]%remove_nodes [Hw _]%remove_nodes. by eapply fo_disjoint.
  - intros q o Ho. assert (remains q) as Hq by (apply Hdom; by exists o).
    specialize (HN q Hq). unfold node_name in HN. rewrite Ho in HN.
    destruct (outers s !! q) as [o'|] eqn:Ho'; [|done]. apply (inj Some) in HN. rewrite HN. by apply (fo_name _ _ _ F).
  - intros v q [Hv _]%remove_nodes. by apply (fo_abs _ _ _ F).
  - apply remove_order.
  - intros q [Hq Hr]%remove_live. destruct (fo_named _ _ _ F q Hq) as (N & HNq & Hok). exists N.
    split; [|done]. by apply remove_named.
Qed.

End Remove.
