(* ===== verification/NameErase.v ===== *)
(** * Deleting a node of a name tree

    [dns_rbt_deletenode] removes the node from its level and its hash bucket,
    after what is below it if that is asked for; if there is something below
    and it is not, the node only loses its data. *)

From stdpp Require Import gmap.
From S2P Require Import Prelude Rdata Name Rbt RbtTree RbtLevel RbtAdd RbtDelete NameTree NameChain NameFind NameDelete NameForest NameHash NameLink NameSplit NameReplace NameGrow NameAdd NameSearch NameFree NameRemove.

#[local] Open Scope nat_scope.

(** ** Out of the level, the table and the memory *)

(** The end of [dns_rbt_deletenode]. *)
Definition unlink_node (has_deleter : bool) (s : dns_rbt) (p : ptr) : option (dns_rbt * list nat) :=
  up ← find_up (S (size (links s))) (links s) p;
  let x := match up with None => TOP | Some u => DOWN u end in
  root ← read_slot s x;
  '(m, root) ← dns_rbt_deletefromlevel (links s) p root;
  s ← write_slot (set_links s m) x root;
  o ← outers s !! p;
  s ← unhash_node s p;
  Some (dec_nodecount (free_node s p), delete_data has_deleter o).

(** What the other nodes keep. *)
Definition kept (o : outer) : name * (option nat * bool) * Z := (NODENAME o, info o, hashval o).

Record unlinked (s : dns_rbt) (u : option ptr) (t0 : tree) (p : ptr) (s' : dns_rbt) (t : tree) : Prop := Unlinked {
  ul_level : level (links s') (level_root s' u) u t;
  ul_links q : q ∉ nodes t0 → links s' !! q = links s !! q;
  ul_gone : links s' !! p = None ∧ outers s' !! p = None;
  ul_kept q : q ≠ p → kept <$> outers s' !! q = kept <$> outers s !! q;
  ul_roots v : v ≠ u → v ≠ Some p → level_root s' v = level_root s v;
  ul_count : nodecount s' = u32 (nodecount s - 1);
  ul_size : S (size (outers s')) = size (outers s) }.

Lemma level_root_delete s p v :
  v ≠ Some p → level_root (free_node s p) v = level_root s v.
Proof. destruct v as [a|]; [|done]. intros Hv. cbn. rewrite lookup_delete_ne by congruence. done. Qed.

Lemma unchained_down s s' q :
  unchained <$> outers s' !! q = unchained <$> outers s !! q → outers s' !! q ≫= down = outers s !! q ≫= down.
Proof.
  destruct (outers s' !! q) as [o'|], (outers s !! q) as [o|]; try done. intros H. apply (inj Some) in H.
  by apply (f_equal down) in H.
Qed.

Lemma unchained_kept s s' q :
  unchained <$> outers s' !! q = unchained <$> outers s !! q → kept <$> outers s' !! q = kept <$> outers s !! q.
Proof.
  destruct (outers s' !! q) as [o'|], (outers s !! q) as [o|]; try done. intros H. apply (inj Some) in H.
  cbn. f_equal. by apply (f_equal kept) in H.
Qed.

Lemma kept_same s s' q :
  node_name s' q = node_name s q → rest <$> outers s' !! q = rest <$> outers s !! q →
  kept <$> outers s' !! q = kept <$> outers s !! q.
Proof.
  unfold node_name. destruct (outers s' !! q) as [o'|], (outers s !! q) as [o|]; try done. cbn. intros H1 H2.
  apply (inj Some) in H1, H2. unfold rest in H2. unfold kept, info. rewrite H1. by injection H2 as -> -> -> _.
Qed.

Lemma unlinked_after s m u root t0 t p o s1 s2 :
  level m root u t → (∀ q, q ∉ nodes t0 → m !! q = links s !! q) → p ∈ nodes t0 → p ∉ nodes t →
  u ≠ Some p → outers s !! p = Some o → same_rest s s1 → links s1 = m → nodecount s1 = nodecount s →
  (∀ v, level_root s1 v = if decide (v = u) then root else level_root s v) →
  (∀ q, node_name s1 q = node_name s q) → freed [p] s1 [] s2 →
  unlinked s u t0 p (dec_nodecount (free_node s2 p)) t.
Proof.
  intros Hlv' Hout Hp Hpt Hup' Ho Hsr' HL1 HC1 HR1 HN1 F2.
  pose proof (λ q Hq, fr_outers _ _ _ _ F2 q Hq (not_elem_of_nil q)) as HO2.
  pose proof (λ q Hq, fr_links _ _ _ _ F2 q Hq (not_elem_of_nil q)) as HL2.
  assert (∀ v, v ≠ Some p → level_root (dec_nodecount (free_node s2 p)) v = level_root s1 v) as HR2.
  { intros v Hv. etransitivity; [by apply (level_root_delete s2)|].
    destruct v as [a|]; [|by apply (fr_root _ _ _ _ F2)]. cbn. apply unchained_down, HO2.
    rewrite list_elem_of_singleton. congruence. }
  assert (∀ q, q ≠ p → links (dec_nodecount (free_node s2 p)) !! q = m !! q) as HLm.
  { intros q Hq. cbn. rewrite lookup_delete_ne by done. rewrite HL2 by by rewrite list_elem_of_singleton.
    by rewrite HL1. }
  split.
  - rewrite HR2 by done. rewrite HR1, decide_True by done. eapply level_agree; [|exact Hlv'].
    intros q Hq. apply HLm. by intros ->.
  - intros q Hq. assert (q ≠ p) by (by intros ->). rewrite HLm by done. by apply Hout.
  - cbn. by rewrite !lookup_delete_eq.
  - intros q Hq. cbn. rewrite lookup_delete_ne by done. etransitivity.
    + apply unchained_kept, HO2. by rewrite list_elem_of_singleton.
    + apply kept_same; [apply HN1|apply Hsr'].
  - intros v Hv Hvp. rewrite HR2 by done. by rewrite HR1, decide_False.
  - pose proof (u32_sub _ _ 1 (fr_count _ _ _ _ F2)) as E. cbn in E. rewrite Z.sub_0_r in E.
    cbn. rewrite E. by rewrite HC1.
  - rewrite (size_same kept (delete p (outers s)) (outers (dec_nodecount (free_node s2 p)))).
    + rewrite map_size_delete_Some by by exists o. assert (size (outers s) ≠ 0); [|lia].
      apply map_size_non_empty_iff. intros E. by rewrite E, lookup_empty in Ho.
    + intros q. cbn. destruct (decide (p = q)) as [<-|Hq]; [by rewrite !lookup_delete_eq|].
      rewrite !lookup_delete_ne by done. etransitivity.
      * apply unchained_kept, HO2. rewrite list_elem_of_singleton. congruence.
      * apply kept_same; [apply HN1|apply Hsr'].
Qed.

Lemma unlink_node_spec b s u t0 p l1 l2 n ps o :
  level (links s) (level_root s u) u t0 → rbt t0 n → color t0 = false → nodes t0 = l1 ++ p :: l2 →
  table s (p :: ps) → outers s !! p = Some o → (∀ a, u = Some a → is_Some (outers s !! a) ∧ a ≠ p) →
  ∃ s' t n', unlink_node b s p = Some (s', delete_data b o) ∧ table s' ps ∧ rbt t n' ∧ color t = false ∧
    nodes t = l1 ++ l2 ∧ unlinked s u t0 p s' t.
Proof.
  intros Hlv Hr Hc Hn Ht Ho Hu.
  assert (p ∈ nodes t0) as Hp by (rewrite Hn; set_solver +).
  assert (find_up (S (size (links s))) (links s) p = Some u) as Hup.
  { destruct (node_place _ _ Hp) as (k & c & l & r & Ht0). rewrite Ht0 in Hlv.
    eapply find_up_spec; [exact Hlv|done|]. pose proof (level_path_size _ _ _ _ _ Hlv). lia. }
  destruct (deletefromlevel_level _ _ _ _ _ _ _ _ Hlv Hr Hc Hn) as (m & root & t & n' & Hdel & Hlv' & Hr' & Hc' & Hn' & Hout).
  destruct (write_slot_root (set_links s m) u root) as (s1 & Hw & Hsr & HL1 & HC1 & HR1 & HN1).
  { intros a Ha. by apply Hu. }
  assert (same_rest s s1) as Hsr' by (destruct Hsr; by split).
  assert (kept <$> outers s1 !! p = kept <$> outers s !! p) as Hk.
  { apply kept_same; [apply HN1|apply Hsr']. }
  destruct (outers s1 !! p) as [o1|] eqn:Ho1; [|by rewrite Ho in Hk].
  assert (table s1 (p :: ps)) as Ht1 by by eapply table_rest.
  destruct (delete_self s1 p o1 ps Ho1 Ht1) as (s2 & Hun & Ht2 & F2).
  assert (p ∉ nodes t) as Hpt.
  { rewrite Hn'. pose proof (level_nodup _ _ _ _ Hlv) as Hd. rewrite Hn in Hd.
    apply NoDup_app in Hd as (_ & Hd1 & [Hd2 _]%NoDup_cons). intros [Hq|Hq]%elem_of_app; [|done].
    apply (Hd1 p Hq). set_solver +. }
  exists (dec_nodecount (free_node s2 p)), t, n'. split; [|split_and!; try done].
  { unfold unlink_node. rewrite Hup. cbn [mbind option_bind].
    change (match u with None => TOP | Some u => DOWN u end) with (slot_of u).
    rewrite read_slot_root by (intros a Ha; by apply Hu). cbn [mbind option_bind].
    rewrite Hdel. cbn [mbind option_bind]. rewrite Hw. cbn [mbind option_bind]. rewrite Ho1.
    cbn [mbind option_bind]. rewrite Hun. cbn [mbind option_bind]. do 2 f_equal.
    rewrite Ho in Hk. apply (inj Some) in Hk. unfold delete_data.
    pose proof (f_equal (fst ∘ snd ∘ fst) Hk) as Ed. cbn in Ed. by rewrite Ed. }
  eapply unlinked_after; try done. intros Hup'. by destruct (Hu p Hup').
Qed.

Section Erase.
Context (rnd : list Z).

(** ** The node loses its data *)

(** The hash table and the tree do not look at the data. *)
Lemma set_data_tree s lv own p v o :
  name_tree rnd s lv own → outers s !! p = Some o →
  upd_outer s p (λ o, with_data o v) = Some (set_outers s (<[p := with_data o v]> (outers s))) ∧
  name_tree rnd (set_outers s (<[p := with_data o v]> (outers s))) lv own.
Proof.
  intros [F (ps & Ht & Hps) Hh Hc] Ho. set (s' := set_outers s _).
  assert (∀ A (f : outer → A), f (with_data o v) = f o → ∀ q, f <$> outers s' !! q = f <$> outers s !! q) as Hsame.
  { intros A f E q. cbn. rewrite lookup_insert. destruct (decide (p = q)) as [<-|]; [|done].
    rewrite Ho. cbn. by rewrite E. }
  split; [unfold upd_outer; by rewrite Ho|]. split.
  - eapply forest_shape; [..|exact F]; try done. by apply Hsame.
  - exists ps. split; [|done]. destruct Ht as [Hz (bs & [Hs Hb Hd Hpl] & Hperm) Hp0]. split; [done| |].
    + exists bs. split; [|done]. split; [done| |done|].
      * eapply Forall2_impl; [exact Hb|]. intros st l. clear -Ho. revert st. induction l as [|q l IH]; intros st; [done|].
        intros (-> & oq & Hoq & Hl). split; [done|]. destruct (decide (p = q)) as [<-|Hpq].
        -- exists (with_data o v). cbn. rewrite lookup_insert_eq. split; [done|]. rewrite Ho in Hoq. injection Hoq as <-. by apply IH.
        -- exists oq. cbn. rewrite lookup_insert_ne by done. split; [done|]. by apply IH.
      * intros i l q Hi Hq. destruct (Hpl i l q Hi Hq) as (oq & Hoq & Hi'). specialize (Hsame _ hashval eq_refl q).
        rewrite Hoq in Hsame. destruct (outers s' !! q) as [o'|]; [|done]. exists o'. split; [done|].
        apply (inj Some) in Hsame. by rewrite Hsame.
    + intros q oq Hoq. specialize (Hsame _ hashval eq_refl q). rewrite Hoq in Hsame.
      destruct (outers s !! q) as [o'|] eqn:Ho'; [|done]. apply (inj Some) in Hsame. rewrite Hsame. by eapply Hp0.
  - intros q M oq HM Hoq. specialize (Hsame _ hashval eq_refl q). rewrite Hoq in Hsame.
    destruct (outers s !! q) as [o'|] eqn:Ho'; [|done]. apply (inj Some) in Hsame. rewrite Hsame. by eapply Hh.
  - change (nodecount s') with (nodecount s). rewrite Hc. by rewrite (size_same hashval _ _ (Hsame _ hashval eq_refl)).
Qed.

(** ** The whole function *)

Context (s : dns_rbt) (lv : option ptr → tree) (own : ptr → list label) (HT : name_tree rnd s lv own).

(** Whether a node that is deleted stays, without data. *)
Definition emptied (p : ptr) (recurse : bool) : Prop := recurse = false ∧ ∃ q, below_node lv own p q.

Record erased (b : bool) (p : ptr) (recurse : bool) (s' : dns_rbt) (lv' : option ptr → tree) (ds : list nat) : Prop := Erased {
  er_tree : name_tree rnd s' lv' own;
  er_named q N : named lv' own q N ↔
    named lv own q N ∧ (emptied p recurse ∨ (q ≠ p ∧ ¬ below_node lv own p q));
  er_info q : live lv' q → q ≠ p → info <$> outers s' !! q = info <$> outers s !! q;
  er_self : live lv' p → outers s' !! p ≫= data = None;
  er_data : ∃ l, NoDup l ∧ (∀ q, q ∈ l ↔ q = p ∨ (¬ emptied p recurse ∧ below_node lv own p q)) ∧
    ds = freed_data b s l }.

Let F : forest lv own s := nt_forest _ _ _ _ HT.

Lemma table_part ps (l : list ptr) :
  NoDup l → (∀ q, q ∈ l → q ∈ ps) → NoDup ps → ∃ ps', ps ≡ₚ l ++ ps' ∧ ∀ q, q ∈ ps' ↔ q ∈ ps ∧ q ∉ l.
Proof.
  intros Hd Hin Hps. destruct (submseteq_Permutation l ps) as [ps' E].
  { apply NoDup_submseteq; [done|]. exact Hin. }
  exists ps'. split; [done|]. intros q. rewrite E, elem_of_app. rewrite E in Hps.
  apply NoDup_app in Hps as (_ & Hdis & _). split; [|tauto]. intros Hq. split; [tauto|].
  intros Hql. by apply (Hdis q).
Qed.

Lemma table_nodup s0 ps : table s0 ps → NoDup ps.
Proof. intros [_ (bs & Hb & Hperm) _]. rewrite <- Hperm. by eapply ta_nodup. Qed.

Lemma below_size (l : list ptr) p : NoDup l → (∀ q, q ∈ l ↔ below_node lv own p q) → length l <= size (links s).
Proof.
  intros Hd El. rewrite <- (size_dom (links s)), <- (size_list_to_set (C := gset ptr) _ Hd).
  apply subseteq_size. intros q Hq%elem_of_list_to_set%El%below_live.
  by apply elem_of_dom, (fo_links _ _ _ F), (fo_dom _ _ _ F).
Qed.

(** What is below goes first. *)
Lemma delete_below b p P o :
  named lv own p P → outers s !! p = Some o →
  ∃ l s1 ps, (if bool_decide (down o = None) then Some (s, [])
      else dns_rbt_deletetree b (S (size (links s))) s (down o)) = Some (s1, freed_data b s l) ∧
    NoDup l ∧ (∀ q, q ∈ l ↔ below_node lv own p q) ∧ (down o = None ↔ l = []) ∧
    table s1 (p :: ps) ∧ freed [] s l s1 ∧ ∀ q, q ∈ ps ↔ live lv q ∧ remains p l q.
Proof.
  intros HP Ho. destruct (subtree_below lv own s F 129 p P HP) as (l & Hl & Hd & El); [lia|].
  cbn in Hl. rewrite Ho in Hl. cbn in Hl. destruct (nt_table _ _ _ _ HT) as (ps & Htab & Hps).
  assert (p ∉ l) as Hpl by (rewrite El; by eapply not_below_self).
  assert (NoDup (l ++ [p])) as Hd'.
  { apply NoDup_app. split_and!; [done| |apply NoDup_singleton]. intros q Hq. rewrite list_elem_of_singleton. by intros ->. }
  destruct (table_part ps (l ++ [p])) as (ps' & Eps & Hps'); [done| |by eapply table_nodup|].
  { intros q [Hq%El|Hq%list_elem_of_singleton]%elem_of_app; apply Hps; [by eapply below_live|].
    subst q. by eapply named_live. }
  rewrite <- app_assoc in Eps. pose proof (table_perm _ _ _ Eps Htab) as Htab'.
  assert (down o = None ↔ l = []) as Hdown.
  { destruct Hl; [done|]. split; [done|]. intros E. by destruct l1, l2, l3. }
  destruct (deletetree_spec b (S (size (links s))) s (down o) l (p :: ps') Hl Hd Htab') as (s1 & Hrun & Ht1 & F1).
  { pose proof (below_size l p Hd El). lia. }
  exists l, s1, ps'. split_and!; try done.
  - case_bool_decide as Hc; [|done]. rewrite Hc in Hrun. exact Hrun.
  - intros q. rewrite Hps', Hps, not_elem_of_app, list_elem_of_singleton. unfold remains. tauto.
Qed.

Lemma freed_level_root l s1 v : freed [] s l s1 → (∀ a, v = Some a → a ∉ l) → level_root s1 v = level_root s v.
Proof.
  intros H Hv. destruct v as [a|]; [|by apply (fr_root _ _ _ _ H)]. cbn. apply unchained_down.
  apply (fr_outers _ _ _ _ H); [apply not_elem_of_nil|by apply Hv].
Qed.

Lemma freed_size l s1 :
  freed [] s l s1 → NoDup l → (∀ q, q ∈ l → is_Some (outers s !! q)) → size (outers s1) + length l = size (outers s).
Proof.
  intros H Hd Hl. rewrite <- !size_dom, <- (size_list_to_set (C := gset ptr) l Hd).
  rewrite <- size_union.
  - f_equal. apply set_eq. intros q. rewrite elem_of_union, elem_of_list_to_set, !elem_of_dom.
    destruct (decide (q ∈ l)) as [Hq|Hq].
    + split; [intros _; by apply Hl|]. intros _. by right.
    + pose proof (fr_outers _ _ _ _ H q (not_elem_of_nil q) Hq) as E.
      rewrite <- (fmap_is_Some unchained (outers s1 !! q)), E, fmap_is_Some. tauto.
  - intros q. rewrite elem_of_list_to_set, elem_of_dom. intros Hq1 Hq. destruct (fr_gone _ _ _ _ H q Hq) as [_ E].
    rewrite E in Hq1. by apply is_Some_None in Hq1.
Qed.

(** The count of what is left. *)
Lemma erase_count l s1 s2 :
  freed [] s l s1 → NoDup l → (∀ q, q ∈ l → is_Some (outers s !! q)) →
  nodecount s2 = u32 (nodecount s1 - 1) → S (size (outers s2)) = size (outers s1) →
  nodecount s2 = u32 (Z.of_nat (size (outers s2))).
Proof.
  intros H Hd Hl -> Hs. pose proof (freed_size _ _ H Hd Hl) as E.
  rewrite (u32_sub _ _ 1 (fr_count _ _ _ _ H)), (nt_count _ _ _ _ HT). unfold u32.
  rewrite <- Z.sub_add_distr, Zminus_mod_idemp_l. f_equal. lia.
Qed.

Lemma deletenode_unlinks b p o recurse :
  outers s !! p = Some o → negb (bool_decide (down o = None)) && negb recurse = false →
  dns_rbt_deletenode b s p recurse =
    ('(s, d1) ← (if bool_decide (down o = None) then Some (s, [])
                else dns_rbt_deletetree b (S (size (links s))) s (down o));
     '(s, d2) ← unlink_node b s p; Some (s, d1 ++ d2)).
Proof.
  intros Ho Hb. unfold dns_rbt_deletenode. rewrite Ho. cbn [mbind option_bind]. rewrite Hb.
  destruct (if bool_decide _ then _ else _) as [[s1 d1]|]; [|done]. cbn [mbind option_bind]. unfold unlink_node.
  destruct (find_up _ _ _) as [up|]; [|done]. cbn [mbind option_bind].
  destruct (read_slot _ _); [|done]. cbn [mbind option_bind].
  destruct (dns_rbt_deletefromlevel _ _ _) as [[m root]|]; [|done]. cbn [mbind option_bind].
  destruct (write_slot _ _ _) as [s2|]; [|done]. cbn [mbind option_bind].
  destruct (outers s2 !! p); [|done]. cbn [mbind option_bind].
  by destruct (unhash_node s2 p).
Qed.

Lemma named_in_level p P : named lv own p P → ∃ u U, place lv own u U ∧ p ∈ nodes (lv u).
Proof. inversion 1 as [? Hp|? a N Hp Ha]; subst; [by exists None, []|by exists (Some a), N]. Qed.

Lemma freed_kept l s1 q : freed [] s l s1 → q ∉ l → kept <$> outers s1 !! q = kept <$> outers s !! q.
Proof. intros H Hq. apply unchained_kept, (fr_outers _ _ _ _ H q (not_elem_of_nil q) Hq). Qed.

Lemma unlinked_kept l s1 u t0 p s2 t q :
  freed [] s l s1 → unlinked s1 u t0 p s2 t → remains p l q → kept <$> outers s2 !! q = kept <$> outers s !! q.
Proof. intros H HU [Hqp Hql]. rewrite (ul_kept _ _ _ _ _ _ HU) by done. by eapply freed_kept. Qed.

Lemma unlinked_removed l s1 s2 u p t :
  freed [] s l s1 → unlinked s1 u (lv u) p s2 t → (∀ q, q ∈ nodes (lv u) → q ∉ l) → removed lv s u p l t s2.
Proof.
  intros F1 HUl Hul. pose proof (λ q, unlinked_kept l s1 u _ p s2 t q F1 HUl) as Hk2.
  destruct HUl as [UL ULk UG UK UR UC US]. split; [done| | | |].
  - intros q [Hqp Hql] Hqu. rewrite ULk by done. by apply (fr_links _ _ _ _ F1 q (not_elem_of_nil q)).
  - intros q Hq%Hk2. unfold node_name. destruct (outers s2 !! q), (outers s !! q); try done. cbn.
    apply (inj Some) in Hq. f_equal. exact (f_equal (fst ∘ fst) Hq).
  - intros v Hv Hva. rewrite UR; [|done|intros ->; by destruct (Hva p eq_refl)].
    apply (freed_level_root l); [done|]. intros a ->. by apply Hva.
  - intros q Hq. destruct (decide (q = p)) as [->|Hqp]; [done|].
    assert (q ∈ l) as Hql by (destruct (decide (q ∈ l)); [done|by destruct Hq]).
    destruct (fr_gone _ _ _ _ F1 q Hql) as [G1 G2]. rewrite ULk by (intros Hqu; by apply (Hul q)). split; [done|].
    specialize (UK q Hqp). rewrite G2 in UK. by destruct (outers s2 !! q).
Qed.

Lemma erase_node b p P o :
  named lv own p P → outers s !! p = Some o →
  ∃ s' lv' ds l, ('(s, d1) ← (if bool_decide (down o = None) then Some (s, [])
        else dns_rbt_deletetree b (S (size (links s))) s (down o));
      '(s, d2) ← unlink_node b s p; Some (s, d1 ++ d2)) = Some (s', ds) ∧
    name_tree rnd s' lv' own ∧ (∀ q, q ∈ l ↔ below_node lv own p q) ∧ NoDup l ∧ ds = freed_data b s (l ++ [p]) ∧
    (∀ q N, named lv' own q N ↔ named lv own q N ∧ remains p l q) ∧
    (∀ q, remains p l q → info <$> outers s' !! q = info <$> outers s !! q) ∧ (down o = None ↔ l = []).
Proof.
  intros HP Ho. destruct (delete_below b p P o HP Ho) as (l & s1 & ps & Hrun & Hd & El & Hdown & Ht1 & F1 & Hps).
  destruct (named_in_level p P HP) as (u & U & HU & Hpu).
  destruct (list_elem_of_split _ _ Hpu) as (l1 & l2 & Hu).
  assert (p ∉ l) as Hpl by (rewrite El; by eapply not_below_self).
  destruct (fo_level _ _ _ F u) as [Hlev (k & Hrb & Hcol)]; [intros a Ha; by eapply place_live|].
  pose proof (λ q, level_remains lv own s F u U HU p l1 l2 Hu l El q) as Hrem.
  pose proof (λ a, place_remains lv own s F u U HU p l1 l2 Hu l El a) as Hrem'.
  assert (∀ q, q ∈ nodes (lv u) → q ∉ l) as Hul.
  { intros q Hq. destruct (decide (q = p)) as [->|Hqp]; [done|]. by apply Hrem. }
  assert (level_root s1 u = level_root s u) as Hroot.
  { apply (freed_level_root l); [done|]. intros a Ha. by apply Hrem'. }
  pose proof (λ q, freed_kept l s1 q F1) as Hk1.
  destruct (outers s1 !! p) as [o1|] eqn:Ho1; [|specialize (Hk1 p Hpl); by rewrite Ho, Ho1 in Hk1].
  destruct (unlink_node_spec b s1 u (lv u) p l1 l2 k ps o1) as (s2 & t & k' & Hun & Ht2 & Hrb' & Hcol' & Hnt & HUl); try done.
  { rewrite Hroot. eapply level_agree; [|exact Hlev]. intros q Hq. apply (fr_links _ _ _ _ F1 q (not_elem_of_nil q)). by apply Hul. }
  { intros a Ha. destruct (Hrem' a Ha) as [Hap Hal]. split; [|done].
    rewrite <- (fmap_is_Some kept), (Hk1 a Hal), fmap_is_Some. apply (fo_dom _ _ _ F). by eapply place_live. }
  pose proof (λ q, unlinked_kept l s1 u _ p s2 t q F1 HUl) as Hk2.
  pose proof (unlinked_removed l s1 s2 u p t F1 HUl Hul) as Hrmd.
  pose proof (forest_remove lv own s F u U HU p l1 l2 Hu l El t Hnt s2 k' Hrmd Hrb' Hcol') as F2.
  pose proof (λ q N, remove_named lv own s F u U HU p l1 l2 Hu l El t Hnt q N) as Hnamed.
  exists s2, (remove_lv lv u p l t), (freed_data b s (l ++ [p])), l. rewrite Hrun. cbn [mbind option_bind].
  rewrite Hun. cbn [mbind option_bind]. split_and!; try done.
  - do 2 f_equal. rewrite freed_data_app. f_equal. unfold freed_data. cbn. rewrite app_nil_r, Ho.
    specialize (Hk1 p Hpl). rewrite Ho, Ho1 in Hk1. apply (inj Some) in Hk1.
    pose proof (f_equal (fst ∘ snd ∘ fst) Hk1) as Ed. cbn in Ed. unfold delete_data. by rewrite Ed.
  - split; [done| | |].
    + exists ps. split; [done|]. intros q. rewrite Hps.
      symmetry. by apply (remove_live lv own s F u U HU p l1 l2 Hu l El t Hnt).
    + intros q M oq [HM Hr]%Hnamed Hoq. specialize (Hk2 q Hr). rewrite Hoq in Hk2.
      destruct (outers s !! q) as [o'|] eqn:Ho'; [|done]. apply (inj Some) in Hk2.
      rewrite (f_equal snd Hk2 : hashval oq = hashval o'). by eapply nt_hash.
    + eapply erase_count; [done|done| |by eapply ul_count|by eapply ul_size]. intros q Hq%El%below_live. by apply (fo_dom _ _ _ F).
  - intros q Hq%Hk2. destruct (outers s2 !! q), (outers s !! q); try done. cbn.
    apply (inj Some) in Hq. f_equal. exact (f_equal (snd ∘ fst) Hq).
Qed.

Lemma emptied_node b p P o :
  named lv own p P → outers s !! p = Some o → down o ≠ None →
  let s' := set_outers s (<[p := with_data o None]> (outers s)) in
  upd_outer s p (λ o, with_data o None) = Some s' ∧ erased b p false s' lv (delete_data b o).
Proof.
  intros HP Ho Hdn s'.
  destruct (delete_below b p P o HP Ho) as (l & _ & _ & _ & _ & El & Hdown & _).
  destruct (set_data_tree s lv own p None o HT Ho) as [Hrun HT'].
  assert (emptied p false) as Hem.
  { split; [done|]. destruct l as [|q l]; [by destruct Hdn; apply Hdown|]. exists q. apply El, elem_of_cons. by left. }
  split; [exact Hrun|]. split; [done| | | |].
  - tauto.
  - intros q _ Hq. cbn. by rewrite lookup_insert_ne.
  - intros _. cbn. by rewrite lookup_insert_eq.
  - exists [p]. split; [apply NoDup_singleton|]. split.
    + intros q. rewrite list_elem_of_singleton. tauto.
    + unfold freed_data. cbn. by rewrite Ho, app_nil_r.
Qed.

Lemma deletenode_erased b p P recurse :
  named lv own p P →
  ∃ s' lv' ds, dns_rbt_deletenode b s p recurse = Some (s', ds) ∧ erased b p recurse s' lv' ds.
Proof.
  intros HP. destruct (proj1 (fo_dom _ _ _ F p) ltac:(by eapply named_live)) as [o Ho].
  destruct (negb (bool_decide (down o = None)) && negb recurse) eqn:Eb.
  - unfold dns_rbt_deletenode. rewrite Ho. cbn [mbind option_bind]. rewrite Eb.
    apply andb_true_iff in Eb as [Hdn Hrec]. apply negb_true_iff, bool_decide_eq_false in Hdn.
    apply negb_true_iff in Hrec as ->. destruct (emptied_node b p P o HP Ho Hdn) as [Hrun He].
    rewrite Hrun. cbn [mbind option_bind]. by eexists _, lv, _.
  - rewrite (deletenode_unlinks b p o recurse Ho Eb).
    destruct (erase_node b p P o HP Ho) as (s' & lv' & ds & l & -> & HT' & El & Hd & -> & Hnamed & Hinfo & Hdown).
    eexists _, lv', _. split; [done|].
    assert (¬ emptied p recurse) as Hem.
    { intros [-> [q Hq%El]]. rewrite andb_true_r in Eb. apply negb_false_iff, bool_decide_eq_true, Hdown in Eb.
      subst l. by apply elem_of_nil in Hq. }
    pose proof (nt_forest _ _ _ _ HT') as F'.
    assert (∀ q, live lv' q → remains p l q) as Hlive.
    { intros q (N & HN)%(live_named _ _ _ _ F'). by apply Hnamed in HN as [_ ?]. }
    split; [done| | | |].
    + intros q N. rewrite Hnamed, <- El. unfold remains. tauto.
    + intros q Hq _. by apply Hinfo, Hlive.
    + intros Hp. by destruct (Hlive p Hp).
    + exists (l ++ [p]). split_and!; [|intros q; rewrite elem_of_app, list_elem_of_singleton, El; tauto|done].
      apply NoDup_app. split_and!; [done| |apply NoDup_singleton]. intros q Hq. rewrite list_elem_of_singleton.
      intros ->. apply El in Hq. by apply (not_below_self lv own s F p P HP).
Qed.

(** Below in the tree is below by name. *)
Lemma below_node_name p P q N :
  named lv own p P → named lv own q N → below_node lv own p q ↔ below N P.
Proof.
  intros HP HN. split.
  - intros [X HX]. assert (N = X ++ P) as ->.
    { eapply (named_fun lv own s F); [done|]. by eapply under_named. }
    exists X, P. split_and!; [done|by eapply under_nonempty|done].
  - intros (A & B & -> & HA & HB).
    destruct (named_under_place lv own s F q (A ++ B) (Some p) P A HN HP) as (X & HX & _); [|done|by exists X].
    by apply same_labels_app.
Qed.

End Erase.
