(* ===== verification/NameFindSpec.v ===== *)
(** * What [dns_rbt_findnode] finds

    The main loop of [dns_rbt_findnode] goes down the levels with the labels
    that are left of the name; at the end it has found the node of the name,
    or passed all its ancestors in the tree. So the function returns the node
    of the name, if there is one and it is wanted, or else the deepest wanted
    ancestor. *)

From stdpp Require Import gmap.
From S2P Require Import Prelude Rdata Name Rbt RbtTree RbtLevel RbtAdd RbtFix NameTree NameChain NameFind NameForest NameHash NameLink NameSplit NameReplace NameGrow NameAdd NameSearch.

#[local] Open Scope nat_scope.

(** ** Places and their ancestors *)

Section Chains.
Context (s : dns_rbt) (lv : option ptr → tree) (own : ptr → list label) (F : forest lv own s).

(** [chain_to u L]: the nodes from the top down to [u]. *)
Inductive chain_to : option ptr → list ptr → Prop :=
  | chain_top : chain_to None []
  | chain_down u L a : chain_to u L → a ∈ nodes (lv u) → chain_to (Some a) (L ++ [a]).

(** The nodes of the chain have the endings of the name of the place. *)
Lemma chain_names u L U b :
  chain_to u L → place lv own u U → b ∈ L → ∃ B Z, named lv own b B ∧ U = Z ++ B.
Proof.
  intros H. revert U. induction H as [|u L a H IH Ha]; intros U HU Hb; [by apply elem_of_nil in Hb|].
  cbn in HU. apply elem_of_app in Hb as [Hb| ->%list_elem_of_singleton]; [|by exists U, []].
  inversion HU as [? Ha'|? c N Ha' Hc]; subst.
  - pose proof (fo_disjoint _ _ _ F _ _ _ Ha Ha') as ->. inversion H; subst. by apply elem_of_nil in Hb.
  - pose proof (fo_disjoint _ _ _ F _ _ _ Ha Ha') as ->. destruct (IH N Hc Hb) as (B & Z & HB & ->).
    exists B, (own a ++ Z). by rewrite app_assoc.
Qed.

Lemma chain_length u L U : chain_to u L → place lv own u U → length L <= length U.
Proof.
  intros H. revert U. induction H as [|u L a H IH Ha]; intros U HU; [cbn; lia|].
  cbn in HU. rewrite length_app. cbn. pose proof (own_nonempty _ _ _ F _ _ Ha) as Hne.
  inversion HU as [? Ha'|? c N Ha' Hc]; subst.
  - pose proof (fo_disjoint _ _ _ F _ _ _ Ha Ha') as ->. inversion H; subst. cbn. destruct (own a); [done|cbn; lia].
  - pose proof (fo_disjoint _ _ _ F _ _ _ Ha Ha') as ->. specialize (IH N Hc).
    rewrite length_app. destruct (own a); [done|cbn; lia].
Qed.

Lemma concatenate_spec n Z m A :
  name_repr n Z → name_repr m A → A ≠ [] → labels_ok (Z ++ A) → is_root_last Z = false →
  dns_name_concatenate n m = Some (ISC_R_SUCCESS, name_of (Z ++ A)).
Proof.
  intros Hn Hm HA Hok Habs. unfold dns_name_concatenate.
  rewrite (nr_labels _ _ Hn), (nr_labels _ _ Hm), (nr_absolute _ _ Hn), (nr_absolute _ _ Hm), Habs.
  rewrite (bool_decide_true (length A ≠ 0)) by by destruct A.
  rewrite !andb_false_r. cbn [andb]. rewrite (nr_data _ _ Hn), (nr_data _ _ Hm).
  assert ((if bool_decide (length Z ≠ 0) then enc_labels Z else []) = enc_labels Z) as ->
    by (by destruct Z).
  assert ((if bool_decide (length Z ≠ 0) then length Z else 0) = length Z) as -> by (by destruct Z).
  rewrite <- enc_labels_app. rewrite bool_decide_false by (pose proof (lo_max _ Hok); lia).
  unfold name_of. rewrite length_app. f_equal. f_equal. f_equal. cbn [orb].
  unfold is_root_last. destruct A as [|x l _] using rev_ind; [done|]. by rewrite app_assoc, !last_snoc.
Qed.

Lemma root_last_app Z A : A ≠ [] → is_root_last (Z ++ A) = is_root_last A.
Proof.
  intros HA. unfold is_root_last. destruct A as [|x l _] using rev_ind; [done|]. by rewrite app_assoc, !last_snoc.
Qed.

(** [chain_name] puts the name of the last node together. *)
Lemma chain_name_loop_spec u L U n Z :
  chain_to u L → place lv own u U → name_repr n Z → labels_ok (Z ++ U) → (u ≠ None → is_root_last Z = false) →
  ∃ n', chain_name_loop s (reverse L) n = Some (ISC_R_SUCCESS, n') ∧ name_repr n' (Z ++ U).
Proof.
  intros H. revert U n Z. induction H as [|u L a H IH Ha]; intros U n Z HU Hn Hok Habs.
  - cbn in HU. subst U. exists n. rewrite app_nil_r. done.
  - rewrite reverse_snoc. cbn [chain_name_loop]. cbn in HU.
    destruct (proj1 (fo_dom _ _ _ F a) ltac:(by exists u)) as [o Ho]. rewrite Ho. cbn [mbind option_bind].
    destruct (fo_name _ _ _ F _ _ Ho) as [Hrep Hne]. pose proof (fo_abs _ _ _ F _ _ Ha) as Hroot.
    assert (∃ U', U = own a ++ U' ∧ place lv own u U') as (U' & -> & HU').
    { inversion HU as [? Ha'|? c N Ha' Hc]; subst; pose proof (fo_disjoint _ _ _ F _ _ _ Ha Ha') as ->.
      - exists []. by rewrite app_nil_r.
      - by exists N. }
    rewrite app_assoc in Hok. pose proof Hok as Hok'. apply labels_ok_app in Hok' as [Hok1 _].
    rewrite (concatenate_spec n Z _ (own a) Hn Hrep Hne Hok1) by by apply Habs.
    cbn [mbind option_bind]. rewrite bool_decide_true by done. rewrite app_assoc.
    apply IH; [done|by apply name_of_repr|done|]. intros Hu.
    rewrite root_last_app by done. rewrite Hroot. by apply bool_decide_false.
Qed.

Lemma chain_name_none L a U e lm :
  chain_to (Some a) L → place lv own (Some a) U → labels_ok U →
  ∃ n', chain_name s (Chain e L lm) false = Some (ISC_R_SUCCESS, n') ∧ name_repr n' U.
Proof.
  intros H HU Hok. unfold chain_name. cbn [levels chain_end].
  destruct (chain_name_loop_spec _ _ U (Name [] 0 false) [] H HU) as (n' & Hrun & Hrep); [|done..|].
  { change (Name [] 0 false) with (name_of []). apply name_of_repr, labels_ok_nil. }
  exists n'. split; [|done]. destruct e; cbn [mbind option_bind]; exact Hrun.
Qed.

Lemma chain_name_end u L p U lm :
  chain_to u L → p ∈ nodes (lv u) → place lv own u U → labels_ok (own p ++ U) →
  ∃ n', chain_name s (Chain (Some p) L lm) true = Some (ISC_R_SUCCESS, n') ∧ name_repr n' (own p ++ U).
Proof.
  intros H Hp HU Hok. unfold chain_name. cbn [levels chain_end].
  destruct (proj1 (fo_dom _ _ _ F p) ltac:(by exists u)) as [o Ho]. rewrite Ho. cbn [mbind option_bind].
  apply chain_name_loop_spec with (u := u); [done|done|by apply (fo_name _ _ _ F)|done|].
  intros Hu. rewrite (fo_abs _ _ _ F _ _ Hp). by apply bool_decide_false.
Qed.

End Chains.

(** ** The main loop *)

Section Loop.
Context (rnd : list Z).
Context (s : dns_rbt) (lv : option ptr → tree) (own : ptr → list label) (HT : name_tree rnd s lv own).
Context (opts : find_options).
Context (n : name) (N : list label) (Hn : name_repr n N).

Let F : forest lv own s := nt_forest _ _ _ _ HT.

(** Whether a node counts as found. *)
Definition wanted_node (p : ptr) : bool :=
  match outers s !! p with Some o => wanted opts o | None => false end.

(** No node of the level has the end of [A] for its name. *)
Definition miss (u : option ptr) (A : list label) : Prop :=
  ∀ p S1 S2, p ∈ nodes (lv u) → A = S1 ++ S2 → ¬ same_labels (own p) S2.

(** The labels [A] are left to be found below [u]. *)
Record finding (f : find_state) (u : option ptr) (U A V : list label) : Prop := Finding {
  fi_place : place lv own u U;
  fi_name : name_repr (f_search f) A;
  fi_some : A ≠ [];
  fi_abs : is_root_last A = bool_decide (u = None);
  fi_all : N = A ++ V;
  fi_above : same_labels V U;
  fi_hlabels : f_hlabels f = length U;
  fi_chain : chain_to lv u (levels (f_chain f));
  fi_node : f_node f = last (filter wanted_node (levels (f_chain f)));
  fi_cover b B : named lv own b B → below N B → b ∈ levels (f_chain f) ∨
    ∃ X Z Y, under lv own u X b ∧ A = Z ++ Y ∧ same_labels Y X ∧ Z ≠ [];
  fi_result : f_result f = ISC_R_SUCCESS;
  fi_matches : level_matches (f_chain f) = 0 }.

(** The end of the loop. *)
Definition leaves (f : find_state) (u : option ptr) (U A V : list label) : Prop :=
  finding f u U A V ∧
  match f_current f with
  | Some p => p ∈ nodes (lv u) ∧ same_labels (own p) A ∧ f_compared f = dns_namereln_equal
  | None => miss u A ∧
      ((f_compared f = dns_namereln_subdomain ∧ lv u = E) ∨
       ∃ r, f_last f = Some r ∧ top (lv u) = Some r ∧
         match f_compared f with
         | dns_namereln_none => True
         | dns_namereln_contains | dns_namereln_commonancestor =>
             ∃ c, labels_compare A (own r) = (f_compared f, f_order f, c)
         | _ => False
         end)
  end.

Lemma level_node r u : r ∈ nodes (lv u) → ∃ o, outers s !! r = Some o ∧ name_repr (NODENAME o) (own r) ∧ own r ≠ [].
Proof.
  intros Hr. destruct (proj1 (fo_dom _ _ _ F r) ltac:(by exists u)) as [o Ho].
  exists o. split; [done|]. by apply (fo_name _ _ _ F).
Qed.

(** Passing a node whose labels end [A]. *)
Lemma go_below_spec f u U A V a S1 T1 :
  finding f u U A V → a ∈ nodes (lv u) → A = S1 ++ T1 → S1 ≠ [] → same_labels (own a) T1 →
  ∃ f', go_below opts None s f a (length T1) = Some (FindGo f') ∧
    finding f' (Some a) (own a ++ U) S1 (T1 ++ V) ∧
    f_current f' = top (lv (Some a)) ∧ f_compared f' = dns_namereln_subdomain.
Proof.
  intros [HU Hs HA Habs HN HV Hh Hc Hnode Hcover Hr Hlm] Ha -> HS1 Hsame.
  destruct (level_node _ _ Ha) as (o & Ho & Hrep & Hne).
  pose proof (same_labels_length _ _ Hsame) as [Hl _].
  assert (T1 ≠ []) as HT1 by (by destruct T1, (own a)).
  destruct (split_prefix_repr _ _ _ Hs HS1 HT1) as (search & P & Hrep').
  unfold go_below. rewrite P. cbn [mbind option_bind]. rewrite Ho. cbn [mbind option_bind].
  pose proof (chain_length s lv own F _ _ _ Hc HU) as HlC.
  assert (labels_ok N) as Hok by by eapply nr_ok.
  assert (length (levels (f_chain f)) < DNS_RBT_LEVELBLOCK) as Hlt.
  { pose proof (labels_ok_length _ Hok) as HlN. rewrite HN, !length_app in HlN.
    pose proof (same_labels_length _ _ HV) as [HlV _]. unfold DNS_RBT_LEVELBLOCK. lia. }
  unfold ADD_LEVEL. rewrite bool_decide_true by done. cbn [mbind option_bind].
  eexists. split; [done|].
  assert (place lv own (Some a) (own a ++ U)) as HU' by by eapply named_place.
  split; [split; cbn; try done|].
  - rewrite (is_root_last_part [] S1 (T1 ++ V)) by (cbn; by rewrite app_assoc, <- HN).
    rewrite bool_decide_false; [done|]. intros [Hc' _]. by apply app_nil in Hc' as [? _].
  - by rewrite HN, <- app_assoc.
  - apply same_labels_app; [by symmetry|done].
  - rewrite Hh, length_app. lia.
  - by apply chain_down with u.
  - assert (wanted opts o = wanted_node a) as -> by (unfold wanted_node; by rewrite Ho).
    rewrite filter_app. destruct (wanted_node a) eqn:Hw.
    + rewrite (filter_cons_True _ a []); [by rewrite filter_nil, last_snoc|by rewrite Hw].
    + rewrite (filter_cons_False _ a []); [by rewrite filter_nil, app_nil_r|rewrite Hw; by intros []].
  - intros b B HB Hb. destruct (Hcover b B HB Hb) as [Hin|(X & Z & Y & HX & EA & HY & HZ)].
    { left. apply elem_of_app. by left. }
    assert (same_labels X Y) as HY' by by symmetry.
    destruct (under_top lv own s F u X b Y HX HY') as (c & Hc' & Htop & Hcase).
    assert (Y ≠ []) as HYn.
    { intros ->. apply same_labels_length in HY' as [HlX _]. pose proof (under_nonempty lv own s F _ _ _ HX).
      destruct X; [done|cbn in HlX; lia]. }
    assert (c = a) as ->.
    { eapply (top_unique lv own s F); [done..|]. rewrite Htop, (toplabel_same _ _ Hsame).
      by rewrite <- (toplabel_app Z Y), <- EA, toplabel_app. }
    destruct Hcase as [[-> _]|(X' & Y1 & Y2 & HX' & -> & HY1 & HY2)].
    { left. apply elem_of_app. right. by apply list_elem_of_singleton. }
    right. exists X', Z, Y1. split_and!; try done.
    rewrite app_assoc in EA. apply app_inj_2 in EA as [-> _]; [done|].
    apply same_labels_length in HY2 as [? _]. lia.
  - pose proof (fo_level _ _ _ F (Some a)) as [Hl' _]; [intros q [= <-]; by exists u|].
    pose proof (RbtLevel.level_root _ _ _ _ Hl') as Hroot. cbn in Hroot. rewrite Ho in Hroot. done.
Qed.

(** The node with the same last label is the only candidate. *)
Lemma miss_root u A r :
  r ∈ nodes (lv u) → toplabel A = toplabel (own r) → (∀ S1 S2, A = S1 ++ S2 → ¬ same_labels (own r) S2) →
  miss u A.
Proof.
  intros Hr Htop Hno p S1 S2 Hp -> Hs. pose proof (own_nonempty lv own s F _ _ Hp) as Hne.
  assert (S2 ≠ []) as HS2.
  { apply same_labels_length in Hs as [Hl _]. by destruct S2, (own p). }
  assert (p = r) as ->.
  { eapply (top_unique lv own s F); [done..|]. rewrite <- Htop, toplabel_app by done. by apply toplabel_same. }
  by apply (Hno S1 S2).
Qed.

Lemma find_round_spec (Hrnd : DNS_NAME_MAXWIRE < length rnd) f u U A V r :
  finding f u U A V → top (lv u) = Some r →
  ∃ st, find_round rnd opts None s n f r = Some st ∧
    match st with
    | FindLeave f' => leaves f' u U A V
    | FindGo f' => ∃ a S1 T1, A = S1 ++ T1 ∧ T1 ≠ [] ∧ finding f' (Some a) (own a ++ U) S1 (T1 ++ V) ∧
        f_current f' = top (lv (Some a)) ∧ f_compared f' = dns_namereln_subdomain
    | FindReturn _ _ => False
    end.
Proof.
  intros H Hr. pose proof H as [HU Hs HA Habs HN HV Hh Hc Hnode Hcover Hres Hlm].
  pose proof (top_elem _ _ Hr) as Hin. destruct (level_node _ _ Hin) as (o & Ho & Hrep & Hne).
  unfold find_round. rewrite Ho. cbn [mbind option_bind].
  rewrite (fullcompare_labels _ _ A (own r) Hs Hrep) by (rewrite Habs; symmetry; by apply (fo_abs _ _ _ F)).
  cbn [mbind option_bind]. destruct (labels_compare A (own r)) as [[rel order] common] eqn:Ecmp.
  set (f' := λ cur compared, FindState cur (f_search f) (f_hlabels f) (f_chain f) (f_node f)
                                       compared order (Some r) (f_result f)).
  assert (∀ cur cmp, finding (f' cur cmp) u U A V) as Hf' by (intros; by split).
  destruct (decide (rel = dns_namereln_none)) as [->|Hrel].
  - destruct (fo_level _ _ _ F u) as [Hl _]; [intros q ->; by eapply named_live|].
    destruct (level_parent _ _ u [] (lv u) r Hl Hr) as (rn & -> & Hpar). cbn [parent_of] in Hpar.
    cbn [mbind option_bind]. rewrite Hpar, (nr_labels _ _ Hs).
    assert (0 < length A) as HlA by (destruct A; [done|cbn; lia]).
    destruct (hash_search_spec rnd Hrnd s lv own HT (length A - 1) n (f_search f) A V u U 1)
      as (res & Hrun & Hsr); [by rewrite <- HN|done..|lia|lia|]. rewrite <- Hh in Hrun. rewrite Hrun.
    cbn [mbind option_bind]. destruct res as [[h t]|].
    + destruct Hsr as (Hhin & S1 & S2 & -> & <- & Hsame). rewrite length_app.
      destruct (decide (S1 = [])) as [->|HS1].
      * rewrite bool_decide_true by (cbn; lia). eexists. split; [done|]. split; [apply Hf'|]. cbn. done.
      * rewrite bool_decide_false by (destruct S1; [done|cbn; lia]).
        destruct (go_below_spec _ _ _ _ _ h S1 S2 (Hf' (Some h) dns_namereln_subdomain) Hhin eq_refl HS1 Hsame)
          as (f2 & P & Hf2 & Hcur & Hcmp).
        exists (FindGo f2). split; [exact P|]. exists h, S1, S2. split_and!; try done.
        apply same_labels_length in Hsame as [Hl2 _]. intros ->. by destruct (level_node _ _ Hhin) as (? & _ & _ & ?); destruct (own h).
    + eexists. split; [done|]. split; [apply Hf'|]. cbn. split.
      * intros p S1 S2 Hp -> Hsame. eapply Hsr; [done..| |done].
        apply same_labels_length in Hsame as [Hl2 _]. pose proof (own_nonempty lv own s F _ _ Hp). destruct (own p); [done|cbn in Hl2; lia].
      * right. by exists r.
  - destruct (compare_common _ _ _ _ _ Ecmp HA Hne Hrel)
      as (S1 & S2 & T1 & T2 & EA & Eo & Hsame & Hk & L1 & L2 & Heq & Hsub & Hord).
    assert (toplabel A = toplabel (own r)) as Htop.
    { destruct (compare_top _ _ _ _ _ Ecmp HA Hne) as [Hct _].
      destruct (decide (toplabel A = toplabel (own r))); [done|]. by destruct Hrel; apply Hct. }
    assert (S2 ≠ [] → rel = dns_namereln_contains ∨ rel = dns_namereln_commonancestor →
      leaves (f' None rel) u U A V) as Hmiss.
    { intros HS2 Hor. split; [apply Hf'|]. cbn. split.
      - apply (miss_root _ _ r); [done..|]. intros B1 B2 EB HB.
        (* the end of [A] would be the whole name of the node *)
        assert (∃ W, B2 = W ++ T1) as [W ->].
        { exists (take (length B2 - length T1) B2).
          apply same_labels_length in HB as [HlB _]. rewrite Eo, length_app in HlB.
          rewrite <- (take_drop (length B2 - length T1) B2) at 1. f_equal.
          rewrite EA in EB. rewrite <- (take_drop (length B2 - length T1) B2), app_assoc in EB.
          apply app_inj_2 in EB as [_ EB]; [done|]. rewrite length_drop. lia. }
        rewrite Eo in HB. apply same_labels_app_inv in HB as [HB _]; [|lia].
        rewrite EA, app_assoc in EB. apply app_inj_2 in EB as [EB _]; [|done].
        assert (W ≠ []) as HW by (apply same_labels_length in HB as [? _]; by destruct W, S2).
        assert (S1 ≠ []) as HS1 by (rewrite EB; intros Hc0; by apply app_nil in Hc0 as [_ ?]).
        destruct (Hord HS1 HS2) as [Hne' _]. apply Hne'. rewrite EB, toplabel_app by done.
        symmetry. by apply toplabel_same.
      - right. exists r. split_and!; try done. destruct Hor as [->| ->]; by exists common. }
    assert (rel ≠ dns_namereln_equal → rel ≠ dns_namereln_subdomain → S2 ≠ []) as HS2.
    { intros N1 N2 ->. destruct (decide (S1 = [])) as [->|HS1]; [by apply N1, Heq|by apply N2, Hsub]. }
    destruct rel; try done.
    + eexists. split; [done|]. apply Hmiss; auto.
    + destruct (proj1 Hsub eq_refl) as [HS1 ->]. cbn in Eo.
      destruct (go_below_spec _ _ _ _ _ r S1 T1 (Hf' (Some r) dns_namereln_subdomain) Hin EA HS1) as (f2 & P & Hf2 & Hcur & Hcmp).
      { rewrite Eo. by symmetry. }
      rewrite L1 in P. exists (FindGo f2). split; [exact P|]. exists r, S1, T1. split_and!; try done.
      destruct T1; [cbn in L1; lia|done].
    + destruct (proj1 Heq eq_refl) as [-> ->]. eexists. split; [done|]. split; [apply Hf'|]. cbn.
      split_and!; [done| |done]. rewrite EA, Eo. cbn. by symmetry.
    + eexists. split; [done|]. apply Hmiss; auto.
Qed.

Lemma findnode_loop_spec (Hrnd : DNS_NAME_MAXWIRE < length rnd) fuel f u U A V :
  finding f u U A V → f_current f = top (lv u) → length A < fuel →
  (lv u = E → f_compared f = dns_namereln_subdomain) →
  ∃ f' u' U' A' V', find_loop rnd opts None fuel s n f = Some (inl f') ∧ leaves f' u' U' A' V'.
Proof.
  revert f u U A V. induction fuel as [|fuel IH]; intros f u U A V H Hcur Hf Hcmp; [lia|].
  destruct (top (lv u)) as [r|] eqn:Hr.
  - destruct (find_round_spec Hrnd _ _ _ _ _ _ H Hr) as (st & Hrun & Hst).
    cbn [find_loop]. rewrite Hcur, Hrun. cbn [mbind option_bind]. destruct st as [f'|f'|]; [..|done].
    + exists f', u, U, A, V. done.
    + destruct Hst as (a & S1 & T1 & -> & HT1 & Hf' & Hcur' & Hcmp'). apply (IH _ _ _ _ _ Hf' Hcur'); [|done].
      rewrite length_app in Hf. destruct T1; [done|cbn in Hf; lia].
  - exists f, u, U, A, V. cbn [find_loop]. rewrite Hcur. split; [done|]. split; [done|]. rewrite Hcur.
    assert (lv u = E) as HE by by destruct (lv u).
    split; [|left; auto]. intros p S1 S2 Hp. rewrite HE in Hp. by apply elem_of_nil in Hp.
Qed.

(** ** The end of the loop *)

Lemma miss_cover u A X b Z Y :
  (∀ p S1 S2, p ∈ nodes (lv u) → A = S1 ++ S2 → S1 ≠ [] → ¬ same_labels (own p) S2) →
  under lv own u X b → A = Z ++ Y → same_labels Y X → Z ≠ [] → False.
Proof.
  intros Hm HX -> HY HZ. assert (same_labels X Y) as HY' by by symmetry.
  destruct (under_top lv own s F u X b Y HX HY') as (c & Hc & _ & [[_ Hs]|(X' & Y1 & Y2 & _ & -> & _ & H2)]).
  - by eapply (Hm c Z Y).
  - eapply (Hm c (Z ++ Y1) Y2); [done|by rewrite app_assoc| |by symmetry].
    intros Hc0. by apply app_nil in Hc0 as [? _].
Qed.

(** The nodes that were passed are all the ancestors of the name. *)
Lemma leaves_ancestors f u U A V b :
  leaves f u U A V → b ∈ levels (f_chain f) ↔ ∃ B, named lv own b B ∧ below N B.
Proof.
  intros [H Hcur]. destruct H as [HU Hs HA Habs HN HV Hh Hc Hnode Hcover Hr Hlm]. split.
  - intros Hb. destruct (chain_names s lv own F u _ U b Hc HU Hb) as (B & Z & HB & ->).
    exists B. split; [done|]. apply same_labels_length in HV as Hl. 
    unfold same_labels in HV. rewrite fmap_app in HV. apply fmap_app_inv in HV as (V1 & V2 & E1 & E2 & ->).
    exists (A ++ V1), V2. split_and!; [by rewrite HN, app_assoc| |by unfold same_labels].
    intros Hc0. by apply app_nil in Hc0 as [? _].
  - intros (B & HB & Hb). destruct (Hcover b B HB Hb) as [Hin|(X & Z & Y & HX & EA & HY & HZ)]; [done|].
    exfalso. eapply miss_cover; try done. intros p S1 S2 Hp E HS1 Hsame.
    destruct (f_current f) as [q|].
    + destruct Hcur as (Hq & Hqs & _). pose proof (own_nonempty lv own s F _ _ Hp) as Hne.
      assert (S2 ≠ []) as HS2 by (apply same_labels_length in Hsame as [? _]; by destruct S2, (own p)).
      assert (p = q) as ->.
      { eapply (top_unique lv own s F); [done..|]. rewrite (toplabel_same _ _ Hsame), (toplabel_same _ _ Hqs).
        by rewrite E, toplabel_app. }
      apply same_labels_length in Hsame as [L1 _]. apply same_labels_length in Hqs as [L2 _].
      rewrite E, length_app in L2. destruct S1; [done|cbn in L2; lia].
    + destruct Hcur as [Hm _]. by eapply (Hm p S1 S2).
Qed.

Lemma leaves_exact f u U A V q M :
  leaves f u U A V → named lv own q M → same_labels M N → f_current f = Some q.
Proof.
  intros [H Hcur] HM Hs0. destruct H as [HU Hs HA Habs HN HV Hh Hc Hnode Hcover Hr Hlm].
  assert (same_labels M (A ++ U)) as Hs1.
  { rewrite Hs0, HN. by apply same_labels_app. }
  destruct (f_current f) as [p|].
  - destruct Hcur as (Hp & Hps & _). f_equal.
    eapply (named_inj lv own s F _ _ (own p ++ U) M); [by eapply named_place|done|].
    rewrite Hs1. by apply same_labels_app.
  - exfalso. destruct (named_under_place lv own s F q M u U A HM HU Hs1 HA) as (X & HX & HXA).
    destruct (under_top lv own s F u X q A HX HXA) as (c & Hc' & _ & Hcase).
    destruct Hcur as [Hm _]. destruct Hcase as [[_ Hsame]|(X' & Y1 & Y2 & _ & EA & _ & H2)].
    + by eapply (Hm c [] A).
    + by eapply (Hm c Y1 Y2).
Qed.

Lemma match_level_spec L i a :
  i < length L → (∃ j, j <= i ∧ L !! j = Some a) → ∃ k, match_level L i a = Some k ∧ L !! k = Some a ∧ k <= i.
Proof.
  induction i as [|i IH]; intros Hi (j & Hj & Ha).
  - assert (j = 0) as -> by lia. cbn. rewrite Ha. cbn. rewrite bool_decide_true by done. by exists 0.
  - destruct (lookup_lt_is_Some_2 L (S i) Hi) as [p Hp]. cbn [match_level]. rewrite Hp. cbn [mbind option_bind].
    case_bool_decide as Hpa; [subst; by exists (S i)|].
    destruct (IH ltac:(lia)) as (k & -> & Hk & Hle); [|exists k; split_and!; [done..|lia]].
    exists j. split; [|done]. destruct (decide (j = S i)) as [->|]; [congruence|lia].
Qed.

Lemma chain_take u L i a : chain_to lv u L → L !! i = Some a → chain_to lv (Some a) (take (S i) L).
Proof.
  intros H. revert i. induction H as [|u L b H IH Hb]; intros i Hi; [done|].
  destruct (decide (i < length L)) as [Hlt|Hge].
  - rewrite lookup_app_l in Hi by done. rewrite take_app_le by lia. by apply IH.
  - assert (i = length L) as ->.
    { apply lookup_lt_Some in Hi. rewrite length_app in Hi. cbn in Hi. lia. }
    rewrite lookup_app_r, Nat.sub_diag in Hi by lia. injection Hi as ->.
    rewrite take_ge by (rewrite length_app; cbn; lia). by eapply chain_down.
Qed.

Lemma last_filter (P : ptr → bool) (L : list ptr) :
  match last (filter P L) with
  | Some a => ∃ i, L !! i = Some a ∧ P a = true ∧ ∀ j b, L !! j = Some b → P b = true → j <= i
  | None => ∀ b, b ∈ L → P b = false
  end.
Proof.
  induction L as [|x L IH] using rev_ind; [by intros b ?%elem_of_nil|]. rewrite filter_app.
  destruct (P x) eqn:Hx.
  - rewrite (filter_cons_True _ x []), filter_nil, last_snoc by by rewrite Hx.
    exists (length L). rewrite lookup_app_r, Nat.sub_diag by lia. split_and!; try done.
    intros j b Hj _. apply lookup_lt_Some in Hj. rewrite length_app in Hj. cbn in Hj. lia.
  - rewrite (filter_cons_False _ x []), filter_nil, app_nil_r by (rewrite Hx; by intros []).
    destruct (last (filter P L)) as [a|].
    + destruct IH as (i & Hi & Ha & Hmax). exists i. rewrite lookup_app_l by by eapply lookup_lt_Some.
      split_and!; try done. intros j b Hj Hb. apply lookup_app_Some in Hj as [Hj|[_ Hj]]; [by eapply Hmax|].
      apply list_lookup_singleton_Some in Hj as [_ ->]. congruence.
    + intros b [Hb| ->%list_elem_of_singleton]%elem_of_app; auto.
Qed.

(** ** The result *)

Definition not_exact : Prop :=
  ∀ q M, named lv own q M → same_labels M N → NOEXACT opts = true ∨ wanted_node q = false.

(** The node of the name, or the deepest wanted node above it. *)
Definition found (result : isc_result) (node : option ptr) : Prop :=
  match result with
  | ISC_R_SUCCESS => ∃ p M, node = Some p ∧ named lv own p M ∧ same_labels M N ∧
      NOEXACT opts = false ∧ wanted_node p = true
  | DNS_R_PARTIALMATCH => not_exact ∧ ∃ a M, node = Some a ∧ named lv own a M ∧ below N M ∧
      wanted_node a = true ∧
      ∀ b B, named lv own b B → below N B → wanted_node b = true → length B <= length M
  | ISC_R_NOTFOUND => not_exact ∧ node = None ∧
      ∀ b B, named lv own b B → below N B → wanted_node b = false
  | _ => False
  end.

Definition names_node (foundname : bool) (fname : option name) (node : option ptr) : Prop :=
  foundname = true → ∀ p M, node = Some p → named lv own p M →
    ∃ nm, fname = Some nm ∧ name_repr nm M.

(** The first half of [find_partial]. *)
Definition partial_node (f : find_state) (foundname : bool) : option (isc_result * option name * chain) :=
  let c := f_chain f in
  match f_node f with
  | Some node =>
      i ← match_level (levels c) (level_count c - 1) node;
      let c := Chain (chain_end c) (levels c) i in
      '(result, fname) ←
        (if foundname then
           '(r, nm) ← chain_name s (Chain (chain_end c) (take (S i) (levels c)) i) false;
           Some (r, Some nm)
         else Some (ISC_R_SUCCESS, None));
      Some (if bool_decide (result = ISC_R_SUCCESS) then DNS_R_PARTIALMATCH else result, fname, c)
  | None => Some (ISC_R_NOTFOUND, None, c)
  end.

Lemma partial_node_spec f u U A V foundname :
  leaves f u U A V → not_exact →
  ∃ result fname c, partial_node f foundname = Some (result, fname, c) ∧
    levels c = levels (f_chain f) ∧ chain_end c = chain_end (f_chain f) ∧
    (levels c ≠ [] → level_matches c < level_count c) ∧
    found result (f_node f) ∧ names_node foundname fname (f_node f).
Proof.
  intros HL Hne. pose proof HL as [H _]. destruct H as [HU Hs HA Habs HN HV Hh Hc Hnode Hcover Hr Hlm].
  unfold partial_node. pose proof (last_filter wanted_node (levels (f_chain f))) as Hlast.
  rewrite <- Hnode in Hlast. destruct (f_node f) as [a|].
  - destruct Hlast as (i & Hi & Ha & Hmax). pose proof (lookup_lt_Some _ _ _ Hi) as Hlt.
    destruct (match_level_spec (levels (f_chain f)) (level_count (f_chain f) - 1) a) as (k & -> & Hk & Hkl);
      [lia|exists i; split; [lia|done]|].
    cbn [mbind option_bind levels chain_end].
    assert (a ∈ levels (f_chain f)) as Hin by by eapply list_elem_of_lookup_2.
    apply (leaves_ancestors f u U A V a HL) in Hin as (M & HM & Hb).
    assert (labels_ok M) as HokM.
    { destruct (fo_named _ _ _ F a) as (M' & HM' & Hok); [by eapply named_live|].
      by rewrite (named_fun lv own s F _ _ _ HM HM'). }
    destruct (chain_name_none s lv own F (take (S k) (levels (f_chain f))) a M (chain_end (f_chain f)) k)
      as (nm & Hrun & Hrep); [by eapply chain_take|done|done|].
    assert (found DNS_R_PARTIALMATCH (Some a)) as Hfound.
    { split; [done|]. exists a, M. split_and!; try done. intros b B HB Hbb Hw.
      assert (b ∈ levels (f_chain f)) as Hbin.
      { apply (leaves_ancestors f u U A V b HL). by exists B. }
      apply list_elem_of_lookup in Hbin as [j Hj]. pose proof (Hmax j b Hj Hw) as Hji.
      destruct (chain_names s lv own F (Some a) (take (S i) (levels (f_chain f))) M b) as (B' & Z & HB' & ->).
      - by eapply chain_take.
      - done.
      - apply list_elem_of_lookup. exists j. rewrite lookup_take_lt by lia. done.
      - rewrite (named_fun lv own s F _ _ _ HB HB'), length_app. lia. }
    destruct foundname.
    + rewrite Hrun. cbn [mbind option_bind]. eexists _, _, _. split; [done|]. split_and!; try done.
      * cbn. lia.
      * intros _ p M' [= <-] HM'. rewrite (named_fun lv own s F _ _ _ HM' HM). by eexists.
    + cbn [mbind option_bind]. eexists _, _, _. split; [done|]. split_and!; try done. cbn. lia.
  - eexists _, _, _. split; [done|]. split_and!; try done.
    { intros Hl. rewrite Hlm. by destruct (levels (f_chain f)); [|cbn; lia]. }
    split; [done|]. split; [done|].
    intros b B HB Hb. apply Hlast. apply (leaves_ancestors f u U A V b HL). by exists B.
Qed.

Lemma find_exact f u U A V :
  leaves f u U A V →
  ∃ exact, match f_current f with
    | Some p => o ← outers s !! p;
                Some (if negb (NOEXACT opts) && wanted opts o then Some p else None)
    | None => Some None
    end = Some exact ∧
    match exact with
    | Some p => f_current f = Some p ∧ NOEXACT opts = false ∧ wanted_node p = true
    | None => not_exact ∧ ∀ p o, f_current f = Some p → outers s !! p = Some o →
        NOEXACT opts || negb (EMPTYDATA opts) && bool_decide (data o = None) = true
    end.
Proof.
  intros HL. destruct (f_current f) as [p|] eqn:Hcur.
  - pose proof HL as [_ Hc]. rewrite Hcur in Hc. destruct Hc as (Hp & _ & _).
    destruct (level_node _ _ Hp) as (o & Ho & _). rewrite Ho. cbn [mbind option_bind].
    assert (wanted_node p = wanted opts o) as Hw by (unfold wanted_node; by rewrite Ho).
    eexists. split; [done|]. destruct (negb (NOEXACT opts) && wanted opts o) eqn:E.
    + apply andb_true_iff in E as [E1 E2]. rewrite Hw. split_and!; try done. by destruct (NOEXACT opts).
    + split.
      * intros q M HM Hs. pose proof (leaves_exact f u U A V q M HL HM Hs) as Hq. rewrite Hcur in Hq.
        injection Hq as <-. rewrite Hw. destruct (NOEXACT opts); [by left|by right].
      * intros p' o' [= <-] Ho'. rewrite Ho in Ho'. injection Ho' as <-.
        unfold wanted in E. destruct (NOEXACT opts); [done|]. cbn in *.
        destruct (EMPTYDATA opts); [by rewrite orb_true_r in E|]. cbn. rewrite orb_false_r in E.
        apply bool_decide_eq_false in E. apply bool_decide_true. destruct (data o); [by destruct E|done].
  - exists None. split; [done|]. split; [|done]. intros q M HM Hs.
    pose proof (leaves_exact f u U A V q M HL HM Hs) as Hq. congruence.
Qed.

End Loop.
