(* ===== verification/NameWalk.v ===== *)
(** * Walking the name tree in the DNSSEC order

    [dns_rbtnodechain_prev], and what it is made of: the neighbours of a node
    in its level, and the last node below a level. [predecessor N q]: no name
    of the tree comes between that of [q] and [N]. *)

From stdpp Require Import gmap.
From S2P Require Import Prelude Rdata Name Rbt RbtTree RbtLevel RbtAdd RbtFix NameTree NameChain NameFind NameForest NameHash NameLink NameSplit NameReplace NameGrow NameAdd NameSearch NameFindSpec.

#[local] Open Scope nat_scope.

(** ** The order of names *)

Definition name_lt (N1 N2 : list label) : Prop := (keycmp (key N1) (key N2) < 0)%Z.
Definition name_le (N1 N2 : list label) : Prop := (keycmp (key N1) (key N2) <= 0)%Z.

Lemma name_le_refl N : name_le N N.
Proof. unfold name_le. by rewrite keycmp_refl. Qed.

Lemma name_lt_le N1 N2 : name_lt N1 N2 → name_le N1 N2.
Proof. unfold name_lt, name_le. lia. Qed.

Lemma name_le_trans N1 N2 N3 : name_le N1 N2 → name_le N2 N3 → name_le N1 N3.
Proof. apply keycmp_trans. Qed.

Lemma name_lt_not_le N1 N2 : name_lt N1 N2 ↔ ¬ name_le N2 N1.
Proof. unfold name_lt, name_le. rewrite (keycmp_opp (key N1)). lia. Qed.

Lemma name_lt_le_trans N1 N2 N3 : name_lt N1 N2 → name_le N2 N3 → name_lt N1 N3.
Proof.
  rewrite !name_lt_not_le. intros H1 H2 H3. apply H1. by eapply name_le_trans.
Qed.

Lemma name_le_lt_trans N1 N2 N3 : name_le N1 N2 → name_lt N2 N3 → name_lt N1 N3.
Proof.
  rewrite !name_lt_not_le. intros H1 H2 H3. apply H2. by eapply name_le_trans.
Qed.

(** Under the same place, the labels below it decide. *)
Lemma name_cmp_under X Y U V :
  same_labels U V → keycmp (key (X ++ U)) (key (Y ++ V)) = keycmp (key X) (key Y).
Proof. intros H%key_same. by rewrite !key_app, H, keycmp_app. Qed.

Lemma name_lt_below X U : X ≠ [] → name_lt U (X ++ U).
Proof.
  intros HX. unfold name_lt. change (key U) with (key ([] ++ U)) at 1. rewrite (name_cmp_under [] X U U) by done.
  cbn. destruct (key X) as [|a k] eqn:E; [|cbn; lia].
  apply (f_equal length) in E. rewrite key_length in E. destruct X; [done|cbn in E; lia].
Qed.

(** The last labels decide, when they differ. *)
Lemma name_lt_top X Y :
  X ≠ [] → Y ≠ [] → (lexcmp (toplabel X) (toplabel Y) < 0)%Z → name_lt X Y.
Proof.
  intros HX HY Hlt. unfold name_lt. rewrite keycmp_top; [done..|]. intros E. rewrite E, lexcmp_refl in Hlt. lia.
Qed.

(** What does not end with [U] compares with all names below [U] as with
    [U]. *)
Lemma keycmp_outside k kU kX :
  ¬ kU `prefix_of` k → keycmp k (kU ++ kX) = keycmp k kU.
Proof.
  revert k. induction kU as [|a kU IH]; intros k Hp; [exfalso; apply Hp; by exists k|].
  destruct k as [|b k]; [done|]. cbn. case_bool_decide as E; [|done].
  apply IH. intros [z Hz]. apply Hp. apply lexcmp_eq in E as ->. exists z. by rewrite Hz.
Qed.

Lemma name_cmp_outside B X U :
  ¬ same_labels B U → ¬ below B U → keycmp (key B) (key (X ++ U)) = keycmp (key B) (key U).
Proof.
  intros H1 H2. rewrite key_app. apply keycmp_outside. intros Hp. by apply key_suffix in Hp as [?|?].
Qed.

(** ** The ends of a level *)

Definition end_of {A} (d : side) (l : list A) : option A := match d with Lft => head l | Rgt => last l end.

Lemma end_of_app d {A} (l1 l2 : list A) :
  end_of d (l1 ++ l2) = match d with
                        | Lft => match head l1 with None => head l2 | x => x end
                        | Rgt => match last l2 with None => last l1 | x => x end
                        end.
Proof.
  destruct d; cbn; [by destruct l1|]. rewrite last_app. by destruct (last l2).
Qed.

Lemma farthest_spec fuel d m t par isr p :
  tree_at m t par isr → top t = Some p → length (nodes t) < fuel →
  farthest fuel d m p = end_of d (nodes t).
Proof.
  revert t par isr p. induction fuel as [|fuel IH]; intros t par isr p Hat Hp Hf; [lia|].
  destruct t as [|c l x r]; [done|]. injection Hp as ->. destruct Hat as (Mp & Ml & Mr).
  cbn [farthest]. rewrite Mp. cbn [mbind option_bind nodes]. cbn [nodes] in Hf.
  rewrite length_app in Hf. cbn in Hf. rewrite end_of_app. destruct d; cbn [child left right].
  - destruct (top l) as [q|] eqn:Hq.
    + rewrite (IH l _ _ q Ml Hq) by lia. cbn. destruct (head (nodes l)) eqn:E; [done|].
      apply head_None in E. destruct l as [|? ? ? ?]; [done|]. cbn in E. by apply app_nil in E as [_ ?].
    + by destruct l.
  - rewrite last_cons. destruct (top r) as [q|] eqn:Hq.
    + rewrite (IH r _ _ q Mr Hq) by lia. cbn. destruct (last (nodes r)) eqn:E; [done|].
      apply last_None in E. destruct r as [|? ? ? ?]; [done|]. cbn in E. by apply app_nil in E as [_ ?].
    + by destruct r.
Qed.

(** The node before ([Rgt]) or after ([Lft]) a hole. *)
Definition edge (d : side) (k : path) : option ptr :=
  match d with Rgt => last (before_hole k) | Lft => head (after_hole k) end.

Lemma climb_spec fuel d m root u k t p :
  level m root u (plug k t) → top t = Some p → length k < fuel →
  ∃ cur, climb fuel d m p = Some (edge d k, cur) ∧
    (edge d k = None → ∃ cn, m !! cur = Some cn ∧ is_root cn = true).
Proof.
  revert fuel t p. induction k as [|[d' c q sib] k IH]; intros [|fuel] t p H Hp Hf; cbn in Hf; try lia.
  - destruct (level_hole _ _ _ _ _ H) as [_ _ Hat _ _ _]. destruct t as [|ct l x r]; [done|].
    injection Hp as ->. destruct Hat as (Mp & _). cbn. rewrite Mp. cbn. exists p.
    split; [by destruct d|]. intros _. by eexists.
  - destruct (level_hole _ _ _ _ _ H) as [_ Hk Hat Hap Dk _]. destruct t as [|ct l x r]; [done|].
    injection Hp as ->. pose proof Hat as (Mp & _). cbn [climb]. rewrite Mp.
    cbn [mbind option_bind is_root is_top Rbt.parent parent_of f_ptr].
    destruct Hk as (Mq & Ms & _). cbn [top] in Mq. rewrite Mq. cbn [mbind option_bind].
    destruct (decide (d' = d)) as [->|Hd].
    + rewrite child_node_of, bool_decide_true by done. exists q.
      assert (edge d (Frame d c q sib :: k) = Some q) as ->; [|done].
      destruct d; cbn; [done|]. by rewrite app_assoc, last_snoc.
    + assert (d = opp d') as -> by (destruct d, d'; done).
      rewrite child_opp_node_of, bool_decide_false.
      * assert (edge (opp d') (Frame d' c q sib :: k) = edge (opp d') k) as -> by by destruct d'.
        apply (IH fuel (mk d' c (T ct l p r) q sib)); [done|by rewrite top_mk|lia].
      * intros Hs. apply top_elem in Hs. apply (Hap p); cbn; set_solver.
Qed.

Section Walk.
Context (rnd : list Z).
Context (s : dns_rbt) (lv : option ptr → tree) (own : ptr → list label) (HT : name_tree rnd s lv own).

Let F : forest lv own s := nt_forest _ _ _ _ HT.

Lemma level_of u U : place lv own u U → level (links s) (level_root s u) u (lv u).
Proof. intros HU. apply (fo_level _ _ _ F). intros p Hp. by eapply place_live. Qed.

Lemma neighbour_spec d u U l1 p l2 :
  place lv own u U → nodes (lv u) = l1 ++ p :: l2 →
  ∃ cur, neighbour d s p = Some (match d with Rgt => last l1 | Lft => head l2 end, cur) ∧
    (match d with Rgt => last l1 | Lft => head l2 end = None →
     ∃ cn, links s !! cur = Some cn ∧ is_root cn = true).
Proof.
  intros HU Hn. pose proof (level_of u U HU) as H.
  destruct (node_place (lv u) p) as (k & c & l & r & Ht); [rewrite Hn; set_solver|].
  pose proof (level_nodup _ _ _ _ H) as Hd. rewrite Hn in Hd. rewrite Ht in Hn.
  rewrite plug_nodes in Hn. cbn [nodes] in Hn. rewrite <- !app_assoc in Hn. rewrite app_assoc in Hn. cbn in Hn.
  destruct (nodup_split _ _ _ _ _ Hd (eq_sym Hn)) as [-> ->]. rewrite Ht in H.
  destruct (level_hole _ _ _ _ _ H) as [_ _ (Mp & Ml & Mr) _ _ _].
  pose proof (level_path_size _ _ _ _ _ H) as Hsize. pose proof (level_size _ _ _ _ H) as Hsz.
  rewrite plug_perm in Hsz. cbn in Hsz. rewrite !length_app in Hsz. cbn in Hsz.
  destruct (climb_spec (S (size (links s))) d _ _ _ k (T c l p r) p H eq_refl ltac:(lia)) as (cur & Hc & Hcr).
  unfold neighbour. rewrite Mp. cbn [mbind option_bind].
  destruct d; cbn [opp child left right].
  - destruct (top r) as [q|] eqn:Hq.
    + rewrite (farthest_spec _ Lft _ r _ _ q Mr Hq) by lia. cbn [end_of].
      destruct r as [|cr rl rp rr]; [done|].
      assert (∃ z, head (nodes (T cr rl rp rr)) = Some z) as [z Hz].
      { cbn. destruct (nodes rl); by eexists. }
      rewrite Hz. cbn [mbind option_bind]. exists z.
      assert (head (nodes (T cr rl rp rr) ++ after_hole k) = Some z) as ->.
      { cbn in Hz |- *. by destruct (nodes rl). }
      done.
    + destruct r; [|done]. exists cur. cbn. done.
  - destruct (top l) as [q|] eqn:Hq.
    + rewrite (farthest_spec _ Rgt _ l _ _ q Ml Hq) by lia. cbn [end_of].
      assert (∃ z, last (nodes l) = Some z) as [z Hz].
      { destruct l as [|cl ll lp lr]; [done|]. cbn. rewrite last_app, last_cons. by destruct (last (nodes lr)); eexists. }
      rewrite Hz. cbn [mbind option_bind]. exists z. rewrite last_app, Hz. done.
    + destruct l; [|done]. exists cur. rewrite app_nil_r. done.
Qed.

(** ** The place of a name among the names of the tree *)

Lemma name_lt_same N1 N2 M1 M2 : same_labels N1 N2 → same_labels M1 M2 → name_lt N1 M1 ↔ name_lt N2 M2.
Proof. unfold name_lt. by intros ->%key_same ->%key_same. Qed.

Lemma named_cases u U b B :
  place lv own u U → named lv own b B →
  (u = Some b ∧ B = U) ∨ (∃ Y, under lv own u Y b ∧ B = Y ++ U) ∨
  ∀ X, keycmp (key B) (key (X ++ U)) = keycmp (key B) (key U).
Proof.
  intros HU HB. assert (B ≠ []) as HBn.
  { apply (named_under lv own) in HB. by eapply under_nonempty. }
  destruct (decide (same_labels B U)) as [Hs|Hs].
  - left. destruct u as [a|]; cbn in HU.
    + assert (b = a) as -> by (eapply (named_inj lv own s F); done).
      split; [done|]. by eapply (named_fun lv own s F).
    + subst U. apply same_labels_length in Hs as [Hl _]. by destruct B.
  - destruct (decide (key U `prefix_of` key B)) as [Hp|Hp].
    + right. left. apply key_suffix in Hp as [?|(p & q & E & Hpn & Hq)]; [done|].
      assert (same_labels B (p ++ U)) as HBp by (rewrite E; by apply same_labels_app).
      destruct (named_under_place lv own s F b B u U p HB HU HBp Hpn) as (X & HX & _).
      exists X. split; [done|]. eapply (named_fun lv own s F); [done|]. by eapply under_named.
    + right. right. intros X. apply name_cmp_outside; [done|]. intros Hb. apply Hp, key_suffix. by right.
Qed.

(** [X] is the last name below [u] before [A]. *)
Lemma pred_inside u U A q X :
  place lv own u U → under lv own u X q → name_lt X A →
  (∀ b Y, under lv own u Y b → name_lt Y A → name_le Y X) →
  named lv own q (X ++ U) ∧ name_lt (X ++ U) (A ++ U) ∧
  ∀ b B, named lv own b B → name_lt B (A ++ U) → name_le B (X ++ U).
Proof.
  intros HU HX Hlt Hmax. split; [by eapply under_named|]. split.
  - unfold name_lt. by rewrite (name_cmp_under X A U U).
  - intros b B HB HBN. destruct (named_cases u U b B HU HB) as [[_ ->]|[(Y & HY & ->)|Hout]].
    + apply name_lt_le, name_lt_below. by eapply (under_nonempty lv own s F).
    + unfold name_lt, name_le in *. rewrite (name_cmp_under Y A U U) in HBN by done.
      rewrite (name_cmp_under Y X U U) by done. by eapply Hmax.
    + unfold name_lt, name_le in *. rewrite Hout in *. lia.
Qed.

(** There is none: the name before is that of the place. *)
Lemma pred_outside a U A :
  place lv own (Some a) U → A ≠ [] → (∀ b Y, under lv own (Some a) Y b → ¬ name_lt Y A) →
  named lv own a U ∧ name_lt U (A ++ U) ∧
  ∀ b B, named lv own b B → name_lt B (A ++ U) → name_le B U.
Proof.
  intros HU HA Hno. split; [done|]. split; [by apply name_lt_below|].
  intros b B HB HBN. destruct (named_cases (Some a) U b B HU HB) as [[_ ->]|[(Y & HY & ->)|Hout]].
  - apply name_le_refl.
  - exfalso. apply (Hno b Y HY). unfold name_lt in *. by rewrite (name_cmp_under Y A U U) in HBN.
  - unfold name_lt, name_le in *. rewrite Hout in HBN. lia.
Qed.

(** ** The last name below a place *)

Lemma under_cases u Y b :
  under lv own u Y b → ∃ c, c ∈ nodes (lv u) ∧ toplabel Y = toplabel (own c) ∧
    ((b = c ∧ Y = own c) ∨ ∃ Y', under lv own (Some c) Y' b ∧ Y = Y' ++ own c).
Proof.
  destruct 1 as [u q Hq|u a X q Ha Hq].
  - exists q. auto.
  - exists a. split; [done|]. split.
    + apply toplabel_app. by eapply (own_nonempty lv own s F).
    + right. by exists X.
Qed.

(** The nodes of a level before and after one of them. *)
Lemma level_sides u l1 z l2 c :
  nodes (lv u) = l1 ++ z :: l2 → c ∈ nodes (lv u) →
  c = z ∨ (c ∈ l1 ∧ earlier own c z) ∨ (c ∈ l2 ∧ earlier own z c).
Proof.
  intros Hn Hc. pose proof (fo_order _ _ _ F u) as Ho. rewrite Hn in *.
  apply StronglySorted_app in Ho as (Hlt & _ & Ho). apply StronglySorted_cons in Ho as [Ho _].
  rewrite Forall_forall in Ho. apply elem_of_app in Hc as [Hc|[->|Hc]%elem_of_cons]; [|by left|].
  - right. left. split; [done|]. apply Hlt; set_solver.
  - right. right. split; [done|]. by apply Ho.
Qed.

Lemma earlier_lt c z Y X :
  c ≠ z → Y ≠ [] → X ≠ [] → toplabel Y = toplabel (own c) → toplabel X = toplabel (own z) →
  earlier own c z → name_lt Y X.
Proof. intros _ HY HX E1 E2 He. apply name_lt_top; [done..|]. rewrite E1, E2. exact He. Qed.

(** [X], of [q], is the greatest name in the subtree of the node [z] of the
    level [u]. *)
Definition greatest_at (u : option ptr) (z : ptr) (X : list label) (q : ptr) : Prop :=
  toplabel X = toplabel (own z) ∧
  ∀ b Y, under lv own u Y b → toplabel Y = toplabel (own z) → name_le Y X.

Lemma greatest_leaf u z :
  z ∈ nodes (lv u) → lv (Some z) = E → greatest_at u z (own z) z.
Proof.
  intros Hz HE. split; [done|]. intros b Y HY Htop.
  destruct (under_cases u Y b HY) as (c & Hc & Hct & Hcase).
  assert (c = z) as -> by (eapply (top_unique lv own s F); [done..|]; congruence).
  destruct Hcase as [[_ ->]|(Y' & HY' & _)]; [apply name_le_refl|].
  destruct (under_cases _ _ _ HY') as (c' & Hc' & _). rewrite HE in Hc'. by apply elem_of_nil in Hc'.
Qed.

Lemma greatest_down u z l z' X q :
  z ∈ nodes (lv u) → nodes (lv (Some z)) = l ++ [z'] → under lv own (Some z) X q →
  greatest_at (Some z) z' X q → under lv own u (X ++ own z) q ∧ greatest_at u z (X ++ own z) q.
Proof.
  intros Hz Hl HX [Htop Hmax]. pose proof (own_nonempty lv own s F _ _ Hz) as Hne.
  split; [by apply under_down|]. split; [by apply toplabel_app|]. intros b Y HY HtY.
  destruct (under_cases u Y b HY) as (c & Hc & Hct & Hcase).
  assert (c = z) as -> by (eapply (top_unique lv own s F); [done..|]; congruence).
  destruct Hcase as [[_ ->]|(Y' & HY' & ->)].
  - apply name_lt_le. change (own z) with ([] ++ own z) at 1. unfold name_lt.
    rewrite (name_cmp_under [] X) by done. pose proof (name_lt_below X [] (under_nonempty lv own s F _ _ _ HX)) as Hb.
    unfold name_lt in Hb. by rewrite app_nil_r in Hb.
  - unfold name_le. rewrite (name_cmp_under Y' X) by done.
    destruct (under_cases _ _ _ HY') as (c' & Hc' & Hct' & _).
    destruct (level_sides _ _ _ _ _ Hl Hc') as [->|[[_ He]|[Hc0 _]]].
    + by apply (Hmax b).
    + assert (name_lt Y' X) as Hlt; [|unfold name_lt in Hlt; lia].
      apply name_lt_top; [by eapply (under_nonempty lv own s F)..|]. rewrite Hct', Htop. exact He.
    + by apply elem_of_nil in Hc0.
Qed.

Lemma nodes_snoc t r : top t = Some r → ∃ l z, nodes t = l ++ [z].
Proof.
  intros Hr. apply top_elem in Hr. destruct (nodes t) as [|z l _] using rev_ind; [by apply elem_of_nil in Hr|].
  by exists l, z.
Qed.

(** [move_chain_to_last] goes there. *)
Lemma move_chain_to_last_spec fuel c u U r :
  place lv own u U → chain_to lv u (levels c) → top (lv u) = Some r → 128 <= fuel + length U →
  ∃ c' v q l z X, move_chain_to_last fuel s c r = Some c' ∧ chain_end c' = Some q ∧
    chain_to lv v (levels c') ∧ q ∈ nodes (lv v) ∧ nodes (lv u) = l ++ [z] ∧ under lv own u X q ∧
    greatest_at u z X q.
Proof.
  revert c u U r. induction fuel as [|fuel IH]; intros c u U r HU Hc Hr Hf.
  all: pose proof (level_of u U HU) as Hl; pose proof (level_size _ _ _ _ Hl) as Hsz.
  all: destruct (nodes_snoc _ _ Hr) as (l & z & Hn).
  all: assert (z ∈ nodes (lv u)) as Hz by (rewrite Hn; set_solver).
  all: pose proof (named_place _ _ _ _ _ Hz HU) as Hnz; pose proof (own_nonempty lv own s F _ _ Hz) as Hne.
  all: assert (length (own z ++ U) <= 128) as Hlen
    by (destruct (fo_named _ _ _ F z) as (M & HM & Hok); [by exists u|];
        rewrite (named_fun lv own s F _ _ _ Hnz HM); by apply labels_ok_length).
  all: rewrite length_app in Hlen.
  { destruct (own z); [done|cbn in Hlen; lia]. }
  cbn [move_chain_to_last].
  rewrite (farthest_spec _ Rgt _ _ _ _ r (level_at _ _ _ _ Hl) Hr) by lia. cbn [end_of].
  rewrite Hn, last_snoc. cbn [mbind option_bind].
  destruct (level_node rnd s lv own HT z u Hz) as (o & Ho & _). rewrite Ho. cbn [mbind option_bind].
  pose proof (level_of (Some z) _ Hnz) as Hlz.
  assert (down o = top (lv (Some z))) as Hd.
  { pose proof (RbtLevel.level_root _ _ _ _ Hlz) as E. cbn in E. by rewrite Ho in E. }
  rewrite Hd. destruct (top (lv (Some z))) as [r'|] eqn:Hr'.
  - unfold ADD_LEVEL. pose proof (chain_length s lv own F _ _ _ Hc HU) as HlC.
    rewrite bool_decide_true by (unfold DNS_RBT_LEVELBLOCK; lia). cbn [mbind option_bind].
    destruct (IH (Chain (chain_end c) (levels c ++ [z]) (level_matches c)) (Some z) (own z ++ U) r' Hnz)
      as (c' & v & q & l' & z' & X & Hrun & He & Hc' & Hq & Hn' & HX & Hmax); [|done| |].
    + cbn. by eapply chain_down.
    + rewrite length_app. destruct (own z); [done|cbn; lia].
    + destruct (greatest_down u z l' z' X q Hz Hn' HX Hmax) as [HX' Hmax'].
      exists c', v, q, l, z, (X ++ own z). done.
  - assert (lv (Some z) = E) as HE by by destruct (lv (Some z)).
    exists (with_end c (Some z)), u, z, l, z, (own z). split_and!; try done.
    + by apply under_here.
    + by apply greatest_leaf.
Qed.

End Walk.
