(* ===== verification/NamePred.v ===== *)
(** * The predecessor of a name

    The chain that [dns_rbt_findnode] returns when a name is not in the tree
    leads to the name before it in the DNSSEC order, as
    [dns_rbtnodechain_prev] does from a name that is; the denial of existence
    of names rests on it. *)

From stdpp Require Import gmap.
From S2P Require Import Prelude Rdata Name Rbt RbtTree RbtLevel RbtAdd RbtFix NameTree NameChain NameFind NameForest NameHash NameLink NameSplit NameReplace NameGrow NameAdd NameSearch NameFindSpec NameWalk.

#[local] Open Scope nat_scope.

Section Pred.
Context (rnd : list Z).
Context (s : dns_rbt) (lv : option ptr → tree) (own : ptr → list label) (HT : name_tree rnd s lv own).

Let F : forest lv own s := nt_forest _ _ _ _ HT.

(** The chain is at the last name of the tree before [N]. *)
Definition at_predecessor (c : chain) (N : list label) : Prop :=
  match chain_end c with
  | Some q => ∃ v Q, chain_to lv v (levels c) ∧ q ∈ nodes (lv v) ∧ named lv own q Q ∧ name_lt Q N ∧
      ∀ b B, named lv own b B → name_lt B N → name_le B Q
  | None => ∀ b B, named lv own b B → ¬ name_lt B N
  end.

(** Down to the last node of the subtree of [z]. *)
Lemma last_under_spec c u U z o :
  place lv own u U → chain_to lv u (levels c) → z ∈ nodes (lv u) → outers s !! z = Some o →
  ∃ c' v q X, match down o with
    | Some q => c ← ADD_LEVEL c z; move_chain_to_last (S DNS_RBT_LEVELBLOCK) s c q
    | None => Some (with_end c (Some z))
    end = Some c' ∧ chain_end c' = Some q ∧ chain_to lv v (levels c') ∧ q ∈ nodes (lv v) ∧
    under lv own u X q ∧ greatest_at lv own u z X q.
Proof.
  intros HU Hc Hz Ho. pose proof (named_place _ _ _ _ _ Hz HU) as Hnz.
  pose proof (level_of rnd s lv own HT (Some z) _ Hnz) as Hlz.
  assert (down o = top (lv (Some z))) as ->.
  { pose proof (RbtLevel.level_root _ _ _ _ Hlz) as E. cbn in E. by rewrite Ho in E. }
  destruct (top (lv (Some z))) as [r|] eqn:Hr.
  - unfold ADD_LEVEL. pose proof (chain_length s lv own F _ _ _ Hc HU) as HlC.
    assert (length U <= 128) as HlU.
    { destruct (fo_named _ _ _ F z) as (M & HM & Hok); [by exists u|].
      apply labels_ok_length in Hok. rewrite <- (named_fun lv own s F _ _ _ Hnz HM), length_app in Hok. lia. }
    rewrite bool_decide_true by (unfold DNS_RBT_LEVELBLOCK; lia). cbn [mbind option_bind].
    destruct (move_chain_to_last_spec rnd s lv own HT (S DNS_RBT_LEVELBLOCK)
      (Chain (chain_end c) (levels c ++ [z]) (level_matches c)) (Some z) (own z ++ U) r Hnz)
      as (c' & v & q & l' & z' & X & Hrun & He & Hc' & Hq & Hn' & HX & Hmax); [|done| |].
    + cbn. by eapply chain_down.
    + unfold DNS_RBT_LEVELBLOCK. lia.
    + destruct (greatest_down rnd s lv own HT u z l' z' X q Hz Hn' HX Hmax) as [HX' Hmax'].
      by exists c', v, q, (X ++ own z).
  - assert (lv (Some z) = E) as HE by by destruct (lv (Some z)).
    exists (with_end c (Some z)), u, z, (own z). split_and!; try done.
    + by apply under_here.
    + by eapply greatest_leaf.
Qed.

(** It is the predecessor of what comes after the subtree of [z] and before
    the rest of the level. *)
Lemma greatest_predecessor c u U z X q v l1 l2 A N :
  place lv own u U → chain_end c = Some q → chain_to lv v (levels c) → q ∈ nodes (lv v) →
  nodes (lv u) = l1 ++ z :: l2 → under lv own u X q → greatest_at lv own u z X q →
  name_lt X A → (∀ c b Y, c ∈ l2 → under lv own u Y b → toplabel Y = toplabel (own c) → ¬ name_lt Y A) →
  same_labels N (A ++ U) → at_predecessor c N.
Proof.
  intros HU He Hc Hq Hn HX [Htop Hmax] Hlt Hafter HN. unfold at_predecessor. rewrite He.
  destruct (pred_inside rnd s lv own HT u U A q X HU HX Hlt) as (Hnq & HltN & Hpred).
  - intros b Y HY HYA. destruct (under_cases rnd s lv own HT u Y b HY) as (d & Hd & Hdt & _).
    destruct (level_sides rnd s lv own HT _ _ _ _ _ Hn Hd) as [->|[[_ He']|[Hd2 _]]].
    + by apply (Hmax b).
    + apply name_lt_le, name_lt_top; [by eapply (under_nonempty lv own s F)..|]. rewrite Hdt, Htop. exact He'.
    + by destruct (Hafter d b Y Hd2 HY Hdt).
  - exists v, (X ++ U). split_and!; try done.
    + by apply (name_lt_same (X ++ U) (X ++ U) (A ++ U) N).
    + intros b B HB HBN. eapply Hpred; [done|].
      by apply (name_lt_same B B N (A ++ U)).
Qed.

(** ** [dns_rbtnodechain_prev] *)

(** The names in the subtree of a node are not before it. *)
Lemma subtree_not_before u p b Y :
  p ∈ nodes (lv u) → under lv own u Y b → toplabel Y = toplabel (own p) → ¬ name_lt Y (own p).
Proof.
  intros Hp HY Htop. destruct (under_cases rnd s lv own HT u Y b HY) as (d & Hd & Hdt & Hcase).
  assert (d = p) as -> by (eapply (top_unique lv own s F); [done..|]; congruence).
  rewrite name_lt_not_le. intros Hn. apply Hn.
  destruct Hcase as [[_ ->]|(Y' & HY' & ->)]; [apply name_le_refl|].
  apply name_lt_le, name_lt_below. by eapply (under_nonempty lv own s F).
Qed.

Lemma later_not_before u p d b Y :
  p ∈ nodes (lv u) → under lv own u Y b → toplabel Y = toplabel (own d) → earlier own p d →
  ¬ name_lt Y (own p).
Proof.
  intros Hp HY Htop He. rewrite name_lt_not_le. intros Hn. apply Hn, name_lt_le, name_lt_top.
  - by eapply (own_nonempty lv own s F).
  - by eapply (under_nonempty lv own s F).
  - rewrite Htop. exact He.
Qed.

Lemma prev_run c u U p :
  chain_end c = Some p → chain_to lv u (levels c) → p ∈ nodes (lv u) → place lv own u U →
  ∃ result c', dns_rbtnodechain_prev s c false false = Some (result, c', None, None) ∧
    match result with
    | ISC_R_SUCCESS => is_Some (chain_end c') ∧ at_predecessor c' (own p ++ U)
    | ISC_R_NOMORE => ∀ b B, named lv own b B → ¬ name_lt B (own p ++ U)
    | _ => False
    end.
Proof.
  intros He Hc Hp HU. apply list_elem_of_split in Hp as Hn. destruct Hn as (l1 & l2 & Hn).
  destruct (neighbour_spec rnd s lv own HT Rgt u U l1 p l2 HU Hn) as (cur & Hnb & Hroot).
  unfold dns_rbtnodechain_prev. rewrite He. cbn [mbind option_bind]. rewrite Hnb. cbn [mbind option_bind].
  destruct l1 as [|z l1 _] using rev_ind.
  - cbn [last]. assert (∀ b Y, under lv own u Y b → ¬ name_lt Y (own p)) as Hno.
    { intros b Y HY. destruct (under_cases rnd s lv own HT u Y b HY) as (d & Hd & Hdt & _).
      destruct (level_sides rnd s lv own HT _ _ _ _ _ Hn Hd) as [->|[[Hd1 _]|[_ Hd2]]].
      - by eapply subtree_not_before.
      - by apply elem_of_nil in Hd1.
      - by eapply later_not_before. }
    pose proof (own_nonempty lv own s F _ _ Hp) as Hne.
    assert (c = Chain (chain_end c) (levels c) (level_matches c)) as Ec by by destruct c.
    inversion Hc as [E1 E2|u' L a Hc' Ha E1 E2]; subst u.
    + cbn [length]. rewrite (bool_decide_false (0 < 0)) by lia. eexists _, _. split; [done|]. cbn in HU. subst U.
      intros b B HB. rewrite app_nil_r. eapply Hno. by apply named_under.
    + rewrite (bool_decide_true (0 < length (L ++ [a]))) by (rewrite length_app; cbn; lia).
      destruct (Hroot eq_refl) as (cn & -> & Hcn). cbn [mbind option_bind]. rewrite Hcn.
      unfold drop_level. rewrite <- E2, last_snoc. cbn [mbind option_bind].
      destruct (level_node rnd s lv own HT a u' Ha) as (o & -> & _). cbn [mbind option_bind andb].
      cbn. eexists _, _. split; [done|]. split; [done|].
      destruct (pred_outside rnd s lv own HT a U (own p) HU Hne Hno) as (H1 & H2 & H3).
      exists u', U. cbn. rewrite removelast_last. done.
  - rewrite last_snoc.
    assert (z ∈ nodes (lv u)) as Hz by (rewrite Hn; set_solver).
    destruct (level_node rnd s lv own HT z u Hz) as (o & Ho & _). rewrite Ho. cbn [mbind option_bind].
    destruct (last_under_spec c u U z o HU Hc Hz Ho) as (c' & v & q & X & Hrun & He' & Hc' & Hq & HX & Hmax).
    exists ISC_R_SUCCESS, c'. split.
    + destruct (down o) as [r|].
      * destruct (ADD_LEVEL c z) as [c1|]; [|done]. cbn [mbind option_bind] in *. rewrite Hrun.
        cbn [mbind option_bind andb]. rewrite He'. unfold with_end, dns_rbtnodechain_current. cbn.
        by destruct c'; cbn in *; subst.
      * injection Hrun as <-. done.
    + split; [by rewrite He'|].
      rewrite <- app_assoc in Hn. cbn in Hn.
      assert (earlier own z p) as Hzp.
      { pose proof (fo_order _ _ _ F u) as Hso. rewrite Hn in Hso. apply StronglySorted_app in Hso as (_ & _ & Hso).
        apply StronglySorted_cons in Hso as [Hso _]. rewrite Forall_forall in Hso. apply Hso, elem_of_cons. by left. }
      eapply (greatest_predecessor c' u U z X q v l1 (p :: l2) (own p)); try done.
      * apply name_lt_top; [by eapply (under_nonempty lv own s F)|by eapply (own_nonempty lv own s F)|].
        destruct Hmax as [-> _]. exact Hzp.
      * intros d b Y Hd HY HdY. apply elem_of_cons in Hd as [->|Hd]; [by eapply subtree_not_before|].
        eapply later_not_before; [done..|]. pose proof (fo_order _ _ _ F u) as Hso. rewrite Hn in Hso.
        apply StronglySorted_app in Hso as (_ & _ & Hso). apply StronglySorted_cons in Hso as [_ Hso].
        apply StronglySorted_cons in Hso as [Hso _]. rewrite Forall_forall in Hso. by apply Hso.
Qed.

(** ** The place of a name that is not there *)

(** [A] cuts the level [u] in two; no name of the level ends [A]. *)
Record cut (u : option ptr) (A : list label) (l1 l2 : list ptr) : Prop := Cut {
  cut_level : nodes (lv u) = l1 ++ l2;
  cut_before c : c ∈ l1 → name_lt (own c) A;
  cut_after c : c ∈ l2 → name_lt A (own c);
  cut_miss c S1 S2 : c ∈ nodes (lv u) → A = S1 ++ S2 → ¬ same_labels (own c) S2 }.

(** The names of a subtree are on the side of its root. *)
Lemma cut_subtree u A l1 l2 c b Y :
  cut u A l1 l2 → under lv own u Y b → c ∈ nodes (lv u) → toplabel Y = toplabel (own c) →
  name_lt Y A ↔ name_lt (own c) A.
Proof.
  intros [_ _ _ Hm] HY Hc Htop. destruct (under_cases rnd s lv own HT u Y b HY) as (d & Hd & Hdt & Hcase).
  assert (d = c) as -> by (eapply (top_unique lv own s F); [done..|]; congruence).
  destruct Hcase as [[_ ->]|(Y' & HY' & ->)]; [done|]. unfold name_lt.
  pose proof (name_cmp_outside A Y' (own c)) as Ho.
  assert (¬ same_labels A (own c)) as N1 by (intros E; by apply (Hm c [] A)).
  assert (¬ below A (own c)) as N2.
  { intros (S1 & S2 & -> & _ & E). by apply (Hm c S1 S2). }
  specialize (Ho N1 N2). pose proof (keycmp_opp (key A) (key (Y' ++ own c))).
  pose proof (keycmp_opp (key A) (key (own c))). lia.
Qed.

(** Before the cut: the greatest name of the last subtree. *)
Lemma cut_greatest c u U A l1 z l2 X q v N :
  cut u A (l1 ++ [z]) l2 → place lv own u U →
  chain_end c = Some q → chain_to lv v (levels c) → q ∈ nodes (lv v) →
  under lv own u X q → greatest_at lv own u z X q → same_labels N (A ++ U) → at_predecessor c N.
Proof.
  intros Hcut HU He Hc Hq HX Hg HN. pose proof Hcut as [Hlv Hb Ha Hm].
  rewrite <- app_assoc in Hlv. cbn in Hlv.
  assert (z ∈ nodes (lv u)) as Hz by (rewrite Hlv, elem_of_app, elem_of_cons; auto).
  eapply (greatest_predecessor c u U z X q v l1 l2 A); try done.
  - apply (cut_subtree u A _ _ z q X Hcut HX Hz (proj1 Hg)). apply Hb. set_solver +.
  - intros d b Y Hd HY HdY Hlt.
    assert (d ∈ nodes (lv u)) as Hdu by (rewrite Hlv, elem_of_app, elem_of_cons; auto).
    apply (cut_subtree u A _ _ d b Y Hcut HY Hdu HdY) in Hlt. specialize (Ha d Hd).
    unfold name_lt in *. rewrite (keycmp_opp (key A)) in Hlt. lia.
Qed.

(** After the cut: what is before the first name is before [A]. *)
Lemma cut_first u U A l1 z l2 N b B :
  cut u A l1 (z :: l2) → A ≠ [] → place lv own u U → same_labels N (A ++ U) → named lv own b B →
  name_lt B N ↔ name_lt B (own z ++ U).
Proof.
  intros Hcut HA HU HN HB. pose proof Hcut as [Hlv Hb Ha Hm].
  assert (z ∈ nodes (lv u)) as Hz by (rewrite Hlv, elem_of_app, elem_of_cons; auto).
  rewrite (name_lt_same B B N (A ++ U)) by done.
  assert (name_lt A (own z)) as HAz by (apply Ha, elem_of_cons; by left).
  pose proof (own_nonempty lv own s F _ _ Hz) as Hne.
  destruct (named_cases rnd s lv own HT u U b B HU HB) as [[_ ->]|[(Y & HY & ->)|Hout]].
  - split; intros _; by apply name_lt_below.
  - assert (∀ X, name_lt (Y ++ U) (X ++ U) ↔ name_lt Y X) as Hcmp
      by (intros X; unfold name_lt; by rewrite (name_cmp_under Y X U U)).
    rewrite !Hcmp. split; intros H1; [by eapply name_lt_le_trans, name_lt_le|]. destruct (under_cases rnd s lv own HT u Y b HY) as (c & Hc & Hct & _).
    apply (cut_subtree u A _ _ c b Y Hcut HY Hc Hct).
    destruct (level_sides rnd s lv own HT _ _ _ _ _ Hlv Hc) as [->|[[Hc1 _]|[_ Hzc]]].
    + exfalso. by apply (subtree_not_before u z b Y).
    + by apply Hb.
    + exfalso. by apply (later_not_before u z c b Y).
  - unfold name_lt. by rewrite !Hout.
Qed.

(** *** The binary search *)

Lemma stop_node_spec fuel search A u U k t cur :
  place lv own u U → lv u = plug k t → top t = Some cur → name_repr search A →
  is_root_last A = bool_decide (u = None) →
  (∀ c S1 S2, c ∈ nodes (lv u) → A = S1 ++ S2 → ¬ same_labels (own c) S2) →
  (∀ q, q ∈ before_hole k → name_lt (own q) A) → (∀ q, q ∈ after_hole k → name_lt A (own q)) →
  length (nodes t) < fuel →
  ∃ z order, stop_node fuel s search cur = Some (z, order) ∧
    (((order > 0)%Z ∧ ∃ l1 l2, cut u A (l1 ++ [z]) l2) ∨ ((order < 0)%Z ∧ ∃ l1 l2, cut u A l1 (z :: l2))).
Proof.
  intros HU Hlv Htop Hs Habs Hm. revert k t cur Hlv Htop.
  induction fuel as [|fuel IH]; intros k t cur Hlv Htop Hb Ha Hf; [lia|].
  destruct t as [|c l x r]; [done|]. injection Htop as ->.
  assert (cur ∈ nodes (lv u)) as Hin by (rewrite Hlv, plug_nodes; cbn; set_solver +).
  destruct (level_node rnd s lv own HT cur u Hin) as (o & Ho & Hrep & Hne).
  pose proof (level_of rnd s lv own HT u U HU) as Hl. pose proof Hl as Hl'. rewrite Hlv in Hl'.
  destruct (level_hole _ _ _ _ _ Hl') as [_ _ (Mc & _) _ _ _].
  cbn [stop_node]. rewrite Ho. cbn [mbind option_bind]. rewrite Mc. cbn [mbind option_bind left right].
  rewrite (fullcompare_labels _ _ A (own cur) Hs Hrep) by (rewrite Habs; symmetry; by apply (fo_abs _ _ _ F)).
  cbn [mbind option_bind]. pose proof (labels_compare_order A (own cur)) as Hord.
  destruct (labels_compare A (own cur)) as [[rel order] common]. cbn [fst snd] in Hord.
  assert (order ≠ 0)%Z as Hnz.
  { intros ->. cbn in Hord. symmetry in Hord. apply keycmp_eq in Hord.
    apply (Hm cur [] A); [done..|]. by apply key_same. }
  pose proof (fo_order _ _ _ F u) as Hso. rewrite Hlv, plug_nodes in Hso. cbn [nodes] in Hso.
  apply StronglySorted_app in Hso as (_ & _ & Hso). apply StronglySorted_app in Hso as (_ & Hso & _).
  apply StronglySorted_app in Hso as (Hso1 & _ & Hso2). apply StronglySorted_cons in Hso2 as [Hso2 _].
  rewrite Forall_forall in Hso2.
  assert (∀ q, q ∈ nodes (T c l cur r) → own q ≠ []) as Hown.
  { intros q Hq. apply (own_nonempty lv own s F q u). rewrite Hlv, plug_nodes, !elem_of_app. auto. }
  cbn [nodes] in Hf, Hown. rewrite length_app in Hf. cbn in Hf.
  destruct (decide (order < 0)%Z) as [Hlt|Hge]; [rewrite bool_decide_true by done|rewrite bool_decide_false by done].
  - assert (name_lt A (own cur)) as HAc by (unfold name_lt; lia).
    assert (∀ q, q ∈ after_hole (Frame Lft c cur r :: k) → name_lt A (own q)) as Ha'.
    { cbn. intros q [->|[Hq|Hq]%elem_of_app]%elem_of_cons; [done| |by apply Ha].
      eapply name_lt_le_trans; [exact HAc|]. apply name_lt_le, name_lt_top.
      - apply Hown. set_solver +.
      - apply Hown. set_solver.
      - by apply Hso2. }
    destruct (top l) as [q|] eqn:Hq.
    + apply (IH (Frame Lft c cur r :: k) l q); [done..|lia].
    + destruct l; [|done]. exists cur, order. split; [done|]. right. split; [done|].
      exists (before_hole k), (nodes r ++ after_hole k). split; try done.
      rewrite Hlv, plug_nodes. done.
  - assert (name_lt (own cur) A) as HAc.
    { unfold name_lt. rewrite keycmp_opp. lia. }
    assert (∀ q, q ∈ before_hole (Frame Rgt c cur l :: k) → name_lt (own q) A) as Hb'.
    { cbn. intros q [Hq|[Hq| ->%list_elem_of_singleton]%elem_of_app]%elem_of_app; [by apply Hb| |done].
      eapply name_le_lt_trans; [|exact HAc]. apply name_lt_le, name_lt_top.
      - apply Hown. set_solver.
      - apply Hown. set_solver +.
      - apply Hso1; [done|]. set_solver +. }
    destruct (top r) as [q|] eqn:Hq.
    + apply (IH (Frame Rgt c cur l :: k) r q); [done..|lia].
    + destruct r; [|done]. exists cur, order. split; [done|]. left. split; [lia|].
      exists (before_hole k ++ nodes l), (after_hole k). rewrite <- app_assoc. split; try done.
      rewrite Hlv, plug_nodes. cbn. by rewrite <- !app_assoc.
Qed.

(** *** From the end of the search *)

(** The chain to what is before the cut. *)
Lemma cut_chain c u U A z order result N :
  place lv own u U → chain_to lv u (levels c) → A ≠ [] → same_labels N (A ++ U) →
  ((order > 0)%Z ∧ ∃ l1 l2, cut u A (l1 ++ [z]) l2) ∨ ((order < 0)%Z ∧ ∃ l1 l2, cut u A l1 (z :: l2)) →
  ∃ c', (if bool_decide (order > 0)%Z then
      o ← outers s !! z;
      match down o with
      | Some q =>
          c ← ADD_LEVEL c z;
          c ← move_chain_to_last (S DNS_RBT_LEVELBLOCK) s c q; Some (result, c)
      | None => Some (result, with_end c (Some z))
      end
    else if bool_decide (order < 0)%Z then
      '(result2, c, _, _) ← dns_rbtnodechain_prev s (with_end c (Some z)) false false;
      Some (match result2 with
            | ISC_R_SUCCESS | DNS_R_NEWORIGIN => (result, c)
            | ISC_R_NOMORE => (result, chain_reset)
            | _ => (result2, c)
            end)
    else None) = Some (result, c') ∧ at_predecessor c' N.
Proof.
  intros HU Hc HA HN [[Ho (l1 & l2 & Hcut)]|[Ho (l1 & l2 & Hcut)]].
  - rewrite bool_decide_true by done.
    assert (z ∈ nodes (lv u)) as Hz.
    { rewrite (cut_level _ _ _ _ Hcut), !elem_of_app. left. right. by apply list_elem_of_singleton. }
    destruct (level_node rnd s lv own HT z u Hz) as (o & Hoz & _). rewrite Hoz. cbn [mbind option_bind].
    destruct (last_under_spec c u U z o HU Hc Hz Hoz) as (c' & v & q & X & Hrun & He & Hc' & Hq & HX & Hg).
    exists c'. split; [|by eapply cut_greatest].
    destruct (down o) as [r|]; [|by simplify_eq].
    destruct (ADD_LEVEL c z) as [c1|]; [|done]. cbn [mbind option_bind] in *. by rewrite Hrun.
  - rewrite bool_decide_false, bool_decide_true by lia.
    assert (z ∈ nodes (lv u)) as Hz.
    { rewrite (cut_level _ _ _ _ Hcut), elem_of_app, elem_of_cons. auto. }
    destruct (prev_run (with_end c (Some z)) u U z eq_refl Hc Hz HU) as (result2 & c' & -> & Hres).
    cbn [mbind option_bind].
    assert (∀ b B, named lv own b B → name_lt B N ↔ name_lt B (own z ++ U)) as Heq by (intros; by eapply cut_first).
    destruct result2; try done.
    + destruct Hres as [[q Hq] Hpred]. exists c'. split; [done|]. unfold at_predecessor in *. rewrite Hq in *.
      destruct Hpred as (v & Q & H1 & H2 & H3 & H4 & H5). exists v, Q. split_and!; try done.
      * by apply (Heq q Q).
      * intros b B HB HBN. eapply H5; [done|]. by apply (Heq b B).
    + exists chain_reset. split; [done|]. intros b B HB HBN. eapply Hres; [done|]. by apply (Heq b B).
Qed.

Lemma root_cut u A r rel order common :
  r ∈ nodes (lv u) → miss lv own u A → A ≠ [] → labels_compare A (own r) = (rel, order, common) →
  rel = dns_namereln_contains ∨ rel = dns_namereln_commonancestor →
  ((order > 0)%Z ∧ ∃ l1 l2, cut u A (l1 ++ [r]) l2) ∨ ((order < 0)%Z ∧ ∃ l1 l2, cut u A l1 (r :: l2)).
Proof.
  intros Hr Hm HA Ecmp Hrel. pose proof (own_nonempty lv own s F _ _ Hr) as Hne.
  assert (toplabel A = toplabel (own r)) as Htop.
  { destruct (compare_top _ _ _ _ _ Ecmp HA Hne) as [Hct _].
    destruct (decide (toplabel A = toplabel (own r))) as [|Hn]; [done|]. apply Hct in Hn. by destruct Hrel; subst. }
  pose proof (labels_compare_order A (own r)) as Hord. rewrite Ecmp in Hord. cbn [fst snd] in Hord.
  assert (order ≠ 0)%Z as Hnz.
  { intros ->. cbn in Hord. symmetry in Hord. apply keycmp_eq in Hord.
    apply (Hm r [] A); [done..|]. by apply key_same. }
  apply list_elem_of_split in Hr as Hn. destruct Hn as (l1 & l2 & Hn).
  assert (∀ c, c ∈ l1 → earlier own c r) as H1.
  { intros c Hc. pose proof (fo_order _ _ _ F u) as Hso. rewrite Hn in Hso.
    apply StronglySorted_app in Hso as (Hso & _ & _). apply Hso; [done|]. set_solver +. }
  assert (∀ c, c ∈ l2 → earlier own r c) as H2.
  { intros c Hc. pose proof (fo_order _ _ _ F u) as Hso. rewrite Hn in Hso.
    apply StronglySorted_app in Hso as (_ & _ & Hso). apply StronglySorted_cons in Hso as [Hso _].
    rewrite Forall_forall in Hso. by apply Hso. }
  assert (∀ c, c ∈ l1 ++ l2 → own c ≠ []) as Hown.
  { intros c Hc. apply (own_nonempty lv own s F c u). rewrite Hn, elem_of_app, elem_of_cons.
    apply elem_of_app in Hc as [?|?]; auto. }
  assert (∀ c, c ∈ l1 → name_lt (own c) A) as B1.
  { intros c Hc. apply name_lt_top; [apply Hown, elem_of_app; by left|done|]. rewrite Htop. by apply H1. }
  assert (∀ c, c ∈ l2 → name_lt A (own c)) as B2.
  { intros c Hc. apply name_lt_top; [done|apply Hown, elem_of_app; by right|]. rewrite Htop. by apply H2. }
  destruct (decide (order > 0)%Z) as [Hgt|Hle].
  - left. split; [done|]. exists l1, l2. split; [by rewrite <- app_assoc| |done|done].
    intros c [Hc| ->%list_elem_of_singleton]%elem_of_app; [by apply B1|]. unfold name_lt. rewrite keycmp_opp. lia.
  - right. split; [lia|]. exists l1, l2. split; [done|done| |done].
    intros c [->|Hc]%elem_of_cons; [|by apply B2]. unfold name_lt. lia.
Qed.

Section Find.
Context (opts : find_options) (N : list label).

Lemma find_predecessor_run f u U A V c result :
  leaves s lv own opts N f u U A V → f_current f = None → levels c = levels (f_chain f) →
  (levels c ≠ [] → level_matches c < level_count c) → lv None ≠ E →
  ∃ c', find_predecessor s f c result = Some (result, c') ∧ at_predecessor c' N.
Proof.
  intros [H Hcur] Hnone Hlevels Hmatch Hroot. rewrite Hnone in Hcur. destruct Hcur as [Hm Hcase].
  destruct H as [HU Hs HA Habs HN HV Hh Hc Hnode Hcover Hr Hlm]. rewrite <- Hlevels in Hc.
  assert (same_labels N (A ++ U)) as HNs by (rewrite HN; by apply same_labels_app).
  unfold find_predecessor. destruct Hcase as [[Hcmp HE]|(r & Hlast & Htop & Hcmp)].
  - rewrite bool_decide_true by done. inversion Hc as [E1 E2|u' L a Hc' Ha E1 E2]; [by subst u|]. subst u.
    rewrite <- E2 in Hmatch. rewrite bool_decide_true by (apply Hmatch; intros Hc0; by apply app_nil in Hc0 as [_ ?]).
    unfold drop_level. rewrite <- E2, last_snoc. cbn [mbind option_bind].
    eexists. split; [done|].
    destruct (pred_outside rnd s lv own HT a U A HU HA) as (H1 & H2 & H3).
    { intros b Y HY. destruct (under_cases rnd s lv own HT _ Y b HY) as (d & Hd & _). rewrite HE in Hd.
      by apply elem_of_nil in Hd. }
    exists u', U. cbn. rewrite removelast_last. split_and!; try done.
    + by apply (name_lt_same U U (A ++ U) N).
    + intros b B HB HBN. eapply H3; [done|]. by apply (name_lt_same B B N (A ++ U)).
  - rewrite bool_decide_false by (intros E; by rewrite E in Hcmp). rewrite Hlast. cbn [mbind option_bind].
    pose proof (top_elem _ _ Htop) as Hr0.
    destruct (decide (f_compared f = dns_namereln_none)) as [Hnn|Hnn].
    + rewrite bool_decide_true by done. pose proof (level_of rnd s lv own HT u U HU) as Hl.
      pose proof (level_size _ _ _ _ Hl) as Hsz.
      destruct (stop_node_spec (S (size (links s))) (f_search f) A u U [] (lv u) r HU eq_refl Htop Hs Habs Hm)
        as (z & order & -> & Hz); [by intros q ?%elem_of_nil..|lia|].
      cbn [mbind option_bind]. by eapply cut_chain.
    + rewrite bool_decide_false by done. cbn [mbind option_bind].
      eapply cut_chain; [done..|]. destruct (f_compared f) eqn:Er; try done; destruct Hcmp as [k Ecmp];
        eapply root_cut; eauto.
Qed.

(** ** [dns_rbt_findnode] *)

(** The place of the chain for a result. *)
Definition chain_result (with_chain : bool) (result : isc_result) (node : option ptr) (c : chain) : Prop :=
  match result with
  | ISC_R_SUCCESS => ∃ p u, node = Some p ∧ chain_end c = Some p ∧ chain_to lv u (levels c) ∧
      p ∈ nodes (lv u) ∧ level_matches c = level_count c
  | _ => (∀ p M, named lv own p M → same_labels M N → chain_end c = Some p ∧
            ∃ u, chain_to lv u (levels c) ∧ p ∈ nodes (lv u)) ∧
      (absent lv own N → with_chain = true → NOPREDECESSOR opts = false → at_predecessor c N)
  end.

Context (Hrnd : DNS_NAME_MAXWIRE < length rnd) (n : name) (Hn : name_repr n N) (Habs : is_root_last N = true).

Lemma search_run r :
  top (lv None) = Some r →
  ∃ f u U A V, find_loop rnd opts None (S (labels n)) s n
      (FindState (Some r) n 0 chain_reset None dns_namereln_none 0 None ISC_R_SUCCESS) = Some (inl f) ∧
    leaves s lv own opts N f u U A V.
Proof.
  intros Hr. apply (findnode_loop_spec rnd s lv own HT opts n N Hn Hrnd _ _ None [] N []); [|done| |].
  - split; try done.
    + by intros ->.
    + by rewrite app_nil_r.
    + apply chain_top.
    + intros b B HB (Z & Y & -> & HZ & HY). right. exists B, Z, Y. split_and!; try done. by apply named_under.
  - rewrite (nr_labels _ _ Hn). lia.
  - intros HE. by rewrite HE in Hr.
Qed.

(** The name is not in the tree, or not wanted. *)
Lemma find_partial_run f u U A V foundname with_chain :
  leaves s lv own opts N f u U A V → lv None ≠ E → not_exact s lv own opts N →
  (∀ p o, f_current f = Some p → outers s !! p = Some o →
     NOEXACT opts || negb (EMPTYDATA opts) && bool_decide (data o = None) = true) →
  ∃ result fname c, find_partial opts s f (negb with_chain || NOPREDECESSOR opts) foundname = Some (result, fname, c) ∧
    found s lv own opts N result (f_node f) ∧ names_node lv own foundname fname (f_node f) ∧
    result ≠ ISC_R_SUCCESS ∧ chain_result with_chain result (f_node f) c.
Proof.
  intros HL Hroot Hne Hassert.
  destruct (partial_node_spec rnd s lv own HT opts N f u U A V foundname HL Hne)
    as (result & fname & c & Hrun & Hlev & Hend & Hmatch & Hfound & Hname).
  assert (result ≠ ISC_R_SUCCESS) as Hns.
  { intros ->. destruct Hfound as (p & M & _ & HM & Hs & HNE & Hw). destruct (Hne p M HM Hs); congruence. }
  assert (find_partial opts s f (negb with_chain || NOPREDECESSOR opts) foundname =
    match f_current f with
    | Some current =>
        o ← outers s !! current;
        if NOEXACT opts || negb (EMPTYDATA opts) && bool_decide (data o = None)
        then Some (result, fname, with_end c (Some current)) else None
    | None =>
        if negb with_chain || NOPREDECESSOR opts then Some (result, fname, with_end c None)
        else '(result, c) ← find_predecessor s f c result; Some (result, fname, c)
    end) as ->.
  { unfold find_partial. change (partial_node s f foundname = Some (result, fname, c)) in Hrun.
    unfold partial_node in Hrun. rewrite Hrun. done. }
  pose proof HL as [H Hcur]. pose proof (fi_chain _ _ _ _ _ _ _ _ _ _ H) as Hc. rewrite <- Hlev in Hc.
  destruct (f_current f) as [p|] eqn:Ecur.
  - destruct Hcur as (Hp & Hps & _). destruct (level_node rnd s lv own HT p u Hp) as (o & Ho & _).
    rewrite Ho. cbn [mbind option_bind]. rewrite (Hassert p o eq_refl Ho).
    eexists _, _, _. split; [done|]. split_and!; try done.
    assert (chain_result with_chain result (f_node f) (with_end c (Some p)) ↔
      (∀ q M, named lv own q M → same_labels M N → chain_end (with_end c (Some p)) = Some q ∧
            ∃ u, chain_to lv u (levels c) ∧ q ∈ nodes (lv u)) ∧
      (absent lv own N → with_chain = true → NOPREDECESSOR opts = false → at_predecessor (with_end c (Some p)) N))
      as -> by by destruct result.
    split.
    + intros q M HM Hs. pose proof (leaves_exact rnd s lv own HT opts N f u U A V q M HL HM Hs) as Hq.
      rewrite Ecur in Hq. injection Hq as <-. split; [done|]. by exists u.
    + intros Hab. exfalso. pose proof (fi_place _ _ _ _ _ _ _ _ _ _ H) as HU.
      apply (Hab p (own p ++ U)); [by eapply named_place|].
      rewrite (fi_all _ _ _ _ _ _ _ _ _ _ H). apply same_labels_app; [done|].
      symmetry. apply (fi_above _ _ _ _ _ _ _ _ _ _ H).
  - assert (∀ q M, named lv own q M → ¬ same_labels M N) as Hab.
    { intros q M HM Hs. pose proof (leaves_exact rnd s lv own HT opts N f u U A V q M HL HM Hs). congruence. }
    assert (∀ c', (with_chain = true → NOPREDECESSOR opts = false → at_predecessor c' N) →
      chain_result with_chain result (f_node f) c') as Hres.
    { intros c' Hc'. assert ((∀ q M, named lv own q M → same_labels M N → chain_end c' = Some q ∧
            ∃ u, chain_to lv u (levels c') ∧ q ∈ nodes (lv u)) ∧
      (absent lv own N → with_chain = true → NOPREDECESSOR opts = false → at_predecessor c' N)) as Hboth.
      { split; [|done]. intros q M HM Hs. by destruct (Hab q M HM). }
      by destruct result. }
    destruct (negb with_chain || NOPREDECESSOR opts) eqn:Enp.
    + eexists _, _, _. split; [done|]. split_and!; try done. apply Hres.
      intros -> E. by rewrite E in Enp.
    + destruct (find_predecessor_run f u U A V c result HL Ecur Hlev Hmatch Hroot) as (c' & -> & Hpred).
      cbn [mbind option_bind]. eexists _, _, _. split; [done|]. split_and!; try done. by apply Hres.
Qed.

End Find.

(** The whole function. *)
Lemma findnode_found (opts : find_options) (N : list label) (n : name) (foundname with_chain : bool) :
  DNS_NAME_MAXWIRE < length rnd → name_repr n N → is_root_last N = true →
  NOEXACT opts && NOPREDECESSOR opts = false →
  ∃ result node fname c,
    dns_rbt_findnode rnd opts None s n foundname with_chain = Some (result, node, fname, c) ∧
    found s lv own opts N result node ∧ names_node lv own foundname fname node ∧
    chain_result opts N with_chain result node c.
Proof.
  intros Hrnd Hn Habs Hopts. unfold dns_rbt_findnode.
  rewrite (nr_absolute _ _ Hn), Habs, Hopts. cbn [andb negb].
  pose proof (RbtLevel.level_root _ _ _ _ (level_of rnd s lv own HT None [] eq_refl)) as Hr. cbn in Hr.
  rewrite Hr. destruct (top (lv None)) as [r|] eqn:Htop.
  - destruct (search_run opts N Hrnd n Hn Habs r Htop) as (f & u & U & A & V & -> & HL).
    cbn [mbind option_bind].
    destruct (find_exact rnd s lv own HT opts N f u U A V HL) as (exact & -> & Hexact).
    cbn [mbind option_bind]. destruct exact as [p|].
    + destruct Hexact as (Hcur & HNE & Hw). pose proof HL as [H Hc]. rewrite Hcur in Hc.
      destruct Hc as (Hp & Hps & _). pose proof (fi_place _ _ _ _ _ _ _ _ _ _ H) as HU.
      pose proof (named_place _ _ _ _ _ Hp HU) as Hnp.
      assert (same_labels (own p ++ U) N) as Hs.
      { rewrite (fi_all _ _ _ _ _ _ _ _ _ _ H). apply same_labels_app; [done|].
        symmetry. apply (fi_above _ _ _ _ _ _ _ _ _ _ H). }
      assert (labels_ok (own p ++ U)) as Hok by (eapply labels_ok_same; [by symmetry|by eapply nr_ok]).
      destruct (chain_name_end s lv own F u (levels (f_chain f)) p U (level_count (f_chain f))
        (fi_chain _ _ _ _ _ _ _ _ _ _ H) Hp HU Hok) as (nm & Hrun & Hrep).
      rewrite (fi_result _ _ _ _ _ _ _ _ _ _ H).
      assert (found s lv own opts N ISC_R_SUCCESS (Some p)) as Hfound by by exists p, (own p ++ U).
      assert (chain_result opts N with_chain ISC_R_SUCCESS (Some p)
        (Chain (Some p) (levels (f_chain f)) (level_count (f_chain f)))) as Hchain.
      { exists p, u. split_and!; try done. apply (fi_chain _ _ _ _ _ _ _ _ _ _ H). }
      destruct foundname; [rewrite Hrun; cbn [mbind option_bind]|]; (eexists _, _, _, _; split; [done|]; split_and!; try done).
      intros _ q M [= <-] HM. rewrite (named_fun lv own s F _ _ _ HM Hnp). by exists nm.
    + destruct Hexact as [Hne Hassert].
      destruct (find_partial_run opts N f u U A V foundname with_chain HL) as (result & fname & c & -> & H1 & H2 & H3 & H4); try done.
      { intros E. by rewrite E in Htop. }
      by eexists _, _, _, _.
  - assert (∀ q M, ¬ named lv own q M) as Hempty.
    { intros q M HM%named_under. destruct (under_cases rnd s lv own HT None M q HM) as (d & Hd & _).
      destruct (lv None); [by apply elem_of_nil in Hd|done]. }
    eexists _, _, _, _. split; [done|]. split; [|split].
    + split_and!; [|done|].
      * intros q M HM. by apply Hempty in HM.
      * intros b B HB. by apply Hempty in HB.
    + done.
    + split; [intros p M HM; by apply Hempty in HM|]. intros _ _ _ b B HB. by apply Hempty in HB.
Qed.

End Pred.
