(* ===== verification/NameNext.v ===== *)
(** * The successor of a name

    [dns_rbtnodechain_next] goes to the name after that of a chain in the
    DNSSEC order, [dns_rbtnodechain_first] to the first name. The code relies
    on there being at most one node in the top level; all absolute names share
    their last label, so that is the case. *)

From stdpp Require Import gmap.
From S2P Require Import Prelude Rdata Name Rbt RbtTree RbtLevel RbtAdd RbtFix NameTree NameChain NameFind NameForest NameHash NameLink NameSplit NameReplace NameGrow NameAdd NameSearch NameDelete NameFree NameRemove NameErase NameFindSpec NameWalk NamePred.

#[local] Open Scope nat_scope.

Lemma name_lt_trans N1 N2 N3 : name_lt N1 N2 → name_lt N2 N3 → name_lt N1 N3.
Proof. intros H1 H2. eapply name_lt_le_trans; [done|by apply name_lt_le]. Qed.

(** What is after a name and not below it is after all that is. *)
Lemma name_lt_outside X U B : name_lt U B → ¬ below B U → name_lt (X ++ U) B.
Proof.
  unfold name_lt. intros Hlt Hb. rewrite keycmp_opp in Hlt |- *. rewrite name_cmp_outside; [done| |done].
  intros Hs%key_same. rewrite Hs, keycmp_refl in Hlt. lia.
Qed.

Section Next.
Context (rnd : list Z).
Context (s : dns_rbt) (lv : option ptr → tree) (own : ptr → list label) (HT : name_tree rnd s lv own).

Let F : forest lv own s := nt_forest _ _ _ _ HT.

(** ** The top level *)

Lemma top_level_single p q : p ∈ nodes (lv None) → q ∈ nodes (lv None) → p = q.
Proof.
  intros Hp Hq. eapply (top_unique lv own s F); [done..|].
  assert (∀ x, x ∈ nodes (lv None) → toplabel (own x) = lower []) as Htop; [|by rewrite !Htop].
  intros x Hx. pose proof (fo_abs _ _ _ F _ _ Hx) as Habs. rewrite bool_decide_true in Habs by done.
  unfold is_root_last in Habs. apply bool_decide_eq_true in Habs. unfold toplabel. by rewrite Habs.
Qed.

Lemma top_level_lone p : p ∈ nodes (lv None) → nodes (lv None) = [p].
Proof.
  intros Hp. pose proof (level_nodup _ _ _ _ (level_of rnd s lv own HT None [] eq_refl)) as Hd.
  destruct (nodes (lv None)) as [|x l] eqn:E; [by apply elem_of_nil in Hp|].
  assert (∀ y, y ∈ x :: l → y = p) as Hall by (intros y Hy; apply top_level_single; by rewrite E).
  rewrite (Hall x) by (apply elem_of_cons; by left). f_equal. destruct l as [|y l]; [done|].
  apply NoDup_cons in Hd as [Hx _]. exfalso. apply Hx.
  rewrite (Hall x), <- (Hall y); [|set_solver +..]. apply elem_of_cons. by left.
Qed.

(** ** After a node and what is below it *)

Lemma after_level u U p l1 l2 b B :
  nodes (lv u) = l1 ++ p :: l2 → place lv own u U → named lv own b B → name_lt (own p ++ U) B →
  ¬ below_node lv own p b →
  (∃ Y d, under lv own u Y b ∧ B = Y ++ U ∧ d ∈ l2 ∧ toplabel Y = toplabel (own d)) ∨
  ∀ X, keycmp (key B) (key (X ++ U)) = keycmp (key B) (key U).
Proof.
  intros Hn HU HB Hlt Hnb. assert (p ∈ nodes (lv u)) as Hp by (rewrite Hn; set_solver +).
  pose proof (own_nonempty lv own s F _ _ Hp) as Hne.
  destruct (named_cases rnd s lv own HT u U b B HU HB) as [[_ ->]|[(Y & HY & ->)|Hout]]; [| |by right].
  - exfalso. pose proof (name_lt_below (own p) U Hne). unfold name_lt in *.
    rewrite keycmp_opp in Hlt. lia.
  - left. destruct (under_cases rnd s lv own HT u Y b HY) as (d & Hd & Hdt & Hcase).
    exists Y, d. split_and!; try done. destruct (level_sides rnd s lv own HT _ _ _ _ _ Hn Hd) as [->|[[_ He]|[? _]]]; [| |done].
    + exfalso. destruct Hcase as [[_ ->]|(Y' & HY' & _)].
      * unfold name_lt in Hlt. rewrite keycmp_refl in Hlt. lia.
      * apply Hnb. by exists Y'.
    + exfalso. unfold name_lt in Hlt. rewrite (name_cmp_under (own p) Y U U) in Hlt by done.
      assert (name_lt Y (own p)) as Hlt'.
      { apply name_lt_top; [by eapply (under_nonempty lv own s F)|done|]. rewrite Hdt. exact He. }
      unfold name_lt in Hlt'. rewrite keycmp_opp in Hlt. lia.
Qed.

(** Where a walk goes after the node [p] of the level [u] and what is below
    it: to the next node of the level, or on from the node above. *)
Inductive onward : option ptr → ptr → list ptr → option ptr → list ptr → Prop :=
  | onward_here u p L l1 z l2 : nodes (lv u) = l1 ++ p :: z :: l2 → onward u p L (Some z) L
  | onward_end p l1 L : nodes (lv None) = l1 ++ [p] → onward None p L None L
  | onward_up v a p L l1 r L' :
      nodes (lv (Some a)) = l1 ++ [p] → a ∈ nodes (lv v) → onward v a L r L' →
      onward (Some a) p (L ++ [a]) r L'.

Lemma onward_node u p L r L' : onward u p L r L' → p ∈ nodes (lv u).
Proof. destruct 1 as [? ? ? ? ? ? ->| ? ? ? ->|? ? ? ? ? ? ? ->]; set_solver +. Qed.

Lemma sibling_not_below u U p z :
  place lv own u U → p ∈ nodes (lv u) → z ∈ nodes (lv u) → p ≠ z → ¬ below_node lv own p z.
Proof.
  intros HU Hp Hz Hne Hb. apply Hne. eapply (first_unique lv own s F u U p z z); auto.
Qed.

Lemma next_sibling_lt u U l1 p z l2 :
  nodes (lv u) = l1 ++ p :: z :: l2 → place lv own u U → name_lt (own p ++ U) (own z ++ U).
Proof.
  intros Hn HU. unfold name_lt. rewrite name_cmp_under by done.
  assert (p ∈ nodes (lv u) ∧ z ∈ nodes (lv u)) as [Hp Hz] by (rewrite Hn; set_solver +).
  apply name_lt_top; [by eapply (own_nonempty lv own s F)..|].
  pose proof (fo_order _ _ _ F u) as Hso. rewrite Hn in Hso. apply StronglySorted_app in Hso as (_ & _ & Hso).
  apply StronglySorted_cons in Hso as [Hso _]. rewrite Forall_forall in Hso. apply Hso, elem_of_cons. by left.
Qed.

Lemma below_node_up a p q : p ∈ nodes (lv (Some a)) → below_node lv own p q → below_node lv own a q.
Proof. intros Hp [X HX]. exists (X ++ own p). by apply under_down. Qed.

Lemma place_up v a U :
  a ∈ nodes (lv v) → place lv own (Some a) U → ∃ V, place lv own v V ∧ U = own a ++ V.
Proof.
  intros Ha HU. inversion HU as [? Ha'|? b N Ha' Hb]; subst.
  - assert (v = None) as -> by (by eapply (fo_disjoint _ _ _ F)). exists []. by rewrite app_nil_r.
  - assert (v = Some b) as -> by (by eapply (fo_disjoint _ _ _ F)). by exists N.
Qed.

Lemma chain_up v a L : chain_to lv (Some a) (L ++ [a]) → a ∈ nodes (lv v) → chain_to lv v L.
Proof.
  intros Hc Ha. inversion Hc as [|u' L' a' Hc' Ha' E1 E2]; subst. apply app_inj_tail in E2 as [-> _].
  assert (v = u') as -> by (by eapply (fo_disjoint _ _ _ F)). done.
Qed.

(** The least name after [P] that is not below it. *)
Lemma onward_least u p L r L' U :
  onward u p L r L' → chain_to lv u L → place lv own u U →
  match r with
  | Some q => ∃ v V, chain_to lv v L' ∧ q ∈ nodes (lv v) ∧ place lv own v V ∧
      name_lt (own p ++ U) (own q ++ V) ∧ ¬ below_node lv own p q ∧
      ∀ b B, named lv own b B → name_lt (own p ++ U) B → ¬ below_node lv own p b → name_le (own q ++ V) B
  | None => ∀ b B, named lv own b B → name_lt (own p ++ U) B → ¬ ¬ below_node lv own p b
  end.
Proof.
  intros H. revert U. induction H as [u p L l1 z l2 Hn|p l1 L Hn|v a p L l1 r L' Hn Ha Hon IH]; intros U Hc HU.
  - assert (p ∈ nodes (lv u) ∧ z ∈ nodes (lv u)) as [Hp Hz] by (rewrite Hn; set_solver +).
    exists u, U. split_and!; try done; [by eapply next_sibling_lt| |].
    + eapply sibling_not_below; [done..|]. intros ->. pose proof (level_nodup _ _ _ _ (level_of rnd s lv own HT u U HU)) as Hd.
      rewrite Hn in Hd. apply NoDup_app in Hd as (_ & _ & [Hd _]%NoDup_cons). apply Hd, elem_of_cons. by left.
    + intros b B HB Hlt Hnb. destruct (after_level u U p l1 (z :: l2) b B Hn HU HB Hlt Hnb) as [(Y & d & HY & -> & Hd & Hdt)|Hout].
      * unfold name_le. rewrite name_cmp_under by done. apply elem_of_cons in Hd as [->|Hd].
        -- destruct (under_cases rnd s lv own HT u Y b HY) as (d' & Hd' & Hdt' & Hcase).
           assert (d' = z) as -> by (eapply (top_unique lv own s F); [done..|]; congruence).
           destruct Hcase as [[_ ->]|(Y' & HY' & ->)]; [apply name_le_refl|].
           apply name_lt_le, name_lt_below. by eapply (under_nonempty lv own s F).
        -- apply name_lt_le, name_lt_top; [by eapply (own_nonempty lv own s F)|by eapply (under_nonempty lv own s F)|].
           rewrite Hdt. pose proof (fo_order _ _ _ F u) as Hso. rewrite Hn in Hso.
           apply StronglySorted_app in Hso as (_ & _ & Hso). apply StronglySorted_cons in Hso as [_ Hso].
           apply StronglySorted_cons in Hso as [Hso _]. rewrite Forall_forall in Hso. by apply Hso.
      * unfold name_le. rewrite keycmp_opp, Hout. unfold name_lt in Hlt. rewrite keycmp_opp, Hout in Hlt. lia.
  - intros b B HB Hlt. cbn in HU. subst U. rewrite app_nil_r in Hlt.
    assert (p ∈ nodes (lv None)) as Hp by (rewrite Hn; set_solver +).
    destruct (under_cases rnd s lv own HT None B b (named_under lv own b B HB)) as (d & Hd & _ & Hcase).
    rewrite (top_level_single d p Hd Hp) in Hcase. destruct Hcase as [[_ ->]|(Y & HY & _)]; [|intros Hnb; apply Hnb; by exists Y].
    exfalso. unfold name_lt in Hlt. rewrite keycmp_refl in Hlt. lia.
  - assert (p ∈ nodes (lv (Some a))) as Hp by (rewrite Hn; set_solver +).
    destruct (place_up v a U Ha HU) as (V & HV & ->). cbn [place] in HU.
    assert (chain_to lv v L) as HcL by (by eapply chain_up).
    assert (name_lt (own a ++ V) (own p ++ own a ++ V)) as Hap by (by apply name_lt_below, (own_nonempty lv own s F _ _ Hp)).
    assert (∀ b B, named lv own b B → name_lt (own p ++ own a ++ V) B → ¬ below_node lv own p b →
      name_lt (own a ++ V) B ∧ ¬ below_node lv own a b) as Hout.
    { intros b B HB Hlt Hnb. split; [by eapply name_lt_trans|]. intros [Y HY].
      destruct (after_level (Some a) (own a ++ V) p l1 [] b B Hn HU HB Hlt Hnb) as [(_ & d & _ & _ & Hd & _)|Hout].
      - by apply elem_of_nil in Hd.
      - assert (B = Y ++ own a ++ V) as EB by (eapply (named_fun lv own s F); [done|by eapply under_named]).
        specialize (Hout Y). rewrite <- EB, keycmp_refl in Hout. pose proof (name_lt_trans _ _ _ Hap Hlt) as H1.
        unfold name_lt in H1. rewrite keycmp_opp in H1. lia. }
    specialize (IH V HcL HV). destruct r as [q|].
    + destruct IH as (w & W & Hcw & Hq & HW & Hlt & Hnb & Hleast). exists w, W. split_and!; try done.
      * apply name_lt_outside; [done|]. rewrite <- (below_node_name rnd s lv own HT a _ q); [done..|by eapply named_place].
      * intros Hb. apply Hnb. by eapply below_node_up.
      * intros b B HB Hb Hpb. destruct (Hout b B HB Hb Hpb). by apply (Hleast b).
    + intros b B HB Hb Hpb. destruct (Hout b B HB Hb Hpb). by eapply IH.
Qed.

(** ** The ascent *)

Lemma climb_found fuel d m p q cur : climb fuel d m p = Some (Some q, cur) → cur = q.
Proof.
  revert p. induction fuel as [|fuel IH]; intros p H; [done|]. cbn in H.
  destruct (m !! p) as [n|]; [|done]. cbn [mbind option_bind] in H. destruct (is_root n); [done|].
  destruct (parent n) as [q'|]; [|done]. cbn [mbind option_bind] in H.
  destruct (m !! q') as [n'|]; [|done]. cbn [mbind option_bind] in H.
  case_bool_decide; [by simplify_eq|by eapply IH].
Qed.

Lemma top_level_alone p n :
  p ∈ nodes (lv None) → links s !! p = Some n → is_root n = true ∧ right n = None.
Proof.
  intros Hp Hn. pose proof (level_at _ _ _ _ (level_of rnd s lv own HT None [] eq_refl)) as Hat.
  pose proof (top_level_lone p Hp) as Hl. destruct (lv None) as [|c l x r]; [done|].
  cbn [nodes] in Hl. destruct (nodes l) as [|y ys] eqn:El; [|injection Hl as _ Hl; by apply app_nil in Hl as [_ ?]].
  cbn in Hl. injection Hl as -> Hr. destruct r as [|c' r1 y r2]; [|cbn in Hr; by apply app_nil in Hr as [_ ?]]. destruct Hat as (Mp & _ & _).
  rewrite Mp in Hn. by injection Hn as <-.
Qed.

(** What [dns_rbtnodechain_next] does where there is no level below. *)
Definition ascend (fuel : nat) (c : chain) (p : ptr) (new_origin : bool) : option (option ptr * chain * bool) :=
  n ← links s !! p;
  '(successor, current, c, new_origin) ←
    (if bool_decide (right n = None) then next_up fuel s c p new_origin
     else Some (None, p, c, new_origin));
  n ← links s !! current;
  successor ← (match successor, right n with
               | None, Some q => q ← farthest (S (size (links s))) Lft (links s) q; Some (Some q)
               | successor, _ => Some successor
               end);
  Some (successor, c, new_origin).

Lemma ascend_here fuel c u U l1 p z l2 no :
  place lv own u U → nodes (lv u) = l1 ++ p :: z :: l2 → ascend (S fuel) c p no = Some (Some z, c, no).
Proof.
  intros HU Hn. destruct (neighbour_spec rnd s lv own HT Lft _ U l1 p (z :: l2) HU Hn) as (cur & Hnb & _).
  unfold ascend, neighbour in *. destruct (links s !! p) as [n|] eqn:Ep; [|done].
  cbn [mbind option_bind opp child head] in *. destruct (right n) as [q|] eqn:Er.
  - rewrite bool_decide_false by done. cbn [mbind option_bind]. rewrite Ep. cbn [mbind option_bind]. rewrite Er.
    destruct (farthest _ _ _ q); [|done]. cbn [mbind option_bind] in *. by injection Hnb as -> ->.
  - rewrite bool_decide_true by done. cbn [next_up]. rewrite Hnb. cbn [mbind option_bind].
    assert (cur = z) as -> by by eapply climb_found.
    destruct (fo_links _ _ _ F z) as [_ [n' Hn']].
    { apply (fo_dom _ _ _ F). exists u. rewrite Hn. set_solver +. }
    rewrite Hn'. done.
Qed.

Lemma ascend_over fuel c u U l1 p no :
  place lv own u U → nodes (lv u) = l1 ++ [p] → levels c ≠ [] →
  ascend (S fuel) c p no = '(a, c) ← drop_level c; ascend fuel c a true.
Proof.
  intros HU Hn Hc. destruct (neighbour_spec rnd s lv own HT Lft _ U l1 p [] HU Hn) as (cur & Hnb & _).
  unfold ascend, neighbour in *. destruct (links s !! p) as [n|] eqn:Ep; [|done].
  cbn [mbind option_bind opp child head] in *. destruct (right n) as [q|] eqn:Er.
  { destruct (farthest _ _ _ q); [|done]. by cbn in Hnb. }
  rewrite bool_decide_true by done. cbn [next_up]. rewrite Hnb. cbn [mbind option_bind].
  rewrite bool_decide_false by (by destruct (levels c)).
  destruct (drop_level c) as [[a c']|]; [|done]. cbn [mbind option_bind].
  destruct (links s !! a) as [na|] eqn:Ea; [|done]. cbn [mbind option_bind]. case_bool_decide as Hr.
  - by rewrite bool_decide_false by done.
  - by rewrite bool_decide_true by (by destruct (right na)).
Qed.

Lemma ascend_top fuel c p no :
  p ∈ nodes (lv None) → levels c = [] → ascend (S fuel) c p no = Some (None, c, no).
Proof.
  intros Hp Hc. destruct (fo_links _ _ _ F p) as [_ [n Hn]]; [by apply (fo_dom _ _ _ F); exists None|].
  destruct (top_level_alone p n Hp Hn) as [Hroot Hr]. unfold ascend. rewrite Hn. cbn [mbind option_bind].
  rewrite Hr, bool_decide_true by done. cbn [next_up climb]. rewrite Hn. cbn [mbind option_bind].
  rewrite Hroot, Hc. cbn [mbind option_bind length]. rewrite bool_decide_true by done. cbn [mbind option_bind].
  rewrite Hn. cbn [mbind option_bind]. by rewrite Hr.
Qed.

Lemma ascend_spec u L :
  chain_to lv u L → ∀ U fuel c p no, levels c = L → place lv own u U → p ∈ nodes (lv u) → length L < fuel →
  ∃ r c' no', ascend fuel c p no = Some (r, c', no') ∧ onward u p L r (levels c').
Proof.
  induction 1 as [|u L a Hc IH Ha]; intros U [|fuel] c p no HL HU Hp Hf; try lia.
  - exists None, c, no. rewrite HL. split; [by apply ascend_top|]. by apply onward_end with [], top_level_lone.
  - apply list_elem_of_split in Hp as Hn; destruct Hn as (l1 & [|z l2] & Hn).
    + destruct (place_up u a U Ha HU) as (V & HV & ->).
      destruct (IH V fuel (Chain (chain_end c) L (level_matches c)) a true eq_refl HV Ha) as (r & c' & no' & Hrun & Hon).
      { rewrite length_app in Hf. cbn in Hf. lia. }
      exists r, c', no'. split; [|by eapply onward_up].
      rewrite (ascend_over fuel c _ _ l1 p no HU Hn) by (rewrite HL; by intros [_ ?]%app_nil).
      unfold drop_level. rewrite HL, last_snoc. cbn [mbind option_bind]. by rewrite removelast_last.
    + exists (Some z), c, no. split; [by eapply ascend_here|]. rewrite HL. by eapply onward_here.
Qed.

(** ** [dns_rbtnodechain_next] *)

Lemma add_level_spec c u U p :
  place lv own u U → chain_to lv u (levels c) → p ∈ nodes (lv u) →
  ADD_LEVEL c p = Some (Chain (chain_end c) (levels c ++ [p]) (level_matches c)).
Proof.
  intros HU Hc Hp. unfold ADD_LEVEL. pose proof (chain_length s lv own F _ _ _ Hc HU) as HlC.
  destruct (fo_named _ _ _ F p) as (M & HM & Hok); [by exists u|].
  apply labels_ok_length in Hok. rewrite <- (named_fun lv own s F _ _ _ (named_place lv own _ _ _ Hp HU) HM) in Hok.
  rewrite length_app in Hok. rewrite bool_decide_true by (unfold DNS_RBT_LEVELBLOCK; lia). done.
Qed.

(** A chain leads to a node. *)
Definition at_node (c : chain) (p : ptr) : Prop :=
  chain_end c = Some p ∧ ∃ u U, chain_to lv u (levels c) ∧ place lv own u U ∧ p ∈ nodes (lv u).

(** The order of the nodes is that of their names. *)
Definition before (p q : ptr) : Prop := ∃ P Q, named lv own p P ∧ named lv own q Q ∧ name_lt P Q.

(** [c] is at the first of the nodes after [p] in the order [lt]. *)
Definition moved (lt : ptr → ptr → Prop) (p : ptr) (result : isc_result) (c : chain) : Prop :=
  match result with
  | ISC_R_SUCCESS | DNS_R_NEWORIGIN =>
      ∃ q, at_node c q ∧ lt p q ∧ ∀ b, live lv b → lt p b → b = q ∨ lt q b
  | ISC_R_NOMORE => ∀ b, live lv b → ¬ lt p b
  | _ => False
  end.

Lemma before_names p P q Q : named lv own p P → named lv own q Q → before p q ↔ name_lt P Q.
Proof.
  intros HP HQ. split; [|by exists P, Q]. intros (P' & Q' & HP' & HQ' & Hlt).
  by rewrite <- (named_fun lv own s F _ _ _ HP' HP), <- (named_fun lv own s F _ _ _ HQ' HQ).
Qed.

Lemma node_named p : live lv p → ∃ P, named lv own p P.
Proof. intros Hp. destruct (fo_named _ _ _ F p Hp) as (P & HP & _). by exists P. Qed.

Lemma before_total q Q b B : named lv own q Q → named lv own b B → name_le Q B → b = q ∨ before q b.
Proof.
  intros HQ HB Hle. destruct (decide (keycmp (key Q) (key B) = 0%Z)) as [E|E].
  - left. apply keycmp_eq in E. apply (proj1 (key_same _ _)) in E. symmetry. by apply (named_inj lv own s F q b Q B).
  - right. apply (before_names q Q b B); [done..|]. unfold name_lt, name_le in *. lia.
Qed.

(** The least node after [p], by names. *)
Lemma moved_next p P q Q c result :
  (result = ISC_R_SUCCESS ∨ result = DNS_R_NEWORIGIN) → named lv own p P → named lv own q Q → at_node c q →
  name_lt P Q → (∀ b B, named lv own b B → name_lt P B → name_le Q B) → moved before p result c.
Proof.
  intros Hr HP HQ Hat Hlt Hleast.
  assert (∃ q, at_node c q ∧ before p q ∧ ∀ b, live lv b → before p b → b = q ∨ before q b) as H; [|by destruct Hr as [-> | ->]].
  exists q. split_and!; [done|by apply (before_names p P q Q)|]. intros b [B HB]%node_named Hpb.
  eapply before_total; [done..|]. eapply Hleast; [done|]. by apply (before_names p P b B).
Qed.

(** The first name below [p] comes next. *)
Lemma first_below_least u U p z l2 :
  place lv own u U → p ∈ nodes (lv u) → nodes (lv (Some p)) = z :: l2 →
  ∀ b B, named lv own b B → name_lt (own p ++ U) B → name_le (own z ++ own p ++ U) B.
Proof.
  intros HU Hp Hn b B HB Hlt. pose proof (named_place lv own _ _ _ Hp HU) as HP.
  destruct (named_cases rnd s lv own HT (Some p) _ b B HP HB) as [[_ ->]|[(Y & HY & ->)|Hout]].
  - unfold name_lt in Hlt. rewrite keycmp_refl in Hlt. lia.
  - unfold name_le. rewrite name_cmp_under by done.
    destruct (under_cases rnd s lv own HT (Some p) Y b HY) as (d & Hd & Hdt & Hcase).
    destruct (level_sides rnd s lv own HT _ [] _ _ _ Hn Hd) as [->|[[Hd1 _]|[_ He]]]; [|by apply elem_of_nil in Hd1|].
    + destruct Hcase as [[_ ->]|(Y' & HY' & ->)]; [apply name_le_refl|].
      apply name_lt_le, name_lt_below. by eapply (under_nonempty lv own s F).
    + apply name_lt_le, name_lt_top; [|by eapply (under_nonempty lv own s F)|].
      * eapply (own_nonempty lv own s F z (Some p)). rewrite Hn. set_solver +.
      * rewrite Hdt. exact He.
  - apply name_lt_le. unfold name_lt. rewrite keycmp_opp, Hout. unfold name_lt in Hlt. rewrite keycmp_opp in Hlt. lia.
Qed.

Lemma next_run c p :
  at_node c p →
  ∃ result c', dns_rbtnodechain_next s c false false = Some (result, c', None, None) ∧ moved before p result c'.
Proof.
  intros (He & u & U & Hc & HU & Hp). unfold dns_rbtnodechain_next. rewrite He. cbn [mbind option_bind].
  destruct (level_node rnd s lv own HT p u Hp) as (o & Ho & _). rewrite Ho. cbn [mbind option_bind].
  destruct (fo_links _ _ _ F p) as [_ [n Hn]]; [by exists o|]. rewrite Hn. cbn [mbind option_bind].
  pose proof (named_place lv own _ _ _ Hp HU) as HP.
  pose proof (level_of rnd s lv own HT (Some p) _ HP) as Hlp.
  assert (down o = top (lv (Some p))) as ->.
  { pose proof (RbtLevel.level_root _ _ _ _ Hlp) as E. cbn in E. by rewrite Ho in E. }
  destruct (top (lv (Some p))) as [r|] eqn:Hr.
  - rewrite (add_level_spec c u U p) by done. cbn [mbind option_bind].
    rewrite (farthest_spec _ Lft _ _ _ _ r (level_at _ _ _ _ Hlp) Hr) by (pose proof (level_size _ _ _ _ Hlp); lia).
    cbn [end_of]. destruct (nodes (lv (Some p))) as [|z l2] eqn:Hz.
    { apply top_elem in Hr. rewrite Hz in Hr. by apply elem_of_nil in Hr. }
    cbn [head mbind option_bind].
    assert (z ∈ nodes (lv (Some p))) as Hzin by (rewrite Hz; set_solver +).
    destruct (fo_links _ _ _ F z) as [_ [nz ->]]; [by apply (fo_dom _ _ _ F); exists (Some p)|].
    cbn [mbind option_bind andb]. rewrite andb_false_r. cbn [mbind option_bind].
    eexists _, _. split; [done|].
    apply (moved_next p (own p ++ U) z (own z ++ own p ++ U)); [|done| | | |].
    + case_match; [by right|by left].
    + by eapply named_place.
    + split; [done|]. exists (Some p), (own p ++ U). split_and!; try done. by eapply chain_down.
    + apply name_lt_below. by eapply (own_nonempty lv own s F).
    + by eapply first_below_least.
  - destruct (ascend_spec u _ Hc U (S (level_count c)) c p false eq_refl HU Hp) as (q & c' & no & Hrun & Hon); [lia|].
    unfold ascend in Hrun. rewrite Hn in Hrun. cbn [mbind option_bind] in Hrun.
    destruct (if bool_decide (right n = None) then _ else _) as [[[[q1 cur] c1] no1]|]; [|done].
    cbn [mbind option_bind] in Hrun |- *.
    destruct (links s !! cur) as [nc|]; [|done]. cbn [mbind option_bind] in Hrun |- *.
    destruct (match q1 with None => _ | _ => _ end) as [q2|]; [|done]. cbn [mbind option_bind] in Hrun |- *.
    injection Hrun as -> -> ->. pose proof (onward_least u p _ q _ U Hon Hc HU) as Hleast.
    assert (∀ b B, named lv own b B → ¬ below_node lv own p b) as Hleaf.
    { intros b B _ [X HX]. destruct (under_cases rnd s lv own HT (Some p) X b HX) as (d & Hd & _).
      destruct (lv (Some p)); [by apply elem_of_nil in Hd|done]. }
    destruct q as [q|].
    + destruct Hleast as (v & V & Hcv & Hq & HV & Hlt & _ & Hleast).
      rewrite andb_false_r. cbn [mbind option_bind]. eexists _, _. split; [done|].
      apply (moved_next p (own p ++ U) q (own q ++ V)); [|done| | |done|].
      * case_match; [by right|by left].
      * by eapply named_place.
      * split; [done|]. by exists v, V.
      * intros b B HB Hb. eapply Hleast; [done..|by eapply Hleaf].
    + eexists _, _. split; [done|]. intros b [B HB]%node_named Hb.
      apply (before_names p (own p ++ U) b B) in Hb; [|done..]. eapply Hleast; [done..|by eapply Hleaf].
Qed.

End Next.
