(* ===== verification/NameIterate.v ===== *)
(** * Iterating over a name tree

    [dns_rbtnodechain_first] and [dns_rbtnodechain_next] visit every node of a
    tree once, in the order of the names; [dns_rbtnodechain_last] and
    [dns_rbtnodechain_prev] visit them in the opposite order. *)

From stdpp Require Import gmap sorting.
From S2P Require Import Prelude Rdata Name Rbt RbtTree RbtLevel NameTree NameChain NameForest NameGrow NameFindSpec NameWalk NamePred NameNext.

#[local] Open Scope nat_scope.

(** The nodes that a chain reaches with a step such as
    [dns_rbtnodechain_next], up to the one that says [ISC_R_NOMORE]. *)
Fixpoint walk (step : chain → option (isc_result * chain * option name * option name)) (fuel : nat) (c : chain)
    : option (list ptr) :=
  match fuel with
  | O => None
  | S fuel =>
      p ← chain_end c;
      '(result, c, _, _) ← step c;
      match result with
      | ISC_R_SUCCESS | DNS_R_NEWORIGIN => l ← walk step fuel c; Some (p :: l)
      | ISC_R_NOMORE => Some [p]
      | _ => None
      end
  end.

(** Strictly sorted lists with the same elements are equal. *)
Section Sorted.
Context {A : Type} (lt : A → A → Prop) (Hirr : ∀ x, ¬ lt x x) (Htrans : ∀ x y z, lt x y → lt y z → lt x z).

Lemma strictly_sorted_nodup l : StronglySorted lt l → NoDup l.
Proof.
  induction 1 as [|x l _ IH Hx]; constructor; [|done].
  intros Hin. rewrite Forall_forall in Hx. by apply (Hirr x), Hx.
Qed.

Lemma strictly_sorted_unique l1 l2 :
  StronglySorted lt l1 → StronglySorted lt l2 → (∀ x, x ∈ l1 ↔ x ∈ l2) → l1 = l2.
Proof.
  intros H1 H2 Hin. apply (StronglySorted_unique_strong lt); [|done|done|].
  - intros x y _ _ Hxy Hyx. destruct (Hirr x). by eapply Htrans.
  - by apply NoDup_Permutation; [apply strictly_sorted_nodup..|].
Qed.

Lemma strictly_sorted_reverse l : StronglySorted (flip lt) l → StronglySorted lt (reverse l).
Proof.
  induction 1 as [|x l _ IH Hx]; [constructor|]. rewrite reverse_cons. apply StronglySorted_app_2; [|done|by repeat constructor].
  intros y z Hy Hz. apply list_elem_of_singleton in Hz as ->. rewrite elem_of_reverse in Hy.
  rewrite Forall_forall in Hx. by apply Hx.
Qed.
End Sorted.

Section Iterate.
Context (rnd : list Z).
Context (s : dns_rbt) (lv : option ptr → tree) (own : ptr → list label) (HT : name_tree rnd s lv own).

Let F : forest lv own s := nt_forest _ _ _ _ HT.

Lemma before_irr p : ¬ before lv own p p.
Proof.
  intros (P & Q & HP & HQ & Hlt). rewrite (named_fun lv own s F _ _ _ HQ HP) in Hlt.
  unfold name_lt in Hlt. rewrite keycmp_refl in Hlt. lia.
Qed.

Lemma before_trans p q r : before lv own p q → before lv own q r → before lv own p r.
Proof.
  intros (P & Q & HP & HQ & H1) (Q' & R & HQ' & HR & H2). exists P, R. split_and!; [done..|].
  rewrite (named_fun lv own s F _ _ _ HQ' HQ) in H2. by eapply name_lt_trans.
Qed.

Lemma before_live p q : before lv own p q → live lv p ∧ live lv q.
Proof. intros (P & Q & HP & HQ & _). split; by eapply named_live. Qed.

(** A walk in an order, if each step goes to the next node in that order. *)
Section Order.
Context (lt : ptr → ptr → Prop) (Hirr : ∀ p, ¬ lt p p) (Htrans : ∀ p q r, lt p q → lt q r → lt p r).
Context (Hlive : ∀ p q, lt p q → live lv q).
Context (step : chain → option (isc_result * chain * option name * option name)).
Context (Hstep : ∀ c p, at_node lv own c p →
  ∃ result c', step c = Some (result, c', None, None) ∧ moved lv own lt p result c').

Lemma walk_sorted fuel c p (R : gset ptr) :
  at_node lv own c p → (∀ q, live lv q → lt p q → q ∈ R) → size R < fuel →
  ∃ l, walk step fuel c = Some (p :: l) ∧ StronglySorted lt (p :: l) ∧ ∀ q, q ∈ l ↔ live lv q ∧ lt p q.
Proof.
  revert c p R. induction fuel as [|fuel IH]; intros c p R Hat HR Hf; [lia|]. cbn [walk].
  destruct (Hstep c p Hat) as (result & c' & -> & Hm). destruct Hat as [-> _]. cbn [mbind option_bind].
  assert ((∃ q, at_node lv own c' q ∧ lt p q ∧ ∀ b, live lv b → lt p b → b = q ∨ lt q b) →
    ∃ l, (l ← walk step fuel c'; Some (p :: l)) = Some (p :: l) ∧ StronglySorted lt (p :: l) ∧
      ∀ q, q ∈ l ↔ live lv q ∧ lt p q) as Hgo.
  { intros (q & Hat & Hpq & Hnext). pose proof (Hlive _ _ Hpq) as Hq.
    destruct (IH c' q (R ∖ {[q]}) Hat) as (l & -> & Hl & Hin).
    - intros b Hb Hqb. apply elem_of_difference. split; [by apply HR, (Htrans p q b)|].
      rewrite elem_of_singleton. intros E. rewrite E in Hqb. by apply (Hirr q).
    - pose proof (HR q Hq Hpq). rewrite size_difference by set_solver. rewrite size_singleton.
      assert (size R ≠ 0) by (apply size_non_empty_iff; set_solver). lia.
    - exists (q :: l). split; [done|].
      assert (∀ b, b ∈ q :: l ↔ live lv b ∧ lt p b) as Hin'.
      { intros b. rewrite elem_of_cons, Hin. split.
        - intros [->|[Hb Hqb]]; [done|]. split; [done|]. by apply (Htrans p q b).
        - intros [Hb Hpb]. destruct (Hnext b Hb Hpb); auto. }
      split; [|done]. constructor; [done|]. apply Forall_forall. by intros b [_ ?]%Hin'. }
  destruct result; try done; [by apply Hgo| |by apply Hgo].
  exists []. split_and!; [done|by repeat constructor|]. intros q. split; [by intros ?%elem_of_nil|].
  intros [Hq Hpq]. by destruct (Hm q Hq).
Qed.

(** From the first node in the order, a walk reaches all. *)
Lemma walk_all c p :
  at_node lv own c p → live lv p → (∀ b, live lv b → b = p ∨ lt p b) →
  ∃ l, walk step (size (outers s)) c = Some l ∧ StronglySorted lt l ∧ ∀ q, q ∈ l ↔ live lv q.
Proof.
  intros Hat Hp Hfirst.
  assert (p ∈ dom (outers s)) as Hd by (by rewrite elem_of_dom, <- (fo_dom _ _ _ F)).
  destruct (walk_sorted (size (outers s)) c p (dom (outers s) ∖ {[p]})) as (l & -> & Hl & Hin); [done| | |].
  - intros q Hq Hpq. apply elem_of_difference. split; [by rewrite elem_of_dom, <- (fo_dom _ _ _ F)|].
    rewrite elem_of_singleton. intros E. rewrite E in Hpq. by apply (Hirr p).
  - rewrite size_difference by set_solver. rewrite size_singleton, size_dom.
    assert (size (dom (outers s)) ≠ 0) as Hne by (apply size_non_empty_iff; set_solver).
    rewrite size_dom in Hne. lia.
  - exists (p :: l). split_and!; [done..|]. intros q. rewrite elem_of_cons, Hin. split.
    + by intros [->|[? _]].
    + intros Hq. destruct (Hfirst q Hq); auto.
Qed.
End Order.

(** ** The two directions *)

Lemma chain_place u L : chain_to lv u L → ∃ U, place lv own u U.
Proof.
  induction 1 as [|u L a _ [U HU] Ha]; [by exists []|]. exists (own a ++ U). by eapply named_place.
Qed.

Lemma prev_step c p :
  at_node lv own c p →
  ∃ result c', dns_rbtnodechain_prev s c false false = Some (result, c', None, None) ∧
    moved lv own (flip (before lv own)) p result c'.
Proof.
  intros (He & u & U & Hc & HU & Hp). pose proof (named_place lv own _ _ _ Hp HU) as HP.
  destruct (prev_run rnd s lv own HT c u U p He Hc Hp HU) as (result & c' & -> & Hres).
  exists result, c'. split; [done|]. destruct result; try done; cbn.
  - destruct Hres as [[q Hq] Hpred]. unfold at_predecessor in Hpred. rewrite Hq in Hpred.
    destruct Hpred as (v & Q & Hcv & Hqv & HQ & Hlt & Hmax). exists q. split_and!.
    + split; [done|]. destruct (chain_place _ _ Hcv) as [V HV]. by exists v, V.
    + by apply (before_names rnd s lv own HT q Q p (own p ++ U)).
    + intros b [B HB]%(node_named rnd s lv own HT) Hb. apply (before_names rnd s lv own HT b B p _ HB HP) in Hb.
      destruct (before_total rnd s lv own HT b B q Q HB HQ) as [->|?]; [by eapply Hmax|by left|by right].
  - intros b [B HB]%(node_named rnd s lv own HT) Hb. apply (before_names rnd s lv own HT b B p _ HB HP) in Hb.
    by eapply Hres.
Qed.

Lemma first_spec r :
  top (lv None) = Some r →
  ∃ c, dns_rbtnodechain_first s false false = Some (DNS_R_NEWORIGIN, c, None, None) ∧ at_node lv own c r ∧
    ∀ b, live lv b → b = r ∨ before lv own r b.
Proof.
  intros Hr. pose proof (RbtLevel.level_root _ _ _ _ (level_of rnd s lv own HT None [] eq_refl)) as Hroot.
  cbn in Hroot. pose proof (top_elem _ _ Hr) as Hin.
  exists (with_end chain_reset (Some r)). split_and!.
  - unfold dns_rbtnodechain_first, dns_rbtnodechain_current. cbn. rewrite Hroot, Hr. done.
  - split; [done|]. exists None, []. split_and!; [constructor|done|done].
  - intros b [B HB]%(node_named rnd s lv own HT).
    destruct (under_cases rnd s lv own HT None B b (named_under lv own b B HB)) as (d & Hd & _ & Hcase).
    rewrite (top_level_single rnd s lv own HT d r Hd Hin) in Hcase. destruct Hcase as [[-> _]|(Y & HY & ->)]; [by left|].
    right. apply (before_names rnd s lv own HT r (own r) b (Y ++ own r)); [by apply named_top|done|].
    apply name_lt_below. by eapply (under_nonempty lv own s F).
Qed.

Lemma last_spec r :
  top (lv None) = Some r →
  ∃ c q, dns_rbtnodechain_last s false false = Some (DNS_R_NEWORIGIN, c, None, None) ∧ at_node lv own c q ∧
    live lv q ∧ ∀ b, live lv b → b = q ∨ before lv own b q.
Proof.
  intros Hr. pose proof (RbtLevel.level_root _ _ _ _ (level_of rnd s lv own HT None [] eq_refl)) as Hroot. cbn in Hroot.
  destruct (move_chain_to_last_spec rnd s lv own HT (S DNS_RBT_LEVELBLOCK) chain_reset None [] r eq_refl)
    as (c & v & q & l & z & X & Hrun & He & Hc & Hq & Hn & HX & Hmax); [constructor|done|cbn; unfold DNS_RBT_LEVELBLOCK; lia|].
  pose proof (under_named lv own None [] X q HX eq_refl) as HQ. rewrite app_nil_r in HQ.
  exists c, q. split_and!.
  - unfold dns_rbtnodechain_last. rewrite Hroot, Hr. cbn [mbind option_bind]. rewrite Hrun. cbn [mbind option_bind].
    unfold dns_rbtnodechain_current. rewrite He. done.
  - split; [done|]. destruct (chain_place _ _ Hc) as [V HV]. by exists v, V.
  - by exists v.
  - intros b [B HB]%(node_named rnd s lv own HT). pose proof (named_under lv own b B HB) as Hu.
    destruct (under_cases rnd s lv own HT None B b Hu) as (d & Hd & Hdt & _).
    assert (z ∈ nodes (lv None)) as Hz by (rewrite Hn; set_solver +).
    rewrite (top_level_single rnd s lv own HT d z Hd Hz) in Hdt. destruct Hmax as [_ Hmax].
    destruct (before_total rnd s lv own HT b B q X HB HQ) as [->|?]; [by eapply Hmax|by left|by right].
Qed.

(** C20: On a tree that is not empty, [dns_rbtnodechain_first] followed by
    [dns_rbtnodechain_next] until it says [ISC_R_NOMORE] visits every node
    exactly once, in the DNSSEC order of their names, and
    [dns_rbtnodechain_last] with [dns_rbtnodechain_prev] visits them in the
    reverse order. Neither takes more steps than there are nodes, and no step
    fails. (On an empty tree the first reports [ISC_R_NOTFOUND].) *)
Theorem iterate_spec :
  match rbt_root s with
  | Some _ =>
      ∃ c c' l, dns_rbtnodechain_first s false false = Some (DNS_R_NEWORIGIN, c, None, None) ∧
        walk (λ c, dns_rbtnodechain_next s c false false) (size (outers s)) c = Some l ∧
        dns_rbtnodechain_last s false false = Some (DNS_R_NEWORIGIN, c', None, None) ∧
        walk (λ c, dns_rbtnodechain_prev s c false false) (size (outers s)) c' = Some (reverse l) ∧
        StronglySorted (before lv own) l ∧ ∀ p, p ∈ l ↔ p ∈ dom (outers s)
  | None => dns_rbtnodechain_first s false false = Some (ISC_R_NOTFOUND, chain_reset, None, None) ∧ outers s = ∅
  end.
Proof.
  pose proof (RbtLevel.level_root _ _ _ _ (level_of rnd s lv own HT None [] eq_refl)) as Hroot. cbn in Hroot.
  rewrite Hroot. destruct (top (lv None)) as [r|] eqn:Hr.
  - destruct (first_spec r Hr) as (c & -> & Hc & Hmin). destruct (last_spec r Hr) as (c' & q & -> & Hc' & Hq & Hmax).
    destruct (walk_all (before lv own) before_irr before_trans (λ p q H, proj2 (before_live p q H)) _
      (next_run rnd s lv own HT) c r Hc) as (l & Hw & Hl & Hin); [by exists None; apply top_elem|done|].
    destruct (walk_all (flip (before lv own)) before_irr (λ p q r H1 H2, before_trans r q p H2 H1)
      (λ p q H, proj1 (before_live q p H)) _ prev_step c' q Hc' Hq Hmax) as (l' & Hw' & Hl' & Hin').
    exists c, c', l. split_and!; [done..| |done|].
    + rewrite Hw', <- (reverse_involutive l'). do 2 f_equal.
      apply (strictly_sorted_unique (before lv own) before_irr before_trans); [by apply strictly_sorted_reverse|done|].
      intros p. by rewrite elem_of_reverse, Hin, Hin'.
    + intros p. by rewrite Hin, elem_of_dom, (fo_dom _ _ _ F).
  - unfold dns_rbtnodechain_first, dns_rbtnodechain_current. cbn. rewrite Hroot. split; [done|].
    apply map_empty. intros p. destruct (outers s !! p) eqn:Ho; [|done]. exfalso.
    destruct (node_named rnd s lv own HT p) as [P HP%(named_under lv own)]; [by apply (fo_dom _ _ _ F); eexists|].
    destruct (under_cases rnd s lv own HT None P p HP) as (d & Hd & _). destruct (lv None); [by apply elem_of_nil in Hd|done].
Qed.

End Iterate.
