(* ===== verification/NameMap.v ===== *)
(** * The name tree is a map

    For its users a tree is a finite map from names, compared without case,
    to data: [dns_rbt_addname] adds an entry, [dns_rbt_deletename] takes one
    away, [dns_rbt_findname] looks one up or finds the entry of the closest
    name above. Here is that map, the refinement for single operations and for
    all sequences of them, and the properties of [dns_rbt_addnode],
    [dns_rbt_findnode] and [dns_rbt_deletenode] themselves. *)

From stdpp Require Import gmap.
From S2P Require Import Prelude Rdata Name Rbt RbtTree RbtLevel RbtAdd NameTree NameChain NameFind NameDelete NameForest NameHash NameLink NameSplit NameReplace NameGrow NameAdd NameSearch NameFree NameRemove NameErase NameFindSpec NameWalk NamePred.

#[local] Open Scope nat_scope.

(** ** The abstract map *)

(** Entries, the newest first; the names are labels. *)
Abbreviation name_map := (list (list label * nat)).

Definition has_entry (m : name_map) (N : list label) (v : nat) : Prop :=
  ∃ M, (M, v) ∈ m ∧ same_labels M N.

(** What adding may do. *)
Definition map_add (m : name_map) (N : list label) (v : nat) (result : isc_result) (m' : name_map) : Prop :=
  match result with
  | ISC_R_SUCCESS => (∀ v', ¬ has_entry m N v') ∧ m' = (N, v) :: m
  | ISC_R_EXISTS => (∃ v', has_entry m N v') ∧ m' = m
  | ISC_R_NOMEMORY => (∀ v', ¬ has_entry m N v') ∧ m' = m
  | _ => False
  end.

(** What deleting a name does, with all below it if [recurse] is set; [ds] is
    what the deleter is called with. *)
Definition erases (N : list label) (recurse : bool) (M : list label) : Prop :=
  same_labels M N ∨ (recurse = true ∧ below M N).

#[export] Instance below_dec M N : Decision (below M N).
Proof.
  destruct (decide (key N `prefix_of` key M)) as [Hp|Hp].
  - destruct (decide (same_labels M N)) as [Hs|Hs].
    + right. intros Hb%below_length. apply same_labels_length in Hs as [Hl _]. lia.
    + left. apply key_suffix in Hp as [?|?]; done.
  - right. intros Hb. apply Hp, key_suffix. by right.
Defined.

#[export] Instance erases_dec N recurse M : Decision (erases N recurse M).
Proof. unfold erases. apply _. Defined.

Definition map_delete (has_deleter : bool) (m : name_map) (N : list label) (recurse : bool)
    (result : isc_result) (m' : name_map) (ds : list nat) : Prop :=
  match result with
  | ISC_R_SUCCESS => (∃ v, has_entry m N v) ∧ m' = filter (λ e, ¬ erases N recurse e.1) m ∧
      ∀ d, d ∈ ds ↔ has_deleter = true ∧ ∃ M, has_entry m M d ∧ erases N recurse M
  | ISC_R_NOTFOUND => (∀ v, ¬ has_entry m N v) ∧ m' = m ∧ ds = []
  | _ => False
  end.

(** What looking up finds: the entry of the name or of the closest name above. *)
Definition map_find (m : name_map) (N : list label) (result : isc_result) (v : option nat) : Prop :=
  match result with
  | ISC_R_SUCCESS => ∃ d, v = Some d ∧ has_entry m N d
  | DNS_R_PARTIALMATCH => (∀ d, ¬ has_entry m N d) ∧ ∃ M d, v = Some d ∧ has_entry m M d ∧ below N M ∧
      ∀ B d', has_entry m B d' → below N B → length B <= length M
  | ISC_R_NOTFOUND => v = None ∧ (∀ d, ¬ has_entry m N d) ∧ ∀ B d, has_entry m B d → ¬ below N B
  | _ => False
  end.

(** Operations, on names or on their labels. *)
Inductive op (A : Type) := OpAdd (n : A) (v : nat) | OpDelete (n : A) (recurse : bool).
Arguments OpAdd {A} n v.
Arguments OpDelete {A} n recurse.

(** The operations on the map. *)
Definition map_op (has_deleter : bool) (m : name_map) (o : op (list label)) (r : isc_result * list nat)
    (m' : name_map) : Prop :=
  match o with
  | OpAdd N v => map_add m N v r.1 m' ∧ r.2 = []
  | OpDelete N recurse => map_delete has_deleter m N recurse r.1 m' r.2
  end.

Inductive map_ops (has_deleter : bool) :
    name_map → list (op (list label)) → list (isc_result * list nat) → name_map → Prop :=
  | map_ops_nil m : map_ops has_deleter m [] [] m
  | map_ops_cons m o l r rs m1 m' :
      map_op has_deleter m o r m1 → map_ops has_deleter m1 l rs m' → map_ops has_deleter m (o :: l) (r :: rs) m'.

(** An operation on names and the same on their labels. *)
Inductive op_repr : op name → op (list label) → Prop :=
  | repr_add n N v : name_repr n N → is_root_last N = true → op_repr (OpAdd n v) (OpAdd N v)
  | repr_delete n N recurse :
      name_repr n N → is_root_last N = true → op_repr (OpDelete n recurse) (OpDelete N recurse).

(** ** The data of a tree *)

Definition data_at (s : dns_rbt) (p : ptr) : option nat := outers s !! p ≫= data.

Section Map.
Context (isc_mem_get : store → option ptr) (Hfresh : ∀ m p, isc_mem_get m = Some p → m !! p = None).
Context (get_table : Z → bool) (rnd : list Z) (Hrnd : DNS_NAME_MAXWIRE < length rnd).

(** The tree holds the entries of the map. *)
Record refines (s : dns_rbt) (lv : option ptr → tree) (own : ptr → list label) (m : name_map) : Prop := Refines {
  rf_tree : name_tree rnd s lv own;
  rf_entry N v : has_entry m N v ↔ ∃ p M, named lv own p M ∧ same_labels M N ∧ data_at s p = Some v }.

Lemma created_tree s : dns_rbt_create get_table true = (ISC_R_SUCCESS, Some s) →
  name_tree rnd s (λ _, E) (λ _, []).
Proof.
  unfold dns_rbt_create, inithash. destruct (get_table RBT_HASH_SIZE); [|done]. cbn -[replicate]. intros [= <-].
  assert (∀ p, ¬ live (λ _, E) p) as Hlive by (intros p [u Hu]; by apply elem_of_nil in Hu).
  split.
  - split; try done.
    + intros u _. split; [|exists 0; split; [constructor|done]]. cbn. split; try done.
      * destruct u; [|done]. cbn. by rewrite lookup_empty.
      * constructor.
      * intros ? _. apply not_elem_of_nil.
    + intros p. cbn. rewrite lookup_empty. split; [intros H; by apply Hlive in H|intros H; by apply is_Some_None in H].
    + intros p. cbn. by rewrite !lookup_empty.
    + intros u v p Hp. by apply elem_of_nil in Hp.
    + intros u p Hp. by apply elem_of_nil in Hp.
    + intros u. constructor.
    + intros p Hp. by apply Hlive in Hp.
  - exists []. split.
    + split; [done| |by intros p o ?]. exists (replicate (Z.to_nat RBT_HASH_SIZE) []).
      split; [exact (empty_table ∅ RBT_HASH_SIZE)|]. cbn. done.
    + intros p. rewrite elem_of_nil. split; [done|]. apply Hlive.
  - intros p M o HM. apply named_live in HM. by apply Hlive in HM.
  - done.
Qed.

Lemma created_refines s : dns_rbt_create get_table true = (ISC_R_SUCCESS, Some s) →
  refines s (λ _, E) (λ _, []) [].
Proof.
  intros Hs. split; [by apply created_tree|]. intros N v. split.
  - intros (M & HM & _). by apply elem_of_nil in HM.
  - intros (p & M & HM & _). apply named_live in HM as [u Hu]. by apply elem_of_nil in Hu.
Qed.

(** *** Data of a node *)

Lemma info_data s s' q : info <$> outers s' !! q = info <$> outers s !! q → data_at s' q = data_at s q.
Proof.
  unfold data_at. destruct (outers s' !! q), (outers s !! q); try done. cbn. intros H. by injection H.
Qed.

(** *** Adding an entry *)

Lemma unchanged_entries s lv own m s' lv' own' X :
  refines s lv own m → name_tree rnd s' lv' own' → extends s lv own s' lv' own' X → refines s' lv' own' m.
Proof.
  intros [HT Hent] HT' [Hn Hnew Hold]. split; [done|]. intros N v. rewrite Hent. split.
  - intros (p & M & HM & Hs & Hd). exists p, M. split_and!; [by apply Hn; left|done|].
    rewrite (info_data s s'); [done|]. apply Hold. by eapply named_live.
  - intros (p & M & HM & Hs & Hd). apply Hn in HM as [HM|HX].
    + exists p, M. split_and!; try done. rewrite <- (info_data s s'); [done|]. apply Hold. by eapply named_live.
    + exfalso. destruct (Hnew p M HX) as [_ Hi]. unfold data_at in Hd. destruct (outers s' !! p) as [o|]; [|done].
      cbn in Hi, Hd. by injection Hi as E _; rewrite E in Hd.
Qed.

Lemma set_entry s lv own m p M N v :
  refines s lv own m → named lv own p M → same_labels M N → data_at s p = None →
  ∃ s', upd_outer s p (λ o, with_data o (Some v)) = Some s' ∧ refines s' lv own ((N, v) :: m) ∧
    ∀ v', ¬ has_entry m N v'.
Proof.
  intros [HT Hent] HM Hs Hd. pose proof (nt_forest _ _ _ _ HT) as F.
  destruct (proj1 (fo_dom _ _ _ F p) ltac:(by eapply named_live)) as [o Ho].
  destruct (set_data_tree rnd s lv own p (Some v) o HT Ho) as [Hrun HT'].
  eexists. split; [exact Hrun|].
  assert (∀ q, data_at (set_outers s (<[p := with_data o (Some v)]> (outers s))) q =
    if decide (q = p) then Some v else data_at s q) as Hdata.
  { intros q. unfold data_at. cbn. rewrite lookup_insert. destruct (decide (p = q)) as [<-|].
    - by rewrite decide_True.
    - by rewrite decide_False by congruence. }
  assert (∀ q M', named lv own q M' → same_labels M' N → q = p) as Huniq.
  { intros q M' HM' Hs'. eapply (named_inj lv own s F); [done..|]. by rewrite Hs', Hs. }
  assert (∀ v', ¬ has_entry m N v') as Hno.
  { intros v' (q & M' & HM' & Hs' & Hd')%Hent. rewrite (Huniq q M' HM' Hs') in Hd'. congruence. }
  split; [|done]. split; [done|]. intros K w. split.
  - intros (M' & [E|Hin]%elem_of_cons & HMK).
    + simplify_eq. exists p, M. split_and!; [done|by rewrite Hs|]. by rewrite Hdata, decide_True.
    + destruct (proj1 (Hent K w)) as (q & M2 & HM2 & Hs2 & Hd2); [by exists M'|].
      exists q, M2. split_and!; try done. rewrite Hdata, decide_False; [done|]. intros ->. congruence.
  - intros (q & M' & HM' & HMK & Hd'). rewrite Hdata in Hd'. destruct (decide (q = p)) as [->|Hq].
    + injection Hd' as <-. exists N. split; [apply elem_of_cons; by left|].
      rewrite <- HMK, <- Hs, (named_fun lv own s F _ _ _ HM HM'). done.
    + destruct (proj2 (Hent K w)) as (M2 & Hin & Hs2); [by exists q, M'|].
      exists M2. split; [|done]. apply elem_of_cons. by right.
Qed.

Lemma addname_refines s lv own m n N v :
  refines s lv own m → name_repr n N → is_root_last N = true →
  ∃ s' result lv' own' m', dns_rbt_addname isc_mem_get get_table rnd s n v = Some (s', result) ∧
    refines s' lv' own' m' ∧ map_add m N v result m'.
Proof.
  intros HR Hn Habs. pose proof (rf_tree _ _ _ _ HR) as HT. pose proof (nt_forest _ _ _ _ HT) as F.
  destruct (addnode_added isc_mem_get Hfresh get_table rnd Hrnd s lv own n N HT Hn Habs)
    as (s1 & result & node & Hrun & lv' & own' & X & HT' & HX & _ & Hres).
  unfold dns_rbt_addname. rewrite Hrun. cbn [mbind option_bind].
  pose proof (unchanged_entries _ _ _ _ _ _ _ _ HR HT' HX) as HR'.
  assert (∀ M v', absent lv own N → same_labels M N → ¬ has_entry m M v') as Hab.
  { intros M v' Ha HM (p & M' & HM' & Hs' & _)%(rf_entry _ _ _ _ HR). apply (Ha p M' HM'). by rewrite Hs'. }
  destruct result; try done.
  - destruct Hres as (Ha & p & M & X' & -> & HpX & Hs & _). cbn [mbind option_bind].
    assert ((p, M) ∈ X) as Hin by (rewrite HpX; apply elem_of_cons; by left).
    assert (named lv' own' p M) as HpM by (apply (ex_named _ _ _ _ _ _ _ HX); by right).
    destruct (ex_new _ _ _ _ _ _ _ HX p M Hin) as [_ Hi].
    assert (data_at s1 p = None) as Hd.
    { unfold data_at. destruct (outers s1 !! p) as [o|]; [|done]. cbn in *. by injection Hi. }
    destruct (set_entry s1 lv' own' m p M N v HR' HpM Hs Hd) as (s2 & -> & HR2 & Hno).
    cbn [mbind option_bind]. exists s2, ISC_R_SUCCESS, lv', own', ((N, v) :: m). done.
  - destruct Hres as (Ha & _). exists s1, ISC_R_NOMEMORY, lv', own', m. split_and!; try done.
    split; [|done]. intros v'. by apply Hab.
  - destruct Hres as (-> & -> & p & M & -> & HM & Hs). cbn [mbind option_bind].
    destruct (proj1 (fo_dom _ _ _ F p) ltac:(by eapply named_live)) as [o Ho]. rewrite Ho. cbn [mbind option_bind].
    case_bool_decide as Hd.
    + destruct (set_entry s lv own m p M N v HR HM Hs) as (s2 & -> & HR2 & Hno).
      { unfold data_at. by rewrite Ho. }
      cbn [mbind option_bind]. by exists s2, ISC_R_SUCCESS, lv, own, ((N, v) :: m).
    + exists s, ISC_R_EXISTS, lv, own, m. split_and!; try done. split; [|done]. destruct (data o) as [d|] eqn:Ed; [|done].
      exists d. apply (rf_entry _ _ _ _ HR). exists p, M. split_and!; try done. unfold data_at. by rewrite Ho.
Qed.

(** *** Looking up *)

Lemma findname_refines s lv own m n N np :
  refines s lv own m → name_repr n N → is_root_last N = true →
  ∃ result v, dns_rbt_findname rnd s n (FindOptions false false np) = Some (result, v) ∧ map_find m N result v.
Proof.
  intros HR Hn Habs. pose proof (rf_tree _ _ _ _ HR) as HT. pose proof (nt_forest _ _ _ _ HT) as F.
  set (opts := FindOptions false false np).
  destruct (findnode_found rnd s lv own HT opts N n false false Hrnd Hn Habs eq_refl)
    as (result & node & fname & c & Hrun & Hfound & _).
  assert (∀ p, wanted_node s opts p = true ↔ ∃ d, data_at s p = Some d) as Hw.
  { intros p. unfold wanted_node, data_at, wanted. destruct (outers s !! p) as [o|]; cbn; [|naive_solver].
    rewrite orb_false_r, bool_decide_eq_true. destruct (data o); naive_solver. }
  assert (∀ p M d K, named lv own p M → same_labels M K → data_at s p = Some d → has_entry m K d) as Hent.
  { intros p M d K HM Hs Hd. apply (rf_entry _ _ _ _ HR). by exists p, M. }
  assert (not_exact s lv own opts N → ∀ d, ¬ has_entry m N d) as Hne.
  { intros Hno d (p & M & HM & Hs & Hd)%(rf_entry _ _ _ _ HR). destruct (Hno p M HM Hs) as [?|Hf]; [done|].
    assert (wanted_node s opts p = true) by (apply Hw; eauto). congruence. }
  assert (∀ p, wanted_node s opts p = true → ∃ o d, outers s !! p = Some o ∧ data o = Some d ∧ data_at s p = Some d) as Hdata.
  { intros p [d Hd]%Hw. unfold data_at in *. destruct (outers s !! p) as [o|]; [|done]. by exists o, d. }
  unfold dns_rbt_findname. rewrite Hrun. cbn [mbind option_bind]. destruct result; try done.
  - destruct Hfound as (p & M & -> & HM & Hs & _ & Hwp). destruct (Hdata p Hwp) as (o & d & Ho & Hd & Hdp).
    rewrite Ho. cbn [mbind option_bind]. unfold wanted. rewrite Hd. cbn. eexists _, _. split; [done|].
    exists d. split; [done|]. by eapply Hent.
  - destruct Hfound as (Hno & -> & Hanc). eexists _, _. split; [done|]. split_and!; [done|by apply Hne|].
    intros B d (p & M & HM & Hs & Hd)%(rf_entry _ _ _ _ HR) Hb.
    assert (below N M) as HbM.
    { destruct Hb as (Z & Y & -> & HZ & HY). exists Z, Y. split_and!; try done. by rewrite HY. }
    pose proof (Hanc p M HM HbM). assert (wanted_node s opts p = true) by (apply Hw; eauto). congruence.
  - destruct Hfound as (Hno & p & M & -> & HM & Hb & Hwp & Hmax).
    destruct (Hdata p Hwp) as (o & d & Ho & Hd & Hdp).
    rewrite Ho. cbn [mbind option_bind]. unfold wanted. rewrite Hd. cbn. eexists _, _. split; [done|].
    split; [by apply Hne|]. exists M, d. split_and!; [done|by eapply Hent|done|].
    intros B d' (q & M' & HM' & Hs' & Hd')%(rf_entry _ _ _ _ HR) HbB.
    assert (below N M') as HbM'.
    { destruct HbB as (Z & Y & -> & HZ & HY). exists Z, Y. split_and!; try done. by rewrite HY. }
    pose proof (Hmax q M' HM' HbM' ltac:(apply Hw; eauto)). apply same_labels_length in Hs' as [<- _]. done.
Qed.

(** *** Deleting entries *)

Lemma erases_same N recurse M1 M2 : same_labels M1 M2 → erases N recurse M1 ↔ erases N recurse M2.
Proof.
  intros Hs. assert (∀ A B, same_labels A B → below A N → below B N) as Hb.
  { intros A B HAB HA. assert (key N `prefix_of` key B) as Hp.
    { apply (proj2 (key_same _ _)) in HAB. rewrite <- HAB. apply key_suffix. by right. }
    apply key_suffix in Hp as [Hs'|?]; [|done]. apply below_length in HA.
    apply same_labels_length in HAB as [? _], Hs' as [? _]. lia. }
  assert (same_labels M1 N ↔ same_labels M2 N) as Hiff by (unfold same_labels in *; by rewrite Hs).
  unfold erases. pose proof (Hb M1 M2 Hs). pose proof (Hb M2 M1 (symmetry Hs)). tauto.
Qed.

Lemma filter_entry N recurse m M v :
  has_entry (filter (λ e, ¬ erases N recurse e.1) m) M v ↔ has_entry m M v ∧ ¬ erases N recurse M.
Proof.
  unfold has_entry. split.
  - intros (K & [Hn Hin]%list_elem_of_filter & Hs). split; [by exists K|]. by rewrite <- (erases_same N recurse K M Hs).
  - intros [(K & Hin & Hs) Hn]. exists K. split; [|done]. apply list_elem_of_filter.
    split; [|done]. cbn. by rewrite (erases_same N recurse K M Hs).
Qed.

(** The nodes that a deletion takes away, by their names. *)
Lemma erases_node s lv own p P N recurse q M :
  name_tree rnd s lv own → named lv own p P → same_labels P N → named lv own q M →
  (below_node lv own p q ↔ below M N) ∧
  (erases N recurse M ↔ q = p ∨ (¬ emptied lv own p recurse ∧ below_node lv own p q)).
Proof.
  intros HT HP HPN HM. pose proof (nt_forest _ _ _ _ HT) as F.
  assert (below_node lv own p q ↔ below M N) as Hbelow.
  { rewrite (below_node_name rnd s lv own HT p P q M HP HM). split; intros (A & B & -> & HA & HB).
    - exists A, B. by rewrite <- HPN.
    - exists A, B. by rewrite HPN. }
  split; [done|].
  assert (same_labels M N ↔ q = p) as Hsame.
  { split.
    - intros Hs. eapply (named_inj lv own s F); [done..|]. by rewrite Hs, HPN.
    - intros ->. by rewrite (named_fun lv own s F _ _ _ HM HP). }
  unfold erases. rewrite Hsame, <- Hbelow. unfold emptied.
  destruct recurse; split; (intros [Hqp|[Hne Hq]]; [by left|]); try done.
  - right. split; [|done]. by intros [? _].
  - by right.
  - exfalso. apply Hne. split; [done|]. by exists q.
Qed.

(** Which entries a deleted node takes with it. *)
Lemma erased_entries b s lv own m p P N recurse s' lv' ds :
  refines s lv own m → named lv own p P → same_labels P N → is_Some (data_at s p) →
  erased rnd s lv own b p recurse s' lv' ds →
  refines s' lv' own (filter (λ e, ¬ erases N recurse e.1) m) ∧
  ∀ d, d ∈ ds ↔ b = true ∧ ∃ M, has_entry m M d ∧ erases N recurse M.
Proof.
  intros [HT Hent] HP HPN Hdp [HT' Hnamed Hinfo Hself (l & Hd & Hl & ->)].
  pose proof (nt_forest _ _ _ _ HT) as F.
  pose proof (λ q M HM, proj1 (erases_node s lv own p P N recurse q M HT HP HPN HM)) as Hbelow.
  pose proof (λ q M HM, proj2 (erases_node s lv own p P N recurse q M HT HP HPN HM)) as Her.
  split.
  - split; [done|]. intros K v. rewrite filter_entry, Hent. split.
    + intros [(q & M & HM & Hs & Hdat) Hn]. rewrite <- (erases_same N recurse M K Hs), (Her q M HM) in Hn.
      assert (named lv' own q M) as HM'.
      { apply Hnamed. split; [done|]. destruct (decide (below M N)) as [Hb|Hb]; rewrite <- (Hbelow q M HM) in Hb; [|tauto].
        left. destruct recurse; [|split; [done|by exists q]]. exfalso. apply Hn. right. split; [by intros [? _]|done]. }
      exists q, M. split_and!; [done..|]. rewrite (info_data s s'); [done|].
      apply Hinfo; [by eapply named_live|]. tauto.
    + intros (q & M & HM' & Hs & Hdat). pose proof (proj1 (Hnamed q M) HM') as [HM Hq].
      assert (q ≠ p) as Hqp.
      { intros ->. unfold data_at in Hdat. rewrite Hself in Hdat; [done|]. by eapply named_live. }
      split.
      * exists q, M. split_and!; [done..|]. rewrite <- (info_data s s'); [done|].
        apply Hinfo; [by eapply named_live|done].
      * rewrite <- (erases_same N recurse M K Hs), (Her q M HM). tauto.
  - intros d. unfold freed_data. rewrite list_elem_of_bind. split.
    + intros (q & Hdq & Hq%Hl). destruct (outers s !! q) as [o|] eqn:Ho; [|by apply elem_of_nil in Hdq].
      unfold delete_data in Hdq. destruct (data o) as [d'|] eqn:Ed; [|by apply elem_of_nil in Hdq].
      destruct b; [|by apply elem_of_nil in Hdq]. apply list_elem_of_singleton in Hdq as ->. split; [done|].
      destruct (fo_named _ _ _ F q) as (M & HM & _); [apply (fo_dom _ _ _ F); by exists o|].
      exists M. split; [|by apply (Her q M HM)]. apply Hent. exists q, M. split_and!; try done.
      unfold data_at. by rewrite Ho.
    + intros [-> (M & (q & M' & HM' & Hs & Hdat)%Hent & Hm)]. exists q. split.
      * unfold data_at in Hdat. destruct (outers s !! q) as [o|]; [|done]. cbn in Hdat. unfold delete_data.
        rewrite Hdat. by apply list_elem_of_singleton.
      * apply Hl, (Her q M' HM'). by rewrite (erases_same N recurse M' M Hs).
Qed.
Lemma deletename_refines b s lv own m n N recurse :
  refines s lv own m → name_repr n N → is_root_last N = true →
  ∃ s' result ds lv' m', dns_rbt_deletename b rnd s n recurse = Some (s', result, ds) ∧
    refines s' lv' own m' ∧ map_delete b m N recurse result m' ds.
Proof.
  intros HR Hn Habs. pose proof (rf_tree _ _ _ _ HR) as HT.
  set (opts := FindOptions false false false).
  destruct (findnode_found rnd s lv own HT opts N n false false Hrnd Hn Habs eq_refl)
    as (result & node & fname & c & Hrun & Hfound & _).
  unfold dns_rbt_deletename. fold opts. rewrite Hrun. cbn [mbind option_bind].
  assert (not_exact s lv own opts N → ∀ d, ¬ has_entry m N d) as Hne.
  { intros Hno d (p & M & HM & Hs & Hd)%(rf_entry _ _ _ _ HR). destruct (Hno p M HM Hs) as [?|Hf]; [done|].
    unfold wanted_node, data_at in *. destruct (outers s !! p) as [o|]; [|done]. cbn in *.
    unfold wanted in Hf. by rewrite Hd in Hf. }
  destruct result; try done.
  - destruct Hfound as (p & P & -> & HP & Hs & _ & Hw). unfold wanted_node in Hw.
    destruct (outers s !! p) as [o|] eqn:Ho; [|done]. cbn [mbind option_bind]. rewrite Ho. cbn [mbind option_bind].
    unfold wanted in Hw. cbn in Hw. rewrite orb_false_r, bool_decide_eq_true in Hw.
    rewrite bool_decide_true by done. destruct (data o) as [d|] eqn:Ed; [|done].
    assert (data_at s p = Some d) as Hd by (unfold data_at; by rewrite Ho).
    destruct (deletenode_erased rnd s lv own HT b p P recurse HP) as (s' & lv' & ds & -> & He).
    cbn [mbind option_bind]. destruct (erased_entries b s lv own m p P N recurse s' lv' ds) as [HR' Hds]; try done.
    eexists s', ISC_R_SUCCESS, ds, lv', _. split; [done|]. split; [exact HR'|]. split; [|done].
    exists d. apply (rf_entry _ _ _ _ HR). by exists p, P.
  - destruct Hfound as (Hno & -> & _). eexists s, ISC_R_NOTFOUND, [], lv, m. split; [done|]. split; [done|].
    split; [by apply Hne|done].
  - destruct Hfound as (Hno & _). eexists s, ISC_R_NOTFOUND, [], lv, m. split; [done|]. split; [done|].
    split; [by apply Hne|done].
Qed.

(** *** Sequences of operations *)

Definition run_op (has_deleter : bool) (s : dns_rbt) (o : op name) : option (dns_rbt * isc_result * list nat) :=
  match o with
  | OpAdd n v => '(s, r) ← dns_rbt_addname isc_mem_get get_table rnd s n v; Some (s, r, [])
  | OpDelete n recurse => dns_rbt_deletename has_deleter rnd s n recurse
  end.

Fixpoint run_ops (has_deleter : bool) (s : dns_rbt) (l : list (op name))
    : option (dns_rbt * list (isc_result * list nat)) :=
  match l with
  | [] => Some (s, [])
  | o :: l =>
      '(s, r, ds) ← run_op has_deleter s o;
      '(s, rs) ← run_ops has_deleter s l;
      Some (s, (r, ds) :: rs)
  end.

Lemma run_op_refines b s lv own m o O :
  refines s lv own m → op_repr o O →
  ∃ s' r ds lv' own' m', run_op b s o = Some (s', r, ds) ∧ refines s' lv' own' m' ∧ map_op b m O (r, ds) m'.
Proof.
  intros HR [n N v Hn Habs|n N recurse Hn Habs].
  - destruct (addname_refines s lv own m n N v HR Hn Habs) as (s1 & r & lv1 & own1 & m1 & Hrun & HR1 & Hadd).
    exists s1, r, [], lv1, own1, m1. cbn. rewrite Hrun. cbn. done.
  - destruct (deletename_refines b s lv own m n N recurse HR Hn Habs) as (s1 & r & ds & lv1 & m1 & Hrun & HR1 & Hdel).
    by exists s1, r, ds, lv1, own, m1.
Qed.

Lemma run_ops_refines b l Ls s lv own m :
  refines s lv own m → Forall2 op_repr l Ls →
  ∃ s' rs lv' own' m', run_ops b s l = Some (s', rs) ∧ refines s' lv' own' m' ∧ map_ops b m Ls rs m'.
Proof.
  intros HR Hl. revert s lv own m HR. induction Hl as [|o O l Ls Ho _ IH]; intros s lv own m HR.
  - exists s, [], lv, own, m. split_and!; [done..|constructor].
  - destruct (run_op_refines b s lv own m o O HR Ho) as (s1 & r & ds & lv1 & own1 & m1 & Hrun & HR1 & Hop).
    destruct (IH s1 lv1 own1 m1 HR1) as (s2 & rs & lv2 & own2 & m2 & Hrun2 & HR2 & Hops).
    cbn [run_ops]. rewrite Hrun. cbn [mbind option_bind]. rewrite Hrun2. cbn [mbind option_bind].
    exists s2, ((r, ds) :: rs), lv2, own2, m2. split_and!; [done..|]. by econstructor.
Qed.

(** ** Full names *)

Lemma fullname_loop_spec s lv own fuel u U p n Z :
  forest lv own s → place lv own u U → p ∈ nodes (lv u) → name_repr n Z → is_root_last Z = false →
  labels_ok (Z ++ own p ++ U) → length (own p ++ U) <= fuel →
  ∃ n', fullname_loop fuel s p n = Some (ISC_R_SUCCESS, n') ∧ name_repr n' (Z ++ own p ++ U).
Proof.
  intros F. revert u U p n Z. induction fuel as [|fuel IH]; intros u U p n Z HU Hp Hn HZ Hok Hf.
  { pose proof (own_nonempty _ _ _ F _ _ Hp). rewrite length_app in Hf. destruct (own p); [done|cbn in Hf; lia]. }
  destruct (proj1 (fo_dom _ _ _ F p) ltac:(by exists u)) as [o Ho]. cbn [fullname_loop]. rewrite Ho. cbn [mbind option_bind].
  destruct (fo_name _ _ _ F _ _ Ho) as [Hrep Hne]. rewrite app_assoc in Hok |- *.
  pose proof Hok as Hok'. apply labels_ok_app in Hok' as [Hok1 _].
  rewrite (concatenate_spec n Z _ (own p) Hn Hrep Hne Hok1 HZ). cbn [mbind option_bind].
  rewrite bool_decide_false by (intros Hc; by apply Hc). rewrite (find_up_live _ _ _ _ _ F Hp). cbn [mbind option_bind].
  change (absolute (name_of (Z ++ own p))) with (is_root_last (Z ++ own p)).
  rewrite (root_last_app Z) by done. rewrite (fo_abs _ _ _ F _ _ Hp). destruct u as [a|].
  - rewrite bool_decide_false by done. cbn [mbind option_bind]. cbn in HU.
    assert (∃ v A V, U = A ++ V ∧ A = own a ∧ place lv own v V ∧ a ∈ nodes (lv v)) as (v & A & V & -> & -> & HV & Ha).
    { inversion HU as [? Ha|? c V Ha Hc]; subst; [exists None, (own a), []; by rewrite app_nil_r|by exists (Some c), (own a), V]. }
    destruct (IH v V a (name_of (Z ++ own p)) (Z ++ own p) HV Ha) as (n' & Hrun & Hn'); [| |done| |].
    + by apply name_of_repr.
    + rewrite root_last_app by done. rewrite (fo_abs _ _ _ F _ _ Hp). by apply bool_decide_false.
    + rewrite !length_app in *. destruct (own p); [done|]. cbn in Hf. lia.
    + by exists n'.
  - rewrite bool_decide_true by done. cbn in HU. subst U. rewrite app_nil_r in *. eexists. split; [done|].
    by apply name_of_repr.
Qed.

Lemma fullnamefromnode_spec s lv own p N :
  name_tree rnd s lv own → named lv own p N →
  ∃ n, dns_rbt_fullnamefromnode s p = Some (ISC_R_SUCCESS, n) ∧ name_repr n N.
Proof.
  intros HT HN. pose proof (nt_forest _ _ _ _ HT) as F.
  destruct (fo_named _ _ _ F p ltac:(by eapply named_live)) as (N' & HN' & Hok).
  rewrite (named_fun _ _ _ F _ _ _ HN' HN) in Hok. pose proof (labels_ok_length _ Hok).
  assert (∃ u U, N = own p ++ U ∧ place lv own u U ∧ p ∈ nodes (lv u)) as (u & U & -> & HU & Hp).
  { inversion HN as [? Hp|? a U Hp Ha]; subst; [exists None, []; by rewrite app_nil_r|by exists (Some a), U]. }
  destruct (fullname_loop_spec s lv own DNS_RBT_LEVELBLOCK u U p (Name [] 0 false) [] F HU Hp) as (n & Hrun & Hn); try done.
  - change (Name [] 0 false) with (name_of []). apply name_of_repr, labels_ok_nil.
  - unfold DNS_RBT_LEVELBLOCK. lia.
  - by exists n.
Qed.

(** ** The properties *)

(** C16: [dns_rbt_addnode] of an absolute name, in a tree of trees with a hash
    table. If a node has the name, up to case, the result is [ISC_R_EXISTS]
    with that node and nothing changes. Otherwise the result is
    [ISC_R_SUCCESS] with a new node that has the name, or [ISC_R_NOMEMORY];
    in both cases every node keeps its full name and its data, and there is at
    most one more node, without data, whose name is a proper ancestor of the
    new one. The tree, with its levels, its hash table and its node count,
    satisfies the invariant again. No assertion fails, no [NULL] is followed,
    no array is left, [ISC_R_NOSPACE] never comes, and the loop ends. *)
Theorem addnode_spec (s : dns_rbt) (lv : option ptr → tree) (own : ptr → list label)
    (n : name) (N : list label) :
  name_tree rnd s lv own → name_repr n N → is_root_last N = true →
  ∃ s' result node, dns_rbt_addnode isc_mem_get get_table rnd s n = Some (s', result, node) ∧
    added rnd s lv own N s' result node.
Proof. by apply addnode_added. Qed.


(** C18: [dns_rbt_deletenode] of any node of a tree. If something is below the
    node and [recurse] is not set, the node stays and loses its data.
    Otherwise the node goes, with all nodes below it: it leaves its level, a
    red-black tree in the order of the others again, its bucket, the count and
    the memory. All other nodes keep their names and their data. The deleter
    is called once for the data of each node that is gone or empty now, and
    for nothing else. No assertion fails, no freed node is touched, and the
    recursion ends. *)
Theorem deletenode_spec (has_deleter : bool) (s : dns_rbt) (lv : option ptr → tree)
    (own : ptr → list label) (p : ptr) (P : list label) (recurse : bool) :
  name_tree rnd s lv own → named lv own p P →
  ∃ s' lv' ds, dns_rbt_deletenode has_deleter s p recurse = Some (s', ds) ∧
    erased rnd s lv own has_deleter p recurse s' lv' ds.
Proof. intros HT. by apply deletenode_erased. Qed.

(** C15: A new tree on which any sequence of [dns_rbt_addname] and
    [dns_rbt_deletename] has run is the map that the results tell: an addition
    that succeeds adds an entry for a name that had none, one that says
    [ISC_R_EXISTS] found an entry with the name, up to case, and changes
    nothing, one that runs out of memory changes nothing; a deletion that
    succeeds found the entry and takes it away, with the entries below it if
    it is recursive, and has called the deleter for exactly their data, and
    one that says [ISC_R_NOTFOUND] found none. Afterwards
    [dns_rbt_findname] of any absolute name returns the data of its entry, or
    with [DNS_R_PARTIALMATCH] that of the longest name above it that has an
    entry, or [ISC_R_NOTFOUND] if none has. No step fails. *)
Theorem names_map_spec (has_deleter : bool) (s0 : dns_rbt) (l : list (op name)) (Ls : list (op (list label))) :
  dns_rbt_create get_table true = (ISC_R_SUCCESS, Some s0) → Forall2 op_repr l Ls →
  ∃ s rs m, run_ops has_deleter s0 l = Some (s, rs) ∧ map_ops has_deleter [] Ls rs m ∧
    ∀ n N np, name_repr n N → is_root_last N = true →
      ∃ result v, dns_rbt_findname rnd s n (FindOptions false false np) = Some (result, v) ∧
        map_find m N result v.
Proof.
  intros Hs Hl. destruct (run_ops_refines has_deleter l Ls s0 _ _ [] (created_refines s0 Hs) Hl)
    as (s & rs & lv & own & m & Hrun & HR & Hops).
  exists s, rs, m. split_and!; [done..|]. intros n N np Hn Habs. by eapply findname_refines.
Qed.

End Map.
