(* ===== verification/NameDestroy.v ===== *)
(** * Destroying a name tree

    [dns_rbt_destroy2] frees the nodes of a tree one by one, at most [quantum]
    in a call, without a stack: it goes left and down to a node with neither,
    frees it, puts its right child in its place and goes on with the parent.

    [tri]: a tree seen through the three pointers; [tri_at s par t]: it is in
    memory, below [par]. A place is the path of frames from there to the
    root; the walk never goes through a right pointer. *)

From stdpp Require Import gmap.
From S2P Require Import Prelude Rdata Name Rbt RbtTree RbtLevel RbtAdd NameTree NameChain NameFind NameDelete NameForest NameHash NameLink NameSplit NameReplace NameGrow NameAdd NameFree NameRemove NameErase.

#[local] Open Scope nat_scope.

Inductive tri := TN | TT (p : ptr) (l d r : tri).
Inductive tframe := FL (p : ptr) (d r : tri) | FD (p : ptr) (r : tri).

#[export] Instance tri_eq_dec : EqDecision tri.
Proof. solve_decision. Defined.

Definition troot (t : tri) : option ptr := match t with TN => None | TT p _ _ _ => Some p end.
Fixpoint tnodes (t : tri) : list ptr :=
  match t with TN => [] | TT p l d r => p :: tnodes l ++ tnodes d ++ tnodes r end.
Definition fptr (f : tframe) : ptr := match f with FL p _ _ => p | FD p _ => p end.
Definition fill (f : tframe) (t : tri) : tri := match f with FL p d r => TT p t d r | FD p r => TT p TN t r end.
Definition fnodes (f : tframe) : list ptr :=
  match f with FL p d r => p :: tnodes d ++ tnodes r | FD p r => p :: tnodes r end.
Fixpoint tplug (k : list tframe) (t : tri) : tri := match k with [] => t | f :: k => tplug k (fill f t) end.
Definition tparent (k : list tframe) : option ptr := fptr <$> head k.

(** ** In memory *)

Definition node_is (s : dns_rbt) (p : ptr) (par l d r : option ptr) : Prop :=
  ∃ n o, links s !! p = Some n ∧ outers s !! p = Some o ∧
    parent n = par ∧ left n = l ∧ down o = d ∧ right n = r.

Fixpoint tri_at (s : dns_rbt) (par : option ptr) (t : tri) : Prop :=
  match t with
  | TN => True
  | TT p l d r => node_is s p par (troot l) (troot d) (troot r) ∧
      tri_at s (Some p) l ∧ tri_at s (Some p) d ∧ tri_at s (Some p) r
  end.

Definition frame_at (s : dns_rbt) (par hole : option ptr) (f : tframe) : Prop :=
  match f with
  | FL p d r => node_is s p par hole (troot d) (troot r) ∧ tri_at s (Some p) d ∧ tri_at s (Some p) r
  | FD p r => node_is s p par None hole (troot r) ∧ tri_at s (Some p) r
  end.

Fixpoint frames_at (s : dns_rbt) (k : list tframe) (hole : option ptr) : Prop :=
  match k with
  | [] => True
  | f :: k => frame_at s (tparent k) hole f ∧ frames_at s k (Some (fptr f))
  end.

Lemma tri_at_fill s par f t :
  tri_at s par (fill f t) ↔ frame_at s par (troot t) f ∧ tri_at s (Some (fptr f)) t.
Proof. destruct f; cbn; tauto. Qed.

Lemma troot_fill f t : troot (fill f t) = Some (fptr f).
Proof. by destruct f. Qed.

Lemma tri_at_plug s k t :
  tri_at s None (tplug k t) ↔ frames_at s k (troot t) ∧ tri_at s (tparent k) t.
Proof.
  revert t. induction k as [|f k IH]; intros t; cbn [tplug frames_at]; [tauto|].
  rewrite IH, tri_at_fill, troot_fill. cbn. tauto.
Qed.

Lemma tnodes_fill f t : tnodes (fill f t) ≡ₚ fnodes f ++ tnodes t.
Proof. destruct f; cbn; solve_Permutation. Qed.

Lemma tnodes_plug k t : tnodes (tplug k t) ≡ₚ (k ≫= fnodes) ++ tnodes t.
Proof.
  revert t. induction k as [|f k IH]; intros t; [done|]. cbn. rewrite IH, tnodes_fill. solve_Permutation.
Qed.

Lemma tplug_app k1 k2 t : tplug (k1 ++ k2) t = tplug k2 (tplug k1 t).
Proof. revert t. induction k1 as [|f k1 IH]; intros t; [done|]. cbn. apply IH. Qed.

(** Nodes that did not change. *)
Definition same_node (s s' : dns_rbt) (q : ptr) : Prop :=
  links s' !! q = links s !! q ∧ outers s' !! q = outers s !! q.

Lemma node_is_same s s' p par l d r : same_node s s' p → node_is s p par l d r → node_is s' p par l d r.
Proof. intros [E1 E2] (n & o & Hn & Ho & H). exists n, o. by rewrite E1, E2. Qed.

Lemma tri_at_same s s' par t : (∀ q, q ∈ tnodes t → same_node s s' q) → tri_at s par t → tri_at s' par t.
Proof.
  revert par. induction t as [|p l IHl d IHd r IHr]; intros par Hs; [done|]. cbn in *.
  intros (Hp & Hl & Hd & Hr). split_and!.
  - eapply node_is_same; [|done]. apply Hs. set_solver +.
  - apply IHl; [|done]. intros q Hq. apply Hs. set_solver +Hq.
  - apply IHd; [|done]. intros q Hq. apply Hs. set_solver +Hq.
  - apply IHr; [|done]. intros q Hq. apply Hs. set_solver +Hq.
Qed.

Lemma frame_at_same s s' par hole f :
  (∀ q, q ∈ fnodes f → same_node s s' q) → frame_at s par hole f → frame_at s' par hole f.
Proof.
  destruct f as [p d r|p r]; cbn; intros Hs.
  - intros (Hp & Hd & Hr). split_and!.
    + eapply node_is_same; [|done]. apply Hs. set_solver +.
    + eapply tri_at_same; [|done]. intros q Hq. apply Hs. set_solver +Hq.
    + eapply tri_at_same; [|done]. intros q Hq. apply Hs. set_solver +Hq.
  - intros (Hp & Hr). split.
    + eapply node_is_same; [|done]. apply Hs. set_solver +.
    + eapply tri_at_same; [|done]. intros q Hq. apply Hs. set_solver +Hq.
Qed.

Lemma frames_at_same s s' k hole :
  (∀ q, q ∈ k ≫= fnodes → same_node s s' q) → frames_at s k hole → frames_at s' k hole.
Proof.
  revert hole. induction k as [|f k IH]; intros hole Hs; [done|]. cbn in *. intros [Hf Hk]. split.
  - eapply frame_at_same; [|done]. intros q Hq. apply Hs. set_solver +Hq.
  - apply IH; [|done]. intros q Hq. apply Hs. set_solver +Hq.
Qed.

(** ** Going left and down *)

Lemma traverse_spec fuel s t p k :
  troot t = Some p → tri_at s (tparent k) t → length (tnodes t) <= fuel →
  ∃ k' q r, traverse fuel s p = Some q ∧ tplug k t = tplug (k' ++ k) (TT q TN TN r).
Proof.
  revert t p k. induction fuel as [|fuel IH]; intros [|p' l d r] p k Hp Ht Hf; try done; cbn in Hf; [lia|].
  injection Hp as ->. rewrite !length_app in Hf. destruct Ht as ((n & o & Hn & Ho & _ & Hl & Hd & _) & Al & Ad & _).
  cbn [traverse]. rewrite Hn. cbn [mbind option_bind]. rewrite Hl. destruct l as [|a l1 l2 l3].
  - rewrite Ho. cbn [mbind option_bind troot]. rewrite Hd. destruct d as [|a d1 d2 d3].
    + by exists [], p, r.
    + destruct (IH (TT a d1 d2 d3) a (FD p r :: k)) as (k' & q & r' & Hrun & E); [done|done|lia|].
      exists (k' ++ [FD p r]), q, r'. split; [done|]. rewrite <- app_assoc. exact E.
  - destruct (IH (TT a l1 l2 l3) a (FL p d r :: k)) as (k' & q & r' & Hrun & E); [done|done|lia|].
    exists (k' ++ [FL p d r]), q, r'. split; [done|]. rewrite <- app_assoc. exact E.
Qed.

(** ** Freeing one node *)

(** The right child goes up. *)
Lemma hang_right s q r par :
  tri_at s (Some q) r → NoDup (tnodes r) →
  ∃ m, (match troot r with Some x => put_parent (links s) x par | None => Some (links s) end) = Some m ∧
    tri_at (set_links s m) par r ∧ (∀ x, x ∉ tnodes r → m !! x = links s !! x) ∧
    (∀ x, is_Some (m !! x) ↔ is_Some (links s !! x)).
Proof.
  destruct r as [|x l d r]; intros Hr Hd; [by exists (links s)|]. cbn in Hr, Hd.
  destruct Hr as ((n & o & Hn & Ho & Hp & Hl & Hdn & Hr) & Al & Ad & Ar).
  apply NoDup_cons in Hd as [Hx _]. cbn [troot]. unfold put_parent. rewrite Hn. cbn [mbind option_bind].
  eexists. split; [done|]. split_and!.
  - cbn. split.
    + eexists _, o. cbn. rewrite lookup_insert_eq. by split_and!.
    + assert (∀ y t, (∀ z, z ∈ tnodes t → z ≠ x) → tri_at s (Some y) t → tri_at (set_links s (<[x := Node (left n) (right n) par (red n) (is_root n)]> (links s))) (Some y) t) as Hsame.
      { intros y t Ht. apply tri_at_same. intros z Hz%Ht. split; [|done]. cbn. by rewrite lookup_insert_ne. }
      split_and!; (apply Hsame; [|done]); intros z Hz ->; apply Hx; set_solver +Hz.
  - intros y Hy. rewrite lookup_insert_ne; [done|]. intros ->. apply Hy. cbn. apply elem_of_cons. by left.
  - intros y. rewrite lookup_insert. destruct (decide (x = y)) as [<-|]; [|done]. rewrite Hn. split; intros _; by eexists.
Qed.

(** What a step does to the rest of the memory. *)
Record changes (s s' : dns_rbt) : Prop := Changes {
  cg_links x : is_Some (links s' !! x) ↔ is_Some (links s !! x);
  cg_data x : data <$> outers s' !! x = data <$> outers s !! x;
  cg_count : nodecount s' = nodecount s;
  cg_root : rbt_root s' = rbt_root s }.

(** The parent gets the right child in the place of the node. *)
Lemma fill_hole s par q v f :
  frame_at s par (Some q) f → fptr f ≠ q → NoDup (fnodes f) →
  ∃ s', (qn ← links s !! fptr f;
      if bool_decide (left qn = Some q) then
        m ← put_child Lft (links s) (fptr f) v; Some (set_links s m, Some (fptr f))
      else
        qo ← outers s !! fptr f;
        if bool_decide (down qo = Some q) then
          s ← upd_outer s (fptr f) (λ o, with_down o v); Some (s, Some (fptr f))
        else Some (s, Some (fptr f))) = Some (s', Some (fptr f)) ∧
    frame_at s' par v f ∧ (∀ x, x ≠ fptr f → same_node s s' x) ∧ changes s s'.
Proof.
  destruct f as [p d r|p r]; cbn [fptr fnodes frame_at]; intros Hf Hq Hnd; apply NoDup_cons in Hnd as [Hp _].
  - destruct Hf as ((n & o & Hn & Ho & Hpar & Hl & Hd & Hr) & Ad & Ar). rewrite Hn. cbn [mbind option_bind].
    rewrite bool_decide_true by done. unfold put_child. rewrite Hn. cbn [mbind option_bind].
    eexists. split; [done|].
    assert (∀ x, x ≠ p → same_node s (set_links s (<[p := Node v (right n) (parent n) (red n) (is_root n)]> (links s))) x) as Hs.
    { intros x Hx. split; [|done]. cbn. by rewrite lookup_insert_ne. }
    split; [|split; [exact Hs|]].
    + split; [eexists _, o; cbn; rewrite lookup_insert_eq; by split_and!|].
      split; (eapply tri_at_same; [|done]); intros x Hx; apply Hs; intros ->; apply Hp; set_solver +Hx.
    + split; try done. intros x. cbn. rewrite lookup_insert. destruct (decide (p = x)) as [<-|]; [|done].
      rewrite Hn. split; intros _; by eexists.
  - destruct Hf as ((n & o & Hn & Ho & Hpar & Hl & Hd & Hr) & Ar). rewrite Hn. cbn [mbind option_bind].
    rewrite Hl, bool_decide_false by done. rewrite Ho. cbn [mbind option_bind]. rewrite Hd, bool_decide_true by done.
    unfold upd_outer. rewrite Ho. cbn [mbind option_bind]. eexists. split; [done|].
    assert (∀ x, x ≠ p → same_node s (set_outers s (<[p := with_down o v]> (outers s))) x) as Hs.
    { intros x Hx. split; [done|]. cbn. by rewrite lookup_insert_ne. }
    split; [|split; [exact Hs|]].
    + split; [exists n; eexists; cbn; rewrite lookup_insert_eq; by split_and!|].
      eapply tri_at_same; [|done]. intros x Hx. apply Hs. by intros ->.
    + split; try done. intros x. cbn. rewrite lookup_insert. destruct (decide (p = x)) as [<-|]; [|done].
      by rewrite Ho.
Qed.

Lemma same_node_free s q x : x ≠ q → same_node s (dec_nodecount (free_node s q)) x.
Proof. intros Hx. split; cbn; by rewrite lookup_delete_ne. Qed.

Definition next_node (k : list tframe) (r : tri) : option ptr :=
  match k with [] => troot r | f :: _ => Some (fptr f) end.

Lemma delete_leaf_spec b s K q r :
  tri_at s None (tplug K (TT q TN TN r)) → NoDup (tnodes (tplug K (TT q TN TN r))) →
  ∃ s1 o, outers s !! q = Some o ∧
    delete_leaf b s q = Some (dec_nodecount (free_node s1 q), next_node K r, delete_data b o) ∧
    tri_at (dec_nodecount (free_node s1 q)) None (tplug K r) ∧ changes s s1.
Proof.
  intros H Hnd. rewrite tnodes_plug in Hnd. cbn in Hnd.
  apply tri_at_plug in H as (HK & (n & o & Hn & Ho & Hpar & Hl & Hd & Hr) & _ & _ & Ar). cbn [troot] in HK.
  apply NoDup_app in Hnd as (HndK & Hdis & (Hqr & Hndr)%NoDup_cons).
  destruct (hang_right s q r (tparent K) Ar Hndr) as (m & Hm & Ar1 & Hm1 & Hm2).
  unfold delete_leaf. rewrite Hn. cbn [mbind option_bind]. rewrite Ho. cbn [mbind option_bind].
  rewrite Hr, Hpar, Hm. cbn [mbind option_bind].
  assert (changes s (set_links s m)) as Hc1 by by split.
  assert (∀ x, x ∉ tnodes r → same_node s (set_links s m) x) as Hs1 by (intros x Hx; split; [by apply Hm1|done]).
  destruct K as [|f K].
  - exists (set_links s m), o. split_and!; try done. cbn.
    eapply tri_at_same; [|exact Ar1]. intros x Hx. apply same_node_free. by intros ->.
  - cbn [tparent head fmap option_fmap option_map] in *.
    cbn [mbind list_bind] in HndK, Hdis. apply NoDup_app in HndK as (Hndf & Hdisf & HndK).
    assert (fptr f ∈ fnodes f) as Hff by (destruct f; apply elem_of_cons; by left).
    assert (∀ x, x ∈ fnodes f → x ∉ tnodes r ∧ x ≠ q) as Hfr.
    { intros x Hx. specialize (Hdis x ltac:(apply elem_of_app; by left)). set_solver +Hdis. }
    assert (∀ x, x ∈ K ≫= fnodes → x ∉ tnodes r ∧ x ≠ q ∧ x ≠ fptr f) as HKr.
    { intros x Hx. specialize (Hdis x ltac:(apply elem_of_app; by right)). split_and!; [set_solver +Hdis..|].
      intros ->. by apply (Hdisf _ Hff). }
    destruct HK as [Hf HK].
    destruct (fill_hole (set_links s m) (tparent K) q (troot r) f) as (s2 & Hrun & Hf2 & Hs2 & Hc2); [|by apply Hfr|done|].
    { eapply frame_at_same; [|exact Hf]. intros x Hx. by apply Hs1, Hfr. }
    cbn in Hrun |- *. rewrite Hrun. cbn [mbind option_bind].
    exists s2, o. split_and!; try done.
    + change (tri_at (dec_nodecount (free_node s2 q)) None (tplug (f :: K) r)). apply tri_at_plug. split; [split|].
      * eapply frame_at_same; [|exact Hf2]. intros x Hx. by apply same_node_free, Hfr.
      * eapply frames_at_same; [|exact HK]. intros x Hx. destruct (HKr x Hx) as (X1 & X2 & X3).
        destruct (Hs1 x X1) as [E1 E2], (Hs2 x X3) as [E3 E4], (same_node_free s2 q x X2) as [E5 E6]. split; congruence.
      * eapply tri_at_same; [|exact Ar1]. intros x Hx.
        assert (x ≠ q) as X2 by by intros ->. assert (x ≠ fptr f) as X3 by (intros ->; by destruct (Hfr _ Hff)).
        destruct (Hs2 x X3) as [E3 E4], (same_node_free s2 q x X2) as [E5 E6]. split; congruence.
    + destruct Hc1 as [L1 D1 C1 R1], Hc2 as [L2 D2 C2 R2]. split.
      * intros x. by rewrite L2.
      * intros x. by rewrite D2.
      * by rewrite C2.
      * by rewrite R2.
Qed.

(** ** Freeing all nodes *)

(** What is left of the tree, and where the walk is. *)
Record standing (s : dns_rbt) (K : list tframe) (t : tri) : Prop := Standing {
  sd_tree : tri_at s None (tplug K t);
  sd_nodup : NoDup (tnodes (tplug K t));
  sd_end : t = TN → K = [];
  sd_links x : is_Some (links s !! x) ↔ x ∈ tnodes (tplug K t);
  sd_outers x : is_Some (outers s !! x) ↔ x ∈ tnodes (tplug K t);
  sd_count : nodecount s = u32 (Z.of_nat (length (tnodes (tplug K t)))) }.

Lemma standing_size s K t : standing s K t → length (tnodes (tplug K t)) = size (links s).
Proof.
  intros H. rewrite <- (size_dom (links s)), <- (size_list_to_set (C := gset ptr) _ (sd_nodup _ _ _ H)).
  f_equal. apply set_eq. intros x. by rewrite elem_of_list_to_set, elem_of_dom, (sd_links _ _ _ H).
Qed.

Lemma freed_data_data b s s' l :
  (∀ x, x ∈ l → data <$> outers s' !! x = data <$> outers s !! x) → freed_data b s' l = freed_data b s l.
Proof.
  unfold freed_data. induction l as [|x l IH]; intros H; [done|]. cbn. f_equal.
  - specialize (H x ltac:(apply elem_of_cons; by left)).
    destruct (outers s' !! x), (outers s !! x); try done. apply (inj Some) in H. unfold delete_data. by rewrite H.
  - apply IH. intros y Hy. apply H, elem_of_cons. by right.
Qed.

Lemma destroy_round b s K t p :
  standing s K t → troot t = Some p →
  ∃ q s' o K' t', traverse (S (size (links s))) s p = Some q ∧
    delete_leaf b s q = Some (s', troot t', delete_data b o) ∧ outers s !! q = Some o ∧
    standing s' K' t' ∧ tnodes (tplug K t) ≡ₚ q :: tnodes (tplug K' t') ∧
    (∀ x, x ≠ q → data <$> outers s' !! x = data <$> outers s !! x) ∧ rbt_root s' = rbt_root s.
Proof.
  intros H Hp. pose proof (standing_size _ _ _ H) as Hsz. destruct H as [Ht Hd He Hl Ho Hc].
  pose proof (proj1 (tri_at_plug s K t) Ht) as [_ Ht'].
  destruct (traverse_spec (S (size (links s))) s t p K Hp Ht') as (k' & q & r & Hrun & E).
  { rewrite tnodes_plug, length_app in Hsz. lia. }
  rewrite E in Ht, Hd, Hl, Ho, Hc |- *.
  destruct (delete_leaf_spec b s (k' ++ K) q r Ht Hd) as (s1 & o & Hoq & Hdel & Ht1 & [CL CD CC CR]).
  assert (∃ K' t', tplug (k' ++ K) r = tplug K' t' ∧ troot t' = next_node (k' ++ K) r ∧ (t' = TN → K' = []))
    as (K' & t' & EK & Hnext & Hend).
  { destruct (k' ++ K) as [|f K0]; [by exists [], r|]. exists K0, (fill f r).
    split; [done|]. split; [by rewrite troot_fill|]. by destruct f. }
  assert (tnodes (tplug (k' ++ K) (TT q TN TN r)) ≡ₚ q :: tnodes (tplug K' t')) as Hperm.
  { rewrite <- EK, !tnodes_plug. cbn. solve_Permutation. }
  pose proof Hd as Hd'. rewrite Hperm in Hd'. apply NoDup_cons in Hd' as [Hq Hd'].
  eexists q, _, o, K', t'. split_and!; [done|by rewrite Hnext|done| |done| |done].
  - split; [by rewrite <- EK|done|done| | |].
    + intros x. cbn. rewrite lookup_delete_is_Some, CL, Hl, Hperm, elem_of_cons. split; [by intros [? [->|?]]|].
      intros Hx. split; [by intros <-|by right].
    + intros x. cbn. rewrite lookup_delete_is_Some.
      rewrite <- (fmap_is_Some data (outers s1 !! x)), CD, fmap_is_Some, Ho, Hperm, elem_of_cons.
      split; [by intros [? [->|?]]|]. intros Hx. split; [by intros <-|by right].
    + cbn. rewrite CC, Hc, Hperm. cbn [length]. unfold u32. rewrite Zminus_mod_idemp_l. f_equal. lia.
  - intros x Hx. cbn. rewrite lookup_delete_ne by done. apply CD.
Qed.

Lemma deletetreeflat_spec b fuel s quantum K t :
  standing s K t → length (tnodes (tplug K t)) <= fuel →
  ∃ s' K' t' l, dns_rbt_deletetreeflat b fuel s quantum (troot t) = Some (s', troot t', freed_data b s l) ∧
    standing s' K' t' ∧ tnodes (tplug K t) ≡ₚ l ++ tnodes (tplug K' t') ∧
    (∀ x, x ∉ l → data <$> outers s' !! x = data <$> outers s !! x) ∧
    (t' = TN ∨ (0 < quantum ∧ length l = quantum)).
Proof.
  revert s quantum K t. induction fuel as [|fuel IH]; intros s quantum K t H Hf.
  - destruct t as [|p l d r]; [by exists s, K, TN, []; split_and!; try done; left|].
    rewrite tnodes_plug, length_app in Hf. cbn in Hf. lia.
  - destruct t as [|p l d r]; [by exists s, K, TN, []; split_and!; try done; left|]. cbn [troot dns_rbt_deletetreeflat].
    destruct (destroy_round b s K _ p H eq_refl) as (q & s1 & o & K1 & t1 & Htr & Hdel & Ho & H1 & Hperm & Hdat & _).
    rewrite Htr. cbn [mbind option_bind]. rewrite Hdel. cbn [mbind option_bind].
    pose proof (Permutation_length Hperm) as Hlen. cbn in Hlen.
    case_bool_decide as Hq.
    + exists s1, K1, t1, [q]. split_and!; try done.
      * unfold freed_data. cbn. by rewrite Ho, app_nil_r.
      * intros x. rewrite list_elem_of_singleton. apply Hdat.
      * right. cbn. lia.
    + destruct (IH s1 (quantum - 1) K1 t1 H1 ltac:(lia)) as (s2 & K2 & t2 & l2 & Hrun & H2 & Hperm2 & Hdat2 & Hend).
      rewrite Hrun. cbn [mbind option_bind]. exists s2, K2, t2, (q :: l2).
      assert (∀ x, x ∈ l2 → x ≠ q) as Hl2.
      { intros x Hx ->. pose proof (sd_nodup _ _ _ H) as Hd. rewrite Hperm in Hd. apply NoDup_cons in Hd as [Hd _].
        apply Hd. rewrite Hperm2. apply elem_of_app. by left. }
      split_and!; try done.
      * do 2 f_equal. unfold freed_data at 2. cbn. rewrite Ho. f_equal. apply freed_data_data.
        intros x Hx%Hl2. by apply Hdat.
      * rewrite Hperm, Hperm2. done.
      * intros x [Hx Hx2]%not_elem_of_cons. rewrite Hdat2 by done. by apply Hdat.
      * destruct Hend as [?|[? ?]]; [by left|right]. cbn. lia.
Qed.

(** ** The calls of [dns_rbt_destroy2] *)

(** Calling it until it is done. *)
Fixpoint destroy_calls (b : bool) (calls : nat) (s : dns_rbt) (quantum : nat)
    : option (dns_rbt * isc_result * list nat) :=
  match calls with
  | O => None
  | S calls =>
      '(s, result, d) ← dns_rbt_destroy2 b s quantum;
      if bool_decide (result = ISC_R_QUOTA) then
        '(s, result, d') ← destroy_calls b calls s quantum; Some (s, result, d ++ d')
      else Some (s, result, d)
  end.

Lemma destroy2_spec b s quantum K t :
  standing s K t → rbt_root s = troot t →
  ∃ s' K' t' l, dns_rbt_destroy2 b s quantum =
      Some (s', if bool_decide (t' = TN) then ISC_R_SUCCESS else ISC_R_QUOTA, freed_data b s l) ∧
    standing s' K' t' ∧ rbt_root s' = troot t' ∧ tnodes (tplug K t) ≡ₚ l ++ tnodes (tplug K' t') ∧
    (∀ x, x ∉ l → data <$> outers s' !! x = data <$> outers s !! x) ∧
    (t' = TN ∨ (0 < quantum ∧ length l = quantum)).
Proof.
  intros H Hr. destruct (deletetreeflat_spec b (S (size (links s))) s quantum K t H)
    as (s' & K' & t' & l & Hrun & H' & Hperm & Hdat & Hend).
  { rewrite (standing_size _ _ _ H). lia. }
  exists (set_root s' (troot t')), K', t', l. split.
  - unfold dns_rbt_destroy2. rewrite Hr, Hrun. cbn [mbind option_bind]. destruct t' as [|p l' d r]; cbn; [|done].
    pose proof (sd_count _ _ _ H') as Hc. rewrite (sd_end _ _ _ H' eq_refl) in Hc. cbn in Hc. by rewrite Hc.
  - split_and!; try done. destruct H' as [Ht Hd He HL HO HC]. split; try done.
    eapply tri_at_same; [|exact Ht]. done.
Qed.

Lemma destroy_calls_spec b n s quantum K t :
  standing s K t → rbt_root s = troot t → length (tnodes (tplug K t)) <= n →
  ∃ s' l, destroy_calls b (S n) s quantum = Some (s', ISC_R_SUCCESS, freed_data b s l) ∧
    links s' = ∅ ∧ outers s' = ∅ ∧ l ≡ₚ tnodes (tplug K t).
Proof.
  revert s K t. induction n as [n IH] using lt_wf_ind. intros s K t H Hr Hn.
  destruct (destroy2_spec b s quantum K t H Hr) as (s1 & K1 & t1 & l1 & Hrun & H1 & Hr1 & Hperm & Hdat & Hend).
  cbn [destroy_calls]. rewrite Hrun. cbn [mbind option_bind]. destruct (decide (t1 = TN)) as [->|Ht1].
  - exists s1, l1. rewrite (bool_decide_true (TN = TN)) by done. split; [done|].
    pose proof (sd_end _ _ _ H1 eq_refl) as ->. cbn in Hperm. rewrite app_nil_r in Hperm.
    split_and!; [| |by symmetry].
    + apply map_empty. intros x. apply eq_None_not_Some. rewrite (sd_links _ _ _ H1). apply not_elem_of_nil.
    + apply map_empty. intros x. apply eq_None_not_Some. rewrite (sd_outers _ _ _ H1). apply not_elem_of_nil.
  - rewrite (bool_decide_false (t1 = TN)) by done. destruct Hend as [?|[Hq Hl]]; [done|]. rewrite bool_decide_true by done.
    pose proof (Permutation_length Hperm) as Hlen. rewrite length_app in Hlen.
    destruct n as [|n]; [lia|].
    destruct (IH n ltac:(lia) s1 K1 t1 H1 Hr1 ltac:(lia)) as (s2 & l2 & Hrun2 & HL & HO & Hl2).
    rewrite Hrun2. cbn [mbind option_bind]. exists s2, (l1 ++ l2). split_and!; try done.
    + do 2 f_equal. rewrite freed_data_app. f_equal. apply freed_data_data. intros x Hx. apply Hdat.
      intros Hx1. pose proof (sd_nodup _ _ _ H) as Hd. rewrite Hperm in Hd. apply NoDup_app in Hd as (_ & Hdis & _).
      apply (Hdis x Hx1). by rewrite <- Hl2.
    + by rewrite Hl2, Hperm.
Qed.

(** ** A tree that stands *)

Lemma tree_at_parent m t par isr p n d c nc :
  tree_at m t par isr → p ∈ nodes t → m !! p = Some n → child d n = Some c → m !! c = Some nc → parent nc = Some p.
Proof.
  revert par isr. induction t as [|col l IHl x r IHr]; intros par isr Hat Hp Hn Hc Hnc; [by apply elem_of_nil in Hp|].
  cbn in Hat, Hp. destruct Hat as (Mx & Hl & Hr).
  apply elem_of_app in Hp as [Hp|[->|Hp]%elem_of_cons]; [by eapply IHl| |by eapply IHr].
  rewrite Mx in Hn. apply (inj Some) in Hn as <-.
  assert (∀ t', top t' = Some c → tree_at m t' (Some x) false → parent nc = Some x) as Htop.
  { intros [|col' l' y r'] Ht Hat; [done|]. cbn in Ht. injection Ht as ->. destruct Hat as [My _].
    rewrite My in Hnc. by apply (inj Some) in Hnc as <-. }
  destruct d; cbn in Hc; by eapply Htop.
Qed.

Lemma forest_parent lv own s p n o c nc :
  forest lv own s → live lv p → links s !! p = Some n → outers s !! p = Some o →
  left n = Some c ∨ right n = Some c ∨ down o = Some c → links s !! c = Some nc → parent nc = Some p.
Proof.
  intros F Hp Hn Ho Hc Hnc. assert (∀ d, child d n = Some c → parent nc = Some p) as Hside.
  { intros d Hd. destruct (fo_named _ _ _ F p Hp) as (P & HP & _). inversion HP as [? Hpu|? a A Hpu Ha]; subst.
    - destruct (fo_level _ _ _ F None) as [Hlev _]; [done|]. eapply tree_at_parent; [by eapply level_at|done..].
    - destruct (fo_level _ _ _ F (Some a)) as [Hlev _]; [intros ? [= <-]; by eapply named_live|].
      eapply tree_at_parent; [by eapply level_at|done..]. }
  destruct Hc as [Hc|[Hc|Hc]]; [by apply (Hside Lft)|by apply (Hside Rgt)|].
  destruct (fo_level _ _ _ F (Some p)) as [[Hroot Hat _ _] _]; [by intros ? [= <-]|].
  cbn in Hroot. rewrite Ho in Hroot. cbn in Hroot. rewrite Hc in Hroot.
  destruct (lv (Some p)) as [|col l x r]; [done|]. cbn in Hroot. injection Hroot as <-. destruct Hat as [Mx _].
  rewrite Mx in Hnc. by apply (inj Some) in Hnc as <-.
Qed.

Lemma tri_of_subtree s r l par :
  subtree s r l → (∀ c nc, r = Some c → links s !! c = Some nc → parent nc = par) →
  (∀ p n o c nc, p ∈ l → links s !! p = Some n → outers s !! p = Some o →
    left n = Some c ∨ right n = Some c ∨ down o = Some c → links s !! c = Some nc → parent nc = Some p) →
  ∃ W, tri_at s par W ∧ troot W = r ∧ tnodes W ≡ₚ l.
Proof.
  intros H. revert par. induction H as [|p n o l1 l2 l3 Hn Ho _ IH1 _ IH2 _ IH3]; intros par Hpar Hwp; [by exists TN|].
  assert (p ∈ l1 ++ l2 ++ l3 ++ [p]) as Hp by set_solver +.
  destruct (IH1 (Some p)) as (W1 & A1 & R1 & P1).
  { intros c nc Hc. eapply (Hwp p n o c nc); auto. }
  { intros q nq oq c nc Hq. apply (Hwp q). set_solver +Hq. }
  destruct (IH2 (Some p)) as (W2 & A2 & R2 & P2).
  { intros c nc Hc. eapply (Hwp p n o c nc); auto. }
  { intros q nq oq c nc Hq. apply (Hwp q). set_solver +Hq. }
  destruct (IH3 (Some p)) as (W3 & A3 & R3 & P3).
  { intros c nc Hc. eapply (Hwp p n o c nc); auto. }
  { intros q nq oq c nc Hq. apply (Hwp q). set_solver +Hq. }
  exists (TT p W1 W3 W2). split_and!; [|done|].
  - cbn. rewrite R1, R2, R3. split_and!; try done. exists n, o. split_and!; try done. by apply (Hpar p).
  - cbn. rewrite P1, P2, P3. solve_Permutation.
Qed.

Section Destroy.
Context (rnd : list Z).

Lemma tree_stands s lv own :
  name_tree rnd s lv own → ∃ W, standing s [] W ∧ rbt_root s = troot W ∧ ∀ x, x ∈ tnodes W ↔ live lv x.
Proof.
  intros HT. pose proof (nt_forest _ _ _ _ HT) as F.
  destruct (subtree_place lv own s F 129 None [] eq_refl) as (l & Hl & Hd & El); [cbn; lia|].
  assert (∀ x, x ∈ l ↔ live lv x) as Hlive.
  { intros x. rewrite El. split.
    - intros [X HX]. eapply named_live. by eapply (under_named lv own None [] X x HX).
    - intros (N & HN & _)%(fo_named _ _ _ F). exists N. by apply named_under. }
  destruct (tri_of_subtree s _ _ None Hl) as (W & HW & HR & HP).
  { destruct (fo_level _ _ _ F None) as [[Hroot Hat _ _] _]; [done|]. intros c nc Hc Hnc.
    rewrite Hc in Hroot. destruct (lv None) as [|col a x r]; [done|]. cbn in Hroot. injection Hroot as ->.
    destruct Hat as [Mx _]. rewrite Mx in Hnc. by apply (inj Some) in Hnc as <-. }
  { intros p n o c nc Hp%Hlive. by eapply forest_parent. }
  assert (∀ x, x ∈ tnodes W ↔ live lv x) as HWl by (intros x; by rewrite HP).
  exists W. split_and!; try done. split; cbn; try done.
  - by rewrite HP.
  - intros x. by rewrite HWl, (fo_links _ _ _ F), (fo_dom _ _ _ F).
  - intros x. by rewrite HWl, (fo_dom _ _ _ F).
  - rewrite (nt_count _ _ _ _ HT). do 2 f_equal. rewrite HP.
    rewrite <- (size_dom (outers s)), <- (size_list_to_set (C := gset ptr) _ Hd). f_equal. apply set_eq.
    intros x. by rewrite elem_of_list_to_set, elem_of_dom, Hlive, (fo_dom _ _ _ F).
Qed.


End Destroy.
