(* ===== verification/Heap.v ===== *)
(** * Priority queues and the databases' heaps

    [lib/isc/heap.c], a binary heap in an array whose first slot is unused,
    and its clients in [lib/dns/rbtdb.c]: a cache keeps its rdatasets ordered
    by expiry ([set_ttl]), a signed zone by the time their signatures are to
    be renewed ([setsigningtime], [resign_insert], [getsigningtime]).

    An element is the address of a header, a number here; its index in the
    heap is written back into it through the callback [index], so the
    [heap_index] fields of all headers, [indices], are part of the state.
    [None] is a failed assertion, a [NULL] element that is compared, or an
    access out of the array. Slots without an element hold [None]. *)

From stdpp Require Import gmap.
From Stdlib Require Import ZifyNat.
From S2P Require Import Prelude.

#[local] Open Scope nat_scope.

Abbreviation elt := nat.
Abbreviation indices := (gmap elt nat).

(** Arithmetic with halves. *)
Ltac hlia := zify; Z.to_euclidean_division_equations; lia.

(** [struct isc_heap]; [index] says whether the callback is set. *)
Record heap := Heap {
  h_size : nat; size_increment : nat; last : nat;
  array : list (option elt); index : bool }.

Definition heap_parent (i : nat) : nat := i / 2.
Definition heap_left (i : nat) : nat := i * 2.
Definition SIZE_INCREMENT : nat := 1024.

(** The element in a slot. *)
Definition slot (a : list (option elt)) (i : nat) : option elt := mjoin (a !! i).

(** [array[i] = elt] and the callback. *)
Definition store (h : bool) (a : list (option elt)) (ix : indices) (i : nat) (e : elt)
    : option (list (option elt) * indices) :=
  if bool_decide (i < length a)
  then Some (<[i := Some e]> a, if h then <[e := i]> ix else ix) else None.

(** ** Operations *)

Definition isc_heap_create (mem_ok : bool) (index : bool) (size_increment : nat) : option heap :=
  if mem_ok
  then Some (Heap 0 (if bool_decide (size_increment = 0) then SIZE_INCREMENT
                     else size_increment) 0 [] index)
  else None.

Section operations.
Context (compare : elt → elt → bool).

(** [HEAPCONDITION(i)] *)
Definition heapcondition (a : list (option elt)) (i : nat) : option bool :=
  if bool_decide (i = 1) then Some true
  else x ← slot a i; p ← slot a (heap_parent i); Some (negb (compare x p)).

Definition insist_heapcondition (r : list (option elt) * indices) (i : nat)
    : option (list (option elt) * indices) :=
  ok ← heapcondition r.1 i; if ok : bool then Some r else None.

(** Each round halves [i]; [fuel] is more than enough at [S i]. *)
Fixpoint float_up (fuel : nat) (hx : bool) (a : list (option elt)) (ix : indices)
    (i : nat) (e : elt) : option (list (option elt) * indices) :=
  match fuel with
  | O => None
  | S fuel =>
      let p := heap_parent i in
      up ← (if bool_decide (1 < i) then x ← slot a p; Some (compare e x) else Some false);
      if up : bool then
        x ← slot a p;
        '(a, ix) ← store hx a ix i x;
        float_up fuel hx a ix p e
      else
        r ← store hx a ix i e;
        insist_heapcondition r i
  end.

(** Each round doubles [i]. *)
Fixpoint sink_down (fuel : nat) (hx : bool) (size : nat) (a : list (option elt)) (ix : indices)
    (i : nat) (e : elt) : option (list (option elt) * indices) :=
  match fuel with
  | O => None
  | S fuel =>
      let half_size := size / 2 in
      let finish :=
        r ← store hx a ix i e;
        insist_heapcondition r i in
      if bool_decide (i <= half_size) then
        let j := heap_left i in
        other ← (if bool_decide (j < size)
                 then x ← slot a (j + 1); y ← slot a j; Some (compare x y)
                 else Some false);
        let j := if other : bool then j + 1 else j in
        x ← slot a j;
        if compare e x then finish
        else
          '(a, ix) ← store hx a ix i x;
          sink_down fuel hx size a ix j e
      else finish
  end.

Definition with_array (h : heap) (r : list (option elt) * indices) : heap * indices :=
  (Heap (h_size h) (size_increment h) (last h) r.1 (index h), r.2).

Definition do_float_up (h : heap) (ix : indices) (i : nat) (e : elt) : option (heap * indices) :=
  r ← float_up (S i) (index h) (array h) ix i e; Some (with_array h r).

Definition do_sink_down (h : heap) (ix : indices) (i : nat) (e : elt) : option (heap * indices) :=
  r ← sink_down (S (last h)) (index h) (last h) (array h) ix i e; Some (with_array h r).

(** [heap->size + heap->size_increment] is a sum of [unsigned int]s; if it
    wraps, the [memcpy] overruns the new array. *)
Definition resize (mem_ok : nat → bool) (h : heap) : option (option heap) :=
  let new_size := Z.to_nat (u32 (Z.of_nat (h_size h) + Z.of_nat (size_increment h))) in
  if mem_ok new_size then
    if bool_decide (h_size h <= new_size)
    then Some (Some (Heap new_size (size_increment h) (last h)
                          (array h ++ replicate (new_size - h_size h) None) (index h)))
    else None
  else Some None.

Definition isc_heap_insert (mem_ok : nat → bool) (h : heap) (ix : indices) (e : elt)
    : option (isc_result * heap * indices) :=
  let new_last := Z.to_nat (u32 (Z.of_nat (last h) + 1)) in
  if bool_decide (0 < new_last) then
    h' ← (if bool_decide (h_size h <= new_last) then resize mem_ok h else Some (Some h));
    match h' with
    | None => Some (ISC_R_NOMEMORY, h, ix)
    | Some h =>
        let h := Heap (h_size h) (size_increment h) new_last (array h) (index h) in
        '(h, ix) ← do_float_up h ix new_last e;
        Some (ISC_R_SUCCESS, h, ix)
    end
  else None.

Definition isc_heap_delete (h : heap) (ix : indices) (i : nat) : option (heap * indices) :=
  if bool_decide (1 <= i <= last h) then
    e ← array h !! last h;
    let h' := Heap (h_size h) (size_increment h) (last h - 1)
                   (<[last h := None]> (array h)) (index h) in
    if bool_decide (i = last h) then Some (h', ix)
    else
      e ← e;
      x ← slot (array h') i;
      let less := compare e x in
      let h' := Heap (h_size h') (size_increment h') (last h')
                     (<[i := Some e]> (array h')) (index h') in
      if less then do_float_up h' ix i e else do_sink_down h' ix i e
  else None.

Definition isc_heap_increased (h : heap) (ix : indices) (i : nat) : option (heap * indices) :=
  if bool_decide (1 <= i <= last h) then e ← slot (array h) i; do_float_up h ix i e else None.

Definition isc_heap_decreased (h : heap) (ix : indices) (i : nat) : option (heap * indices) :=
  if bool_decide (1 <= i <= last h) then e ← slot (array h) i; do_sink_down h ix i e else None.

End operations.

(** [None] when the array is accessed out of bounds; [Some None] is [NULL]. *)
Definition isc_heap_element (h : heap) (i : nat) : option (option elt) :=
  if bool_decide (1 <= i) then
    if bool_decide (i <= last h) then array h !! i else Some None
  else None.

Fixpoint foreach_loop {S} (action : elt → S → S) (a : list (option elt)) (i n : nat) (s : S)
    : option S :=
  match n with
  | O => Some s
  | Datatypes.S n => e ← slot a i; foreach_loop action a (i + 1) n (action e s)
  end.

Definition isc_heap_foreach {S} (h : heap) (action : elt → S → S) (s : S) : option S :=
  foreach_loop action (array h) 1 (last h) s.

(** ** The clients *)

(** The fields of the headers: [rdh_ttl], [resign]. *)
Abbreviation field := (elt → Z).

Definition ttl_sooner (rdh_ttl : field) (v1 v2 : elt) : bool :=
  bool_decide (rdh_ttl v1 < rdh_ttl v2)%Z.
Definition resign_sooner (resign : field) (v1 v2 : elt) : bool :=
  bool_decide (resign v1 < resign v2)%Z.

Definition set_field (f : field) (e : elt) (v : Z) : field :=
  λ x, if bool_decide (x = e) then v else f x.

Definition heap_index (ix : indices) (e : elt) : nat := default 0 (ix !! e).

Definition set_ttl (is_cache : bool) (h : heap) (ix : indices) (rdh_ttl : field)
    (header : elt) (newttl : Z) : option (heap * indices * field) :=
  let oldttl := rdh_ttl header in
  let rdh_ttl := set_field rdh_ttl header newttl in
  if negb is_cache then Some (h, ix, rdh_ttl)
  else if bool_decide (heap_index ix header = 0 ∨ newttl = oldttl) then Some (h, ix, rdh_ttl)
  else
    '(h, ix) ← (if bool_decide (newttl < oldttl)%Z
                then isc_heap_increased (ttl_sooner rdh_ttl) h ix (heap_index ix header)
                else isc_heap_decreased (ttl_sooner rdh_ttl) h ix (heap_index ix header));
    Some (h, ix, rdh_ttl).

Definition resign_insert (mem_ok : nat → bool) (h : heap) (ix : indices) (resign : field)
    (newheader : elt) : option (isc_result * heap * indices) :=
  if bool_decide (heap_index ix newheader = 0)
  then isc_heap_insert (resign_sooner resign) mem_ok h ix newheader else None.

(** Headers in a heap have [RDATASET_ATTR_RESIGN] set. *)
Definition setsigningtime (mem_ok : nat → bool) (h : heap) (ix : indices) (resign : field)
    (header : elt) (newresign : Z) : option (isc_result * heap * indices * field) :=
  let oldresign := resign header in
  let resign := set_field resign header newresign in
  if bool_decide (heap_index ix header ≠ 0) then
    '(h, ix) ←
      (if bool_decide (newresign = 0%Z) then
         '(h, ix) ← isc_heap_delete (resign_sooner resign) h ix (heap_index ix header);
         Some (h, <[header := 0]> ix)
       else if bool_decide (newresign < oldresign)%Z
       then isc_heap_increased (resign_sooner resign) h ix (heap_index ix header)
       else if bool_decide (newresign > oldresign)%Z
       then isc_heap_decreased (resign_sooner resign) h ix (heap_index ix header)
       else Some (h, ix));
    Some (ISC_R_SUCCESS, h, ix, resign)
  else if bool_decide (newresign ≠ 0%Z) then
    '(result, h, ix) ← resign_insert mem_ok h ix resign header;
    Some (result, h, ix, resign)
  else Some (ISC_R_SUCCESS, h, ix, resign).

(** [resigned]: the zone's rdataset leaves the heap. *)
Definition resigned (h : heap) (ix : indices) (resign : field) (header : elt)
    : option (heap * indices) :=
  '(h, ix) ← isc_heap_delete (resign_sooner resign) h ix (heap_index ix header);
  Some (h, <[header := 0]> ix).

(** [isc_serial_lt] of [lib/isc/serial.c] (RFC 1982). *)
Definition isc_serial_lt (a b : Z) : bool :=
  if bool_decide (a = Z.lxor b 0x80000000) then false
  else bool_decide (s32 (u32 (a - b)) < 0)%Z.

(** The header that [getsigningtime] finds: of the first elements of all
    heaps, the earliest in serial arithmetic. *)
Fixpoint getsigningtime_loop (resign : field) (heaps : list heap) (header : option elt)
    : option (option elt) :=
  match heaps with
  | [] => Some header
  | hp :: heaps =>
      this ← isc_heap_element hp 1;
      getsigningtime_loop resign heaps
        (match this, header with
         | None, _ => header
         | Some this, None => Some this
         | Some this, Some hd =>
             if isc_serial_lt (resign this) (resign hd) then Some this else Some hd
         end)
  end.

Definition getsigningtime (resign : field) (heaps : list heap)
    : option (isc_result * option elt) :=
  header ← getsigningtime_loop resign heaps None;
  match header with
  | None => Some (ISC_R_NOTFOUND, None)
  | Some _ => Some (ISC_R_SUCCESS, header)
  end.

(** ** What a heap is

    Elements are numbered from 1 as in the code. *)
Definition at1 (xs : list elt) (i : nat) : option elt :=
  match i with O => None | S k => xs !! k end.

Definition put (xs : list elt) (i : nat) (e : elt) : list elt := <[pred i := e]> xs.

(** The array holds exactly [xs]. *)
Definition rep (a : list (option elt)) (xs : list elt) : Prop := ∀ i, slot a i = at1 xs i.

(** Except that slot [i] is a hole. *)
Definition rep_but (i : nat) (a : list (option elt)) (xs : list elt) : Prop :=
  ∀ k, k ≠ i → slot a k = at1 xs k.

Definition indexed_but (i : nat) (xs : list elt) (ix : indices) : Prop :=
  ∀ k x, k ≠ i → at1 xs k = Some x → ix !! x = Some k.
Definition indexed (xs : list elt) (ix : indices) : Prop :=
  ∀ k x, at1 xs k = Some x → ix !! x = Some k.

(** What the comparison functions must be. *)
Class HeapOrder (compare : elt → elt → bool) : Prop := {
  heap_asym a b : compare a b = true → compare b a = false;
  heap_negtrans a b c : compare a b = false → compare b c = false → compare a c = false }.

#[export] Instance ttl_sooner_order f : HeapOrder (ttl_sooner f).
Proof. split; unfold ttl_sooner; intros; repeat case_bool_decide; lia. Qed.
#[export] Instance resign_sooner_order f : HeapOrder (resign_sooner f).
Proof. split; unfold resign_sooner; intros; repeat case_bool_decide; lia. Qed.

Definition ordered (compare : elt → elt → bool) (xs : list elt) : Prop :=
  ∀ i x p, at1 xs i = Some x → at1 xs (i / 2) = Some p → compare x p = false.

(** Ordered, except that the element at [i] may come before its parent
    ([ordered_up]) or after its children ([ordered_down]). *)
Definition ordered_up compare (xs : list elt) (i : nat) : Prop :=
  (∀ k x p, k ≠ i → at1 xs k = Some x → at1 xs (k / 2) = Some p → compare x p = false) ∧
  (∀ k x p, k / 2 = i → at1 xs k = Some x → at1 xs (i / 2) = Some p → compare x p = false).
Definition ordered_down compare (xs : list elt) (i : nat) : Prop :=
  (∀ k x p, k / 2 ≠ i → at1 xs k = Some x → at1 xs (k / 2) = Some p → compare x p = false) ∧
  (∀ k x p, k / 2 = i → at1 xs k = Some x → at1 xs (i / 2) = Some p → compare x p = false).

(** What the fields of a heap with a callback are when it holds [n] elements. *)
Definition heap_fields (h : heap) (n : nat) : Prop :=
  last h = n ∧ h_size h = length (array h) ∧ (n < h_size h ∨ n = 0 ∧ h_size h = 0) ∧
  2 <= size_increment h ∧ index h = true.

(** The heap [h] holds the elements [xs], in this order in its array. *)
Definition heap_at compare (h : heap) (ix : indices) (xs : list elt) : Prop :=
  heap_fields h (length xs) ∧ rep (array h) xs ∧ NoDup xs ∧ ordered compare xs ∧ indexed xs ix.

Lemma at1_put_eq xs i e : 1 <= i <= length xs → at1 (put xs i e) i = Some e.
Proof. destruct i; [lia|]. intros. apply list_lookup_insert_eq. cbn. lia. Qed.

Lemma at1_put_ne xs i j e : 1 <= i → i ≠ j → at1 (put xs i e) j = at1 xs j.
Proof. destruct i, j; try lia; [done|]. intros. apply list_lookup_insert_ne. cbn. lia. Qed.

Lemma at1_lt xs i x : at1 xs i = Some x → 1 <= i <= length xs.
Proof. destruct i; [done|]. intros H%lookup_lt_Some. lia. Qed.

Lemma at1_is_Some xs i : 1 <= i <= length xs → ∃ x, at1 xs i = Some x.
Proof. destruct i; [lia|]. intros. apply lookup_lt_is_Some. lia. Qed.

Lemma at1_elem xs i x : at1 xs i = Some x → x ∈ xs.
Proof. destruct i; [done|]. apply list_elem_of_lookup_2. Qed.

Lemma at1_inj xs i j x : NoDup xs → at1 xs i = Some x → at1 xs j = Some x → i = j.
Proof.
  destruct i, j; try done. cbn. intros Hd Hi Hj. f_equal. exact (NoDup_lookup _ _ _ _ Hd Hi Hj).
Qed.

Lemma length_put xs i e : length (put xs i e) = length xs.
Proof. apply length_insert. Qed.

Lemma put_put xs i e e' : put (put xs i e) i e' = put xs i e'.
Proof. apply list_insert_insert_eq. Qed.

Lemma put_id xs i e : at1 xs i = Some e → put xs i e = xs.
Proof. destruct i; [done|]. apply list_insert_id. Qed.

(** Moving the element of slot [p] to [i] is a swap with the element in
    hand. *)
Lemma put_swap xs i p x e :
  1 <= i <= length xs → i ≠ p → at1 xs p = Some x →
  put (put xs i x) p e ≡ₚ put xs i e.
Proof.
  intros Hi Hip Hp. apply at1_lt in Hp as Lp.
  rewrite <- (put_put xs i e x). apply Permutation_insert_swap.
  - destruct i; [lia|]. by apply (at1_put_eq xs (S i)).
  - rewrite <- Hp. destruct p; [lia|]. by apply (at1_put_ne xs i (S p)); [lia|].
Qed.

Lemma rep_slot a xs i x : rep a xs → at1 xs i = Some x → slot a i = Some x.
Proof. by intros ->. Qed.

Lemma rep_but_slot i a xs k x : rep_but i a xs → k ≠ i → at1 xs k = Some x → slot a k = Some x.
Proof. intros Hr Hk <-. by apply Hr. Qed.

Lemma rep_store a xs i e : rep_but i a xs → 1 <= i <= length xs → length xs < length a →
  rep (<[i := Some e]> a) (put xs i e).
Proof.
  intros Hr Hi Hl j. unfold slot. destruct (decide (i = j)) as [<-|Hij].
  - rewrite list_lookup_insert_eq by lia. by rewrite at1_put_eq.
  - rewrite list_lookup_insert_ne by done. rewrite at1_put_ne by lia. by apply Hr.
Qed.

Lemma store_ok hx a ix (xs : list elt) i e : 1 <= i <= length xs → length xs < length a →
  store hx a ix i e = Some (<[i := Some e]> a, if hx then <[e := i]> ix else ix).
Proof. intros. unfold store. by rewrite bool_decide_true by lia. Qed.

(** The element in hand is written last. *)
Lemma indexed_store xs ix i e :
  1 <= i <= length xs → NoDup (put xs i e) → indexed_but i (put xs i e) ix →
  indexed (put xs i e) (<[e := i]> ix).
Proof.
  intros Hi Hd Hx k x Hk. destruct (decide (k = i)) as [->|Hki].
  - rewrite at1_put_eq in Hk by done. injection Hk as <-. by simplify_map_eq.
  - rewrite lookup_insert_ne; [by apply Hx|]. intros ->. apply Hki.
    eapply at1_inj; [done..|]. by apply at1_put_eq.
Qed.

Lemma indexed_move xs ix i p x e :
  1 <= i <= length xs → i ≠ p → at1 xs p = Some x → NoDup (put xs i e) →
  indexed_but i (put xs i e) ix → indexed_but p (put (put xs i x) p e) (<[x := i]> ix).
Proof.
  intros Hi Hip Hp Hd Hx k y Hkp Hk. apply at1_lt in Hp as Lp.
  rewrite at1_put_ne in Hk by lia. destruct (decide (k = i)) as [->|Hki].
  - rewrite at1_put_eq in Hk by done. injection Hk as <-. by simplify_map_eq.
  - rewrite at1_put_ne in Hk by lia.
    assert (at1 (put xs i e) k = Some y) as Hk' by (by rewrite at1_put_ne by lia).
    rewrite lookup_insert_ne; [by apply Hx|]. intros ->. apply Hkp.
    eapply at1_inj; [exact Hd|done|]. by rewrite at1_put_ne by lia.
Qed.

Section loops.
Context (compare : elt → elt → bool) `{!HeapOrder compare}.

(** What a loop that started with [B], its hole at [i], leaves behind. *)
Definition settles (hx : bool) (a : list (option elt)) (ix : indices) (B : list elt)
    (r : option (list (option elt) * indices)) : Prop :=
  ∃ a' ix' xs', r = Some (a', ix') ∧ rep a' xs' ∧ length a' = length a ∧ xs' ≡ₚ B ∧
    ordered compare xs' ∧ (hx = true → indexed xs' ix') ∧
    (∀ x, x ∉ B → ix' !! x = ix !! x).

Lemma insist_ok a ix xs i : rep a xs → 1 <= i <= length xs → ordered compare xs →
  insist_heapcondition compare (a, ix) i = Some (a, ix).
Proof.
  intros Hr Hi Ho. unfold insist_heapcondition, heapcondition. cbn [fst].
  case_bool_decide; [done|]. destruct (at1_is_Some xs i) as [x Hx]; [lia|].
  destruct (at1_is_Some xs (i / 2)) as [p Hp].
  { hlia. }
  unfold heap_parent. rewrite (rep_slot _ _ _ _ Hr Hx), (rep_slot _ _ _ _ Hr Hp). cbn.
  by rewrite (Ho _ _ _ Hx Hp).
Qed.

(** Writing the element in hand ends a loop. *)
Lemma settle_here hx a ix xs i e :
  rep_but i a xs → 1 <= i <= length xs → length xs < length a → NoDup (put xs i e) →
  ordered compare (put xs i e) → (hx = true → indexed_but i (put xs i e) ix) →
  settles hx a ix (put xs i e)
    (r ← store hx a ix i e; insist_heapcondition compare r i).
Proof.
  intros Hr Hi Hl Hd Ho Hx. rewrite (store_ok _ _ _ xs) by done. cbn [mbind option_bind].
  rewrite (insist_ok _ _ (put xs i e)); [|by apply rep_store|by rewrite length_put|done].
  eexists _, _, _. split; [done|]. split; [by apply rep_store|].
  split; [by rewrite length_insert|]. split; [done|]. split; [done|]. split.
  - intros ->. by apply indexed_store; [..|apply Hx].
  - intros x Hn. destruct hx; [|done]. rewrite lookup_insert_ne; [done|]. intros ->.
    apply Hn, (at1_elem _ i). by apply at1_put_eq.
Qed.

(** One round moves the element of [p] to [i]. *)
Lemma settles_step hx a ix xs i p x e r :
  1 <= i <= length xs → i ≠ p → at1 xs p = Some x →
  settles hx (<[i := Some x]> a) (if hx then <[x := i]> ix else ix)
    (put (put xs i x) p e) r →
  settles hx a ix (put xs i e) r.
Proof.
  intros Hi Hip Hp (a' & ix' & xs' & -> & Hr' & Hl' & Hp' & Ho' & Hx' & Hf').
  pose proof (put_swap xs i p x e Hi Hip Hp) as Hs.
  eexists _, _, _. split; [done|]. split; [done|]. split; [by rewrite Hl', length_insert|].
  split; [by rewrite Hp'|]. split; [done|]. split; [done|].
  intros y Hy. rewrite Hf' by by rewrite Hs. destruct hx; [|done].
  rewrite lookup_insert_ne; [done|]. intros ->. apply Hy, (at1_elem _ p).
  by rewrite at1_put_ne by lia.
Qed.

Lemma ordered_up_step xs i x e :
  1 < i <= length xs → at1 xs (i / 2) = Some x → compare e x = true →
  ordered_up compare (put xs i e) i → ordered_up compare (put (put xs i x) (i / 2) e) (i / 2).
Proof.
  intros Hi Hx He [H1 H2]. pose proof (at1_lt _ _ _ Hx) as Lp.
  assert (i / 2 < i) as Hlt by hlia.
  assert (∀ k, k ≠ i → at1 (put xs i e) k = at1 xs k) as Hb by (intros; apply at1_put_ne; lia).
  assert (at1 (put (put xs i x) (i / 2) e) (i / 2) = Some e) as Gp
    by (apply at1_put_eq; rewrite length_put; lia).
  assert (at1 (put (put xs i x) (i / 2) e) i = Some x) as Gi
    by (rewrite at1_put_ne by lia; apply at1_put_eq; lia).
  assert (∀ k, k ≠ i → k ≠ i / 2 → at1 (put (put xs i x) (i / 2) e) k = at1 xs k) as Gk
    by (intros; rewrite at1_put_ne by lia; apply at1_put_ne; lia).
  assert (∀ s y, s ≠ i → s / 2 = i / 2 → at1 xs s = Some y → compare y x = false) as Hsib.
  { intros s y Hs1 Hs2 Hs3. apply (H1 s); [done|by rewrite Hb|]. by rewrite Hs2, Hb by lia. }
  split.
  - intros k y p Hk Hy Hpp. destruct (decide (k = i)) as [->|Hki].
    + rewrite Gi in Hy. injection Hy as <-. rewrite Gp in Hpp. injection Hpp as <-.
      by apply heap_asym.
    + rewrite Gk in Hy by done. destruct (decide (k / 2 = i)) as [Hc|Hc].
      * rewrite Hc, Gi in Hpp. injection Hpp as <-.
        apply (H2 k); [done|by rewrite Hb|]. by rewrite Hb by lia.
      * destruct (decide (k / 2 = i / 2)) as [Hc'|Hc'].
        -- rewrite Hc', Gp in Hpp. injection Hpp as <-.
           apply (heap_negtrans y x e); [by apply (Hsib k)|by apply heap_asym].
        -- rewrite Gk in Hpp by done. apply (H1 k); [done|by rewrite Hb..].
  - intros k y p Hk Hy Hpp.
    assert (i / 2 / 2 < i / 2) by hlia.
    rewrite Gk in Hpp by hlia.
    assert (compare x p = false) as Hxp.
    { apply (H1 (i / 2)); [lia|by rewrite Hb by lia|by rewrite Hb by lia]. }
    destruct (decide (k = i)) as [->|Hki]; [by rewrite Gi in Hy; injection Hy as <-|].
    destruct (decide (k = i / 2)) as [Hkp|Hkp]; [lia|].
    rewrite Gk in Hy by done. apply (heap_negtrans y x p); [by apply (Hsib k)|done].
Qed.

Lemma float_up_settles fuel hx a ix xs i e :
  rep_but i a xs → 1 <= i <= length xs → length xs < length a → i < fuel → NoDup (put xs i e) →
  ordered_up compare (put xs i e) i → (hx = true → indexed_but i (put xs i e) ix) →
  settles hx a ix (put xs i e) (float_up compare fuel hx a ix i e).
Proof.
  revert a ix xs i. induction fuel as [|fuel IH]; intros a ix xs i Hr Hi Hl Hf Hd Ho Hx; [lia|].
  cbn [float_up]. unfold heap_parent.
  assert (i ≠ 1 → ∃ x, at1 xs (i / 2) = Some x) as Hpar.
  { intros. apply at1_is_Some. hlia. }
  assert (at1 (put xs i e) i = Some e) as Ge by by apply at1_put_eq.
  assert (∀ up, (i = 1 ∧ up = false ∨ ∃ x, at1 xs (i / 2) = Some x ∧ 1 < i ∧ compare e x = up) →
    settles hx a ix (put xs i e)
      (if up then x ← slot a (i / 2); '(a, ix) ← store hx a ix i x;
                  float_up compare fuel hx a ix (i / 2) e
       else r ← store hx a ix i e; insist_heapcondition compare r i)) as Hbody.
  { intros [] Hup.
    - destruct Hup as [[_ [=]]|(x & Hp & Hi1 & Hc)].
      rewrite (rep_but_slot i a xs (i / 2) x Hr ltac:(hlia) Hp). cbn [mbind option_bind].
      rewrite (store_ok _ _ _ xs) by done. cbn [mbind option_bind].
      assert (i / 2 < i) by hlia. apply at1_lt in Hp as Lp.
      eapply settles_step; [done| |done|]; [lia|].
      apply IH; rewrite ?length_put, ?length_insert; try lia.
      + by intros ? _; apply rep_store.
      + rewrite put_swap; [done|lia|lia|done].
      + apply ordered_up_step; [lia|done..].
      + intros ->. apply indexed_move; [lia|lia|done|done|by apply Hx].
    - apply settle_here; try done. intros k y p Hk Hkp.
      destruct (decide (k = i)) as [->|Hki]; [|by apply (proj1 Ho k)].
      destruct Hup as [[-> _]|(x & Hp & Hi1 & Hc)]; [done|].
      rewrite at1_put_ne in Hkp by hlia.
      rewrite Ge in Hk. congruence. }
  case_bool_decide as Hi1.
  - destruct Hpar as [x Hp]; [lia|]. pose proof (rep_but_slot i a xs (i / 2) x Hr ltac:(hlia) Hp) as Hs.
    rewrite Hs. cbn [mbind option_bind]. specialize (Hbody (compare e x)).
    rewrite Hs in Hbody. cbn [mbind option_bind] in Hbody. apply Hbody. right. by exists x.
  - cbn [mbind option_bind]. apply (Hbody false). left. split; [lia|done].
Qed.

Lemma children_of k i : 1 <= k → k / 2 = i → k = i * 2 ∨ k = i * 2 + 1.
Proof. intros. hlia. Qed.

Lemma ordered_down_step xs i j x e :
  1 <= i → j / 2 = i → at1 xs j = Some x → compare e x = false →
  (∀ k y, k / 2 = i → at1 xs k = Some y → compare y x = false) →
  ordered_down compare (put xs i e) i → ordered_down compare (put (put xs i x) j e) j.
Proof.
  intros Hi Hj Hx He Hmin [H1 H2]. apply at1_lt in Hx as Lj.
  assert (i < j) as Hij by hlia.
  assert (∀ k, k ≠ i → at1 (put xs i e) k = at1 xs k) as Hb by (intros; apply at1_put_ne; lia).
  assert (at1 (put (put xs i x) j e) j = Some e) as Gj
    by (apply at1_put_eq; rewrite length_put; lia).
  assert (at1 (put (put xs i x) j e) i = Some x) as Gi
    by (rewrite at1_put_ne by lia; apply at1_put_eq; lia).
  assert (∀ k, k ≠ i → k ≠ j → at1 (put (put xs i x) j e) k = at1 xs k) as Gk
    by (intros; rewrite at1_put_ne by lia; apply at1_put_ne; lia).
  split.
  - intros k y p Hk Hy Hp. destruct (decide (k / 2 = i)) as [Hc|Hc].
    + rewrite Hc, Gi in Hp. injection Hp as <-. destruct (decide (k = j)) as [->|Hkj].
      * rewrite Gj in Hy. by injection Hy as <-.
      * rewrite Gk in Hy by hlia. by apply (Hmin k).
    + rewrite Gk in Hp by done. destruct (decide (k = i)) as [->|Hki].
      * rewrite Gi in Hy. injection Hy as <-.
        apply (H2 j); [done|by rewrite Hb by lia|by rewrite Hb by done].
      * rewrite Gk in Hy by (try done; intros ->; done).
        apply (H1 k); [done|by rewrite Hb..].
  - intros k y p Hk Hy Hp. rewrite Hj, Gi in Hp. injection Hp as <-.
    rewrite Gk in Hy by hlia.
    apply (H1 k); [lia|by rewrite Hb by hlia|by rewrite Hk, Hb by lia].
Qed.

Lemma ordered_down_done xs i e :
  1 <= i <= length xs → ordered_down compare (put xs i e) i →
  (∀ k y, k / 2 = i → at1 xs k = Some y → compare y e = false) → ordered compare (put xs i e).
Proof.
  intros Hi [H1 _] Hc k y p Hy Hp. destruct (decide (k / 2 = i)) as [Hk|Hk]; [|by eapply H1].
  rewrite Hk, at1_put_eq in Hp by done. injection Hp as <-.
  apply (Hc k); [done|]. by rewrite at1_put_ne in Hy by hlia.
Qed.

(** The child that comes first. *)
Lemma smallest_child a xs i :
  rep_but i a xs → 1 <= i <= length xs / 2 →
  ∃ other j x,
    (if bool_decide (heap_left i < length xs)
     then x ← slot a (heap_left i + 1); y ← slot a (heap_left i); Some (compare x y)
     else Some false) = Some other ∧
    j = (if other : bool then heap_left i + 1 else heap_left i) ∧
    j / 2 = i ∧ at1 xs j = Some x ∧
    (∀ k y, k / 2 = i → at1 xs k = Some y → compare y x = false).
Proof.
  intros Hr Hi. unfold heap_left.
  assert (∀ x, compare x x = false) as Hirr.
  { intros x. destruct (compare x x) eqn:E; [|done]. by rewrite <- (heap_asym x x E). }
  destruct (at1_is_Some xs (i * 2)) as [x0 Hx0]; [hlia|].
  case_bool_decide as Hlt.
  - destruct (at1_is_Some xs (i * 2 + 1)) as [x1 Hx1]; [lia|].
    rewrite (rep_but_slot i a xs (i * 2) x0 Hr ltac:(lia) Hx0), (rep_but_slot i a xs (i * 2 + 1) x1 Hr ltac:(lia) Hx1). cbn [mbind option_bind].
    assert (∀ k y, k / 2 = i → at1 xs k = Some y → y = x0 ∨ y = x1) as Hch.
    { intros k y Hk Hy. apply at1_lt in Hy as Ly.
      destruct (children_of k i) as [->| ->]; [lia|done| |]; naive_solver. }
    destruct (compare x1 x0) eqn:E; eexists _, _, _; (split; [reflexivity|]);
      (split; [reflexivity|]); (split; [hlia|]); (split; [done|]);
      intros k y Hk Hy; destruct (Hch k y Hk Hy) as [-> | ->]; auto using heap_asym.
  - exists false, (i * 2), x0. split; [done|]. split; [done|]. split; [hlia|]. split; [done|].
    intros k y Hk Hy. apply at1_lt in Hy as Ly.
    assert (k = i * 2) as -> by hlia. rewrite Hx0 in Hy. by injection Hy as <-.
Qed.

Lemma sink_down_settles fuel hx a ix xs i e :
  rep_but i a xs → 1 <= i <= length xs → length xs < length a → length xs < fuel + i →
  NoDup (put xs i e) → ordered_down compare (put xs i e) i →
  (hx = true → indexed_but i (put xs i e) ix) →
  settles hx a ix (put xs i e) (sink_down compare fuel hx (length xs) a ix i e).
Proof.
  revert a ix xs i. induction fuel as [|fuel IH]; intros a ix xs i Hr Hi Hl Hf Hd Ho Hx; [lia|].
  cbn [sink_down]. case_bool_decide as Hhalf.
  - destruct (smallest_child a xs i Hr) as (other & j & x & -> & -> & Hj & Hxj & Hmin); [lia|].
    cbn [mbind option_bind].
    set (j := if other then heap_left i + 1 else heap_left i) in *.
    rewrite (rep_but_slot i a xs j x Hr ltac:(hlia) Hxj). cbn [mbind option_bind].
    destruct (compare e x) eqn:Hc.
    + apply settle_here; try done. apply ordered_down_done; [done..|].
      intros k y Hk Hy. destruct (compare y e) eqn:E; [|done].
      rewrite <- E. apply (heap_negtrans y x e); [by apply (Hmin k)|by apply heap_asym].
    + rewrite (store_ok _ _ _ xs) by done. cbn [mbind option_bind].
      apply at1_lt in Hxj as Lj. assert (i < j) by hlia.
      eapply settles_step; [done| |done|]; [lia|].
      specialize (IH (<[i := Some x]> a) (if hx then <[x := i]> ix else ix) (put xs i x) j).
      rewrite !length_put, !length_insert in IH. apply IH; try done; [|lia..| | |].
      * by intros ? _; apply rep_store.
      * rewrite put_swap; [done|lia|lia|done].
      * by apply ordered_down_step; [lia|..].
      * intros ->. apply indexed_move; [lia|lia|done|done|by apply Hx].
  - apply settle_here; try done. apply ordered_down_done; [done..|].
    intros k y Hk Hy. apply at1_lt in Hy. hlia.
Qed.

End loops.

(** ** The operations *)

(** The heap that an operation leaves, with the elements [B] in some order;
    the indices of other headers are as they were. *)
Definition leaves compare (h : heap) (ix : indices) (B : list elt) (h' : heap) (ix' : indices)
    : Prop :=
  ∃ xs, heap_at compare h' ix' xs ∧ xs ≡ₚ B ∧ h_size h' = h_size h ∧
    ∀ x, x ∉ B → ix' !! x = ix !! x.

Section moves.
Context (compare : elt → elt → bool) `{!HeapOrder compare}.

Lemma settles_leaves h ix B n r :
  settles compare true (array h) ix B r → heap_fields h n → length B = n → NoDup B →
  ∃ h' ix', (r ← r; Some (with_array h r)) = Some (h', ix') ∧ leaves compare h ix B h' ix'.
Proof.
  intros (a' & ix' & xs' & -> & Hr & Hl & Hp & Ho & Hx & Hf) (H1 & H2 & H3 & H4 & H5) Hn Hd.
  eexists _, ix'. split; [reflexivity|]. exists xs'. split; [|done].
  split; [|split; [done|split; [by rewrite Hp|split; [done|by apply Hx]]]].
  apply Permutation_length in Hp. rewrite Hp, Hn. split; [done|]. cbn.
  split; [by rewrite Hl|done].
Qed.

Lemma do_float_up_ok h ix xs i e :
  heap_fields h (length xs) → rep_but i (array h) xs → 1 <= i <= length xs →
  NoDup (put xs i e) → ordered_up compare (put xs i e) i → indexed_but i (put xs i e) ix →
  ∃ h' ix', do_float_up compare h ix i e = Some (h', ix') ∧
    leaves compare h ix (put xs i e) h' ix'.
Proof.
  intros Hh Hr Hi Hd Ho Hx. unfold do_float_up. pose proof Hh as (H1 & H2 & H3 & H4 & ->).
  eapply settles_leaves; [|done|apply length_put|done].
  apply float_up_settles; try done; lia.
Qed.

Lemma do_sink_down_ok h ix xs i e :
  heap_fields h (length xs) → rep_but i (array h) xs → 1 <= i <= length xs →
  NoDup (put xs i e) → ordered_down compare (put xs i e) i → indexed_but i (put xs i e) ix →
  ∃ h' ix', do_sink_down compare h ix i e = Some (h', ix') ∧
    leaves compare h ix (put xs i e) h' ix'.
Proof.
  intros Hh Hr Hi Hd Ho Hx. unfold do_sink_down. pose proof Hh as (-> & H2 & H3 & H4 & ->).
  eapply settles_leaves; [|done|apply length_put|done].
  apply sink_down_settles; try done; lia.
Qed.

Lemma at1_app xs ys k : k <= length xs → at1 (xs ++ ys) k = at1 xs k.
Proof. destruct k; [done|]. intros. apply lookup_app_l. lia. Qed.

Lemma at1_snoc xs e : at1 (xs ++ [e]) (S (length xs)) = Some e.
Proof. cbn. rewrite lookup_app_r by lia. by rewrite Nat.sub_diag. Qed.

Lemma put_perm xs i x e : at1 xs i = Some x → x :: put xs i e ≡ₚ xs ++ [e].
Proof.
  destruct i as [|i]; [done|]. cbn. intros Hx. unfold put. cbn [pred].
  rewrite insert_take_drop by by apply lookup_lt_Some in Hx.
  rewrite <- (take_drop_middle _ _ _ Hx) at 3. solve_Permutation.
Qed.

Lemma insert_ok mem_ok h ix xs e :
  heap_at compare h ix xs → e ∉ xs →
  (Z.of_nat (h_size h) + Z.of_nat (size_increment h) < 2 ^ 32)%Z →
  isc_heap_insert compare mem_ok h ix e = Some (ISC_R_NOMEMORY, h, ix) ∧
    h_size h <= S (length xs) ∨
  ∃ h' ix', isc_heap_insert compare mem_ok h ix e = Some (ISC_R_SUCCESS, h', ix') ∧
    ∃ xs', heap_at compare h' ix' xs' ∧ xs' ≡ₚ e :: xs ∧
      ∀ x, x ∉ e :: xs → ix' !! x = ix !! x.
Proof.
  intros (Hh & Hr & Hd & Ho & Hx) He Hb. pose proof Hh as (H1 & H2 & H3 & H4 & H5).
  assert (∀ h0, heap_fields h0 (S (length xs)) → rep (array h0) xs →
    ∃ h' ix', do_float_up compare h0 ix (S (length xs)) e = Some (h', ix') ∧
      ∃ xs', heap_at compare h' ix' xs' ∧ xs' ≡ₚ e :: xs ∧
        ∀ x, x ∉ e :: xs → ix' !! x = ix !! x) as Hgo.
  { intros h0 Hh0 Hr0.
    assert (put (xs ++ [e]) (S (length xs)) e = xs ++ [e]) as Hput by apply put_id, at1_snoc.
    assert (∀ k x, k ≠ S (length xs) → at1 (xs ++ [e]) k = Some x → at1 xs k = Some x) as Hin.
    { intros k x Hk Hkx. apply at1_lt in Hkx as Lk. rewrite length_app in Lk. cbn in Lk.
      by rewrite at1_app in Hkx by lia. }
    destruct (do_float_up_ok h0 ix (xs ++ [e]) (S (length xs)) e)
      as (h' & ix' & Hf & xs' & Ha & Hp & _ & Hfr); rewrite ?Hput, ?length_app; cbn [length].
    - by rewrite Nat.add_1_r.
    - intros k Hk. rewrite Hr0. destruct (at1 (xs ++ [e]) k) as [x|] eqn:E.
      + by apply Hin.
      + destruct (at1 xs k) as [x|] eqn:E'; [|done]. apply at1_lt in E' as Lk.
        rewrite at1_app in E by lia. congruence.
    - lia.
    - rewrite (Permutation_app_comm xs [e]). by constructor.
    - split.
      + intros k x p Hk Hkx Hp. pose proof (Hin _ _ Hk Hkx) as Hkx'.
        apply at1_lt in Hkx' as Lk.
        apply (Ho k x p Hkx'). apply Hin; [hlia|done].
      + intros k x p Hk Hkx. apply at1_lt in Hkx as Lk. rewrite length_app in Lk. cbn in Lk. hlia.
    - intros k x Hk Hkx. apply Hx. by apply Hin.
    - exists h', ix'. split; [done|]. exists xs'. rewrite Hput in *.
      rewrite (Permutation_app_comm xs [e]) in Hp. split; [done|]. split; [done|].
      intros x Hn. apply Hfr. rewrite (Permutation_app_comm xs [e]). done. }
  unfold isc_heap_insert, resize. rewrite H1.
  rewrite !u32_small by lia. rewrite <- Nat2Z.inj_add, Nat2Z.id.
  replace (Z.to_nat (Z.of_nat (length xs) + 1)) with (S (length xs)) by lia.
  rewrite bool_decide_true by lia. case_bool_decide as Hfull.
  - destruct (mem_ok (h_size h + size_increment h)); [|by left].
    rewrite bool_decide_true by lia. cbn [mbind option_bind]. right.
    match goal with |- context [do_float_up _ ?h0 _ _ _] => destruct (Hgo h0) as (h' & ix' & -> & Hres) end.
    + split; [done|]. cbn. rewrite length_app, length_replicate. repeat split; [lia..|done].
    + cbn. intros k. rewrite <- (Hr k). unfold slot.
      destruct (decide (k < length (array h))); [by rewrite lookup_app_l by lia|].
      rewrite lookup_app_r by lia. rewrite (lookup_ge_None_2 (array h)) by lia.
      by destruct (replicate _ _ !! _) as [o|] eqn:E; [apply lookup_replicate in E as [-> _]|].
    + exists h', ix'. split; [done|done].
  - cbn [mbind option_bind]. right.
    match goal with |- context [do_float_up _ ?h0 _ _ _] => destruct (Hgo h0) as (h' & ix' & -> & Hres) end.
    + split; [done|]. cbn. repeat split; [lia..|done].
    + done.
    + exists h', ix'. split; [done|done].
Qed.

(** Replacing the element at [i]: what the order becomes. *)
Lemma ordered_replace_up xs i x e :
  NoDup xs → at1 xs i = Some x → ordered compare xs → compare e x = true →
  ordered_up compare (put xs i e) i.
Proof.
  intros Hd Hx Ho He. apply at1_lt in Hx as Li. split; intros k y p Hk Hy Hp.
  - rewrite at1_put_ne in Hy by lia. destruct (decide (k / 2 = i)) as [Hc|Hc].
    + rewrite Hc, at1_put_eq in Hp by done. injection Hp as <-.
      apply (heap_negtrans y x e); [|by apply heap_asym].
      apply (Ho k); [done|by rewrite Hc].
    + rewrite at1_put_ne in Hp by lia. by apply (Ho k).
  - rewrite at1_put_ne in Hy, Hp by hlia.
    apply (heap_negtrans y x p); [apply (Ho k); [done|by rewrite Hk]|by apply (Ho i)].
Qed.

Lemma ordered_replace_down xs i x e :
  NoDup xs → at1 xs i = Some x → ordered compare xs → compare e x = false →
  ordered_down compare (put xs i e) i.
Proof.
  intros Hd Hx Ho He. apply at1_lt in Hx as Li. split; intros k y p Hk Hy Hp.
  - rewrite at1_put_ne in Hp by lia. destruct (decide (k = i)) as [->|Hc].
    + rewrite at1_put_eq in Hy by done. injection Hy as <-.
      apply (heap_negtrans e x p); [done|by apply (Ho i)].
    + rewrite at1_put_ne in Hy by lia. by apply (Ho k).
  - rewrite at1_put_ne in Hy, Hp by hlia.
    apply (heap_negtrans y x p); [apply (Ho k); [done|by rewrite Hk]|by apply (Ho i)].
Qed.

Lemma delete_ok h ix xs i x :
  heap_at compare h ix xs → at1 xs i = Some x →
  ∃ h' ix' xs', isc_heap_delete compare h ix i = Some (h', ix') ∧
    heap_at compare h' ix' xs' ∧ x :: xs' ≡ₚ xs ∧ ∀ y, y ∉ xs' → ix' !! y = ix !! y.
Proof.
  intros (Hh & Hr & Hd & Ho & Hx) Hi. pose proof Hh as (H1 & H2 & H3 & H4 & H5).
  apply at1_lt in Hi as Li. unfold isc_heap_delete. rewrite H1, bool_decide_true by lia.
  destruct xs as [|z xs0] using rev_ind; [cbn in Li; lia|clear IHxs0].
  rewrite length_app in *. cbn [length] in *. rewrite Nat.add_1_r in *.
  assert (slot (array h) (S (length xs0)) = Some z) as Hz by (rewrite Hr; apply at1_snoc).
  assert (∀ e, e = Some z → array h !! S (length xs0) = Some e) as Hlast.
  { intros e ->. unfold slot in Hz. destruct (array h !! _) as [o|] eqn:E; [|done].
    cbn in Hz. by rewrite Hz. }
  rewrite (Hlast (Some z)) by done. cbn [mbind option_bind array]. clear Hlast.
  assert (rep (<[S (length xs0) := None]> (array h)) xs0) as Hr0.
  { intros k. unfold slot. destruct (decide (k = S (length xs0))) as [->|Hk].
    - rewrite list_lookup_insert_eq by lia. cbn. symmetry. apply lookup_ge_None_2. lia.
    - rewrite list_lookup_insert_ne by done. fold (slot (array h) k). rewrite (Hr k).
      destruct (decide (k <= length xs0)); [by apply at1_app|].
      destruct k as [|k]; [done|]. cbn. rewrite (lookup_ge_None_2 xs0) by lia.
      apply lookup_ge_None_2. rewrite length_app. cbn. lia. }
  apply NoDup_app in Hd as Hd'. destruct Hd' as (Hd0 & Hdz & _).
  assert (ordered compare xs0) as Ho0.
  { intros k y p Hy Hp. apply at1_lt in Hy as Ly. apply at1_lt in Hp as Lp.
    apply (Ho k); by rewrite at1_app by lia. }
  assert (indexed xs0 ix) as Hx0.
  { intros k y Hy. apply at1_lt in Hy as Ly. apply Hx. by rewrite at1_app by lia. }
  case_bool_decide as Hil.
  - subst i. rewrite at1_snoc in Hi. injection Hi as ->. eexists _, ix, xs0.
    split; [reflexivity|]. split; [|split; [solve_Permutation|done]].
    split; [|done]. split; [cbn; lia|]. cbn. rewrite length_insert.
    repeat split; [lia..|done].
  - rewrite at1_app in Hi by lia. rewrite (rep_slot _ _ _ _ Hr0 Hi). cbn [mbind option_bind].
    cbn [h_size size_increment last index].
    pose proof (put_perm xs0 i x z Hi) as Hperm.
    set (h0 := Heap _ _ _ _ _).
    assert (heap_fields h0 (length xs0)) as Hh0.
    { split; [cbn; lia|]. cbn. rewrite !length_insert. repeat split; [lia..|done]. }
    assert (rep_but i (array h0) xs0) as Hr1.
    { intros k Hk. cbn. unfold slot. rewrite list_lookup_insert_ne by done. apply Hr0. }
    assert (NoDup (put xs0 i z)) as Hd1.
    { eapply NoDup_cons_1_2. rewrite Hperm. done. }
    assert (indexed_but i (put xs0 i z) ix) as Hx1.
    { intros k y Hk Hy. rewrite at1_put_ne in Hy by lia. by apply Hx0. }
    destruct (compare z x) eqn:Hc.
    + destruct (do_float_up_ok h0 ix xs0 i z) as (h' & ix' & -> & xs' & Ha & Hp & _ & Hf);
        try done; [lia|by apply (ordered_replace_up xs0 i x)|].
      eexists h', ix', xs'. split; [done|]. split; [done|]. split; [by rewrite Hp|].
      intros y Hy. apply Hf. by rewrite <- Hp.
    + destruct (do_sink_down_ok h0 ix xs0 i z) as (h' & ix' & -> & xs' & Ha & Hp & _ & Hf);
        try done; [lia|by apply (ordered_replace_down xs0 i x)|].
      eexists h', ix', xs'. split; [done|]. split; [done|]. split; [by rewrite Hp|].
      intros y Hy. apply Hf. by rewrite <- Hp.
Qed.

(** The first element comes before all others. *)
Lemma element_first h ix xs :
  heap_at compare h ix xs →
  isc_heap_element h 1 = Some (head xs) ∧
  ∀ x, head xs = Some x → ∀ y, y ∈ xs → compare y x = false.
Proof.
  intros (Hh & Hr & Hd & Ho & _). destruct Hh as (H1 & H2 & H3 & _). split.
  - unfold isc_heap_element. rewrite H1. cbn [bool_decide]. case_bool_decide; [|lia].
    case_bool_decide.
    + pose proof (Hr 1) as E. unfold slot in E. destruct xs as [|x xs]; [cbn in *; lia|].
      cbn in E. destruct (array h !! 1) as [o|]; [|done]. cbn in E. by rewrite E.
    + destruct xs; [done|cbn in *; lia].
  - intros x Hx y Hy. destruct xs as [|x0 xs]; [done|]. injection Hx as ->.
    assert (compare x x = false) as Hxx.
    { destruct (compare x x) eqn:E; [|done]. by rewrite <- (heap_asym x x E). }
    apply list_elem_of_lookup in Hy as [k Hk]. fold (at1 (x :: xs) (S k)) in Hk.
    assert (0 < S k) as Hpos by lia. revert Hk Hpos. generalize (S k). intros i.
    revert y. induction (lt_wf i) as [i _ IH]. intros y Hy Hi.
    destruct (decide (i = 1)) as [->|Hi1]; [by injection Hy as ->|].
    apply at1_lt in Hy as Li. destruct (at1_is_Some (x :: xs) (i / 2)) as [p Hp]; [hlia|].
    apply (heap_negtrans y p x); [by apply (Ho i)|]. apply (IH (i / 2)); [hlia|done|hlia].
Qed.

End moves.

(** A change of one element's key, told to the heap. *)
Section change.
Context (cmp cmp' : elt → elt → bool) `{!HeapOrder cmp} `{!HeapOrder cmp'} (e : elt).
Context (Hsame : ∀ a b, a ≠ e → b ≠ e → cmp' a b = cmp a b).

Lemma increased_ok h ix xs i :
  (∀ b, cmp' b e = true → cmp b e = true) →
  heap_at cmp h ix xs → at1 xs i = Some e →
  ∃ h' ix', isc_heap_increased cmp' h ix i = Some (h', ix') ∧ leaves cmp' h ix xs h' ix'.
Proof.
  intros Hup (Hh & Hr & Hd & Ho & Hx) He. pose proof Hh as (H1 & _).
  apply at1_lt in He as Li. unfold isc_heap_increased. rewrite H1, bool_decide_true by lia.
  rewrite (rep_slot _ _ _ _ Hr He). cbn [mbind option_bind].
  pose proof (do_float_up_ok cmp' h ix xs i e) as Hmove. rewrite (put_id xs i e He) in Hmove.
  apply Hmove; try done; [intros k _; apply Hr| |by intros k y _; apply Hx]. clear Hmove.
  assert (∀ k y, k ≠ i → at1 xs k = Some y → y ≠ e) as Hne.
  { intros k y Hk Hy ->. by destruct (at1_inj _ _ _ _ Hd Hy He). }
  split; intros k y p Hk Hy Hp.
  - pose proof (Hne k y Hk Hy) as Hye. destruct (decide (p = e)) as [->|Hpe].
    + destruct (cmp' y e) eqn:E; [|done]. rewrite <- (Hup _ E). by apply (Ho k).
    + rewrite Hsame by done. by apply (Ho k).
  - rewrite Hsame; [|eapply (Hne k); [hlia|done]|eapply (Hne (i / 2)); [hlia|done]].
    apply (heap_negtrans y e p); [apply (Ho k); [done|by rewrite Hk]|by apply (Ho i)].
Qed.

Lemma decreased_ok h ix xs i :
  (∀ b, cmp' e b = true → cmp e b = true) →
  heap_at cmp h ix xs → at1 xs i = Some e →
  ∃ h' ix', isc_heap_decreased cmp' h ix i = Some (h', ix') ∧ leaves cmp' h ix xs h' ix'.
Proof.
  intros Hdn (Hh & Hr & Hd & Ho & Hx) He. pose proof Hh as (H1 & _).
  apply at1_lt in He as Li. unfold isc_heap_decreased. rewrite H1, bool_decide_true by lia.
  rewrite (rep_slot _ _ _ _ Hr He). cbn [mbind option_bind].
  pose proof (do_sink_down_ok cmp' h ix xs i e) as Hmove. rewrite (put_id xs i e He) in Hmove.
  apply Hmove; try done; [intros k _; apply Hr| |by intros k y _; apply Hx]. clear Hmove.
  assert (∀ k y, k ≠ i → at1 xs k = Some y → y ≠ e) as Hne.
  { intros k y Hk Hy ->. by destruct (at1_inj _ _ _ _ Hd Hy He). }
  split; intros k y p Hk Hy Hp.
  - assert (p ≠ e) as Hpe by by eapply (Hne (k / 2)).
    destruct (decide (k = i)) as [->|Hki].
    + rewrite He in Hy. injection Hy as <-. destruct (cmp' e p) eqn:E; [|done].
      rewrite <- (Hdn _ E). by apply (Ho i).
    + rewrite Hsame; [by apply (Ho k)|by eapply (Hne k)|done].
  - rewrite Hsame; [|eapply (Hne k); [hlia|done]|eapply (Hne (i / 2)); [hlia|done]].
    apply (heap_negtrans y e p); [apply (Ho k); [done|by rewrite Hk]|by apply (Ho i)].
Qed.
End change.

(** ** Theorems *)

Lemma foreach_loop_ok {S} (action : elt → S → S) a xs ys s :
  rep a (xs ++ ys) →
  foreach_loop action a (length xs + 1) (length ys) s = Some (fold_left (flip action) ys s).
Proof.
  revert xs s. induction ys as [|y ys IH]; intros xs s Hr; [done|]. cbn [length foreach_loop].
  assert (slot a (length xs + 1) = Some y) as ->.
  { rewrite Nat.add_1_r, (Hr (Datatypes.S (length xs))). cbn. by apply list_lookup_middle. }
  cbn [mbind option_bind fold_left flip].
  specialize (IH (xs ++ [y]) (action y s)). rewrite length_app, <- app_assoc in IH.
  by apply IH.
Qed.

(** C11: the heap is a priority queue. A new heap is empty. With a strict weak
    order [compare], [isc_heap_insert] adds the element or reports no memory
    and changes nothing; [isc_heap_delete] takes out the element at the
    index; the first element comes before all others; [isc_heap_foreach]
    visits every element once. No assertion fails, no access leaves the
    array, and every element knows its index afterwards. *)
Theorem heap_spec compare `{!HeapOrder compare} h ix xs :
  heap_at compare h ix xs →
  (Z.of_nat (h_size h) + Z.of_nat (size_increment h) < 2 ^ 32)%Z →
  (isc_heap_element h 1 = Some (head xs) ∧
   ∀ x y, head xs = Some x → y ∈ xs → compare y x = false) ∧
  (∀ mem_ok e, e ∉ xs → ∃ result h' ix' xs',
     isc_heap_insert compare mem_ok h ix e = Some (result, h', ix') ∧
     heap_at compare h' ix' xs' ∧
     (result = ISC_R_SUCCESS ∧ xs' ≡ₚ e :: xs ∨
      result = ISC_R_NOMEMORY ∧ h' = h ∧ ix' = ix ∧ xs' = xs)) ∧
  (∀ i x, at1 xs i = Some x → ix !! x = Some i ∧ ∃ h' ix' xs',
     isc_heap_delete compare h ix i = Some (h', ix') ∧
     heap_at compare h' ix' xs' ∧ x :: xs' ≡ₚ xs) ∧
  (∀ S (action : elt → S → S) s,
     isc_heap_foreach h action s = Some (fold_left (flip action) xs s)).
Proof.
  intros Hh Hb. split; [|split; [|split]].
  - destruct (element_first compare h ix xs Hh) as [H1 H2]. eauto.
  - intros mem_ok e He.
    destruct (insert_ok compare mem_ok h ix xs e Hh He Hb) as [[-> _]|(h' & ix' & -> & xs' & Ha & Hp & _)].
    + eexists _, h, ix, xs. split; [done|]. split; [done|]. by right.
    + eexists _, h', ix', xs'. split; [done|]. split; [done|]. by left.
  - intros i x Hx. split; [by apply Hh|].
    destruct (delete_ok compare h ix xs i x Hh Hx) as (h' & ix' & xs' & -> & Ha & Hp & _).
    by exists h', ix', xs'.
  - intros S action s. destruct Hh as ((H1 & _) & Hr & _). unfold isc_heap_foreach.
    rewrite H1. exact (foreach_loop_ok action (array h) [] xs s Hr).
Qed.

Lemma heap_create_ok compare n : n ≠ 1 →
  ∃ h, isc_heap_create true true n = Some h ∧ heap_at compare h ∅ [].
Proof.
  intros Hn. eexists. split; [reflexivity|]. split.
  { split; [done|]. split; [done|]. split; [by right|]. split; [|done].
    cbn. unfold SIZE_INCREMENT. case_bool_decide; lia. }
  split; [|split; [constructor|split; [by intros []|by intros []]]]. by intros [].
Qed.

(** With an increment of one element the first insertion writes past the
    array. *)
Theorem increment_one_overruns compare mem_ok ix e :
  mem_ok 1 = true →
  (h ← isc_heap_create true true 1; isc_heap_insert compare mem_ok h ix e) = None.
Proof.
  intros Hm. unfold isc_heap_create. rewrite bool_decide_false by done. cbn [mbind option_bind].
  unfold isc_heap_insert, resize.
  cbn [last h_size size_increment].
  replace (Z.to_nat (u32 (Z.of_nat 0 + Z.of_nat 1))) with 1 by reflexivity.
  replace (Z.to_nat (u32 (Z.of_nat 0 + 1))) with 1 by reflexivity. cbn. by rewrite Hm.
Qed.

Lemma set_field_eq f e v : set_field f e v e = v.
Proof. unfold set_field. by rewrite bool_decide_true. Qed.
Lemma set_field_ne f e v x : x ≠ e → set_field f e v x = f x.
Proof. intros. unfold set_field. by rewrite bool_decide_false. Qed.

Lemma rekey f e v h ix xs i :
  heap_at (ttl_sooner f) h ix xs → at1 xs i = Some e →
  ∃ h' ix',
    (if bool_decide (v < f e)%Z then isc_heap_increased (ttl_sooner (set_field f e v)) h ix i
     else if bool_decide (v > f e)%Z then isc_heap_decreased (ttl_sooner (set_field f e v)) h ix i
     else Some (h, ix)) = Some (h', ix') ∧
    leaves (ttl_sooner (set_field f e v)) h ix xs h' ix'.
Proof.
  intros Hh He.
  assert (∀ a b, a ≠ e → b ≠ e → ttl_sooner (set_field f e v) a b = ttl_sooner f a b) as Hsame.
  { intros a b Ha Hb. unfold ttl_sooner. by rewrite !set_field_ne by done. }
  case_bool_decide; [|case_bool_decide].
  - refine (increased_ok (ttl_sooner f) _ e Hsame h ix xs i _ Hh He). intros b Hb%bool_decide_eq_true.
    apply bool_decide_eq_true. rewrite set_field_eq in Hb.
    destruct (decide (b = e)) as [->|]; [rewrite set_field_eq in Hb; lia|].
    rewrite set_field_ne in Hb by done. lia.
  - refine (decreased_ok (ttl_sooner f) _ e Hsame h ix xs i _ Hh He). intros b Hb%bool_decide_eq_true.
    apply bool_decide_eq_true. rewrite set_field_eq in Hb.
    destruct (decide (b = e)) as [->|]; [rewrite set_field_eq in Hb; lia|].
    rewrite set_field_ne in Hb by done. lia.
  - exists h, ix. split; [done|]. exists xs. split; [|done].
    destruct Hh as (H1 & H2 & H3 & H4 & H5). split; [done|]. split; [done|]. split; [done|].
    split; [|done]. intros k x p Hx Hp. rewrite <- (H4 k x p Hx Hp). unfold ttl_sooner.
    assert (∀ y, set_field f e v y = f y) as Hf; [|by rewrite !Hf].
    intros y. unfold set_field. case_bool_decide; [subst; lia|done].
Qed.

(** What the heap is told about a header: nothing, if it is not in it. *)
Definition tracked (ix : indices) (xs : list elt) (header : elt) : Prop :=
  header ∉ xs → heap_index ix header = 0.

Lemma heap_index_at compare h ix xs e :
  heap_at compare h ix xs → tracked ix xs e →
  e ∈ xs ∧ at1 xs (heap_index ix e) = Some e ∧ heap_index ix e ≠ 0 ∨
  (e ∉ xs) ∧ heap_index ix e = 0.
Proof.
  intros (_ & _ & _ & _ & Hx) Ht. destruct (decide (e ∈ xs)) as [He|He]; [left|right; auto].
  split; [done|]. apply list_elem_of_lookup in He as [k Hk].
  specialize (Hx (S k) e Hk). unfold heap_index. rewrite Hx. done.
Qed.

(** The order among other headers does not depend on one header's field. *)
Lemma heap_at_other f e v h ix xs :
  heap_at (ttl_sooner f) h ix xs → e ∉ xs → heap_at (ttl_sooner (set_field f e v)) h ix xs.
Proof.
  intros (H1 & H2 & H3 & H4 & H5) He. split; [done|]. split; [done|]. split; [done|].
  split; [|done]. intros k x p Hx Hp. rewrite <- (H4 k x p Hx Hp). unfold ttl_sooner.
  apply at1_elem in Hx, Hp. by rewrite !set_field_ne by (intros ->; done).
Qed.

(** C12: a cache's heap stays ordered by expiry. Whatever time to live a
    header gets, [set_ttl] moves it to where it belongs: no assertion fails,
    the heap holds the same headers, ordered by the new times, and every
    header in it knows its index. *)
Theorem set_ttl_spec h ix xs rdh_ttl header newttl :
  heap_at (ttl_sooner rdh_ttl) h ix xs → tracked ix xs header →
  let rdh_ttl' := set_field rdh_ttl header newttl in
  ∃ h' ix' xs', set_ttl true h ix rdh_ttl header newttl = Some (h', ix', rdh_ttl') ∧
    heap_at (ttl_sooner rdh_ttl') h' ix' xs' ∧ xs' ≡ₚ xs ∧ tracked ix' xs' header.
Proof.
  intros Hh Ht rdh_ttl'. unfold set_ttl. cbn [negb].
  destruct (heap_index_at _ _ _ _ _ Hh Ht) as [(He & Hi & Hn)|(He & Hn)].
  - destruct (rekey rdh_ttl header newttl h ix xs _ Hh Hi) as (h' & ix' & Hr & xs' & Ha & Hp & _ & Hf).
    assert (tracked ix' xs' header) as Ht' by (intros []; by rewrite Hp).
    destruct (decide (newttl = rdh_ttl header)) as [->|Hc].
    + exists h, ix, xs. rewrite bool_decide_true by auto.
      rewrite !(bool_decide_false (_ < _)%Z), !(bool_decide_false (_ > _)%Z) in Hr by lia.
      injection Hr as <- <-. split; [done|]. split; [|done].
      destruct Hh as (H1 & H2 & H3 & H4 & H5).
      do 3 (split; [done|]). split; [|done]. intros k x p Hx Hpp.
      rewrite <- (H4 k x p Hx Hpp). unfold ttl_sooner, rdh_ttl'.
      assert (∀ y, set_field rdh_ttl header (rdh_ttl header) y = rdh_ttl y) as E;
        [|by rewrite !E].
      intros y. unfold set_field. case_bool_decide; [by subst|done].
    + exists h', ix', xs'. rewrite bool_decide_false by naive_solver. split; [|done].
      destruct (decide (newttl < rdh_ttl header)%Z).
      * rewrite bool_decide_true in Hr |- * by done. by rewrite Hr.
      * rewrite bool_decide_false in Hr |- * by done.
        rewrite bool_decide_true in Hr by lia. by rewrite Hr.
  - exists h, ix, xs. rewrite bool_decide_true by auto. split; [done|].
    split; [by apply heap_at_other|]. done.
Qed.

(** C13: a zone's heap stays ordered by the time to sign. Giving a header a
    time other than 0 puts it into the heap or moves it; nothing fails but
    memory. Taking a header out with time 0 is not safe: [setsigningtime]
    stores the 0 first, [isc_heap_delete] compares with it and so always
    sinks the element that takes the place, and its assertion fails where
    that element belongs above. *)
Theorem setsigningtime_spec h ix xs resign header newresign mem_ok :
  heap_at (resign_sooner resign) h ix xs → tracked ix xs header → (0 < newresign)%Z →
  (Z.of_nat (h_size h) + Z.of_nat (size_increment h) < 2 ^ 32)%Z →
  let resign' := set_field resign header newresign in
  (∃ result h' ix' xs',
    setsigningtime mem_ok h ix resign header newresign = Some (result, h', ix', resign') ∧
    heap_at (resign_sooner resign') h' ix' xs' ∧
    (result = ISC_R_SUCCESS ∧ xs' ≡ₚ (if bool_decide (header ∈ xs) then xs else header :: xs) ∨
     result = ISC_R_NOMEMORY ∧ xs' = xs)) ∧
  (∃ h ix xs resign header, heap_at (resign_sooner resign) h ix xs ∧ header ∈ xs ∧
    setsigningtime mem_ok h ix resign header 0 = None).
Proof.
  intros Hh Ht Hpos Hb. cbv zeta. change resign_sooner with ttl_sooner in *. split.
  - unfold setsigningtime.
    destruct (heap_index_at _ _ _ _ _ Hh Ht) as [(He & Hi & Hn)|(He & Hn)].
    + rewrite bool_decide_true by done. rewrite bool_decide_false by lia.
      destruct (rekey resign header newresign h ix xs _ Hh Hi)
        as (h' & ix' & Hr & xs' & Ha & Hp & _ & Hf).
      exists ISC_R_SUCCESS, h', ix', xs'. change resign_sooner with ttl_sooner in *.
      rewrite Hr. split; [done|]. split; [done|]. left. by rewrite bool_decide_true by done.
    + rewrite bool_decide_false by auto. rewrite bool_decide_true by lia.
      unfold resign_insert. rewrite bool_decide_true by done.
      apply (heap_at_other resign header newresign) in Hh; [|done].
      rewrite (bool_decide_false (header ∈ xs)) by done.
      change resign_sooner with ttl_sooner.
      destruct (insert_ok (ttl_sooner (set_field resign header newresign)) mem_ok h ix xs header Hh He Hb)
        as [[-> _]|(h' & ix' & -> & xs' & Ha & Hp & _)].
      * exists ISC_R_NOMEMORY, h, ix, xs. split; [done|]. split; [done|]. by right.
      * exists ISC_R_SUCCESS, h', ix', xs'. split; [done|]. split; [done|]. by left.
  - (* 1; 10, 2; 11, 12, 3, 4: taking out 11 moves 4 below 10 *)
    set (f := λ e, nth e [0; 1; 10; 2; 11; 12; 3; 4]%Z 0%Z).
    set (xs0 := [1; 2; 3; 4; 5; 6; 7]).
    exists (Heap 8 8 7 (None :: (Some <$> xs0)) true),
      (list_to_map ((λ x, (x, x)) <$> xs0)), xs0, f, 4.
    split; [|split; [set_solver +|by vm_compute]].
    split; [vm_compute; repeat split; lia|].
    split; [intros [|[|[|[|[|[|[|[|k]]]]]]]]; done|].
    split; [apply (bool_decide_unpack (NoDup xs0)); by vm_compute|]. split.
    + intros i x p Hx Hp. apply at1_lt in Hx as Hi. cbn in Hi.
      destruct i as [|[|[|[|[|[|[|[|i]]]]]]]]; try lia; try done;
        injection Hx as <-; injection Hp as <-; reflexivity.
    + intros i x Hx. apply at1_lt in Hx as Hi. cbn in Hi.
      destruct i as [|[|[|[|[|[|[|[|i]]]]]]]]; try lia; try done;
        injection Hx as <-; reflexivity.
Qed.

Lemma lxor_high b :
  Z.lxor b 0x80000000 = (if Z.testbit b 31 then b - 2 ^ 31 else b + 2 ^ 31)%Z.
Proof.
  pose proof (Z.add_lxor_2land b (2 ^ 31)) as H.
  assert (Z.land b (2 ^ 31) = if Z.testbit b 31 then 2 ^ 31 else 0)%Z as Hl.
  { apply Z.bits_inj'. intros n Hn. rewrite Z.land_spec, Z.pow2_bits_eqb by lia.
    destruct (31 =? n)%Z eqn:E.
    - apply Z.eqb_eq in E as <-. rewrite andb_true_r.
      by destruct (Z.testbit b 31).
    - rewrite andb_false_r. destruct (Z.testbit b 31); [|by rewrite Z.bits_0].
      by rewrite Z.pow2_bits_eqb by lia. }
  change 0x80000000%Z with (2 ^ 31)%Z. rewrite Hl in H. destruct (Z.testbit b 31); lia.
Qed.

(** In a window of half the number space serial arithmetic is the order of
    the numbers. *)
Lemma serial_lt_window lo a b :
  (0 <= a < 2 ^ 32)%Z → (0 <= b < 2 ^ 32)%Z → (lo <= a < lo + 2 ^ 31)%Z →
  (lo <= b < lo + 2 ^ 31)%Z → isc_serial_lt a b = bool_decide (a < b)%Z.
Proof.
  intros Ha Hb Hwa Hwb. unfold isc_serial_lt. rewrite lxor_high.
  rewrite bool_decide_false by (destruct (Z.testbit b 31); lia).
  apply bool_decide_ext. unfold s32, u32. dlia.
Qed.

Lemma getsigningtime_loop_ok resign lo heaps ixs xss header :
  length heaps = length ixs →
  Forall2 (λ hx xs, heap_at (resign_sooner resign) hx.1 hx.2 xs) (zip heaps ixs) xss →
  (∀ x, x ∈ mjoin xss → (0 <= resign x < 2 ^ 32 ∧ lo <= resign x < lo + 2 ^ 31)%Z) →
  (∀ x, header = Some x → (0 <= resign x < 2 ^ 32 ∧ lo <= resign x < lo + 2 ^ 31)%Z) →
  ∃ r, getsigningtime_loop resign heaps header = Some r ∧
    (r = None → header = None ∧ mjoin xss = []) ∧
    ∀ y, r = Some y → (header = Some y ∨ y ∈ mjoin xss) ∧
      ∀ x, header = Some x ∨ x ∈ mjoin xss → (resign y <= resign x)%Z.
Proof.
  intros Hl Hh Hw. revert header. revert ixs xss Hl Hh Hw. induction heaps as [|h heaps IH]; intros [|ix ixs] xss Hl Hh Hw hd Hhd;
    try done; inversion Hh as [|? xs ? xss' Ha Hh']; subst.
  - exists hd. split; [done|]. split; [by intros|]. intros y ->. split; [by left|].
    intros x [[= ->]|Hx]; [lia|by apply elem_of_nil in Hx].
  - destruct (element_first _ _ _ _ Ha) as [He Hmin]. cbn [fst] in *.
    cbn [getsigningtime_loop]. rewrite He. cbn [mbind option_bind].
    cbn [mjoin list_join] in *. injection Hl as Hl.
    assert (∀ x, x ∈ mjoin xss' → (0 <= resign x < 2 ^ 32 ∧ lo <= resign x < lo + 2 ^ 31)%Z)
      as Hw' by (intros; apply Hw; set_solver).
    specialize (IH ixs xss' Hl Hh' Hw').
    assert (∀ x y, head xs = Some x → y ∈ xs → (resign x <= resign y)%Z) as Hm.
    { intros x y Hx Hy. specialize (Hmin x Hx y Hy).
      unfold resign_sooner in Hmin. apply bool_decide_eq_false in Hmin. lia. }
    destruct xs as [|x0 xs]; [exact (IH hd Hhd)|]. cbn [head] in *.
    assert (0 <= resign x0 < 2 ^ 32 ∧ lo <= resign x0 < lo + 2 ^ 31)%Z as Hx0
      by (apply Hw; set_solver).
    set (hd' := match hd with Some hd => _ | None => Some x0 end).
    assert (∃ z, hd' = Some z ∧ (hd = Some z ∨ z = x0) ∧ (resign z <= resign x0)%Z ∧
      ∀ x, hd = Some x → (resign z <= resign x)%Z) as (z & Hz & Hzi & Hz0 & Hzx).
    { subst hd'. destruct hd as [d|]; [|exists x0; naive_solver lia].
      destruct (Hhd d eq_refl) as [??]. rewrite (serial_lt_window lo) by lia.
      case_bool_decide; eexists; (split; [reflexivity|]); naive_solver lia. }
    rewrite Hz. destruct (IH (Some z)) as (r & -> & Hnone & Hsome).
    { intros x [= <-]. destruct Hzi as [->| ->]; auto. }
    exists r. split; [done|]. split; [by intros [[=] _]%Hnone|]. intros y Hy.
    destruct (Hsome y Hy) as [Hin Hle]. split.
    + destruct Hin as [[= ->]|Hin]; [|right; set_solver].
      destruct Hzi as [->| ->]; [by left|right; set_solver].
    + intros x [Hx|Hx].
      * transitivity (resign z); [by apply Hle; left|by apply Hzx].
      * apply elem_of_app in Hx as [Hx|Hx]; [|by apply Hle; right].
        transitivity (resign z); [by apply Hle; left|].
        transitivity (resign x0); [done|by apply Hm].
Qed.

(** C14: the zone's next signature. As long as the times of all headers in the
    heaps lie within half the number space, [getsigningtime] finds a header
    that no other precedes, in any heap; and it reports that there is none
    exactly if all heaps are empty. *)
Theorem getsigningtime_earliest resign lo heaps ixs xss :
  length heaps = length ixs →
  Forall2 (λ hx xs, heap_at (resign_sooner resign) hx.1 hx.2 xs) (zip heaps ixs) xss →
  (∀ x, x ∈ mjoin xss → (0 <= resign x < 2 ^ 32 ∧ lo <= resign x < lo + 2 ^ 31)%Z) →
  (mjoin xss = [] ∧ getsigningtime resign heaps = Some (ISC_R_NOTFOUND, None)) ∨
  ∃ header, getsigningtime resign heaps = Some (ISC_R_SUCCESS, Some header) ∧
    header ∈ mjoin xss ∧ ∀ x, x ∈ mjoin xss → (resign header <= resign x)%Z.
Proof.
  intros Hl Hh Hw.
  destruct (getsigningtime_loop_ok resign lo heaps ixs xss None Hl Hh Hw)
    as (r & Hr & Hnone & Hsome); [done|].
  unfold getsigningtime. rewrite Hr. cbn [mbind option_bind]. destruct r as [y|].
  - right. exists y. split; [done|]. destruct (Hsome y eq_refl) as [[?|Hy] Hle]; [done|].
    split; [done|]. intros x Hx. apply Hle. by right.
  - left. split; [by apply Hnone|done].
Qed.
