(* ===== verification/RwLock.v ===== *)
(** * The readers-writer lock

    [lib/isc/rwlock.c], in the form that processors with atomic addition and
    compare-and-swap use ([ISC_PLATFORM_HAVEXADD],
    [ISC_PLATFORM_HAVECMPXCHG]). The database takes this lock for its tree
    and nodes on every query.

    A thread is a program counter, [pc], with its local variables; every load
    of a shared variable, every atomic operation and every call of the mutex
    or a condition variable is a step of its own, so comparisons of two
    shared variables can see values of different times. [tstep] is what a
    thread does next; [step] interleaves the threads of a list, with client
    calls whenever a thread is [Idle], [Reading] or [Writing], and with the
    spurious wake-ups that POSIX allows.

    The integers [write_requests] and [write_completions] wrap around at 32
    bits, as they do in a server that runs for long. *)

From stdpp Require Import relations.
From S2P Require Import Prelude.

#[local] Open Scope Z_scope.

(** [struct isc_rwlock]; the mutex is taken or free. *)
Record rwlock := RwLock {
  write_requests : Z; write_completions : Z; cnt_and_flag : Z;
  readers_waiting : Z; write_granted : Z; write_quota : Z; lock : bool }.

Definition WRITER_ACTIVE : Z := 1.
Definition READER_INCR : Z := 2.
Definition RWLOCK_DEFAULT_WRITE_QUOTA : Z := 4.

Definition isc_rwlock_init (write_quota : Z) : rwlock :=
  RwLock 0 0 0 0 0
    (if bool_decide (write_quota = 0) then RWLOCK_DEFAULT_WRITE_QUOTA else write_quota) false.

(** The [REQUIRE] of [isc_rwlock_destroy]. *)
Definition isc_rwlock_destroy_ok (s : rwlock) : bool :=
  bool_decide (write_requests s = write_completions s) &&
  bool_decide (cnt_and_flag s = 0) && bool_decide (readers_waiting s = 0).

Definition add_requests (s : rwlock) (d : Z) : rwlock :=
  RwLock (s32 (write_requests s + d)) (write_completions s) (cnt_and_flag s)
    (readers_waiting s) (write_granted s) (write_quota s) (lock s).
Definition add_completions (s : rwlock) (d : Z) : rwlock :=
  RwLock (write_requests s) (s32 (write_completions s + d)) (cnt_and_flag s)
    (readers_waiting s) (write_granted s) (write_quota s) (lock s).
Definition set_cnt (s : rwlock) (v : Z) : rwlock :=
  RwLock (write_requests s) (write_completions s) v
    (readers_waiting s) (write_granted s) (write_quota s) (lock s).
Definition add_cnt (s : rwlock) (d : Z) : rwlock := set_cnt s (s32 (cnt_and_flag s + d)).
Definition add_waiting (s : rwlock) (d : Z) : rwlock :=
  RwLock (write_requests s) (write_completions s) (cnt_and_flag s)
    (u32 (readers_waiting s + d)) (write_granted s) (write_quota s) (lock s).
Definition set_granted (s : rwlock) (v : Z) : rwlock :=
  RwLock (write_requests s) (write_completions s) (cnt_and_flag s)
    (readers_waiting s) (u32 v) (write_quota s) (lock s).
Definition set_lock (s : rwlock) (b : bool) : rwlock :=
  RwLock (write_requests s) (write_completions s) (cnt_and_flag s)
    (readers_waiting s) (write_granted s) (write_quota s) b.

(** Where a thread is. [RL]: [isc_rwlock_lock] for reading, [WL]: for writing,
    [RT], [WT]: [isc_rwlock_trylock], [UP]: [isc_rwlock_tryupgrade], [DG]:
    [isc_rwlock_downgrade], [RU], [UW]: [isc_rwlock_unlock]. The values that
    the thread has in its hands follow the name. *)
Inductive pc : Set :=
  | Idle | Reading | Writing
  | RL_req | RL_cmp (v : Z) | RL_lock | RL_req2 | RL_cmp2 (v : Z) | RL_inc | RL_sleep
  | RL_asleep | RL_awake | RL_dec | RL_unlock | RL_xadd
  | RL_test | RL_lock2 | RL_inc2 | RL_test2 | RL_sleep2 | RL_asleep2 | RL_awake2
  | RL_dec2 | RL_unlock2 | RL_done
  | WL_xadd | WL_test (prev_writer : Z) | WL_lock (prev_writer : Z)
  | WL_test2 (prev_writer : Z) | WL_sleep (prev_writer : Z) | WL_asleep (prev_writer : Z)
  | WL_awake (prev_writer : Z) | WL_unlock (prev_writer : Z) | WL_unlockb (prev_writer : Z)
  | WL_cas (prev_writer : Z) | WL_lock2 (prev_writer : Z) | WL_test3 (prev_writer : Z)
  | WL_sleep2 (prev_writer : Z) | WL_asleep2 (prev_writer : Z) | WL_awake2 (prev_writer : Z)
  | WL_unlock2 (prev_writer : Z) | WL_insist | WL_granted
  | RT_req | RT_cmp (v : Z) | RT_xadd | WT_cas | WT_dec
  | UP_cas | UP_dec
  | DG_xadd | DG_flag | DG_comp | DG_lock | DG_wake | DG_unlock
  | RU_xadd | RU_comp | RU_cmp (v : Z) | RU_lock | RU_bcast | RU_unlock
  | UW_flag | UW_comp | UW_quota | UW_req | UW_cmp (v : Z) | UW_readers | UW_lock | UW_wake
  | UW_unlock (wakeup_writers : bool) | UW_req2 (wakeup_writers : bool)
  | UW_cmp2 (v : Z) (wakeup_writers : bool) | UW_lock2 | UW_bcast | UW_unlock2.

#[export] Instance pc_eq_dec : EqDecision pc.
Proof. solve_decision. Defined.

(** The condition variables. *)
Inductive condition := readable | writeable.

(** What a step does: it may block, fail an assertion, or go on with a new
    state and program counter, and wake the sleepers of a condition. *)
Inductive outcome :=
  | Blocked | Fault | Go (s : rwlock) (p : pc) (broadcast : option condition).

Definition acquire (s : rwlock) (p : pc) : outcome :=
  if lock s then Blocked else Go (set_lock s true) p None.
Definition release (s : rwlock) (p : pc) : outcome := Go (set_lock s false) p None.

Definition writer_active (v : Z) : bool := bool_decide (Z.land v WRITER_ACTIVE ≠ 0).
Definition readers_in (v : Z) : bool := bool_decide (Z.land v (Z.lnot WRITER_ACTIVE) ≠ 0).

(** [isc_rwlock_lock]; reading first, then writing. *)
Definition lock_step (s : rwlock) (p : pc) : outcome :=
  match p with
  | RL_req => Go s (RL_cmp (write_requests s)) None
  | RL_cmp v => Go s (if bool_decide (v ≠ write_completions s) then RL_lock else RL_xadd) None
  | RL_lock => acquire s RL_req2
  | RL_req2 => Go s (RL_cmp2 (write_requests s)) None
  | RL_cmp2 v => Go s (if bool_decide (v ≠ write_completions s) then RL_inc else RL_unlock) None
  | RL_inc => Go (add_waiting s 1) RL_sleep None
  | RL_sleep => release s RL_asleep
  | RL_awake => acquire s RL_dec
  | RL_dec => Go (add_waiting s (-1)) RL_unlock None
  | RL_unlock => release s RL_xadd
  | RL_xadd => Go (add_cnt s READER_INCR) RL_test None
  | RL_test => Go s (if writer_active (cnt_and_flag s) then RL_lock2 else RL_done) None
  | RL_lock2 => acquire s RL_inc2
  | RL_inc2 => Go (add_waiting s 1) RL_test2 None
  | RL_test2 => Go s (if writer_active (cnt_and_flag s) then RL_sleep2 else RL_dec2) None
  | RL_sleep2 => release s RL_asleep2
  | RL_awake2 => acquire s RL_dec2
  | RL_dec2 => Go (add_waiting s (-1)) RL_unlock2 None
  | RL_unlock2 => release s RL_test
  | RL_done => Go (set_granted s 0) Reading None
  | WL_xadd => Go (add_requests s 1) (WL_test (write_requests s)) None
  | WL_test prev =>
      Go s (if bool_decide (write_completions s ≠ prev) then WL_lock prev else WL_cas prev) None
  | WL_lock prev => acquire s (WL_test2 prev)
  | WL_test2 prev =>
      Go s (if bool_decide (write_completions s ≠ prev) then WL_sleep prev
            else WL_unlockb prev) None
  | WL_sleep prev => release s (WL_asleep prev)
  | WL_awake prev => acquire s (WL_unlock prev)
  | WL_unlock prev => release s (WL_test prev)
  | WL_unlockb prev => release s (WL_cas prev)
  | WL_cas prev =>
      if bool_decide (cnt_and_flag s = 0)
      then Go (set_cnt s WRITER_ACTIVE) WL_insist None else Go s (WL_lock2 prev) None
  | WL_lock2 prev => acquire s (WL_test3 prev)
  | WL_test3 prev =>
      Go s (if bool_decide (cnt_and_flag s ≠ 0) then WL_sleep2 prev else WL_unlock2 prev) None
  | WL_sleep2 prev => release s (WL_asleep2 prev)
  | WL_awake2 prev => acquire s (WL_unlock2 prev)
  | WL_unlock2 prev => release s (WL_cas prev)
  | WL_insist => if writer_active (cnt_and_flag s) then Go s WL_granted None else Fault
  | WL_granted => Go (set_granted s (write_granted s + 1)) Writing None
  | _ => Blocked
  end.

(** [isc_rwlock_trylock]. A reader that finds a writer takes its request back with the
    code of [RU]; a writer that gets the flag ends like [isc_rwlock_lock]. *)
Definition trylock_step (s : rwlock) (p : pc) : outcome :=
  match p with
  | RT_req => Go s (RT_cmp (write_requests s)) None
  | RT_cmp v => Go s (if bool_decide (v ≠ write_completions s) then Idle else RT_xadd) None
  | RT_xadd =>
      Go (add_cnt s READER_INCR)
         (if writer_active (cnt_and_flag s) then RU_xadd else Reading) None
  | WT_cas =>
      if bool_decide (cnt_and_flag s = 0)
      then Go (set_cnt s WRITER_ACTIVE) WT_dec None else Go s Idle None
  | WT_dec => Go (add_completions s (-1)) WL_granted None
  | _ => Blocked
  end.

(** [isc_rwlock_tryupgrade] *)
Definition tryupgrade_step (s : rwlock) (p : pc) : outcome :=
  match p with
  | UP_cas =>
      let prevcnt := cnt_and_flag s in
      let s := if bool_decide (prevcnt = READER_INCR) then set_cnt s WRITER_ACTIVE else s in
      if negb (writer_active prevcnt) && readers_in prevcnt
      then Go s (if bool_decide (prevcnt = READER_INCR) then UP_dec else Reading) None
      else Fault
  | UP_dec => Go (add_completions s (-1)) Writing None
  | _ => Blocked
  end.

(** [isc_rwlock_downgrade] *)
Definition downgrade_step (s : rwlock) (p : pc) : outcome :=
  match p with
  | DG_xadd =>
      if writer_active (cnt_and_flag s) then Go (add_cnt s READER_INCR) DG_flag None else Fault
  | DG_flag => Go (add_cnt s (- WRITER_ACTIVE)) DG_comp None
  | DG_comp => Go (add_completions s 1) DG_lock None
  | DG_lock => acquire s DG_wake
  | DG_wake =>
      Go s DG_unlock (if bool_decide (readers_waiting s > 0) then Some readable else None)
  | DG_unlock => release s Reading
  | _ => Blocked
  end.

(** [isc_rwlock_unlock] *)
Definition unlock_step (s : rwlock) (p : pc) : outcome :=
  match p with
  | RU_xadd =>
      Go (add_cnt s (- READER_INCR))
         (if bool_decide (cnt_and_flag s = READER_INCR) then RU_comp else Idle) None
  | RU_comp => Go s (RU_cmp (write_completions s)) None
  | RU_cmp v => Go s (if bool_decide (v ≠ write_requests s) then RU_lock else Idle) None
  | RU_lock => acquire s RU_bcast
  | RU_bcast => Go s RU_unlock (Some writeable)
  | RU_unlock => release s Idle
  | UW_flag => Go (add_cnt s (- WRITER_ACTIVE)) UW_comp None
  | UW_comp => Go (add_completions s 1) UW_quota None
  | UW_quota =>
      Go s (if bool_decide (write_granted s >= write_quota s) then UW_lock else UW_req) None
  | UW_req => Go s (UW_cmp (write_requests s)) None
  | UW_cmp v => Go s (if bool_decide (v = write_completions s) then UW_lock else UW_readers) None
  | UW_readers => Go s (if readers_in (cnt_and_flag s) then UW_lock else UW_req2 true) None
  | UW_lock => acquire s UW_wake
  | UW_wake =>
      if bool_decide (readers_waiting s > 0) then Go s (UW_unlock false) (Some readable)
      else Go s (UW_unlock true) None
  | UW_unlock w => release s (UW_req2 w)
  | UW_req2 w => Go s (UW_cmp2 (write_requests s) w) None
  | UW_cmp2 v w =>
      Go s (if bool_decide (v ≠ write_completions s) && w then UW_lock2 else Idle) None
  | UW_lock2 => acquire s UW_bcast
  | UW_bcast => Go s UW_unlock2 (Some writeable)
  | UW_unlock2 => release s Idle
  | _ => Blocked
  end.

Definition tstep (s : rwlock) (p : pc) : outcome :=
  match lock_step s p with
  | Blocked =>
      match trylock_step s p with
      | Blocked =>
          match tryupgrade_step s p with
          | Blocked =>
              match downgrade_step s p with Blocked => unlock_step s p | o => o end
          | o => o
          end
      | o => o
      end
  | o => o
  end.

(** [BROADCAST]; a woken thread competes for the mutex. *)
Definition wake (c : condition) (p : pc) : pc :=
  match c, p with
  | readable, RL_asleep => RL_awake
  | readable, RL_asleep2 => RL_awake2
  | writeable, WL_asleep prev => WL_awake prev
  | writeable, WL_asleep2 prev => WL_awake2 prev
  | _, _ => p
  end.

Definition wake_all (b : option condition) (l : list pc) : list pc :=
  match b with Some c => wake c <$> l | None => l end.

(** What a client may call. *)
Inductive call : pc → pc → Prop :=
  | call_rdlock : call Idle RL_req
  | call_wrlock : call Idle WL_xadd
  | call_rdtrylock : call Idle RT_req
  | call_wrtrylock : call Idle WT_cas
  | call_tryupgrade : call Reading UP_cas
  | call_rdunlock : call Reading RU_xadd
  | call_downgrade : call Writing DG_xadd
  | call_wrunlock : call Writing UW_flag.

(** A step of thread [i] within the lock's code. *)
Inductive run : nat → rwlock * list pc → rwlock * list pc → Prop :=
  | run_step i s l p s' p' b :
      l !! i = Some p → tstep s p = Go s' p' b →
      run i (s, l) (s', wake_all b (<[i := p']> l)).

Inductive step : rwlock * list pc → rwlock * list pc → Prop :=
  | step_run i x y : run i x y → step x y
  | step_call i s l p p' : l !! i = Some p → call p p' → step (s, l) (s, <[i := p']> l)
  | step_spurious i s l p c : l !! i = Some p → step (s, l) (s, <[i := wake c p]> l).

Definition start (n : nat) (write_quota : Z) : rwlock * list pc :=
  (isc_rwlock_init write_quota, replicate n Idle).

(** ** Counting threads *)

(** Threads that count as readers, that hold the writer's flag, that have
    read access for sure, that hold the mutex, that wait as readers, and
    writers that have not completed. *)
Definition rd (p : pc) : Z :=
  match p with
  | RL_test | RL_lock2 | RL_inc2 | RL_test2 | RL_sleep2 | RL_asleep2 | RL_awake2 | RL_dec2
  | RL_unlock2 | RL_done | Reading | UP_cas | RU_xadd
  | DG_flag | DG_comp | DG_lock | DG_wake | DG_unlock => 1
  | _ => 0
  end.
Definition wr (p : pc) : Z :=
  match p with
  | WL_insist | WL_granted | WT_dec | UP_dec | Writing | DG_xadd | DG_flag | UW_flag => 1
  | _ => 0
  end.
Definition sure (p : pc) : Z :=
  match p with
  | RL_done | Reading | UP_cas | DG_comp | DG_lock | DG_wake | DG_unlock => 1
  | _ => 0
  end.
Definition hold (p : pc) : Z :=
  match p with
  | RL_req2 | RL_cmp2 _ | RL_inc | RL_sleep | RL_dec | RL_unlock | RL_inc2 | RL_test2
  | RL_sleep2 | RL_dec2 | RL_unlock2 | WL_test2 _ | WL_sleep _ | WL_unlock _ | WL_unlockb _
  | WL_test3 _ | WL_sleep2 _ | WL_unlock2 _ | DG_wake | DG_unlock | RU_bcast | RU_unlock
  | UW_wake | UW_unlock _ | UW_bcast | UW_unlock2 => 1
  | _ => 0
  end.
Definition waits (p : pc) : Z :=
  match p with
  | RL_sleep | RL_asleep | RL_awake | RL_dec
  | RL_test2 | RL_sleep2 | RL_asleep2 | RL_awake2 | RL_dec2 => 1
  | _ => 0
  end.

(** Writers in the queue have a ticket. *)
Definition ticket (p : pc) : option Z :=
  match p with
  | WL_test v | WL_lock v | WL_test2 v | WL_sleep v | WL_asleep v | WL_awake v | WL_unlock v
  | WL_unlockb v | WL_cas v | WL_lock2 v | WL_test3 v | WL_sleep2 v | WL_asleep2 v
  | WL_awake2 v | WL_unlock2 v => Some v
  | _ => None
  end.
Definition queued (p : pc) : Z := match ticket p with Some _ => 1 | None => 0 end.
Definition working (p : pc) : Z :=
  match p with
  | WL_insist | WL_granted | Writing | DG_xadd | DG_flag | DG_comp | UW_flag | UW_comp => 1
  | _ => 0
  end.

Definition total (f : pc → Z) (l : list pc) : Z := foldr (λ p, Z.add (f p)) 0 l.

Lemma total_cons f p l : total f (p :: l) = f p + total f l.
Proof. done. Qed.

Lemma total_insert f l i p q : l !! i = Some p → total f (<[i := q]> l) = total f l - f p + f q.
Proof.
  revert i. induction l as [|x l IH]; intros [|i] H; try done.
  - injection H as ->. change (<[0%nat := q]> (p :: l)) with (q :: l). rewrite !total_cons. lia.
  - change (<[S i := q]> (x :: l)) with (x :: <[i := q]> l).
    rewrite !total_cons, (IH i H). lia.
Qed.

Lemma total_wake f b l : (∀ c p, f (wake c p) = f p) → total f (wake_all b l) = total f l.
Proof.
  intros Hf. destruct b as [c|]; [|done]. cbn [wake_all]. induction l as [|x l IH]; [done|].
  rewrite fmap_cons, !total_cons, Hf, IH. done.
Qed.

Lemma total_nonneg f l : (∀ q, 0 <= f q) → 0 <= total f l.
Proof.
  intros Hf. induction l as [|x l IH]; [done|]. rewrite total_cons. specialize (Hf x). lia.
Qed.

Lemma total_le f l i p : (∀ q, 0 <= f q) → l !! i = Some p → f p <= total f l.
Proof.
  intros Hf. revert i. induction l as [|x l IH]; intros [|i] H; try done; rewrite total_cons.
  - injection H as ->. pose proof (total_nonneg f l Hf). lia.
  - specialize (IH _ H). specialize (Hf x). lia.
Qed.

Lemma total_le2 f l i j p q :
  (∀ q, 0 <= f q) → f Idle = 0 → i ≠ j → l !! i = Some p → l !! j = Some q →
  f p + f q <= total f l.
Proof.
  intros Hf H0 Hij Hi Hj. pose proof (total_insert f l i p Idle Hi) as E.
  assert (<[i := Idle]> l !! j = Some q) as Hj' by by rewrite list_lookup_insert_ne.
  pose proof (total_le f _ _ _ Hf Hj'). lia.
Qed.

Lemma total_pos f l : (∀ q, 0 <= f q) → 0 < total f l → ∃ i p, l !! i = Some p ∧ 0 < f p.
Proof.
  intros Hf. induction l as [|x l IH]; [done|]. rewrite total_cons. intros H.
  destruct (decide (0 < f x)); [by exists 0%nat, x|].
  destruct IH as (i & p & ? & ?); [lia|]. by exists (S i), p.
Qed.

Lemma total_zero f l : (∀ p, p ∈ l → f p = 0) → total f l = 0.
Proof.
  induction l as [|x l IH]; intros H; [done|]. rewrite total_cons, IH, H; set_solver.
Qed.

Lemma total_bound f l : (∀ q, f q <= 1) → total f l <= Z.of_nat (length l).
Proof.
  intros Hf. induction l as [|x l IH]; [done|]. rewrite total_cons. specialize (Hf x). cbn. lia.
Qed.

Lemma weights_nonneg :
  (∀ q, 0 <= rd q) ∧ (∀ q, 0 <= wr q) ∧ (∀ q, 0 <= sure q) ∧ (∀ q, 0 <= hold q) ∧
  (∀ q, 0 <= waits q) ∧ (∀ q, 0 <= queued q) ∧ (∀ q, 0 <= working q).
Proof. by split_and!; intros []. Qed.

Lemma weights_wake c p :
  rd (wake c p) = rd p ∧ wr (wake c p) = wr p ∧ sure (wake c p) = sure p ∧
  hold (wake c p) = hold p ∧ waits (wake c p) = waits p ∧ ticket (wake c p) = ticket p ∧
  queued (wake c p) = queued p ∧ working (wake c p) = working p.
Proof. by destruct c, p. Qed.

Definition pending (p : pc) : Z := queued p + working p.

Lemma pending_total l : total pending l = total queued l + total working l.
Proof. induction l as [|x l IH]; [done|]. rewrite !total_cons, IH. unfold pending. lia. Qed.

Lemma writer_active_spec n f : 0 <= f <= 1 → writer_active (2 * n + f) = bool_decide (f = 1).
Proof.
  intros Hf. unfold writer_active. apply bool_decide_ext. change WRITER_ACTIVE with (Z.ones 1).
  rewrite Z.land_ones by lia. change (2 ^ 1) with 2. dlia.
Qed.

Lemma readers_in_spec n f : 0 <= f <= 1 → readers_in (2 * n + f) = bool_decide (n ≠ 0).
Proof.
  intros Hf. unfold readers_in. apply bool_decide_ext.
  assert (Z.land (2 * n + f) (Z.lnot WRITER_ACTIVE) = 2 * n) as ->; [|lia].
  change (Z.land (2 * n + f) (Z.lnot WRITER_ACTIVE)) with (Z.land (2 * n + f) (Z.lnot (Z.ones 1))).
  rewrite <- Z.ldiff_land, Z.ldiff_ones_r by lia.
  rewrite Z.shiftr_div_pow2, Z.shiftl_mul_pow2 by lia. change (2 ^ 1) with 2. dlia.
Qed.

Lemma s32_small v : - 2 ^ 31 <= v < 2 ^ 31 → s32 v = v.
Proof. intros. unfold s32. dlia. Qed.

(** What a step is, for a given program counter. *)
Ltac step_unfold H :=
  cbv [tstep lock_step trylock_step tryupgrade_step downgrade_step unlock_step acquire release] in H.

(** Case analysis on a step. *)
Ltac step_cases H :=
  match type of H with
  | tstep ?s ?p = _ =>
      destruct p; step_unfold H; try discriminate H;
      repeat match type of H with
        | context [if ?c then _ else _] => destruct c eqn:?; try discriminate H
        | context [match (if ?c then _ else _) with _ => _ end] =>
            destruct c eqn:?; try discriminate H
        end;
      injection H as <- <- <-
  end.

(** What one step does to the counters and to the thread's share in them. *)
Lemma step_cnt s p s' p' b :
  tstep s p = Go s' p' b →
  let d := 2 * (rd p' - rd p) + (wr p' - wr p) in
  cnt_and_flag s' = cnt_and_flag s + d ∨ cnt_and_flag s' = s32 (cnt_and_flag s + d).
Proof.
  intros H. step_cases H; cbn; try (left; lia); try (right; f_equal; lia).
  all: try (match goal with B : bool_decide _ = true |- _ => apply bool_decide_eq_true in B end;
    left; rewrite ?B; unfold READER_INCR, WRITER_ACTIVE in *; lia).
Qed.

Lemma step_writer s p s' p' b :
  tstep s p = Go s' p' b →
  wr p' <= wr p ∨
  (wr p = 0 ∧ wr p' = 1 ∧ cnt_and_flag s = 2 * rd p ∧ rd p' = 0 ∧ sure p' = 0).
Proof.
  intros H. step_cases H; cbn; try (left; lia).
  all: match goal with B : bool_decide _ = true |- _ => apply bool_decide_eq_true in B end.
  all: right; unfold READER_INCR in *; lia.
Qed.

Lemma step_sure s p s' p' b :
  tstep s p = Go s' p' b →
  sure p' <= sure p ∨ (writer_active (cnt_and_flag s) = false ∧ wr p' = wr p) ∨
  (wr p = 1 ∧ wr p' = 0).
Proof.
  intros H. step_cases H; cbn; try (left; lia); try (right; right; lia).
  all: right; left; done.
Qed.

Lemma step_hold s p s' p' b :
  tstep s p = Go s' p' b →
  (lock s' = lock s ∧ hold p' = hold p) ∨
  (lock s = false ∧ lock s' = true ∧ hold p = 0 ∧ hold p' = 1) ∨
  (lock s' = false ∧ hold p = 1 ∧ hold p' = 0).
Proof. intros H. step_cases H; cbn; naive_solver. Qed.

Lemma step_waits s p s' p' b :
  tstep s p = Go s' p' b →
  let d := waits p' - waits p in
  readers_waiting s' = readers_waiting s + d ∨ readers_waiting s' = u32 (readers_waiting s + d).
Proof. intros H. step_cases H; cbn; first [left; lia|right; f_equal; lia]. Qed.

Lemma step_counters s p s' p' b :
  tstep s p = Go s' p' b →
  (write_requests s' = write_requests s ∧ write_completions s' = write_completions s ∧
   pending p' = pending p) ∨
  (write_requests s' = s32 (write_requests s + 1) ∧
   write_completions s' = write_completions s ∧ pending p' = pending p + 1) ∨
  (write_requests s' = write_requests s ∧
   write_completions s' = s32 (write_completions s + (pending p - pending p'))).
Proof. intros H. step_cases H; cbn; naive_solver lia. Qed.

(** ** The invariant *)

Record inv (x : rwlock * list pc) : Prop := Inv {
  i_threads : Z.of_nat (length x.2) < 2 ^ 30;
  i_cnt : cnt_and_flag x.1 = 2 * total rd x.2 + total wr x.2;
  i_wr : total wr x.2 <= 1;
  i_sure : total wr x.2 = 1 → total sure x.2 = 0;
  i_hold : total hold x.2 = (if lock x.1 then 1 else 0);
  i_waits : readers_waiting x.1 = total waits x.2;
  i_req : s32 (write_requests x.1) = write_requests x.1;
  i_comp : s32 (write_completions x.1) = write_completions x.1;
  i_pending : (write_requests x.1 - write_completions x.1) mod 2 ^ 32 = total pending x.2 }.

Lemma weights_bound :
  (∀ q, rd q <= 1) ∧ (∀ q, wr q <= 1) ∧ (∀ q, sure q <= rd q) ∧ (∀ q, hold q <= 1) ∧
  (∀ q, waits q <= 1) ∧ (∀ q, pending q <= 1).
Proof. by split_and!; intros []. Qed.

Lemma total_mono f g l : (∀ q, f q <= g q) → total f l <= total g l.
Proof.
  intros Hf. induction l as [|x l IH]; [done|]. rewrite !total_cons. specialize (Hf x). lia.
Qed.

Lemma inv_start n q : Z.of_nat n < 2 ^ 30 → inv (start n q).
Proof.
  intros Hn.
  assert (∀ f, f Idle = 0 → total f (replicate n Idle) = 0) as H0.
  { intros f Hf. apply total_zero. intros p Hp. apply elem_of_replicate in Hp as [-> _]. done. }
  split; cbn [start fst snd]; rewrite ?length_replicate, ?H0 by done; lia || done.
Qed.

(** Replacing a thread by one with the same weights. *)
Lemma inv_same s l i p p' :
  inv (s, l) → l !! i = Some p → rd p' = rd p → wr p' = wr p → sure p' <= sure p →
  hold p' = hold p → waits p' = waits p → pending p' = pending p → inv (s, <[i := p']> l).
Proof.
  intros [H1 H2 H3 H4 H5 H6 H7 H8 H9] Hi. cbn [fst snd] in *. intros.
  pose proof (λ f, total_insert f l i p p' Hi) as Ht.
  split; cbn [fst snd]; rewrite ?length_insert, ?(Ht rd), ?(Ht wr), ?(Ht sure), ?(Ht hold), ?(Ht waits),
    ?(Ht pending); try done; try lia.
  intros Hw. destruct weights_nonneg as (_ & _ & Ns & _).
  pose proof (total_nonneg sure (<[i := p']> l) Ns). rewrite (Ht sure) in *. lia.
Qed.

Lemma inv_wake s l b : inv (s, l) → inv (s, wake_all b l).
Proof.
  intros [H1 H2 H3 H4 H5 H6 H7 H8 H9]. cbn [fst snd] in *.
  assert (length (wake_all b l) = length l) as Hl by (destruct b; [apply length_fmap|done]).
  assert (∀ c p, pending (wake c p) = pending p) as Hp.
  { intros c p. unfold pending. by destruct (weights_wake c p) as (_&_&_&_&_&_&->&->). }
  split; cbn [fst snd]; rewrite ?Hl, ?(total_wake rd), ?(total_wake wr), ?(total_wake sure),
    ?(total_wake hold), ?(total_wake waits), ?(total_wake pending) by (apply weights_wake || done);
    done.
Qed.

Lemma inv_step s l i p s' p' b :
  inv (s, l) → l !! i = Some p → tstep s p = Go s' p' b → inv (s', <[i := p']> l).
Proof.
  intros [H1 H2 H3 H4 H5 H6 H7 H8 H9] Hi Hs. cbn [fst snd] in *.
  pose proof (λ f, total_insert f l i p p' Hi) as Ht.
  destruct weights_nonneg as (Nrd & Nwr & Nsure & Nhold & Nwaits & Nq & Nw).
  destruct weights_bound as (Brd & Bwr & Bsure & Bhold & Bwaits & Bp).
  pose proof (total_bound rd l Brd). pose proof (total_bound waits l Bwaits).
  pose proof (total_bound pending l Bp).
  assert (length (<[i := p']> l) = length l) as Hlen by apply length_insert.
  pose proof (total_bound rd (<[i := p']> l) Brd) as Tr.
  pose proof (total_bound waits (<[i := p']> l) Bwaits) as Tw.
  pose proof (total_bound pending (<[i := p']> l) Bp) as Tp.
  pose proof (total_nonneg rd (<[i := p']> l) Nrd). pose proof (total_nonneg wr (<[i := p']> l) Nwr).
  pose proof (total_nonneg waits (<[i := p']> l) Nwaits). pose proof (total_nonneg wr l Nwr).
  pose proof (total_le rd l i p Nrd Hi). pose proof (total_le wr l i p Nwr Hi).
  pose proof (total_mono _ _ (<[i := p']> l) Bsure) as Tsure.
  pose proof (total_nonneg sure (<[i := p']> l) Nsure). pose proof (total_nonneg sure l Nsure).
  rewrite Hlen in *.
  pose proof (Ht rd) as Trd. pose proof (Ht wr) as Twr. pose proof (Ht sure) as Tsu.
  pose proof (Ht hold) as Tho. pose proof (Ht waits) as Twa. pose proof (Ht pending) as Tpe.
  assert (total wr (<[i := p']> l) <= 1) as Hwr.
  { destruct (step_writer _ _ _ _ _ Hs); lia. }
  split; cbn [fst snd].
  - lia.
  - destruct (step_cnt _ _ _ _ _ Hs) as [->| ->]; [lia|]. rewrite s32_small; lia.
  - done.
  - intros Hw. destruct (step_writer _ _ _ _ _ Hs) as [Hle|?]; [|lia].
    destruct (step_sure _ _ _ _ _ Hs) as [?|[[Ha ?]|?]]; [|rewrite H2, writer_active_spec in Ha by lia|].
    + assert (wr p' = wr p) by (specialize (Nwr p'); lia). lia.
    + apply bool_decide_eq_false in Ha. lia.
    + lia.
  - destruct (step_hold _ _ _ _ _ Hs) as [[-> ?]|[(E & -> & ? & ?)|(-> & ? & ?)]]; [lia| |].
    + rewrite E in *. lia.
    + pose proof (total_le hold l i p Nhold Hi). destruct (lock s); lia.
  - destruct (step_waits _ _ _ _ _ Hs) as [->| ->]; [lia|]. rewrite u32_small; lia.
  - destruct (step_counters _ _ _ _ _ Hs) as [(-> & _)|[(-> & _)|(-> & _)]]; [done| |done].
    unfold s32. dlia.
  - destruct (step_counters _ _ _ _ _ Hs) as [(_ & -> & _)|[(_ & -> & _)|(_ & ->)]]; [done..|].
    unfold s32. dlia.
  - assert (∀ q, 0 <= pending q) as Np by by intros [].
    pose proof (total_nonneg pending _ Np : 0 <= total pending (<[i := p']> l)).
    destruct (step_counters _ _ _ _ _ Hs) as [(-> & -> & ?)|[(-> & -> & ?)|(-> & ->)]]; [lia| |];
      unfold s32; dlia.
Qed.

Abbreviation reachable n q := (rtc step (start n q)).

Lemma inv_steps x y : rtc step x y → inv x → inv y.
Proof.
  induction 1 as [|x y z Hxy _ IH]; [done|]. intros Hx. apply IH. clear IH.
  destruct Hxy as [i x y Hrun|i s l p p' Hp Hc|i s l p c Hp].
  - destruct Hrun as [i s l p s' p' b Hp Hs]. apply inv_wake. by eapply inv_step.
  - destruct Hc; by eapply inv_same.
  - destruct (weights_wake c p) as (?&?&?&?&?&?&?&?). eapply inv_same; try done; [lia|].
    unfold pending. congruence.
Qed.

Lemma inv_reachable n q x : Z.of_nat n < 2 ^ 30 → reachable n q x → inv x.
Proof. intros Hn Hr. apply (inv_steps _ _ Hr). by apply inv_start. Qed.

Lemma no_fault s l p : inv (s, l) → p ∈ l → tstep s p ≠ Fault.
Proof.
  intros [H1 H2 H3 H4 H5 H6 H7 H8 H9] [i Hi]%list_elem_of_lookup Hf. cbn [fst snd] in *.
  destruct weights_nonneg as (Nrd & Nwr & Nsure & _).
  destruct weights_bound as (_ & _ & Bsure & _).
  pose proof (total_nonneg wr l Nwr).
  pose proof (total_le wr l i _ Nwr Hi) as Hw. pose proof (total_le sure l i _ Nsure Hi) as Hs.
  pose proof (total_mono _ _ l Bsure) as Hm.
  destruct p; step_unfold Hf; try discriminate Hf;
    cbn [wr sure] in *; try (destruct (lock s); discriminate Hf);
    try (case_bool_decide; discriminate Hf).
  all: rewrite H2, ?writer_active_spec, ?readers_in_spec in Hf by lia.
  all: try by rewrite bool_decide_true in Hf by lia.
  rewrite (bool_decide_false (total wr l = 1)), (bool_decide_true (total rd l ≠ 0)) in Hf by lia.
  by case_bool_decide.
Qed.

(** C9: mutual exclusion. Whatever the threads call and however their steps
    interleave, while a thread is writing no other thread is reading or
    writing; no assertion of the lock's code ever fails; and when no thread
    uses the lock, it may be destroyed. *)
Theorem rwlock_exclusion n q s l :
  Z.of_nat n < 2 ^ 30 → reachable n q (s, l) →
  (∀ i j p, i ≠ j → l !! i = Some Writing → l !! j = Some p → p ≠ Reading ∧ p ≠ Writing) ∧
  (∀ p, p ∈ l → tstep s p ≠ Fault) ∧
  ((∀ p, p ∈ l → p = Idle) → isc_rwlock_destroy_ok s = true).
Proof.
  intros Hn Hr. apply inv_reachable in Hr as Hinv; [|done].
  pose proof Hinv as [H1 H2 H3 H4 H5 H6 H7 H8 H9].
  cbn [fst snd] in *. destruct weights_nonneg as (Nrd & Nwr & Nsure & _).
  split; [|split; [intros p; by apply no_fault|]].
  - intros i j p Hij Hi Hj. split; intros ->.
    + pose proof (total_le wr l i _ Nwr Hi). pose proof (total_le sure l j _ Nsure Hj).
      cbn [wr sure] in *. rewrite H4 in *; lia.
    + pose proof (total_le2 wr l i j _ _ Nwr eq_refl Hij Hi Hj) as Hw. cbn [wr] in Hw. lia.
  - intros Hidle.
    assert (∀ f, f Idle = 0 → total f l = 0) as Hz.
    { intros f Hf. apply total_zero. intros p ->%Hidle. done. }
    unfold isc_rwlock_destroy_ok. rewrite H2, H6, !Hz by done.
    rewrite (Hz pending) in H9 by done. rewrite <- H7, <- H8. unfold s32 in *.
    rewrite bool_decide_true; [done|]. dlia.
Qed.

(** ** No lost wake-ups

    Three groups of sleepers and who will wake them: readers that count as
    readers ([sleepsB]), readers that came while writers were waiting
    ([sleepsA]; or are about to sleep because of an old value of
    [write_requests]), and writers whose turn it is ([stuck]). *)

Definition ind (P : bool) : Z := if P then 1 else 0.

Definition sleepsB (p : pc) : Z := match p with RL_sleep2 | RL_asleep2 => 1 | _ => 0 end.
Definition wakesB (p : pc) : Z :=
  match p with
  | UW_comp | UW_quota | UW_req | UW_cmp _ | UW_readers | UW_lock | UW_wake
  | DG_comp | DG_lock | DG_wake => 1
  | _ => 0
  end.

Definition sleepsA (requests : Z) (p : pc) : Z :=
  match p with
  | RL_inc | RL_sleep | RL_asleep => 1
  | RL_cmp2 v => ind (bool_decide (v ≠ requests))
  | _ => 0
  end.
Definition wakesA (completions : Z) (p : pc) : Z :=
  match p with
  | UW_quota | UW_req | UW_lock | UW_wake | DG_lock | DG_wake => 1
  | UW_cmp v => ind (bool_decide (v = completions))
  | _ => 0
  end.

Definition stuck (completions : Z) (p : pc) : Z :=
  match p with
  | WL_sleep v | WL_asleep v => ind (bool_decide (v = completions))
  | WL_sleep2 _ | WL_asleep2 _ => 1
  | _ => 0
  end.
(** Threads that will wake the writers, or become readers that will. *)
Definition helps (completions : Z) (p : pc) : Z :=
  match p with
  | UW_comp | UW_quota | UW_req | UW_cmp _ | UW_readers | UW_lock | UW_wake
  | UW_unlock true | UW_req2 true | UW_lock2 | UW_bcast
  | RU_comp | RU_lock | RU_bcast | RL_awake | RL_dec | RL_unlock | RL_xadd => 1
  | UW_cmp2 v true => ind (bool_decide (v ≠ completions))
  | RU_cmp v => ind (bool_decide (v = completions))
  | _ => 0
  end.

(** Writers that have seen that it is their turn. *)
Definition past (p : pc) : bool :=
  match p with
  | WL_unlockb _ | WL_cas _ | WL_lock2 _ | WL_test3 _ | WL_sleep2 _ | WL_asleep2 _
  | WL_awake2 _ | WL_unlock2 _ => true
  | _ => false
  end.

(** How far behind the newest ticket a ticket is. *)
Definition behind (requests v : Z) : Z := (requests - 1 - v) mod 2 ^ 32.

Record inv2 (x : rwlock * list pc) : Prop := Inv2 {
  w_inv : inv x;
  w_B : 0 < total sleepsB x.2 → total wr x.2 = 1 ∨ 0 < total wakesB x.2;
  w_A : 0 < total (sleepsA (write_requests x.1)) x.2 →
    0 < total pending x.2 ∨ 0 < total (wakesA (write_completions x.1)) x.2;
  w_W : 0 < total (stuck (write_completions x.1)) x.2 →
    cnt_and_flag x.1 ≠ 0 ∨ 0 < total (helps (write_completions x.1)) x.2;
  w_tickets : behind (write_requests x.1) <$> omap ticket x.2 ≡ₚ seqZ 0 (total queued x.2);
  w_small : ∀ v, v ∈ omap ticket x.2 → s32 v = v;
  w_past : ∀ p v, p ∈ x.2 → past p = true → ticket p = Some v →
    behind (write_requests x.1) v = total queued x.2 - 1 }.

Lemma ind_range P : 0 <= ind P <= 1.
Proof. destruct P; cbn; lia. Qed.

Lemma wake_weights_nonneg :
  (∀ q, 0 <= sleepsB q) ∧ (∀ q, 0 <= wakesB q) ∧ (∀ r q, 0 <= sleepsA r q) ∧
  (∀ c q, 0 <= wakesA c q) ∧ (∀ c q, 0 <= stuck c q) ∧ (∀ c q, 0 <= helps c q).
Proof.
  split_and!; intros; destruct q; cbn; try done; try apply ind_range; by destruct wakeup_writers;
    try apply ind_range.
Qed.

(** Two threads cannot hold the mutex. *)
Lemma hold_unique s l i j p q :
  inv (s, l) → l !! i = Some p → l !! j = Some q → hold p = 1 → hold q = 1 → i = j.
Proof.
  intros Hi Hp Hq H1 H2. destruct (decide (i = j)) as [|Hij]; [done|].
  destruct weights_nonneg as (_ & _ & _ & Nh & _).
  pose proof (total_le2 hold l i j p q Nh eq_refl Hij Hp Hq).
  pose proof (i_hold _ Hi) as Hh. cbn [fst snd] in Hh. destruct (lock s); lia.
Qed.

(** After a broadcast by the holder of the mutex nobody sleeps on the
    condition or is about to. *)
Lemma broadcast_none f c s l i p p' :
  inv (s, l) → l !! i = Some p → hold p = 1 → f (wake c p') = 0 →
  (∀ q, f (wake c q) = 0 ∨ hold q = 1) → total f (wake_all (Some c) (<[i := p']> l)) = 0.
Proof.
  intros Hi Hp Hh Hp' Hf. apply total_zero. intros x [q [-> Hq]]%list_elem_of_fmap.
  apply list_elem_of_lookup in Hq as [j Hj]. destruct (decide (i = j)) as [<-|Hij].
  { apply list_lookup_insert_Some in Hj as [(_ & <- & _)|[? _]]; done. }
  rewrite list_lookup_insert_ne in Hj by done.
  destruct (Hf q) as [|Hq]; [done|]. by destruct Hij; eapply hold_unique.
Qed.

(** Nobody waits as a reader but who holds the mutex. *)
Lemma waiting_none f s l i p p' :
  inv (s, l) → l !! i = Some p → hold p = 1 → f p' = 0 → readers_waiting s <= 0 →
  (∀ q, f q = 0 ∨ hold q = 1 ∨ waits q = 1) → total f (<[i := p']> l) = 0.
Proof.
  intros Hi Hp Hh Hp' Hw Hf. apply total_zero. intros q Hq.
  apply list_elem_of_lookup in Hq as [j Hj]. destruct (decide (i = j)) as [<-|Hij].
  { apply list_lookup_insert_Some in Hj as [(_ & <- & _)|[? _]]; done. }
  rewrite list_lookup_insert_ne in Hj by done.
  destruct (Hf q) as [|[Hq|Hq]]; [done|by destruct Hij; eapply hold_unique|].
  pose proof (i_waits _ Hi) as E. cbn [fst snd] in E.
  destruct weights_nonneg as (_ & _ & _ & _ & Nw & _).
  pose proof (total_le waits l j q Nw Hj). lia.
Qed.

Lemma total_wake_le f b l : (∀ c p, f (wake c p) <= f p) → total f (wake_all b l) <= total f l.
Proof.
  intros Hf. destruct b as [c|]; [|done]. cbn [wake_all]. induction l as [|x l IH]; [done|].
  rewrite fmap_cons, !total_cons. specialize (Hf c x). lia.
Qed.

(** *** Readers that count *)

Lemma step_sleepsB s p s' p' b :
  tstep s p = Go s' p' b →
  sleepsB p' <= sleepsB p ∨ (writer_active (cnt_and_flag s) = true ∧ wr p' = wr p).
Proof. intros H. step_cases H; cbn; first [left; lia|right; done]. Qed.

Lemma step_flag_wakesB s p s' p' b :
  tstep s p = Go s' p' b → wr p <= wr p' ∨ wakesB p' = 1.
Proof. intros H. step_cases H; cbn; first [left; lia|right; done]. Qed.

Lemma step_wakesB s p s' p' b :
  tstep s p = Go s' p' b →
  wakesB p <= wakesB p' ∨
  (readers_in (cnt_and_flag s) = false ∧ sleepsB p' <= sleepsB p) ∨
  (hold p = 1 ∧ sleepsB p' = 0 ∧ (b = Some readable ∨ b = None ∧ readers_waiting s <= 0)).
Proof.
  intros H. step_cases H; cbn; try (left; lia); try (right; left; split; [done|lia]).
  all: right; right; split; [done|split; [done|]].
  all: case_bool_decide; try done; auto with lia.
Qed.

Lemma keep_B s l i p s' p' b :
  inv2 (s, l) → l !! i = Some p → tstep s p = Go s' p' b →
  0 < total sleepsB (wake_all b (<[i := p']> l)) →
  total wr (wake_all b (<[i := p']> l)) = 1 ∨ 0 < total wakesB (wake_all b (<[i := p']> l)).
Proof.
  intros [Hinv HB _ _ _ _ _] Hi Hs. cbn [fst snd] in *.
  rewrite (total_wake wr), (total_wake wakesB) by (apply weights_wake || by intros [] []).
  pose proof (total_wake_le sleepsB b (<[i := p']> l)) as Hle.
  pose proof (λ f, total_insert f l i p p' Hi) as Ht.
  pose proof (Ht sleepsB) as TB. pose proof (Ht wr) as Tw. pose proof (Ht wakesB) as TW.
  destruct wake_weights_nonneg as (NB & NW & _).
  assert (0 <= total wr (<[i := p']> l) <= 1) as Hwr.
  { pose proof (inv_step _ _ _ _ _ _ _ Hinv Hi Hs) as [_ _ H _ _ _ _ _ _]. split; [|exact H].
    apply total_nonneg, weights_nonneg. }
  pose proof Hinv as [_ Hcnt Hwr0 _ _ _ _ _ _]. cbn [fst snd] in *.
  pose proof (total_nonneg wr l ltac:(apply weights_nonneg)).
  pose proof (total_nonneg wakesB l NW). pose proof (total_nonneg wakesB (<[i := p']> l) NW).
  intros Hpos. assert (∀ c q, sleepsB (wake c q) <= sleepsB q) as Hw by by intros [] [].
  specialize (Hle Hw). destruct (decide (wakesB p' = 1)); [right; pose proof (total_le wakesB l i p NW Hi); lia|].
  destruct (decide (total wr (<[i := p']> l) = 1)) as [|Hn]; [by left|]. right.
  assert (0 < total sleepsB l → 0 < total wakesB l) as Hold.
  { intros Hl. destruct (HB Hl) as [?|?]; [|done].
    destruct (step_flag_wakesB _ _ _ _ _ Hs); lia. }
  destruct (step_sleepsB _ _ _ _ _ Hs) as [Hsl|[Ha Hf]]; last first.
  { rewrite Hcnt, writer_active_spec in Ha by lia. apply bool_decide_eq_true in Ha. lia. }
  assert (0 < total wakesB l) by (apply Hold; lia).
  destruct (step_wakesB _ _ _ _ _ Hs) as [?|[[Hr _]|(Hh & Hp' & [->|[-> Hrw]])]]; [lia| | |].
  - rewrite Hcnt, readers_in_spec in Hr by lia. apply bool_decide_eq_false in Hr.
    pose proof (total_mono sleepsB rd l ltac:(by intros [])). lia.
  - rewrite (broadcast_none sleepsB readable s l i p p' Hinv Hi Hh) in Hpos; [lia| |].
    + specialize (Hw readable p'). specialize (NB (wake readable p')). lia.
    + intros []; auto.
  - cbn [wake_all] in *.
    rewrite (waiting_none sleepsB s l i p p' Hinv Hi Hh Hp' Hrw) in Hpos; [lia|].
    intros []; auto.
Qed.

(** *** Readers that came while writers were there *)

Lemma step_still s p s' p' b :
  tstep s p = Go s' p' b →
  (write_requests s' = write_requests s ∧ write_completions s' = write_completions s ∧
   pending p' = pending p) ∨
  0 < pending p' ∨
  (∀ c, wakesA c p' = 1 ∧ (helps c p' = 1 ∨ rd p' = 1)).
Proof.
  intros H. step_cases H; cbn; first [by left|by right; left|right; right; auto].
Qed.

Lemma step_sleepsA s p s' p' b :
  tstep s p = Go s' p' b → write_requests s = write_completions s →
  sleepsA (write_requests s) p' <= sleepsA (write_requests s) p.
Proof.
  intros H E. step_cases H; cbn; try lia; rewrite ?E.
  all: try (rewrite bool_decide_false by naive_solver; done).
  all: repeat match goal with B : bool_decide _ = _ |- _ => rewrite B end; cbn; lia || done.
Qed.

Lemma step_wakesA s p s' p' b :
  tstep s p = Go s' p' b → write_requests s = write_completions s →
  let c := write_completions s in
  wakesA c p <= wakesA c p' ∨
  (hold p = 1 ∧ sleepsA (write_requests s') p' = 0 ∧
   (b = Some readable ∨ b = None ∧ readers_waiting s <= 0)).
Proof.
  intros H E. step_cases H; cbn; try (left; lia).
  all: try (left; rewrite bool_decide_true by congruence; done).
  all: try (left; repeat match goal with B : bool_decide _ = _ |- _ => rewrite B end; done).
  all: right; split; [done|split; [done|]].
  all: case_bool_decide; try done; auto with lia.
Qed.

Lemma no_pending s l :
  inv (s, l) → total pending l = 0 → write_requests s = write_completions s.
Proof.
  intros [_ _ _ _ _ _ H7 H8 H9] Hp. cbn [fst snd] in *. rewrite Hp in H9.
  unfold s32 in *. dlia.
Qed.

Lemma keep_A s l i p s' p' b :
  inv2 (s, l) → l !! i = Some p → tstep s p = Go s' p' b →
  let L := wake_all b (<[i := p']> l) in
  0 < total (sleepsA (write_requests s')) L →
  0 < total pending L ∨ 0 < total (wakesA (write_completions s')) L.
Proof.
  intros [Hinv _ HA _ _ _ _] Hi Hs L. cbn [fst snd] in *. subst L.
  assert (∀ c q, pending (wake c q) = pending q) as Hpw by by intros [] [].
  rewrite (total_wake pending), (total_wake (wakesA _)) by (done || by intros [] []).
  assert (∀ q, 0 <= pending q) as Np by by intros [].
  destruct wake_weights_nonneg as (_ & _ & NA & NW & _).
  assert (l !! i = Some p → (<[i := p']> l) !! i = Some p') as Hi'.
  { intros Hl%lookup_lt_Some. by apply list_lookup_insert_eq. }
  specialize (Hi' Hi).
  pose proof (total_le pending _ i p' Np Hi'). intros Hpos.
  destruct (step_still _ _ _ _ _ Hs) as [(Er & Ec & Ep)|[?|Hw]]; [|left; lia|right].
  2: { destruct (Hw (write_completions s')) as [Hw1 _].
       pose proof (total_le (wakesA (write_completions s')) _ i p' (NW _) Hi'). lia. }
  pose proof (λ f, total_insert f l i p p' Hi) as Ht.
  destruct (decide (0 < total pending (<[i := p']> l))) as [|Hz]; [by left|]. right.
  pose proof (total_nonneg pending l Np).
  assert (total pending l = 0) as Hp0 by (rewrite (Ht pending) in *; lia).
  pose proof (no_pending _ _ Hinv Hp0) as Erc.
  rewrite Er in Hpos. rewrite Ec.
  assert (∀ c q, sleepsA (write_requests s) (wake c q) <= sleepsA (write_requests s) q) as Hw
    by by intros [] [].
  pose proof (total_wake_le _ b (<[i := p']> l) Hw) as Hle.
  pose proof (step_sleepsA _ _ _ _ _ Hs Erc) as Hsl.
  pose proof (Ht (sleepsA (write_requests s))) as TA.
  pose proof (Ht (wakesA (write_completions s))) as TW.
  destruct HA as [?|Hold]; [lia|lia|].
  destruct (step_wakesA _ _ _ _ _ Hs Erc) as [?|(Hh & Hp' & [->|[-> Hrw]])]; [lia| |];
    rewrite Er in Hp'.
  - rewrite (broadcast_none _ readable s l i p p' Hinv Hi Hh) in Hpos; [lia| |].
    + specialize (Hw readable p'). specialize (NA (write_requests s) (wake readable p')). lia.
    + intros []; auto.
  - cbn [wake_all] in *.
    rewrite (waiting_none _ s l i p p' Hinv Hi Hh Hp' Hrw) in Hpos; [lia|].
    intros []; auto.
Qed.

(** *** Writers whose turn it is *)

Lemma step_stuck s p s' p' b :
  tstep s p = Go s' p' b → cnt_and_flag s = 0 →
  stuck (write_completions s) p' <= stuck (write_completions s) p.
Proof.
  intros H E. step_cases H; cbn; try lia; try apply ind_range.
  all: repeat match goal with B : bool_decide _ = true |- _ => apply bool_decide_eq_true in B end.
  all: try (rewrite bool_decide_false by congruence; done).
  all: done.
Qed.

Lemma step_comp s p s' p' b :
  tstep s p = Go s' p' b →
  write_completions s' = write_completions s ∨ (∀ c, helps c p' = 1) ∨ 0 < rd p' + wr p'.
Proof. intros H. step_cases H; cbn; first [by left|right; left; done|right; right; lia]. Qed.

Lemma step_zero s p s' p' b :
  tstep s p = Go s' p' b →
  cnt_and_flag s' = cnt_and_flag s ∨ (∀ c, helps c p' = 1) ∨ 0 < rd p' + wr p' ∨
  (rd p = 1 ∧ rd p' = 0 ∧ wr p = 0 ∧ wr p' = 0 ∧ cnt_and_flag s ≠ READER_INCR).
Proof.
  intros H. step_cases H; cbn; try (by left); try (right; left; done);
    try (right; right; left; lia).
  all: repeat match goal with B : bool_decide _ = false |- _ => apply bool_decide_eq_false in B end.
  all: by right; right; right.
Qed.

Lemma step_helps s p s' p' b :
  tstep s p = Go s' p' b → write_requests s ≠ write_completions s →
  let c := write_completions s in
  helps c p <= helps c p' ∨ 0 < rd p' + wr p' ∨
  (hold p = 1 ∧ stuck c p' = 0 ∧ b = Some writeable) ∨
  (hold p = 1 ∧ waits p = 0 ∧ b = Some readable ∧ 0 < readers_waiting s).
Proof.
  intros H E. step_cases H; cbn; try (left; lia); try (right; left; lia).
  all: try (left; rewrite bool_decide_true by congruence; done).
  all: repeat match goal with
    | B : bool_decide _ = false |- _ => apply bool_decide_eq_false in B
    | B : bool_decide _ = true |- _ => apply bool_decide_eq_true in B
    end.
  all: try (right; right; left; done).
  all: try (right; right; right; repeat split; lia || done).
  all: left.
  - apply ind_range.
  - rewrite bool_decide_false; [done|]. intros ->. auto.
  - destruct wakeup_writers; [apply ind_range|done].
  - destruct wakeup_writers; [|done].
    match goal with B : _ && true = false |- _ => rewrite andb_true_r in B; by rewrite B end.
Qed.

Lemma keep_W s l i p s' p' b :
  inv2 (s, l) → l !! i = Some p → tstep s p = Go s' p' b →
  let L := wake_all b (<[i := p']> l) in
  0 < total (stuck (write_completions s')) L →
  cnt_and_flag s' ≠ 0 ∨ 0 < total (helps (write_completions s')) L.
Proof.
  intros [Hinv _ _ HW _ _ _] Hi Hs L Hpos. cbn [fst snd] in *.
  pose proof (inv_step _ _ _ _ _ _ _ Hinv Hi Hs) as Hinv'.
  destruct wake_weights_nonneg as (_ & _ & _ & _ & NS & NH).
  destruct weights_nonneg as (Nrd & Nwr & _ & _ & Nwaits & Nq & Nw).
  assert (<[i := p']> l !! i = Some p') as Hi'.
  { apply lookup_lt_Some in Hi. by apply list_lookup_insert_eq. }
  destruct (decide (cnt_and_flag s' = 0)) as [Hz|]; [right|by left].
  pose proof (i_cnt _ Hinv) as Ec. pose proof (i_cnt _ Hinv') as Ec'. cbn [fst snd] in *.
  pose proof (total_le rd _ i p' Nrd Hi'). pose proof (total_le wr _ i p' Nwr Hi').
  pose proof (total_le rd _ i p Nrd Hi). pose proof (total_le wr _ i p Nwr Hi).
  pose proof (Nrd p'). pose proof (Nwr p').
  pose proof (λ f, total_insert f l i p p' Hi) as Ht.
  pose proof (Ht rd) as Trd. pose proof (Ht wr) as Twr.
  set (c' := write_completions s') in *.
  assert (∀ f, (∀ c q, f q <= f (wake c q)) → total f (<[i := p']> l) <= total f L) as Hup.
  { intros f Hf. subst L. destruct b as [c|]; [|done]. cbn [wake_all].
    generalize (<[i := p']> l). intros l0. induction l0 as [|x l0 IH]; [done|].
    rewrite fmap_cons, !total_cons. specialize (Hf c x). lia. }
  assert (∀ c q, helps c' q <= helps c' (wake c q)) as Hhw by (by intros [] []).
  specialize (Hup (helps c') Hhw).
  assert (helps c' p' = 1 → 0 < total (helps c') L) as Hhelp.
  { intros E. pose proof (total_le (helps c') _ i p' (NH c') Hi'). lia. }
  destruct (step_comp _ _ _ _ _ Hs) as [Ecomp|[Hh|?]]; [|by apply Hhelp|lia].
  assert (c' = write_completions s) as Ec0 by exact Ecomp. rewrite Ec0 in *. clear c' Ec0.
  destruct (step_zero _ _ _ _ _ Hs) as [Ecnt|[Hh|[?|Hru]]]; [|by apply Hhelp|lia|].
  2: { unfold READER_INCR in Hru. lia. }
  rewrite Hz in Ecnt.
  pose proof (step_stuck _ _ _ _ _ Hs (eq_sym Ecnt)) as Hst.
  assert (∀ c q, stuck (write_completions s) (wake c q) <= stuck (write_completions s) q) as Hsw
    by (intros [] []; cbn; lia || apply ind_range || done).
  pose proof (total_wake_le _ b (<[i := p']> l) Hsw) as Hle.
  pose proof (Ht (stuck (write_completions s))) as Ts.
  pose proof (Ht (helps (write_completions s))) as Th.
  assert (0 < total (stuck (write_completions s)) l) as Hst0 by (subst L; lia).
  destruct (HW Hst0) as [?|Hh0]; [congruence|].
  assert (write_requests s ≠ write_completions s) as Hne.
  { intros E. destruct (total_pos _ l (NS _) Hst0) as (j & q & Hj & Hq).
    pose proof (i_pending _ Hinv) as Hp. cbn [fst snd] in Hp. rewrite E, Z.sub_diag in Hp.
    assert (∀ x, 0 <= pending x) as Np by by intros [].
    pose proof (total_le pending l j q Np Hj).
    assert (pending q = 1) by (by destruct q). change (0 mod 2 ^ 32) with 0 in Hp. lia. }
  destruct (step_helps _ _ _ _ _ Hs Hne) as [?|[?|[(Hh & Hp' & ->)|(Hh & Hw0 & -> & Hrw)]]];
    [lia|lia| |].
  - subst L. rewrite (broadcast_none _ writeable s l i p p' Hinv Hi Hh) in Hpos; [lia| |].
    + specialize (Hsw writeable p'). specialize (NS (write_completions s) (wake writeable p')). lia.
    + intros []; auto.
  - pose proof (i_waits _ Hinv) as Ew. cbn [fst snd] in Ew.
    destruct (total_pos waits l Nwaits) as (j & q & Hj & Hq); [lia|].
    assert (i ≠ j) as Hij by (intros <-; rewrite Hi in Hj; injection Hj as ->; lia).
    assert (hold q ≠ 1) as Hhq by (intros E; apply Hij; exact (hold_unique s l i j p q Hinv Hi Hj Hh E)).
    pose proof (total_le rd l j q Nrd Hj). pose proof (total_nonneg wr l Nwr).
    assert (helps (write_completions s) (wake readable q) = 1) as Hhq1.
    { destruct q; cbn in *; try done; lia. }
    assert (L !! j = Some (wake readable q)) as HLj.
    { subst L. cbn [wake_all]. rewrite list_lookup_fmap, list_lookup_insert_ne by done.
      by rewrite Hj. }
    pose proof (total_le _ L j _ (NH (write_completions s)) HLj). lia.
Qed.

(** *** Tickets *)

Lemma step_ticket s p s' p' b :
  tstep s p = Go s' p' b →
  (ticket p' = ticket p ∧ write_requests s' = write_requests s ∧
   (past p' = true → past p = true ∨ ticket p = Some (write_completions s))) ∨
  (ticket p = None ∧ ticket p' = Some (write_requests s) ∧ past p' = false ∧
   write_requests s' = s32 (write_requests s + 1)) ∨
  (past p = true ∧ ticket p' = None ∧ past p' = false ∧
   write_requests s' = write_requests s).
Proof.
  intros H. step_cases H; cbn; try (left; split_and!; auto; done).
  all: try (right; right; split_and!; done).
  all: try (right; left; split_and!; done).
  all: match goal with B : bool_decide _ = false |- _ =>
    apply bool_decide_eq_false, dec_stable in B end.
  all: left; split_and!; [done..|]; intros _; right; congruence.
Qed.

Lemma omap_wake b l : omap ticket (wake_all b l) = omap ticket l.
Proof.
  destruct b as [c|]; [|done]. cbn [wake_all]. induction l as [|x l IH]; [done|].
  cbn. rewrite IH. by destruct c, x.
Qed.

Lemma omap_insert l i p p' :
  l !! i = Some p →
  omap ticket (<[i := p']> l) ++ option_list (ticket p) ≡ₚ
    omap ticket l ++ option_list (ticket p').
Proof.
  revert i. induction l as [|x l IH]; intros [|i] Hi; try done.
  - injection Hi as ->. cbn. destruct (ticket p), (ticket p'); cbn; solve_Permutation.
  - specialize (IH i Hi). cbn. destruct (ticket x); [|done]. cbn. by rewrite IH.
Qed.

Lemma omap_length l : Z.of_nat (length (omap ticket l)) = total queued l.
Proof.
  induction l as [|x l IH]; [done|]. rewrite total_cons, <- IH. unfold queued. cbn.
  destruct (ticket x); cbn; lia.
Qed.

Lemma ticket_elem p v (l : list pc) : p ∈ l → ticket p = Some v → v ∈ omap ticket l.
Proof. intros Hp Hv. apply list_elem_of_omap. by exists p. Qed.

(** A new ticket is the newest. *)
Lemma behind_new r v n :
  0 <= behind r v < n → n < 2 ^ 31 → behind (s32 (r + 1)) v = Z.succ (behind r v).
Proof. unfold behind, s32. intros. dlia. Qed.

Lemma tickets_new r T T' n :
  0 <= n < 2 ^ 31 → behind r <$> T ≡ₚ seqZ 0 n → T' ≡ₚ T ++ [r] →
  behind (s32 (r + 1)) <$> T' ≡ₚ seqZ 0 (n + 1).
Proof.
  intros Hn HT ->. rewrite fmap_app, seqZ_cons by lia. replace (Z.pred (n + 1)) with n by lia.
  change (Z.succ 0) with (1 + 0).
  rewrite <- (fmap_add_seqZ 1 0 n), <- HT, <- list_fmap_compose. cbn [fmap list_fmap].
  assert (behind (s32 (r + 1)) r = 0) as -> by (unfold behind, s32; dlia).
  rewrite (Permutation_app_comm _ [0]). cbn [app]. constructor.
  apply Permutation_refl'. apply list_fmap_ext. intros j v Hv.
  apply list_elem_of_lookup_2 in Hv.
  assert (behind r v ∈ seqZ 0 n) as Hb by (rewrite <- HT; by apply list_elem_of_fmap_2).
  apply elem_of_seqZ in Hb. cbn. rewrite (behind_new r v n); lia.
Qed.

(** The oldest ticket leaves. *)
Lemma tickets_leave r T T' v n :
  behind r <$> T ≡ₚ seqZ 0 n → T' ++ [v] ≡ₚ T → behind r v = n - 1 →
  behind r <$> T' ≡ₚ seqZ 0 (n - 1) ∧ 0 < n.
Proof.
  intros HT HT' Hv.
  assert (behind r v ∈ seqZ 0 n) as Hb%elem_of_seqZ.
  { rewrite <- HT, <- HT', fmap_app. set_solver. }
  split; [|lia]. rewrite <- HT', fmap_app in HT. cbn in HT. rewrite Hv in HT.
  replace n with (n - 1 + 1) in HT at 2 by lia. rewrite seqZ_app in HT by lia.
  rewrite Z.add_0_l in HT. replace (seqZ (n - 1) 1) with [n - 1] in HT by done.
  by apply (inj (.++ [n - 1])) in HT.
Qed.

(** The writer whose ticket has come is the one that has waited longest. *)
Lemma turn_oldest s l v :
  inv (s, l) → behind (write_requests s) <$> omap ticket l ≡ₚ seqZ 0 (total queued l) →
  write_completions s ∈ omap ticket l → v = write_completions s →
  behind (write_requests s) v = total queued l - 1.
Proof.
  intros Hinv HT Hin ->. pose proof (i_pending _ Hinv) as Hp. cbn [fst snd] in Hp.
  assert (behind (write_requests s) (write_completions s) ∈ seqZ 0 (total queued l))
    as Hb%elem_of_seqZ by (rewrite <- HT; by apply list_elem_of_fmap_2).
  rewrite pending_total in Hp.
  pose proof (total_nonneg working l ltac:(apply weights_nonneg)).
  unfold behind in *. dlia.
Qed.

Lemma keep_tickets s l i p s' p' b :
  inv2 (s, l) → l !! i = Some p → tstep s p = Go s' p' b →
  let l' := <[i := p']> l in
  behind (write_requests s') <$> omap ticket l' ≡ₚ seqZ 0 (total queued l') ∧
  ∀ q v, q ∈ l' → past q = true → ticket q = Some v →
    behind (write_requests s') v = total queued l' - 1.
Proof.
  intros [Hinv _ _ _ HT _ HP] Hi Hs l'. cbn [fst snd] in *. subst l'.
  pose proof (omap_insert l i p p' Hi) as Hp.
  pose proof (total_insert queued l i p p' Hi) as Tq. rewrite Tq.
  pose proof (list_elem_of_lookup_2 _ _ _ Hi) as Hin.
  assert (0 <= total queued l < 2 ^ 31) as Hn.
  { pose proof (i_threads _ Hinv). pose proof (total_bound queued l ltac:(by intros [])).
    pose proof (total_nonneg queued l ltac:(by intros [])). cbn in *. lia. }
  assert (∀ q, q ∈ <[i := p']> l → q = p' ∨ q ∈ l) as Hold.
  { intros q [j Hj]%list_elem_of_lookup.
    apply list_lookup_insert_Some in Hj as [(_ & <- & _)|[_ ?]]; [by left|right].
    by eapply list_elem_of_lookup_2. }
  destruct (step_ticket _ _ _ _ _ Hs) as [(Et & -> & Hpast)|[(Et & Et' & Hpast & ->)|(Hpp & Et' & Hpast & ->)]].
  - unfold queued. rewrite Et in *. apply (inj (.++ _)) in Hp. rewrite Hp.
    replace (total (λ q, match ticket q with Some _ => 1 | None => 0 end) l) with (total queued l) by done.
    rewrite Z.sub_add. split; [done|]. intros q v Hq Hq1 Hq2.
    destruct (Hold q Hq) as [->|?]; [|by eapply HP]. rewrite Et in Hq2.
    destruct (Hpast Hq1) as [?|Hc]; [by eapply HP|]. rewrite Hc in Hq2. injection Hq2 as <-.
    eapply turn_oldest; try done. by eapply ticket_elem.
  - unfold queued at 2 3 5 6. rewrite Et, Et' in *. rewrite app_nil_r in Hp. cbn in Hp.
    replace (total queued l - 0 + 1) with (total queued l + 1) by lia. split.
    { by eapply tickets_new. }
    intros q v Hq Hq1 Hq2. destruct (Hold q Hq) as [->|Hql]; [congruence|].
    pose proof (HP q v Hql Hq1 Hq2) as Hb.
    assert (behind (write_requests s) v ∈ seqZ 0 (total queued l)) as Hr%elem_of_seqZ
      by (rewrite <- HT; by apply list_elem_of_fmap_2; eapply ticket_elem).
    rewrite (behind_new _ _ (total queued l)); lia.
  - assert (∃ v, ticket p = Some v) as [v Et] by (destruct p; try done; eauto).
    unfold queued at 2 3 5 6. rewrite Et, Et' in *. rewrite app_nil_r in Hp.
    replace (total queued l - 1 + 0) with (total queued l - 1) by lia.
    destruct (tickets_leave _ _ _ _ _ HT Hp (HP p v Hin Hpp Et)) as [HT' Hpos].
    split; [done|]. intros q w Hq Hq1 Hq2.
    destruct (Hold q Hq) as [->|Hql]; [congruence|]. exfalso.
    assert (behind (write_requests s) w ∈ seqZ 0 (total queued l - 1)) as Hr%elem_of_seqZ
      by (rewrite <- HT'; by apply list_elem_of_fmap_2; eapply ticket_elem).
    rewrite (HP q w Hql Hq1 Hq2) in Hr. lia.
Qed.

Lemma keep_small s l i p s' p' b v :
  inv2 (s, l) → l !! i = Some p → tstep s p = Go s' p' b →
  v ∈ omap ticket (<[i := p']> l) → s32 v = v.
Proof.
  intros [Hinv _ _ _ _ HS _] Hi Hs Hv. cbn [fst snd] in *.
  pose proof (omap_insert l i p p' Hi) as Hp.
  assert (v ∈ omap ticket l ++ option_list (ticket p')) as Hin by (rewrite <- Hp; set_solver).
  apply elem_of_app in Hin as [?|Hin]; [by apply HS|].
  destruct (step_ticket _ _ _ _ _ Hs) as [(Et & _)|[(_ & Et & _)|(_ & Et & _)]];
    rewrite Et in Hin; try (by apply elem_of_nil in Hin).
  - destruct (ticket p) as [w|] eqn:E; [|by apply elem_of_nil in Hin].
    apply list_elem_of_singleton in Hin as ->. apply HS, (ticket_elem p); [|done].
    by eapply list_elem_of_lookup_2.
  - apply list_elem_of_singleton in Hin as ->. apply (i_req _ Hinv).
Qed.

Lemma inv2_start n q : Z.of_nat n < 2 ^ 30 → inv2 (start n q).
Proof.
  intros Hn. pose proof (inv_start n q Hn) as Hi.
  assert (∀ f, f Idle = 0 → total f (replicate n Idle) = 0) as H0.
  { intros f Hf. apply total_zero. intros p Hp. apply elem_of_replicate in Hp as [-> _]. done. }
  assert (∀ m, omap ticket (replicate m Idle) = []) as Ho by (intros m; by induction m).
  split; cbn [start fst snd]; rewrite ?Ho, ?H0 by done; try done; try lia.
  { by intros v ?%elem_of_nil. }
  intros p v [-> _]%elem_of_replicate. done.
Qed.

(** A thread that changes without a step of the lock, in none of the roles. *)
Lemma inv2_same s l i p p' :
  inv2 (s, l) → inv (s, <[i := p']> l) → l !! i = Some p →
  wr p' = wr p → pending p' = pending p → ticket p' = ticket p → past p' = past p →
  (sleepsB p' <= sleepsB p ∧ wakesB p <= wakesB p') →
  (∀ r, sleepsA r p' <= sleepsA r p) → (∀ c, wakesA c p <= wakesA c p') →
  (∀ c, stuck c p' <= stuck c p) → (∀ c, helps c p <= helps c p') →
  inv2 (s, <[i := p']> l).
Proof.
  intros [_ HB HA HW HT HS HP] Hinv Hi Hw Hpe Htk Hpa [Hb Hb'] Hsa Hwa Hst Hh. cbn [fst snd] in *.
  pose proof (λ f, total_insert f l i p p' Hi) as Ht.
  pose proof (omap_insert l i p p' Hi) as Ho. rewrite Htk in Ho. apply (inj (.++ _)) in Ho.
  assert (total queued (<[i := p']> l) = total queued l) as Hq.
  { rewrite Ht. unfold queued. rewrite Htk. lia. }
  split; cbn [fst snd]; [done|..]; rewrite ?Hq.
  - rewrite (Ht sleepsB), (Ht wr), (Ht wakesB). intros. destruct HB; [lia|left; lia|right; lia].
  - specialize (Hsa (write_requests s)). specialize (Hwa (write_completions s)).
    rewrite !Ht. intros. destruct HA; [lia|left; lia|right; lia].
  - specialize (Hst (write_completions s)). specialize (Hh (write_completions s)).
    rewrite !Ht. intros. destruct HW; [lia|by left|right; lia].
  - by rewrite Ho.
  - intros v. rewrite Ho. apply HS.
  - intros q v [j Hj]%list_elem_of_lookup Hq1 Hq2.
    apply list_lookup_insert_Some in Hj as [(_ & <- & _)|[_ ?]].
    + apply (HP p); [by eapply list_elem_of_lookup_2|congruence..].
    + apply (HP q); [by eapply list_elem_of_lookup_2|done..].
Qed.

Lemma inv2_step x y : step x y → inv2 x → inv2 y.
Proof.
  intros Hxy Hx. destruct Hxy as [i x y Hrun|i s l p p' Hp Hc|i s l p c Hp].
  - destruct Hrun as [i s l p s' p' b Hp Hs]. pose proof Hx as [Hinv _ _ _ _ _ _].
    pose proof (inv_step _ _ _ _ _ _ _ Hinv Hp Hs) as Hinv'.
    destruct (keep_tickets _ _ _ _ _ _ _ Hx Hp Hs) as [HT HP].
    split; cbn [fst snd].
    + by apply inv_wake.
    + by eapply keep_B.
    + by eapply keep_A.
    + by eapply keep_W.
    + rewrite omap_wake, (total_wake queued) by apply weights_wake. done.
    + rewrite omap_wake. intros v. by eapply keep_small.
    + rewrite (total_wake queued) by apply weights_wake. intros q v Hq.
      destruct b as [c|]; [|by apply HP].
      apply list_elem_of_fmap in Hq as (q' & -> & Hq'). intros H1 H2.
      apply (HP q'); [done|by destruct c, q'|by destruct c, q'].
  - pose proof (inv_steps (s, l) (s, <[i := p']> l)) as Hi.
    eapply (inv2_same s l i p); try done.
    + apply Hi; [|apply Hx]. apply rtc_once. by eapply step_call.
    + by destruct Hc.
    + by destruct Hc.
    + by destruct Hc.
    + by destruct Hc.
    + by destruct Hc.
    + intros r. by destruct Hc.
    + intros r. by destruct Hc.
    + intros r. by destruct Hc.
    + intros r. by destruct Hc.
  - pose proof (inv_steps (s, l) (s, <[i := wake c p]> l)) as Hi.
    eapply (inv2_same s l i p); try done.
    + apply Hi; [|apply Hx]. apply rtc_once. by eapply step_spurious.
    + by destruct c, p.
    + by destruct c, p.
    + by destruct c, p.
    + by destruct c, p.
    + by destruct c, p.
    + intros r. by destruct c, p.
    + intros r. by destruct c, p.
    + intros r. destruct c, p; cbn; try done; apply ind_range.
    + intros r. by destruct c, p.
Qed.

Lemma inv2_reachable n q x : Z.of_nat n < 2 ^ 30 → reachable n q x → inv2 x.
Proof.
  intros Hn Hr. pose proof (inv2_start n q Hn) as H0. revert H0.
  induction Hr as [|x y z Hxy _ IH]; [done|]. intros Hx. apply IH. by eapply inv2_step.
Qed.

Definition asleep (p : pc) : bool :=
  match p with RL_asleep | RL_asleep2 | WL_asleep _ | WL_asleep2 _ => true | _ => false end.

(** If nobody runs and nobody has the lock, nobody sleeps. *)
Lemma nobody_sleeps s l :
  inv2 (s, l) → (∀ p, p ∈ l → p = Idle ∨ asleep p = true) → ∀ p, p ∈ l → p = Idle.
Proof.
  intros [Hinv HB HA HW HT HSm HP] Hq. cbn [fst snd] in *.
  assert (∀ f, f Idle = 0 → (∀ p, asleep p = true → f p = 0) → total f l = 0) as Hz.
  { intros f H0 H1. apply total_zero. intros p [->|?]%Hq; auto. }
  destruct wake_weights_nonneg as (NB & _ & NA & _ & NS & _).
  assert (total sleepsB l = 0) as HB0.
  { pose proof (total_nonneg sleepsB l NB). destruct (decide (0 < total sleepsB l)) as [Hp|]; [|lia].
    destruct (HB Hp) as [E|E]; rewrite Hz in E; try done; by intros []. }
  assert (∀ p, p ∈ l → p = RL_asleep2 → False) as HnoB.
  { intros p [i Hi]%list_elem_of_lookup ->. pose proof (total_le sleepsB l i _ NB Hi) as E.
    cbn [sleepsB] in E. lia. }
  assert (cnt_and_flag s = 0) as Hc.
  { pose proof (i_cnt _ Hinv) as E. cbn [fst snd] in E. rewrite E. clear E.
    assert (total rd l = 0) as ->; [|rewrite Hz; [done..|by intros []]].
    apply total_zero. intros p Hp. destruct (Hq p Hp) as [->|Hs]; [done|].
    destruct p; try done. by destruct (HnoB _ Hp). }
  assert (total (stuck (write_completions s)) l = 0) as Hst.
  { pose proof (total_nonneg _ l (NS (write_completions s))).
    destruct (decide (0 < total (stuck (write_completions s)) l)) as [Hp|]; [|lia].
    destruct (HW Hp) as [?|E]; [done|]. rewrite Hz in E; [done..|by intros []]. }
  assert (∀ p, p ∈ l → stuck (write_completions s) p = 0) as Hno.
  { intros p [i Hi]%list_elem_of_lookup. pose proof (total_le _ l i p (NS (write_completions s)) Hi).
    pose proof (NS (write_completions s) p). lia. }
  pose proof (i_pending _ Hinv) as Hpend. cbn [fst snd] in Hpend. rewrite pending_total in Hpend.
  rewrite (Hz working) in Hpend by (done || by intros []).
  assert (total queued l = 0) as Hq0.
  { pose proof (total_nonneg queued l ltac:(by intros [])).
    destruct (decide (total queued l = 0)) as [|Hn]; [done|exfalso].
    assert (total queued l - 1 ∈ behind (write_requests s) <$> omap ticket l) as Hin.
    { rewrite HT. apply elem_of_seqZ. lia. }
    apply list_elem_of_fmap in Hin as (v & Hv & Hvl).
    apply list_elem_of_omap in Hvl as (p & Hp & Htk).
    assert (v = write_completions s) as ->.
    { pose proof (i_comp _ Hinv) as E. pose proof (HSm v (ticket_elem _ _ _ Hp Htk)) as E'.
      cbn [fst snd] in E. rewrite <- E, <- E'. unfold behind in Hv. unfold s32. dlia. }
    destruct (Hq p Hp) as [->|Hs]; [done|]. specialize (Hno p Hp).
    destruct p; try done; cbn in Htk, Hno; try done. injection Htk as ->.
    by rewrite bool_decide_true in Hno. }
  assert (total (sleepsA (write_requests s)) l = 0) as HA0.
  { pose proof (total_nonneg _ l (NA (write_requests s))).
    destruct (decide (0 < total (sleepsA (write_requests s)) l)) as [Hp|]; [|lia].
    destruct (HA Hp) as [E|E]; [rewrite pending_total, Hq0 in E|]; rewrite Hz in E;
      try done; by intros []. }
  intros p Hp. destruct (Hq p Hp) as [|Hs]; [done|exfalso].
  apply list_elem_of_lookup in Hp as [i Hi].
  pose proof (total_le _ l i p (NA (write_requests s)) Hi).
  pose proof (total_le queued l i p ltac:(by intros []) Hi).
  pose proof (total_le sleepsB l i p NB Hi).
  destruct p; try done; cbn in *; lia.
Qed.

(** A thread that waits for the mutex waits for a thread that can go on. *)
Lemma someone_runs s l :
  inv (s, l) → (∀ p, p ∈ l → tstep s p ≠ Fault) →
  ∀ p, p ∈ l → p ≠ Idle → p ≠ Reading → p ≠ Writing → asleep p = false →
  ∃ i y, run i (s, l) y.
Proof.
  intros Hinv Hf p Hp H1 H2 H3 H4.
  assert (∀ q, q ∈ l → (∃ s' q' b, tstep s q = Go s' q' b) → ∃ i y, run i (s, l) y) as Hgo.
  { intros q [i Hi]%list_elem_of_lookup (s' & q' & b & Hs). eexists i, _. by econstructor. }
  assert (∀ q, q ∈ l → tstep s q ≠ Blocked → ∃ i y, run i (s, l) y) as Hgo'.
  { intros q Hq Hb. apply (Hgo q Hq). specialize (Hf q Hq).
    destruct (tstep s q) as [| |s' q' b]; [done..|]. by exists s', q', b. }
  destruct (tstep s p) eqn:E; [|by destruct (Hf p)|by eapply Hgo; [|eauto]].
  assert (lock s = true) as Hl.
  { destruct p; try done; step_unfold E;
      try discriminate E; repeat case_match; done. }
  pose proof (i_hold _ Hinv) as Hh. cbn [fst snd] in Hh. rewrite Hl in Hh.
  destruct (total_pos hold l ltac:(by intros [])) as (j & q & Hj & Hq); [lia|].
  apply (Hgo' q); [by eapply list_elem_of_lookup_2|]. clear -Hq.
  destruct q; try done; cbv [tstep lock_step trylock_step tryupgrade_step downgrade_step unlock_step acquire release];
    repeat case_match; done.
Qed.

(** C10: no deadlock and no lost wake-up. As long as some thread is in a call
    of the lock and no thread has it (every thread that has it leaves it
    sooner or later), some thread can make a step: it is never so that all
    threads in calls sleep, or wait for the mutex, without anybody left to
    wake them. Spurious wake-ups are not needed for this. *)
Theorem rwlock_progress n q s l :
  Z.of_nat n < 2 ^ 30 → reachable n q (s, l) →
  Reading ∉ l → Writing ∉ l → (∃ p, p ∈ l ∧ p ≠ Idle) → ∃ i y, run i (s, l) y.
Proof.
  intros Hn Hr HR HW (p0 & Hp0 & Hne). pose proof (inv2_reachable _ _ _ Hn Hr) as H2.
  destruct (decide (Exists (λ p, p ≠ Idle ∧ asleep p = false) l)) as [Hex|Hall].
  - apply Exists_exists in Hex as (p & Hp & Hpi & Ha).
    apply (someone_runs s l) with p; try done; [apply H2|..].
    + intros. apply no_fault with l; [apply H2|done].
    + by intros ->.
    + by intros ->.
  - destruct Hne. apply (nobody_sleeps s l H2); [|done]. intros p Hp.
    destruct (asleep p) eqn:E; [by right|left].
    destruct (decide (p = Idle)) as [|Hn0]; [done|]. destruct Hall. apply Exists_exists. eauto.
Qed.

(** ** Executions

    A schedule names, step by step, the thread that runs or what it calls. *)
Inductive move := Run (i : nat) | Call (i : nat) (p : pc).

Definition may_call (p p' : pc) : bool :=
  match p, p' with
  | Idle, (RL_req | WL_xadd | RT_req | WT_cas) | Reading, (UP_cas | RU_xadd)
  | Writing, (DG_xadd | UW_flag) => true
  | _, _ => false
  end.

Definition do_move (x : rwlock * list pc) (m : move) : option (rwlock * list pc) :=
  match m with
  | Run i =>
      p ← x.2 !! i;
      match tstep x.1 p with
      | Go s' p' b => Some (s', wake_all b (<[i := p']> x.2))
      | _ => None
      end
  | Call i p' => p ← x.2 !! i; if may_call p p' then Some (x.1, <[i := p']> x.2) else None
  end.

Fixpoint execute (x : rwlock * list pc) (ms : list move) : option (rwlock * list pc) :=
  match ms with
  | [] => Some x
  | m :: ms => x ← do_move x m; execute x ms
  end.

Lemma execute_reachable x ms y : execute x ms = Some y → rtc step x y.
Proof.
  revert x. induction ms as [|m ms IH]; intros [s l]; cbn [execute]; [by intros [= ->]|].
  destruct (do_move (s, l) m) as [z|] eqn:E; [|done]. cbn [mbind option_bind]. intros H.
  eapply rtc_l; [|by apply IH]. destruct m as [i|i p']; cbn [do_move fst snd] in E.
  - destruct (l !! i) as [p|] eqn:Hi; [|done]. cbn [mbind option_bind] in E.
    destruct (tstep s p) as [| |s' p' b] eqn:Ht; [done..|]. injection E as <-.
    by eapply step_run, run_step.
  - destruct (l !! i) as [p|] eqn:Hi; [|done]. cbn [mbind option_bind] in E.
    destruct (may_call p p') eqn:Hc; [|done]. injection E as <-. eapply step_call; [done|].
    destruct p, p'; try done; constructor.
Qed.
