(* ===== verification/Samples.v ===== *)
(** * The theorems on concrete inputs

    Each theorem of the library that has hypotheses is applied here to a
    concrete input for which they hold, so that none of them is vacuous. The
    code outside the repository is instantiated by the simplest functions
    that keep its promises: insertion sort for [qsort], an allocator that
    never fails, zero for the random numbers, a constant digest. *)
From stdpp Require Import relations.
From S2P Require Import Prelude Qsort Rdata Name NameText FromWire Compress Slab SlabIndex SlabBuild SlabSpec SlabTransform SlabOps SlabAlgebra RbtdbRdataset Profiler Race Order Answer LoadBalance.

(** ** The outside *)

#[local] Existing Instance isort_Qsort.
#[local] Instance always_alloc : Alloc := λ _, true.
#[local] Instance no_random : IscRandom := λ _, 0%Z.
#[local] Existing Instance only_a.
#[local] Existing Instance only_a_dispatch.
#[local] Existing Instance compare_default.
#[local] Existing Instance compare_default_order.

Definition get_mem (k : nat) (n : Z) : option mem := Some (replicate (Z.to_nat n) 0%Z).

Lemma get_mem_ok : alloc_ok get_mem.
Proof. intros k z. eexists. split; [done|]. by rewrite length_replicate. Qed.

Definition no_singleton (type : Z) : bool := false.
Definition md5_zero (bs : list Z) : list Z := replicate 16 0%Z.

Lemma md5_zero_ok x : 16 <= length (md5_zero x).
Proof. done. Qed.

(** Workers that do not answer, and fresh buffers. *)
Definition silent_env : env := Env (λ _, None) (λ _, replicate 42 0%Z).

Lemma silent_env_ok : env_ok silent_env.
Proof. by intros i. Qed.

(** ** Names *)

(** [www.lb.] and [WWW.LB.], [*.lb.] and [lb.] *)
Definition www_lb : list label := [[119;119;119]; [108;98]; []]%Z.
Definition WWW_LB : list label := [[87;87;87]; [76;66]; []]%Z.
Definition star_lb : list label := [[42]; [108;98]; []]%Z.

Lemma labels_ok_3 a b :
  0 < length a <= 63 → 0 < length b <= 63 → labels_ok [a; b; []].
Proof.
  intros Ha Hb. split.
  - rewrite !Forall_cons, Forall_nil. cbn. lia.
  - intros [|[|[|i]]] Hi; [injection Hi as ->|injection Hi as ->|done|done].
    + by destruct Ha as [?%Nat.nlt_0_r _].
    + by destruct Hb as [?%Nat.nlt_0_r _].
  - rewrite !enc_labels_cons, !length_app, !enc_label_length. unfold DNS_NAME_MAXWIRE. cbn in *. lia.
Qed.

Lemma www_lb_ok : labels_ok www_lb. Proof. apply labels_ok_3; cbn; lia. Qed.
Lemma WWW_LB_ok : labels_ok WWW_LB. Proof. apply labels_ok_3; cbn; lia. Qed.
Lemma star_lb_ok : labels_ok star_lb. Proof. apply labels_ok_3; cbn; lia. Qed.

Lemma www_name_ok : name_ok (name_of www_lb) www_lb.
Proof. split; [apply name_of_repr, www_lb_ok|done]. Qed.



Lemma name_equal_rdatacompare_spec_witness :
  dns_name_equal (name_of www_lb) (name_of WWW_LB) = Some true.
Proof.
  destruct (name_equal_rdatacompare_spec (name_of www_lb) (name_of WWW_LB) www_lb WWW_LB
    (name_of_repr _ www_lb_ok) (name_of_repr _ WWW_LB_ok) eq_refl eq_refl) as (E & _).
  rewrite E. by vm_compute.
Defined.

Lemma equal_names_hash_alike_witness :
  dns_name_hash (name_of www_lb) false = dns_name_hash (name_of WWW_LB) false.
Proof.
  apply (equal_names_hash_alike (name_of www_lb) (name_of WWW_LB) www_lb WWW_LB
    (name_of_repr _ www_lb_ok) (name_of_repr _ WWW_LB_ok)). by vm_compute.
Defined.

Lemma wildcard_spec_witness :
  dns_name_iswildcard (name_of star_lb) = Some true ∧
  dns_name_matcheswildcard (name_of www_lb) (name_of star_lb) = Some true.
Proof.
  destruct (wildcard_spec (name_of www_lb) (name_of star_lb) www_lb star_lb
    (name_of_repr _ www_lb_ok) (name_of_repr _ star_lb_ok)) as (E & _ & M); [done|done|].
  split; [rewrite E; by vm_compute|]. rewrite M by done. by vm_compute.
Defined.


Lemma fromtext_downcase_out_of_bounds_witness :
  dns_name_fromtext [200]%Z None true 255 = None.
Proof. apply (fromtext_downcase_out_of_bounds 200); unfold is_byte; lia. Defined.

Lemma text_roundtrip_witness :
  ∃ t, dns_name_totext (name_of www_lb) false 1023 = Some (inr t) ∧
       dns_name_fromtext t None false 255 = Some (inr (name_of www_lb, [])).
Proof.
  apply (text_roundtrip (name_of www_lb) www_lb 1023 255).
  - apply name_of_repr, www_lb_ok.
  - repeat constructor; unfold is_byte; lia.
  - by left.
  - unfold DNS_NAME_MAXTEXT. lia.
  - vm_compute. lia.
Defined.

(** ** Messages *)

Definition empty_context : compress := dns_compress_setmethods dns_compress_init true.

Lemma empty_context_ok m : ctx_ok m empty_context.
Proof.
  split; [done| |by vm_compute].
  intros h nodes nd Hh Hn. unfold empty_context in Hh. cbn [table dns_compress_setmethods] in Hh.
  apply lookup_replicate in Hh as [-> _]. by apply not_elem_of_nil in Hn.
Qed.

Lemma fromwire_spec_witness :
  ∃ r, dns_name_fromwire [2; 108; 98; 0; 3; 119; 119; 119; 192; 0]%Z 4 true false 255 = Some r.
Proof.
  destruct (fromwire_spec [2; 108; 98; 0; 3; 119; 119; 119; 192; 0]%Z 4 true false 255)
    as (r & E & _); [|cbn; lia|by exists r].
  repeat constructor; unfold is_byte; lia.
Defined.

Lemma towire_spec_witness :
  ∃ r x cctx', dns_name_towire (name_of www_lb) false empty_context 512 [] = Some (r, [] ++ x, cctx').
Proof.
  destruct (towire_spec [] empty_context (name_of www_lb) www_lb false 512
    (empty_context_ok _) www_name_ok) as (r & x & c & E & _); [cbn; lia|lia|].
  by exists r, x, c.
Defined.

Lemma wire_roundtrip_witness :
  ∃ m' cctx', dns_name_towire (name_of www_lb) false empty_context 512 [] =
      Some (ISC_R_SUCCESS, m', cctx') ∧
    ∃ ls', same_labels www_lb ls' ∧
      dns_name_fromwire (m' ++ [7]%Z) 0 true false DNS_NAME_MAXWIRE =
        Some (inr (name_of ls', length m' - 0)).
Proof.
  do 2 eexists. split; [vm_compute; reflexivity|].
  eapply (wire_roundtrip [] empty_context (name_of www_lb) www_lb false 512 _ _ [7]%Z
    (empty_context_ok _) www_name_ok); [cbn; lia|lia|vm_compute; reflexivity|].
  repeat constructor; unfold is_byte; lia.
Defined.

Lemma rollback_restores_witness :
  ∃ r m' cctx', put_all [PutName (name_of www_lb) false; PutData [1; 2]%Z] empty_context 512 [] =
      Some (r, m', cctx') ∧
    dns_compress_rollback cctx' (u16 (Z.of_nat 0)) = empty_context.
Proof.
  destruct (rollback_restores [] empty_context
    [PutName (name_of www_lb) false; PutData [1; 2]%Z] 512 (empty_context_ok _))
    as (r & m' & c & E & _ & Hc); [|cbn; lia|lia|by exists r, m', c].
  constructor; [exists www_lb; exact www_name_ok|by repeat constructor].
Defined.

Lemma order_find_first_match_witness :
  let e := OrderEnt (name_of star_lb) 255 255 DNS_RDATASETATTR_FIXEDORDER in
  ∃ mode, dns_order_find [e] (name_of www_lb) 1 1 = Some mode.
Proof.
  intros e. destruct (order_find_first_match [e] [(e, star_lb)] (name_of www_lb) www_lb 1 1)
    as (mode & E & _); [|exact www_name_ok|by exists mode].
  split; [done|]. constructor; [|constructor]. split; [apply name_of_repr, star_lb_ok|done].
Defined.

Lemma fixed_everywhere_witness :
  ∃ order rs', configure_order [] (OrderCfg None None None order_fixed) =
      Some (ISC_R_SUCCESS, order) ∧
    query_addrdataset (Some order) (name_of www_lb) two_rdataset = Some rs' ∧
    loadorder rs' = true.
Proof.
  destruct (fixed_everywhere (name_of www_lb) www_lb two_rdataset eq_refl eq_refl www_name_ok)
    as (order & rs' & E & Eq & _ & Hl & _).
  by exists order, rs'.
Defined.

(** ** Slabs *)

Lemma two_body_ok type : Forall (body_ok type) two_bodies.
Proof. repeat constructor; by intros _. Qed.

Lemma two_entries_snd : two_entries.*2 = two_bodies.
Proof. done. Qed.

Lemma tables_yield_witness :
  @rds_yields _ Lbbind.methods (two_addresses, two_rdataset)
    (body_rdata dns_rdataclass_in dns_rdatatype_a <$> two_bodies).
Proof.
  destruct (tables_yield two_addresses two_rdataset two_entries two_bodies two_slab
    (two_body_ok _)) as (_ & Hy & _). exact Hy.
Defined.

(** The array after a round that found the second worker less loaded. *)
Definition stat (off : Z) (addr : list Z) : a_node :=
  ANode addr off [0;0;0;0]%Z [0;0;0;0]%Z [0;0;0;0]%Z.
Definition swapped : list a_node := [stat 18 [5;6;7;8]; stat 10 [1;2;3;4]]%Z.

Lemma sort_spec_witness :
  ∃ m' rs', dns_rdataslab_sort_fromrdataset two_addresses two_rdataset swapped =
      Some (ISC_R_SUCCESS, m', rs') ∧
    slab_at m' 0 (reverse two_entries) two_bodies.
Proof.
  destruct (sort_spec two_addresses two_rdataset two_entries (reverse two_entries) two_bodies
    swapped two_slab) as (m' & rs' & E & Hs & _);
    [by rewrite reverse_Permutation|done|by exists m', rs'].
Defined.

Lemma transform_spec_witness :
  ∃ m' rs' stats' ph', dns_rdataslab_transformrdataset (H := slab_methods)
      two_addresses two_rdataset (replicate 2 zero_node) =
      Some (ISC_R_SUCCESS, m', rs', stats') ∧
    slab_at m' 0 (layout (2 + 4 * length ph') ph') ph'.
Proof.
  destruct (transform_spec (I0 := slab_methods) two_addresses two_rdataset two_entries two_bodies
    (replicate 2 zero_node) two_slab) as (m' & rs' & st & ph' & E & _ & Hs & _);
    [done|apply two_body_ok|cbn; lia|].
  by exists m', rs', st, ph'.
Defined.



(** A slab with the one address [9.9.9.9]. *)
Definition one_address : mem := [0;1; 0;0;0;6; 0;4;0;0;9;9;9;9]%Z.
Definition one_body : list (list Z) := [[9;9;9;9]]%Z.

Lemma one_slab : slab_at one_address 0 (layout 6 one_body) one_body.
Proof. apply slab_atb_ok. by vm_compute. Qed.

Lemma one_body_ok type : Forall (body_ok type) one_body.
Proof. repeat constructor; by intros _. Qed.

Abbreviation IN := dns_rdataclass_in.
Abbreviation A := dns_rdatatype_a.

Lemma sample_operands :
  operands IN A two_addresses one_address 0 two_entries (layout 6 one_body) two_bodies one_body.
Proof.
  split; [exact two_slab|exact one_slab|apply two_body_ok|apply one_body_ok| | |done|done|].
  - repeat constructor; by vm_compute.
  - repeat constructor.
  - by vm_compute.
Qed.


Lemma subtract_spec_witness :
  dns_rdataslab_subtract get_mem IN A two_addresses one_address 0 0 =
    Some (DNS_R_UNCHANGED, None).
Proof.
  pose proof (subtract_spec get_mem IN A two_addresses one_address 0 two_entries
    (layout 6 one_body) two_bodies one_body 0 two_slab one_slab (two_body_ok _) (one_body_ok _))
    as Hm.
  specialize (Hm ltac:(done) ltac:(done) ltac:(by vm_compute) get_mem_ok). cbv zeta in Hm.
  match type of Hm with if ?b then _ else _ => replace b with false in Hm by (by vm_compute) end.
  match type of Hm with if ?b then _ else _ => replace b with false in Hm by (by vm_compute) end.
  match type of Hm with if ?b then _ else _ => replace b with true in Hm by (by vm_compute) end.
  exact Hm.
Defined.

Lemma one_is_new : Forall (is_new IN A two_bodies) one_body.
Proof. repeat constructor; by vm_compute. Qed.

Lemma merge_subtract_roundtrip_witness :
  ∃ m m', dns_rdataslab_merge no_singleton get_mem IN A two_addresses one_address 0 0 =
      Some (ISC_R_SUCCESS, Some m) ∧
    dns_rdataslab_subtract get_mem IN A m one_address 0 0 = Some (ISC_R_SUCCESS, Some m') ∧
    dns_rdataslab_equal two_addresses m' 0 = Some true.
Proof.
  eexists. assert (dns_rdataslab_merge no_singleton get_mem IN A two_addresses one_address 0 0 =
    Some (ISC_R_SUCCESS, Some _)) as Hm by (vm_compute; reflexivity).
  destruct (merge_subtract_roundtrip no_singleton get_mem IN A two_addresses one_address 0
    two_entries (layout 6 one_body) two_bodies one_body 0 0 _ sample_operands get_mem_ok
    one_is_new Hm) as (m' & lo' & E & _ & _ & Eq).
  exists m'. split_and!; [exact Hm|exact E|exact Eq].
Defined.

Lemma size_counts_witness :
  ∃ n, dns_rdataslab_size two_addresses 0 = Some (Z.of_nat n) ∧ n <= 26.
Proof.
  destruct (size_counts two_addresses 0 two_entries two_bodies two_slab) as (n & E & _ & Hn);
    [by vm_compute|by exists n].
Defined.

Lemma equality_spec_witness :
  dns_rdataslab_equal two_addresses two_addresses 0 = Some true.
Proof.
  destruct (equality_spec IN A two_addresses two_addresses 0 _ _ _ _ two_slab two_slab
    (two_body_ok _) (two_body_ok _)) as [E _].
  rewrite E. by vm_compute.
Defined.

Lemma search_spec_witness :
  rdata_in_slab IN A two_addresses 0 (Rdata [5;6;7;8]%Z IN A 0) = Some true.
Proof.
  destruct (search_spec IN A two_addresses 0 two_entries two_bodies [5;6;7;8]%Z
    (Rdata [5;6;7;8]%Z IN A 0) two_slab (two_body_ok _)) as [E _]; [done|].
  rewrite E; [by vm_compute|]. repeat constructor; by vm_compute.
Defined.

(** A slab with one RRSIG, whose meta byte says it is offline. *)
Definition one_rrsig : mem := [0;1; 0;0;0;6; 0;3;0;0;1;9;9]%Z.
Definition rrsig_rdataset : rdataset :=
  set_cursor (dns_rdataslab_tordataset 0 0 IN dns_rdatatype_rrsig 0 300) 0 (Some 6).

Lemma offline_flag_misread_witness :
  ∃ r p q, rdata_from_slab one_rrsig 6 IN dns_rdatatype_rrsig = Some (r, p, q) ∧
    rd_flags r = 0%Z.
Proof.
  destruct (offline_flag_misread one_rrsig 0 [(6, [1;9;9]%Z)] [[1;9;9]%Z] 0 6 [1;9;9]%Z IN
    rrsig_rdataset) as (r & p & q & _ & E & _ & _ & Hf & _); [| |done|done|done|done|].
  - apply slab_atb_ok. by vm_compute.
  - repeat constructor; unfold is_byte; lia.
  - by exists r, p, q.
Defined.

(** A rdataset that is a list of records with a cursor. *)
Definition list_methods : RdatasetMethods (list rdata) := {|
  dns_rdataset_count s := Some (Z.of_nat (length s));
  dns_rdataset_first s :=
    Some (if bool_decide (s = []) then ISC_R_NOMORE else ISC_R_SUCCESS, s);
  dns_rdataset_next s :=
    Some (if bool_decide (tail s = []) then ISC_R_NOMORE else ISC_R_SUCCESS, tail s);
  dns_rdataset_current s := head s;
  dns_rdataset_type _ := A |}.

#[local] Existing Instance list_methods.

Lemma list_rds_from r l : rds_from ISC_R_SUCCESS (r :: l) (r :: l).
Proof.
  revert r. induction l as [|r' l IH]; intros r.
  - econstructor; [done|done|]. constructor.
  - econstructor; [done|done|]. apply IH.
Qed.

Lemma list_yields r l : rds_yields (r :: l) (r :: l).
Proof. split; [done|]. do 2 eexists. split; [done|]. apply list_rds_from. Qed.

(** [9.9.9.9], [1.2.3.4], [9.9.9.9] *)
Definition three_records : list rdata :=
  [Rdata [9;9;9;9]%Z IN A 0; Rdata [1;2;3;4]%Z IN A 0; Rdata [9;9;9;9]%Z IN A 0].

Lemma fromrdataset_spec_witness :
  ∃ m lo ph, dns_rdataslab_fromrdataset no_singleton get_mem three_records 0 =
      Some (ISC_R_SUCCESS, Some m) ∧ slab_at m 0 lo ph.
Proof.
  pose proof (fromrdataset_spec no_singleton get_mem three_records IN
    three_records 0 get_mem_ok (list_yields _ _) ltac:(done) ltac:(done)
    ltac:(by repeat constructor) ltac:(repeat constructor; done) ltac:(by vm_compute)) as Hm.
  destruct Hm as (m & lo & ph & E & Hs & _).
  exists m, lo, ph. split; [exact E|exact Hs].
Defined.

Lemma fromrdataset_refusals_witness :
  dns_rdataslab_fromrdataset no_singleton get_mem [] 0 =
    Some (ISC_R_FAILURE, None).
Proof.
  apply (fromrdataset_refusals no_singleton get_mem [] [] 0); [|done|done].
  split; [done|]. do 2 eexists. split; [done|]. constructor.
Defined.


Lemma lbbind_underflow_witness :
  let ops := [Refs.Bind; Refs.Clone; Refs.Disassociate; Refs.Disassociate] in
  Refs.run true ops (Refs.NodeState 0 0) = None.
Proof. apply (Refs.lbbind_underflow 0). lia. Defined.

(** ** The profiler *)

Definition two_node : node :=
  Node two_rdataset [stat 10 [1;2;3;4]%Z; stat 18 [5;6;7;8]%Z] 2.

Lemma two_node_at : node_at (two_addresses, two_node) (two_entries, two_bodies).
Proof. by split; [exact two_slab| |]. Qed.

Lemma two_nodes_at : Forall2 node_at [(two_addresses, two_node)] [(two_entries, two_bodies)].
Proof. constructor; [exact two_node_at|constructor]. Qed.

Lemma silent_rounds : Forall (λ es, length [(two_addresses, two_node)] <= length es ∧
  Forall env_ok es) [[silent_env]].
Proof. repeat constructor. Qed.



Lemma two_address_rdataset : address_rdataset two_rdataset two_entries.
Proof. split_and!; [done|done|]. by repeat constructor. Qed.

Lemma register_addresses_witness :
  ∃ m' nd lo', register (H0 := slab_methods) two_addresses two_rdataset = Some (m', Some nd) ∧
    node_inv m' nd lo' lo'.*2.
Proof.
  destruct (register_addresses (I := slab_methods) two_addresses two_rdataset two_entries
    two_bodies two_slab two_address_rdataset) as (m' & nd & lo' & E & Hi & _); [cbn; lia|].
  exists m', nd, lo'. split; [exact E|exact Hi].
Defined.

(** The same bytes as records of type 16. *)
Definition two_texts : rdataset := dns_rdataslab_tordataset 0 0 IN 16 0 300.

Lemma register_other_type_witness :
  ∃ m' nd, register (H0 := slab_methods) two_addresses two_texts = Some (m', Some nd) ∧
    nd_naddrs nd = 0%Z.
Proof.
  destruct (register_other_type (I := slab_methods) two_addresses two_texts two_entries
    two_bodies two_slab) as (m' & nd & lo' & ph' & E & Hn & _);
    [done|apply two_body_ok|cbn; lia|].
  exists m', nd. split; [exact E|exact Hn].
Defined.

(** ** Answers *)

Lemma two_rd_ok : Forall rd_ok ((λ b, Rdata b IN A 0) <$> two_bodies).
Proof. by repeat constructor. Qed.


