(* ===== verification/SamplesIsc.v ===== *)
(** * The theorems of the [isc] library on concrete inputs

    Each theorem on heaps and locks that has hypotheses, applied to a concrete
    input for which they hold. *)
From stdpp Require Import gmap relations.
From S2P Require Import Prelude Heap RwLock.

(** ** Heaps *)

(** Headers 1, 2 and 3 with the keys 5, 7 and 6. *)
Definition three_keys : field := λ e, nth e [0; 5; 7; 6]%Z 0%Z.
Definition three_heap : heap :=
  Heap 8 8 3 ([None; Some 1; Some 2; Some 3] ++ replicate 4 None) true.
Definition three_indices : indices := list_to_map [(1, 1); (2, 2); (3, 3)].

Lemma three_heap_at : heap_at (ttl_sooner three_keys) three_heap three_indices [1; 2; 3].
Proof.
  split; [repeat split; cbn; lia|].
  split; [by intros [|[|[|[|[|[|[|[|k]]]]]]]]|].
  split; [apply (bool_decide_unpack (NoDup [1; 2; 3])); by vm_compute|]. split.
  - intros i x p Hx Hp. apply at1_lt in Hx as Hi. cbn in Hi.
    destruct i as [|[|[|[|i]]]]; try lia; try done; injection Hx as <-; injection Hp as <-; done.
  - intros i x Hx. apply at1_lt in Hx as Hi. cbn in Hi.
    destruct i as [|[|[|[|i]]]]; try lia; try done; by injection Hx as <-.
Qed.

Lemma tracked_2 : tracked three_indices [1; 2; 3] 2.
Proof. intros []. set_solver +. Qed.

Lemma heap_spec_witness :
  ∃ result h' ix' xs',
    isc_heap_insert (ttl_sooner three_keys) (λ _, true) three_heap three_indices 4 =
      Some (result, h', ix') ∧ heap_at (ttl_sooner three_keys) h' ix' xs'.
Proof.
  destruct (heap_spec (ttl_sooner three_keys) three_heap three_indices [1; 2; 3] three_heap_at
              eq_refl) as (_ & Hi & _).
  destruct (Hi (λ _, true) 4 ltac:(set_solver +)) as (r & h' & ix' & xs' & E & H & _).
  by exists r, h', ix', xs'.
Defined.

Lemma set_ttl_spec_witness :
  ∃ h' ix' xs', heap_at (ttl_sooner (set_field three_keys 2 1)) h' ix' xs' ∧
    set_ttl true three_heap three_indices three_keys 2 1 =
      Some (h', ix', set_field three_keys 2 1).
Proof.
  destruct (set_ttl_spec three_heap three_indices [1; 2; 3] three_keys 2 1 three_heap_at tracked_2)
    as (h' & ix' & xs' & E & H & _).
  by exists h', ix', xs'.
Defined.

Lemma setsigningtime_spec_witness :
  ∃ result h' ix' xs', heap_at (resign_sooner (set_field three_keys 2 9)) h' ix' xs' ∧
    setsigningtime (λ _, true) three_heap three_indices three_keys 2 9 =
      Some (result, h', ix', set_field three_keys 2 9).
Proof.
  destruct (setsigningtime_spec three_heap three_indices [1; 2; 3] three_keys 2 9 (λ _, true)
    three_heap_at tracked_2 eq_refl eq_refl) as ((r & h' & ix' & xs' & E & H & _) & _).
  by exists r, h', ix', xs'.
Defined.

Lemma getsigningtime_earliest_witness :
  ∃ header, getsigningtime three_keys [three_heap] = Some (ISC_R_SUCCESS, Some header) ∧
    header = 1.
Proof.
  destruct (getsigningtime_earliest three_keys 0 [three_heap] [three_indices] [[1; 2; 3]] eq_refl)
    as [[[=] _]|(header & E & _)].
  - constructor; [exact three_heap_at|constructor].
  - intros x Hx. cbn in Hx. assert (x = 1 ∨ x = 2 ∨ x = 3) as [->|[->| ->]] by set_solver;
      cbn; lia.
  - exists header. split; [done|]. cbn in E. by injection E.
Defined.

(** ** The lock *)

(** One thread writes while another, that wants to read, sleeps. *)
Definition writer_reader : list move :=
  [Call 0 WL_xadd; Run 0; Run 0; Run 0; Run 0; Run 0; Call 1 RL_req; Run 1; Run 1; Run 1; Run 1;
   Run 1; Run 1; Run 1].

Lemma writer_reader_reached :
  ∃ s, reachable 2 0 (s, [Writing; RL_asleep]) ∧ cnt_and_flag s = 1%Z.
Proof. eexists. split; [by apply (execute_reachable _ writer_reader)|done]. Qed.

Lemma rwlock_exclusion_witness : ∃ s, reachable 2 0 (s, [Writing; RL_asleep]) ∧
  RL_asleep ≠ Reading ∧ tstep s Writing ≠ Fault.
Proof.
  destruct writer_reader_reached as (s & Hr & _). exists s. split; [done|].
  destruct (rwlock_exclusion 2 0 s _ ltac:(done) Hr) as (H1 & H2 & _). split.
  - by apply (H1 0 1).
  - apply H2. by left.
Defined.

(** The writer has begun to unlock. *)
Lemma unlocking_reached : ∃ s, reachable 2 0 (s, [UW_flag; RL_asleep]).
Proof.
  eexists. by apply (execute_reachable _ (writer_reader ++ [Call 0 UW_flag])).
Qed.

Lemma rwlock_progress_witness : ∃ s i y, run i (s, [UW_flag; RL_asleep]) y.
Proof.
  destruct unlocking_reached as [s Hr]. exists s.
  apply (rwlock_progress 2 0 s [UW_flag; RL_asleep]); [done|exact Hr|..].
  - intros H. repeat (apply elem_of_cons in H as [H|H]; [discriminate H|]).
    by apply elem_of_nil in H.
  - intros H. repeat (apply elem_of_cons in H as [H|H]; [discriminate H|]).
    by apply elem_of_nil in H.
  - exists UW_flag. split; [by left|discriminate].
Defined.
