(* ===== verification/SamplesRbt.v ===== *)
(** * Sample levels of the name tree

    The hypotheses of the theorems on red-black levels hold of concrete
    stores. *)

From stdpp Require Import gmap.
From S2P Require Import Prelude Rbt RbtTree RbtLevel RbtAdd RbtFix RbtSwap RbtDelete.

#[local] Open Scope nat_scope.

(** The names 1, 2, 3 below the node 9; 4 is not yet linked. *)
Definition sample_level : store :=
  <[1 := Node None None (Some 2) true false]>
  (<[2 := Node (Some 1) (Some 3) (Some 9) false true]>
  (<[3 := Node None None (Some 2) true false]>
  (<[4 := Node None None None true false]> ∅))).
Definition sample_tree : tree := T false (T true E 1 E) 2 (T true E 3 E).

Lemma sample_level_ok : level sample_level (Some 2) (Some 9) sample_tree.
Proof.
  split; [done| |by apply (bool_decide_unpack _); vm_compute|].
  - cbn. by repeat split; vm_compute.
  - intros u [= <-]. by apply (bool_decide_unpack _); vm_compute.
Qed.

Lemma sample_tree_ok : rbt sample_tree 1.
Proof. repeat constructor. Qed.

Lemma addonlevel_spec_witness :
  ∃ m' root' t' n', dns_rbt_addonlevel sample_level 4 3 1 (Some 2) = Some (m', root') ∧
    level m' root' (Some 9) t' ∧ rbt t' n' ∧ color t' = false ∧ nodes t' = [1; 2; 3; 4] ∧
    ∀ q, q ≠ 4 → q ∉ nodes sample_tree → m' !! q = sample_level !! q.
Proof.
  destruct (addonlevel_spec sample_level (Some 2) (Some 9) sample_tree 1 4 3 1 true) as [_ H];
    [reflexivity|].
  apply (H (Node None None (Some 2) true false) [1; 2] []); try reflexivity.
  - exact sample_level_ok.
  - exact sample_tree_ok.
  - discriminate.
  - by apply (bool_decide_unpack _); vm_compute.
Defined.

Lemma deletefromlevel_spec_witness :
  ∃ m' root' t' n', dns_rbt_deletefromlevel sample_level 2 (Some 2) = Some (m', root') ∧
    level m' root' (Some 9) t' ∧ rbt t' n' ∧ color t' = false ∧ nodes t' = [1] ++ [3] ∧
    (∀ q, q ∉ nodes sample_tree → m' !! q = sample_level !! q).
Proof.
  apply (deletefromlevel_spec sample_level (Some 2) (Some 9) sample_tree 1 2 [1] [3]);
    [exact sample_level_ok|exact sample_tree_ok|reflexivity|reflexivity].
Defined.

(** The recolouring of the root's children, run. *)
Example sample_add_runs :
  (λ r, (r.1 !! 1, r.2)) <$> dns_rbt_addonlevel sample_level 4 3 1 (Some 2) =
    Some (Some (Node None None (Some 2) false false), Some 2).
Proof. vm_compute. reflexivity. Qed.
