(* ===== verification/SamplesTree.v ===== *)
(** * The name tree at concrete inputs

    Trees with a few names, built and searched by evaluation, and the
    theorems of [NameMap.v], [NameDestroy.v] and [NameIterate.v] applied to them. *)

From stdpp Require Import gmap.
From S2P Require Import Prelude Rdata Name Rbt RbtTree NameTree NameChain NameFind NameDelete NameForest NameGrow NameAdd NameFree NameRemove NameErase NameFindSpec NamePred NameMap NameDestroy NameNext NameIterate.

#[local] Open Scope nat_scope.

(** Memory that never runs out, and a constant random vector. *)
Definition next_address (m : store) : option ptr := Some (fresh (dom m)).

Lemma next_address_fresh m p : next_address m = Some p → m !! p = None.
Proof. intros [= <-]. apply not_elem_of_dom, is_fresh. Qed.

Definition ones : list Z := replicate 256 1%Z.

Lemma ones_long : DNS_NAME_MAXWIRE < length ones.
Proof. vm_compute. lia. Qed.

Definition all_tables (z : Z) : bool := true.

Definition empty_tree : dns_rbt := DnsRbt ∅ ∅ None 0 (replicate 64 None) 64.

(** [org.], [isc.org.], [www.isc.org.], [ftp.isc.org.] and [WWW.isc.org.] *)
Definition org_labels : list label := [[111; 114; 103]; []]%Z.
Definition isc_labels : list label := ([105; 115; 99] :: org_labels)%Z.
Definition www_labels : list label := ([119; 119; 119] :: isc_labels)%Z.
Definition ftp_labels : list label := ([102; 116; 112] :: isc_labels)%Z.
Definition WWW_labels : list label := ([87; 87; 87] :: isc_labels)%Z.

Definition sample_ops {A} (f : list label → A) : list (op A) :=
  [OpAdd (f www_labels) 1; OpAdd (f ftp_labels) 2; OpAdd (f WWW_labels) 3; OpAdd (f org_labels) 4;
   OpDelete (f isc_labels) false; OpDelete (f www_labels) false].

Lemma sample_labels_ok (ls : list label) :
  Forall (λ l, length l <= 63) ls → Forall (λ l, l ≠ []) (removelast ls) → length (enc_labels ls) <= 255 →
  labels_ok ls.
Proof.
  intros H1 H2 H3. split; [done| |done]. intros i Hi. destruct ls as [|l ls _] using rev_ind; [done|].
  rewrite removelast_last in H2. rewrite length_app. cbn.
  destruct (decide (i < length ls)) as [Hlt|Hge].
  - rewrite lookup_app_l in Hi by done. rewrite Forall_lookup in H2. by destruct (H2 i [] Hi).
  - apply lookup_lt_Some in Hi. rewrite length_app in Hi. cbn in Hi. lia.
Qed.

Lemma www_repr : name_repr (name_of www_labels) www_labels.
Proof.
  apply name_of_repr, sample_labels_ok; [repeat constructor; cbn; lia|repeat constructor; done|vm_compute; lia].
Qed.
Lemma ftp_repr : name_repr (name_of ftp_labels) ftp_labels.
Proof.
  apply name_of_repr, sample_labels_ok; [repeat constructor; cbn; lia|repeat constructor; done|vm_compute; lia].
Qed.
Lemma WWW_repr : name_repr (name_of WWW_labels) WWW_labels.
Proof.
  apply name_of_repr, sample_labels_ok; [repeat constructor; cbn; lia|repeat constructor; done|vm_compute; lia].
Qed.
Lemma org_repr : name_repr (name_of org_labels) org_labels.
Proof.
  apply name_of_repr, sample_labels_ok; [repeat constructor; cbn; lia|repeat constructor; done|vm_compute; lia].
Qed.

Lemma isc_repr : name_repr (name_of isc_labels) isc_labels.
Proof.
  apply name_of_repr, sample_labels_ok; [repeat constructor; cbn; lia|repeat constructor; done|vm_compute; lia].
Qed.

(** The second addition splits the node of the first, the third finds it, the
    fourth puts a node above both. The first deletion meets a node without
    data, the second takes the first name away. *)
Example sample_results :
  snd <$> run_ops next_address all_tables ones true empty_tree (sample_ops name_of) =
    Some [(ISC_R_SUCCESS, []); (ISC_R_SUCCESS, []); (ISC_R_EXISTS, []); (ISC_R_SUCCESS, []);
          (ISC_R_NOTFOUND, []); (ISC_R_SUCCESS, [1])].
Proof. vm_compute. reflexivity. Qed.

Definition sample_tree_of (more : list (op name)) : option dns_rbt :=
  fst <$> run_ops next_address all_tables ones true empty_tree (sample_ops name_of ++ more).

Example sample_lookup :
  (s ← sample_tree_of []; dns_rbt_findname ones s (name_of www_labels) (FindOptions false false false)) =
    Some (DNS_R_PARTIALMATCH, Some 4).
Proof. vm_compute. reflexivity. Qed.

(** A recursive deletion from the top empties the tree. *)
Example sample_delete_all :
  (s ← sample_tree_of [OpDelete (name_of org_labels) true]; Some (rbt_root s, nodecount s)) = Some (None, 0%Z).
Proof. vm_compute. reflexivity. Qed.

(** Destroying it two nodes at a time. *)
Example sample_destroy :
  (s ← sample_tree_of [];
   '(s, r1, d1) ← dns_rbt_destroy2 true s 2;
   '(s, r2, d2) ← dns_rbt_destroy2 true s 2; Some (r1, d1, r2, d2, nodecount s)) =
    Some (ISC_R_QUOTA, [2], ISC_R_SUCCESS, [4], 0%Z).
Proof. vm_compute. reflexivity. Qed.

Lemma addnode_spec_witness :
  ∃ s' result node,
    dns_rbt_addnode next_address all_tables ones empty_tree (name_of www_labels) = Some (s', result, node) ∧
    added ones empty_tree (λ _, E) (λ _, []) www_labels s' result node.
Proof.
  apply (addnode_spec next_address next_address_fresh all_tables ones ones_long).
  - by apply (created_tree all_tables).
  - exact www_repr.
  - reflexivity.
Defined.


Lemma deletenode_spec_witness :
  ∃ s lv own p P, name_tree ones s lv own ∧ named lv own p P ∧ same_labels P www_labels ∧
    ∃ s' lv' ds, dns_rbt_deletenode true s p false = Some (s', ds) ∧ erased ones s lv own true p false s' lv' ds.
Proof.
  destruct (addnode_added next_address next_address_fresh all_tables ones ones_long empty_tree _ _
    (name_of www_labels) www_labels (created_tree all_tables ones empty_tree eq_refl) www_repr eq_refl)
    as (s & result & node & Hrun & lv & own & X & HT & HX & _ & Hres).
  assert (result = ISC_R_SUCCESS) as -> by (vm_compute in Hrun; by injection Hrun as _ <- _).
  destruct Hres as (_ & p & P & X' & _ & HpX & Hs & _).
  assert (named lv own p P) as HP.
  { apply (ex_named _ _ _ _ _ _ _ HX). right. rewrite HpX. apply elem_of_cons. by left. }
  exists s, lv, own, p, P. split; [exact HT|]. split; [exact HP|]. split; [exact Hs|].
  apply (deletenode_spec ones true s lv own p P false HT HP).
Defined.


Lemma names_map_spec_witness :
  ∃ s rs m, run_ops next_address all_tables ones true empty_tree (sample_ops name_of) = Some (s, rs) ∧
    map_ops true [] (sample_ops id) rs m ∧
    ∀ n N np, name_repr n N → is_root_last N = true →
      ∃ result v, dns_rbt_findname ones s n (FindOptions false false np) = Some (result, v) ∧
        map_find m N result v.
Proof.
  apply (names_map_spec next_address next_address_fresh all_tables ones ones_long); [reflexivity|].
  unfold sample_ops, id.
  apply Forall2_cons; split; [apply repr_add; [exact www_repr|reflexivity]|].
  apply Forall2_cons; split; [apply repr_add; [exact ftp_repr|reflexivity]|].
  apply Forall2_cons; split; [apply repr_add; [exact WWW_repr|reflexivity]|].
  apply Forall2_cons; split; [apply repr_add; [exact org_repr|reflexivity]|].
  apply Forall2_cons; split; [apply repr_delete; [exact isc_repr|reflexivity]|].
  apply Forall2_cons; split; [apply repr_delete; [exact www_repr|reflexivity]|].
  apply Forall2_nil_2.
Defined.

(** Both walks over a tree with three names, by the data of its nodes; the
    one made by the split has none. *)
Example sample_walk :
  (s ← sample_tree_of [OpAdd (name_of www_labels) 7];
   '(_, c, _, _) ← dns_rbtnodechain_first s false false;
   up ← walk (λ c, dns_rbtnodechain_next s c false false) (size (outers s)) c;
   '(_, c, _, _) ← dns_rbtnodechain_last s false false;
   down ← walk (λ c, dns_rbtnodechain_prev s c false false) (size (outers s)) c;
   let values (l : list ptr) : list (option (option nat)) := (λ p, data <$> outers s !! p) <$> l in
   Some (values up, values down)) =
    Some ([Some (Some 4); Some None; Some (Some 2); Some (Some 7)],
          [Some (Some 7); Some (Some 2); Some None; Some (Some 4)]).
Proof. vm_compute. reflexivity. Qed.

Lemma iterate_spec_witness :
  ∃ s lv own r, name_tree ones s lv own ∧ rbt_root s = Some r ∧
    ∃ c c' l, dns_rbtnodechain_first s false false = Some (DNS_R_NEWORIGIN, c, None, None) ∧
      walk (λ c, dns_rbtnodechain_next s c false false) (size (outers s)) c = Some l ∧
      dns_rbtnodechain_last s false false = Some (DNS_R_NEWORIGIN, c', None, None) ∧
      walk (λ c, dns_rbtnodechain_prev s c false false) (size (outers s)) c' = Some (reverse l) ∧
      StronglySorted (before lv own) l ∧ ∀ p, p ∈ l ↔ p ∈ dom (outers s).
Proof.
  destruct (addnode_added next_address next_address_fresh all_tables ones ones_long empty_tree _ _
    (name_of www_labels) www_labels (created_tree all_tables ones empty_tree eq_refl) www_repr eq_refl)
    as (s & result & node & Hrun & lv & own & X & HT & HX & _ & Hres).
  pose proof (iterate_spec ones s lv own HT) as H.
  destruct (rbt_root s) as [r|] eqn:Hr; [|].
  - exists s, lv, own, r. split; [exact HT|]. split; [exact Hr|exact H].
  - exfalso. vm_compute in Hrun. injection Hrun as <- _ _. discriminate Hr.
Defined.
