(* ===== verification/SamplesMessage.v ===== *)
(** * Messages at concrete inputs

    Messages of a few records, parsed by evaluation, and the theorems of
    [ParseMessage.v] applied to them. *)
From S2P Require Import Prelude Qsort Rdata Name FromWire Compress Slab RbtdbRdataset Order Answer Message MessageParse Gather ParseRules ParseSpec ParseRecord ParseMessage.

(** Memory that never runs out, and the attributes of some types. *)
Definition always (k : nat) : bool := true.

Definition sample_types : RdataTypes := {|
  dns_rdatatype_questiononly t := bool_decide (251 <= t <= 255)%Z;
  dns_rdatatype_issingleton t := bool_decide (t = 5 ∨ t = 6 ∨ t = 39)%Z |}.

Definition new_message : message rdatalist :=
  default (Message (Header 0 0 0 0) 0 [] [] None None None None None None 0 0 0 false false None None (Pools 0 0 0 0)
    (Render 0 0 0 None dns_compress_init)) (dns_message_create always DNS_MESSAGE_INTENTPARSE dns_compress_init).2.

Lemma new_message_fresh : fresh DNS_MESSAGE_INTENTPARSE new_message.
Proof. by split. Qed.

(** ** An answer *)

(** [a.] has the addresses 10.0.0.1 and, spelt [A.], 10.0.0.2. *)
Definition answer_bytes : mem :=
  ([18; 52; 129; 128; 0; 1; 0; 2; 0; 0; 0; 0] ++ [1; 97; 0; 0; 1; 0; 1] ++
   [192; 12; 0; 1; 0; 1; 0; 0; 1; 44; 0; 4; 10; 0; 0; 1] ++ [1; 65; 0; 0; 1; 0; 1; 0; 0; 0; 200; 0; 4; 10; 0; 0; 2])%Z.

Lemma answer_bytes_ok : bytes_ok answer_bytes.
Proof. repeat (constructor; [unfold is_byte; lia|]). constructor. Qed.

Definition a_labels : list label := [[97]; []]%Z.
Definition address (d : Z) : rdata := Rdata [10; 0; 0; d]%Z dns_rdataclass_in dns_rdatatype_a 0.

(** What is parsed: one name, one rdataset, with the smaller TTL. *)
Example answer_parsed :
  option_map (λ '(r, m), (r, m_header m, m_sections m, m_opt m))
    (@dns_message_parse always only_a_fromwire sample_types answer_bytes 0 new_message 0) =
  Some (ISC_R_SUCCESS, Header 4660 0x8180 0 0,
    [[Mname (name_of a_labels) [Rrset (RdsInfo 1 (2 ^ 32 - 1) 1 1 0) 0 0 (Rdatalist 1 [] None)]];
     [Mname (name_of a_labels) [Rrset (RdsInfo DNS_RDATASETATTR_TTLADJUSTED (2 ^ 32 - 1) 1 1 200) 0 0
        (Rdatalist 1 [address 1; address 2] None)]]; []; []], None).
Proof. vm_compute. reflexivity. Qed.

Lemma parse_safe_witness :
  ∃ r m, @dns_message_parse always only_a_fromwire sample_types answer_bytes 8 new_message 0 = Some (r, m) ∧ msg_ok m ∧
    ∀ intent, intent = DNS_MESSAGE_INTENTPARSE ∨ intent = DNS_MESSAGE_INTENTRENDER →
      ∃ m', dns_message_reset m intent = Some m' ∧ fresh intent m'.
Proof.
  apply (@parse_safe always only_a_fromwire only_a_fromwire_ok sample_types answer_bytes answer_bytes_ok 8 eq_refl new_message 0).
  apply new_message_fresh.
Defined.

(** The result and the opcode. *)
Definition outcome_of (x : option (isc_result * message rdatalist)) : option (isc_result * Z) :=
  option_map (λ '(r, m), (r, opcode (m_header m))) x.

Lemma parse_gathers_witness :
  ∃ m qs an ns ar secs,
    @dns_message_parse always only_a_fromwire sample_types answer_bytes 0 new_message 0 = Some (ISC_R_SUCCESS, m) ∧
    message_in answer_bytes (@record_at only_a_fromwire answer_bytes parse_dctx) 0 (m_counts m) qs an ns ar ∧ m_sections m = asked qs :: secs.
Proof.
  assert (outcome_of (@dns_message_parse always only_a_fromwire sample_types answer_bytes 0 new_message 0) =
    Some (ISC_R_SUCCESS, 0%Z)) as Ho by (vm_compute; reflexivity).
  destruct (@dns_message_parse always only_a_fromwire sample_types answer_bytes 0 new_message 0) as [[r m]|] eqn:E; [|done].
  injection Ho as -> Hop.
  destruct (@parse_gathers always only_a_fromwire only_a_fromwire_ok sample_types answer_bytes answer_bytes_ok 0 eq_refl new_message 0 m
    new_message_fresh E) as (qs & an & ns & ar & secs & Hin & Hs & _); [by rewrite Hop|done|].
  exists m, qs, an, ns, ar, secs. exact (conj eq_refl (conj Hin Hs)).
Defined.

(** The names in the message. *)
Lemma answer_name : wire_at true answer_bytes 12 12 a_labels 3.
Proof. apply (wire_label _ _ _ _ [97%Z]); [cbn; lia|done|]. by apply wire_root. Qed.

Lemma address_here pos d :
  mread answer_bytes pos 4 = Some [10; 0; 0; d]%Z →
  @rdata_here only_a_fromwire answer_bytes parse_dctx dns_rdataclass_in dns_rdatatype_a pos 4 (address d).
Proof.
  intros Hr avail. unfold dns_rdata_fromwire. rewrite (bool_decide_false (dns_rdatatype_a = 0%Z)) by done. rewrite (bool_decide_true (_ < 65536)%Z) by lia.
  unfold fromwire_switch, only_a_fromwire, fromwire_in_a.
  rewrite !(bool_decide_true (dns_rdatatype_a = dns_rdatatype_a ∧ dns_rdataclass_in = dns_rdataclass_in)) by done.
  rewrite (bool_decide_false (pos + 4 - pos < 4)) by lia. destruct (decide (avail < 4)) as [Ha|Ha].
  - right. rewrite (bool_decide_true (avail < 4)) by done. cbn [mbind option_bind]. rewrite (bool_decide_false (_ ∧ _)) by (by intros [? _]).
    rewrite bool_decide_false by done. split; [done|lia].
  - left. rewrite (bool_decide_false (avail < 4)) by done. rewrite Hr. cbn [mbind option_bind].
    rewrite (bool_decide_false (_ ∧ _)) by (by intros [_ ?]). by rewrite bool_decide_true.
Qed.

Lemma answer_well_formed : @well_formed only_a_fromwire sample_types answer_bytes 0 0.
Proof.
  split; [done|]. eexists _, _, (Question (name_of a_labels) 1 1), [], [Rec (name_of a_labels) 300 (address 1);
    Rec (name_of [[65]; []]%Z) 200 (address 2)], [], []. split_and!; try done.
  - by exists 4660%Z, 33152%Z, 1%Z, 2%Z, 0%Z, 0%Z.
  - done.
  - exists 19, 52. split_and!; [done| |done| |cbn; lia].
    + exists 19. split; [|done]. exists 3. split_and!; [|done..]. exists a_labels. split_and!; [done|apply answer_name|unfold DNS_NAME_MAXWIRE; cbn; lia].
    + exists 35. split; [|exists 52; split; [|done]].
      * exists 2, 4. split_and!; [|done|done|cbn; lia|by apply address_here]. exists a_labels. split_and!; [done| |unfold DNS_NAME_MAXWIRE; cbn; lia].
        eapply (wire_pointer _ _ _ _ 192 12); [done|done|done|lia|unfold is_byte; lia|cbn; lia|apply answer_name].
      * exists 3, 4. split_and!; [|done|done|cbn; lia|by apply address_here]. exists [[65]; []]%Z. split_and!; [done| |unfold DNS_NAME_MAXWIRE; cbn; lia].
        apply (wire_label _ _ _ _ [65%Z]); [cbn; lia|done|]. by apply wire_root.
  - split_and!; try done; by apply (bool_decide_eq_true_1 _).
Qed.


(** ** Flaws *)

(** With its best effort, a message that has a TSIG record in its answer
    section and another, valid, at its end fails an assertion: the first is
    remembered although it is in the wrong place, and as the second section
    has no problem of its own, the second is then left over. *)
Definition tsig_record : mem :=
  [0; 0; 250; 0; 255; 0; 0; 0; 0; 0; 17; 0; 0; 0; 0; 0; 0; 0; 1; 44; 0; 0; 18; 52; 0; 0; 0; 0]%Z.

Example tsig_twice_fails :
  let m := ([18; 52; 1; 0; 0; 0; 0; 1; 0; 0; 0; 1]%Z ++ tsig_record ++ tsig_record) in
  @dns_message_parse always only_a_fromwire sample_types m DNS_MESSAGEPARSE_BESTEFFORT new_message 0 = None ∧
  outcome_of (@dns_message_parse always only_a_fromwire sample_types m 0 new_message 0) = Some (DNS_R_FORMERR, 0%Z).
Proof. vm_compute. done. Qed.

(** An OPT record is taken from any section. *)
Example opt_in_answer :
  let m := [18; 52; 1; 0; 0; 0; 0; 1; 0; 0; 0; 0; 0; 0; 41; 16; 0; 0; 0; 0; 0; 0; 0]%Z in
  option_map (λ '(r, m), (r, bool_decide (m_opt m = None)))
    (@dns_message_parse always only_a_fromwire sample_types m 0 new_message 0) = Some (ISC_R_SUCCESS, false).
Proof. vm_compute. done. Qed.
